(* ===== verification/_CoqProject ===== *)
-Q . S2P
Prelude.v
PyText.v
Crypto.v
Exceptions.v
Config.v
Models.v
ServiceTables.v
Identity.v
Session.v
AuditTrail.v
Ledger.v
Urls.v
CentralPay.v
Security.v
PayerIdentity.v
Fees.v
Payments.v
Bot.v
Notification.v
Resend.v
Verification.v
Reconciliation.v
Inspect.v
AgedOut.v
Reviews.v
Attention.v
Stuck.v
Integrity.v
Ops.v
RateLimit.v
ClientIp.v
ConfigUrls.v
Startup.v
Api.v
Unicode.v
JsonText.v
Body.v
CreateRoute.v
AlertDelivery.v
Format.v
Logging.v
ReplyDelivery.v
AdminAccess.v
Incidents.v
Heartbeat.v
ReconStatus.v
BackupCheck.v
Monitor.v
HealthWatch.v
DailyReport.v
Views.v
HealthRoutes.v
Loops.v
System.v
