(* ===== verification/Prelude.v ===== *)
(** * CentralPay Bridge: a verification library

    The bridge ([src/app]) stands between a shop bot, the payment gateway
    CentralPay and a PostgreSQL database. The bot asks for a payment link;
    the payer pays at the gateway, which sends the browser back to a signed
    callback; the bridge verifies the payment with the gateway and notifies
    the bot. A worker retries the notifications and reconciles payments whose
    callback never came; an operator inspects and repairs with a command
    line; an admin bot delivers alerts, and a monitor checks the system and
    keeps incidents. This library models the decisions and the database effects of all
    of these and proves what makes them correct.

    ** The files and the code they model

    - [Prelude]: records with functional update, JSON values, generic lists.
      [PyText]: Python's text functions. [Crypto]: SHA-256 and HMAC.
    - [Exceptions] (exceptions.py, reasons.py), [Config] (config.py),
      [Models] (models.py): classes, settings and rows as data, the CHECK
      constraints as boolean functions.
    - [Session] (db.py and SQLAlchemy's session): the state monad every
      handler is written in. [AuditTrail] (audit.py, the creation side of
      adminbot/alerts.py). [Ledger]: the contract of all handlers, see below.
    - [Urls] (urllib.parse.urlsplit), [CentralPay] (centralpay.py), [Security]
      (security.py), [Bot] (the classification of bot.py), [RateLimit]
      (ratelimit.py): parsing, classification, signatures, rate limits.
    - [Identity], [PayerIdentity] (services/payer_identity.py), [Fees]
      (services/fees.py), [Payments] (services/payments.py): creation.
    - [Verification] (services/verification.py): the callback, and
      [verify_and_settle], the one path that verifies a payment;
      [Reconciliation] (services/reconciliation.py), [Inspect]
      (payment_lookup.py, reconcile_inspect.py, [_cmd_reconcile] of cli.py)
      and [AgedOut] (aged_out_recovery.py) are its other clients.
    - [Notification] (services/notification.py), [Resend] (bulk_resend.py and
      [cmd_resend_failed]): delivery to the bot and its repair.
    - [Reviews] (review_resolution.py, [_cmd_review] of ops.py), [Attention]
      (attention.py), [Stuck] (adminbot/queries.py, stuck_payments.py),
      [Integrity] (db-check and privacy-audit of ops.py), [Ops] (ops.py and
      recover-aged-out of cli.py): what the operator sees and does.
    - [ClientIp] (clientip.py and Python's [ipaddress]), [Api]
      (api/callback.py, api/payments.py): the routes and their gates.
    - [Unicode], [JsonText] (the UTF-8 codec, [parse_qsl] and [json.loads] of
      Python's library), [Body] (the request decoder of api/payments.py),
      [CreateRoute] (the creation route from bytes to response, with the
      exception handlers of main.py).
    - [ServiceTables]: the invariants of alerts, incidents and heartbeats.
      [AlertDelivery] (the delivery half of adminbot/alerts.py,
      adminbot/telegram.py), [Heartbeat] (services/heartbeat.py), [Incidents]
      (services/monitor_incidents.py), [ReconStatus]
      (services/reconciliation_status.py), [BackupCheck] and [Monitor]
      (services/monitor_checks.py, monitor.py).
    - [ConfigUrls] and [Startup] (config.py): the outbound URLs, the
      construction of the settings and the checks each service makes of them.
    - [HealthRoutes] (api/health.py): liveness, readiness and details.
    - [Format] (adminbot/format.py), [Logging] (logging_setup.py,
      middleware.py): messages and log lines as texts of code points.
    - [AdminAccess] (adminbot/auth.py, the dispatch of adminbot/commands.py,
      [on_message] of adminbot/runner.py), [Views] (the handlers of
      adminbot/commands.py and the texts they reply), [ReplyDelivery]
      (adminbot/reply_delivery.py), [HealthWatch] (adminbot/health.py),
      [DailyReport] (adminbot/reports.py): the admin bot. [Loops] (worker.py,
      adminbot/runner.py, adminbot/__main__.py): the background loops.
    - [System]: all of these together.

    ** State and operations

    A row is a record with one field per column, nullable columns as options,
    timestamps in microseconds; a table is a finite map from ids to rows, the
    event table a list, newest first. An insert that would violate a unique
    column raises [IntegrityError]. A function of the code that takes a session is a
    function in the monad [M]: it passes a [World] (the committed database,
    the one its transaction sees, the objects its session caches, the log of
    external calls) and returns a value or raises an [Exn]. Statements have
    the order of the source. The log holds the requests to the gateway, the
    bot, Telegram and the public readiness endpoint; probes of the bridge's
    own API on the internal network are not in it. What a call of the outside
    answers is a parameter ([Env]): the clock, randomness, the replies of
    gateway and bot, failures of the alert insert.

    The id sequences of the server are a state of their own ([Sequences] of
    [Integrity]), which only the operator's command line reads and, to repair
    them, writes; inserted rows take [next_id] of their table.

    The session's identity map matters and is modelled: a query returns the
    object the session already holds, stale columns included, unless it says
    [populate_existing] or the object was expired. Two of the findings are
    consequences. SQLAlchemy also writes no column assigned the value it had;
    that is modelled where it can be observed, in [Resend].

    The routes add the process: limiters and storm tracker, shared by all
    requests and changed by one atomic operation at a time ([Process] and
    [Host] of [Api]).

    ** Concurrency

    Between transactions, and where a statement may wait for a lock, other
    sessions may commit: [begin_tx] continues with [others n d], a function
    of the environment. [locked_by_others] decides which rows [SKIP LOCKED]
    skips. Handlers are proved correct for every such environment that keeps
    the ledger's contract ([Rely]); [System] discharges the assumption: a
    [history] interleaves any number of operations, where what the others do
    during an operation is a history again. The statements of one transaction
    see one snapshot, and the commits an operation makes before it is
    complete are not interleaved with other operations' commits more finely
    than its own transactions allow. A theorem that needs more of the other
    sessions says so: the monitor that none writes incidents
    ([undisturbed]), an alert pass that none takes a claim in its name
    ([takes_none]), the audit of a command that none writes at all
    ([alone] of [AdminAccess]), the bulk resend that none makes a payment
    eligible ([others_add_none]).

    ** What the theorems show

    [Ledger] states the contract. [row_ok] is the invariant of a row (for
    instance: a payment carries a gateway reference exactly when it is
    verified, and the payer is charged amount plus fee); [db_ok] lifts it to
    the tables and adds the unique columns; [row_evolves] and [db_legal] say
    what no operation may do (lose a payment, reprice it, retract a
    verification or an accepted delivery, rewrite the audit trail); [steady]
    says that a session committed only such changes. Each handler has a lemma
    [wp_...] with its full effect, from which its properties follow:

    - [System]: every reachable database is well formed, and what is settled
      stays settled, in every interleaving.
    - [Payments], [PayerIdentity]: one request to the gateway, for the amount
      the row froze; links are never handed to another payer; the locked row
      alone decides; a work-free replay equals the full computation.
    - [Verification], [Reconciliation], [AgedOut], [Inspect]: a payment is
      verified only when the gateway confirmed exactly this payment;
      settlement refines its contract on every answer; the pass terminates,
      is fair and bounded; the diagnostic prediction equals settlement.
    - [Notification], [Bot], [Resend]: in safe mode no ambiguous outcome is
      resent; results of lost claims are dropped; the bulk resend requeues
      distinct payments, once each, and terminates, or loops forever in the
      one race that [requeue_livelock] exhibits.
    - [Reviews], [Attention], [Stuck], [Integrity], [Ops]: operator commands
      change what they say and nothing else; guards and worklists agree;
      totals are exact; the integrity checks decide their declarative
      meaning; unconfirmed commands commit nothing and set no sequence; a
      repair sets exactly the sequences that are behind.
    - [Api], [ClientIp]: the routes act only on authentic requests, inside
      the budgets or as safe replays, which are never starved; one address is
      one bucket, however it is spelled.
    - [Body], [CreateRoute]: an accepted request is typed and bounded and no
      body crashes the decoder; every representation of a document is the
      same request, a form and a JSON document that say the same agree, and
      the legacy recoveries exclude each other; the route answers 422 to
      every other body and reaches its gates as the bytes say it.
    - [AlertDelivery]: a pass settles every alert it claims, or keeps claims
      it took when a message cannot be written; outcomes of lost claims are
      dropped; recipients get the parts of a message in order.
    - [Incidents], [Monitor], [ReconStatus], [BackupCheck], [Heartbeat]: every
      configured check is answered in every outage; a pass makes the open
      incidents those its results call for, with one alert per transition; an
      ongoing problem is always reported; the status counts what the worker
      selects; a truncated manifest is never accepted; a heartbeat keeps
      exactly its worker alive.
    - [AdminAccess], [ReplyDelivery]: strangers change nothing, reading
      commands leave their trace in the audit trail and nowhere else, the
      alert outbox included; a reply goes out in
      order, within its budget of waiting, and respects flood control.
    - [HealthRoutes]: the routes always answer and change nothing; 200 means
      that every query was answered, and the figures are the database's.
    - [Format], [Views]: every alert and every reply is well-formed markup
      whatever the database holds, in chunks within the limit that lose
      nothing but newlines; [/stuck] fits one.
    - [Logging]: a log line hides the configured secrets; every response
      carries the id its request was logged under.
    - [HealthWatch], [DailyReport], [Loops]: a check is announced exactly when
      its health changes, over any sequence of passes; a report is queued
      when due by the clock, and no day is reported twice; the loops outlive
      whatever their passes raise, run the health watch and the report on
      their turns only, and their heartbeats say how the last turn went.
    - [ConfigUrls], [Startup]: the normalisers accept exactly the documented
      URLs and are idempotent; settings that load are canonical.
    - [Fees], [RateLimit], [CentralPay], [Security]: rounding, round trips,
      equivalence of the pruned window with the unpruned one, conservative
      parsing.

    ** Bounds and fuel

    Integers are unbounded as in Python; where the source bounds them (BIGINT
    columns, MAX_RATE_BPS, digits of an integer text) the bound is written
    out. Loops that the source bounds have the same bound: 100 derivations of
    a payer id, 5 order ids, the batch size of a pass. [record_event] may
    nest once, because the event of an alert causes none. The bulk resend has
    no bound in the source; its fuel is an argument, and the number of
    eligible payments plus one suffices ([requeue_terminates]).

    ** Not modelled

    Text beyond Latin-1, except in request bodies and rendered messages,
    where a text is a list of code points; float durations are integer
    microseconds, and their texts, the Jalali calendar and time zones are
    arguments of [Format]. Left out: the HTML page of the
    callback, a fixed template; argument parsing and the terminal output of the
    command line, with the drill-down of [db-check --details]; the HTTP exchanges themselves ([gateway_post], [bot_post],
    [AlertSender], [MonitorEnv]); creation times of events (a parameter of
    [Stuck], and [EventTimes]); what the services log, except the records of
    the middleware and of the reply delivery. The nesting the interpreter's
    recursion limit allows and the treatment of lone surrogates by the
    validation library are arguments of [Body]. The application factory, the
    engine and the installation of the log handler are glue. *)

From stdpp Require Export base tactics decidable option list gmap strings fin_maps pretty.
From Stdlib Require Export ZArith Lia Sorted.

#[global] Open Scope string_scope.
#[global] Open Scope list_scope.
#[global] Open Scope Z_scope.
#[global] Set Default Goal Selector "!".

(** ** Functional record update *)

(** [Eta R] gives the eta-expanded constructor of a record type; a field
    setter is derived from it by abstracting the projection. *)
Class Eta (R : Type) := eta_expand : R -> R.

Class Setter {R T : Type} (proj : R -> T) := set_field : (T -> T) -> R -> R.
Arguments set_field {R T} proj {_} _ _.

Ltac derive_setter :=
  lazymatch goal with
  | |- @Setter ?R ?T ?proj =>
      let inst := constr:(_ : Eta R) in
      let e := eval hnf in inst in
      lazymatch (eval pattern proj in e) with
      | ?F _ => exact (fun (upd : T -> T) (r : R) => F (fun r' => upd (proj r')) r)
      end
  end.

#[global] Hint Extern 1 (Setter _) => derive_setter : typeclass_instances.

Declare Scope record_scope.
Delimit Scope record_scope with record.
Notation "r <| f := v |>" := (set_field f (fun _ => v) r)
  (at level 1, f at level 200, left associativity, format "r  <| f  :=  v |>") : record_scope.
#[global] Open Scope record_scope.

(** ** Seconds and microseconds

    A Python [datetime] carrying the UTC zone is the number of microseconds
    since the epoch; [timedelta(seconds=n)] is [n] million of them. *)

Definition seconds (n : Z) : Z := n * 1000000.
Definition minutes (n : Z) : Z := seconds (60 * n).

Lemma seconds_le n m : n <= m -> seconds n <= seconds m.
Proof. unfold seconds. lia. Qed.

Lemma seconds_pos n : 0 < n -> 0 < seconds n.
Proof. unfold seconds. lia. Qed.

(** ** JSON values

    The data of audit events and the bodies exchanged with the gateway. A
    number with a fraction part is only ever tested for being zero, so it is
    kept as that fact. *)

#[warnings="-register-all"]
Inductive Json :=
  | JNull
  | JBool (b : bool)
  | JInt (z : Z)
  | JFloat (is_zero : bool)
  | JStr (s : string)
  | JList (l : list Json)
  | JObj (o : list (string * Json)).

Definition dict := list (string * Json).

(** [d.get(k)] on a dictionary, as an association list whose keys are
    unique: Python keeps the last of several equal keys when it parses, so a
    body never holds two. *)
Fixpoint dict_get (k : string) (d : dict) : option Json :=
  match d with
  | [] => None
  | (k', v) :: d' => if String.eqb k k' then Some v else dict_get k d'
  end.

(** [d.get(k)] with Python's [None] for a missing key. *)
Definition dict_getN (k : string) (d : dict) : Json :=
  match dict_get k d with Some v => v | None => JNull end.

(** Python truthiness ([bool(v)]). *)
Definition truthy (v : Json) : bool :=
  match v with
  | JNull => false
  | JBool b => b
  | JInt z => negb (z =? 0)
  | JFloat is_zero => negb is_zero
  | JStr s => negb (String.eqb s "")
  | JList l => match l with [] => false | _ => true end
  | JObj o => match o with [] => false | _ => true end
  end.

Definition json_of_option {A} (f : A -> Json) (o : option A) : Json :=
  match o with Some a => f a | None => JNull end.

(** ** Boolean tests on options (SQL [IS NULL], comparisons with a possibly
    NULL column, which are never true) *)

Definition is_none {A} (o : option A) : bool :=
  match o with None => true | Some _ => false end.
Definition is_some {A} (o : option A) : bool := negb (is_none o).

Definition opt_le (o : option Z) (b : Z) : bool :=
  match o with Some a => a <=? b | None => false end.
Definition opt_ge (o : option Z) (b : Z) : bool :=
  match o with Some a => b <=? a | None => false end.

Lemma is_some_true {A} (o : option A) : is_some o = true <-> exists a, o = Some a.
Proof. destruct o; cbn; split; solve [done | eauto | intros [? ?]; done]. Qed.
Lemma is_none_true {A} (o : option A) : is_none o = true <-> o = None.
Proof. destruct o; cbn; split; solve [done | eauto | intros [? ?]; done]. Qed.
Lemma is_none_false {A} (o : option A) : is_none o = false <-> exists a, o = Some a.
Proof. destruct o; cbn; split; solve [done | eauto | intros [? ?]; done]. Qed.
Lemma is_some_false {A} (o : option A) : is_some o = false <-> o = None.
Proof. destruct o; cbn; split; solve [done | eauto | intros [? ?]; done]. Qed.

Lemma alter_insert_of `{Countable K} {A} (f : A -> A) (m : gmap K A) k a :
  m !! k = Some a -> alter f k m = <[k := f a]> m.
Proof.
  intros Hk. apply map_eq. intros j. rewrite lookup_alter, lookup_insert. case_decide; [|done].
  subst. by rewrite Hk.
Qed.

(** ** Selecting one row: [ORDER BY ... LIMIT 1]

    [pick_min le l] is a least element of [l] for the boolean preorder [le],
    the first of them in the order of the list: SQL leaves the order of ties
    open. *)

Fixpoint pick_min {A} (le : A -> A -> bool) (l : list A) : option A :=
  match l with
  | [] => None
  | a :: l' =>
      match pick_min le l' with
      | None => Some a
      | Some b => if le a b then Some a else Some b
      end
  end.

Section PickMin.
Context {A : Type} (le : A -> A -> bool).

Lemma pick_min_None l : pick_min le l = None <-> l = [].
Proof.
  destruct l as [|a l]; cbn; [done|].
  split; [|done]. destruct (pick_min le l); [destruct (le a a0)|]; done.
Qed.

Lemma pick_min_In l a : pick_min le l = Some a -> In a l.
Proof.
  revert a. induction l as [|b l IH]; cbn; [done|]. intros a.
  destruct (pick_min le l) as [c|]; [destruct (le b c)|]; intros [= <-]; auto.
Qed.

Hypothesis le_total : forall a b, le a b = true \/ le b a = true.
Hypothesis le_trans : forall a b c, le a b = true -> le b c = true -> le a c = true.

Lemma pick_min_least l a : pick_min le l = Some a -> forall b, In b l -> le a b = true.
Proof.
  revert a. induction l as [|c l IH]; cbn; [done|]. intros a Ha b Hb.
  assert (Hrefl : forall x, le x x = true) by (intros x; destruct (le_total x x); done).
  destruct (pick_min le l) as [d|] eqn:Hd.
  - specialize (IH d eq_refl). destruct (le c d) eqn:Hcd; injection Ha as <-.
    + destruct Hb as [<-|Hb]; [done|]. eauto.
    + destruct Hb as [<-|Hb]; [|auto]. destruct (le_total c d); congruence.
  - injection Ha as <-. apply pick_min_None in Hd as ->.
    destruct Hb as [<-|[]]. done.
Qed.
End PickMin.

(** [ORDER BY]: insertion sort by the preorder [le]. *)
Fixpoint insert_by {A} (le : A -> A -> bool) (a : A) (l : list A) : list A :=
  match l with
  | [] => [a]
  | b :: l' => if le a b then a :: l else b :: insert_by le a l'
  end.

Fixpoint sort_by {A} (le : A -> A -> bool) (l : list A) : list A :=
  match l with [] => [] | a :: l' => insert_by le a (sort_by le l') end.

Lemma insert_by_Permutation {A} (le : A -> A -> bool) a l : insert_by le a l ≡ₚ a :: l.
Proof.
  induction l as [|b l IH]; cbn; [done|]. destruct (le a b); [done|].
  rewrite IH. apply Permutation_swap.
Qed.

Lemma sort_by_Permutation {A} (le : A -> A -> bool) l : sort_by le l ≡ₚ l.
Proof. induction l as [|a l IH]; cbn; [done|]. by rewrite insert_by_Permutation, IH. Qed.

Section Ordered.
Context {A : Type} (le : A -> A -> bool).
Hypothesis le_total : forall a b, le a b = true \/ le b a = true.
Hypothesis le_trans : forall a b c, le a b = true -> le b c = true -> le a c = true.

Lemma insert_by_sorted a l :
  StronglySorted (fun a b => le a b = true) l -> StronglySorted (fun a b => le a b = true) (insert_by le a l).
Proof.
  induction 1 as [|b l S IH F]; cbn; [by repeat constructor|]. destruct (le a b) eqn:E.
  - constructor; [by constructor|]. constructor; [done|]. rewrite List.Forall_forall in *. eauto.
  - constructor; [done|]. destruct (le_total a b) as [?|Hb]; [congruence|].
    rewrite List.Forall_forall in *. intros x Hx.
    eapply Permutation_in in Hx; [|apply insert_by_Permutation]. destruct Hx as [<-|Hx]; auto.
Qed.

Lemma sort_by_sorted l : StronglySorted (fun a b => le a b = true) (sort_by le l).
Proof. induction l; cbn; [constructor|by apply insert_by_sorted]. Qed.

Lemma sorted_prefix n l : StronglySorted (fun a b => le a b = true) l ->
  StronglySorted (fun a b => le a b = true) (take n l).
Proof.
  intros S. revert n. induction S as [|a l S IH F]; intros [|n]; cbn; constructor; [done|].
  rewrite List.Forall_forall in *. intros x Hx. apply F. rewrite <- (take_drop n l). apply in_app_iff. by left.
Qed.

(** What is cut off is not smaller. *)
Lemma sorted_take n l a b : StronglySorted (fun a b => le a b = true) l ->
  In a (take n l) -> In b (drop n l) -> le a b = true.
Proof.
  intros S. revert n. induction S as [|c l S IH F]; intros [|n] Ha Hb; cbn in *; try done.
  rewrite List.Forall_forall in F. destruct Ha as [->|Ha]; [|by apply (IH n)].
  apply F. rewrite <- (take_drop n l). apply in_app_iff. by right.
Qed.
End Ordered.

(** [WHERE flt ORDER BY le LIMIT n] over the rows [l]. *)
Definition select_batch {A} (flt : A -> bool) (le : A -> A -> bool) (n : nat) (l : list A) : list A :=
  take n (sort_by le (List.filter flt l)).

Lemma filter_map_NoDup {A B} (key : A -> B) (flt : A -> bool) l :
  NoDup (map key l) -> NoDup (map key (List.filter flt l)).
Proof.
  induction l as [|a l IH]; cbn; [done|]. intros [Hni Hnd]%NoDup_cons.
  destruct (flt a); [|auto]. cbn. apply NoDup_cons. split; [|auto].
  rewrite !list_elem_of_In in *. rewrite in_map_iff in *. intros (b & Hb & [Hin _]%filter_In).
  apply Hni. eauto.
Qed.

Section SelectBatch.
Context {A : Type} (flt : A -> bool) (le : A -> A -> bool) (n : nat) (l : list A).

Lemma select_batch_In a : In a (select_batch flt le n l) -> In a l /\ flt a = true.
Proof.
  unfold select_batch. rewrite <- list_elem_of_In. intros Hin%subseteq_take.
  rewrite sort_by_Permutation, list_elem_of_In, filter_In in Hin. done.
Qed.

Lemma select_batch_NoDup (key : A -> Z) : NoDup (map key l) -> NoDup (map key (select_batch flt le n l)).
Proof.
  unfold select_batch. intros H.
  apply (sublist_NoDup _ (map key (sort_by le (List.filter flt l))));
    [|apply (fmap_sublist key), sublist_take].
  rewrite (Permutation_map key (sort_by_Permutation le _)). by apply filter_map_NoDup.
Qed.

Lemma select_batch_complete a : (length (select_batch flt le n l) < n)%nat ->
  In a l -> flt a = true -> In a (select_batch flt le n l).
Proof.
  unfold select_batch. intros Hlen Hin Hf. rewrite length_take in Hlen.
  rewrite take_ge by lia. eapply Permutation_in; [symmetry; apply sort_by_Permutation|].
  by apply filter_In.
Qed.

Lemma select_batch_length : (length (select_batch flt le n l) <= n)%nat.
Proof. unfold select_batch. rewrite length_take. lia. Qed.

Lemma select_batch_length_min : length (select_batch flt le n l) = Nat.min n (length (List.filter flt l)).
Proof. unfold select_batch. by rewrite length_take, (Permutation_length (sort_by_Permutation _ _)). Qed.

Hypothesis le_total : forall a b, le a b = true \/ le b a = true.
Hypothesis le_trans : forall a b c, le a b = true -> le b c = true -> le a c = true.

(** The batch holds the first rows in the order. *)
Lemma select_batch_first a b : In a (select_batch flt le n l) ->
  In b l -> flt b = true -> ~ In b (select_batch flt le n l) -> le a b = true.
Proof.
  unfold select_batch. set (s := sort_by le _). intros Ha Hb Hf Hn.
  apply (sorted_take le n s a b (sort_by_sorted le le_total le_trans _) Ha).
  assert (Hin : In b s) by (eapply Permutation_in; [symmetry; apply sort_by_Permutation|by apply filter_In]).
  rewrite <- (take_drop n s) in Hin. by apply in_app_iff in Hin as [?|?].
Qed.
End SelectBatch.

(** ** Shared automation *)

Create HintDb bridge.

(** Split every boolean conjunction, disjunction and comparison test of the
    context into propositions. *)
Ltac bool_to_prop :=
  repeat match goal with
  | H : (_ && _)%bool = true |- _ => apply andb_true_iff in H as [? ?]
  | H : (_ || _)%bool = false |- _ => apply orb_false_iff in H as [? ?]
  | H : (_ || _)%bool = true |- _ => apply orb_true_iff in H
  | H : (_ && _)%bool = false |- _ => apply andb_false_iff in H
  | H : negb _ = true |- _ => apply negb_true_iff in H
  | H : negb _ = false |- _ => apply negb_false_iff in H
  | H : (_ <=? _) = true |- _ => apply Z.leb_le in H
  | H : (_ <=? _) = false |- _ => apply Z.leb_gt in H
  | H : (_ <? _) = true |- _ => apply Z.ltb_lt in H
  | H : (_ <? _) = false |- _ => apply Z.ltb_ge in H
  | H : (_ =? _) = true |- _ => apply Z.eqb_eq in H
  | H : (_ =? _) = false |- _ => apply Z.eqb_neq in H
  | H : String.eqb _ _ = true |- _ => apply String.eqb_eq in H
  | H : String.eqb _ _ = false |- _ => apply String.eqb_neq in H
  | H : bool_decide _ = true |- _ => apply bool_decide_eq_true in H
  | H : bool_decide _ = false |- _ => apply bool_decide_eq_false in H
  | H : is_some _ = true |- _ => apply is_some_true in H as [? ?]
  | H : is_some _ = false |- _ => apply is_some_false in H
  | H : is_none _ = true |- _ => apply is_none_true in H
  | H : is_none _ = false |- _ => apply is_none_false in H as [? ?]
  end.
