(* ===== verification/PyText.v ===== *)
(** Python text and integers as the source uses them.

    A Python [str] is the [string] of its characters, each an [ascii] that
    stands for the code point U+0000..U+00FF of the same number; text beyond
    Latin-1 is outside the model. Python's own functions on text that the
    bridge calls ([strip], [lower], slicing, [str(int)], [int(str)], UTF-8
    encoding) are written out here. *)

From S2P Require Import Prelude.

Definition code (c : Ascii.ascii) : Z := Z.of_N (Ascii.N_of_ascii c).
Definition char (z : Z) : Ascii.ascii := Ascii.ascii_of_N (Z.to_N z).

(** [str.isspace] on Latin-1, the characters that [strip()] removes. *)
Definition is_space (c : Ascii.ascii) : bool :=
  let z := code c in
  ((9 <=? z) && (z <=? 13)) || ((28 <=? z) && (z <=? 32)) || (z =? 133) || (z =? 160).

Definition is_ascii_digit (c : Ascii.ascii) : bool :=
  (48 <=? code c) && (code c <=? 57).

Definition lower_char (c : Ascii.ascii) : Ascii.ascii :=
  let z := code c in
  if ((65 <=? z) && (z <=? 90)) || ((192 <=? z) && (z <=? 222) && negb (z =? 215))
  then char (z + 32) else c.

Fixpoint str_map (f : Ascii.ascii -> Ascii.ascii) (s : string) : string :=
  match s with "" => "" | String c s' => String (f c) (str_map f s') end.

Fixpoint str_forallb (f : Ascii.ascii -> bool) (s : string) : bool :=
  match s with "" => true | String c s' => f c && str_forallb f s' end.

Definition lower (s : string) : string := str_map lower_char s.

(** [s[:n]]. *)
Fixpoint str_take (n : nat) (s : string) : string :=
  match n, s with
  | S n', String c s' => String c (str_take n' s')
  | _, _ => ""
  end.

Fixpoint str_drop (n : nat) (s : string) : string :=
  match n, s with
  | S n', String _ s' => str_drop n' s'
  | _, _ => s
  end.

(** [s[-n:]] for [n > 0]. *)
Definition str_last (n : nat) (s : string) : string :=
  str_drop (String.length s - n) s.

Fixpoint lstrip (p : Ascii.ascii -> bool) (s : string) : string :=
  match s with
  | String c s' => if p c then lstrip p s' else s
  | "" => ""
  end.

Fixpoint rstrip (p : Ascii.ascii -> bool) (s : string) : string :=
  match s with
  | "" => ""
  | String c s' =>
      let r := rstrip p s' in
      if p c && String.eqb r "" then "" else String c r
  end.

(** [s.strip()]. *)
Definition strip (s : string) : string := rstrip is_space (lstrip is_space s).

Fixpoint str_filter (f : Ascii.ascii -> bool) (s : string) : string :=
  match s with
  | "" => ""
  | String c s' => if f c then String c (str_filter f s') else str_filter f s'
  end.

(** [needle in s]. *)
Fixpoint str_contains (needle s : string) : bool :=
  String.prefix needle s ||
  match s with "" => false | String _ s' => str_contains needle s' end.

(** [str(n)] of an integer. *)
Definition str_of_int (n : Z) : string := pretty n.

(** [int(s)] for a string of ASCII digits; [int] refuses a text of more than
    4300 digits with a [ValueError]. *)
Definition INT_MAX_STR_DIGITS : nat := 4300.

Fixpoint digits_value (acc : Z) (s : string) : Z :=
  match s with
  | "" => acc
  | String c s' => digits_value (10 * acc + (code c - 48)) s'
  end.

Definition all_digits (s : string) : bool :=
  negb (String.eqb s "") && str_forallb is_ascii_digit s.

Definition int_of_digits (s : string) : option Z :=
  if (String.length s <=? INT_MAX_STR_DIGITS)%nat then Some (digits_value 0 s) else None.

(** [re.compile(r"-?[0-9]+").fullmatch(s)] followed by [int(s)]. *)
Definition int_of_signed_digits (s : string) : option Z :=
  match s with
  | String c s' =>
      if Ascii.eqb c (char 45) (* the minus sign *)
      then if all_digits s' then option_map Z.opp (int_of_digits s') else None
      else if all_digits s then int_of_digits s else None
  | "" => None
  end.

(** [s.encode("utf-8")]: one byte below U+0080, two above. *)
Fixpoint utf8 (s : string) : list Z :=
  match s with
  | "" => []
  | String c s' =>
      let z := code c in
      if z <? 128 then z :: utf8 s'
      else (192 + z / 64) :: (128 + z mod 64) :: utf8 s'
  end.

(** *** Facts *)

Lemma code_range c : 0 <= code c < 256.
Proof.
  unfold code. pose proof (Ascii.N_ascii_bounded c). lia.
Qed.

Lemma str_take_length n s : (String.length (str_take n s) <= n)%nat.
Proof. revert s; induction n; intros [|c s]; cbn; try lia. specialize (IHn s). lia. Qed.

Lemma str_filter_forallb f s : str_forallb f (str_filter f s) = true.
Proof. induction s as [|c s IH]; cbn; [done|]. destruct (f c) eqn:E; cbn; by rewrite ?E. Qed.

Lemma str_drop_length n s : String.length (str_drop n s) = (String.length s - n)%nat.
Proof. revert s; induction n; intros [|c s]; cbn; auto. Qed.

Lemma str_forallb_drop f n s : str_forallb f s = true -> str_forallb f (str_drop n s) = true.
Proof.
  revert s; induction n; intros [|c s]; cbn; auto.
  intros [_ H]%andb_true_iff. auto.
Qed.

Lemma str_forallb_take f n s : str_forallb f s = true -> str_forallb f (str_take n s) = true.
Proof.
  revert s; induction n; intros [|c s]; cbn; auto.
  intros [Hc H]%andb_true_iff. rewrite Hc. cbn. auto.
Qed.

Lemma str_forallb_app f s t :
  str_forallb f (s +:+ t) = str_forallb f s && str_forallb f t.
Proof.
  induction s as [|c s IH]; [done|].
  change (String c s +:+ t) with (String c (s +:+ t)). cbn. by rewrite IH, andb_assoc.
Qed.

Lemma all_digits_forallb s : all_digits s = true -> str_forallb is_ascii_digit s = true.
Proof. unfold all_digits. by intros [_ H]%andb_true_iff. Qed.

Lemma str_last_length n s :
  (n <= String.length s)%nat -> String.length (str_last n s) = n.
Proof. intros H. unfold str_last. rewrite str_drop_length. lia. Qed.

Lemma str_forallb_rstrip f p s : str_forallb f s = true -> str_forallb f (rstrip p s) = true.
Proof.
  induction s as [|c s IH]; cbn; [done|]. intros [Hc Hs]%andb_true_iff.
  case_match; cbn; [done|]. rewrite Hc. auto.
Qed.

Lemma str_forallb_lstrip f p s : str_forallb f s = true -> str_forallb f (lstrip p s) = true.
Proof.
  induction s as [|c s IH]; cbn; [done|]. intros [Hc Hs]%andb_true_iff.
  case_match; cbn; [auto|]. by rewrite Hc.
Qed.

Lemma digits_value_nonneg acc s :
  0 <= acc -> str_forallb is_ascii_digit s = true -> 0 <= digits_value acc s.
Proof.
  revert acc; induction s as [|c s IH]; cbn; intros acc Hacc; [done|].
  intros [Hc Hs]%andb_true_iff. unfold is_ascii_digit in Hc. bool_to_prop.
  apply IH; [lia | done].
Qed.

Lemma digits_value_app acc s t :
  digits_value acc (s +:+ t) = digits_value (digits_value acc s) t.
Proof. revert acc. induction s as [|c s IH]; intros acc; [done|]. cbn. apply IH. Qed.

Lemma digits_value_shift acc s : str_forallb is_ascii_digit s = true ->
  digits_value acc s = acc * 10 ^ Z.of_nat (String.length s) + digits_value 0 s.
Proof.
  revert acc. induction s as [|c s IH]; intros acc; cbn [str_forallb digits_value String.length]; [lia|].
  intros [Hc Hs]%andb_true_iff. rewrite (IH (10 * acc + _)), (IH (10 * 0 + _)) by done.
  rewrite Nat2Z.inj_succ, Z.pow_succ_r by lia. ring.
Qed.

Lemma pretty_N_char_digit x : (x < 10)%N ->
  is_ascii_digit (pretty_N_char x) = true /\ code (pretty_N_char x) = 48 + Z.of_N x.
Proof.
  intros Hx. destruct x as [|p]; [done|].
  do 4 (destruct p as [p|p|]; try done; try lia).
Qed.

Lemma pretty_N_go_value x s : str_forallb is_ascii_digit s = true ->
  str_forallb is_ascii_digit (pretty_N_go x s) = true /\
  digits_value 0 (pretty_N_go x s)
  = Z.of_N x * 10 ^ Z.of_nat (String.length s) + digits_value 0 s.
Proof.
  revert s. induction x as [x IH] using (well_founded_induction N.lt_wf_0). intros s Hs.
  destruct (decide (0 < x)%N) as [Hx|Hx].
  - rewrite pretty_N_go_step by done.
    destruct (pretty_N_char_digit (x `mod` 10)%N) as [Hd Hv]; [by apply N.mod_lt|].
    destruct (IH (x `div` 10)%N (N.div_lt x 10 Hx eq_refl) (String (pretty_N_char (x `mod` 10)) s))
      as [H1 H2]; [cbn; by rewrite Hd|].
    split; [done|]. rewrite H2. cbn [digits_value String.length].
    rewrite (digits_value_shift _ s Hs), Hv, Nat2Z.inj_succ, Z.pow_succ_r by lia.
    rewrite N2Z.inj_div, N2Z.inj_mod. pose proof (Z.div_mod (Z.of_N x) 10). nia.
  - assert (x = 0%N) as -> by lia. rewrite pretty_N_go_0. split; [done|]. lia.
Qed.

Lemma pretty_N_value (n : N) :
  all_digits (pretty n) = true /\ digits_value 0 (pretty n) = Z.of_N n.
Proof.
  unfold pretty, pretty_N. destruct (decide (n = 0)%N) as [->|Hn]; [done|].
  destruct (pretty_N_go_value n "" eq_refl) as [H1 H2].
  change (10 ^ Z.of_nat (String.length "")) with 1 in H2. change (digits_value 0 "") with 0 in H2.
  rewrite Z.mul_1_r, Z.add_0_r in H2. split; [|done].
  unfold all_digits. rewrite H1, andb_true_r, negb_true_iff. apply String.eqb_neq.
  intros E. rewrite E in H2. change (digits_value 0 "") with 0 in H2. lia.
Qed.

(** Reading back the text of an integer. *)
Lemma int_of_str_of_int z : (String.length (str_of_int z) <= INT_MAX_STR_DIGITS)%nat ->
  int_of_signed_digits (str_of_int z) = Some z.
Proof.
  unfold str_of_int. assert (Hpos : forall n : N, (String.length (pretty n) <= INT_MAX_STR_DIGITS)%nat ->
      all_digits (pretty n) = true /\ int_of_digits (pretty n) = Some (Z.of_N n)).
  { intros n Hl. destruct (pretty_N_value n) as [Hd Hv]. split; [done|].
    unfold int_of_digits. rewrite (proj2 (Nat.leb_le _ _) Hl). by rewrite Hv. }
  destruct z as [|p|p]; intros Hl.
  - done.
  - change (pretty (Z.pos p)) with (pretty (N.pos p)) in *.
    destruct (Hpos (N.pos p) Hl) as [Hd Hv]. unfold int_of_signed_digits.
    destruct (pretty (N.pos p)) as [|c s] eqn:E; [done|].
    destruct (Ascii.eqb c (char 45)) eqn:Ec; [|by rewrite Hd].
    apply Ascii.eqb_eq in Ec as ->. done.
  - change (pretty (Z.neg p)) with (String (char 45) (pretty (N.pos p))) in *.
    cbn [String.length] in Hl. destruct (Hpos (N.pos p)) as [Hd Hv]; [lia|].
    unfold int_of_signed_digits. change (Ascii.eqb (char 45) (char 45)) with true. cbv iota.
    by rewrite Hd, Hv.
Qed.

Definition no_space (s : string) : bool := str_forallb (fun c => negb (is_space c)) s.

Lemma strip_no_space s : no_space s = true -> strip s = s.
Proof.
  intros H. unfold strip. assert (Hl : lstrip is_space s = s).
  { destruct s as [|c s]; [done|]. unfold no_space in H. cbn in H |- *. bool_to_prop. by rewrite H. }
  rewrite Hl. clear Hl. induction s as [|c s IH]; [done|]. unfold no_space in *. cbn in H |- *.
  bool_to_prop. rewrite H. cbn. f_equal. auto.
Qed.

Lemma digit_not_space c : is_ascii_digit c = true -> is_space c = false.
Proof.
  unfold is_ascii_digit, is_space. intros H. bool_to_prop.
  repeat (apply orb_false_iff; split); try apply andb_false_iff;
    rewrite ?Z.leb_gt, ?Z.eqb_neq; lia.
Qed.

Lemma str_forallb_impl (f g : Ascii.ascii -> bool) s : (forall c, f c = true -> g c = true) ->
  str_forallb f s = true -> str_forallb g s = true.
Proof.
  intros Hfg. induction s as [|c s IH]; cbn; [done|].
  intros [Hc Hs]%andb_true_iff. rewrite (Hfg c Hc). auto.
Qed.

Lemma strip_str_of_int z : strip (str_of_int z) = str_of_int z.
Proof.
  assert (Hpos : forall n : N, no_space (pretty n) = true).
  { intros n. destruct (pretty_N_value n) as [Hd _]. apply all_digits_forallb in Hd.
    eapply str_forallb_impl; [|exact Hd]. intros c Hc. by rewrite digit_not_space. }
  apply strip_no_space. unfold str_of_int. destruct z as [|p|p].
  - done.
  - exact (Hpos (N.pos p)).
  - change (pretty (Z.neg p)) with (String (char 45) (pretty (N.pos p))).
    unfold no_space in *. cbn. apply Hpos.
Qed.

Example strip_ex : strip "  a b
" = "a b". Proof. reflexivity. Qed.
Example signed_ex : int_of_signed_digits "-042" = Some (-42). Proof. reflexivity. Qed.
Example signed_bad : int_of_signed_digits "--5" = None. Proof. reflexivity. Qed.
Example str_of_int_ex : str_of_int (-120) = "-120". Proof. vm_compute. reflexivity. Qed.
