(* ===== verification/Crypto.v ===== *)
(** SHA-256 and HMAC-SHA256 ([hashlib.sha256], [hmac.new(...)] of Python's
    standard library), executable.

    Messages are lists of bytes (integers 0..255); 32-bit words are integers
    with the wrap-around written out. The FIPS 180-4 and RFC 4231 test
    vectors at the end are evaluated by the kernel. *)

From S2P Require Import Prelude PyText.

Definition w32 (x : Z) : Z := Z.land x 4294967295.
Definition rotr (n x : Z) : Z := Z.lor (Z.shiftr x n) (w32 (Z.shiftl x (32 - n))).

Definition big_sigma0 x := Z.lxor (Z.lxor (rotr 2 x) (rotr 13 x)) (rotr 22 x).
Definition big_sigma1 x := Z.lxor (Z.lxor (rotr 6 x) (rotr 11 x)) (rotr 25 x).
Definition small_sigma0 x := Z.lxor (Z.lxor (rotr 7 x) (rotr 18 x)) (Z.shiftr x 3).
Definition small_sigma1 x := Z.lxor (Z.lxor (rotr 17 x) (rotr 19 x)) (Z.shiftr x 10).
Definition ch x y z := Z.lxor (Z.land x y) (Z.land (Z.lxor x 4294967295) z).
Definition maj x y z := Z.lxor (Z.lxor (Z.land x y) (Z.land x z)) (Z.land y z).

(** The constants are the first 32 bits of the fractional parts of the cube
    roots (square roots) of the first 64 (8) primes: computed here from that
    definition, by binary search on scaled integers. *)
Definition is_prime (n : Z) : bool :=
  forallb (fun d => negb (n mod Z.of_nat d =? 0)) (seq 2 (Z.to_nat (Z.sqrt n) - 1)).

Definition primes : list Z := List.filter is_prime (map Z.of_nat (seq 2 310)).

(** The largest integer below [2 ^ bits] whose [k]-th power is at most [x]. *)
Fixpoint int_root (bits : nat) (k x acc : Z) : Z :=
  match bits with
  | O => acc
  | S b =>
      let acc' := acc + 2 ^ Z.of_nat b in
      int_root b k x (if acc' ^ k <=? x then acc' else acc)
  end.

Definition root_bits (k p : Z) : Z := w32 (int_root 40 k (p * 2 ^ (32 * k)) 0).

Definition round_constants : list Z :=
  Eval vm_compute in map (root_bits 3) primes.

Definition initial_hash : list Z :=
  Eval vm_compute in map (root_bits 2) (take 8 primes).

(** The bytes of a word of [n] bytes, most significant first. *)
Fixpoint be_bytes (n : nat) (x : Z) : list Z :=
  match n with
  | O => []
  | S n' => Z.land (Z.shiftr x (8 * Z.of_nat n')) 255 :: be_bytes n' x
  end.

(** [int.from_bytes(bs, "big")]. *)
Definition be_int (bs : list Z) : Z := fold_left (fun acc b => acc * 256 + b) bs 0.

Fixpoint chunks {A} (fuel n : nat) (l : list A) : list (list A) :=
  match fuel, l with
  | S fuel', _ :: _ => take n l :: chunks fuel' n (drop n l)
  | _, _ => []
  end.

Definition pad (msg : list Z) : list Z :=
  let len := Z.of_nat (length msg) in
  let zeros := Z.to_nat ((55 - len) mod 64) in
  msg ++ 128 :: repeat 0 zeros ++ be_bytes 8 (8 * len).

(** The message schedule, newest word first. *)
Fixpoint extend (n : nat) (ws : list Z) : list Z :=
  match n with
  | O => ws
  | S n' =>
      let w k := nth k ws 0 in
      extend n' (w32 (small_sigma1 (w 1%nat) + w 6%nat + small_sigma0 (w 14%nat) + w 15%nat) :: ws)
  end.

Definition compress_round (st : list Z) (kw : Z * Z) : list Z :=
  match st with
  | [a; b; c; d; e; f; g; h] =>
      let t1 := h + big_sigma1 e + ch e f g + fst kw + snd kw in
      let t2 := big_sigma0 a + maj a b c in
      [w32 (t1 + t2); a; b; c; w32 (d + t1); e; f; g]
  | _ => st
  end.

Definition compress (st : list Z) (block : list Z) : list Z :=
  let words := map be_int (chunks 16 4 block) in
  let schedule := rev (extend 48 (rev words)) in
  let st' := fold_left compress_round (combine round_constants schedule) st in
  map (fun p => w32 (fst p + snd p)) (combine st st').

Definition sha256 (msg : list Z) : list Z :=
  let padded := pad msg in
  let final := fold_left compress (chunks (length padded) 64 padded) initial_hash in
  concat (map (be_bytes 4) final).

Definition hmac_sha256 (key msg : list Z) : list Z :=
  let key := if (64 <? length key)%nat then sha256 key else key in
  let key := key ++ repeat 0 (64 - length key) in
  let inner := sha256 (map (Z.lxor 0x36) key ++ msg) in
  sha256 (map (Z.lxor 0x5c) key ++ inner).

(** [digest.hex()]. *)
Definition hex_digit (z : Z) : Ascii.ascii := char (if z <? 10 then 48 + z else 87 + z).

Fixpoint hex (bs : list Z) : string :=
  match bs with
  | [] => ""
  | b :: bs' => String (hex_digit (b / 16)) (String (hex_digit (b mod 16)) (hex bs'))
  end.

Definition sha256_hex (s : string) : string := hex (sha256 (utf8 s)).
Definition hmac_hex (secret msg : string) : string := hex (hmac_sha256 (utf8 secret) (utf8 msg)).

Example sha256_abc :
  sha256_hex "abc" = "ba7816bf8f01cfea414140de5dae2223b00361a396177a9cb410ff61f20015ad".
Proof. vm_compute. reflexivity. Qed.

Example sha256_two_blocks :
  sha256_hex "abcdbcdecdefdefgefghfghighijhijkijkljklmklmnlmnomnopnopq"
  = "248d6a61d20638b8e5c026930c3e6039a33ce45964ff2167f6ecedd419db06c1".
Proof. vm_compute. reflexivity. Qed.

Example hmac_rfc4231_2 :
  hmac_hex "Jefe" "what do ya want for nothing?"
  = "5bdcc146bf60754e6a042426089575c75a003f089d2739839dec58b964ec3843".
Proof. vm_compute. reflexivity. Qed.

(** ** The digest has 32 bytes *)

Lemma compress_round_length st kw : length st = 8%nat -> length (compress_round st kw) = 8%nat.
Proof. intros H. by destruct st as [|? [|? [|? [|? [|? [|? [|? [|? [|]]]]]]]]]. Qed.

Lemma fold_left_keeps {A B} (P : A -> Prop) (f : A -> B -> A) l a :
  (forall a b, P a -> P (f a b)) -> P a -> P (fold_left f l a).
Proof. intros Hf. revert a. induction l as [|b l IH]; cbn; auto. Qed.

Lemma compress_length st block : length st = 8%nat -> length (compress st block) = 8%nat.
Proof.
  intros H. unfold compress. rewrite length_map, length_combine, H.
  rewrite (fold_left_keeps (fun l => length l = 8%nat)); [done| |done].
  intros a b. apply compress_round_length.
Qed.

Lemma sha256_length msg : length (sha256 msg) = 32%nat.
Proof.
  unfold sha256. set (final := fold_left _ _ _).
  assert (Hf : length final = 8%nat).
  { apply (fold_left_keeps (fun l => length l = 8%nat)); [|done]. intros a b. apply compress_length. }
  by destruct final as [|? [|? [|? [|? [|? [|? [|? [|? [|]]]]]]]]].
Qed.

Lemma hex_length bs : String.length (hex bs) = (2 * length bs)%nat.
Proof. induction bs as [|b bs IH]; [done|]. cbn. lia. Qed.

Lemma sha256_hex_length s : String.length (sha256_hex s) = 64%nat.
Proof. unfold sha256_hex. by rewrite hex_length, sha256_length. Qed.
