(* ===== verification/Exceptions.v ===== *)
(** The exceptions of [app/exceptions.py] and the reason codes of
    [app/reasons.py].

    An exception class is a constructor of [ErrorClass]; its class attributes
    are the functions [error_code], [http_status] and [default_message]. *)

From S2P Require Import Prelude PyText.

Inductive ErrorClass :=
  | BridgeErrorClass
  | InvalidApiKeyError
  | AmountOutOfRangeError
  | PayableAmountOutOfRangeError
  | DuplicateOrderAmountMismatchError
  | OrderAlreadyVerifiedError
  | OrderUnderReviewError
  | InvalidCallbackSignatureError
  | InvalidCallbackTokenError
  | PaymentNotFoundError
  | VerificationFailedError
  | CentralPayError
  | CentralPayConnectionError
  | CentralPayRejectedError
  | CentralPayInvalidResponseError
  | RateLimitedError
  | GatewayOrderIdAllocationError
  | PaymentCreationDisabledError
  | PayerIdentityMisconfiguredError
  | PayerIdentityAllocationError
  | PayerIdentityCollisionError
  | DuplicateOrderCustomerMismatchError.

#[export] Instance ErrorClass_eq_dec : EqDecision ErrorClass.
Proof. solve_decision. Defined.

Definition error_code (c : ErrorClass) : string :=
  match c with
  | BridgeErrorClass => "internal_error"
  | InvalidApiKeyError => "invalid_api_key"
  | AmountOutOfRangeError => "amount_out_of_range"
  | PayableAmountOutOfRangeError => "payable_amount_out_of_range"
  | DuplicateOrderAmountMismatchError => "duplicate_order_amount_mismatch"
  | OrderAlreadyVerifiedError => "order_already_verified"
  | OrderUnderReviewError => "order_under_review"
  | InvalidCallbackSignatureError => "invalid_callback_signature"
  | InvalidCallbackTokenError => "invalid_callback_token"
  | PaymentNotFoundError => "payment_not_found"
  | VerificationFailedError => "verification_failed"
  | CentralPayError => "centralpay_error"
  | CentralPayConnectionError => "centralpay_connection_error"
  | CentralPayRejectedError => "centralpay_rejected"
  | CentralPayInvalidResponseError => "centralpay_invalid_response"
  | RateLimitedError => "rate_limited"
  | GatewayOrderIdAllocationError => "gateway_order_id_allocation_failed"
  | PaymentCreationDisabledError => "payment_creation_disabled"
  | PayerIdentityMisconfiguredError => "payment_creation_unavailable"
  | PayerIdentityAllocationError => "payer_identity_allocation_failed"
  | PayerIdentityCollisionError => "payer_identity_conflict"
  | DuplicateOrderCustomerMismatchError => "duplicate_order_customer_mismatch"
  end.

Definition http_status (c : ErrorClass) : Z :=
  match c with
  | InvalidApiKeyError => 401
  | AmountOutOfRangeError | PayableAmountOutOfRangeError => 400
  | DuplicateOrderAmountMismatchError | OrderAlreadyVerifiedError
  | OrderUnderReviewError | VerificationFailedError
  | DuplicateOrderCustomerMismatchError => 409
  | InvalidCallbackSignatureError | InvalidCallbackTokenError => 403
  | PaymentNotFoundError => 404
  | CentralPayError | CentralPayConnectionError | CentralPayRejectedError
  | CentralPayInvalidResponseError => 502
  | RateLimitedError => 429
  | PaymentCreationDisabledError | PayerIdentityMisconfiguredError
  | PayerIdentityCollisionError => 503
  | BridgeErrorClass | GatewayOrderIdAllocationError | PayerIdentityAllocationError => 500
  end.

Definition default_message (c : ErrorClass) : string :=
  match c with
  | BridgeErrorClass => "Internal error"
  | InvalidApiKeyError => "Invalid API key"
  | AmountOutOfRangeError => "Amount is outside the configured payment bounds"
  | PayableAmountOutOfRangeError =>
      "Final payable amount (original amount plus service fee) exceeds the configured maximum"
  | DuplicateOrderAmountMismatchError => "Order already exists with a different amount"
  | OrderAlreadyVerifiedError => "Order has already been paid and verified"
  | OrderUnderReviewError => "Order is under manual review"
  | InvalidCallbackSignatureError => "Invalid callback signature"
  | InvalidCallbackTokenError => "Invalid or stale callback token"
  | PaymentNotFoundError => "Payment not found"
  | VerificationFailedError => "Payment could not be verified with the gateway"
  | CentralPayError => "Payment gateway error"
  | CentralPayConnectionError => "Could not reach the payment gateway"
  | CentralPayRejectedError => "Payment gateway rejected the request"
  | CentralPayInvalidResponseError => "Payment gateway returned an invalid response"
  | RateLimitedError => "Too many requests"
  | GatewayOrderIdAllocationError => "Could not allocate a unique gateway order id"
  | PaymentCreationDisabledError => "Payment creation is temporarily disabled"
  | PayerIdentityMisconfiguredError => "Payment creation is temporarily unavailable"
  | PayerIdentityAllocationError => "Could not allocate a unique gateway payer identity"
  | PayerIdentityCollisionError => "Payment creation is temporarily unavailable"
  | DuplicateOrderCustomerMismatchError => "Order already exists for a different customer"
  end.

(** [except CentralPayError]: the class itself and its three subclasses. *)
Definition is_CentralPayError (c : ErrorClass) : bool :=
  match c with
  | CentralPayError | CentralPayConnectionError | CentralPayRejectedError
  | CentralPayInvalidResponseError => true
  | _ => false
  end.

Record BridgeError := mkBridgeError {
  error_class : ErrorClass;
  message : string;
  retry_after_seconds : option Z
}.

(** [BridgeError.__init__]: [message or default_message]. *)
Definition bridge_error (c : ErrorClass) (msg : option string) : BridgeError :=
  let m := match msg with
           | Some s => if String.eqb s "" then default_message c else s
           | None => default_message c
           end in
  mkBridgeError c m None.

(** [math.ceil] of a duration in microseconds to whole seconds. *)
Definition ceil_seconds (us : Z) : Z := - ((- us) / 1000000).

(** [RateLimitedError.__init__]; the duration is in microseconds. *)
Definition rate_limited_error (retry_after : option Z) : BridgeError :=
  let e := bridge_error RateLimitedError None in
  mkBridgeError (error_class e) (message e)
    (option_map (fun us => Z.max 1 (ceil_seconds us)) retry_after).

Inductive Exn :=
  | Bridge (e : BridgeError)
  | ValueError (msg : string)
  | IntegrityError
  | Unexpected (cls : string).

(** [type(exc).__name__]. *)
Definition class_name (c : ErrorClass) : string :=
  match c with
  | BridgeErrorClass => "BridgeError"
  | InvalidApiKeyError => "InvalidApiKeyError"
  | AmountOutOfRangeError => "AmountOutOfRangeError"
  | PayableAmountOutOfRangeError => "PayableAmountOutOfRangeError"
  | DuplicateOrderAmountMismatchError => "DuplicateOrderAmountMismatchError"
  | OrderAlreadyVerifiedError => "OrderAlreadyVerifiedError"
  | OrderUnderReviewError => "OrderUnderReviewError"
  | InvalidCallbackSignatureError => "InvalidCallbackSignatureError"
  | InvalidCallbackTokenError => "InvalidCallbackTokenError"
  | PaymentNotFoundError => "PaymentNotFoundError"
  | VerificationFailedError => "VerificationFailedError"
  | CentralPayError => "CentralPayError"
  | CentralPayConnectionError => "CentralPayConnectionError"
  | CentralPayRejectedError => "CentralPayRejectedError"
  | CentralPayInvalidResponseError => "CentralPayInvalidResponseError"
  | RateLimitedError => "RateLimitedError"
  | GatewayOrderIdAllocationError => "GatewayOrderIdAllocationError"
  | PaymentCreationDisabledError => "PaymentCreationDisabledError"
  | PayerIdentityMisconfiguredError => "PayerIdentityMisconfiguredError"
  | PayerIdentityAllocationError => "PayerIdentityAllocationError"
  | PayerIdentityCollisionError => "PayerIdentityCollisionError"
  | DuplicateOrderCustomerMismatchError => "DuplicateOrderCustomerMismatchError"
  end.

Definition exception_name (e : Exn) : string :=
  match e with
  | Bridge b => class_name (error_class b)
  | ValueError _ => "ValueError"
  | IntegrityError => "IntegrityError"
  | Unexpected cls => cls
  end.

Inductive ReasonCode :=
  | BOT_DNS_FAILED | BOT_CONNECTION_REFUSED | BOT_CONNECTION_FAILED | BOT_TIMEOUT_AMBIGUOUS
  | BOT_HTTP_400 | BOT_HTTP_401 | BOT_HTTP_403 | BOT_HTTP_404 | BOT_HTTP_409 | BOT_HTTP_422
  | BOT_HTTP_429 | BOT_HTTP_500 | BOT_HTTP_502 | BOT_HTTP_503 | BOT_HTTP_504 | BOT_HTTP_OTHER
  | BOT_INVALID_CONFIGURATION | BOT_NOTIFY_ACCEPTED_REASON | MANUAL_REVIEW_REQUIRED
  | RETRY_LIMIT_REACHED.

Definition reason_value (r : ReasonCode) : string :=
  match r with
  | BOT_DNS_FAILED => "bot_dns_failed"
  | BOT_CONNECTION_REFUSED => "bot_connection_refused"
  | BOT_CONNECTION_FAILED => "bot_connection_failed"
  | BOT_TIMEOUT_AMBIGUOUS => "bot_timeout_ambiguous"
  | BOT_HTTP_400 => "bot_http_400" | BOT_HTTP_401 => "bot_http_401"
  | BOT_HTTP_403 => "bot_http_403" | BOT_HTTP_404 => "bot_http_404"
  | BOT_HTTP_409 => "bot_http_409" | BOT_HTTP_422 => "bot_http_422"
  | BOT_HTTP_429 => "bot_http_429" | BOT_HTTP_500 => "bot_http_500"
  | BOT_HTTP_502 => "bot_http_502" | BOT_HTTP_503 => "bot_http_503"
  | BOT_HTTP_504 => "bot_http_504" | BOT_HTTP_OTHER => "bot_http_other"
  | BOT_INVALID_CONFIGURATION => "bot_invalid_configuration"
  | BOT_NOTIFY_ACCEPTED_REASON => "bot_notify_accepted"
  | MANUAL_REVIEW_REQUIRED => "manual_review_required"
  | RETRY_LIMIT_REACHED => "retry_limit_reached"
  end.
