(* ===== verification/Config.v ===== *)
(** The settings of [app/config.py] that the modelled components read, with
    the field bounds and cross-field validation of [Settings].

    Durations that the source declares as [float] seconds are kept in
    microseconds, and percentages as rationals. Settings of components that are
    not modelled are left out. *)

From S2P Require Import Prelude PyText.
From Stdlib Require Import QArith_base.

#[local] Open Scope Z_scope.

Inductive RetryMode := safe | idempotent.

#[export] Instance RetryMode_eq_dec : EqDecision RetryMode.
Proof. solve_decision. Defined.

Definition retry_mode_value (m : RetryMode) : string :=
  match m with safe => "safe" | idempotent => "idempotent" end.

Record Settings := mkSettings {
  public_base_url : string;
  inbound_api_key : string;
  callback_hmac_secret : string;
  min_payment_amount_toman : Z;
  max_payment_amount_toman : Z;
  centralpay_getlink_api_key : string;
  centralpay_verify_api_key : string;
  centralpay_user_id : Z;
  centralpay_payer_id_secret : string;
  payment_creation_enabled : bool;
  bot_notify_retry_mode : RetryMode;
  bot_notify_max_attempts : Z;
  bot_notify_connect_timeout : Z;
  bot_notify_read_timeout : Z;
  bot_notify_claim_timeout : Z;
  reconciliation_enabled : bool;
  reconciliation_min_age_seconds : Z;
  reconciliation_interval : Z;
  reconciliation_batch_size : Z;
  reconciliation_slow_tier_reserved_slots : Z;
  reconciliation_max_attempts : Z;
  reconciliation_fast_window_seconds : Z;
  reconciliation_fast_interval_seconds : Z;
  reconciliation_slow_interval_seconds : Z;
  reconciliation_max_age_seconds : Z;
  reconciliation_initial_backoff_seconds : Z;
  reconciliation_max_backoff_seconds : Z;
  first_payment_guard_enabled : bool;
  centralpay_diagnostic_verify_enabled : bool;
  rate_limit_enabled : bool;
  rate_limit_trust_proxy_headers : bool;
  rate_limit_create_per_minute : Z;
  rate_limit_invalid_key_per_10min : Z;
  rate_limit_invalid_signature_per_10min : Z;
  rate_limit_create_per_ip_per_minute : Z;
  rate_limit_invalid_signature_per_ip_per_10min : Z;
  rate_limit_ip_bucket_capacity : Z;
  telegram_bot_username : string;
  centralpay_base_url : string;
  bot_payment_notify_url : string;
  allow_insecure_bot_notify_url : bool;
  bot_notify_token : string;
  bot_notify_worker_interval : Z;
  admin_bot_enabled : bool;
  admin_bot_token : string;
  admin_telegram_ids : string;
  admin_bot_alerts_enabled : bool;
  admin_bot_payment_success_alerts : bool;
  admin_bot_error_alerts : bool;
  admin_bot_manual_review_alerts : bool;
  admin_bot_backup_alerts : bool;
  admin_bot_health_alerts : bool;
  admin_bot_daily_report_enabled : bool;
  admin_bot_daily_report_time : string;
  admin_bot_timezone : string;
  admin_bot_max_message_length : Z;
  admin_bot_alert_dedup_minutes : Z;
  admin_bot_alert_poll_interval : Z;
  admin_bot_alert_max_attempts : Z;
  admin_bot_alert_claim_timeout : Z;
  admin_bot_health_check_interval : Z;
  admin_bot_health_failure_threshold : Z;
  admin_bot_health_recovery_threshold : Z;
  centralpay_backup_dir : string;
  monitor_enabled : bool;
  monitor_interval : Z;
  monitor_db_integrity_interval : Z;
  monitor_worker_heartbeat_warning_seconds : Z;
  monitor_worker_heartbeat_critical_seconds : Z;
  monitor_notification_warning_count : Z;
  monitor_notification_critical_count : Z;
  monitor_notification_max_age_seconds : Z;
  monitor_manual_review_warning_count : Z;
  monitor_manual_review_critical_count : Z;
  monitor_manual_review_max_age_seconds : Z;
  monitor_backup_warning_age_seconds : Z;
  monitor_backup_critical_age_seconds : Z;
  monitor_disk_warning_percent : Q;
  monitor_disk_critical_percent : Q;
  monitor_disk_min_free_bytes : Z;
  monitor_gateway_failure_window_seconds : Z;
  monitor_gateway_failure_warning_count : Z;
  monitor_gateway_failure_critical_count : Z;
  monitor_bot_failure_window_seconds : Z;
  monitor_bot_failure_warning_count : Z;
  monitor_bot_failure_critical_count : Z;
  monitor_reconciliation_exhausted_recent_window_seconds : Z;
  centralpay_timeout : Z;
  monitor_public_ready_connect_timeout : Z;
  monitor_public_ready_read_timeout : Z
}.

#[export] Instance eta_Settings : Eta Settings := fun s =>
  mkSettings (public_base_url s) (inbound_api_key s) (callback_hmac_secret s)
    (min_payment_amount_toman s) (max_payment_amount_toman s) (centralpay_getlink_api_key s)
    (centralpay_verify_api_key s) (centralpay_user_id s) (centralpay_payer_id_secret s)
    (payment_creation_enabled s) (bot_notify_retry_mode s) (bot_notify_max_attempts s)
    (bot_notify_connect_timeout s) (bot_notify_read_timeout s) (bot_notify_claim_timeout s)
    (reconciliation_enabled s) (reconciliation_min_age_seconds s) (reconciliation_interval s)
    (reconciliation_batch_size s) (reconciliation_slow_tier_reserved_slots s)
    (reconciliation_max_attempts s) (reconciliation_fast_window_seconds s)
    (reconciliation_fast_interval_seconds s) (reconciliation_slow_interval_seconds s)
    (reconciliation_max_age_seconds s) (reconciliation_initial_backoff_seconds s)
    (reconciliation_max_backoff_seconds s) (first_payment_guard_enabled s)
    (centralpay_diagnostic_verify_enabled s) (rate_limit_enabled s) (rate_limit_trust_proxy_headers s) (rate_limit_create_per_minute s)
    (rate_limit_invalid_key_per_10min s)
    (rate_limit_invalid_signature_per_10min s) (rate_limit_create_per_ip_per_minute s)
    (rate_limit_invalid_signature_per_ip_per_10min s) (rate_limit_ip_bucket_capacity s)
    (telegram_bot_username s) (centralpay_base_url s) (bot_payment_notify_url s)
    (allow_insecure_bot_notify_url s) (bot_notify_token s) (bot_notify_worker_interval s)
    (admin_bot_enabled s) (admin_bot_token s) (admin_telegram_ids s)
    (admin_bot_alerts_enabled s) (admin_bot_payment_success_alerts s) (admin_bot_error_alerts s)
    (admin_bot_manual_review_alerts s) (admin_bot_backup_alerts s) (admin_bot_health_alerts s)
    (admin_bot_daily_report_enabled s) (admin_bot_daily_report_time s) (admin_bot_timezone s)
    (admin_bot_max_message_length s) (admin_bot_alert_dedup_minutes s)
    (admin_bot_alert_poll_interval s) (admin_bot_alert_max_attempts s)
    (admin_bot_alert_claim_timeout s) (admin_bot_health_check_interval s)
    (admin_bot_health_failure_threshold s) (admin_bot_health_recovery_threshold s)
    (centralpay_backup_dir s) (monitor_enabled s) (monitor_interval s)
    (monitor_db_integrity_interval s) (monitor_worker_heartbeat_warning_seconds s)
    (monitor_worker_heartbeat_critical_seconds s) (monitor_notification_warning_count s)
    (monitor_notification_critical_count s) (monitor_notification_max_age_seconds s)
    (monitor_manual_review_warning_count s) (monitor_manual_review_critical_count s)
    (monitor_manual_review_max_age_seconds s) (monitor_backup_warning_age_seconds s)
    (monitor_backup_critical_age_seconds s) (monitor_disk_warning_percent s)
    (monitor_disk_critical_percent s) (monitor_disk_min_free_bytes s)
    (monitor_gateway_failure_window_seconds s) (monitor_gateway_failure_warning_count s)
    (monitor_gateway_failure_critical_count s) (monitor_bot_failure_window_seconds s)
    (monitor_bot_failure_warning_count s) (monitor_bot_failure_critical_count s)
    (monitor_reconciliation_exhausted_recent_window_seconds s) (centralpay_timeout s)
    (monitor_public_ready_connect_timeout s) (monitor_public_ready_read_timeout s).

(** The defaults of the fields, with sample values for the required ones. *)
Definition default_settings : Settings := {|
  public_base_url := "https://pay.example.com";
  inbound_api_key := "inbound-api-key-0001";
  callback_hmac_secret := "callback-hmac-secret-0001";
  min_payment_amount_toman := 1000;
  max_payment_amount_toman := 100000000;
  centralpay_getlink_api_key := "getlink-key";
  centralpay_verify_api_key := "verify-key";
  centralpay_user_id := 777;
  centralpay_payer_id_secret := "payer-id-secret-0001";
  payment_creation_enabled := true;
  bot_notify_retry_mode := safe;
  bot_notify_max_attempts := 6;
  bot_notify_connect_timeout := seconds 5;
  bot_notify_read_timeout := seconds 15;
  bot_notify_claim_timeout := seconds 120;
  reconciliation_enabled := true;
  reconciliation_min_age_seconds := 10;
  reconciliation_interval := seconds 5;
  reconciliation_batch_size := 10;
  reconciliation_slow_tier_reserved_slots := 1;
  reconciliation_max_attempts := 1000;
  reconciliation_fast_window_seconds := 900;
  reconciliation_fast_interval_seconds := 10;
  reconciliation_slow_interval_seconds := 300;
  reconciliation_max_age_seconds := 7200;
  reconciliation_initial_backoff_seconds := 20;
  reconciliation_max_backoff_seconds := 900;
  first_payment_guard_enabled := false;
  centralpay_diagnostic_verify_enabled := false;
  rate_limit_enabled := true;
  rate_limit_trust_proxy_headers := true;
  rate_limit_create_per_minute := 120;
  rate_limit_invalid_key_per_10min := 20;
  rate_limit_invalid_signature_per_10min := 100;
  rate_limit_create_per_ip_per_minute := 30;
  rate_limit_invalid_signature_per_ip_per_10min := 30;
  rate_limit_ip_bucket_capacity := 10000;
  telegram_bot_username := "";
  centralpay_base_url := "https://centralapi.org/webservice/basic";
  bot_payment_notify_url := "";
  allow_insecure_bot_notify_url := false;
  bot_notify_token := "";
  bot_notify_worker_interval := seconds 10;
  admin_bot_enabled := false;
  admin_bot_token := "";
  admin_telegram_ids := "";
  admin_bot_alerts_enabled := true;
  admin_bot_payment_success_alerts := false;
  admin_bot_error_alerts := true;
  admin_bot_manual_review_alerts := true;
  admin_bot_backup_alerts := true;
  admin_bot_health_alerts := true;
  admin_bot_daily_report_enabled := true;
  admin_bot_daily_report_time := "09:00";
  admin_bot_timezone := "Asia/Tehran";
  admin_bot_max_message_length := 3500;
  admin_bot_alert_dedup_minutes := 30;
  admin_bot_alert_poll_interval := seconds 5;
  admin_bot_alert_max_attempts := 8;
  admin_bot_alert_claim_timeout := seconds 300;
  admin_bot_health_check_interval := seconds 60;
  admin_bot_health_failure_threshold := 3;
  admin_bot_health_recovery_threshold := 2;
  centralpay_backup_dir := "/var/backups/centralpay-bridge";
  monitor_enabled := false;
  monitor_interval := seconds 60;
  monitor_db_integrity_interval := seconds 1800;
  monitor_worker_heartbeat_warning_seconds := 60;
  monitor_worker_heartbeat_critical_seconds := 180;
  monitor_notification_warning_count := 20;
  monitor_notification_critical_count := 100;
  monitor_notification_max_age_seconds := 1800;
  monitor_manual_review_warning_count := 5;
  monitor_manual_review_critical_count := 20;
  monitor_manual_review_max_age_seconds := 21600;
  monitor_backup_warning_age_seconds := 86400;
  monitor_backup_critical_age_seconds := 129600;
  monitor_disk_warning_percent := 15%Q;
  monitor_disk_critical_percent := 5%Q;
  monitor_disk_min_free_bytes := 1073741824;
  monitor_gateway_failure_window_seconds := 300;
  monitor_gateway_failure_warning_count := 3;
  monitor_gateway_failure_critical_count := 10;
  monitor_bot_failure_window_seconds := 300;
  monitor_bot_failure_warning_count := 3;
  monitor_bot_failure_critical_count := 10;
  monitor_reconciliation_exhausted_recent_window_seconds := 86400;
  centralpay_timeout := seconds 15;
  monitor_public_ready_connect_timeout := seconds 5;
  monitor_public_ready_read_timeout := seconds 10
|}.

Definition between (lo x hi : Z) : bool := (lo <=? x) && (x <=? hi).

(** [gt=0, le=100] of a [float] percentage, read as a rational. *)
Definition percentage (q : Q) : bool := negb (Qle_bool q 0) && Qle_bool q 100.

(** The [Field] bounds. *)
Definition field_bounds (s : Settings) : bool :=
  (16 <=? Z.of_nat (String.length (inbound_api_key s))) &&
  (16 <=? Z.of_nat (String.length (callback_hmac_secret s))) &&
  (0 <? min_payment_amount_toman s) && (0 <? max_payment_amount_toman s) &&
  (1 <=? Z.of_nat (String.length (centralpay_getlink_api_key s))) &&
  (1 <=? Z.of_nat (String.length (centralpay_verify_api_key s))) &&
  (0 <? centralpay_user_id s) &&
  between 1 (bot_notify_max_attempts s) 50 &&
  (0 <? bot_notify_connect_timeout s) && (0 <? bot_notify_read_timeout s) &&
  (0 <? bot_notify_claim_timeout s) &&
  (0 <=? reconciliation_min_age_seconds s) && (0 <? reconciliation_interval s) &&
  between 1 (reconciliation_batch_size s) 100 &&
  (0 <? reconciliation_slow_tier_reserved_slots s) &&
  between 1 (reconciliation_max_attempts s) 1000 &&
  (0 <=? reconciliation_fast_window_seconds s) &&
  (0 <? reconciliation_fast_interval_seconds s) &&
  (0 <? reconciliation_slow_interval_seconds s) &&
  (0 <? reconciliation_max_age_seconds s) &&
  (0 <? reconciliation_initial_backoff_seconds s) &&
  (0 <? reconciliation_max_backoff_seconds s) &&
  (0 <? rate_limit_create_per_minute s) && (0 <? rate_limit_invalid_key_per_10min s) &&
  (0 <? rate_limit_invalid_signature_per_10min s) &&
  (0 <? rate_limit_create_per_ip_per_minute s) &&
  (0 <? rate_limit_invalid_signature_per_ip_per_10min s) &&
  (0 <? rate_limit_ip_bucket_capacity s) &&
  (0 <? bot_notify_worker_interval s) && between 500 (admin_bot_max_message_length s) 4096 &&
  (0 <? admin_bot_alert_dedup_minutes s) && (0 <? admin_bot_alert_poll_interval s) &&
  between 1 (admin_bot_alert_max_attempts s) 50 && (0 <? admin_bot_alert_claim_timeout s) &&
  (0 <? admin_bot_health_check_interval s) && (0 <? admin_bot_health_failure_threshold s) &&
  (0 <? admin_bot_health_recovery_threshold s) && (0 <? monitor_interval s) &&
  (0 <? monitor_db_integrity_interval s) && (0 <? monitor_worker_heartbeat_warning_seconds s) &&
  (0 <? monitor_worker_heartbeat_critical_seconds s) &&
  (0 <? monitor_notification_warning_count s) && (0 <? monitor_notification_critical_count s) &&
  (0 <? monitor_notification_max_age_seconds s) && (0 <? monitor_manual_review_warning_count s) &&
  (0 <? monitor_manual_review_critical_count s) &&
  (0 <? monitor_manual_review_max_age_seconds s) && (0 <? monitor_backup_warning_age_seconds s) &&
  (0 <? monitor_backup_critical_age_seconds s) && percentage (monitor_disk_warning_percent s) &&
  percentage (monitor_disk_critical_percent s) && (0 <? monitor_disk_min_free_bytes s) &&
  (0 <? monitor_gateway_failure_window_seconds s) &&
  (0 <? monitor_gateway_failure_warning_count s) &&
  (0 <? monitor_gateway_failure_critical_count s) && (0 <? monitor_bot_failure_window_seconds s) &&
  (0 <? monitor_bot_failure_warning_count s) && (0 <? monitor_bot_failure_critical_count s) &&
  (0 <? monitor_reconciliation_exhausted_recent_window_seconds s) &&
  (0 <? centralpay_timeout s) && (0 <? monitor_public_ready_connect_timeout s) &&
  (0 <? monitor_public_ready_read_timeout s).

(** [_validate_payer_id_secret]. *)
Definition validate_payer_id_secret (value : string) : bool :=
  String.eqb value "" || (16 <=? Z.of_nat (String.length value)).

(** The numeric part of [_validate_bot_settings]. *)
Definition validate_bot_settings (s : Settings) : bool :=
  (min_payment_amount_toman s <? max_payment_amount_toman s) &&
  (bot_notify_connect_timeout s + bot_notify_read_timeout s <? bot_notify_claim_timeout s) &&
  (reconciliation_initial_backoff_seconds s <=? reconciliation_max_backoff_seconds s) &&
  (reconciliation_fast_window_seconds s <? reconciliation_max_age_seconds s) &&
  (reconciliation_slow_tier_reserved_slots s <? reconciliation_batch_size s).

Definition settings_valid (s : Settings) : bool :=
  field_bounds s && validate_payer_id_secret (centralpay_payer_id_secret s)
  && validate_bot_settings s.

Example default_settings_valid : settings_valid default_settings = true.
Proof. reflexivity. Qed.
