(* ===== verification/Models.v ===== *)
(** The database rows of [app/models.py] and their CHECK constraints.

    One record per table, one field per column, nullable columns as options,
    timestamps in microseconds. The [*_checks] functions are the CHECK
    constraints of the table, as boolean functions of a row. *)

From S2P Require Import Prelude PyText.

Definition CENTRALPAY_REFERENCE_ID_MAX_LENGTH : Z := 128.

Inductive PaymentStatus :=
  | CREATED | LINK_CREATED | GETLINK_FAILED | GATEWAY_VERIFIED
  | BOT_NOTIFY_PENDING | BOT_NOTIFY_ACCEPTED | MANUAL_REVIEW.

#[export] Instance PaymentStatus_eq_dec : EqDecision PaymentStatus.
Proof. solve_decision. Defined.

Definition status_value (s : PaymentStatus) : string :=
  match s with
  | CREATED => "created"
  | LINK_CREATED => "link_created"
  | GETLINK_FAILED => "getlink_failed"
  | GATEWAY_VERIFIED => "gateway_verified"
  | BOT_NOTIFY_PENDING => "bot_notify_pending"
  | BOT_NOTIFY_ACCEPTED => "bot_notify_accepted"
  | MANUAL_REVIEW => "manual_review"
  end.

(** [payments.payer_identity_type] (NULL is [None] at its uses). *)
Inductive IdentityType := TELEGRAM_USER | ORDER_FALLBACK.

#[export] Instance IdentityType_eq_dec : EqDecision IdentityType.
Proof. solve_decision. Defined.

Definition identity_type_value (t : IdentityType) : string :=
  match t with TELEGRAM_USER => "telegram_user" | ORDER_FALLBACK => "order_fallback" end.

(** [centralpay_payer_identities.identity_scheme]. *)
Inductive IdentityScheme := TELEGRAM_RAW | ORDER_HMAC | HISTORICAL_HMAC.

#[export] Instance IdentityScheme_eq_dec : EqDecision IdentityScheme.
Proof. solve_decision. Defined.

Definition identity_scheme_value (s : IdentityScheme) : string :=
  match s with
  | TELEGRAM_RAW => "telegram_raw_v1"
  | ORDER_HMAC => "order_hmac_v1"
  | HISTORICAL_HMAC => "historical_hmac_v1"
  end.

Record FeePolicy := mkFeePolicy {
  policy_id : Z;
  rate_bps : Z;
  effective_at : Z;
  created_by : string;
  note : string;
  cancelled_at : option Z;
  cancelled_by : option string;
  cancellation_note : option string
}.

#[export] Instance eta_FeePolicy : Eta FeePolicy := fun r =>
  mkFeePolicy (policy_id r) (rate_bps r) (effective_at r) (created_by r) (note r)
    (cancelled_at r) (cancelled_by r) (cancellation_note r).

Definition fee_policy_checks (r : FeePolicy) : bool :=
  (0 <=? rate_bps r) && (rate_bps r <=? 10000) &&
  negb (String.eqb (note r) "") &&
  ((is_none (cancelled_at r) && is_none (cancelled_by r) && is_none (cancellation_note r)) ||
   (is_some (cancelled_at r) && is_some (cancelled_by r) && is_some (cancellation_note r))).

Record PayerIdentityRow := mkPayerIdentityRow {
  identity_id : Z;
  customer_key_hash : string;
  row_gateway_user_id : Z;
  row_derivation_version : Z;
  identity_scheme : IdentityScheme
}.

Definition payer_identity_checks (r : PayerIdentityRow) : bool :=
  (0 <? row_gateway_user_id r) && (1 <=? row_derivation_version r).

Record Payment := mkPayment {
  id : Z;
  bot_order_id : string;
  gateway_order_id : Z;
  gateway_user_id : Z;
  payer_identity_id : option Z;
  payer_identity_type : option IdentityType;
  payer_derivation_version : option Z;
  amount : Z;
  fee_policy_id : option Z;
  fee_rate_bps : Z;
  fee_amount : Z;
  payable_amount : Z;
  status : PaymentStatus;
  redirect_url : option string;
  reference_id : option string;
  callback_token_hash_col : option string;
  callback_token_issued_at : option Z;
  review_acknowledged_at : option Z;
  review_resolved_at : option Z;
  review_resolution : option string;
  attention_resolved_at : option Z;
  attention_resolution : option string;
  attention_resolved_by : option string;
  attention_resolution_note : option string;
  card_last4 : option string;
  last_error : option string;
  gateway_verified_at : option Z;
  bot_notify_reason : option string;
  bot_notify_attempts : Z;
  bot_last_http_status : option Z;
  bot_last_error_code : option string;
  bot_notify_started_at : option Z;
  bot_notify_accepted_at : option Z;
  next_retry_at : option Z;
  manual_review_at : option Z;
  notification_claimed_at : option Z;
  notification_claimed_by : option string;
  reconciliation_attempts : Z;
  reconciliation_next_at : option Z;
  reconciliation_last_at : option Z;
  reconciliation_last_error_code : option string;
  reconciliation_claimed_at : option Z;
  reconciliation_claimed_by : option string;
  created_at : Z
}.

#[export] Instance eta_Payment : Eta Payment := fun r =>
  mkPayment (id r) (bot_order_id r) (gateway_order_id r) (gateway_user_id r)
    (payer_identity_id r) (payer_identity_type r) (payer_derivation_version r) (amount r)
    (fee_policy_id r) (fee_rate_bps r) (fee_amount r) (payable_amount r) (status r)
    (redirect_url r) (reference_id r) (callback_token_hash_col r) (callback_token_issued_at r)
    (review_acknowledged_at r) (review_resolved_at r) (review_resolution r)
    (attention_resolved_at r) (attention_resolution r) (attention_resolved_by r)
    (attention_resolution_note r) (card_last4 r) (last_error r) (gateway_verified_at r)
    (bot_notify_reason r) (bot_notify_attempts r) (bot_last_http_status r)
    (bot_last_error_code r) (bot_notify_started_at r) (bot_notify_accepted_at r)
    (next_retry_at r) (manual_review_at r) (notification_claimed_at r)
    (notification_claimed_by r) (reconciliation_attempts r) (reconciliation_next_at r)
    (reconciliation_last_at r) (reconciliation_last_error_code r)
    (reconciliation_claimed_at r) (reconciliation_claimed_by r) (created_at r).

(** Statuses a bot delivery can be queued or accepted in. *)
Definition delivery_status (s : PaymentStatus) : bool :=
  match s with BOT_NOTIFY_PENDING | BOT_NOTIFY_ACCEPTED => true | _ => false end.

Definition attention_checks (p : Payment) : bool :=
  (is_none (attention_resolved_at p) && is_none (attention_resolution p) &&
   is_none (attention_resolved_by p) && is_none (attention_resolution_note p)) ||
  (is_some (attention_resolved_at p) &&
   match attention_resolution p, attention_resolved_by p, attention_resolution_note p with
   | Some a, Some b, Some c =>
       negb (String.eqb a "") && negb (String.eqb b "") && negb (String.eqb c "")
   | _, _, _ => false
   end).

(** The CHECK constraints of [payments], in the order of [__table_args__];
    the constraint on [payer_identity_type] holds by the type. *)
Definition payment_checks (p : Payment) : bool :=
  (0 <? amount p) &&
  (0 <=? bot_notify_attempts p) &&
  ((0 <=? fee_rate_bps p) && (fee_rate_bps p <=? 10000)) &&
  (0 <=? fee_amount p) &&
  (0 <? payable_amount p) &&
  (payable_amount p =? amount p + fee_amount p) &&
  (negb (delivery_status (status p)) || is_some (gateway_verified_at p)) &&
  attention_checks p.

Inductive AlertStatus :=
  | PENDING | SENDING | DELIVERED | RETRY_SCHEDULED | FAILED | SUPPRESSED.

#[export] Instance AlertStatus_eq_dec : EqDecision AlertStatus.
Proof. solve_decision. Defined.

Definition alert_status_value (s : AlertStatus) : string :=
  match s with
  | PENDING => "pending" | SENDING => "sending" | DELIVERED => "delivered"
  | RETRY_SCHEDULED => "retry_scheduled" | FAILED => "failed" | SUPPRESSED => "suppressed"
  end.

Record AdminAlert := mkAdminAlert {
  alert_id : Z;
  alert_type : string;
  severity : string;
  alert_payment_id : option Z;
  deduplication_key : option string;
  payload : option dict;
  alert_status : AlertStatus;
  alert_attempts : Z;
  alert_next_retry_at : option Z;
  alert_claimed_at : option Z;
  alert_claimed_by : option string;
  delivered_at : option Z;
  alert_last_error_code : option string;
  alert_created_at : Z
}.

#[export] Instance eta_AdminAlert : Eta AdminAlert := fun r =>
  mkAdminAlert (alert_id r) (alert_type r) (severity r) (alert_payment_id r)
    (deduplication_key r) (payload r) (alert_status r) (alert_attempts r)
    (alert_next_retry_at r) (alert_claimed_at r) (alert_claimed_by r) (delivered_at r)
    (alert_last_error_code r) (alert_created_at r).

Record PaymentEvent := mkPaymentEvent {
  event_payment_id : option Z;
  event_type : string;
  level : string;
  event_request_id : option string;
  event_data : option dict
}.

(** [worker_heartbeats]: one row per worker instance. *)
Record WorkerHeartbeat := mkWorkerHeartbeat {
  worker_name : string;
  instance_id : string;
  last_heartbeat_at : Z;
  last_cycle_at : option Z;
  heartbeat_error_code : option string;
  heartbeat_version : option string
}.

#[export] Instance eta_WorkerHeartbeat : Eta WorkerHeartbeat := fun r =>
  mkWorkerHeartbeat (worker_name r) (instance_id r) (last_heartbeat_at r) (last_cycle_at r)
    (heartbeat_error_code r) (heartbeat_version r).

Inductive MonitorIncidentStatus := OPEN | RESOLVED.

#[export] Instance MonitorIncidentStatus_eq_dec : EqDecision MonitorIncidentStatus.
Proof. solve_decision. Defined.

(** [ok] is the status of a check only, never the severity of an incident. *)
Inductive Severity := OK | WARNING | CRITICAL.

#[export] Instance Severity_eq_dec : EqDecision Severity.
Proof. solve_decision. Defined.

Definition severity_value (s : Severity) : string :=
  match s with OK => "ok" | WARNING => "warning" | CRITICAL => "critical" end.

Record MonitorIncident := mkMonitorIncident {
  incident_id : Z;
  check_key : string;
  incident_severity : Severity;
  incident_status : MonitorIncidentStatus;
  opened_at : Z;
  last_seen_at : Z;
  resolved_at : option Z;
  last_alerted_at : option Z;
  last_alert_id : option Z;
  incident_details : dict
}.

#[export] Instance eta_MonitorIncident : Eta MonitorIncident := fun r =>
  mkMonitorIncident (incident_id r) (check_key r) (incident_severity r) (incident_status r)
    (opened_at r) (last_seen_at r) (resolved_at r) (last_alerted_at r) (last_alert_id r)
    (incident_details r).

(** The tables. Rows are never deleted, so the next value of a table's id
    sequence is one more than its largest id. *)
Record Db := mkDb {
  payments : gmap Z Payment;
  payment_events : list PaymentEvent; (* newest first *)
  payer_identities : gmap Z PayerIdentityRow;
  fee_policies : gmap Z FeePolicy;
  admin_alerts : gmap Z AdminAlert;
  monitor_incidents : gmap Z MonitorIncident;
  worker_heartbeats : gmap Z WorkerHeartbeat
}.

#[export] Instance eta_Db : Eta Db := fun r =>
  mkDb (payments r) (payment_events r) (payer_identities r) (fee_policies r) (admin_alerts r)
    (monitor_incidents r) (worker_heartbeats r).

Definition empty_db : Db := mkDb ∅ [] ∅ ∅ ∅ ∅ ∅.

Definition ledger_tables (d : Db) :=
  (payments d, payment_events d, payer_identities d, fee_policies d).

(** The tables of the admin bot and the monitor, which carry no money. *)
Definition service_tables (d : Db) :=
  (admin_alerts d, monitor_incidents d, worker_heartbeats d).

Definition next_id {A} (m : gmap Z A) : Z := 1 + map_fold (fun k _ acc => Z.max k acc) 0 m.

Lemma next_id_above {A} (m : gmap Z A) k x : m !! k = Some x -> k < next_id m.
Proof.
  unfold next_id. revert k x.
  apply (map_fold_weak_ind (fun r m => forall k x, m !! k = Some x -> k < 1 + r)).
  - intros k x H. by rewrite lookup_empty in H.
  - intros i y m' r Hi IH k x. rewrite lookup_insert. case_decide.
    + intros _. subst. lia.
    + intros Hk%IH. lia.
Qed.

Lemma next_id_fresh {A} (m : gmap Z A) : m !! next_id m = None.
Proof. apply eq_None_not_Some. intros [x H%next_id_above]. lia. Qed.

#[export] Hint Resolve next_id_fresh : bridge.

(** Rows of a table. *)
Definition rows {A} (m : gmap Z A) : list A := map snd (map_to_list m).

Lemma in_rows {A} (m : gmap Z A) x : In x (rows m) <-> exists k, m !! k = Some x.
Proof.
  unfold rows. rewrite in_map_iff. split.
  - intros [[k y] [<- H]]. exists k. by apply elem_of_map_to_list, list_elem_of_In.
  - intros [k H]. exists (k, x). split; [done|].
    by apply list_elem_of_In, elem_of_map_to_list.
Qed.

(** Each row is stored under its own id. *)
Definition keyed {A} (key : A -> Z) (m : gmap Z A) : Prop :=
  forall k x, m !! k = Some x -> key x = k.

(** No two rows of the table agree on a non-NULL value of a unique column. *)
Definition unique_col {A B} (col : A -> option B) (m : gmap Z A) : Prop :=
  forall i j x y v, m !! i = Some x -> m !! j = Some y ->
    col x = Some v -> col y = Some v -> i = j.

Lemma unique_col_none {A B} (col : A -> option B) : unique_col col ∅.
Proof. intros i j p q v. by rewrite lookup_empty. Qed.

Lemma keyed_rows_NoDup {A} (key : A -> Z) (m : gmap Z A) : keyed key m -> NoDup (map key (rows m)).
Proof.
  intros Hk. unfold rows. rewrite map_map.
  assert (E : map (fun kv : Z * A => key kv.2) (map_to_list m) = (map_to_list m).*1).
  { apply map_ext_in. intros [k x] Hin. cbn. apply Hk.
    by apply elem_of_map_to_list, list_elem_of_In. }
  rewrite E. apply NoDup_fst_map_to_list.
Qed.
