(* ===== verification/ServiceTables.v ===== *)
(** The tables of the admin bot and the monitor: the invariants of their
    rows, and what no operation of the bridge may do to them.

    An alert that was delivered, failed for good or was suppressed never
    changes again; a resolved incident is history; at most one incident per
    check is open; a heartbeat row is never given to another worker. The
    relations [*_legal] state this of two states of a table, in the way
    [Ledger] does for payments, and form part of its contract. *)

From S2P Require Import Prelude PyText Models.

(** ** Tables that only grow, row by row along a relation *)

Section Tables.
Context {A : Type} (legal : A -> A -> Prop) (fresh : Z -> A -> Prop).

(** Rows are never lost and evolve along [legal]; new rows satisfy [fresh]. *)
Record table_legal (m m' : gmap Z A) : Prop := {
  tl_rows : forall k a, m !! k = Some a -> exists a', m' !! k = Some a' /\ legal a a';
  tl_new : forall k a', m !! k = None -> m' !! k = Some a' -> fresh k a'
}.

Lemma table_legal_refl `{!Reflexive legal} m : table_legal m m.
Proof. split; [eauto|congruence]. Qed.

Lemma table_legal_trans `{!Transitive legal} m1 m2 m3 :
  (forall k a a', fresh k a -> legal a a' -> fresh k a') ->
  table_legal m1 m2 -> table_legal m2 m3 -> table_legal m1 m3.
Proof.
  intros Hf [R1 N1] [R2 N2]. split.
  - intros k a Ha. destruct (R1 k a Ha) as (b & Hb & L1), (R2 k b Hb) as (c & Hc & L2).
    exists c. split; [done|by transitivity b].
  - intros k c Hn Hc. destruct (m2 !! k) as [b|] eqn:Hb; [|by apply N2].
    destruct (R2 k b Hb) as (c' & Hc' & L). simplify_eq. eapply Hf; [by apply N1|done].
Qed.

Lemma table_legal_insert `{!Reflexive legal} m k a :
  m !! k = None -> fresh k a -> table_legal m (<[k := a]> m).
Proof.
  intros Hk Hf. split.
  - intros j b Hb. exists b. by rewrite lookup_insert_ne by congruence.
  - intros j b Hj. rewrite lookup_insert. case_decide; [|congruence]. intros [= <-]. by subst.
Qed.

Lemma table_legal_update `{!Reflexive legal} m k a a' :
  m !! k = Some a -> legal a a' -> table_legal m (<[k := a']> m).
Proof.
  intros Hk L. split.
  - intros j b Hb. rewrite lookup_insert. case_decide; [|by exists b]. subst. exists a'. by simplify_eq.
  - intros j b Hj. rewrite lookup_insert_ne by congruence. congruence.
Qed.
End Tables.

(** ** Alerts *)

Definition alert_fact (a : AdminAlert) :=
  (alert_id a, alert_type a, severity a, alert_payment_id a, deduplication_key a, payload a,
   alert_created_at a).

(** Statuses nothing leads out of. *)
Definition alert_final (a : AdminAlert) : bool :=
  match alert_status a with DELIVERED | FAILED | SUPPRESSED => true | _ => false end.

(** Statuses only a claim leads to. *)
Definition alert_tried (a : AdminAlert) : bool :=
  match alert_status a with SENDING | DELIVERED | RETRY_SCHEDULED | FAILED => true | _ => false end.

(** Exactly an alert being sent carries a claim; exactly a delivered one has
    a delivery time; an alert that was tried counts its attempts; a final one
    is not due. *)
Definition alert_ok (a : AdminAlert) : bool :=
  Bool.eqb (bool_decide (alert_status a = SENDING)) (is_some (alert_claimed_at a)) &&
  Bool.eqb (is_some (alert_claimed_by a)) (is_some (alert_claimed_at a)) &&
  Bool.eqb (bool_decide (alert_status a = DELIVERED)) (is_some (delivered_at a)) &&
  (0 <=? alert_attempts a) &&
  (negb (alert_tried a) || (1 <=? alert_attempts a)) &&
  (negb (alert_final a) || is_none (alert_next_retry_at a)).

Record alert_legal (a a' : AdminAlert) : Prop := {
  al_fact : alert_fact a' = alert_fact a;
  al_final : alert_final a = true -> a' = a;
  al_attempts : alert_attempts a <= alert_attempts a';
  al_ok : alert_ok a = true -> alert_ok a' = true
}.

#[export] Instance alert_legal_preorder : PreOrder alert_legal.
Proof.
  split.
  - intros a. split; [done..|lia|done].
  - intros a b c [F1 N1 A1 O1] [F2 N2 A2 O2]. split; [congruence| |lia|auto].
    intros Hf. rewrite (N2 ltac:(by rewrite (N1 Hf))). auto.
Qed.

Definition fresh_alert (k : Z) (a : AdminAlert) : Prop := alert_id a = k /\ alert_ok a = true.

Definition outbox_legal := table_legal alert_legal fresh_alert.

(** An alert as the code creates it. *)
Definition born_alert (k : Z) (a : AdminAlert) : Prop := fresh_alert k a /\ alert_tried a = false.

Lemma alert_unclaimed a : alert_ok a = true -> alert_status a <> SENDING -> alert_claimed_by a = None.
Proof.
  unfold alert_ok. intros H Hs. rewrite bool_decide_false in H by done.
  by destruct (alert_claimed_at a), (alert_claimed_by a).
Qed.

Lemma born_unclaimed k a : born_alert k a -> alert_claimed_by a = None.
Proof. intros [[_ Hok] Ht]. apply alert_unclaimed; [done|]. intros E. unfold alert_tried in Ht. by rewrite E in Ht. Qed.

(** Alerts may have been added, but none changed. *)
Definition outbox_grew := table_legal (@eq AdminAlert) born_alert.

#[export] Instance outbox_grew_preorder : PreOrder outbox_grew.
Proof.
  split; [intros m; apply table_legal_refl, _|].
  intros m1 m2 m3. apply table_legal_trans; [apply _|]. by intros k a a' Hf <-.
Qed.

Lemma grew_legal m m' : outbox_grew m m' -> outbox_legal m m'.
Proof.
  intros [R N]. split; [|intros k a Hn Ha; by destruct (N k a Hn Ha)].
  intros k a Ha. destruct (R k a Ha) as (a' & Ha' & <-). exists a. split; [done|reflexivity].
Qed.

Lemma grew_lookup m m' k a : outbox_grew m m' -> m !! k = Some a -> m' !! k = Some a.
Proof. intros [R _] Ha. by destruct (R k a Ha) as (a' & Ha' & <-). Qed.

Lemma grew_insert m m' k a : outbox_grew m m' -> m !! k <> None ->
  outbox_grew (<[k := a]> m) (<[k := a]> m').
Proof.
  intros [R N] Hk. split.
  - intros j b. rewrite !lookup_insert. case_decide; [eauto|apply R].
  - intros j b. rewrite !lookup_insert. case_decide; [done|apply N].
Qed.

Lemma fresh_alert_legal k a a' : fresh_alert k a -> alert_legal a a' -> fresh_alert k a'.
Proof. intros [<- Hok] [F _ _ O]. split; [|auto]. unfold alert_fact in F. congruence. Qed.

#[export] Instance outbox_legal_preorder : PreOrder outbox_legal.
Proof.
  split; [intros m; apply table_legal_refl, _|].
  intros m1 m2 m3. apply table_legal_trans; [apply _|exact fresh_alert_legal].
Qed.

Definition outbox_ok (m : gmap Z AdminAlert) : Prop := forall k a, m !! k = Some a -> fresh_alert k a.

(** ** Incidents *)

(** The key of an open incident: the partial unique index
    [uq_monitor_incidents_open_check_key]. *)
Definition open_key (i : MonitorIncident) : option string :=
  if bool_decide (incident_status i = OPEN) then Some (check_key i) else None.

Definition incident_fact (i : MonitorIncident) := (incident_id i, check_key i, opened_at i).

(** An incident has a resolution time exactly when resolved, and is never
    of severity [ok]. *)
Definition incident_ok (i : MonitorIncident) : bool :=
  Bool.eqb (bool_decide (incident_status i = RESOLVED)) (is_some (resolved_at i)) &&
  negb (bool_decide (incident_severity i = OK)).

Record incident_legal (i i' : MonitorIncident) : Prop := {
  il_fact : incident_fact i' = incident_fact i;
  il_resolved : incident_status i = RESOLVED -> i' = i;
  il_ok : incident_ok i = true -> incident_ok i' = true
}.

#[export] Instance incident_legal_preorder : PreOrder incident_legal.
Proof.
  split.
  - intros i. by split.
  - intros a b c [F1 N1 O1] [F2 N2 O2]. split; [congruence| |auto].
    intros Hr. rewrite (N2 ltac:(by rewrite (N1 Hr))). auto.
Qed.

Definition fresh_incident (k : Z) (i : MonitorIncident) : Prop :=
  incident_id i = k /\ incident_ok i = true.

Lemma fresh_incident_legal k i i' : fresh_incident k i -> incident_legal i i' -> fresh_incident k i'.
Proof. intros [<- Hok] [F _ O]. split; [|auto]. unfold incident_fact in F. congruence. Qed.

Record incidents_legal (m m' : gmap Z MonitorIncident) : Prop := {
  ic_rows : table_legal incident_legal fresh_incident m m';
  ic_open : unique_col open_key m -> unique_col open_key m'
}.

#[export] Instance incidents_legal_preorder : PreOrder incidents_legal.
Proof.
  split.
  - intros m. split; [apply table_legal_refl, _|done].
  - intros m1 m2 m3 [R1 U1] [R2 U2]. split; [|auto].
    by apply (table_legal_trans _ _ m1 m2); [exact fresh_incident_legal|..].
Qed.

Definition incidents_ok (m : gmap Z MonitorIncident) : Prop :=
  (forall k i, m !! k = Some i -> fresh_incident k i) /\ unique_col open_key m.

(** ** Heartbeats *)

Record heartbeat_legal (h h' : WorkerHeartbeat) : Prop := {
  hl_name : worker_name h' = worker_name h;
  hl_instance : instance_id h' = instance_id h
}.

#[export] Instance heartbeat_legal_preorder : PreOrder heartbeat_legal.
Proof. split; [by split|]. intros a b c [] []. split; congruence. Qed.

Record heartbeats_legal (m m' : gmap Z WorkerHeartbeat) : Prop := {
  hb_rows : table_legal heartbeat_legal (fun _ _ => True) m m';
  hb_instances : unique_col (Some ∘ instance_id) m -> unique_col (Some ∘ instance_id) m'
}.

#[export] Instance heartbeats_legal_preorder : PreOrder heartbeats_legal.
Proof.
  split.
  - intros m. split; [apply table_legal_refl, _|done].
  - intros m1 m2 m3 [R1 U1] [R2 U2]. split; [|auto]. by apply (table_legal_trans _ _ m1 m2).
Qed.

(** ** The three tables *)

Record service_legal (d d' : Db) : Prop := {
  sl_alerts : outbox_legal (admin_alerts d) (admin_alerts d');
  sl_incidents : incidents_legal (monitor_incidents d) (monitor_incidents d');
  sl_heartbeats : heartbeats_legal (worker_heartbeats d) (worker_heartbeats d')
}.

#[export] Instance service_legal_preorder : PreOrder service_legal.
Proof.
  split.
  - intros d. split; reflexivity.
  - intros d1 d2 d3 [] []. split; by etransitivity.
Qed.

Lemma same_service_legal d d' : service_tables d' = service_tables d -> service_legal d d'.
Proof. unfold service_tables. intros [= E1 E2 E3]. split; rewrite ?E1, ?E2, ?E3; reflexivity. Qed.

Record service_ok (d : Db) : Prop := {
  sv_alerts : outbox_ok (admin_alerts d);
  sv_incidents : incidents_ok (monitor_incidents d);
  sv_heartbeats : unique_col (Some ∘ instance_id) (worker_heartbeats d)
}.

(** Empty service tables, as in the databases of the examples. *)
Lemma service_ok_empty d : service_tables d = (∅, ∅, ∅) -> service_ok d.
Proof.
  unfold service_tables. intros [= E1 E2 E3]. split; [intros k a|split; [intros k i|]|];
    rewrite ?E1, ?E2, ?E3, ?lookup_empty; first [done | apply unique_col_none].
Qed.

Lemma table_legal_ok {A} (legal : A -> A -> Prop) (fresh : Z -> A -> Prop) m m' :
  (forall k a a', fresh k a -> legal a a' -> fresh k a') -> table_legal legal fresh m m' ->
  (forall k a, m !! k = Some a -> fresh k a) -> forall k a, m' !! k = Some a -> fresh k a.
Proof.
  intros Hf [R N] Hok k a' Ha'. destruct (m !! k) as [a|] eqn:Ha; [|by apply N].
  destruct (R k a Ha) as (b & Hb & L). simplify_eq. eauto.
Qed.

Lemma service_legal_ok d d' : service_legal d d' -> service_ok d -> service_ok d'.
Proof.
  intros [A [I U] [_ H]] [Oa [Oi Ou] Oh]. split; [|split|]; auto.
  - exact (table_legal_ok _ _ _ _ fresh_alert_legal A Oa).
  - exact (table_legal_ok _ _ _ _ fresh_incident_legal I Oi).
Qed.

#[export] Hint Resolve same_service_legal : bridge.
