(* ===== verification/Identity.v ===== *)
(** Payer identities as data ([app/services/payer_identity.py]): identity
    keys, their keyed hashes, the two number ranges, the derivation of a
    fallback id, and the invariant of the identity table. *)

From S2P Require Import Prelude PyText Crypto Models.

Definition DERIVATION_VERSION : Z := 2.
Definition KEY_DOMAIN : string := "centralpay-payer-key:v2:".
Definition ID_DOMAIN : string := "centralpay-payer-id:v2:".
Definition HISTORICAL_KEY_DOMAIN : string := "centralpay-payer-key:v1:".

Definition MAX_TELEGRAM_USER_ID : Z := 2 ^ 52 - 1.
Definition ORDER_FALLBACK_MIN : Z := 6000000000000000.
Definition ORDER_FALLBACK_SPAN : Z := 1000000000000.
Definition MAX_DERIVATION_ATTEMPTS : Z := 10000.
Definition FINGERPRINT_LENGTH : nat := 12.

Definition telegram_identity_key (telegram_user_id : Z) : string :=
  "tg:" +:+ str_of_int telegram_user_id.

Definition order_identity_key (bot_order_id : string) : string := "order:" +:+ bot_order_id.

Definition identity_key_hash (secret identity_key : string) : string :=
  hmac_hex secret (KEY_DOMAIN +:+ identity_key).

Definition historical_identity_key_hash (secret identity_key : string) : string :=
  hmac_hex secret (HISTORICAL_KEY_DOMAIN +:+ identity_key).

Definition identity_fingerprint (secret identity_key : string) : string :=
  str_take FINGERPRINT_LENGTH (identity_key_hash secret identity_key).

Definition derive_order_gateway_user_id (secret identity_key : string) (attempt : Z) : Z :=
  let digest := hmac_sha256 (utf8 secret)
                  (utf8 (ID_DOMAIN +:+ identity_key +:+ ":" +:+ str_of_int attempt)) in
  ORDER_FALLBACK_MIN + be_int (take 8 digest) mod ORDER_FALLBACK_SPAN.

(** ** Facts *)

Lemma derive_range secret key attempt :
  ORDER_FALLBACK_MIN <= derive_order_gateway_user_id secret key attempt
    < ORDER_FALLBACK_MIN + ORDER_FALLBACK_SPAN.
Proof.
  unfold derive_order_gateway_user_id.
  pose proof (Z.mod_pos_bound (be_int (take 8 (hmac_sha256 (utf8 secret)
    (utf8 (ID_DOMAIN +:+ key +:+ ":" +:+ str_of_int attempt))))) ORDER_FALLBACK_SPAN eq_refl). lia.
Qed.

(** The range of the numbers of each scheme; the ranges of the two current
    schemes are disjoint. *)
Definition scheme_range (r : PayerIdentityRow) : bool :=
  match identity_scheme r with
  | TELEGRAM_RAW =>
      (1 <=? row_gateway_user_id r) && (row_gateway_user_id r <=? MAX_TELEGRAM_USER_ID)
  | ORDER_HMAC =>
      (ORDER_FALLBACK_MIN <=? row_gateway_user_id r) &&
      (row_gateway_user_id r <? ORDER_FALLBACK_MIN + ORDER_FALLBACK_SPAN)
  | HISTORICAL_HMAC => 0 <? row_gateway_user_id r
  end.

Record identities_ok (m : gmap Z PayerIdentityRow) : Prop := {
  io_keyed : keyed identity_id m;
  io_hash : unique_col (fun r => Some (customer_key_hash r)) m;
  io_gateway : unique_col (fun r => Some (row_gateway_user_id r)) m;
  io_rows : forall i r, m !! i = Some r -> payer_identity_checks r && scheme_range r = true
}.

(** A row that violates no UNIQUE constraint may be added. *)
Definition identity_conflict (r : PayerIdentityRow) (m : gmap Z PayerIdentityRow) : bool :=
  existsb (fun q => String.eqb (customer_key_hash q) (customer_key_hash r) ||
                    (row_gateway_user_id q =? row_gateway_user_id r)) (rows m).

Lemma identity_conflict_false r m : identity_conflict r m = false ->
  forall i q, m !! i = Some q ->
    customer_key_hash q <> customer_key_hash r /\ row_gateway_user_id q <> row_gateway_user_id r.
Proof.
  unfold identity_conflict. intros H i q Hi.
  assert (Hq : String.eqb (customer_key_hash q) (customer_key_hash r) ||
               (row_gateway_user_id q =? row_gateway_user_id r) = false).
  { apply not_true_iff_false. intros Ht. apply not_true_iff_false in H. apply H.
    apply existsb_exists. exists q. split; [apply in_rows; eauto|done]. }
  by bool_to_prop.
Qed.

Lemma identities_ok_insert r m : identities_ok m -> identity_conflict r m = false ->
  payer_identity_checks r && scheme_range r = true -> m !! identity_id r = None ->
  identities_ok (<[identity_id r := r]> m).
Proof.
  intros [K U1 U2 R] Hc Hr Hn. pose proof (identity_conflict_false _ _ Hc) as Hdis. split.
  - intros i q. rewrite lookup_insert. case_decide; [by intros [= <-]|apply K].
  - intros i j x y v. rewrite !lookup_insert. repeat case_decide; subst.
    + done.
    + intros [= <-] Hy [= <-] [= E]. by destruct (Hdis j y Hy).
    + intros Hx [= <-] [= <-] [= E]. by destruct (Hdis i x Hx).
    + apply U1.
  - intros i j x y v. rewrite !lookup_insert. repeat case_decide; subst.
    + done.
    + intros [= <-] Hy [= <-] [= E]. by destruct (Hdis j y Hy).
    + intros Hx [= <-] [= <-] [= E]. by destruct (Hdis i x Hx).
    + apply U2.
  - intros i q. rewrite lookup_insert. case_decide; [by intros [= <-]|apply R].
Qed.
