(* ===== verification/Session.v ===== *)
(** A SQLAlchemy session over the database, as an explicit state.

    The code under verification runs in Python functions that read and write
    rows through one [Session] created with [expire_on_commit=False] and
    [autoflush=False] ([app/db.py]). The model keeps what such a function can
    observe:

    - [committed]: the database other sessions see;
    - [working]: the database this transaction sees (its own flushed writes
      included); [commit] makes it the committed one, [rollback] returns to
      the committed one;
    - [identity_map]: the [Payment] objects the session already holds. A
      query returns the cached object of a row, unless [populate_existing]
      is given; a commit leaves the objects as they are, a rollback expires
      them;
    - [calls]: the requests sent to the outside world, newest first.

    An attribute assignment becomes an UPDATE of exactly the assigned columns
    at the next flush. The source flushes before every query that could see
    the difference, so the model writes the columns at once ([upd]).

    The outside world (clock, random source, gateway, bot, rows locked by
    other sessions, what other sessions commit between two transactions of
    this one) is a class [Env] of functions of the number of previous
    interactions. *)

From S2P Require Import Prelude PyText Exceptions Models.

(** Reply of the gateway to one POST: a response whose body parsed as JSON
    or not, a transport failure ([httpx.HTTPError] of the given class), or
    any other exception out of the HTTP client. *)
Inductive GatewayReply :=
  | GatewayResponse (status_code : Z) (body : option Json)
  | GatewayHTTPError (cls : string)
  | GatewayCrash (cls : string).

(** Transport failures of the bot client that the classifier tells apart. *)
Inductive TransportError :=
  | ConnectError (text : string)
  | ConnectTimeout
  | PoolTimeout
  | OtherHTTPError (cls : string).

Inductive BotReply :=
  | BotResponse (status_code : Z) (retry_after : option string)
  | BotTransportError (e : TransportError)
  | BotCrash (cls : string).

Class Env := {
  clock : nat -> Z;
  randbelow : nat -> Z -> Z;
  token_hex : nat -> string;
  locked_by_others : nat -> Z -> bool;
  others : nat -> Db -> Db;
  alert_insert_fails : nat -> bool;
  gateway_post : nat -> string -> dict -> GatewayReply;
  bot_post : nat -> string -> BotReply
}.

(** What leaves the host. [HttpGet] is a GET over the internet; the probes of
    the bridge's own API on the internal network are not counted. *)
Inductive ExternalCall :=
  | GatewayPost (endpoint : string) (body : dict)
  | BotPost (order_id : string)
  | TelegramSend (chat_id : Z) (text : list Z)
  | HttpGet (url : string).

Record AlertCreationPolicy := mkAlertCreationPolicy {
  alerts_enabled : bool;
  payment_success_alerts : bool;
  error_alerts : bool;
  manual_review_alerts : bool;
  backup_alerts : bool;
  dedup_minutes : Z
}.

Record World := mkWorld {
  committed : Db;
  working : Db;
  identity_map : gmap Z Payment;
  ticks : nat;
  calls : list ExternalCall;
  request_id : option string;
  alert_policy : option AlertCreationPolicy
}.

#[export] Instance eta_World : Eta World := fun w =>
  mkWorld (committed w) (working w) (identity_map w) (ticks w) (calls w) (request_id w)
    (alert_policy w).

(** ** The monad: state, and exceptions that keep the state *)

Inductive Res (A : Type) :=
  | Ret (a : A)
  | Raise (e : Exn).
Arguments Ret {A} a.
Arguments Raise {A} e.

Definition M (A : Type) : Type := World -> Res A * World.

Definition ret {A} (a : A) : M A := fun w => (Ret a, w).
Definition raise {A} (e : Exn) : M A := fun w => (Raise e, w).
Definition bind {A B} (m : M A) (k : A -> M B) : M B := fun w =>
  match m w with
  | (Ret a, w') => k a w'
  | (Raise e, w') => (Raise e, w')
  end.

(** [try: m except ...: h]: the handler sees the state the exception left. *)
Definition try_catch {A} (m : M A) (h : Exn -> M A) : M A := fun w =>
  match m w with
  | (Ret a, w') => (Ret a, w')
  | (Raise e, w') => h e w'
  end.

Declare Scope monad_scope.
Delimit Scope monad_scope with monad.
Notation "'let*' x := m 'in' k" := (bind m (fun x => k))
  (at level 10, x pattern, m at level 100, k at level 200) : monad_scope.
Notation "m ;;; k" := (bind m (fun _ => k)) (at level 100, right associativity) : monad_scope.
#[global] Open Scope monad_scope.

Definition raise_error {A} (c : ErrorClass) : M A := raise (Bridge (bridge_error c None)).

(** ** Primitive operations *)

Definition get_db : M Db := fun w => (Ret (working w), w).
Definition put_db (d : Db) : M unit := fun w => (Ret tt, w <| working := d |>).

Definition commit : M unit := fun w => (Ret tt, w <| committed := working w |>).
Definition rollback : M unit := fun w =>
  (Ret tt, w <| working := committed w |> <| identity_map := ∅ |>).

Section Primitives.
Context `{Env}.

Definition tick {A} (f : nat -> A) : M A := fun w =>
  (Ret (f (ticks w)), w <| ticks := S (ticks w) |>).

Definition utcnow : M Z := tick clock.

(** The first statement after a commit or rollback starts a new transaction:
    it sees what other sessions committed in between. *)
Definition begin_tx : M unit := fun w =>
  let d := others (ticks w) (committed w) in
  tick (fun _ => tt) (w <| committed := d |> <| working := d |>).

(** [with session_factory() as db]: a session of its own, whose first
    statement starts a transaction. *)
Definition new_session : M unit := rollback ;;; begin_tx.

Definition call_gateway (endpoint : string) (body : dict) : M GatewayReply := fun w =>
  tick (fun n => gateway_post n endpoint body)
    (w <| calls := GatewayPost endpoint body :: calls w |>).

Definition call_bot (order_id : string) : M BotReply := fun w =>
  tick (fun n => bot_post n order_id) (w <| calls := BotPost order_id :: calls w |>).
End Primitives.

(** ** Payment rows as ORM objects *)

(** The object a query returns for a row. *)
Definition attach (populate_existing : bool) (row : Payment) : M Payment := fun w =>
  match identity_map w !! id row with
  | Some cached =>
      if populate_existing
      then (Ret row, w <| identity_map := <[id row := row]> (identity_map w) |>)
      else (Ret cached, w)
  | None => (Ret row, w <| identity_map := <[id row := row]> (identity_map w) |>)
  end.

(** The rows of [payments] that satisfy a WHERE clause. *)
Definition payments_where (flt : Payment -> bool) (d : Db) : list Payment :=
  List.filter flt (rows (payments d)).

(** [select(Payment).where(...)] with [scalar_one_or_none], on a condition at
    most one row satisfies. *)
Definition select_payment (populate_existing : bool) (flt : Payment -> bool)
  : M (option Payment) :=
  let* d := get_db in
  match payments_where flt d with
  | [] => ret None
  | row :: _ => let* p := attach populate_existing row in ret (Some p)
  end.

(** [select(Payment).where(Payment.id == i)]. *)
Definition select_payment_by_id (populate_existing : bool) (i : Z) : M (option Payment) :=
  let* d := get_db in
  match payments d !! i with
  | None => ret None
  | Some row => let* p := attach populate_existing row in ret (Some p)
  end.

(** Assigning attributes of the object [p]; the result is the object. *)
Definition upd (p : Payment) (f : Payment -> Payment) : M Payment := fun w =>
  (Ret (f p),
   w <| working := (working w) <| payments := alter f (id p) (payments (working w)) |> |>
     <| identity_map := <[id p := f p]> (identity_map w) |>).

(** [db.add(Payment(...)); db.flush()]: the row gets the next id, and the
    UNIQUE constraints on [bot_order_id], [gateway_order_id] and
    [reference_id] are checked. *)
Definition violates_unique (p : Payment) (d : Db) : bool :=
  existsb (fun q => String.eqb (bot_order_id q) (bot_order_id p) ||
                    (gateway_order_id q =? gateway_order_id p) ||
                    match reference_id q, reference_id p with
                    | Some a, Some b => String.eqb a b
                    | _, _ => false
                    end) (rows (payments d)).

Definition insert_payment (mk : Z -> Payment) : M Payment :=
  let* d := get_db in
  let p := mk (next_id (payments d)) in
  if violates_unique p d then raise IntegrityError
  else fun w =>
    (Ret p,
     w <| working := d <| payments := <[id p := p]> (payments d) |> |>
       <| identity_map := <[id p := p]> (identity_map w) |>).

(** ** Weakest preconditions *)

Definition wp {A} (m : M A) (Q : Res A -> World -> Prop) (w : World) : Prop :=
  Q (fst (m w)) (snd (m w)).

Lemma wp_run {A} (m : M A) Q w r w' : m w = (r, w') -> wp m Q w -> Q r w'.
Proof. unfold wp. by intros ->. Qed.

Lemma wp_intro {A} (m : M A) (Q : Res A -> World -> Prop) w :
  (forall r w', m w = (r, w') -> Q r w') -> wp m Q w.
Proof. unfold wp. intros H. destruct (m w) as [r w'] eqn:E. exact (H r w' eq_refl). Qed.

Lemma wp_mono {A} (m : M A) (Q Q' : Res A -> World -> Prop) w :
  wp m Q w -> (forall r w', Q r w' -> Q' r w') -> wp m Q' w.
Proof. unfold wp. auto. Qed.

Lemma wp_and {A} (m : M A) (Q Q' : Res A -> World -> Prop) w :
  wp m Q w -> wp m Q' w -> wp m (fun r w' => Q r w' /\ Q' r w') w.
Proof. unfold wp. auto. Qed.

Lemma wp_bind {A B} (m : M A) (k : A -> M B) Q w :
  wp m (fun r w' => match r with Ret a => wp (k a) Q w' | Raise e => Q (Raise e) w' end) w ->
  wp (bind m k) Q w.
Proof. unfold wp, bind. destruct (m w) as [[a|e] w']; done. Qed.

Lemma wp_try {A} (m : M A) h Q w :
  wp m (fun r w' => match r with Ret a => Q (Ret a) w' | Raise e => wp (h e) Q w' end) w ->
  wp (try_catch m h) Q w.
Proof. unfold wp, try_catch. destruct (m w) as [[a|e] w']; done. Qed.

Lemma wp_ret {A} (a : A) Q w : Q (Ret a) w -> wp (ret a) Q w.
Proof. done. Qed.
Lemma wp_raise {A} e (Q : Res A -> World -> Prop) w : Q (Raise e) w -> wp (raise e) Q w.
Proof. done. Qed.

(** Running [bind] on a component whose result is known. *)
Lemma bind_ret_eq {A B} (m : M A) (k : A -> M B) w a w' :
  m w = (Ret a, w') -> bind m k w = k a w'.
Proof. unfold bind. by intros ->. Qed.
Lemma bind_raise_eq {A B} (m : M A) (k : A -> M B) w e w' :
  m w = (Raise e, w') -> bind m k w = (Raise e, w').
Proof. unfold bind. by intros ->. Qed.

(** ** Frames of the primitives

    Each primitive relates the worlds before and after by the equations of a
    record; [ws] rewrites with all of them, so that a proof follows a handler
    statement by statement without unfolding the state. *)

Record updated (p : Payment) (f : Payment -> Payment) (w w' : World) : Prop := {
  up_committed : committed w' = committed w;
  up_payments : payments (working w') = alter f (id p) (payments (working w));
  up_events : payment_events (working w') = payment_events (working w);
  up_identities : payer_identities (working w') = payer_identities (working w);
  up_policies : fee_policies (working w') = fee_policies (working w);
  up_service : service_tables (working w') = service_tables (working w);
  up_map : identity_map w' = <[id p := f p]> (identity_map w);
  up_calls : calls w' = calls w;
  up_request : request_id w' = request_id w;
  up_policy : alert_policy w' = alert_policy w
}.

(** The row [row] was returned as the object [p]. *)
Record attached (row p : Payment) (w w' : World) : Prop := {
  at_committed : committed w' = committed w;
  at_working : working w' = working w;
  at_map : identity_map w' = <[id row := p]> (identity_map w);
  at_calls : calls w' = calls w;
  at_request : request_id w' = request_id w;
  at_policy : alert_policy w' = alert_policy w
}.

Record did_commit (w w' : World) : Prop := {
  cm_committed : committed w' = working w;
  cm_working : working w' = working w;
  cm_map : identity_map w' = identity_map w;
  cm_calls : calls w' = calls w;
  cm_request : request_id w' = request_id w;
  cm_policy : alert_policy w' = alert_policy w
}.

Record did_rollback (w w' : World) : Prop := {
  rb_committed : committed w' = committed w;
  rb_working : working w' = committed w;
  rb_map : identity_map w' = ∅;
  rb_calls : calls w' = calls w;
  rb_request : request_id w' = request_id w;
  rb_policy : alert_policy w' = alert_policy w
}.

(** Sending [cs] (newest first) and nothing else. *)
Record called (cs : list ExternalCall) (w w' : World) : Prop := {
  ca_committed : committed w' = committed w;
  ca_working : working w' = working w;
  ca_map : identity_map w' = identity_map w;
  ca_calls : calls w' = cs ++ calls w;
  ca_request : request_id w' = request_id w;
  ca_policy : alert_policy w' = alert_policy w
}.

Lemma called_refl w : called [] w w.
Proof. done. Qed.

Lemma called_trans c1 c2 w1 w2 w3 : called c1 w1 w2 -> called c2 w2 w3 -> called (c2 ++ c1) w1 w3.
Proof. intros [] []. split; try congruence. rewrite <- app_assoc. congruence. Qed.

(** The session's view of the database became [d], with nothing committed. *)
Record wrote (d : Db) (w w' : World) : Prop := {
  wr_committed : committed w' = committed w;
  wr_working : working w' = d;
  wr_map : identity_map w' = identity_map w;
  wr_calls : calls w' = calls w;
  wr_request : request_id w' = request_id w;
  wr_policy : alert_policy w' = alert_policy w
}.

(** A new transaction started. *)
Record began `{Env} (w w' : World) : Prop := {
  bg_committed : exists n, committed w' = others n (committed w);
  bg_working : working w' = committed w';
  bg_map : identity_map w' = identity_map w;
  bg_calls : calls w' = calls w;
  bg_request : request_id w' = request_id w;
  bg_policy : alert_policy w' = alert_policy w
}.

Lemma wp_upd p f (Q : Res Payment -> World -> Prop) w :
  (forall w', updated p f w w' -> Q (Ret (f p)) w') -> wp (upd p f) Q w.
Proof. intros H. apply H. done. Qed.

Lemma wp_put_db d (Q : Res unit -> World -> Prop) w :
  (forall w', wrote d w w' -> Q (Ret tt) w') -> wp (put_db d) Q w.
Proof. intros H. apply H. done. Qed.

Lemma wp_commit (Q : Res unit -> World -> Prop) w :
  (forall w', did_commit w w' -> Q (Ret tt) w') -> wp commit Q w.
Proof. intros H. apply H. done. Qed.

Lemma wp_rollback (Q : Res unit -> World -> Prop) w :
  (forall w', did_rollback w w' -> Q (Ret tt) w') -> wp rollback Q w.
Proof. intros H. apply H. done. Qed.

Lemma wp_get_db (Q : Res Db -> World -> Prop) w : Q (Ret (working w)) w -> wp get_db Q w.
Proof. done. Qed.

Lemma wp_tick {A} (f : nat -> A) (Q : Res A -> World -> Prop) w :
  (forall w', called [] w w' -> Q (Ret (f (ticks w))) w') -> wp (tick f) Q w.
Proof. intros H. apply H. done. Qed.

Lemma wp_tick_at {A} (f : nat -> A) (Q : Res A -> World -> Prop) w :
  (forall w', called [] w w' -> ticks w' = S (ticks w) -> Q (Ret (f (ticks w))) w') -> wp (tick f) Q w.
Proof. intros H. by apply H. Qed.

Lemma wp_utcnow `{Env} (Q : Res Z -> World -> Prop) w :
  (forall t w', called [] w w' -> Q (Ret t) w') -> wp utcnow Q w.
Proof. intros H'. apply wp_tick. eauto. Qed.

Lemma wp_call_gateway `{Env} ep body (Q : Res GatewayReply -> World -> Prop) w :
  (forall w', called [GatewayPost ep body] w w' ->
     Q (Ret (gateway_post (ticks w) ep body)) w') -> wp (call_gateway ep body) Q w.
Proof. intros H'. apply H'. done. Qed.

Lemma wp_call_bot `{Env} oid (Q : Res BotReply -> World -> Prop) w :
  (forall w', called [BotPost oid] w w' -> Q (Ret (bot_post (ticks w) oid)) w') ->
  wp (call_bot oid) Q w.
Proof. intros H'. apply H'. done. Qed.

Lemma wp_begin_tx `{Env} (Q : Res unit -> World -> Prop) w :
  (forall w', began w w' -> Q (Ret tt) w') -> wp begin_tx Q w.
Proof. intros H'. apply H'. split; try done. by eexists. Qed.

(** [p] is the object of [row] in this session: the cached one if any,
    unless it is populated afresh. *)
Definition object_of (w : World) (populate : bool) (row : Payment) : Payment :=
  if populate then row else default row (identity_map w !! id row).
#[global] Arguments object_of : simpl never.

Lemma wp_attach b row (Q : Res Payment -> World -> Prop) w :
  (forall w', attached row (object_of w b row) w w' -> Q (Ret (object_of w b row)) w') ->
  wp (attach b row) Q w.
Proof.
  intros HQ. unfold wp, attach, object_of in *.
  destruct (identity_map w !! id row) as [c|] eqn:E; [destruct b|]; cbn in *.
  - by apply HQ.
  - apply HQ. split; try done. by rewrite insert_id.
  - destruct b; by apply HQ.
Qed.

(** Selecting a row by its id. *)
Lemma wp_select_by_id b i (Q : Res (option Payment) -> World -> Prop) w :
  match payments (working w) !! i with
  | None => Q (Ret None) w
  | Some row => forall w', attached row (object_of w b row) w w' ->
                  Q (Ret (Some (object_of w b row))) w'
  end -> wp (select_payment_by_id b i) Q w.
Proof.
  intros HQ. unfold select_payment_by_id. apply wp_bind, wp_get_db.
  destruct (payments (working w) !! i) as [row|]; [|done].
  apply wp_bind, wp_attach. intros w' Hw'. by apply HQ.
Qed.

(** Selecting by a condition at most one row satisfies. *)
Lemma wp_select_payment b flt (Q : Res (option Payment) -> World -> Prop) w :
  keyed id (payments (working w)) ->
  ((forall i row, payments (working w) !! i = Some row -> flt row = false) -> Q (Ret None) w) ->
  (forall row w', payments (working w) !! id row = Some row -> flt row = true ->
     attached row (object_of w b row) w w' -> Q (Ret (Some (object_of w b row))) w') ->
  wp (select_payment b flt) Q w.
Proof.
  intros Hk Hnone Hsome. unfold select_payment. apply wp_bind, wp_get_db. unfold payments_where.
  destruct (List.filter flt (rows (payments (working w)))) as [|row l] eqn:E.
  - apply Hnone. intros i row Hi. apply not_true_iff_false. intros Hf.
    assert (Hin : In row (List.filter flt (rows (payments (working w)))))
      by (apply filter_In; split; [apply in_rows; eauto|done]).
    by rewrite E in Hin.
  - apply wp_bind, wp_attach. intros w' Hw'.
    assert (Hin : In row (List.filter flt (rows (payments (working w))))) by (rewrite E; by left).
    apply filter_In in Hin as [[i Hi]%in_rows Hf].
    apply (Hsome row w'); [|done..]. by rewrite (Hk _ _ Hi).
Qed.

(** ** A concrete outside world, on which witnesses are evaluated *)

(** A clock that advances by one second per reading, constant draws, no
    other session, and a gateway and a bot that cannot be reached. *)
#[export] Instance calm_env : Env | 100 := {|
  clock := fun n => seconds (100000 + Z.of_nat n);
  randbelow := fun n bound => Z.of_nat n mod bound;
  token_hex := fun _ => "00112233445566778899aabbccddeeff";
  locked_by_others := fun _ _ => false;
  others := fun _ d => d;
  alert_insert_fails := fun _ => false;
  gateway_post := fun _ _ _ => GatewayHTTPError "ConnectTimeout";
  bot_post := fun _ _ => BotTransportError ConnectTimeout
|}.

Definition with_gateway (reply : GatewayReply) : Env := {|
  clock := clock; randbelow := randbelow; token_hex := token_hex;
  locked_by_others := locked_by_others; others := others; alert_insert_fails := alert_insert_fails;
  gateway_post := fun _ _ _ => reply; bot_post := bot_post
|}.

Definition with_bot (reply : BotReply) : Env := {|
  clock := clock; randbelow := randbelow; token_hex := token_hex;
  locked_by_others := locked_by_others; others := others; alert_insert_fails := alert_insert_fails;
  gateway_post := gateway_post; bot_post := fun _ _ => reply
|}.

(** A fresh session over a committed database. *)
Definition world_of (d : Db) : World := mkWorld d d ∅ 0 [] None None.
