(* ===== verification/AuditTrail.v ===== *)
(** The audit trail ([app/audit.py]) and the creation side of the admin-alert
    outbox ([app/adminbot/alerts.py]).

    [record_event] appends a [payment_events] row to the caller's transaction
    and then runs the alert hook inside a savepoint; the hook itself may
    record one more event. The frame relation [audited] says what a caller
    can rely on: recording an event never raises and touches nothing but the
    audit trail and the alert outbox. *)

From S2P Require Import Prelude PyText Exceptions Config Models ServiceTables Session.

Definition is_level (l : string) : bool :=
  existsb (String.eqb l) ["debug"; "info"; "warning"; "error"; "critical"].

(** Recording one event: payment id, event type, level, data. *)
Definition Recorder : Type := option Z -> string -> string -> dict -> M unit.

(** The row itself ([db.add(event); db.flush()]). *)
Definition insert_event (pid : option Z) (etype lvl : string) (data : option dict) : M unit :=
  fun w =>
    let lvl := if is_level lvl then lvl else "info" in
    let e := mkPaymentEvent pid etype lvl (request_id w) data in
    (Ret tt,
     w <| working := (working w) <| payment_events := e :: payment_events (working w) |> |>).

Definition get_alert_policy : M (option AlertCreationPolicy) := fun w => (Ret (alert_policy w), w).

(** [with db.begin_nested(): ...] inside [try: ... except Exception]: a
    failure undoes the nested writes only and is swallowed. *)
Definition in_savepoint (m : M unit) : M unit := fun w =>
  match m w with
  | (Ret _, w') => (Ret tt, w')
  | (Raise _, w') => (Ret tt, w' <| working := working w |>)
  end.

Definition opt_id_str (o : option Z) : string :=
  match o with Some z => str_of_int z | None => "None" end.

(** [str(v)] of a value in event data, where only texts are ever compared. *)
Definition json_str (v : Json) : string :=
  match v with
  | JStr s => s
  | JInt z => str_of_int z
  | JBool b => if b then "True" else "False"
  | JNull => "None"
  | _ => "(composite)"
  end.

Definition dict_without (k : string) (d : dict) : dict :=
  List.filter (fun kv => negb (String.eqb (fst kv) k)) d.

Section Audit.
Context `{Env}.

(** The session's INSERT of an alert row, which the database may refuse. *)
Definition insert_alert (mk : Z -> AdminAlert) : M AdminAlert :=
  let* refused := tick alert_insert_fails in
  if (refused : bool) then raise (Unexpected "DBAPIError")
  else
    let* d := get_db in
    let a := mk (next_id (admin_alerts d)) in
    put_db (d <| admin_alerts := <[alert_id a := a]> (admin_alerts d) |>) ;;;
    ret a.

Definition create_alert_with (record : Recorder)
    (atype sev : string) (pid : option Z) (dkey : option string) (data : option dict)
    (minutes_override : option Z) (now_arg : option Z) : M AdminAlert :=
  let* now := match now_arg with Some t => ret t | None => utcnow end in
  let* policy := get_alert_policy in
  let* d := get_db in
  let window := match minutes_override with
                | Some m => m
                | None => match policy with Some p => dedup_minutes p | None => 30 end
                end in
  let cutoff := now - minutes window in
  let is_duplicate k (a : AdminAlert) :=
    match deduplication_key a with Some k' => String.eqb k' k | None => false end &&
    (cutoff <=? alert_created_at a) &&
    negb (bool_decide (alert_status a = SUPPRESSED)) in
  let st := match dkey with
            | Some k => if existsb (is_duplicate k) (rows (admin_alerts d))
                        then SUPPRESSED else PENDING
            | None => PENDING
            end in
  let* alert := insert_alert (fun i =>
    mkAdminAlert i atype sev pid dkey data st 0
      (if bool_decide (st = PENDING) then Some now else None) None None None None now) in
  record pid "admin_alert_created" "info"
    [("alert_id", JInt (alert_id alert)); ("alert_type", JStr atype);
     ("status", JStr (alert_status_value st))] ;;;
  ret alert.

Definition mismatch_reasons : list string :=
  ["verify_payable_amount_mismatch"; "verify_user_id_mismatch";
   "verify_missing_reference_id"; "verify_invalid_reference_id"].

Definition is_mismatch_reason (s : string) : bool := existsb (String.eqb s) mismatch_reasons.

(** [_map_event]: which audit events become alerts. *)
Definition map_event (record : Recorder) (policy : AlertCreationPolicy)
    (etype : string) (pid : option Z) (data : dict) : M unit :=
  let ev s := String.eqb etype s in
  let alert atype sev p dkey d := create_alert_with record atype sev p dkey (Some d) None None ;;; ret tt in
  if ev "gateway_payment_verified" || ev "bot_notification_accepted" then
    if payment_success_alerts policy then
      alert (if ev "gateway_payment_verified" then "gateway_payment_verified"
             else "bot_notify_accepted") "info" pid None data
    else ret tt
  else if is_mismatch_reason etype || ev "reference_id_collision"
          || ev "first_production_payment_verified" then
    alert etype "critical" pid None data
  else if ev "manual_review_required" then
    if negb (manual_review_alerts policy) then ret tt
    else
      let reason := match dict_get "reason" data with Some v => json_str v | None => "" end in
      if is_mismatch_reason reason then ret tt
      else
        alert (if String.eqb reason "retry_limit_reached" || String.eqb reason "bot_timeout_ambiguous"
               then reason else "manual_review_required") "critical" pid None data
  else if ev "centralpay_getlink_failed" || ev "centralpay_verify_failed" then
    if error_alerts policy then
      alert etype "warning" pid (Some (etype +:+ ":" +:+ opt_id_str pid)) (dict_without "reason" data)
    else ret tt
  else if ev "reconciliation_exhausted" then
    if error_alerts policy then
      alert "reconciliation_exhausted" "error" pid
        (Some ("reconciliation_exhausted:" +:+ opt_id_str pid)) (dict_without "worker_id" data)
    else ret tt
  else if ev "notification_recovered_after_restart" then
    if error_alerts policy then
      alert "notification_recovered_after_restart" "warning" pid
        (Some ("worker_recovery:" +:+ opt_id_str pid)) data
    else ret tt
  else if (ev "backup_succeeded" || ev "backup_failed") && backup_alerts policy then
    alert etype (if ev "backup_succeeded" then "info" else "error") None None data
  else ret tt.

Definition on_audit_event (record : Recorder)
    (etype : string) (pid : option Z) (data : dict) : M unit :=
  let* policy := get_alert_policy in
  match policy with
  | None => ret tt
  | Some p => in_savepoint (map_event record p etype pid data)
  end.

(** [record_event] with at most [depth] nested events; at depth 0 Python
    would hit its recursion limit. *)
Fixpoint record_event_depth (depth : nat) (pid : option Z) (etype lvl : string) (data : dict)
  : M unit :=
  insert_event pid etype lvl (Some data) ;;;
  on_audit_event
    (match depth with
     | O => fun _ _ _ _ => raise (Unexpected "RecursionError")
     | S depth' => record_event_depth depth'
     end) etype pid data.

(** [record_event]; the event of an alert maps to no further alert, so
    depth 1 is enough ([record_event_depth_enough]). *)
Definition record_event : Recorder := record_event_depth 1.

Definition create_alert := create_alert_with record_event.
End Audit.

(** [configure_alert_creation(settings)] and [reset_alert_creation()]. *)
Definition configure_alert_creation (settings : Settings) : M unit := fun w =>
  (Ret tt,
   w <| alert_policy :=
          if negb (admin_bot_enabled settings) || negb (admin_bot_alerts_enabled settings) then None
          else Some (mkAlertCreationPolicy true (admin_bot_payment_success_alerts settings)
                       (admin_bot_error_alerts settings) (admin_bot_manual_review_alerts settings)
                       (admin_bot_backup_alerts settings) (admin_bot_alert_dedup_minutes settings)) |>).

Definition reset_alert_creation : M unit := fun w => (Ret tt, w <| alert_policy := None |>).

(** ** The frame of an audit event *)

(** Events other than the bookkeeping event of an alert row. *)
Definition business_event (e : PaymentEvent) : bool :=
  negb (String.eqb (event_type e) "admin_alert_created").

Definition business_events (l : list PaymentEvent) : list PaymentEvent :=
  List.filter business_event l.

(** [audited es w w']: from [w] to [w'] the trail gained the business events
    [es] (newest first) and nothing changed but the trail, the alert outbox
    and the number of interactions with the outside. *)
Record audited (es : list PaymentEvent) (w w' : World) : Prop := {
  au_committed : committed w' = committed w;
  au_payments : payments (working w') = payments (working w);
  au_identities : payer_identities (working w') = payer_identities (working w);
  au_policies : fee_policies (working w') = fee_policies (working w);
  au_alerts : outbox_grew (admin_alerts (working w)) (admin_alerts (working w'));
  au_incidents : monitor_incidents (working w') = monitor_incidents (working w);
  au_heartbeats : worker_heartbeats (working w') = worker_heartbeats (working w);
  au_map : identity_map w' = identity_map w;
  au_calls : calls w' = calls w;
  au_request : request_id w' = request_id w;
  au_policy : alert_policy w' = alert_policy w;
  au_suffix : exists l, payment_events (working w') = l ++ payment_events (working w);
  au_events : business_events (payment_events (working w'))
              = es ++ business_events (payment_events (working w))
}.

Lemma audited_refl w : audited [] w w.
Proof. split; try done. by exists []. Qed.

Lemma audited_trans es1 es2 w1 w2 w3 :
  audited es1 w1 w2 -> audited es2 w2 w3 -> audited (es2 ++ es1) w1 w3.
Proof.
  intros [] []. split; try congruence.
  - by etransitivity.
  - destruct au_suffix0 as [l1 E1], au_suffix1 as [l2 E2].
    exists (l2 ++ l1). by rewrite E2, E1, app_assoc.
  - by rewrite au_events1, au_events0, app_assoc.
Qed.

(** The event row that [record_event] writes in world [w]. *)
Definition event_row (w : World) (pid : option Z) (etype lvl : string) (data : dict) : PaymentEvent :=
  mkPaymentEvent pid etype (if is_level lvl then lvl else "info") (request_id w) (Some data).

Lemma insert_event_audited pid etype lvl data w :
  audited (business_events [event_row w pid etype lvl data]) w
    (snd (insert_event pid etype lvl (Some data) w)).
Proof.
  split; try done.
  - by eexists [_].
  - exact (List.filter_app business_event [_] _).
Qed.

(** A computation that records no business event and, audit trail and alert
    outbox apart, changes nothing. *)
Definition quiet {A} (m : M A) : Prop := forall w, audited [] w (snd (m w)).

Lemma quiet_ret {A} (a : A) : quiet (ret a).
Proof. intros w. apply audited_refl. Qed.

Lemma quiet_raise {A} e : quiet (@raise A e).
Proof. intros w. apply audited_refl. Qed.

Lemma quiet_bind {A B} (m : M A) (k : A -> M B) :
  quiet m -> (forall a, quiet (k a)) -> quiet (bind m k).
Proof.
  intros Hm Hk w. unfold bind. specialize (Hm w). destruct (m w) as [[a|e] w']; cbn in *; [|done].
  exact (audited_trans [] [] _ _ _ Hm (Hk a w')).
Qed.

Lemma quiet_if {A} (b : bool) (m1 m2 : M A) : quiet m1 -> quiet m2 -> quiet (if b then m1 else m2).
Proof. by destruct b. Qed.

Lemma quiet_tick {A} (f : nat -> A) : quiet (tick f).
Proof. intros w. split; try done. by exists []. Qed.

Lemma quiet_get_db : quiet get_db.
Proof. intros w. apply audited_refl. Qed.

Lemma quiet_get_alert_policy : quiet get_alert_policy.
Proof. intros w. apply audited_refl. Qed.

Lemma quiet_in_savepoint m : quiet m -> quiet (in_savepoint m).
Proof.
  intros Hm w. unfold in_savepoint. specialize (Hm w). destruct (m w) as [[a|e] w']; [done|].
  destruct Hm. split; try done. by exists [].
Qed.

#[export] Hint Resolve quiet_ret quiet_raise quiet_bind quiet_if quiet_tick quiet_get_db
  quiet_get_alert_policy quiet_in_savepoint : bridge.

Section AuditFacts.
Context `{Env}.

Definition quiet_recorder (record : Recorder) : Prop :=
  forall pid lvl data, quiet (record pid "admin_alert_created" lvl data).

Lemma quiet_insert_alert mk : (forall k, born_alert k (mk k)) -> quiet (insert_alert mk).
Proof.
  intros Hmk. apply quiet_bind; [apply quiet_tick|]. intros []; [apply quiet_raise|].
  intros w. split; try done; [|by exists []].
  set (k := next_id (admin_alerts (working w))). pose proof (Hmk k) as Hf.
  destruct (Hf) as [[Hk _] _]. cbn. fold k. rewrite Hk. by apply (table_legal_insert _ _ _ k); [apply next_id_fresh|].
Qed.

Lemma quiet_create_alert record atype sev pid dkey data o1 o2 :
  quiet_recorder record -> quiet (create_alert_with record atype sev pid dkey data o1 o2).
Proof.
  intros Hrec. unfold create_alert_with, utcnow.
  apply quiet_bind; [destruct o2; auto with bridge|intros t].
  apply quiet_bind; [auto with bridge|intros policy].
  apply quiet_bind; [auto with bridge|intros d].
  apply quiet_bind; [apply quiet_insert_alert; intros k; split; [split; [done|]|]; by repeat case_match|intros a].
  apply quiet_bind; auto with bridge.
Qed.

Lemma quiet_map_event record policy etype pid data :
  quiet_recorder record -> quiet (map_event record policy etype pid data).
Proof.
  intros Hrec. unfold map_event.
  repeat first [ apply quiet_if | apply quiet_ret
    | apply quiet_bind; [by apply quiet_create_alert | intros ?] ].
Qed.

Lemma quiet_hook record etype pid data :
  quiet_recorder record -> quiet (on_audit_event record etype pid data).
Proof.
  intros Hrec. unfold on_audit_event. apply quiet_bind; [auto with bridge|].
  intros [p|]; [|auto with bridge]. by apply quiet_in_savepoint, quiet_map_event.
Qed.

(** An alert event maps to no alert, whatever the policy. *)
Lemma map_event_alert_created record policy pid data :
  map_event record policy "admin_alert_created" pid data = ret tt.
Proof. unfold map_event. by destruct (backup_alerts policy). Qed.

Lemma hook_alert_created record pid data w :
  on_audit_event record "admin_alert_created" pid data w = (Ret tt, w).
Proof.
  unfold on_audit_event, get_alert_policy, bind, in_savepoint.
  destruct (alert_policy w); [|done]. by rewrite map_event_alert_created.
Qed.

Lemma record_alert_created depth pid lvl data w :
  record_event_depth depth pid "admin_alert_created" lvl data w
  = insert_event pid "admin_alert_created" lvl (Some data) w.
Proof.
  destruct depth; cbn [record_event_depth]; erewrite bind_ret_eq by done;
    by rewrite hook_alert_created.
Qed.

Lemma quiet_record_alert_created depth : quiet_recorder (record_event_depth depth).
Proof.
  intros pid lvl data w. rewrite record_alert_created.
  exact (insert_event_audited pid "admin_alert_created" lvl data w).
Qed.

(** Recording an event never raises, adds the event, and otherwise touches
    only the alert outbox: an alert that cannot be stored leaves the
    caller's transaction as it was. *)
Lemma record_event_frame pid etype lvl data w :
  exists w', record_event pid etype lvl data w = (Ret tt, w') /\
    audited (business_events [event_row w pid etype lvl data]) w w'.
Proof.
  unfold record_event. cbn [record_event_depth]. erewrite bind_ret_eq by done.
  set (w1 := snd (insert_event pid etype lvl (Some data) w)).
  assert (Hq : quiet (on_audit_event (record_event_depth 0) etype pid data)).
  { apply quiet_hook, quiet_record_alert_created. }
  specialize (Hq w1).
  assert (Hret : fst (on_audit_event (record_event_depth 0) etype pid data w1) = Ret tt).
  { unfold on_audit_event, get_alert_policy, bind, in_savepoint. cbn [fst snd].
    destruct (alert_policy w1); [|done]. by destruct (map_event _ _ _ _ _ _) as [[]]. }
  exists (snd (on_audit_event (record_event_depth 0) etype pid data w1)). split.
  - rewrite <- Hret. apply surjective_pairing.
  - exact (audited_trans _ [] _ _ _ (insert_event_audited pid etype lvl data w) Hq).
Qed.

Definition same_alert_recorder (r1 r2 : Recorder) : Prop :=
  forall pid lvl data w, r1 pid "admin_alert_created" lvl data w
                         = r2 pid "admin_alert_created" lvl data w.

Lemma create_alert_ext r1 r2 atype sev pid dkey data o1 o2 w :
  same_alert_recorder r1 r2 ->
  create_alert_with r1 atype sev pid dkey data o1 o2 w
  = create_alert_with r2 atype sev pid dkey data o1 o2 w.
Proof.
  intros Hr. unfold create_alert_with.
  assert (Hk : forall (m : M Z) k1 k2, (forall t w, k1 t w = k2 t w) ->
            forall w, bind (B:=AdminAlert) m k1 w = bind m k2 w).
  { intros m k1 k2 Hk w0. unfold bind. destruct (m w0) as [[t|e] w1]; [apply Hk|done]. }
  apply Hk. clear w Hk. intros t w1. unfold get_alert_policy, get_db.
  unfold bind. destruct (insert_alert _ w1) as [[a|e] w2]; [|done]. by rewrite Hr.
Qed.

Lemma map_event_ext r1 r2 policy etype pid data w :
  same_alert_recorder r1 r2 ->
  map_event r1 policy etype pid data w = map_event r2 policy etype pid data w.
Proof.
  intros Hr. unfold map_event.
  repeat (match goal with |- (if ?b then _ else _) _ = _ => destruct b end; [|]);
    try done; unfold bind; by rewrite (create_alert_ext r1 r2).
Qed.

(** The depth of nested events is bounded: one level is always enough. *)
Lemma record_event_depth_enough depth pid etype lvl data w :
  record_event_depth (S depth) pid etype lvl data w = record_event pid etype lvl data w.
Proof.
  unfold record_event. cbn [record_event_depth]. unfold bind.
  destruct (insert_event pid etype lvl (Some data) w) as [[[]|e] w1]; [|done].
  unfold on_audit_event, get_alert_policy, bind. destruct (alert_policy w1) as [p|]; [|done].
  unfold in_savepoint. rewrite (map_event_ext _ (record_event_depth 0)); [done|].
  intros ? ? ? ?. by rewrite !record_alert_created.
Qed.

(** The bookkeeping event of an alert adds a row to the trail only. *)
Lemma wp_record_alert_created pid lvl data (Q : Res unit -> World -> Prop) w :
  (forall w', audited [] w w' -> service_tables (working w') = service_tables (working w) -> Q (Ret tt) w') ->
  wp (record_event pid "admin_alert_created" lvl data) Q w.
Proof.
  intros HQ. unfold wp, record_event. rewrite record_alert_created. apply HQ; [|done].
  exact (insert_event_audited pid "admin_alert_created" lvl data w).
Qed.

(** An event that becomes no alert, whatever the policy. *)
Definition silent (etype : string) : Prop :=
  forall record policy pid data, map_event record policy etype pid data = ret tt.

Lemma wp_record_silent pid etype lvl data (Q : Res unit -> World -> Prop) w : silent etype ->
  (forall w', audited (business_events [event_row w pid etype lvl data]) w w' ->
     service_tables (working w') = service_tables (working w) ->
     payment_events (working w') = event_row w pid etype lvl data :: payment_events (working w) -> Q (Ret tt) w') ->
  wp (record_event pid etype lvl data) Q w.
Proof.
  intros Hs HQ. unfold wp, record_event. cbn [record_event_depth]. erewrite bind_ret_eq by done.
  set (w1 := snd (insert_event pid etype lvl (Some data) w)).
  assert (E : on_audit_event (record_event_depth 0) etype pid data w1 = (Ret tt, w1)).
  { unfold on_audit_event, get_alert_policy, bind, in_savepoint. destruct (alert_policy w1); [|done]. by rewrite Hs. }
  change (wp (on_audit_event (record_event_depth 0) etype pid data) Q w1). unfold wp. rewrite E.
  apply HQ; [apply insert_event_audited|done..].
Qed.

Lemma wp_record_event pid etype lvl data (Q : Res unit -> World -> Prop) w :
  (forall w', audited (business_events [event_row w pid etype lvl data]) w w' -> Q (Ret tt) w') ->
  wp (record_event pid etype lvl data) Q w.
Proof.
  intros HQ. destruct (record_event_frame pid etype lvl data w) as (w' & Hrun & Hau).
  unfold wp. rewrite Hrun. by apply HQ.
Qed.
End AuditFacts.

(** Rewrite a projection of a world by the frame that introduced the world. *)
Ltac ws_step :=
  match goal with
  | H : audited _ _ ?w |- context [payments (working ?w)] => rewrite (au_payments _ _ _ H)
  | H : audited _ _ ?w |- context [committed ?w] => rewrite (au_committed _ _ _ H)
  | H : audited _ _ ?w |- context [identity_map ?w] => rewrite (au_map _ _ _ H)
  | H : audited _ _ ?w |- context [calls ?w] => rewrite (au_calls _ _ _ H)
  | H : audited _ _ ?w |- context [payer_identities (working ?w)] => rewrite (au_identities _ _ _ H)
  | H : audited _ _ ?w |- context [fee_policies (working ?w)] => rewrite (au_policies _ _ _ H)
  | H : audited _ _ ?w |- context [monitor_incidents (working ?w)] => rewrite (au_incidents _ _ _ H)
  | H : audited _ _ ?w |- context [worker_heartbeats (working ?w)] => rewrite (au_heartbeats _ _ _ H)
  | H : audited _ _ ?w |- context [business_events (payment_events (working ?w))] =>
      rewrite (au_events _ _ _ H)
  | H : audited _ _ ?w |- context [request_id ?w] => rewrite (au_request _ _ _ H)
  | H : updated _ _ _ ?w |- context [payments (working ?w)] => rewrite (up_payments _ _ _ _ H)
  | H : updated _ _ _ ?w |- context [committed ?w] => rewrite (up_committed _ _ _ _ H)
  | H : updated _ _ _ ?w |- context [identity_map ?w] => rewrite (up_map _ _ _ _ H)
  | H : updated _ _ _ ?w |- context [calls ?w] => rewrite (up_calls _ _ _ _ H)
  | H : updated _ _ _ ?w |- context [payer_identities (working ?w)] =>
      rewrite (up_identities _ _ _ _ H)
  | H : updated _ _ _ ?w |- context [fee_policies (working ?w)] => rewrite (up_policies _ _ _ _ H)
  | H : updated _ _ _ ?w |- context [payment_events (working ?w)] =>
      rewrite (up_events _ _ _ _ H)
  | H : updated _ _ _ ?w |- context [request_id ?w] => rewrite (up_request _ _ _ _ H)
  | H : attached _ _ _ ?w |- context [working ?w] => rewrite (at_working _ _ _ _ H)
  | H : attached _ _ _ ?w |- context [committed ?w] => rewrite (at_committed _ _ _ _ H)
  | H : attached _ _ _ ?w |- context [identity_map ?w] => rewrite (at_map _ _ _ _ H)
  | H : attached _ _ _ ?w |- context [calls ?w] => rewrite (at_calls _ _ _ _ H)
  | H : attached _ _ _ ?w |- context [request_id ?w] => rewrite (at_request _ _ _ _ H)
  | H : did_commit _ ?w |- context [working ?w] => rewrite (cm_working _ _ H)
  | H : did_commit _ ?w |- context [committed ?w] => rewrite (cm_committed _ _ H)
  | H : did_commit _ ?w |- context [identity_map ?w] => rewrite (cm_map _ _ H)
  | H : did_commit _ ?w |- context [calls ?w] => rewrite (cm_calls _ _ H)
  | H : did_commit _ ?w |- context [request_id ?w] => rewrite (cm_request _ _ H)
  | H : did_rollback _ ?w |- context [working ?w] => rewrite (rb_working _ _ H)
  | H : did_rollback _ ?w |- context [committed ?w] => rewrite (rb_committed _ _ H)
  | H : did_rollback _ ?w |- context [identity_map ?w] => rewrite (rb_map _ _ H)
  | H : did_rollback _ ?w |- context [calls ?w] => rewrite (rb_calls _ _ H)
  | H : did_rollback _ ?w |- context [request_id ?w] => rewrite (rb_request _ _ H)
  | H : wrote _ _ ?w |- context [working ?w] => rewrite (wr_working _ _ _ H)
  | H : wrote _ _ ?w |- context [committed ?w] => rewrite (wr_committed _ _ _ H)
  | H : wrote _ _ ?w |- context [identity_map ?w] => rewrite (wr_map _ _ _ H)
  | H : wrote _ _ ?w |- context [calls ?w] => rewrite (wr_calls _ _ _ H)
  | H : wrote _ _ ?w |- context [request_id ?w] => rewrite (wr_request _ _ _ H)
  | H : began _ ?w |- context [working ?w] => rewrite (bg_working _ _ H)
  | H : began _ ?w |- context [identity_map ?w] => rewrite (bg_map _ _ H)
  | H : began _ ?w |- context [calls ?w] => rewrite (bg_calls _ _ H)
  | H : began _ ?w |- context [request_id ?w] => rewrite (bg_request _ _ H)
  | H : called _ _ ?w |- context [working ?w] => rewrite (ca_working _ _ _ H)
  | H : called _ _ ?w |- context [committed ?w] => rewrite (ca_committed _ _ _ H)
  | H : called _ _ ?w |- context [identity_map ?w] => rewrite (ca_map _ _ _ H)
  | H : called _ _ ?w |- context [calls ?w] => rewrite (ca_calls _ _ _ H)
  | H : called _ _ ?w |- context [request_id ?w] => rewrite (ca_request _ _ _ H)
  end.
Ltac ws := repeat ws_step.

(** One statement of a handler. *)
Ltac wp_step :=
  lazymatch goal with
  | |- wp (bind _ _) _ _ => apply wp_bind
  | |- wp (ret _) _ _ => apply wp_ret
  | |- wp (raise _) _ _ => apply wp_raise
  | |- wp (raise_error _) _ _ => apply wp_raise
  | |- wp (try_catch _ _) _ _ => apply wp_try
  | |- wp get_db _ _ => apply wp_get_db
  | |- wp (upd _ _) _ _ => apply wp_upd; intros ? ?
  | |- wp commit _ _ => apply wp_commit; intros ? ?
  | |- wp rollback _ _ => apply wp_rollback; intros ? ?
  | |- wp begin_tx _ _ => apply wp_begin_tx; intros ? ?
  | |- wp utcnow _ _ => apply wp_utcnow; intros ? ? ?
  | |- wp (tick _) _ _ => apply wp_tick; intros ? ?
  | |- wp (call_gateway _ _) _ _ => apply wp_call_gateway; intros ? ?
  | |- wp (call_bot _) _ _ => apply wp_call_bot; intros ? ?
  | |- wp (attach _ _) _ _ => apply wp_attach; intros ? ?
  | |- wp (record_event _ _ _ _) _ _ => apply wp_record_event; intros ? ?
  | |- wp (if ?b then _ else _) _ _ => destruct b eqn:?
  end.
Ltac wp_steps := repeat wp_step.
