(* ===== verification/Ledger.v ===== *)
(** What every operation of the bridge promises about the payment ledger.

    [row_evolves] lists the columns an operation may never change and the
    facts it may never retract; [row_ok] is the invariant of a single row.
    [db_legal] lifts both to the tables: rows are never deleted, a new row
    starts unverified, the audit trail only grows. A computation is [lawful]
    when everything it commits, and everything it leaves uncommitted, is legal
    with respect to the committed database it started from.

    The handlers of the other files are proved lawful statement by statement;
    [System] composes them. *)

From S2P Require Import Prelude PyText Exceptions Models ServiceTables Identity Session AuditTrail.

(** ** One row *)

(** The columns that make up the financial fact of a payment. *)
Definition financial_snapshot (p : Payment) :=
  (id p, bot_order_id p, amount p,
   (fee_policy_id p, fee_rate_bps p, fee_amount p, payable_amount p, created_at p)).

(** A link was issued to the payer. *)
Definition live_link (p : Payment) : bool :=
  match redirect_url p with Some u => negb (String.eqb u "") | None => false end.

(** The terms the payer's link was issued under. *)
Definition link_fact (p : Payment) :=
  (redirect_url p, gateway_order_id p, gateway_user_id p,
   (callback_token_hash_col p, callback_token_issued_at p)).

(** The recorded fact of a verification. *)
Definition verification_fact (p : Payment) := (gateway_verified_at p, reference_id p, card_last4 p).

(** The payer is an established Telegram user. *)
Definition telegram_payer (p : Payment) : bool :=
  match payer_identity_type p, payer_identity_id p with
  | Some TELEGRAM_USER, Some _ => true
  | _, _ => false
  end.

Definition payer_fact (p : Payment) := (payer_identity_type p, payer_identity_id p).

Record row_evolves (p p' : Payment) : Prop := {
  re_snapshot : financial_snapshot p' = financial_snapshot p;
  re_link : live_link p = true -> link_fact p' = link_fact p;
  re_verified : is_some (gateway_verified_at p) = true ->
                verification_fact p' = verification_fact p;
  re_accepted : status p = BOT_NOTIFY_ACCEPTED ->
                status p' = BOT_NOTIFY_ACCEPTED /\
                bot_notify_accepted_at p' = bot_notify_accepted_at p;
  re_review : status p = MANUAL_REVIEW -> gateway_verified_at p = None ->
              status p' = MANUAL_REVIEW /\ gateway_verified_at p' = None;
  re_payer : telegram_payer p = true -> payer_fact p' = payer_fact p
}.

Definition before_link (s : PaymentStatus) : bool :=
  match s with CREATED | GETLINK_FAILED => true | _ => false end.

(** A payment is verified exactly when it carries a reference id, only a
    verified payment is pending delivery or delivered, a payment with a link
    is past link creation and a payment in link_created has one, the payer is charged amount plus fee, and the rate is
    within its bounds. *)
Definition row_ok (p : Payment) : bool :=
  Bool.eqb (is_some (reference_id p)) (is_some (gateway_verified_at p)) &&
  (negb (delivery_status (status p)) || is_some (gateway_verified_at p)) &&
  negb (live_link p && before_link (status p)) &&
  (negb (bool_decide (status p = LINK_CREATED)) || live_link p) &&
  ((0 <? amount p) && (0 <=? fee_amount p) && (payable_amount p =? amount p + fee_amount p)) &&
  ((0 <=? fee_rate_bps p) && (fee_rate_bps p <=? 10000)).

Lemma row_ok_spec p : row_ok p = true <->
  (is_some (reference_id p) = is_some (gateway_verified_at p)) /\
  (delivery_status (status p) = true -> is_some (gateway_verified_at p) = true) /\
  ((live_link p = true -> before_link (status p) = false) /\
   (status p = LINK_CREATED -> live_link p = true)) /\
  (0 < amount p /\ 0 <= fee_amount p /\ payable_amount p = amount p + fee_amount p) /\
  (0 <= fee_rate_bps p <= 10000).
Proof.
  unfold row_ok. rewrite !andb_true_iff, Bool.eqb_true_iff, Z.ltb_lt, !Z.leb_le, Z.eqb_eq.
  destruct (bool_decide_reflect (status p = LINK_CREATED)),
    (delivery_status _), (live_link p), (before_link _), (is_some (gateway_verified_at p));
    cbn; intuition congruence.
Qed.

Definition row_legal (p p' : Payment) : Prop :=
  row_evolves p p' /\ (row_ok p = true -> row_ok p' = true).

#[export] Instance row_evolves_preorder : PreOrder row_evolves.
Proof.
  split.
  - by split.
  - intros p q r [H1 H2 H3 H4 H5 H6] [G1 G2 G3 G4 G5 G6]. split.
    + congruence.
    + intros Hl. specialize (H2 Hl). rewrite <- H2. apply G2.
      assert (E : redirect_url q = redirect_url p) by (unfold link_fact in H2; congruence).
      unfold live_link in *. by rewrite E.
    + intros Hv. specialize (H3 Hv). rewrite <- H3. apply G3.
      unfold verification_fact in H3. congruence.
    + intros Ha. destruct (H4 Ha) as [Hs Ht]. destruct (G4 Hs). split; congruence.
    + intros Hm Hn. destruct (H5 Hm Hn). auto.
    + intros Hp. specialize (H6 Hp). rewrite <- H6. apply G6.
      unfold telegram_payer, payer_fact in *. injection H6 as E1 E2. by rewrite E1, E2.
Qed.

#[export] Instance row_legal_preorder : PreOrder row_legal.
Proof.
  split.
  - intros p. split; [reflexivity|done].
  - intros p q r [H1 H2] [G1 G2]. split; [by transitivity q|auto].
Qed.

Lemma re_id p p' : row_evolves p p' -> id p' = id p.
Proof. intros [Hs _ _ _ _ _]. unfold financial_snapshot in Hs. congruence. Qed.

(** A row as the code inserts it. *)
Definition born (p : Payment) : Prop :=
  row_ok p = true /\ gateway_verified_at p = None /\ bot_notify_accepted_at p = None.

(** ** The tables *)

(** One payment per bot order. *)
Definition unique_orders (m : gmap Z Payment) : Prop :=
  forall i j p q, m !! i = Some p -> m !! j = Some q -> bot_order_id p = bot_order_id q -> i = j.

(** The value a changed row carries in a unique column is its old one, or no
    other payment of the table carries it. *)
Definition own_value {B} (col : Payment -> option B) (m : gmap Z Payment) (i : Z) (p p' : Payment) : Prop :=
  col p' = col p \/ forall j q, m !! j = Some q -> col q = col p' -> j = i.

Definition gateway_key (p : Payment) : option Z := Some (gateway_order_id p).

Definition own_keys (m : gmap Z Payment) (i : Z) (p p' : Payment) : Prop :=
  own_value reference_id m i p p' /\ own_value gateway_key m i p p'.

Definition unique_columns (p : Payment) : option string * Z := (reference_id p, gateway_order_id p).

(** One payment per gateway order. *)
Definition unique_gateway_orders (m : gmap Z Payment) : Prop := unique_col gateway_key m.

Record db_legal (d d' : Db) : Prop := {
  le_rows : forall i p, payments d !! i = Some p ->
    exists p', payments d' !! i = Some p' /\ row_legal p p';
  le_new : forall i p', payments d !! i = None -> payments d' !! i = Some p' ->
    exists p0, id p0 = i /\ born p0 /\ row_legal p0 p';
  le_trail : exists l, payment_events d' = l ++ payment_events d;
  le_identities : forall i r, payer_identities d !! i = Some r -> payer_identities d' !! i = Some r;
  le_identities_ok : identities_ok (payer_identities d) -> identities_ok (payer_identities d');
  le_orders : unique_orders (payments d) -> unique_orders (payments d');
  le_references : unique_col reference_id (payments d) -> unique_col reference_id (payments d');
  le_gateways : unique_gateway_orders (payments d) -> unique_gateway_orders (payments d');
  le_service : service_legal d d'
}.

#[export] Instance db_legal_preorder : PreOrder db_legal.
Proof.
  split.
  - intros d. split.
    + intros i p Hp. exists p. split; [done|reflexivity].
    + intros i p' Hn Hp. congruence.
    + by exists [].
    + done.
    + done.
    + done.
    + done.
    + done.
    + reflexivity.
  - intros d1 d2 d3 [R1 N1 [l1 T1] I1 O1 U1 V1 G1 S1] [R2 N2 [l2 T2] I2 O2 U2 V2 G2 S2]. split.
    + intros i p Hp. destruct (R1 i p Hp) as (q & Hq & L1). destruct (R2 i q Hq) as (r & Hr & L2).
      exists r. split; [done|by transitivity q].
    + intros i r Hn Hr. destruct (payments d2 !! i) as [q|] eqn:Hq.
      * destruct (N1 i q Hn Hq) as (p0 & Hi & Hb & L1). destruct (R2 i q Hq) as (r' & Hr' & L2).
        exists p0. split_and!; [done..|]. transitivity q; [done|]. by simplify_eq.
      * by apply (N2 i r).
    + exists (l2 ++ l1). by rewrite T2, T1, app_assoc.
    + auto.
    + auto.
    + auto.
    + auto.
    + auto.
    + by transitivity d2.
Qed.

(** The invariant of a database: payments are stored under their id and are all
    well formed, and so are the identity table and the service tables. *)
Record db_ok (d : Db) : Prop := {
  ok_keyed : keyed id (payments d);
  ok_rows : forall i p, payments d !! i = Some p -> row_ok p = true;
  ok_identities : identities_ok (payer_identities d);
  ok_orders : unique_orders (payments d);
  ok_references : unique_col reference_id (payments d);
  ok_gateways : unique_gateway_orders (payments d);
  ok_service : service_ok d
}.

Lemma db_legal_ok d d' : db_legal d d' -> db_ok d -> db_ok d'.
Proof.
  intros [R N _ _ O U V G S] [Hk Hok Hi Ho Hr Hg Hs].
  split; [intros i p' Hp'..|auto|auto|auto|auto|by eapply service_legal_ok].
  - destruct (payments d !! i) as [p|] eqn:Hp.
    + destruct (R i p Hp) as (q & Hq & [Hid%re_id _]). simplify_eq.
      by rewrite Hid, (Hk i p).
    + destruct (N i p' Hp Hp') as (p0 & <- & _ & [Hid%re_id _]). done.
  - destruct (payments d !! i) as [p|] eqn:Hp.
    + destruct (R i p Hp) as (q & Hq & [_ L]). simplify_eq. eauto.
    + destruct (N i p' Hp Hp') as (p0 & _ & [Hb _] & [_ L]). auto.
Qed.

Lemma unique_col_alter {B} (col : Payment -> option B) (m : gmap Z Payment) i f :
  (forall p, m !! i = Some p -> own_value col m i p (f p)) ->
  unique_col col m -> unique_col col (alter f i m).
Proof.
  intros Hf U.
  assert (Hown : forall k x v y j, alter f i m !! j = Some x -> m !! k = Some y -> k <> i ->
            col x = Some v -> col y = Some v -> j = k).
  { intros k x v y j. rewrite lookup_alter. case_decide as Hj; [|intros; by eapply U].
    subst j. destruct (m !! i) as [p|] eqn:Hp; [|done]. intros [= <-] Hy Hne Hx Hv.
    destruct (Hf p eq_refl) as [E|Hno]; [|symmetry; apply (Hno k y Hy); congruence].
    apply (U i k p y v); congruence. }
  intros j k x y v Hx Hy Ex Ey. destruct (decide (k = i)) as [->|Hk].
  - destruct (decide (j = i)) as [->|Hj]; [done|]. symmetry.
    rewrite lookup_alter_ne in Hx by done. by apply (Hown j y v x i).
  - rewrite lookup_alter_ne in Hy by done. by apply (Hown k x v y j).
Qed.

(** Changing one row legally, the rest being as it was. *)
Lemma db_legal_alter d d' i f :
  payments d' = alter f i (payments d) ->
  (exists l, payment_events d' = l ++ payment_events d) ->
  payer_identities d' = payer_identities d ->
  service_tables d' = service_tables d ->
  (forall p, payments d !! i = Some p ->
     row_legal p (f p) /\ own_keys (payments d) i p (f p)) ->
  db_legal d d'.
Proof.
  intros Hp Ht Hi Hsv Hf. split; [| |done|by rewrite Hi|by rewrite Hi| | | |by apply same_service_legal]; rewrite Hp.
  - intros j p Hj. destruct (decide (i = j)) as [<-|Hne].
    + exists (f p). rewrite lookup_alter_eq, Hj. split; [done|by apply Hf].
    + exists p. rewrite lookup_alter_ne by done. split; [done|reflexivity].
  - intros j p' Hn. destruct (decide (i = j)) as [<-|Hne].
    + by rewrite lookup_alter_eq, Hn.
    + rewrite lookup_alter_ne by done. congruence.
  - assert (Ho : forall j q, alter f i (payments d) !! j = Some q ->
              exists p, payments d !! j = Some p /\ bot_order_id p = bot_order_id q).
    { intros j q. rewrite lookup_alter. case_decide; [|eauto]. subst j.
      destruct (payments d !! i) as [p|] eqn:Ep; [|done]. intros [= <-]. exists p. split; [done|].
      destruct (Hf p eq_refl) as [[[Hs _ _ _ _ _] _] _]. unfold financial_snapshot in Hs. congruence. }
    intros U j k q1 q2 Hj Hk E. apply Ho in Hj as (p1 & Hj & E1), Hk as (p2 & Hk & E2).
    apply (U j k p1 p2); congruence.
  - apply unique_col_alter. by intros p [_ []]%Hf.
  - apply unique_col_alter. by intros p [_ []]%Hf.
Qed.

(** Changing the service tables only. *)
Lemma db_legal_service d d' :
  ledger_tables d' = ledger_tables d -> service_legal d d' -> db_legal d d'.
Proof.
  unfold ledger_tables. intros [= E1 E2 E3 _] S. split; rewrite ?E1, ?E2, ?E3; try done.
  - intros i p Hp. exists p. by split; [|reflexivity].
  - congruence.
  - by exists [].
Qed.

(** ** Sessions and computations *)

(** The columns of a cached object that never go stale. *)
Definition same_key (o row : Payment) : Prop :=
  financial_snapshot o = financial_snapshot row /\
  (live_link o = true -> link_fact o = link_fact row).

Lemma same_key_refl o : same_key o o.
Proof. by split. Qed.
#[export] Hint Resolve same_key_refl : bridge.

Lemma same_key_id o row : same_key o row -> id o = id row.
Proof. unfold same_key, financial_snapshot. intros [E _]. congruence. Qed.

Lemma same_key_order o row : same_key o row -> bot_order_id o = bot_order_id row.
Proof. unfold same_key, financial_snapshot. intros [E _]. congruence. Qed.

Record sound (w : World) : Prop := {
  so_ok : db_ok (committed w);
  so_legal : db_legal (committed w) (working w);
  so_map : forall i o, identity_map w !! i = Some o ->
    exists row, payments (working w) !! i = Some row /\ same_key o row
}.

(** From [w] to [w'] the session stayed sound and committed only legal
    changes. *)
Definition steady (w w' : World) : Prop :=
  sound w' /\ db_legal (committed w) (committed w').

Definition lawful {A} (m : M A) : Prop := forall w, sound w -> wp m (fun _ w' => steady w w') w.

Lemma so_working w : sound w -> db_ok (working w).
Proof. intros [Hok Hl _]. by apply (db_legal_ok (committed w)). Qed.

Lemma steady_refl w : sound w -> steady w w.
Proof. intros H. split; [done|reflexivity]. Qed.

Lemma steady_trans w1 w2 w3 : steady w1 w2 -> steady w2 w3 -> steady w1 w3.
Proof. intros [_ H1] [H2 H3]. split; [done|by transitivity (committed w2)]. Qed.

Lemma sound_fresh d : db_ok d -> sound (world_of d).
Proof. intros H. split; cbn; [done|reflexivity|]. intros i o Ho. by rewrite lookup_empty in Ho. Qed.

Lemma sound_no_map w : db_ok (committed w) -> db_legal (committed w) (working w) ->
  identity_map w = ∅ -> sound w.
Proof. intros H1 H2 H3. split; [done..|]. intros i o Ho. by rewrite H3, lookup_empty in Ho. Qed.

Lemma audited_service es w w' : audited es w w' -> service_legal (working w) (working w').
Proof.
  intros H. split.
  - apply grew_legal, (au_alerts _ _ _ H).
  - by rewrite (au_incidents _ _ _ H).
  - by rewrite (au_heartbeats _ _ _ H).
Qed.

Lemma steady_audited es w w' : audited es w w' -> sound w -> steady w w'.
Proof.
  intros H [Hok Hl Hm]. unfold steady. rewrite (au_committed _ _ _ H). split; [|reflexivity].
  split.
  - by rewrite (au_committed _ _ _ H).
  - rewrite (au_committed _ _ _ H). destruct Hl as [R N [l T] I O U V G S]. split.
    + by rewrite (au_payments _ _ _ H).
    + by rewrite (au_payments _ _ _ H).
    + destruct (au_suffix _ _ _ H) as [l' E]. exists (l' ++ l). by rewrite E, T, app_assoc.
    + by rewrite (au_identities _ _ _ H).
    + by rewrite (au_identities _ _ _ H).
    + by rewrite (au_payments _ _ _ H).
    + by rewrite (au_payments _ _ _ H).
    + by rewrite (au_payments _ _ _ H).
    + transitivity (working w); [done|]. by eapply audited_service.
  - by rewrite (au_map _ _ _ H), (au_payments _ _ _ H).
Qed.

(** A change of the service tables, legal for what is committed. *)
Lemma steady_wrote_committed d w w' : wrote d w w' -> sound w ->
  ledger_tables d = ledger_tables (working w) -> service_legal (committed w) d -> steady w w'.
Proof.
  intros H [Hok [R N T I O U V G _] Hm] E S. unfold ledger_tables in E. injection E as E1 E2 E3 _.
  unfold steady. rewrite (wr_committed _ _ _ H). split; [split|reflexivity].
  - by rewrite (wr_committed _ _ _ H).
  - rewrite (wr_committed _ _ _ H), (wr_working _ _ _ H). by split; rewrite ?E1, ?E2, ?E3.
  - by rewrite (wr_map _ _ _ H), (wr_working _ _ _ H), E1.
Qed.

Lemma steady_wrote d w w' : wrote d w w' -> sound w ->
  ledger_tables d = ledger_tables (working w) -> service_legal (working w) d -> steady w w'.
Proof.
  intros H Hs E S. apply (steady_wrote_committed d); [done..|]. transitivity (working w); [|done].
  apply (le_service _ _ (so_legal w Hs)).
Qed.

Lemma steady_called cs w w' : called cs w w' -> sound w -> steady w w'.
Proof.
  intros H [Hok Hl Hm]. unfold steady. rewrite (ca_committed _ _ _ H).
  split; [split|reflexivity].
  - by rewrite (ca_committed _ _ _ H).
  - by rewrite (ca_committed _ _ _ H), (ca_working _ _ _ H).
  - by rewrite (ca_map _ _ _ H), (ca_working _ _ _ H).
Qed.

Lemma steady_commit w w' : did_commit w w' -> sound w -> steady w w'.
Proof.
  intros H Hs. pose proof (so_working w Hs). destruct Hs as [Hok Hl Hm]. unfold steady.
  rewrite (cm_committed _ _ H). split; [split|done].
  - by rewrite (cm_committed _ _ H).
  - rewrite (cm_committed _ _ H), (cm_working _ _ H). reflexivity.
  - by rewrite (cm_map _ _ H), (cm_working _ _ H).
Qed.

Lemma steady_rollback w w' : did_rollback w w' -> sound w -> steady w w'.
Proof.
  intros H [Hok Hl Hm]. unfold steady. rewrite (rb_committed _ _ H).
  split; [split|reflexivity].
  - by rewrite (rb_committed _ _ H).
  - rewrite (rb_committed _ _ H), (rb_working _ _ H). reflexivity.
  - rewrite (rb_map _ _ H). intros i o Ho. by rewrite lookup_empty in Ho.
Qed.

(** The other sessions commit legal changes only: the guarantee that this
    development proves of every handler is what each handler relies on. *)
Class Rely `{Env} : Prop := others_legal : forall n d, db_ok d -> db_legal d (others n d).

(** No other session: the environment of the witnesses. *)
#[export] Instance calm_rely : @Rely calm_env | 100.
Proof. intros n d _. reflexivity. Qed.

Lemma same_key_evolves o p p' : same_key o p -> row_evolves p p' -> same_key o p'.
Proof.
  intros [E El] [Hs Hl _ _ _ _]. split; [congruence|]. intros Hlive. specialize (El Hlive).
  rewrite El. symmetry. apply Hl. unfold link_fact, live_link in *. injection El as El _.
  by rewrite <- El.
Qed.

Lemma steady_began `{Rely} w w' : began w w' -> working w = committed w -> sound w -> steady w w'.
Proof.
  intros B Hfresh [Hok Hl Hm]. destruct (bg_committed _ _ B) as [n E].
  assert (L : db_legal (committed w) (committed w')) by (rewrite E; by apply others_legal).
  split; [|done]. split.
  - by eapply db_legal_ok.
  - rewrite (bg_working _ _ B). reflexivity.
  - rewrite (bg_map _ _ B), (bg_working _ _ B). intros i o Ho.
    destruct (Hm i o Ho) as (row & Hr & Hk). rewrite Hfresh in Hr.
    destruct (le_rows _ _ L i row Hr) as (row' & Hr' & [Hev _]).
    exists row'. split; [done|]. by eapply same_key_evolves.
Qed.

(** A session of its own was opened. *)
Record opened `{Env} (w w' : World) : Prop := {
  op_committed : exists n, committed w' = others n (committed w);
  op_working : working w' = committed w';
  op_map : identity_map w' = ∅;
  op_calls : calls w' = calls w;
  op_request : request_id w' = request_id w;
  op_policy : alert_policy w' = alert_policy w
}.

Lemma wp_new_session `{Rely} (Q : Res unit -> World -> Prop) w : sound w ->
  (forall w', opened w w' -> steady w w' -> Q (Ret tt) w') -> wp new_session Q w.
Proof.
  intros Hs HQ. unfold new_session. apply wp_bind, wp_rollback. intros w1 R.
  pose proof (steady_rollback _ _ R Hs) as S1. apply wp_begin_tx. intros w2 B.
  apply HQ.
  - destruct (bg_committed _ _ B) as [n E]. rewrite (rb_committed _ _ R) in E.
    split; [by exists n|..]; by rewrite ?(bg_working _ _ B), ?(bg_map _ _ B), ?(bg_calls _ _ B),
      ?(bg_request _ _ B), ?(bg_policy _ _ B), ?(rb_map _ _ R), ?(rb_calls _ _ R), ?(rb_request _ _ R),
      ?(rb_policy _ _ R).
  - eapply steady_trans; [exact S1|]. eapply steady_began; [exact B|by ws|apply S1].
Qed.

(** The same, with the moment of the world it opens at. *)
Lemma wp_new_session_at `{Rely} (Q : Res unit -> World -> Prop) w : sound w ->
  (forall w', opened w w' -> steady w w' -> committed w' = others (ticks w) (committed w) -> ticks w' = S (ticks w) ->
     Q (Ret tt) w') -> wp new_session Q w.
Proof.
  intros Hs HQ.
  refine (wp_new_session (fun r w' => committed w' = others (ticks w) (committed w) -> ticks w' = S (ticks w) -> Q r w')
    w Hs _ eq_refl eq_refl). auto.
Qed.

Lemma began_row `{Rely} w w' i row : began w w' -> committed w = working w -> db_ok (committed w) ->
  payments (working w) !! i = Some row ->
  exists row', payments (working w') !! i = Some row' /\ row_legal row row'.
Proof.
  intros B Hfresh Hok Hr. destruct (bg_committed _ _ B) as [n E]. rewrite (bg_working _ _ B), E.
  rewrite <- Hfresh in Hr. exact (le_rows _ _ (others_legal n _ Hok) i row Hr).
Qed.

Lemma same_key_object w b i row :
  sound w -> payments (working w) !! i = Some row -> same_key (object_of w b row) row.
Proof.
  intros Hs Hr. pose proof (ok_keyed _ (so_working w Hs)) as Hk. unfold object_of.
  destruct b; [done|]. destruct (identity_map w !! id row) as [o|] eqn:Ho; [|done].
  destruct (so_map w Hs _ _ Ho) as (row' & Hr' & Hsame).
  rewrite (Hk i row Hr) in Hr'. cbn. congruence.
Qed.

Lemma steady_attached b i row w w' :
  attached row (object_of w b row) w w' -> payments (working w) !! i = Some row ->
  sound w -> steady w w'.
Proof.
  intros H Hr Hs. pose proof (same_key_object w b i row Hs Hr) as Hsame.
  pose proof (ok_keyed _ (so_working w Hs)) as Hk. pose proof (Hk i row Hr) as Hi.
  destruct Hs as [Hok Hl Hm]. unfold steady. rewrite (at_committed _ _ _ _ H).
  split; [split|reflexivity].
  - by rewrite (at_committed _ _ _ _ H).
  - by rewrite (at_committed _ _ _ _ H), (at_working _ _ _ _ H).
  - rewrite (at_map _ _ _ _ H), (at_working _ _ _ _ H). intros j o.
    destruct (decide (id row = j)) as [<-|Hne].
    + rewrite lookup_insert_eq. intros [= <-]. exists row. by rewrite Hi.
    + rewrite lookup_insert_ne by done. apply Hm.
Qed.

(** An assignment to the object of a row: legal for the row the database
    holds, whatever the object says. *)
Lemma steady_updated p f row w w' :
  updated p f w w' -> sound w ->
  payments (working w) !! id p = Some row -> same_key (f p) (f row) ->
  row_legal row (f row) -> own_keys (payments (working w)) (id p) row (f row) -> steady w w'.
Proof.
  intros H Hs Hr Hsame Hleg Href. pose proof (ok_keyed _ (so_working w Hs)) as Hk.
  destruct Hs as [Hok Hl Hm].
  assert (Hw : db_legal (working w) (working w')).
  { eapply (db_legal_alter _ _ (id p) f); [by apply up_payments|exists []; by apply (up_events _ _ _ _ H)
      |by apply (up_identities _ _ _ _ H)|by apply (up_service _ _ _ _ H)|].
    intros q Hq. by simplify_eq. }
  unfold steady. rewrite (up_committed _ _ _ _ H). split; [split|reflexivity].
  - by rewrite (up_committed _ _ _ _ H).
  - rewrite (up_committed _ _ _ _ H). by transitivity (working w).
  - rewrite (up_map _ _ _ _ H), (up_payments _ _ _ _ H). intros j o.
    destruct (decide (id p = j)) as [<-|Hne].
    + rewrite lookup_insert_eq, lookup_alter_eq, Hr. intros [= <-]. by exists (f row).
    + rewrite lookup_insert_ne, lookup_alter_ne by done. apply Hm.
Qed.

(** ** Lawful computations compose *)

Lemma lawful_ret {A} (a : A) : lawful (ret a).
Proof. intros w Hs. by apply wp_ret, steady_refl. Qed.

Lemma lawful_raise {A} e : lawful (@raise A e).
Proof. intros w Hs. by apply wp_raise, steady_refl. Qed.

Lemma wp_lawful_bind {A B} (m : M A) (k : A -> M B) w :
  wp m (fun r w' => steady w w' /\
    match r with Ret a => wp (k a) (fun _ w'' => steady w' w'') w' | Raise _ => True end) w ->
  wp (bind m k) (fun _ w' => steady w w') w.
Proof.
  intros H. apply wp_bind. eapply wp_mono; [exact H|]. cbn.
  intros [a|e] w' [Hst Hk]; [|done]. eapply wp_mono; [exact Hk|]. cbn.
  intros _ w'' Hst'. by eapply steady_trans.
Qed.

Lemma lawful_bind {A B} (m : M A) (k : A -> M B) :
  lawful m -> (forall a, lawful (k a)) -> lawful (bind m k).
Proof.
  intros Hm Hk w Hs. apply wp_lawful_bind. eapply wp_mono; [by apply Hm|]. cbn.
  intros r w' Hst. split; [done|]. destruct r; [|done]. by apply Hk, Hst.
Qed.

Lemma lawful_try {A} (m : M A) h : lawful m -> (forall e, lawful (h e)) -> lawful (try_catch m h).
Proof.
  intros Hm Hh w Hs. apply wp_try. eapply wp_mono; [by apply Hm|]. cbn.
  intros [a|e] w' Hst; [done|]. eapply wp_mono; [by apply Hh, Hst|]. cbn.
  intros _ w'' Hst'. by eapply steady_trans.
Qed.

Lemma lawful_if {A} (b : bool) (m1 m2 : M A) : lawful m1 -> lawful m2 -> lawful (if b then m1 else m2).
Proof. by destruct b. Qed.

Lemma lawful_tick {A} (f : nat -> A) : lawful (tick f).
Proof. intros w Hs. apply wp_tick. intros w' H. by eapply steady_called. Qed.

Lemma lawful_get_db : lawful get_db.
Proof. intros w Hs. by apply wp_get_db, steady_refl. Qed.

Lemma lawful_commit : lawful commit.
Proof. intros w Hs. apply wp_commit. intros w' H. by eapply steady_commit. Qed.

Lemma lawful_rollback : lawful rollback.
Proof. intros w Hs. apply wp_rollback. intros w' H. by eapply steady_rollback. Qed.

Lemma lawful_record_event `{Env} pid etype lvl data : lawful (record_event pid etype lvl data).
Proof. intros w Hs. apply wp_record_event. intros w' Ha. by eapply steady_audited. Qed.

Lemma lawful_utcnow `{Env} : lawful utcnow.
Proof. apply lawful_tick. Qed.

Lemma lawful_call_gateway `{Env} ep body : lawful (call_gateway ep body).
Proof. intros w Hs. apply wp_call_gateway. intros w' Hc. by eapply steady_called. Qed.

Lemma lawful_call_bot `{Env} oid : lawful (call_bot oid).
Proof. intros w Hs. apply wp_call_bot. intros w' Hc. by eapply steady_called. Qed.

#[export] Hint Resolve lawful_ret lawful_raise lawful_bind lawful_try lawful_if lawful_tick
  lawful_get_db lawful_commit lawful_rollback lawful_record_event lawful_utcnow
  lawful_call_gateway lawful_call_bot : bridge.

(** ** Following a handler statement by statement

    [holding w0 w1 cs es p row w]: a handler that started in [w0] locked a row
    in [w1]; now, in [w], the row is [row], its object is [p], no other row
    changed since [w1], and since then the requests [cs] were sent and the
    business events of types [es] recorded (both newest first). *)

Definition trail (d : Db) : list string := map event_type (business_events (payment_events d)).

Record holding (w0 w1 : World) (cs : list ExternalCall) (es : list string) (p row : Payment)
    (w : World) : Prop := {
  ho_steady : steady w0 w;
  ho_key : same_key p row;
  ho_payments : payments (working w) = <[id p := row]> (payments (working w1));
  ho_calls : calls w = cs ++ calls w1;
  ho_trail : trail (working w) = es ++ trail (working w1);
  ho_committed : committed w = committed w1
}.

(** The effect of a handler that ends with a commit. *)
Record settled (w0 w1 : World) (cs : list ExternalCall) (es : list string) (row : Payment)
    (w : World) : Prop := {
  se_steady : steady w0 w;
  se_committed : committed w = working w;
  se_payments : payments (committed w) = <[id row := row]> (payments (working w1));
  se_calls : calls w = cs ++ calls w1;
  se_trail : trail (committed w) = es ++ trail (working w1)
}.

Lemma holding_start w0 w1 b i row w :
  steady w0 w1 -> payments (working w1) !! i = Some row ->
  attached row (object_of w1 b row) w1 w ->
  holding w0 w1 [] [] (object_of w1 b row) row w.
Proof.
  intros S Hi A. pose proof (same_key_object w1 b i row (proj1 S) Hi) as Hk.
  pose proof (ok_keyed _ (so_working w1 (proj1 S))) as Hid. pose proof (Hid i row Hi) as Hrow.
  split; try (by ws).
  - eapply steady_trans; [exact S|]. eapply steady_attached; [exact A|exact Hi|apply S].
  - rewrite (same_key_id _ _ Hk). ws. by rewrite insert_id by congruence.
Qed.

Section Holding.
Context (w0 w1 : World) {cs : list ExternalCall} {es : list string} {p row : Payment} {w : World}.
Hypothesis HO : holding w0 w1 cs es p row w.

Lemma holding_audited e w' : audited e w w' ->
  holding w0 w1 cs (map event_type e ++ es) p row w'.
Proof.
  intros A. destruct HO as [S Hk Hp Hc Ht Hcm]. split; try (by ws).
  - eapply steady_trans; [exact S|]. eapply steady_audited; [exact A|apply S].
  - unfold trail in *. ws. by rewrite map_app, Ht, app_assoc.
Qed.

Lemma holding_called c w' : called c w w' -> holding w0 w1 (c ++ cs) es p row w'.
Proof.
  intros A. destruct HO as [S Hk Hp Hc Ht Hcm]. split; try (by ws).
  - eapply steady_trans; [exact S|]. eapply steady_called; [exact A|apply S].
  - ws. by rewrite Hc, app_assoc.
Qed.

Lemma holding_credited f w' : updated p f w w' ->
  row_legal row (f row) -> same_key (f p) (f row) ->
  own_keys (payments (working w)) (id p) row (f row) ->
  holding w0 w1 cs es (f p) (f row) w'.
Proof.
  intros U L K R. destruct HO as [S Hk Hp Hc Ht Hcm].
  assert (Hrow : payments (working w) !! id p = Some row) by (rewrite Hp; apply lookup_insert_eq).
  assert (Hid : id (f p) = id p).
  { rewrite (same_key_id _ _ K), (same_key_id _ _ Hk). by apply re_id, L. }
  split; try (by ws).
  - eapply steady_trans; [exact S|]. eapply steady_updated; [exact U|apply S|done..].
  - rewrite (up_payments _ _ _ _ U), Hp, Hid. apply map_eq. intros j.
    destruct (decide (id p = j)) as [<-|Hne].
    + by rewrite lookup_alter_eq, !lookup_insert_eq.
    + by rewrite lookup_alter_ne, !lookup_insert_ne.
  - unfold trail in *. by ws.
Qed.

(** An assignment that leaves the unique columns alone. *)
Lemma holding_updated f w' : updated p f w w' ->
  row_legal row (f row) -> same_key (f p) (f row) -> unique_columns (f row) = unique_columns row ->
  holding w0 w1 cs es (f p) (f row) w'.
Proof.
  intros U L K [= R1 R2]. apply holding_credited; [done..|]. split; left; unfold gateway_key; congruence.
Qed.

Lemma holding_commit w' : did_commit w w' -> settled w0 w1 cs es row w'.
Proof.
  intros C. destruct HO as [S Hk Hp Hc Ht Hcm].
  split; rewrite ?(cm_committed _ _ C), ?(cm_working _ _ C), ?(cm_calls _ _ C); try done.
  - eapply steady_trans; [exact S|]. eapply steady_commit; [exact C|apply S].
  - by rewrite <- (same_key_id _ _ Hk).
Qed.

Lemma holding_rollback w' : did_rollback w w' ->
  steady w0 w' /\ committed w' = committed w1 /\ working w' = committed w1 /\
  calls w' = cs ++ calls w1.
Proof.
  intros C. destruct HO as [S Hk Hp Hc Ht Hcm].
  rewrite ?(rb_committed _ _ C), ?(rb_working _ _ C), ?(rb_calls _ _ C). split_and!; try done.
  eapply steady_trans; [exact S|]. eapply steady_rollback; [exact C|apply S].
Qed.

(** A row a handler holds satisfies the row invariant. *)
Lemma holding_row_ok : row_ok row = true.
Proof.
  destruct HO as [S Hk Hp Hc Ht Hcm]. pose proof (ok_rows _ (so_working w (proj1 S))) as Hok.
  apply (Hok (id p)). rewrite Hp. apply lookup_insert_eq.
Qed.
End Holding.

(** Assignments that leave the frozen columns alone. *)
Ltac row_legal_tac :=
  split;
  [ split; unfold financial_snapshot, link_fact, verification_fact, payer_fact in *; cbn;
    intros; try solve [reflexivity | split; congruence | congruence]
  | first [ exact (fun H => H)
          | rewrite !row_ok_spec; unfold live_link; cbn; intros (? & ? & (? & ?) & (? & ? & ?) & ? & ?) ] ].

(** One statement of a handler that holds a row; an assignment leaves its
    legality to be proved when [row_legal_tac] cannot. *)
Ltac hold_step :=
  lazymatch goal with
  | HO : holding ?w0 ?w1 _ _ _ _ ?w |- wp (bind _ _) _ ?w => apply wp_bind
  | HO : holding ?w0 ?w1 _ _ _ _ ?w |- wp (ret _) _ ?w => apply wp_ret
  | HO : holding ?w0 ?w1 _ _ _ _ ?w |- wp (record_event _ _ _ _) _ ?w =>
      let w' := fresh "w" in let A := fresh "A" in
      apply wp_record_event; intros w' A;
      apply (holding_audited w0 w1 HO) in A; clear HO; rename A into HO; cbn in HO; clear dependent w
  | HO : holding ?w0 ?w1 _ _ _ _ ?w |- wp (tick _) _ ?w =>
      let w' := fresh "w" in let A := fresh "A" in
      apply wp_tick; intros w' A; apply (holding_called w0 w1 HO) in A; cbn in A;
      clear HO; rename A into HO; clear dependent w
  | HO : holding ?w0 ?w1 _ _ _ _ ?w |- wp utcnow _ ?w =>
      let w' := fresh "w" in let A := fresh "A" in
      apply wp_utcnow; intros ? w' A; apply (holding_called w0 w1 HO) in A; cbn in A;
      clear HO; rename A into HO; clear dependent w
  | HO : holding ?w0 ?w1 _ _ _ _ ?w |- wp commit _ ?w =>
      let w' := fresh "w" in let A := fresh "A" in
      apply wp_commit; intros w' A; apply (holding_commit w0 w1 HO) in A; clear HO;
      rename A into HO; clear dependent w
  end.

(** Interactions before the row was locked do not matter. *)
Lemma settled_called w0 w w1 cs es row w' :
  called [] w w1 -> settled w0 w1 cs es row w' -> settled w0 w cs es row w'.
Proof.
  intros C [S E P Hc T].
  split; rewrite ?P, ?Hc, ?T, ?(ca_working _ _ _ C), ?(ca_calls _ _ _ C); done.
Qed.

(** ** Loops over locked rows

    [objs] pairs the objects a handler loops over with the rows they stand
    for; each iteration changes its own row. *)

Fixpoint for_each {A} (body : A -> M unit) (l : list A) : M unit :=
  match l with
  | [] => ret tt
  | a :: l' => body a ;;; for_each body l'
  end.

Definition row_ids (objs : list (Payment * Payment)) : list Z := map (fun pr => id (snd pr)) objs.

Record each_done (post : Payment -> Payment -> Payment -> Prop) (events : Payment -> list string -> Prop)
    (objs : list (Payment * Payment)) (w w' : World) : Prop := {
  ed_committed : committed w' = committed w;
  ed_calls : calls w' = calls w;
  ed_other : forall i, ~ In i (row_ids objs) ->
    payments (working w') !! i = payments (working w) !! i;
  ed_rows : forall p row, In (p, row) objs -> exists row', post p row row' /\ id row' = id row /\
    payments (working w') !! id row = Some row';
  ed_trail : exists ls, Forall2 events (map fst objs) ls /\
    trail (working w') = concat (rev ls) ++ trail (working w)
}.

Lemma wp_for_each w0 body post events objs (Q : Res unit -> World -> Prop) w :
  (forall w p row, In (p, row) objs -> holding w0 w [] [] p row w ->
     wp (body p) (fun r w' => r = Ret tt /\ exists p' row' es, post p row row' /\ id row' = id row /\
       events p es /\ holding w0 w [] es p' row' w') w) ->
  steady w0 w -> NoDup (row_ids objs) ->
  (forall p row, In (p, row) objs -> payments (working w) !! id row = Some row /\ same_key p row) ->
  (forall w', steady w0 w' -> each_done post events objs w w' -> Q (Ret tt) w') ->
  wp (for_each body (map fst objs)) Q w.
Proof.
  revert w. induction objs as [|[p row] objs IH]; intros w Hbody S Hnd Hobjs HQ.
  { apply wp_ret, HQ; [done|]. split; try done. by exists []. }
  unfold row_ids in *. cbn in Hnd. apply NoDup_cons in Hnd as [Hni Hnd].
  rewrite list_elem_of_In in Hni. destruct (Hobjs p row) as (Hrow & Hkey); [by left|].
  assert (HO : holding w0 w [] [] p row w).
  { split; try done. rewrite (same_key_id _ _ Hkey). by rewrite insert_id. }
  cbn. apply wp_bind. eapply wp_mono; [apply (Hbody w p row); [by left|done]|].
  intros r w1 (-> & p' & row' & es & Hpost & Hid & Hev & HO1).
  assert (Hp' : id p' = id row) by (by rewrite (same_key_id _ _ (ho_key _ _ _ _ _ _ _ HO1))).
  assert (Hother : forall i, i <> id row -> payments (working w1) !! i = payments (working w) !! i).
  { intros i Hi. rewrite (ho_payments _ _ _ _ _ _ _ HO1), Hp'. by rewrite lookup_insert_ne. }
  apply IH; [|apply HO1|done| |].
  - intros w2 q r Hin. apply Hbody. by right.
  - intros q r Hin. destruct (Hobjs q r) as (H1 & H2); [by right|].
    split; [|done]. rewrite Hother; [done|]. intros Heq. apply Hni. rewrite <- Heq.
    by apply (in_map (fun pr : Payment * Payment => id (snd pr)) objs (q, r)).
  - intros w' S' [Rc Ra Ro Rr (ls & Hls & Et)]. apply HQ; [done|]. split.
    + by rewrite Rc, (ho_committed _ _ _ _ _ _ _ HO1).
    + by rewrite Ra, (ho_calls _ _ _ _ _ _ _ HO1).
    + intros i Hi. cbn in Hi. unfold row_ids in Ro. rewrite Ro by tauto. apply Hother. intros ->. tauto.
    + intros q r [[= <- <-]|Hin]; [|by apply Rr].
      exists row'. split_and!; [done|done|]. rewrite Ro by done.
      rewrite (ho_payments _ _ _ _ _ _ _ HO1), Hp'. apply lookup_insert_eq.
    + exists (es :: ls). split; [by constructor|]. cbn [rev]. rewrite concat_app. cbn.
      by rewrite app_nil_r, Et, (ho_trail _ _ _ _ _ _ _ HO1), app_assoc.
Qed.

(** ** A concrete ledger, on which witnesses are evaluated *)

(** A payment of 250,000 with a fee of 10%, whose link was issued. *)
Definition example_payment : Payment :=
  mkPayment 1 "order-1" 700001 42 (Some 1) (Some TELEGRAM_USER) (Some 2) 250000 (Some 1) 1000
    25000 275000 LINK_CREATED (Some "https://pay.example/1") None (Some "hash") (Some 0)
    None None None None None None None None None None None 0 None None None None None None None
    None 0 None None None None None 0.

(** The same payment verified at second [t], its notification pending and
    claimed by worker ["w"] at attempt 1. *)
Definition example_claimed (t : Z) : Payment :=
  example_payment <| status := BOT_NOTIFY_PENDING |> <| gateway_verified_at := Some (seconds t) |>
    <| reference_id := Some "R1" |> <| next_retry_at := Some (seconds t) |>
    <| bot_notify_attempts := 1 |> <| bot_notify_started_at := Some (seconds t) |>
    <| notification_claimed_at := Some (seconds t) |> <| notification_claimed_by := Some "w" |>.

(** The same payment verified, its notification pending and due. *)
Definition example_due (t : Z) : Payment :=
  example_payment <| status := BOT_NOTIFY_PENDING |> <| gateway_verified_at := Some (seconds t) |>
    <| reference_id := Some "R1" |> <| next_retry_at := Some (seconds t) |>.

Definition db_of (l : list Payment) : Db :=
  empty_db <| payments := list_to_map (map (fun p => (id p, p)) l) |>.

Lemma identities_ok_empty : identities_ok ∅.
Proof. split; intros i *; by rewrite lookup_empty. Qed.

Lemma unique_orders_empty : unique_orders ∅.
Proof. intros i j p q. by rewrite lookup_empty. Qed.

Lemma unique_orders_one i p : unique_orders (<[i := p]> ∅).
Proof.
  intros j k q r. rewrite !lookup_insert, !lookup_empty. repeat case_decide; try done. congruence.
Qed.

Lemma unique_col_one {B} (col : Payment -> option B) i p : unique_col col (<[i := p]> ∅ : gmap Z Payment).
Proof.
  intros j k q r v. rewrite !lookup_insert, !lookup_empty. repeat case_decide; try done. congruence.
Qed.

Lemma sound_example p : row_ok p = true -> sound (world_of (db_of [p])).
Proof.
  intros Hp. apply sound_fresh. split.
  - change (payments (db_of [p])) with (<[id p := p]> ∅ : gmap Z Payment).
    intros i q. rewrite lookup_insert. case_decide; [by intros [= <-]|by rewrite lookup_empty].
  - change (payments (db_of [p])) with (<[id p := p]> ∅ : gmap Z Payment).
    intros i q. rewrite lookup_insert. case_decide; [by intros [= <-]|by rewrite lookup_empty].
  - apply identities_ok_empty.
  - apply unique_orders_one.
  - apply unique_col_one.
  - apply unique_col_one.
  - by apply service_ok_empty.
Qed.

(** ** Worlds that differ in the request id and the interaction count only *)

Record same_state (w w' : World) : Prop := {
  ss_committed : committed w' = committed w;
  ss_working : working w' = working w;
  ss_map : identity_map w' = identity_map w;
  ss_calls : calls w' = calls w
}.

Lemma steady_same w0 w w' : same_state w w' -> steady w0 w -> steady w0 w'.
Proof.
  intros [E1 E2 E3 E4] [[H1 H2 H3] H4]. split; [split|]; rewrite ?E1, ?E2, ?E3; done.
Qed.

Lemma steady_same_start w0 w w' : same_state w0 w -> steady w w' -> steady w0 w'.
Proof. intros [E1 E2 E3 E4] [H1 H2]. split; [done|]. by rewrite <- E1. Qed.

(** A database that knows the order [oid] as gateway-verified. *)
Definition verified_order (oid : string) (d : Db) : Prop :=
  exists i row, payments d !! i = Some row /\ bot_order_id row = oid /\
    is_some (gateway_verified_at row) = true.

Lemma verified_order_legal oid d d' : db_legal d d' -> verified_order oid d -> verified_order oid d'.
Proof.
  intros [R _ _ _ _] (i & row & Hi & Ho & Hv). destruct (R i row Hi) as (row' & Hi' & [[E _ V _ _ _] _]).
  exists i, row'. split; [done|]. specialize (V Hv).
  unfold financial_snapshot, verification_fact in *. injection E as _ E _ _. injection V as V _ _.
  by rewrite E, V.
Qed.

(** The requests sent from [w] to [w']: each one satisfies [P] in the
    database committed at the end. *)
Definition sent_only (P : ExternalCall -> Db -> Prop) (w w' : World) : Prop :=
  exists cs, calls w' = cs ++ calls w /\ Forall (fun c => P c (committed w')) cs.

Lemma sent_nothing P w w' : calls w' = calls w -> sent_only P w w'.
Proof. intros E. exists []. by split. Qed.

Lemma sent_only_trans (P : ExternalCall -> Db -> Prop) w1 w2 w3 :
  (forall c, P c (committed w2) -> P c (committed w3)) ->
  sent_only P w1 w2 -> sent_only P w2 w3 -> sent_only P w1 w3.
Proof.
  intros HP (c1 & E1 & F1) (c2 & E2 & F2). exists (c2 ++ c1). split.
  - by rewrite E2, E1, app_assoc.
  - apply Forall_app. split; [done|]. eapply Forall_impl; [exact F1|]. cbn. auto.
Qed.
