(* ===== verification/Urls.v ===== *)
(** [urllib.parse.urlsplit] of the Python standard library, as far as the
    bridge uses it: scheme, user information, host name and port of a URL
    that holds no whitespace or control character.

    Only one part is left as a parameter ([bracketed_netloc_ok]): the check of
    an address in brackets, which changed between Python releases. *)

From S2P Require Import Prelude PyText.

(** [s.partition(c)]: the text before and after the first [c], if any. *)
Fixpoint partition (c : Ascii.ascii) (s : string) : option (string * string) :=
  match s with
  | "" => None
  | String x s' =>
      if Ascii.eqb x c then Some ("", s')
      else match partition c s' with
           | Some (a, b) => Some (String x a, b)
           | None => None
           end
  end.

(** [s.rpartition(c)]: before and after the last [c], if any. *)
Fixpoint rpartition (c : Ascii.ascii) (s : string) : option (string * string) :=
  match s with
  | "" => None
  | String x s' =>
      match rpartition c s' with
      | Some (a, b) => Some (String x a, b)
      | None => if Ascii.eqb x c then Some ("", s') else None
      end
  end.

(** The longest prefix whose characters satisfy [p], and the rest. *)
Fixpoint span (p : Ascii.ascii -> bool) (s : string) : string * string :=
  match s with
  | "" => ("", "")
  | String x s' => if p x then let '(a, b) := span p s' in (String x a, b) else ("", s)
  end.

Definition has_char (c : Ascii.ascii) (s : string) : bool := is_some (partition c s).

Definition COLON : Ascii.ascii := char 58.
Definition AT : Ascii.ascii := char 64.
Definition LBRACKET : Ascii.ascii := char 91.
Definition RBRACKET : Ascii.ascii := char 93.
Definition PERCENT : Ascii.ascii := char 37.

Definition is_ascii_alpha (c : Ascii.ascii) : bool :=
  ((65 <=? code c) && (code c <=? 90)) || ((97 <=? code c) && (code c <=? 122)).

(** Letters, digits and ["+-."]. *)
Definition scheme_char (c : Ascii.ascii) : bool :=
  is_ascii_alpha c || is_ascii_digit c || (code c =? 43) || (code c =? 45) || (code c =? 46).

(** ["/"], ["?"] and ["#"] end the authority. *)
Definition netloc_char (c : Ascii.ascii) : bool :=
  negb ((code c =? 47) || (code c =? 63) || (code c =? 35)).

Definition split_scheme (url : string) : string * string :=
  match partition COLON url with
  | Some (String c s, rest) =>
      if is_ascii_alpha c && str_forallb scheme_char (String c s)
      then (lower (String c s), rest) else ("", url)
  | _ => ("", url)
  end.

Definition split_netloc (url : string) : string :=
  match url with
  | String a (String b rest) =>
      if (code a =? 47) && (code b =? 47) then fst (span netloc_char rest) else ""
  | _ => ""
  end.

Class UrlLib := { bracketed_netloc_ok : string -> bool }.

Record SplitResult := mkSplit { url_scheme : string; url_netloc : string }.

Section UrlSplit.
Context `{UrlLib}.

(** [urlsplit]; [None] is a [ValueError]. *)
Definition urlsplit (url : string) : option SplitResult :=
  let '(scheme, rest) := split_scheme url in
  let netloc := split_netloc rest in
  let open := has_char LBRACKET netloc in
  let close := has_char RBRACKET netloc in
  if xorb open close then None
  else if open && close && negb (bracketed_netloc_ok netloc) then None
  else Some (mkSplit scheme netloc).
End UrlSplit.

(** The attributes of the result. *)
Definition split_userinfo (netloc : string) : option string :=
  option_map fst (rpartition AT netloc).

Definition split_hostinfo (netloc : string) : string * string :=
  let hostinfo := match rpartition AT netloc with Some (_, h) => h | None => netloc end in
  match partition LBRACKET hostinfo with
  | Some (_, bracketed) =>
      match partition RBRACKET bracketed with
      | Some (host, after) =>
          (host, match partition COLON after with Some (_, p) => p | None => "" end)
      | None => (bracketed, "")
      end
  | None =>
      match partition COLON hostinfo with
      | Some (host, p) => (host, p)
      | None => (hostinfo, "")
      end
  end.

(** [.hostname]: the host in lower case up to a zone, [None] when empty. *)
Definition split_hostname (netloc : string) : option string :=
  let host := fst (split_hostinfo netloc) in
  if String.eqb host "" then None
  else match partition PERCENT host with
       | Some (h, zone) => Some (lower h +:+ "%" +:+ zone)
       | None => Some (lower host)
       end.

(** [.port]: [None] is a [ValueError], [Some None] no port. *)
Definition split_port (netloc : string) : option (option Z) :=
  let p := snd (split_hostinfo netloc) in
  if String.eqb p "" then Some None
  else if all_digits p then
    match int_of_digits p with
    | Some n => if n <=? 65535 then Some (Some n) else None
    | None => None
    end
  else None.

(** [.username is not None or .password is not None]: both are [None] exactly
    when the authority holds no ["@"]. *)
Definition split_has_credentials (netloc : string) : bool := is_some (split_userinfo netloc).

(** ** Facts *)

Lemma app_cons_l c a b : String c a +:+ b = String c (a +:+ b).
Proof. done. Qed.

Lemma partition_spec c s a b : partition c s = Some (a, b) ->
  s = a +:+ String c b /\ has_char c a = false.
Proof.
  revert a b. induction s as [|x s IH]; cbn; intros a b; [done|].
  destruct (Ascii.eqb x c) eqn:E.
  - apply Ascii.eqb_eq in E as ->. by intros [= <- <-].
  - destruct (partition c s) as [[a' b']|] eqn:Hp; [|done]. intros [= <- <-].
    destruct (IH a' b' eq_refl) as [-> Ha]. split; [done|].
    unfold has_char in *. cbn. rewrite E. destruct (partition c a') as [[]|]; done.
Qed.

Lemma rpartition_None c s : rpartition c s = None -> has_char c s = false.
Proof.
  unfold has_char. induction s as [|x s IH]; cbn; [done|].
  destruct (rpartition c s) as [[]|]; [done|]. destruct (Ascii.eqb x c); [done|].
  intros _. specialize (IH eq_refl). destruct (partition c s) as [[]|]; done.
Qed.

Lemma span_spec p s a b : span p s = (a, b) ->
  s = a +:+ b /\ str_forallb p a = true /\
  match b with "" => True | String x _ => p x = false end.
Proof.
  revert a b. induction s as [|x s IH]; cbn; intros a b; [by intros [= <- <-]|].
  destruct (p x) eqn:E.
  - destruct (span p s) as [a' b'] eqn:Hs. intros [= <- <-].
    destruct (IH a' b' eq_refl) as (-> & Ha & Hb). cbn. by rewrite E.
  - intros [= <- <-]. cbn. done.
Qed.

Lemma split_netloc_spec url : split_netloc url <> "" ->
  exists rest, url = "//" +:+ split_netloc url +:+ rest /\
    str_forallb netloc_char (split_netloc url) = true /\
    match rest with "" => True | String x _ => netloc_char x = false end.
Proof.
  unfold split_netloc. destruct url as [|a [|b rest]]; try done.
  destruct ((code a =? 47) && (code b =? 47)) eqn:E; [|done].
  destruct (span netloc_char rest) as [n r] eqn:Hs. cbn. intros _.
  destruct (span_spec _ _ _ _ Hs) as (-> & H1 & H2). exists r. split; [|done].
  bool_to_prop. assert (Hchar : forall c, code c = 47 -> c = char 47).
  { intros c Hc. unfold code, char in *. rewrite <- Hc, N2Z.id. symmetry. apply Ascii.ascii_N_embedding. }
  by rewrite (Hchar a), (Hchar b) by done.
Qed.

Lemma split_scheme_spec url scheme rest : split_scheme url = (scheme, rest) -> scheme <> "" ->
  exists raw, url = raw +:+ ":" +:+ rest /\ lower raw = scheme.
Proof.
  unfold split_scheme. destruct (partition COLON url) as [[[|c s] r]|] eqn:Hp;
    try by intros [= <- <-].
  destruct (is_ascii_alpha c && str_forallb scheme_char (String c s)); [|by intros [= <- <-]].
  intros [= <- <-] _. exists (String c s). split; [|done].
  by destruct (partition_spec _ _ _ _ Hp) as [-> _].
Qed.

(** Bracketed hosts refused: the smallest instance of the parameter. *)
#[export] Instance no_brackets : UrlLib | 100 := {| bracketed_netloc_ok := fun _ => false |}.

Example urlsplit_ex : urlsplit "HTTPS://u@pay.example:8443/x?y"
  = Some (mkSplit "https" "u@pay.example:8443"). Proof. vm_compute. reflexivity. Qed.
Example hostinfo_ex : split_hostinfo "u:p@pay.example:8443" = ("pay.example", "8443").
Proof. vm_compute. reflexivity. Qed.
