(* ===== verification/CentralPay.v ===== *)
(** The CentralPay client ([app/centralpay.py]): strict parsing of gateway
    bodies, classification into fixed reason codes, [get_link] and [verify].

    The HTTP exchange itself is [gateway_post] of the environment; everything
    the client does with the reply is modelled. JSON integers are within
    Python's limit on integer texts, as [json.loads] enforces. *)

From S2P Require Import Prelude PyText Exceptions Models Session AuditTrail Ledger Urls.

Definition GATEWAY_RESPONSE_INVALID := "gateway_response_invalid".
Definition GATEWAY_REJECTED := "gateway_rejected".
Definition GATEWAY_ERROR_FIELD := "gateway_error_field".
Definition GATEWAY_MISSING_DATA := "gateway_missing_data".
Definition GATEWAY_INVALID_REDIRECT_URL := "gateway_invalid_redirect_url".
Definition GATEWAY_INVALID_REFERENCE_ID := "gateway_invalid_reference_id".
Definition GATEWAY_INVALID_AMOUNT := "gateway_invalid_amount".
Definition GATEWAY_INVALID_USER_ID := "gateway_invalid_user_id".

Definition one_of (l : list string) (s : string) : bool := existsb (String.eqb s) l.

Definition failure_status_values : list string := ["error"; "failed"; "fail"; "0"; "-1"].
Definition success_status_values : list string :=
  ["1"; "success"; "ok"; "completed"; "done"; "true"].

Record VerifyResult := mkVerifyResult {
  gateway_success : bool;
  result_reference_id : option string;
  result_amount : option Z;
  result_user_id : option Z;
  card_number : option string;
  failure_reason : option string;
  field_errors : list string;
  reference_id_invalid : bool
}.

(** [str(status).strip().lower()] of a status that is a text or a
    non-boolean integer. *)
Definition status_text (status : Json) : option string :=
  match status with
  | JInt n => Some (lower (strip (str_of_int n)))
  | JStr s => Some (lower (strip s))
  | _ => None
  end.

Definition status_in (values : list string) (status : Json) : bool :=
  match status_text status with Some t => one_of values t | None => false end.

(** [_explicit_success]. *)
Definition explicit_success (body : dict) : bool :=
  match dict_getN "success" body with
  | JBool true => true
  | JStr s => if String.eqb (lower (strip s)) "true" then true
              else match dict_getN "status" body with
                   | JBool true => true
                   | st => status_in success_status_values st
                   end
  | _ => match dict_getN "status" body with
         | JBool true => true
         | st => status_in success_status_values st
         end
  end.

(** [_to_int]. *)
Definition to_int (v : Json) : option Z :=
  match v with
  | JInt z => Some z
  | JStr s => int_of_signed_digits (strip s)
  | _ => None
  end.

Definition is_control (c : Ascii.ascii) : bool := (code c <? 32) || (code c =? 127).

Definition longer_than (n : Z) (s : string) : bool := n <? Z.of_nat (String.length s).

(** [_parse_reference_id]. *)
Definition parse_reference_id (v : Json) : option string * bool :=
  match v with
  | JNull => (None, false)
  | JInt z =>
      let decimal := str_of_int z in
      if longer_than CENTRALPAY_REFERENCE_ID_MAX_LENGTH decimal then (None, true)
      else (Some decimal, false)
  | JStr s =>
      let normalized := strip s in
      if String.eqb normalized "" then (None, false)
      else if longer_than CENTRALPAY_REFERENCE_ID_MAX_LENGTH normalized then (None, true)
      else if negb (str_forallb (fun c => negb (is_control c)) normalized) then (None, true)
      else (Some normalized, false)
  | _ => (None, true)
  end.

(** [_to_nonempty_str]. *)
Definition to_nonempty_str (v : Json) : option string :=
  match v with
  | JInt z => Some (str_of_int z)
  | JStr s => if String.eqb (strip s) "" then None else Some (strip s)
  | _ => None
  end.

(** [gateway_reason_code]; only its first component steers the client. *)
Definition gateway_reason_code (body : dict) : option string * option string :=
  if truthy (dict_getN "error" body) then (Some GATEWAY_ERROR_FIELD, Some "error_field")
  else
    match dict_getN "success" body with
    | JBool false => (Some GATEWAY_REJECTED, Some "success_false")
    | _ =>
        if status_in failure_status_values (dict_getN "status" body)
        then (Some GATEWAY_REJECTED, Some "failure_status")
        else if negb (explicit_success body)
        then (Some GATEWAY_RESPONSE_INVALID, Some "no_success_marker")
        else (None, None)
    end.

Definition REDIRECT_URL_MAX_LENGTH : Z := 2048.

Definition url_char (c : Ascii.ascii) : bool := negb ((code c <=? 32) || (code c =? 127)).

Section Client.
Context `{Env} `{UrlLib}.

(** [_validate_redirect_url]. *)
Definition validate_redirect_url (v : Json) : option string :=
  match v with
  | JStr s =>
      let url := strip s in
      if String.eqb url "" || longer_than REDIRECT_URL_MAX_LENGTH url then None
      else if negb (str_forallb url_char url) then None
      else
        match urlsplit url with
        | None => None
        | Some parts =>
            let hostname := split_hostname (url_netloc parts) in
            match split_port (url_netloc parts) with
            | None => None
            | Some _ =>
                if negb (String.eqb (url_scheme parts) "https") then None
                else if is_none hostname then None
                else if split_has_credentials (url_netloc parts) then None
                else Some url
            end
        end
  | _ => None
  end.

Definition raise_centralpay {A} (c : ErrorClass) (msg : string) : M A :=
  raise (Bridge (bridge_error c (Some msg))).

(** [CentralPayClient._post_json]. *)
Definition post_json (endpoint : string) (payload : dict) : M dict :=
  let* reply := call_gateway endpoint payload in
  match reply with
  | GatewayHTTPError cls =>
      raise_centralpay CentralPayConnectionError (endpoint +:+ " request failed: " +:+ cls)
  | GatewayCrash cls => raise (Unexpected cls)
  | GatewayResponse st body =>
      if negb (st =? 200) then
        raise_centralpay CentralPayRejectedError (endpoint +:+ " returned HTTP " +:+ str_of_int st)
      else
        match body with
        | None => raise_centralpay CentralPayInvalidResponseError
                    (endpoint +:+ " returned a non-JSON body")
        | Some (JObj d) => ret d
        | Some _ => raise_centralpay CentralPayInvalidResponseError
                      (endpoint +:+ " returned a non-object JSON body")
        end
  end.

(** [CentralPayClient.get_link]. *)
Definition get_link (api_key : string) (amount user_id order_id : Z) (return_url : string)
  : M string :=
  let* body := post_json "getLink.php"
    [("api_key", JStr api_key); ("type", JStr "deposit"); ("amount", JInt amount);
     ("userId", JInt user_id); ("orderId", JInt order_id); ("returnUrl", JStr return_url)] in
  let rejected reason :=
    raise_centralpay CentralPayRejectedError ("getLink rejected: " +:+ reason) in
  match fst (gateway_reason_code body) with
  | Some reason => rejected reason
  | None =>
      match dict_getN "data" body with
      | JObj data =>
          match validate_redirect_url (dict_getN "redirectUrl" data) with
          | Some url => ret url
          | None => rejected GATEWAY_INVALID_REDIRECT_URL
          end
      | _ => rejected GATEWAY_MISSING_DATA
      end
  end.

Definition unsuccessful (reason : string) : VerifyResult :=
  mkVerifyResult false None None None None (Some reason) [] false.

(** The fields of a gateway-successful body. *)
Definition parse_verified (data : dict) : VerifyResult :=
  let '(ref, ref_invalid) := parse_reference_id (dict_getN "referenceId" data) in
  let amt := to_int (dict_getN "amount" data) in
  let uid := to_int (dict_getN "userId" data) in
  mkVerifyResult true ref amt uid (to_nonempty_str (dict_getN "cardNumber" data)) None
    ((if is_none ref then [GATEWAY_INVALID_REFERENCE_ID] else []) ++
     (if is_none amt then [GATEWAY_INVALID_AMOUNT] else []) ++
     (if is_none uid then [GATEWAY_INVALID_USER_ID] else []))
    ref_invalid.

Definition read_verify_body (body : dict) : VerifyResult :=
  match fst (gateway_reason_code body) with
  | Some failure => unsuccessful failure
  | None =>
      match dict_getN "data" body with
      | JObj data => parse_verified data
      | _ => unsuccessful GATEWAY_MISSING_DATA
      end
  end.

(** [CentralPayClient.verify]. *)
Definition verify (api_key : string) (order_id : Z) : M VerifyResult :=
  let* body := post_json "verify.php" [("api_key", JStr api_key); ("orderId", JInt order_id)] in
  ret (read_verify_body body).
End Client.

(** ** Facts *)

Definition storable_reference (r : string) : Prop :=
  (1 <= String.length r <= 128)%nat /\ str_forallb (fun c => negb (is_control c)) r = true.

Lemma digit_not_control c : is_ascii_digit c || (code c =? 45) = true -> is_control c = false.
Proof.
  unfold is_ascii_digit, is_control. intros H. bool_to_prop.
  apply orb_false_iff. rewrite Z.ltb_ge, Z.eqb_neq. destruct H; bool_to_prop; lia.
Qed.

Lemma str_of_int_chars z :
  str_forallb (fun c => is_ascii_digit c || (code c =? 45)) (str_of_int z) = true /\
  str_of_int z <> "".
Proof.
  assert (Hpos : forall n : N,
    str_forallb (fun c => is_ascii_digit c || (code c =? 45)) (pretty n) = true /\ pretty n <> "").
  { intros n. destruct (pretty_N_value n) as [Hd _]. split.
    - apply all_digits_forallb in Hd. eapply str_forallb_impl; [|exact Hd].
      intros c Hc. by rewrite Hc.
    - intros E. by rewrite E in Hd. }
  unfold str_of_int. destruct z as [|p|p].
  - done.
  - exact (Hpos (N.pos p)).
  - change (pretty (Z.neg p)) with (String (char 45) (pretty (N.pos p))).
    split; [|done]. cbn [str_forallb]. by rewrite (proj1 (Hpos (N.pos p))).
Qed.

(** A reference id is stored only when it satisfies the storage contract, and
    "missing" is told apart from "present but unusable". *)
Lemma parse_reference_id_contract v :
  match parse_reference_id v with
  | (Some r, invalid) => invalid = false /\ storable_reference r /\
                         (v = JStr r \/ (exists s, v = JStr s /\ r = strip s) \/
                          exists z, v = JInt z /\ r = str_of_int z)
  | (None, false) => v = JNull \/ exists s, v = JStr s /\ strip s = ""
  | (None, true) => v <> JNull
  end.
Proof.
  unfold parse_reference_id, longer_than, CENTRALPAY_REFERENCE_ID_MAX_LENGTH.
  destruct v as [| |z| |s| |]; try done; try by left.
  - destruct (128 <? _) eqn:E; [done|]. bool_to_prop.
    destruct (str_of_int_chars z) as [Hc Hne]. split_and!; [done| |eauto].
    split.
    + destruct (str_of_int z); [done|]. cbn in *. lia.
    + eapply str_forallb_impl; [|exact Hc]. intros c Hd. by rewrite digit_not_control.
  - destruct (String.eqb (strip s) "") eqn:E0; bool_to_prop; [eauto|].
    destruct (128 <? _) eqn:E; [done|].
    destruct (negb _) eqn:Ec; [done|]. bool_to_prop. split_and!; [done| |eauto].
    split; [|done]. destruct (strip s); [done|]. cbn in *. lia.
Qed.

(** A body the gateway marks as successful: no error field, no failure
    marker, an explicit success marker and a data object. *)
Definition marked_successful (body : dict) : Prop :=
  truthy (dict_getN "error" body) = false /\
  dict_getN "success" body <> JBool false /\
  status_in failure_status_values (dict_getN "status" body) = false /\
  explicit_success body = true /\
  exists data, dict_getN "data" body = JObj data.

Lemma gateway_reason_code_None body : fst (gateway_reason_code body) = None <->
  truthy (dict_getN "error" body) = false /\ dict_getN "success" body <> JBool false /\
  status_in failure_status_values (dict_getN "status" body) = false /\
  explicit_success body = true.
Proof.
  unfold gateway_reason_code. destruct (truthy _); [by split; [|intros []]|].
  destruct (status_in _ _); destruct (explicit_success body);
    destruct (dict_getN "success" body) as [|[]| | | | |]; cbn; intuition congruence.
Qed.

(** Success of a verification is never guessed: the client reports a
    gateway success exactly for a body with an explicit success marker, no
    error field, no failure marker and a data object. The amount, user and
    reference it then reports are those of the data object, each of them
    absent unless well formed, and a reference satisfies the storage
    contract. *)
Theorem read_verify_body_conservative body :
  let result := read_verify_body body in
  (gateway_success result = true <-> marked_successful body) /\
  (gateway_success result = false ->
     result_reference_id result = None /\ result_amount result = None /\
     result_user_id result = None /\ is_some (failure_reason result) = true) /\
  (forall data, gateway_success result = true -> dict_getN "data" body = JObj data ->
     result_amount result = to_int (dict_getN "amount" data) /\
     result_user_id result = to_int (dict_getN "userId" data) /\
     (result_reference_id result, reference_id_invalid result)
       = parse_reference_id (dict_getN "referenceId" data)) /\
  (forall r, result_reference_id result = Some r -> storable_reference r).
Proof.
  cbv zeta. unfold read_verify_body, marked_successful.
  pose proof (gateway_reason_code_None body) as Hnone.
  destruct (fst (gateway_reason_code body)) as [reason|].
  { cbn. split_and!; try done. split; [done|]. intros (H1 & H2 & H3 & H4 & _).
    by destruct Hnone as [_ Hnone]; discriminate Hnone. }
  destruct (dict_getN "data" body) as [| | | | | |data] eqn:Hd;
    try (cbn; split_and!; try done; split; [done|intros (_ & _ & _ & _ & ? & ?); done]).
  unfold parse_verified. pose proof (parse_reference_id_contract (dict_getN "referenceId" data)) as Hc.
  destruct (parse_reference_id (dict_getN "referenceId" data)) as [ref inv] eqn:Hp.
  cbn. split_and!; try done.
  - split; [|done]. intros _. destruct Hnone as [Hn _]. destruct (Hn eq_refl) as (? & ? & ? & ?).
    split_and!; eauto.
  - intros data' _ [= <-]. by rewrite Hp.
  - intros r ->. apply Hc.
Qed.

Section RedirectFacts.
Context `{UrlLib}.

Lemma validate_redirect_url_nonempty v u : validate_redirect_url v = Some u -> u <> "".
Proof.
  unfold validate_redirect_url. destruct v as [| | | |s| |]; try done. intros Hu ->.
  destruct (String.eqb (strip s) "") eqn:E; [done|]. bool_to_prop.
  repeat case_match; simplify_eq.
Qed.

(** A redirect URL handed to the payer is an absolute HTTPS URL: it is the
    stripped text of the gateway's value, at most 2048 characters, without
    whitespace or control characters, of the form
    [scheme "://" authority rest] with a scheme that reads [https], and a
    non-empty authority that names a host and carries no credentials. *)
Theorem validate_redirect_url_https v u :
  validate_redirect_url v = Some u ->
  (exists s, v = JStr s /\ u = strip s) /\
  (String.length u <= 2048)%nat /\ str_forallb url_char u = true /\
  exists scheme authority rest,
    u = scheme +:+ "://" +:+ authority +:+ rest /\ lower scheme = "https" /\
    authority <> "" /\ str_forallb netloc_char authority = true /\
    has_char AT authority = false /\ is_some (split_hostname authority) = true /\
    match rest with "" => True | String c _ => netloc_char c = false end.
Proof.
  unfold validate_redirect_url, longer_than, REDIRECT_URL_MAX_LENGTH.
  destruct v as [| | | |s| |]; try done.
  destruct (String.eqb (strip s) "" || _) eqn:E1; [done|].
  destruct (negb (str_forallb _ _)) eqn:E2; [done|].
  destruct (urlsplit (strip s)) as [[sch net]|] eqn:E3; [|done]. cbn.
  destruct (split_port net); [|done].
  destruct (negb (String.eqb sch "https")) eqn:E4; [done|].
  destruct (is_none (split_hostname net)) eqn:E5; [done|].
  destruct (split_has_credentials net) eqn:E6; [done|]. intros [= <-].
  apply is_none_false in E5 as [host E5]. bool_to_prop. subst sch.
  split_and!; [eauto|lia|done|].
  unfold urlsplit in E3. destruct (split_scheme (strip s)) as [sch rest] eqn:Es.
  destruct (xorb _ _); [done|]. destruct (_ && _); [done|]. injection E3 as -> Hnet.
  destruct (split_scheme_spec _ _ _ Es) as (raw & Hraw & Hlow); [done|].
  assert (Hne : net <> "").
  { by intros ->. }
  destruct (split_netloc_spec rest) as (tail & Ht & Hc & Htail); [by rewrite Hnet|].
  rewrite Hnet in Ht, Hc. exists raw, net, tail. split_and!; try done.
  - rewrite Hraw, Ht. done.
  - unfold split_has_credentials, split_userinfo in E6.
    destruct (rpartition AT net) eqn:Er; [done|]. by apply rpartition_None.
  - apply is_some_true. eauto.
Qed.
End RedirectFacts.

Lemma validate_redirect_url_https_witness :
  validate_redirect_url (JStr " HTTPS://pay.example/p?x=1 ") = Some "HTTPS://pay.example/p?x=1" /\
  (String.length "HTTPS://pay.example/p?x=1" <= 2048)%nat.
Proof.
  split; [vm_compute; reflexivity|].
  destruct (validate_redirect_url_https (JStr " HTTPS://pay.example/p?x=1 ")
              "HTTPS://pay.example/p?x=1") as (_ & H & _); [vm_compute; reflexivity|exact H].
Defined.

(** ** What the client makes of a reply *)

Definition centralpay_exn (c : ErrorClass) (msg : string) : Exn := Bridge (bridge_error c (Some msg)).

(** The body of a usable reply, or the exception it raises. *)
Definition reply_body (endpoint : string) (reply : GatewayReply) : Res dict :=
  match reply with
  | GatewayHTTPError cls =>
      Raise (centralpay_exn CentralPayConnectionError (endpoint +:+ " request failed: " +:+ cls))
  | GatewayCrash cls => Raise (Unexpected cls)
  | GatewayResponse st body =>
      if negb (st =? 200) then
        Raise (centralpay_exn CentralPayRejectedError (endpoint +:+ " returned HTTP " +:+ str_of_int st))
      else
        match body with
        | None => Raise (centralpay_exn CentralPayInvalidResponseError
                           (endpoint +:+ " returned a non-JSON body"))
        | Some (JObj d) => Ret d
        | Some _ => Raise (centralpay_exn CentralPayInvalidResponseError
                             (endpoint +:+ " returned a non-object JSON body"))
        end
  end.

Definition verify_answer (reply : GatewayReply) : Res VerifyResult :=
  match reply_body "verify.php" reply with
  | Ret body => Ret (read_verify_body body)
  | Raise e => Raise e
  end.

Definition verify_request (api_key : string) (order_id : Z) : ExternalCall :=
  GatewayPost "verify.php" [("api_key", JStr api_key); ("orderId", JInt order_id)].

Definition link_answer `{UrlLib} (reply : GatewayReply) : Res string :=
  match reply_body "getLink.php" reply with
  | Raise e => Raise e
  | Ret body =>
      let rejected reason :=
        Raise (centralpay_exn CentralPayRejectedError ("getLink rejected: " +:+ reason)) in
      match fst (gateway_reason_code body) with
      | Some reason => rejected reason
      | None =>
          match dict_getN "data" body with
          | JObj data =>
              match validate_redirect_url (dict_getN "redirectUrl" data) with
              | Some url => Ret url
              | None => rejected GATEWAY_INVALID_REDIRECT_URL
              end
          | _ => rejected GATEWAY_MISSING_DATA
          end
      end
  end.

Definition link_body (api_key : string) (amount user_id order_id : Z) (return_url : string) : dict :=
  [("api_key", JStr api_key); ("type", JStr "deposit"); ("amount", JInt amount);
   ("userId", JInt user_id); ("orderId", JInt order_id); ("returnUrl", JStr return_url)].

Lemma reply_body_error endpoint reply e : reply_body endpoint reply = Raise e ->
  (exists cls, e = Unexpected cls /\ reply = GatewayCrash cls) \/
  (exists b, e = Bridge b /\ is_CentralPayError (error_class b) = true).
Proof.
  unfold reply_body, centralpay_exn.
  destruct reply as [st body|cls|cls]; [|intros [= <-]; eauto|intros [= <-]; eauto].
  destruct (negb (st =? 200)); [intros [= <-]; eauto|].
  destruct body as [[]|]; intros [= <-]; eauto.
Qed.

Lemma link_answer_nonempty `{UrlLib} reply url : link_answer reply = Ret url -> url <> "".
Proof.
  unfold link_answer. intros Hr. repeat case_match; simplify_eq.
  by eapply validate_redirect_url_nonempty.
Qed.

Lemma link_answer_error `{UrlLib} reply e : link_answer reply = Raise e ->
  (exists cls, e = Unexpected cls /\ reply = GatewayCrash cls) \/
  (exists b, e = Bridge b /\ is_CentralPayError (error_class b) = true).
Proof.
  unfold link_answer. destruct (reply_body _ _) as [body|e'] eqn:E.
  - intros Hr. right. unfold centralpay_exn in Hr.
    repeat case_match; simplify_eq; eauto.
  - intros [= <-]. by eapply reply_body_error.
Qed.

Section ClientFacts.
Context `{Env}.

Lemma wp_post_json endpoint payload (Q : Res dict -> World -> Prop) w :
  (forall w', called [GatewayPost endpoint payload] w w' ->
     Q (reply_body endpoint (gateway_post (ticks w) endpoint payload)) w') ->
  wp (post_json endpoint payload) Q w.
Proof.
  intros HQ. unfold post_json. wp_step. wp_step. specialize (HQ _ H0). unfold reply_body in HQ.
  destruct (gateway_post _ _ _) as [st body|cls|cls]; [|by apply wp_raise..].
  destruct (negb (st =? 200)); [by apply wp_raise|].
  destruct body as [[]|]; by first [apply wp_ret|apply wp_raise].
Qed.

Lemma wp_get_link `{UrlLib} api_key amt user_id order_id return_url
    (Q : Res string -> World -> Prop) w :
  let body := link_body api_key amt user_id order_id return_url in
  (forall w', called [GatewayPost "getLink.php" body] w w' ->
     Q (link_answer (gateway_post (ticks w) "getLink.php" body)) w') ->
  wp (get_link api_key amt user_id order_id return_url) Q w.
Proof.
  cbn. intros HQ. unfold get_link. apply wp_bind, wp_post_json. intros w' C.
  specialize (HQ w' C). unfold link_answer in HQ. unfold link_body in HQ.
  destruct (reply_body _ _) as [body|e]; [|done].
  destruct (fst (gateway_reason_code body)); [done|].
  destruct (dict_getN "data" body); try done. by destruct (validate_redirect_url _).
Qed.

Lemma wp_verify api_key order_id (Q : Res VerifyResult -> World -> Prop) w :
  (forall w' reply, called [verify_request api_key order_id] w w' ->
     reply = gateway_post (ticks w) "verify.php" [("api_key", JStr api_key); ("orderId", JInt order_id)] ->
     Q (verify_answer reply) w') ->
  wp (verify api_key order_id) Q w.
Proof.
  intros HQ. unfold verify. apply wp_bind, wp_post_json. intros w' C.
  specialize (HQ w' _ C eq_refl). unfold verify_answer in HQ.
  destruct (reply_body _ _); [by apply wp_ret|done].
Qed.
End ClientFacts.
