(* ===== verification/Security.v ===== *)
(** Callback authentication ([app/security.py]): the HMAC signature over order
    id and one-time token, the stored token hash, and the callback URL. *)

From S2P Require Import Prelude PyText Crypto Exceptions Config Models Session AuditTrail Ledger.
From S2P Require Import CentralPay.

(** [hmac.compare_digest(a.encode("utf-8"), b.encode("utf-8"))]. *)
Definition constant_time_equals (provided expected : string) : bool :=
  bool_decide (utf8 provided = utf8 expected).

Definition callback_message (gateway_order_id : Z) (callback_token : string) : string :=
  "orderId=" +:+ str_of_int gateway_order_id +:+ "&ct=" +:+ callback_token.

Definition callback_signature (secret : string) (gateway_order_id : Z) (callback_token : string)
  : string := hmac_hex secret (callback_message gateway_order_id callback_token).

Definition verify_callback_signature (secret : string) (gateway_order_id : Z)
    (callback_token signature : string) : bool :=
  bool_decide (utf8 (callback_signature secret gateway_order_id callback_token) = utf8 signature).

Definition generate_callback_token `{Env} : M string := tick token_hex.

Definition callback_token_hash (callback_token : string) : string := sha256_hex callback_token.

(** [hmac.compare_digest] of two ASCII texts. *)
Definition callback_token_matches (callback_token : string) (stored_hash : option string) : bool :=
  match stored_hash with
  | None => false
  | Some h => if String.eqb h "" then false else String.eqb (callback_token_hash callback_token) h
  end.

Definition CALLBACK_PATH : string := "/api/centralpay/callback".

Definition SLASH : Ascii.ascii := char 47.

Definition build_callback_url (settings : Settings) (gateway_order_id : Z) (callback_token : string)
  : string :=
  let signature := callback_signature (callback_hmac_secret settings) gateway_order_id callback_token in
  let base := rstrip (Ascii.eqb SLASH) (public_base_url settings) in
  base +:+ CALLBACK_PATH +:+ "?orderId=" +:+ str_of_int gateway_order_id +:+ "&ct=" +:+ callback_token
       +:+ "&sig=" +:+ signature.

(** ** Facts *)

(** A token matches the hash stored for it. *)
Lemma callback_token_matches_own token :
  callback_token_matches token (Some (callback_token_hash token)) = true.
Proof.
  unfold callback_token_matches, callback_token_hash. rewrite String.eqb_refl.
  destruct (String.eqb (sha256_hex token) "") eqn:E; [|done]. bool_to_prop.
  pose proof (sha256_hex_length token) as L. by rewrite E in L.
Qed.

Lemma code_inj a b : code a = code b -> a = b.
Proof.
  unfold code. intros H%N2Z.inj. rewrite <- (Ascii.ascii_N_embedding a), H.
  apply Ascii.ascii_N_embedding.
Qed.

Lemma utf8_inj s t : utf8 s = utf8 t -> s = t.
Proof.
  revert t. induction s as [|c s IH]; intros [|d t]; try done.
  - cbn. destruct (code d <? 128); done.
  - cbn. destruct (code c <? 128); done.
  - pose proof (code_range c). pose proof (code_range d). cbn.
    destruct (code c <? 128) eqn:Ec, (code d <? 128) eqn:Ed; bool_to_prop; intros [= ].
    + f_equal; [by apply code_inj|auto].
    + exfalso. assert (2 <= code d / 64) by (apply Z.div_le_lower_bound; lia). lia.
    + exfalso. assert (2 <= code c / 64) by (apply Z.div_le_lower_bound; lia). lia.
    + f_equal; [|auto]. apply code_inj.
      rewrite (Z.div_mod (code c) 64), (Z.div_mod (code d) 64) by lia. lia.
Qed.

Lemma constant_time_equals_spec a b : constant_time_equals a b = true <-> a = b.
Proof.
  unfold constant_time_equals. rewrite bool_decide_eq_true. split; [apply utf8_inj|by intros ->].
Qed.

(** A text of digits and signs ends where the first other character starts. *)
Lemma numeral_prefix_unique a b s t c d :
  str_forallb (fun x => is_ascii_digit x || (code x =? 45)) a = true ->
  str_forallb (fun x => is_ascii_digit x || (code x =? 45)) b = true ->
  is_ascii_digit c || (code c =? 45) = false -> is_ascii_digit d || (code d =? 45) = false ->
  a +:+ String c s = b +:+ String d t -> a = b /\ c = d /\ s = t.
Proof.
  revert b. induction a as [|x a IH]; intros [|y b]; cbn [str_forallb]; intros Ha Hb Hc Hd E.
  - by injection E.
  - injection E as -> _. apply andb_true_iff in Hb as [Hb _]. congruence.
  - injection E as <- _. apply andb_true_iff in Ha as [Ha _]. congruence.
  - apply andb_true_iff in Ha as [_ Ha], Hb as [_ Hb]. injection E as -> E.
    destruct (IH b Ha Hb Hc Hd E) as (-> & -> & ->). done.
Qed.

Lemma str_of_int_inj x y : str_of_int x = str_of_int y -> x = y.
Proof. apply (inj pretty). Qed.

(** The signed text binds the order id and the one-time token together: two
    links have the same message only if both agree, and a signature is
    accepted only if it is the very text [callback_signature] produces, so
    that neither part can be exchanged on its own. *)
Theorem callback_signature_binds secret gid token sig :
  (verify_callback_signature secret gid token sig = true
     <-> sig = callback_signature secret gid token) /\
  forall gid' token', utf8 (callback_message gid token) = utf8 (callback_message gid' token') ->
    gid = gid' /\ token = token'.
Proof.
  split.
  - unfold verify_callback_signature. rewrite bool_decide_eq_true.
    split; [intros E%utf8_inj; by symmetry|by intros ->].
  - intros gid' token' E%utf8_inj. unfold callback_message in E.
    apply (inj (String.append "orderId=")) in E.
    apply (numeral_prefix_unique _ _ ("ct=" +:+ token) ("ct=" +:+ token') (char 38) (char 38)) in E;
      [|apply str_of_int_chars|apply str_of_int_chars|done|done].
    destruct E as (Hg & _ & Ht). split; [by apply str_of_int_inj|].
    by apply (inj (String.append "ct=")) in Ht.
Qed.
