(* ===== verification/PayerIdentity.v ===== *)
(** Resolution of payer identities ([app/services/payer_identity.py]): one
    stable gateway user id per end user, allocated in the identity table. *)

From S2P Require Import Prelude PyText Crypto Exceptions Models ServiceTables Identity Session AuditTrail.
From S2P Require Import Ledger.

Record PayerIdentity := mkPayerIdentity {
  payer_id : Z;
  payer_gateway_user_id : Z;
  payer_version : Z;
  payer_scheme : IdentityScheme
}.

Definition as_identity (row : PayerIdentityRow) : PayerIdentity :=
  mkPayerIdentity (identity_id row) (row_gateway_user_id row) (row_derivation_version row)
    (identity_scheme row).

(** The rows of the identity table that satisfy a condition on a UNIQUE
    column: at most one. *)
Definition find_identity (flt : PayerIdentityRow -> bool) (d : Db) : option PayerIdentityRow :=
  match List.filter flt (rows (payer_identities d)) with
  | [] => None
  | row :: _ => Some row
  end.

Definition has_key_hash (key_hash : string) (r : PayerIdentityRow) : bool :=
  String.eqb (customer_key_hash r) key_hash.

(** [_lookup]. *)
Definition lookup_identity (key_hash : string) : M (option PayerIdentityRow) :=
  let* d := get_db in ret (find_identity (has_key_hash key_hash) d).

(** [db.add(row); db.flush()]. *)
Definition insert_identity (mk : Z -> PayerIdentityRow) : M PayerIdentityRow :=
  let* d := get_db in
  let row := mk (next_id (payer_identities d)) in
  if identity_conflict row (payer_identities d) then raise IntegrityError
  else
    put_db (d <| payer_identities := <[identity_id row := row]> (payer_identities d) |>) ;;;
    ret row.

Section Resolution.
Context `{Env}.

Definition record_identity_created (row : PayerIdentityRow) (key_hash : string) (attempts : Z)
  : M unit :=
  record_event None "centralpay_payer_identity_created" "info"
    [("payer_identity_id", JInt (identity_id row));
     ("identity_scheme", JStr (identity_scheme_value (identity_scheme row)));
     ("derivation_version", JInt (row_derivation_version row));
     ("identity_fingerprint", JStr (str_take FINGERPRINT_LENGTH key_hash));
     ("derivation_attempts", JInt attempts)].

(** [_fail_closed_collision]. *)
Definition fail_closed_collision (key_hash : string) (occupied_by : option PayerIdentityRow)
  : M PayerIdentity :=
  record_event None "payer_identity_collision" "error"
    [("identity_fingerprint", JStr (str_take FINGERPRINT_LENGTH key_hash));
     ("requested_scheme", JStr (identity_scheme_value TELEGRAM_RAW));
     ("occupied_by_payer_identity_id", json_of_option (fun r => JInt (identity_id r)) occupied_by);
     ("occupied_by_scheme",
       json_of_option (fun r => JStr (identity_scheme_value (identity_scheme r))) occupied_by);
     ("occupied_by_reserved_legacy_id", JBool (is_none occupied_by))] ;;;
  commit ;;;
  raise_error PayerIdentityCollisionError.

Definition lookup_in_tx (flt : PayerIdentityRow -> bool) : M (option PayerIdentityRow) :=
  begin_tx ;;;
  let* d := get_db in
  rollback ;;;
  ret (find_identity flt d).

(** [_resolve_telegram_raw]; [reserved] is never [None] in the program. *)
Definition resolve_telegram_raw (secret : string) (telegram_user_id reserved : Z) : M PayerIdentity :=
  if negb ((1 <=? telegram_user_id) && (telegram_user_id <=? MAX_TELEGRAM_USER_ID)) then
    raise (Bridge (bridge_error PayerIdentityAllocationError
                     (Some "telegram id out of documented range")))
  else
    let key_hash := identity_key_hash secret (telegram_identity_key telegram_user_id) in
    let* existing := lookup_identity key_hash in
    rollback ;;;
    match existing with
    | Some row => ret (as_identity row)
    | None =>
        if telegram_user_id =? reserved then fail_closed_collision key_hash None
        else
          begin_tx ;;;
          let* inserted := try_catch
            (let* row := insert_identity (fun i =>
               mkPayerIdentityRow i key_hash telegram_user_id DERIVATION_VERSION TELEGRAM_RAW) in
             ret (Some row))
            (fun e => match e with IntegrityError => ret None | _ => raise e end) in
          match inserted with
          | Some row =>
              record_identity_created row key_hash 1 ;;;
              commit ;;;
              ret (as_identity row)
          | None =>
              rollback ;;;
              let* concurrent := lookup_in_tx (has_key_hash key_hash) in
              match concurrent with
              | Some row => ret (as_identity row)
              | None =>
                  let* occupied := lookup_in_tx (fun r => row_gateway_user_id r =? telegram_user_id) in
                  fail_closed_collision key_hash occupied
              end
          end
    end.

(** The loop of [_resolve_order_hmac], from [attempt] on. *)
Fixpoint derive_loop (fuel : nat) (secret identity_key : string) (reserved attempt : Z)
  : M PayerIdentity :=
  match fuel with
  | O => rollback ;;; raise_error PayerIdentityAllocationError
  | S fuel' =>
      let key_hash := identity_key_hash secret identity_key in
      let candidate := derive_order_gateway_user_id secret identity_key attempt in
      let next := derive_loop fuel' secret identity_key reserved (attempt + 1) in
      if candidate =? reserved then next
      else
        begin_tx ;;;
        let* inserted := try_catch
          (let* row := insert_identity (fun i =>
             mkPayerIdentityRow i key_hash candidate DERIVATION_VERSION ORDER_HMAC) in
           ret (Some row))
          (fun e => match e with IntegrityError => ret None | _ => raise e end) in
        match inserted with
        | Some row =>
            record_identity_created row key_hash (attempt + 1) ;;;
            commit ;;;
            ret (as_identity row)
        | None =>
            rollback ;;;
            let* concurrent := lookup_in_tx (has_key_hash key_hash) in
            match concurrent with
            | Some row => ret (as_identity row)
            | None => next
            end
        end
  end.

(** [_resolve_order_hmac]. *)
Definition resolve_order_hmac (secret identity_key : string) (reserved : Z) : M PayerIdentity :=
  let* existing := lookup_identity (identity_key_hash secret identity_key) in
  rollback ;;;
  match existing with
  | Some row => ret (as_identity row)
  | None => derive_loop (Z.to_nat MAX_DERIVATION_ATTEMPTS) secret identity_key reserved 0
  end.

Definition resolve_payer_identity (secret identity_key : string) (telegram_user_id : option Z)
    (reserved : Z) : M PayerIdentity :=
  match telegram_user_id with
  | Some t => resolve_telegram_raw secret t reserved
  | None => resolve_order_hmac secret identity_key reserved
  end.
End Resolution.

(** ** Facts *)

Lemma find_identity_Some flt d row : find_identity flt d = Some row ->
  exists i, payer_identities d !! i = Some row /\ flt row = true.
Proof.
  unfold find_identity. destruct (List.filter _ _) as [|r l] eqn:E; [done|]. intros [= <-].
  assert (Hin : In r (r :: l)) by (by left). rewrite <- E in Hin.
  apply filter_In in Hin as [[i Hi]%in_rows Hf]. eauto.
Qed.

Lemma find_identity_None flt d : find_identity flt d = None ->
  forall i row, payer_identities d !! i = Some row -> flt row = false.
Proof.
  unfold find_identity. destruct (List.filter _ _) as [|r l] eqn:E; [|done]. intros _ i row Hi.
  apply not_true_iff_false. intros Hf. assert (Hin : In row []); [|done].
  rewrite <- E. apply filter_In. split; [apply in_rows; eauto|done].
Qed.

Lemma find_identity_hash d i row : identities_ok (payer_identities d) ->
  payer_identities d !! i = Some row ->
  find_identity (has_key_hash (customer_key_hash row)) d = Some row.
Proof.
  intros Hok Hi. unfold has_key_hash.
  destruct (find_identity _ d) as [q|] eqn:E.
  - apply find_identity_Some in E as (j & Hj & Hf). bool_to_prop.
    assert (i = j) as ->; [|congruence].
    by eapply (io_hash _ Hok i j row q (customer_key_hash row)); rewrite ?Hf.
  - pose proof (find_identity_None _ _ E i row Hi) as Hf. cbn in Hf. by rewrite String.eqb_refl in Hf.
Qed.

(** What a session does between transactions: it stayed sound, is between two
    transactions, sent nothing, and holds no payment object it did not hold. *)
Definition between (w w' : World) : Prop :=
  steady w w' /\ committed w' = working w' /\ calls w' = calls w /\
  (identity_map w = ∅ -> identity_map w' = ∅).

Lemma between_refl w : sound w -> committed w = working w -> between w w.
Proof. intros Hs Hc. split_and!; [by apply steady_refl|done..]. Qed.

Lemma between_trans w1 w2 w3 : between w1 w2 -> between w2 w3 -> between w1 w3.
Proof.
  intros (S1 & _ & C1 & M1) (S2 & E & C2 & M2).
  split_and!; [by eapply steady_trans|done|congruence|auto].
Qed.

Lemma between_began `{Rely} w w' : began w w' -> sound w -> committed w = working w -> between w w'.
Proof. intros B Hs Hc. split_and!; [by apply steady_began|by ws|by ws|by ws]. Qed.

Lemma between_rollback w w' : did_rollback w w' -> sound w -> between w w'.
Proof. intros R Hs. split_and!; [by apply steady_rollback|by ws|by ws|by ws]. Qed.

Lemma between_event_commit es w w1 w' : sound w -> audited es w w1 -> did_commit w1 w' -> between w w'.
Proof.
  intros Hs A C. pose proof (steady_audited _ _ _ A Hs) as S1. split_and!; [|by ws|by ws|by ws].
  eapply steady_trans; [exact S1|]. eapply steady_commit; [done|apply S1].
Qed.

(** The row [row] was added to the identity table. *)
Record identity_added (row : PayerIdentityRow) (w w' : World) : Prop := {
  ia_committed : committed w' = committed w;
  ia_identities : payer_identities (working w')
                  = <[identity_id row := row]> (payer_identities (working w));
  ia_fresh : payer_identities (working w) !! identity_id row = None;
  ia_distinct : identity_conflict row (payer_identities (working w)) = false;
  ia_payments : payments (working w') = payments (working w);
  ia_events : payment_events (working w') = payment_events (working w);
  ia_service : service_tables (working w') = service_tables (working w);
  ia_map : identity_map w' = identity_map w;
  ia_calls : calls w' = calls w
}.

Lemma steady_added row w w' : identity_added row w w' -> sound w ->
  payer_identity_checks row && scheme_range row = true -> steady w w'.
Proof.
  intros A Hs Hr. destruct Hs as [Hok Hl Hm].
  assert (L : db_legal (working w) (working w')).
  { split.
    - rewrite (ia_payments _ _ _ A). intros i p Hp. exists p. split; [done|reflexivity].
    - rewrite (ia_payments _ _ _ A). congruence.
    - exists []. apply (ia_events _ _ _ A).
    - intros i r Hi. rewrite (ia_identities _ _ _ A). rewrite lookup_insert_ne; [done|].
      intros <-. by rewrite (ia_fresh _ _ _ A) in Hi.
    - intros Ho. rewrite (ia_identities _ _ _ A). apply identities_ok_insert; try done; apply A.
    - by rewrite (ia_payments _ _ _ A).
    - by rewrite (ia_payments _ _ _ A).
    - by rewrite (ia_payments _ _ _ A).
    - apply same_service_legal, (ia_service _ _ _ A). }
  unfold steady. rewrite (ia_committed _ _ _ A). split; [split|reflexivity].
  - by rewrite (ia_committed _ _ _ A).
  - rewrite (ia_committed _ _ _ A). by transitivity (working w).
  - by rewrite (ia_map _ _ _ A), (ia_payments _ _ _ A).
Qed.

Lemma wp_insert_identity mk (Q : Res PayerIdentityRow -> World -> Prop) w :
  (forall i, identity_id (mk i) = i) ->
  (forall w', identity_added (mk (next_id (payer_identities (working w)))) w w' ->
     Q (Ret (mk (next_id (payer_identities (working w))))) w') ->
  Q (Raise IntegrityError) w ->
  wp (insert_identity mk) Q w.
Proof.
  intros Hid Hok Hno. unfold insert_identity. apply wp_bind, wp_get_db.
  destruct (identity_conflict _ _) eqn:E; [by apply wp_raise|].
  apply Hok. split; try done. rewrite Hid. apply next_id_fresh.
Qed.

Section ResolutionFacts.
Context {ENV : Env} {RELY : Rely}.

Lemma wp_lookup_in_tx flt (Q : Res (option PayerIdentityRow) -> World -> Prop) w :
  sound w -> committed w = working w ->
  (forall w', between w w' -> Q (Ret (find_identity flt (committed w'))) w') ->
  wp (lookup_in_tx flt) Q w.
Proof.
  intros Hs Hc HQ. unfold lookup_in_tx. do 2 wp_step. pose proof (between_began _ _ H Hs Hc) as B1.
  do 4 wp_step. wp_step.
  replace (find_identity flt (working w')) with (find_identity flt (committed w'0))
    by (rewrite (rb_committed _ _ H0); by rewrite (bg_working _ _ H)).
  apply HQ. eapply between_trans; [exact B1|]. apply between_rollback; [done|apply B1].
Qed.

(** The identity handed out for a key hash: a mapping that existed (in some
    state the database went through), or a new one that satisfies [new]. *)
Definition handed_out (key_hash : string) (new : PayerIdentityRow -> Prop) (ident : PayerIdentity)
    (w w' : World) : Prop :=
  exists i row, payer_identities (committed w') !! i = Some row /\ ident = as_identity row /\
    customer_key_hash row = key_hash /\
    (new row \/ exists d, db_legal (committed w) d /\ find_identity (has_key_hash key_hash) d = Some row).

Lemma handed_out_found key_hash new row w w' : between w w' ->
  find_identity (has_key_hash key_hash) (committed w') = Some row ->
  handed_out key_hash new (as_identity row) w w'.
Proof.
  intros B E. pose proof E as E'. apply find_identity_Some in E' as (i & Hi & Hf).
  unfold has_key_hash in Hf. bool_to_prop. exists i, row. split_and!; [done..|].
  right. exists (committed w'). split; [apply B|done].
Qed.

(** Which failures a resolution may end with. *)
Definition identity_failure (e : Exn) : Prop :=
  exists b, e = Bridge b /\
    (error_class b = PayerIdentityAllocationError \/ error_class b = PayerIdentityCollisionError).

Definition resolves (key_hash : string) (new : PayerIdentityRow -> Prop) (w : World)
    (r : Res PayerIdentity) (w' : World) : Prop :=
  between w w' /\
  match r with
  | Ret ident => handed_out key_hash new ident w w'
  | Raise e => identity_failure e
  end.

Lemma resolves_after key_hash new w w1 r w' :
  between w w1 -> resolves key_hash new w1 r w' -> resolves key_hash new w r w'.
Proof.
  intros B [B' Hr]. split; [by eapply between_trans|]. destruct r as [ident|e]; [|done].
  destruct Hr as (i & row & Hi & He & Hh & Hor). exists i, row. split_and!; [done..|].
  destruct Hor as [Hn|(d & L & E)]; [by left|right]. exists d. split; [|done].
  transitivity (committed w1); [apply B|done].
Qed.

Lemma wp_fail_closed key_hash new occupied w :
  sound w -> wp (fail_closed_collision key_hash occupied) (resolves key_hash new w) w.
Proof.
  intros Hs. unfold fail_closed_collision. do 5 wp_step. split.
  - by eapply between_event_commit.
  - eexists. split; [done|]. by right.
Qed.

(** Adding a row, or finding out that it conflicts. *)
Lemma wp_try_insert w (mk : Z -> PayerIdentityRow) key_hash attempts new
    (other : M PayerIdentity) :
  sound w -> committed w = working w ->
  (forall i, identity_id (mk i) = i /\ customer_key_hash (mk i) = key_hash /\ new (mk i) /\
             payer_identity_checks (mk i) && scheme_range (mk i) = true) ->
  (forall w', between w w' -> wp other (resolves key_hash new w) w') ->
  wp (begin_tx ;;;
      let* inserted := try_catch
        (let* row := insert_identity mk in ret (Some row))
        (fun e => match e with IntegrityError => ret None | _ => raise e end) in
      match inserted with
      | Some row =>
          record_identity_created row key_hash attempts ;;;
          commit ;;;
          ret (as_identity row)
      | None => rollback ;;; other
      end) (resolves key_hash new w) w.
Proof.
  intros Hs Hc Hmk Hother. do 2 wp_step. pose proof (between_began _ _ H Hs Hc) as B1.
  apply wp_bind, wp_try, wp_bind, wp_insert_identity; [apply Hmk| |].
  - intros w2 A. apply wp_ret. set (row := mk _) in *.
    destruct (Hmk (next_id (payer_identities (working w')))) as (Hi & Hh & Hn & Hr). fold row in Hi, Hh, Hn, Hr.
    pose proof (steady_added _ _ _ A (proj1 (proj1 B1)) Hr) as S2.
    unfold record_identity_created. do 5 wp_step.
    assert (B2 : between w' w'1).
    { split_and!; [|by ws| |].
      - eapply steady_trans; [exact S2|]. eapply steady_trans; [eapply steady_audited; [done|apply S2]|].
        eapply steady_commit; [done|]. eapply steady_audited; [done|apply S2].
      - rewrite (cm_calls _ _ H1), (au_calls _ _ _ H0). apply (ia_calls _ _ _ A).
      - intros Hm. ws. by rewrite (ia_map _ _ _ A). }
    split; [by eapply between_trans|].
    exists (identity_id row), row. split_and!; [|done..|by left].
    ws. rewrite (ia_identities _ _ _ A). apply lookup_insert_eq.
  - apply wp_ret. do 2 wp_step. apply Hother. eapply between_trans; [exact B1|].
    by eapply between_rollback; [|apply B1].
Qed.

Definition telegram_allocation (t : Z) (row : PayerIdentityRow) : Prop :=
  row_gateway_user_id row = t /\ identity_scheme row = TELEGRAM_RAW.

Definition fallback_allocation (secret key : string) (reserved : Z) (row : PayerIdentityRow) : Prop :=
  identity_scheme row = ORDER_HMAC /\ row_gateway_user_id row <> reserved /\
  exists attempt, 0 <= attempt < MAX_DERIVATION_ATTEMPTS /\
    row_gateway_user_id row = derive_order_gateway_user_id secret key attempt.

Lemma wp_resolve_telegram secret t reserved w :
  sound w -> committed w = working w ->
  wp (resolve_telegram_raw secret t reserved)
    (resolves (identity_key_hash secret (telegram_identity_key t))
       (fun row => telegram_allocation t row /\ t <> reserved) w) w.
Proof.
  intros Hs Hc. unfold resolve_telegram_raw.
  destruct (negb _) eqn:Er.
  { apply wp_raise. split; [by apply between_refl|].
    eexists. split; [done|]. by left. }
  set (key_hash := identity_key_hash _ _). set (new := fun row => _ /\ _).
  unfold lookup_identity. do 6 wp_step. pose proof (between_rollback _ _ H Hs) as B1.
  assert (Ew : committed w' = working w) by (rewrite (rb_committed _ _ H); done).
  destruct (find_identity (has_key_hash key_hash) (working w)) as [row|] eqn:E.
  { apply wp_ret. split; [done|]. apply handed_out_found; [done|]. by rewrite Ew. }
  destruct (t =? reserved) eqn:Et; bool_to_prop.
  { eapply wp_mono; [apply (wp_fail_closed key_hash new), B1|]. intros r w2. by apply resolves_after. }
  eapply wp_mono; [apply (wp_try_insert w' _ key_hash 1 new); [apply B1|apply B1| |]|].
  - intros i. split_and!; try done. cbn. unfold scheme_range. cbn. unfold payer_identity_checks. cbn.
    rewrite !andb_true_iff, !Z.leb_le, Z.ltb_lt. split_and!; try done; lia.
  - intros w2 B2. apply wp_bind, wp_lookup_in_tx; [apply B2|apply B2|].
    intros w3 B3. pose proof (between_trans _ _ _ B2 B3) as B4.
    destruct (find_identity (has_key_hash key_hash) (committed w3)) as [row|] eqn:E3.
    { apply wp_ret. split; [done|]. by apply handed_out_found. }
    apply wp_bind, wp_lookup_in_tx; [apply B4|apply B4|]. intros w4 B5.
    eapply wp_mono; [apply (wp_fail_closed key_hash new), B5|]. intros r w5.
    apply resolves_after. by eapply between_trans.
  - intros r w2. by apply resolves_after.
Qed.

Lemma wp_derive_loop fuel secret key reserved attempt w :
  sound w -> committed w = working w ->
  0 <= attempt -> attempt + Z.of_nat fuel <= MAX_DERIVATION_ATTEMPTS ->
  wp (derive_loop fuel secret key reserved attempt)
    (resolves (identity_key_hash secret key) (fallback_allocation secret key reserved) w) w.
Proof.
  revert attempt w. induction fuel as [|fuel IH]; intros attempt w Hs Hc Ha Hmax; cbn [derive_loop].
  { do 3 wp_step. split; [by apply between_rollback|]. eexists. split; [done|]. by left. }
  set (key_hash := identity_key_hash secret key). set (new := fallback_allocation _ _ _).
  assert (Hnext : forall w1, between w w1 ->
    wp (derive_loop fuel secret key reserved (attempt + 1)) (resolves key_hash new w) w1).
  { intros w1 B. eapply wp_mono; [apply IH; [apply B|apply B|lia|lia]|].
    intros r w2. by apply resolves_after. }
  destruct (derive_order_gateway_user_id secret key attempt =? reserved) eqn:Er; bool_to_prop.
  { by apply Hnext, between_refl. }
  apply wp_try_insert; [done|done| |].
  - intros i. pose proof (derive_range secret key attempt) as Hr.
    unfold ORDER_FALLBACK_MIN, ORDER_FALLBACK_SPAN in Hr.
    split_and!; try done.
    + split_and!; [done|done|]. exists attempt. split_and!; [lia..|done].
    + unfold payer_identity_checks, scheme_range. cbn.
      rewrite !andb_true_iff, !Z.ltb_lt, !Z.leb_le. unfold ORDER_FALLBACK_MIN, ORDER_FALLBACK_SPAN.
      split_and!; try done; lia.
  - intros w2 B2. apply wp_bind, wp_lookup_in_tx; [apply B2|apply B2|].
    intros w3 B3. pose proof (between_trans _ _ _ B2 B3) as B4.
    destruct (find_identity (has_key_hash key_hash) (committed w3)) as [row|] eqn:E3.
    + apply wp_ret. split; [done|]. by apply handed_out_found.
    + by apply Hnext.
Qed.

Lemma wp_resolve_order secret key reserved w :
  sound w -> committed w = working w ->
  wp (resolve_order_hmac secret key reserved)
    (resolves (identity_key_hash secret key) (fallback_allocation secret key reserved) w) w.
Proof.
  intros Hs Hc. unfold resolve_order_hmac, lookup_identity. do 6 wp_step.
  pose proof (between_rollback _ _ H Hs) as B1.
  assert (Ew : committed w' = working w) by (rewrite (rb_committed _ _ H); done).
  destruct (find_identity _ (working w)) as [row|] eqn:E.
  - apply wp_ret. split; [done|]. apply handed_out_found; [done|]. by rewrite Ew.
  - eapply wp_mono; [apply wp_derive_loop; [apply B1|apply B1|lia|]|].
    + rewrite Z2Nat.id; unfold MAX_DERIVATION_ATTEMPTS; lia.
    + intros r w2. by apply resolves_after.
Qed.

Definition requested_key (key : string) (telegram : option Z) : string :=
  match telegram with Some t => telegram_identity_key t | None => key end.

(** The rows a resolution may add. *)
Definition allocation (secret key : string) (telegram : option Z) (reserved : Z)
    (row : PayerIdentityRow) : Prop :=
  match telegram with
  | Some t => telegram_allocation t row /\ t <> reserved
  | None => fallback_allocation secret key reserved row
  end.

Lemma wp_resolve secret key telegram reserved w :
  sound w -> committed w = working w ->
  wp (resolve_payer_identity secret key telegram reserved)
    (resolves (identity_key_hash secret (requested_key key telegram))
       (allocation secret key telegram reserved) w) w.
Proof.
  intros Hs Hc. unfold resolve_payer_identity, allocation, requested_key. destruct telegram.
  - by apply wp_resolve_telegram.
  - by apply wp_resolve_order.
Qed.

(** C12: Resolution hands out the durable mapping of exactly the requested
    identity, or fails closed. With other sessions allocating concurrently, a
    successful resolution returns a committed row stored under the keyed hash
    of the requested identity; a row it added itself carries the exact
    Telegram id, or for an order the first free candidates of the reserved
    range, never the legacy shared id; otherwise it ends with an allocation or
    collision error. It commits only legal changes, sends nothing, and keeps the
    table's invariant: distinct identities have distinct gateway ids, and the
    ids of the schemes stay in their disjoint ranges. *)
Theorem resolve_payer_identity_sound secret key telegram reserved w :
  sound w -> committed w = working w ->
  wp (resolve_payer_identity secret key telegram reserved) (fun r w' =>
    calls w' = calls w /\ db_legal (committed w) (committed w') /\
    identities_ok (payer_identities (committed w')) /\
    match r with
    | Ret ident => exists i row, payer_identities (committed w') !! i = Some row /\
        ident = as_identity row /\
        customer_key_hash row = identity_key_hash secret (requested_key key telegram) /\
        (allocation secret key telegram reserved row \/
         exists d, db_legal (committed w) d /\
           find_identity (has_key_hash (customer_key_hash row)) d = Some row)
    | Raise e => identity_failure e
    end) w.
Proof.
  intros Hs Hc. eapply wp_mono; [by apply wp_resolve|]. intros r w' [(S & _ & Hcalls & _) Hr].
  split_and!; [done|apply S|apply (ok_identities _ (so_ok _ (proj1 S)))|].
  destruct r as [ident|e]; [|done]. destruct Hr as (i & row & Hi & He & Hh & Hor).
  exists i, row. rewrite Hh. by split_and!.
Qed.

(** Two end users never share a gateway id: resolving two requests with
    different identity hashes one after the other, whatever other sessions
    commit around them, yields two different gateway user ids. *)
Theorem resolve_isolates_payers secret key1 telegram1 key2 telegram2 reserved w :
  sound w -> committed w = working w ->
  identity_key_hash secret (requested_key key1 telegram1)
    <> identity_key_hash secret (requested_key key2 telegram2) ->
  wp (let* a := resolve_payer_identity secret key1 telegram1 reserved in
      begin_tx ;;;
      let* b := resolve_payer_identity secret key2 telegram2 reserved in
      ret (a, b)) (fun r w' =>
    match r with
    | Ret (a, b) => payer_gateway_user_id a <> payer_gateway_user_id b
    | Raise e => identity_failure e
    end) w.
Proof.
  intros Hs Hc Hne. apply wp_bind. eapply wp_mono; [by apply wp_resolve|].
  intros r1 w1 [B1 H1]. destruct r1 as [a|e]; [|done].
  destruct H1 as (i & row1 & Hi & -> & Hh1 & _).
  do 2 wp_step. pose proof (between_began _ _ H (proj1 (proj1 B1)) (proj1 (proj2 B1))) as B2.
  apply wp_bind. eapply wp_mono; [apply wp_resolve; apply B2|].
  intros r2 w2 [B3 H2]. destruct r2 as [b|e]; [|done]. apply wp_ret.
  destruct H2 as (j & row2 & Hj & -> & Hh2 & _). cbn. intros Heq.
  pose proof (le_identities _ _ (proj2 (proj1 (between_trans _ _ _ B2 B3))) _ _ Hi) as Hi'.
  pose proof (ok_identities _ (so_ok _ (proj1 (proj1 B3)))) as Hok.
  assert (i = j) as -> by (by eapply (io_gateway _ Hok i j row1 row2 (row_gateway_user_id row1));
                             [..|done|by rewrite Heq]).
  congruence.
Qed.

Lemma resolve_existing secret key telegram reserved w row :
  committed w = working w -> identities_ok (payer_identities (working w)) ->
  (forall t, telegram = Some t -> 1 <= t <= MAX_TELEGRAM_USER_ID) ->
  find_identity (has_key_hash (identity_key_hash secret (requested_key key telegram))) (working w)
    = Some row ->
  wp (resolve_payer_identity secret key telegram reserved) (fun r w' =>
    r = Ret (as_identity row) /\ did_rollback w w') w.
Proof.
  intros Hc Hok Ht Hrow. unfold resolve_payer_identity, requested_key in *.
  destruct telegram as [t|].
  - unfold resolve_telegram_raw. destruct (Ht t eq_refl) as [H1 H2].
    rewrite (proj2 (Z.leb_le _ _) H1), (proj2 (Z.leb_le _ _) H2). cbn [andb negb].
    unfold lookup_identity. do 6 wp_step. rewrite Hrow. by apply wp_ret.
  - unfold resolve_order_hmac, lookup_identity. do 6 wp_step. rewrite Hrow. by apply wp_ret.
Qed.

(** A known identity is looked up, never written: when its mapping exists,
    resolution returns exactly that mapping, so the same end user keeps the
    same gateway id for every order, and the database, audit trail included,
    is left as it was. *)
Theorem resolve_known_identity_reads_only secret key telegram reserved w i row :
  sound w -> committed w = working w ->
  (forall t, telegram = Some t -> 1 <= t <= MAX_TELEGRAM_USER_ID) ->
  payer_identities (working w) !! i = Some row ->
  customer_key_hash row = identity_key_hash secret (requested_key key telegram) ->
  wp (resolve_payer_identity secret key telegram reserved) (fun r w' =>
    r = Ret (as_identity row) /\ committed w' = committed w /\ working w' = working w /\
    calls w' = calls w) w.
Proof.
  intros Hs Hc Ht Hi Hh. pose proof (ok_identities _ (so_working w Hs)) as Hok.
  eapply wp_mono; [apply (resolve_existing _ _ _ _ _ row); try done|].
  - rewrite <- Hh. by eapply find_identity_hash.
  - intros r w' [-> R]. rewrite (rb_committed _ _ R), (rb_working _ _ R), (rb_calls _ _ R).
    by rewrite Hc.
Qed.

End ResolutionFacts.

(** ** Witnesses *)

Definition known_row : PayerIdentityRow :=
  mkPayerIdentityRow 1 (identity_key_hash "s" (telegram_identity_key 42)) 42 2 TELEGRAM_RAW.

Definition identity_world : World :=
  world_of (empty_db <| payer_identities := {[ 1 := known_row ]} |>).

Lemma identity_world_sound : sound identity_world.
Proof.
  apply sound_fresh. split.
  - intros i p Hp. change ((∅ : gmap Z Payment) !! i = Some p) in Hp. by rewrite lookup_empty in Hp.
  - intros i p Hp. change ((∅ : gmap Z Payment) !! i = Some p) in Hp. by rewrite lookup_empty in Hp.
  - change (identities_ok (<[identity_id known_row := known_row]> ∅)).
    apply identities_ok_insert; [apply identities_ok_empty|done|done|apply lookup_empty].
  - apply unique_orders_empty.
  - apply unique_col_none.
  - apply unique_col_none.
  - by apply service_ok_empty.
Qed.

Lemma resolve_payer_identity_sound_witness :
  committed identity_world = working identity_world /\
  wp (resolve_payer_identity "s" "order:o1" None 7) (fun r w' =>
    identities_ok (payer_identities (committed w'))) identity_world.
Proof.
  split; [reflexivity|].
  eapply wp_mono; [apply (resolve_payer_identity_sound "s" "order:o1" None 7 identity_world)|].
  - exact identity_world_sound.
  - reflexivity.
  - intros r w' (_ & _ & H & _). exact H.
Defined.

Lemma resolve_isolates_payers_witness :
  identity_key_hash "s" (telegram_identity_key 42) <> identity_key_hash "s" (telegram_identity_key 43) /\
  wp (let* a := resolve_payer_identity "s" "" (Some 42) 7 in
      begin_tx ;;;
      let* b := resolve_payer_identity "s" "" (Some 43) 7 in
      ret (a, b)) (fun r w' =>
    match r with
    | Ret (a, b) => payer_gateway_user_id a <> payer_gateway_user_id b
    | Raise e => identity_failure e
    end) identity_world.
Proof.
  assert (Hne : identity_key_hash "s" (telegram_identity_key 42)
                <> identity_key_hash "s" (telegram_identity_key 43)) by (vm_compute; discriminate).
  split; [exact Hne|].
  apply (resolve_isolates_payers "s" "" (Some 42) "" (Some 43) 7 identity_world).
  - exact identity_world_sound.
  - reflexivity.
  - exact Hne.
Defined.

Lemma resolve_known_identity_reads_only_witness :
  payer_identities (working identity_world) !! 1 = Some known_row /\
  wp (resolve_payer_identity "s" "" (Some 42) 7) (fun r w' =>
    r = Ret (mkPayerIdentity 1 42 2 TELEGRAM_RAW)) identity_world.
Proof.
  split; [vm_compute; reflexivity|].
  eapply wp_mono; [apply (resolve_known_identity_reads_only "s" "" (Some 42) 7 identity_world 1 known_row)|].
  - exact identity_world_sound.
  - reflexivity.
  - intros t [= <-]. split; vm_compute; discriminate.
  - vm_compute. reflexivity.
  - reflexivity.
  - intros r w' (-> & _). reflexivity.
Defined.
