(* ===== verification/Fees.v ===== *)
(** The dynamic service fee ([app/services/fees.py]): fee arithmetic, the
    operator's percent notation, and the append-only policy table. *)

From S2P Require Import Prelude PyText Exceptions Models Session AuditTrail.

Definition MAX_RATE_BPS : Z := 10000.
Definition NOTE_MAX_LENGTH : Z := 500.

(** [calculate_fee]: [ValueError] is [None]. *)
Definition calculate_fee (amount rate : Z) : option (Z * Z) :=
  if amount <=? 0 then None
  else if negb ((0 <=? rate) && (rate <=? MAX_RATE_BPS)) then None
  else
    let fee := (amount * rate + 5000) / 10000 in
    Some (fee, amount + fee).

(** The match of [_RATE_PATTERN]: one to three ASCII digits, then optionally a
    point and one or two digits, to the end of the text. *)
Fixpoint split_point (s : string) : string * option string :=
  match s with
  | "" => ("", None)
  | String c s' =>
      if Ascii.eqb c (char 46) then ("", Some s')
      else let '(a, b) := split_point s' in (String c a, b)
  end.

Definition match_rate (value : string) : option (string * string) :=
  let '(whole, dec) := split_point value in
  if all_digits whole && (String.length whole <=? 3)%nat then
    match dec with
    | None => Some (whole, "")
    | Some d => if all_digits d && (String.length d <=? 2)%nat then Some (whole, d) else None
    end
  else None.

(** [parse_rate_percent]. *)
Definition parse_rate_percent (value : string) : option Z :=
  match match_rate value with
  | None => None
  | Some (whole, decimals) =>
      let bps := digits_value 0 whole * 100 + digits_value 0 (str_take 2 (decimals +:+ "00")) in
      if MAX_RATE_BPS <? bps then None else Some bps
  end.

(** [f"{n:02d}"] for [0 <= n]. *)
Definition pad2 (n : Z) : string := if n <? 10 then "0" +:+ str_of_int n else str_of_int n.

(** [format_rate_percent]. *)
Definition format_rate_percent (rate : Z) : string :=
  let whole := rate / 100 in
  let frac := rate mod 100 in
  if frac =? 0 then str_of_int whole +:+ "%"
  else rstrip (fun c => Ascii.eqb c (char 48)) (str_of_int whole +:+ "." +:+ pad2 frac) +:+ "%".

(** [ORDER BY effective_at DESC, id DESC] and its ascending counterpart. *)
Definition newer (a b : FeePolicy) : bool :=
  (effective_at b <? effective_at a) ||
  ((effective_at a =? effective_at b) && (policy_id b <=? policy_id a)).
Definition older (a b : FeePolicy) : bool := newer b a.

Definition effective_at_now (now : Z) (r : FeePolicy) : bool :=
  (effective_at r <=? now) && is_none (cancelled_at r).
Definition scheduled_after (now : Z) (r : FeePolicy) : bool :=
  (now <? effective_at r) && is_none (cancelled_at r).

Definition effective_policy (now : Z) (t : gmap Z FeePolicy) : option FeePolicy :=
  pick_min newer (List.filter (effective_at_now now) (rows t)).

Definition select_effective_policy (now : Z) : M (option FeePolicy) :=
  let* d := get_db in ret (effective_policy now (fee_policies d)).

Definition next_scheduled_policy (now : Z) : M (option FeePolicy) :=
  let* d := get_db in
  ret (pick_min older (List.filter (scheduled_after now) (rows (fee_policies d)))).

(** [_validate_note]. *)
Definition validate_note (n : string) : M string :=
  let n := strip n in
  if String.eqb n "" then raise (ValueError "a non-empty --note is required")
  else if NOTE_MAX_LENGTH <? Z.of_nat (String.length n)
       then raise (ValueError "note must be at most 500 characters")
  else ret n.

Section Policies.
Context `{Env}.

(** [datetime.isoformat()] only reaches the audit data, so a date is
    recorded as its number. *)
Definition create_policy (rate effective : Z) (has_timezone : bool) (actor n : string)
    (scheduled : bool) : M FeePolicy :=
  if negb ((0 <=? rate) && (rate <=? MAX_RATE_BPS))
  then raise (ValueError "rate_bps must be within 0..10000")
  else if negb has_timezone
  then raise (ValueError "effective_at must carry an explicit timezone")
  else
    let* n := validate_note n in
    let* d := get_db in
    let policy := mkFeePolicy (next_id (fee_policies d)) rate effective actor n None None None in
    put_db (d <| fee_policies := <[policy_id policy := policy]> (fee_policies d) |>) ;;;
    record_event None (if scheduled then "fee_policy_scheduled" else "fee_policy_created") "info"
      [("policy_id", JInt (policy_id policy)); ("rate_bps", JInt rate);
       ("effective_at", JInt effective); ("actor", JStr actor); ("note", JStr n)] ;;;
    ret policy.

Definition cancel_policy (pid : Z) (actor n : string) (now : Z) : M FeePolicy :=
  let* n := validate_note n in
  let* d := get_db in
  match fee_policies d !! pid with
  | None => raise (ValueError "fee policy does not exist")
  | Some policy =>
      if is_some (cancelled_at policy) then raise (ValueError "fee policy is already cancelled")
      else if effective_at policy <=? now
      then raise (ValueError "fee policy is (or was) effective and cannot be cancelled")
      else
        let policy' := policy <| cancelled_at := Some now |>
                              <| cancelled_by := Some actor |>
                              <| cancellation_note := Some n |> in
        put_db (d <| fee_policies := <[pid := policy']> (fee_policies d) |>) ;;;
        record_event None "fee_policy_cancelled" "info"
          [("policy_id", JInt (policy_id policy)); ("rate_bps", JInt (rate_bps policy));
           ("effective_at", JInt (effective_at policy)); ("actor", JStr actor);
           ("note", JStr n)] ;;;
        ret policy'
  end.
End Policies.

Example fee_half_up : calculate_fee 1050 1000 = Some (105, 1155). Proof. reflexivity. Qed.
Example fee_half_up' : calculate_fee 5 1000 = Some (1, 6). Proof. reflexivity. Qed.
Example parse_ex : parse_rate_percent "7.5" = Some 750. Proof. reflexivity. Qed.
Example format_ex : format_rate_percent 225 = "2.25%". Proof. vm_compute. reflexivity. Qed.

(** ** Fee arithmetic *)

Lemma calculate_fee_Some a r fee pay :
  calculate_fee a r = Some (fee, pay) <->
  0 < a /\ 0 <= r <= MAX_RATE_BPS /\ fee = (a * r + 5000) / 10000 /\ pay = a + fee.
Proof.
  unfold calculate_fee. split.
  - intros H. repeat case_match; simplify_eq; bool_to_prop; unfold MAX_RATE_BPS in *; lia.
  - intros (Ha & Hr & -> & ->). unfold MAX_RATE_BPS in *.
    rewrite (proj2 (Z.leb_gt _ _)) by lia.
    rewrite (proj2 (Z.leb_le _ _)), (proj2 (Z.leb_le _ _)) by lia. done.
Qed.

(** The fee of an accepted amount is the exact fee [amount * rate / 10000]
    rounded half up: it differs from it by at most half a unit, the tie going
    up. It is never negative and never exceeds the amount, so the payable
    amount lies between the amount and twice the amount. *)
Theorem calculate_fee_rounds_half_up a r fee pay :
  calculate_fee a r = Some (fee, pay) ->
  - 5000 < 10000 * fee - a * r <= 5000 /\ 0 <= fee <= a /\ pay = a + fee /\ a <= pay <= 2 * a.
Proof.
  intros (Ha & Hr & Hfee & ->)%calculate_fee_Some. unfold MAX_RATE_BPS in Hr.
  pose proof (Z.div_mod (a * r + 5000) 10000) as Hdm.
  pose proof (Z.mod_pos_bound (a * r + 5000) 10000) as Hm.
  rewrite <- Hfee in Hdm. nia.
Qed.

Lemma calculate_fee_rounds_half_up_witness :
  calculate_fee 1050 1000 = Some (105, 1155) /\
  (- 5000 < 10000 * 105 - 1050 * 1000 <= 5000 /\ 0 <= 105 <= 1050 /\ 1155 = 1050 + 105 /\
   1050 <= 1155 <= 2 * 1050).
Proof. split; [reflexivity|]. apply calculate_fee_rounds_half_up. reflexivity. Defined.

(** ** The percent notation *)

Definition without_last (s : string) : string := str_take (String.length s - 1) s.

Definition rate_round_trips (r : Z) : bool :=
  let printed := format_rate_percent r in
  let s := without_last printed in
  String.eqb printed (s +:+ "%") && bool_decide (parse_rate_percent s = Some r).

(** All rates, by whole percents and hundredths. *)
Lemma all_rates_round_trip :
  forallb (fun w => forallb (fun f =>
      let r := 100 * Z.of_nat w + Z.of_nat f in (MAX_RATE_BPS <? r) || rate_round_trips r)
    (seq 0 100)) (seq 0 101) = true.
Proof. vm_compute. reflexivity. Qed.

Lemma parse_rate_percent_range s r :
  parse_rate_percent s = Some r -> 0 <= r <= MAX_RATE_BPS.
Proof.
  unfold parse_rate_percent. destruct (match_rate s) as [[whole dec]|] eqn:Hm; [|done].
  case_match eqn:Hgt; [done|]. intros <-%(inj Some). apply Z.ltb_ge in Hgt. split; [|done].
  assert (Hd : str_forallb is_ascii_digit whole = true /\ str_forallb is_ascii_digit dec = true).
  { unfold match_rate in Hm. repeat case_match; simplify_eq; bool_to_prop;
      split; try done; by apply all_digits_forallb. }
  destruct Hd as [Hw Hd].
  pose proof (digits_value_nonneg 0 whole ltac:(lia) Hw).
  assert (Hf : str_forallb is_ascii_digit (str_take 2 (dec +:+ "00")) = true).
  { apply str_forallb_take. by rewrite str_forallb_app, Hd. }
  pose proof (digits_value_nonneg 0 _ ltac:(lia) Hf). lia.
Qed.

(** Every rate within 0..100% is displayed in a form that the operator's
    notation reads back as exactly that rate, and nothing the operator may type
    is read as a rate outside these bounds. *)
Theorem rate_percent_round_trip r :
  (0 <= r <= MAX_RATE_BPS ->
   exists s, format_rate_percent r = s +:+ "%" /\ parse_rate_percent s = Some r) /\
  (forall s, parse_rate_percent s = Some r -> 0 <= r <= MAX_RATE_BPS).
Proof.
  split; [|exact (fun s => parse_rate_percent_range s r)].
  intros Hr. exists (without_last (format_rate_percent r)).
  pose proof (proj1 (forallb_forall _ _) all_rates_round_trip (Z.to_nat (r / 100))) as H.
  cbv beta in H. rewrite forallb_forall in H.
  specialize (fun Hw Hf => H Hw (Z.to_nat (r mod 100)) Hf). cbv zeta in H.
  assert (Hdiv : 100 * Z.of_nat (Z.to_nat (r / 100)) + Z.of_nat (Z.to_nat (r mod 100)) = r).
  { pose proof (Z.mod_pos_bound r 100). rewrite !Z2Nat.id; [|lia|apply Z.div_pos; lia].
    symmetry. apply Z.div_mod. lia. }
  rewrite Hdiv in H. assert (Hgt : (MAX_RATE_BPS <? r) = false) by (apply Z.ltb_ge; lia).
  rewrite Hgt in H. unfold MAX_RATE_BPS in Hr. unfold rate_round_trips in H.
  pose proof (Z.mod_pos_bound r 100). pose proof (Z.div_le_upper_bound r 100 100).
  pose proof (Z.div_pos r 100).
  cbn [orb] in H. lapply H; [clear H; intros H; lapply H; [clear H; intros H|]|].
  - by bool_to_prop.
  - apply in_seq. lia.
  - apply in_seq. lia.
Qed.

Lemma rate_percent_round_trip_witness :
  (0 <= 225 <= MAX_RATE_BPS) /\
  exists s, format_rate_percent 225 = s +:+ "%" /\ parse_rate_percent s = Some 225.
Proof. split; [unfold MAX_RATE_BPS; lia|]. apply (proj1 (rate_percent_round_trip 225)). unfold MAX_RATE_BPS; lia. Defined.
(** ** Policy selection *)

Lemma newer_total a b : newer a b = true \/ newer b a = true.
Proof.
  unfold newer. destruct (Z.lt_total (effective_at a) (effective_at b)) as [H|[H|H]].
  - right. by rewrite (proj2 (Z.ltb_lt _ _) H).
  - rewrite H, Z.ltb_irrefl, Z.eqb_refl. cbn.
    destruct (Z.le_ge_cases (policy_id b) (policy_id a)); [left|right]; by apply Z.leb_le.
  - left. by rewrite (proj2 (Z.ltb_lt _ _) H).
Qed.

Lemma newer_spec a b :
  newer a b = true <->
  effective_at b < effective_at a \/
  (effective_at a = effective_at b /\ policy_id b <= policy_id a).
Proof. unfold newer. rewrite orb_true_iff, andb_true_iff, Z.ltb_lt, Z.eqb_eq, Z.leb_le. done. Qed.

Lemma newer_trans a b c : newer a b = true -> newer b c = true -> newer a c = true.
Proof. rewrite !newer_spec. lia. Qed.

(** The policy in force: an uncancelled row that has taken effect, no other
    such row being later, or equally late with a higher id. *)
Definition in_force (now : Z) (t : gmap Z FeePolicy) (r : FeePolicy) : Prop :=
  (exists k, t !! k = Some r) /\ effective_at_now now r = true /\
  forall k s, t !! k = Some s -> effective_at_now now s = true -> newer r s = true.

Lemma in_force_unique now t r s :
  keyed policy_id t -> in_force now t r -> in_force now t s -> r = s.
Proof.
  intros Hk ((kr & Hr) & Ar & Mr) ((ks & Hs) & As & Ms).
  specialize (Mr _ _ Hs As). specialize (Ms _ _ Hr Ar).
  rewrite newer_spec in Mr, Ms. assert (kr = ks); [|congruence].
  rewrite <- (Hk _ _ Hr), <- (Hk _ _ Hs). lia.
Qed.

Lemma effective_policy_Some now t r :
  effective_policy now t = Some r -> in_force now t r.
Proof.
  unfold effective_policy. intros H.
  pose proof (pick_min_In _ _ _ H) as Hin. apply filter_In in Hin as [Hin Ha].
  apply in_rows in Hin. split_and!; [done..|].
  intros k s Hs Hact. eapply (pick_min_least newer newer_total newer_trans); [exact H|].
  apply filter_In. split; [|done]. apply in_rows. eauto.
Qed.

Lemma effective_policy_None now t :
  effective_policy now t = None <->
  forall k r, t !! k = Some r -> effective_at_now now r = false.
Proof.
  unfold effective_policy. rewrite pick_min_None. split.
  - intros H k r Hr. apply not_true_iff_false. intros Ha.
    assert (Hin : In r (List.filter (effective_at_now now) (rows t)))
      by (apply filter_In; split; [apply in_rows; eauto | done]).
    by rewrite H in Hin.
  - intros H. destruct (List.filter _ _) as [|r l] eqn:E; [done|].
    assert (Hin : In r (List.filter (effective_at_now now) (rows t))) by (rewrite E; by left).
    apply filter_In in Hin as [[k Hk]%in_rows Ha]. by rewrite (H _ _ Hk) in Ha.
Qed.

(** Selection is deterministic and exact: the selected policy is in force,
    and a policy in force is the one selected. *)
Theorem effective_policy_correct now t r :
  keyed policy_id t -> effective_policy now t = Some r <-> in_force now t r.
Proof.
  intros Hk. split; [apply effective_policy_Some|]. intros Hr.
  destruct (effective_policy now t) as [s|] eqn:E.
  - f_equal. apply effective_policy_Some in E. by eapply in_force_unique.
  - destruct Hr as ((k & Hr) & Ha & _). by rewrite (proj1 (effective_policy_None _ _) E _ _ Hr) in Ha.
Qed.

Definition sample_policy (i rate eff : Z) : FeePolicy :=
  mkFeePolicy i rate eff "op" "note" None None None.
Definition sample_policies : gmap Z FeePolicy :=
  <[2 := sample_policy 2 500 200]> (<[1 := sample_policy 1 1000 100]> ∅).

Lemma sample_policies_keyed : keyed policy_id sample_policies.
Proof.
  intros k x. unfold sample_policies. rewrite !lookup_insert.
  repeat case_decide; intros; simplify_eq; done.
Qed.

Lemma effective_policy_correct_witness :
  keyed policy_id sample_policies /\
  (effective_policy 150 sample_policies = Some (sample_policy 1 1000 100) <->
   in_force 150 sample_policies (sample_policy 1 1000 100)).
Proof.
  split; [apply sample_policies_keyed|].
  apply (effective_policy_correct 150 sample_policies). apply sample_policies_keyed.
Defined.

Lemma validate_note_inv n w r w' :
  validate_note n w = (r, w') -> w' = w /\ (r = Ret (strip n) \/ exists e, r = Raise e).
Proof. unfold validate_note. intros H. repeat case_match; inversion H; eauto. Qed.

Section PolicyChanges.
Context `{Env}.

(** The table after a cancellation that returned. *)
Lemma cancel_policy_Ret pid actor n now w r w' :
  cancel_policy pid actor n now w = (Ret r, w') ->
  exists p, fee_policies (working w) !! pid = Some p /\ cancelled_at p = None /\
    now < effective_at p /\
    r = p <| cancelled_at := Some now |> <| cancelled_by := Some actor |>
          <| cancellation_note := Some (strip n) |> /\
    fee_policies (working w') = <[pid := r]> (fee_policies (working w)).
Proof.
  unfold cancel_policy, bind at 1. destruct (validate_note n w) as [[n'|e] w1] eqn:Hn; [|done].
  apply validate_note_inv in Hn as [-> [[= ->]|[? [=]]]].
  unfold get_db, bind at 1. destruct (fee_policies (working w) !! pid) as [p|] eqn:Hp; [|done].
  destruct (is_some _) eqn:Hc; [done|]. destruct (effective_at p <=? now) eqn:He; [done|].
  bool_to_prop. unfold put_db, bind at 1.
  match goal with |- bind (record_event ?a ?b ?c ?d) _ ?w1 = _ -> _ =>
    destruct (record_event_frame a b c d w1) as (w2 & Hrun & Hau) end.
  rewrite (bind_ret_eq _ _ _ _ _ Hrun). intros [= <- <-].
  exists p. split_and!; try done. by rewrite (au_policies _ _ _ Hau).
Qed.

(** Cancelling a scheduled policy is never a hidden fee change: at every
    instant up to the cancellation time the policy in force is the one that
    was in force before. *)
Theorem cancel_policy_keeps_current_rate pid actor n now w r w' t :
  keyed policy_id (fee_policies (working w)) ->
  cancel_policy pid actor n now w = (Ret r, w') -> t <= now ->
  effective_policy t (fee_policies (working w'))
  = effective_policy t (fee_policies (working w)).
Proof.
  intros Hk Hrun Ht. apply cancel_policy_Ret in Hrun as (p & Hp & Hc & He & Hr & ->).
  assert (Hnot : effective_at_now t p = false /\ effective_at_now t r = false).
  { unfold effective_at_now. rewrite Hr. cbn. rewrite Hc. cbn.
    rewrite (proj2 (Z.leb_gt _ _)) by lia. done. }
  assert (Hk' : keyed policy_id (<[pid := r]> (fee_policies (working w)))).
  { intros k x. rewrite lookup_insert. case_decide; [|apply Hk].
    intros [= <-]. subst. exact (Hk _ _ Hp). }
  assert (Hsame : forall k s, effective_at_now t s = true ->
            <[pid := r]> (fee_policies (working w)) !! k = Some s
            <-> fee_policies (working w) !! k = Some s).
  { intros k s Hs. rewrite lookup_insert. case_decide; [|done]. subst k.
    split; intros Hx; [|rewrite Hp in Hx]; injection Hx as <-; destruct Hnot; congruence. }
  apply option_eq. intros s. rewrite !effective_policy_correct by done.
  unfold in_force. split; intros ((k & Hin) & Ha & Hmax); (split_and!; [|done|]).
  - exists k. by apply Hsame.
  - intros k' s' Hs' Ha'. apply (Hmax k'); [by apply Hsame|done].
  - exists k. by apply Hsame.
  - intros k' s' Hs' Ha'. apply (Hmax k'); [by apply Hsame|done].
Qed.

(** A policy created to take effect no earlier than every uncancelled
    policy is, from that moment until a later one, the policy in force. *)
Theorem create_policy_takes_effect rate eff actor n sched w r w' t :
  keyed policy_id (fee_policies (working w)) ->
  create_policy rate eff true actor n sched w = (Ret r, w') ->
  eff <= t ->
  (forall k s, fee_policies (working w) !! k = Some s -> effective_at_now t s = true ->
     effective_at s <= eff) ->
  0 <= rate <= MAX_RATE_BPS /\ rate_bps r = rate /\
  effective_policy t (fee_policies (working w')) = Some r.
Proof.
  unfold create_policy. intros Hk Hrun Ht Hlast.
  destruct (negb _) eqn:Hrate; [done|]. cbn [negb] in Hrun. bool_to_prop.
  unfold bind at 1 in Hrun. destruct (validate_note n w) as [[n'|e] w1] eqn:Hn; [|done].
  apply validate_note_inv in Hn as [-> _]. unfold get_db, put_db, bind at 1 2 in Hrun.
  match type of Hrun with bind (record_event ?a ?b ?c ?d) _ ?w1 = _ =>
    destruct (record_event_frame a b c d w1) as (w2 & Hev & Hau) end.
  rewrite (bind_ret_eq _ _ _ _ _ Hev) in Hrun. injection Hrun as <- <-.
  split; [done|]. split; [done|]. rewrite (au_policies _ _ _ Hau). cbn.
  set (t0 := fee_policies (working w)) in *. set (p := mkFeePolicy _ _ _ _ _ _ _ _).
  assert (Hk' : keyed policy_id (<[next_id t0 := p]> t0)).
  { intros k x. rewrite lookup_insert. case_decide; [|apply Hk]. by intros [= <-]. }
  apply effective_policy_correct; [done|]. split; [|split].
  - exists (next_id t0). by rewrite lookup_insert_eq.
  - unfold effective_at_now. cbn. rewrite (proj2 (Z.leb_le _ _)) by lia. done.
  - intros k s. rewrite lookup_insert. case_decide.
    + intros [= <-] _. by destruct (newer_total p p).
    + intros Hs Ha. apply newer_spec. specialize (Hlast _ _ Hs Ha). cbn.
      pose proof (next_id_above _ _ _ Hs). rewrite (Hk _ _ Hs). fold t0. lia.
Qed.
End PolicyChanges.

Definition scheduled_policies : gmap Z FeePolicy := <[3 := sample_policy 3 700 500]> sample_policies.

Lemma scheduled_policies_keyed : keyed policy_id scheduled_policies.
Proof.
  intros k x. unfold scheduled_policies. rewrite lookup_insert. case_decide.
  - intros [= <-]. done.
  - apply sample_policies_keyed.
Qed.

Definition policies_world : World := world_of (empty_db <| fee_policies := scheduled_policies |>).

Lemma cancel_policy_keeps_current_rate_witness :
  exists r w', cancel_policy 3 "op" "postponed" 300 policies_world = (Ret r, w') /\
    effective_policy 300 (fee_policies (working w'))
    = effective_policy 300 (fee_policies (working policies_world)).
Proof.
  eexists _, _. split; [vm_compute; reflexivity|].
  eapply (cancel_policy_keeps_current_rate 3 "op" "postponed" 300 policies_world).
  - exact scheduled_policies_keyed.
  - vm_compute. reflexivity.
  - lia.
Defined.

Lemma create_policy_takes_effect_witness :
  exists r w', create_policy 250 400 true "op" "new rate" false policies_world = (Ret r, w') /\
    (0 <= 250 <= MAX_RATE_BPS /\ rate_bps r = 250 /\
     effective_policy 450 (fee_policies (working w')) = Some r).
Proof.
  eexists _, _. split; [vm_compute; reflexivity|].
  eapply (create_policy_takes_effect 250 400 "op" "new rate" false policies_world).
  - exact scheduled_policies_keyed.
  - vm_compute. reflexivity.
  - lia.
  - intros k s Hs Ha.
    change (scheduled_policies !! k = Some s) in Hs. unfold scheduled_policies, sample_policies in Hs.
    rewrite !lookup_insert in Hs. repeat case_decide; simplify_eq; try done; cbn; lia.
Defined.
