(* ===== verification/Payments.v ===== *)
(** Payment creation ([app/services/payments.py]): idempotent per bot order id,
    one payment row, one isolated payer, at most one live link.

    Every transaction of [create_payment] but the first starts with
    [begin_tx], so that other sessions may commit in between. The object of a
    row just inserted is dropped from the identity map when
    [_ensure_payment_row] returns ([forget]): the map holds its objects
    weakly, and no reference to it is left. *)

From S2P Require Import Prelude PyText Crypto Exceptions Config Models ServiceTables Identity Session.
From S2P Require Import AuditTrail Ledger Urls CentralPay Security PayerIdentity Fees.

Definition CREATE_ERROR_MAX_LENGTH : nat := 500.

Definition linked_status (s : PaymentStatus) : bool :=
  match s with
  | LINK_CREATED | GATEWAY_VERIFIED | BOT_NOTIFY_PENDING | BOT_NOTIFY_ACCEPTED | MANUAL_REVIEW => true
  | CREATED | GETLINK_FAILED => false
  end.

Definition GATEWAY_ORDER_ID_MIN : Z := 10 ^ 11.
Definition GATEWAY_ORDER_ID_SPAN : Z := 9 * 10 ^ 11.
Definition GATEWAY_ORDER_ID_ATTEMPTS : nat := 5.

Inductive Decision := REUSE | ADOPT | REJECT.

#[export] Instance Decision_eq_dec : EqDecision Decision.
Proof. solve_decision. Defined.

(** [_reconcile_identity]. *)
Definition reconcile_identity (p : Payment) (requested : IdentityType) (payer : PayerIdentity)
    (has_live_link : bool) : Decision :=
  match payer_identity_id p with
  | None => if has_live_link then REUSE else ADOPT
  | Some existing =>
      if existing =? payer_id payer then REUSE
      else
        match payer_identity_type p, requested with
        | None, _ => if has_live_link then REUSE else ADOPT
        | Some TELEGRAM_USER, ORDER_FALLBACK => REUSE
        | Some ORDER_FALLBACK, TELEGRAM_USER => if has_live_link then REUSE else ADOPT
        | _, _ => REJECT
        end
  end.

Definition for_order (oid : string) (q : Payment) : bool := String.eqb (bot_order_id q) oid.

Definition requested_type (telegram_user_id : option Z) : IdentityType :=
  match telegram_user_id with Some _ => TELEGRAM_USER | None => ORDER_FALLBACK end.

Definition order_key (oid : string) (telegram_user_id : option Z) : string :=
  match telegram_user_id with
  | Some t => telegram_identity_key t
  | None => order_identity_key oid
  end.

(** The identity test of [find_safe_replay_redirect_url]. *)
Definition identity_matches (p : Payment) (telegram_user_id : option Z) : bool :=
  match telegram_user_id with
  | Some t => bool_decide (payer_identity_type p = Some TELEGRAM_USER) && (gateway_user_id p =? t)
  | None => bool_decide (payer_identity_type p = Some ORDER_FALLBACK)
  end.

(** Dropping the last reference to the object of a row. *)
Definition forget (i : Z) : M unit := fun w =>
  (Ret tt, w <| identity_map := delete i (identity_map w) |>).

Section Creation.
Context `{Env} `{UrlLib}.

(** [_generate_gateway_order_id]. *)
Fixpoint generate_gateway_order_id (attempts : nat) : M Z :=
  match attempts with
  | O => raise_error GatewayOrderIdAllocationError
  | S attempts' =>
      let* draw := tick (fun n => randbelow n GATEWAY_ORDER_ID_SPAN) in
      let candidate := GATEWAY_ORDER_ID_MIN + draw in
      let* d := get_db in
      match payments_where (fun q => gateway_order_id q =? candidate) d with
      | [] => ret candidate
      | _ => generate_gateway_order_id attempts'
      end
  end.

(** The fresh row of [_ensure_payment_row]. *)
Definition new_payment (oid : string) (gateway_order : Z) (payer : PayerIdentity)
    (itype : IdentityType) (amt : Z) (policy : option FeePolicy) (fee payable now i : Z) : Payment :=
  mkPayment i oid gateway_order (payer_gateway_user_id payer) (Some (payer_id payer)) (Some itype)
    (Some (payer_version payer)) amt (option_map policy_id policy)
    (match policy with Some r => rate_bps r | None => 0 end) fee payable CREATED
    None None None None None None None None None None None None None None None 0 None None None
    None None None None None 0 None None None None None now.

(** The last part of [_ensure_payment_row]: the row and its two events. *)
Definition insert_payment_row (mk : Z -> Payment) : M bool :=
  let* inserted := try_catch
    (let* p := insert_payment mk in ret (Some p))
    (fun e => match e with IntegrityError => ret None | _ => raise e end) in
  match inserted with
  | None => rollback ;;; ret false
  | Some p =>
      record_event (Some (id p)) "payment_created" "info"
        [("bot_order_id", JStr (bot_order_id p)); ("gateway_order_id", JInt (gateway_order_id p));
         ("original_amount", JInt (amount p)); ("fee_rate_bps", JInt (fee_rate_bps p));
         ("fee_amount", JInt (fee_amount p)); ("payable_amount", JInt (payable_amount p))] ;;;
      record_event (Some (id p)) "payment_fee_snapshotted" "info"
        [("fee_policy_id", json_of_option JInt (fee_policy_id p));
         ("fee_rate_bps", JInt (fee_rate_bps p)); ("original_amount", JInt (amount p));
         ("fee_amount", JInt (fee_amount p)); ("payable_amount", JInt (payable_amount p))] ;;;
      commit ;;;
      forget (id p) ;;;
      ret true
  end.

(** [_ensure_payment_row]. *)
Definition ensure_payment_row (settings : Settings) (oid : string) (amt : Z)
    (identity_key : string) (itype : IdentityType) (telegram_user_id : option Z)
  : M (option PayerIdentity) :=
  let* d := get_db in
  rollback ;;;
  match payments_where (for_order oid) d with
  | _ :: _ => ret None
  | [] =>
      begin_tx ;;;
      let* now := utcnow in
      let* policy := select_effective_policy now in
      let rate := match policy with Some r => rate_bps r | None => 0 end in
      match calculate_fee amt rate with
      | None => raise (ValueError "fee input out of range")
      | Some (fee, payable) =>
          if max_payment_amount_toman settings <? payable then
            rollback ;;;
            raise (Bridge (bridge_error PayableAmountOutOfRangeError (Some
              ("Payable amount " +:+ str_of_int payable +:+ " TOMAN (original " +:+ str_of_int amt
               +:+ " + fee " +:+ str_of_int fee +:+ ") exceeds the maximum "
               +:+ str_of_int (max_payment_amount_toman settings) +:+ " TOMAN"))))
          else
            let* payer := resolve_payer_identity (centralpay_payer_id_secret settings) identity_key
                            telegram_user_id (centralpay_user_id settings) in
            begin_tx ;;;
            let* gateway_order := generate_gateway_order_id GATEWAY_ORDER_ID_ATTEMPTS in
            let* created := utcnow in
            let* mine := insert_payment_row
              (new_payment oid gateway_order payer itype amt policy fee payable created) in
            ret (if (mine : bool) then Some payer else None)
      end
  end.

(** [find_safe_replay_redirect_url]. *)
Definition find_safe_replay_redirect_url (oid : string) (amt : Z) (telegram_user_id : option Z)
  : M (option string) :=
  let* found := select_payment false (for_order oid) in
  rollback ;;;
  ret match found with
      | None => None
      | Some p =>
          match redirect_url p with
          | Some url =>
              if negb (bool_decide (status p = LINK_CREATED)) || String.eqb url "" then None
              else if negb (amount p =? amt) then None
              else if negb (identity_matches p telegram_user_id) then None
              else Some url
          | None => None
          end
      end.

(** The identity of a request for an existing row: [None] when the stored
    mapping is the same identity under the retired scheme. *)
Definition stored_key_hash (oid : string) (d : Db) : option string :=
  match payments_where (for_order oid) d with
  | p :: _ =>
      match payer_identity_id p with
      | Some i => option_map customer_key_hash (payer_identities d !! i)
      | None => None
      end
  | [] => None
  end.

Definition resolve_for_existing (settings : Settings) (oid identity_key : string)
    (telegram_user_id : option Z) : M (option PayerIdentity) :=
  begin_tx ;;;
  let* d := get_db in
  rollback ;;;
  if bool_decide (stored_key_hash oid d = Some (historical_identity_key_hash
                    (centralpay_payer_id_secret settings) identity_key))
  then ret None
  else
    begin_tx ;;;
    let* payer := resolve_payer_identity (centralpay_payer_id_secret settings) identity_key
                    telegram_user_id (centralpay_user_id settings) in
    ret (Some payer).

(** The adoption of a resolved identity by a row without a link. *)
Definition adopt_identity (p : Payment) (payer : PayerIdentity) (itype : IdentityType) : M Payment :=
  let* p := upd p (fun r => r <| gateway_user_id := payer_gateway_user_id payer |>
                              <| payer_identity_id := Some (payer_id payer) |>
                              <| payer_identity_type := Some itype |>
                              <| payer_derivation_version := Some (payer_version payer) |>) in
  record_event (Some (id p)) "payment_payer_identity_adopted" "info"
    [("payer_identity_id", JInt (payer_id payer));
     ("identity_scheme", JStr (identity_scheme_value (payer_scheme payer)));
     ("derivation_version", JInt (payer_version payer));
     ("identity_type", JStr (identity_type_value itype))] ;;;
  ret p.

(** The [except CentralPayError] branch of link creation. *)
Definition link_failed (p : Payment) (e : BridgeError) : M unit :=
  let reason := str_take CREATE_ERROR_MAX_LENGTH (message e) in
  let* p := upd p (fun r => r <| status := GETLINK_FAILED |> <| last_error := Some reason |>) in
  record_event (Some (id p)) "centralpay_getlink_failed" "error"
    [("gateway_order_id", JInt (gateway_order_id p));
     ("error_code", JStr (error_code (error_class e))); ("reason", JStr reason)] ;;;
  commit.

(** Link creation, the row locked throughout: the token, the request and its
    outcome ([request_link]), after the order id of a failed attempt was
    replaced. *)
Definition request_link (settings : Settings) (p : Payment) : M string :=
  let* token := generate_callback_token in
  let* p := upd p (fun r => r <| callback_token_hash_col := Some (callback_token_hash token) |>) in
  let return_url := build_callback_url settings (gateway_order_id p) token in
  let* url := try_catch
    (get_link (centralpay_getlink_api_key settings) (payable_amount p) (gateway_user_id p)
       (gateway_order_id p) return_url)
    (fun e =>
       match e with
       | Bridge b =>
           if is_CentralPayError (error_class b) then link_failed p b ;;; raise e else raise e
       | _ => raise e
       end) in
  let* now := utcnow in
  let* p := upd p (fun r => r <| callback_token_issued_at := Some now |>
                              <| status := LINK_CREATED |> <| redirect_url := Some url |>
                              <| last_error := None |>) in
  record_event (Some (id p)) "payment_link_created" "info"
    [("gateway_order_id", JInt (gateway_order_id p)); ("original_amount", JInt (amount p));
     ("fee_rate_bps", JInt (fee_rate_bps p)); ("fee_amount", JInt (fee_amount p));
     ("payable_amount", JInt (payable_amount p))] ;;;
  commit ;;;
  ret url.

Definition issue_link (settings : Settings) (p : Payment) : M string :=
  let* p := (if bool_decide (status p = GETLINK_FAILED)
             then let* g := generate_gateway_order_id GATEWAY_ORDER_ID_ATTEMPTS in
                  upd p (fun r => r <| gateway_order_id := g |>)
             else ret p) in
  request_link settings p.

Definition has_live_link (p : Payment) : bool :=
  is_some (redirect_url p) || is_some (gateway_verified_at p) || linked_status (status p).

Definition decide_identity (p : Payment) (itype : IdentityType) (payer : option PayerIdentity)
  : Decision :=
  match payer with
  | None => REUSE
  | Some payer => reconcile_identity p itype payer (has_live_link p)
  end.

(** The part of [create_payment] under the row lock. *)
Definition act_on_locked_row (settings : Settings) (amt : Z) (itype : IdentityType)
    (payer : option PayerIdentity) (p : Payment) : M string :=
  let decision := decide_identity p itype payer in
  if bool_decide (decision = REJECT) then
    record_event (Some (id p)) "duplicate_order_customer_mismatch" "warning"
      [("existing_payer_identity_id", json_of_option JInt (payer_identity_id p));
       ("existing_payer_identity_type",
         json_of_option (fun t => JStr (identity_type_value t)) (payer_identity_type p));
       ("requested_payer_identity_id", json_of_option (fun q => JInt (payer_id q)) payer);
       ("requested_payer_identity_type", JStr (identity_type_value itype))] ;;;
    commit ;;;
    raise_error DuplicateOrderCustomerMismatchError
  else if negb (amount p =? amt) then
    record_event (Some (id p)) "duplicate_order_amount_mismatch" "warning"
      [("existing_amount", JInt (amount p)); ("requested_amount", JInt amt)] ;;;
    commit ;;;
    raise_error DuplicateOrderAmountMismatchError
  else if is_some (gateway_verified_at p) ||
          match status p with
          | GATEWAY_VERIFIED | BOT_NOTIFY_PENDING | BOT_NOTIFY_ACCEPTED => true
          | _ => false
          end then
    rollback ;;; raise_error OrderAlreadyVerifiedError
  else if bool_decide (status p = MANUAL_REVIEW) then
    rollback ;;; raise_error OrderUnderReviewError
  else if bool_decide (status p = LINK_CREATED) && live_link p then
    rollback ;;; ret (match redirect_url p with Some url => url | None => "" end)
  else
    let* p := match decision, payer with
              | ADOPT, Some payer => adopt_identity p payer itype
              | _, _ => ret p
              end in
    issue_link settings p.

Definition create_payment (settings : Settings) (oid : string) (amt : Z)
    (telegram_user_id : option Z) : M string :=
  let key := order_key oid telegram_user_id in
  let itype := requested_type telegram_user_id in
  let* created := ensure_payment_row settings oid amt key itype telegram_user_id in
  let* payer := match created with
                | Some payer => ret (Some payer)
                | None => resolve_for_existing settings oid key telegram_user_id
                end in
  begin_tx ;;;
  let* found := select_payment false (for_order oid) in
  match found with
  | None => raise (Bridge (bridge_error GatewayOrderIdAllocationError
                             (Some "payment row disappeared during creation")))
  | Some p => act_on_locked_row settings amt itype payer p
  end.
End Creation.

(** ** Facts *)

(** A row whose link can still be issued: unverified, not under review, and
    without a live link. *)
Record awaits_link (p : Payment) : Prop := {
  aw_link : live_link p = false;
  aw_open : gateway_verified_at p = None;
  aw_status : match status p with CREATED | GETLINK_FAILED => True | _ => False end
}.

(** The columns link creation may write. *)
Definition link_columns_only (p p' : Payment) : Prop :=
  financial_snapshot p' = financial_snapshot p /\ verification_fact p' = verification_fact p /\
  match status p' with
  | CREATED | GETLINK_FAILED => redirect_url p' = redirect_url p
  | LINK_CREATED => live_link p' = true
  | _ => False
  end /\
  (telegram_payer p = true -> payer_fact p' = payer_fact p).

Lemma link_columns_legal p p' : awaits_link p -> link_columns_only p p' -> row_legal p p'.
Proof.
  intros [Hl Ho Hs] (Es & Ev & Hst & Hp).
  unfold financial_snapshot, verification_fact in Es, Ev. simplify_eq.
  split; [split|].
  - unfold financial_snapshot. congruence.
  - congruence.
  - by rewrite Ho.
  - intros E. by rewrite E in Hs.
  - intros E. by rewrite E in Hs.
  - done.
  - rewrite !row_ok_spec. unfold live_link in *. intros (A1 & A2 & A3 & A4 & A5).
    repeat match goal with E : _ p' = _ p |- _ => rewrite ?E; clear E end.
    destruct (status p'); try done; cbn; rewrite ?Hst, ?Hl, ?Ho in *; cbn in *; intuition congruence.
Qed.

Lemma link_columns_awaits p p' : awaits_link p -> link_columns_only p p' ->
  redirect_url p' = redirect_url p -> awaits_link p'.
Proof.
  intros [Hl Ho Hs] (Es & Ev & Hst & _) Er. unfold verification_fact in Ev.
  assert (El : live_link p' = false) by (unfold live_link in *; by rewrite Er).
  split; [done|congruence|]. destruct (status p'); try done. congruence.
Qed.

(** The request for the link of [row], whose callback carries [token]. *)
Definition link_request_body (settings : Settings) (row : Payment) (token : string) : dict :=
  link_body (centralpay_getlink_api_key settings) (payable_amount row) (gateway_user_id row)
    (gateway_order_id row) (build_callback_url settings (gateway_order_id row) token).

Definition link_request (settings : Settings) (row : Payment) (token : string) : ExternalCall :=
  GatewayPost "getLink.php" (link_request_body settings row token).

(** The row as the request is sent: the gateway order id of a failed attempt
    replaced, a fresh one-time token stored as its hash. *)
Definition prepared (row : Payment) (g : Z) (token : string) : Payment :=
  row <| gateway_order_id := g |> <| callback_token_hash_col := Some (callback_token_hash token) |>.

Definition with_link (row : Payment) (url : string) (now : Z) : Payment :=
  row <| callback_token_issued_at := Some now |> <| status := LINK_CREATED |>
      <| redirect_url := Some url |> <| last_error := None |>.

Definition without_link (row : Payment) (e : BridgeError) : Payment :=
  row <| status := GETLINK_FAILED |>
      <| last_error := Some (str_take CREATE_ERROR_MAX_LENGTH (message e)) |>.

(** The gateway order id an attempt uses: the stored one, or an unused one
    after a failed attempt. *)
Definition attempt_order_id (row : Payment) (m : gmap Z Payment) (g : Z) : Prop :=
  if bool_decide (status row = GETLINK_FAILED)
  then forall i q, m !! i = Some q -> gateway_order_id q <> g
  else g = gateway_order_id row.

Section CreationFacts.
Context {ENV : Env} {URL : UrlLib} {RELY : Rely}.

Definition allocation_failure : Exn := Bridge (bridge_error GatewayOrderIdAllocationError None).

Lemma wp_generate_order_id n (Q : Res Z -> World -> Prop) w :
  (forall g w', called [] w w' ->
     (forall i q, payments (working w) !! i = Some q -> gateway_order_id q <> g) -> Q (Ret g) w') ->
  (forall w', called [] w w' -> Q (Raise allocation_failure) w') ->
  wp (generate_gateway_order_id n) Q w.
Proof.
  revert w. induction n as [|n IH]; intros w Hret Hfail; cbn [generate_gateway_order_id].
  { apply wp_raise, Hfail, called_refl. }
  do 4 wp_step. set (g := _ + _).
  destruct (payments_where _ _) as [|q l] eqn:E.
  - apply wp_ret, Hret; [done|]. intros i q Hi Hg.
    assert (Hin : In q []); [|done]. rewrite <- E. apply filter_In.
    split; [apply in_rows; exists i; by ws|]. rewrite Hg. apply Z.eqb_refl.
  - apply IH.
    + intros g' w2 C Hu. apply Hret.
      * exact (called_trans _ _ _ _ _ H C).
      * intros i p Hi. apply (Hu i). by ws.
    + intros w2 C. apply Hfail. exact (called_trans _ _ _ _ _ H C).
Qed.

(** An assignment to a row that is its own object. *)
Lemma holding_self w0 w1 cs es row w f w' : holding w0 w1 cs es row row w -> updated row f w w' ->
  awaits_link row -> link_columns_only row (f row) ->
  own_value gateway_key (payments (working w)) (id row) row (f row) ->
  holding w0 w1 cs es (f row) (f row) w'.
Proof.
  intros HO U Ha Hc Hg. apply (holding_credited w0 w1 HO f w' U); [by apply link_columns_legal|done|].
  split; [left|done]. destruct Hc as (_ & Hv & _). unfold verification_fact in Hv. congruence.
Qed.

(** ** The contract of [act_on_locked_row]

    [link_attempt settings m row0 row es0 r cs es row']: what issuing a link
    comes to for the row [row0] of the table [m], which this transaction
    already changed to [row], recording [es0]: the answer, the requests, and
    the business events and the row that are committed. *)
Inductive link_attempt (settings : Settings) (m : gmap Z Payment) (row0 row : Payment)
    (es0 : list string)
  : Res string -> list ExternalCall -> list string -> Payment -> Prop :=
| link_unallocated :
    status row = GETLINK_FAILED ->
    link_attempt settings m row0 row es0 (Raise allocation_failure) [] [] row0
| link_issued g token now url n :
    attempt_order_id row (<[id row := row]> m) g ->
    link_answer (gateway_post n "getLink.php" (link_request_body settings (prepared row g token) token))
      = Ret url ->
    link_attempt settings m row0 row es0 (Ret url)
      [link_request settings (prepared row g token) token]
      ("payment_link_created" :: es0) (with_link (prepared row g token) url now)
| link_refused g token e :
    attempt_order_id row (<[id row := row]> m) g -> is_CentralPayError (error_class e) = true ->
    link_attempt settings m row0 row es0 (Raise (Bridge e))
      [link_request settings (prepared row g token) token]
      ("centralpay_getlink_failed" :: es0) (without_link (prepared row g token) e)
| link_crashed g token cls :
    attempt_order_id row (<[id row := row]> m) g ->
    link_attempt settings m row0 row es0 (Raise (Unexpected cls))
      [link_request settings (prepared row g token) token] [] row0.

(** The locked row [row] became [row'] in the committed database. *)
Record concluded (w0 w1 : World) (cs : list ExternalCall) (es : list string) (row : Payment)
    (w : World) : Prop := {
  cl_steady : steady w0 w;
  cl_payments : payments (committed w) = <[id row := row]> (payments (committed w1));
  cl_calls : calls w = cs ++ calls w1;
  cl_trail : trail (committed w) = es ++ trail (committed w1)
}.

Lemma settled_concluded w0 w1 cs es row w : committed w1 = working w1 ->
  settled w0 w1 cs es row w -> concluded w0 w1 cs es row w.
Proof. intros Hc [S E P C T]. split; [done| |done|]; by rewrite Hc. Qed.

Lemma holding_concluded w0 w1 cs es p row row0 w : committed w1 = working w1 ->
  payments (working w1) !! id row0 = Some row0 ->
  holding w0 w1 cs es p row w -> concluded w0 w1 cs [] row0 w.
Proof.
  intros Hc Hr [S K P C T E]. split; rewrite ?E; try done.
  by rewrite Hc, insert_id.
Qed.

Lemma wp_link_answered settings w0 w1 es p token w :
  holding w0 w1 [link_request settings p token] es p p w -> awaits_link p ->
  committed w1 = working w1 ->
  forall url, url <> "" -> wp
     (let* now := utcnow in
      let* p := upd p (fun r => with_link r url now) in
      record_event (Some (id p)) "payment_link_created" "info"
        [("gateway_order_id", JInt (gateway_order_id p)); ("original_amount", JInt (amount p));
         ("fee_rate_bps", JInt (fee_rate_bps p)); ("fee_amount", JInt (fee_amount p));
         ("payable_amount", JInt (payable_amount p))] ;;;
      commit ;;;
      ret url)
    (fun r w' => r = Ret url /\ exists now, concluded w0 w1 [link_request settings p token]
       ("payment_link_created" :: es) (with_link p url now) w') w.
Proof.
  intros HO Ha Hc url Hne. do 2 hold_step. apply wp_bind, wp_upd. intros ? U.
  eapply holding_self in U; [|exact HO|done| |by left]; cycle 1.
  { split_and!; [done|done| |done]. apply negb_true_iff. by apply String.eqb_neq. } clear HO. rename U into HO.
  do 4 hold_step. apply wp_ret. split; [done|]. eexists. by apply settled_concluded.
Qed.

Lemma wp_link_failed settings w0 w1 es p token e w :
  holding w0 w1 [link_request settings p token] es p p w -> awaits_link p ->
  committed w1 = working w1 ->
  wp (link_failed p e) (fun r w' => r = Ret tt /\ concluded w0 w1 [link_request settings p token]
    ("centralpay_getlink_failed" :: es) (without_link p e) w') w.
Proof.
  intros HO Ha Hc. unfold link_failed. apply wp_bind, wp_upd. intros ? U.
  eapply holding_self in U; [|exact HO|done|by split|by left]. clear HO. rename U into HO.
  do 3 hold_step. split; [done|]. by apply settled_concluded.
Qed.

Lemma prepared_columns p g token : awaits_link p -> link_columns_only p (prepared p g token).
Proof.
  intros Ha. split_and!; [done|done| |done]. pose proof (aw_status p Ha). cbn. by destruct (status p).
Qed.

Lemma order_id_columns p g : awaits_link p -> link_columns_only p (p <| gateway_order_id := g |>).
Proof. intros Ha. exact (prepared_columns p g "" Ha). Qed.

Lemma order_id_awaits p g : awaits_link p -> awaits_link (p <| gateway_order_id := g |>).
Proof. intros Ha. by eapply link_columns_awaits; [|by apply order_id_columns|]. Qed.

(** What the answer of [issue_link] comes to, from any state it can be in. *)
Definition attempted settings w0 w1 row0 p es (r : Res string) (w' : World) : Prop :=
  exists cs es' row', link_attempt settings (payments (working w1)) row0 p es r cs es' row' /\
    concluded w0 w1 cs es' row' w'.

Lemma wp_request_link settings w0 w1 row0 es p g w :
  holding w0 w1 [] es (p <| gateway_order_id := g |>) (p <| gateway_order_id := g |>) w ->
  awaits_link p -> attempt_order_id p (<[id p := p]> (payments (working w1))) g ->
  committed w1 = working w1 -> payments (working w1) !! id row0 = Some row0 ->
  wp (request_link settings (p <| gateway_order_id := g |>)) (attempted settings w0 w1 row0 p es) w.
Proof.
  intros HO Ha Hg Hc Hr0. unfold request_link, generate_callback_token.
  apply wp_bind, wp_tick. intros w2 C. generalize (token_hex (ticks w)). intros token.
  apply (holding_called w0 w1 HO) in C. clear dependent w. rename C into HO.
  apply wp_bind, wp_upd. intros w3 U. pose proof (prepared_columns p g token Ha) as Hcols.
  assert (Ha' : awaits_link (prepared p g token)) by (by eapply link_columns_awaits).
  eapply holding_self in U; [|exact HO|by apply order_id_awaits|exact Hcols|by left].
  clear HO. rename U into HO.
  change ((fun r => r <| callback_token_hash_col := Some (callback_token_hash token) |>)
            (p <| gateway_order_id := g |>)) with (prepared p g token) in *.
  set (p2 := prepared p g token) in *.
  apply wp_bind, wp_try, wp_get_link. intros w4 C.
  apply (holding_called w0 w1 HO) in C. clear HO. rename C into HO.
  change (holding w0 w1 [link_request settings p2 token] es p2 p2 w4) in HO.
  fold (link_request_body settings p2 token).
  destruct (link_answer _) as [url|e] eqn:E.
  - eapply wp_mono; [exact (wp_link_answered settings w0 w1 es p2 token w4 HO Ha' Hc url
      (link_answer_nonempty _ _ E))|].
    intros r w5 (-> & now & Hcl). do 3 eexists. split; [by eapply link_issued|done].
  - apply link_answer_error in E as [(cls & -> & _)|(b & -> & Hb)].
    + apply wp_raise. do 3 eexists. split; [by eapply link_crashed|].
      by eapply holding_concluded.
    + rewrite Hb. apply wp_bind.
      eapply wp_mono; [exact (wp_link_failed settings w0 w1 es p2 token b w4 HO Ha' Hc)|].
      intros r w5 (-> & Hcl). apply wp_raise. do 3 eexists. split; [by eapply link_refused|done].
Qed.

Lemma wp_issue_link settings w0 w1 row0 es p w :
  holding w0 w1 [] es p p w -> awaits_link p -> committed w1 = working w1 ->
  payments (working w1) !! id row0 = Some row0 ->
  wp (issue_link settings p) (attempted settings w0 w1 row0 p es) w.
Proof.
  intros HO Ha Hc Hr0. unfold issue_link. apply wp_bind.
  destruct (bool_decide (status p = GETLINK_FAILED)) eqn:Ef.
  - apply wp_bind, wp_generate_order_id.
    + intros g w2 C Hg. apply wp_upd. intros w3 U.
      eapply holding_self in U; [|exact (holding_called w0 w1 HO [] w2 C)|done| |].
      * apply wp_request_link; try done. unfold attempt_order_id. rewrite Ef. intros i q Hi.
        apply (Hg i). by rewrite (ho_payments _ _ _ _ _ _ _ HO).
      * by apply order_id_columns.
      * right. cbn. intros i q Hi [= E]. rewrite (ca_working _ _ _ C) in Hi. by destruct (Hg i q Hi).
    + intros w2 C. do 3 eexists. bool_to_prop. split; [by apply link_unallocated|].
      eapply holding_concluded; [done|done|exact (holding_called w0 w1 HO [] w2 C)].
  - apply wp_ret.
    assert (Ep : p <| gateway_order_id := gateway_order_id p |> = p) by (by destruct p).
    rewrite <- Ep at 1. apply wp_request_link; try done; [by rewrite Ep|].
    unfold attempt_order_id. by rewrite Ef.
Qed.

(** The row as link creation starts, and the event of an adoption. *)
Definition adopted (row : Payment) (payer : PayerIdentity) (itype : IdentityType) : Payment :=
  row <| gateway_user_id := payer_gateway_user_id payer |>
      <| payer_identity_id := Some (payer_id payer) |>
      <| payer_identity_type := Some itype |>
      <| payer_derivation_version := Some (payer_version payer) |>.

Definition identified (decision : Decision) (payer : option PayerIdentity) (itype : IdentityType)
    (row : Payment) : Payment * list string :=
  match decision, payer with
  | ADOPT, Some payer => (adopted row payer itype, ["payment_payer_identity_adopted"])
  | _, _ => (row, [])
  end.

Definition verified_row (row : Payment) : bool :=
  is_some (gateway_verified_at row) ||
  match status row with
  | GATEWAY_VERIFIED | BOT_NOTIFY_PENDING | BOT_NOTIFY_ACCEPTED => true
  | _ => false
  end.

(** [acts settings amt itype payer m row r cs es row']: the decision for the
    locked row [row] of the table [m]. *)
Inductive acts (settings : Settings) (amt : Z) (itype : IdentityType) (payer : option PayerIdentity)
    (m : gmap Z Payment) (row : Payment)
  : Res string -> list ExternalCall -> list string -> Payment -> Prop :=
| acts_other_customer :
    decide_identity row itype payer = REJECT ->
    acts settings amt itype payer m row
      (Raise (Bridge (bridge_error DuplicateOrderCustomerMismatchError None))) []
      ["duplicate_order_customer_mismatch"] row
| acts_other_amount :
    decide_identity row itype payer <> REJECT -> amount row <> amt ->
    acts settings amt itype payer m row
      (Raise (Bridge (bridge_error DuplicateOrderAmountMismatchError None))) []
      ["duplicate_order_amount_mismatch"] row
| acts_verified :
    decide_identity row itype payer <> REJECT -> amount row = amt -> verified_row row = true ->
    acts settings amt itype payer m row
      (Raise (Bridge (bridge_error OrderAlreadyVerifiedError None))) [] [] row
| acts_review :
    decide_identity row itype payer <> REJECT -> amount row = amt -> verified_row row = false ->
    status row = MANUAL_REVIEW ->
    acts settings amt itype payer m row
      (Raise (Bridge (bridge_error OrderUnderReviewError None))) [] [] row
| acts_replay url :
    decide_identity row itype payer <> REJECT -> amount row = amt ->
    gateway_verified_at row = None -> status row = LINK_CREATED -> url <> "" ->
    redirect_url row = Some url ->
    acts settings amt itype payer m row (Ret url) [] [] row
| acts_link r cs es row' :
    decide_identity row itype payer <> REJECT -> amount row = amt -> awaits_link row ->
    let start := identified (decide_identity row itype payer) payer itype row in
    link_attempt settings m row (fst start) (snd start) r cs es row' ->
    acts settings amt itype payer m row r cs es row'.

Lemma adopted_awaits row payer itype : awaits_link row -> awaits_link (adopted row payer itype).
Proof. by intros []. Qed.

Lemma adopted_columns row payer itype : awaits_link row ->
  decide_identity row itype (Some payer) = ADOPT ->
  link_columns_only row (adopted row payer itype).
Proof.
  intros [_ _ Hs] Hd. split_and!; [done|done| |].
  - cbn. by destruct (status row).
  - unfold telegram_payer. cbn in Hd. unfold reconcile_identity in Hd. intros Ht.
    by repeat case_match.
Qed.

Definition acted settings amt itype payer w0 w1 row (r : Res string) (w' : World) : Prop :=
  exists cs es row', acts settings amt itype payer (payments (working w1)) row r cs es row' /\
    concluded w0 w1 cs es row' w'.

(** A row that reaches link creation awaits its link. *)
Lemma reaches_link row : row_ok row = true -> verified_row row = false ->
  status row <> MANUAL_REVIEW -> bool_decide (status row = LINK_CREATED) && live_link row = false ->
  awaits_link row.
Proof.
  unfold verified_row. rewrite row_ok_spec. intros (_ & _ & [Hl Hc] & _) [Hv Hs]%orb_false_iff Hm Hn.
  destruct (gateway_verified_at row) eqn:Eg; [done|].
  assert (Hn' : status row <> LINK_CREATED).
  { intros E. rewrite (Hc E), andb_true_r in Hn. by bool_to_prop. }
  split; [|done|].
  - apply not_true_iff_false. intros Hlive. specialize (Hl Hlive). by destruct (status row).
  - by destruct (status row).
Qed.

Lemma wp_act_on_locked_row settings amt itype payer w0 w1 p w :
  holding w0 w1 [] [] p p w -> committed w1 = working w1 ->
  payments (working w1) !! id p = Some p ->
  wp (act_on_locked_row settings amt itype payer p) (acted settings amt itype payer w0 w1 p) w.
Proof.
  intros HO Hc Hr. unfold act_on_locked_row.
  destruct (bool_decide (decide_identity p itype payer = REJECT)) eqn:Ed; bool_to_prop.
  { do 4 hold_step. apply wp_raise. do 3 eexists. split; [by apply acts_other_customer|].
    by apply settled_concluded. }
  destruct (negb (amount p =? amt)) eqn:Ea; bool_to_prop.
  { do 4 hold_step. apply wp_raise. do 3 eexists. split; [by apply acts_other_amount|].
    by apply settled_concluded. }
  assert (Hroll : forall w', did_rollback w w' -> concluded w0 w1 [] [] p w').
  { intros w' R. destruct (holding_rollback w0 w1 HO w' R) as (S & E & _ & C).
    split; [done| |done|by rewrite E]. rewrite E, Hc. by rewrite insert_id. }
  fold (verified_row p). destruct (verified_row p) eqn:Ev.
  { do 2 wp_step. apply wp_raise. do 3 eexists. split; [by apply acts_verified|]. by apply Hroll. }
  destruct (bool_decide (status p = MANUAL_REVIEW)) eqn:Em; bool_to_prop.
  { do 2 wp_step. apply wp_raise. do 3 eexists. split; [by apply acts_review|]. by apply Hroll. }
  destruct (bool_decide (status p = LINK_CREATED) && live_link p) eqn:El.
  { do 3 wp_step. apply andb_true_iff in El as [Es El]. unfold live_link in El.
    destruct (redirect_url p) as [url|] eqn:Eu; [|done].
    unfold verified_row in Ev. bool_to_prop.
    do 3 eexists. split; [|by apply Hroll]. by apply acts_replay. }
  pose proof (reaches_link p (holding_row_ok w0 w1 HO) Ev Em El) as Ha.
  set (start := identified (decide_identity p itype payer) payer itype p).
  apply wp_bind. eapply wp_mono.
  - instantiate (1 := fun r w' => r = Ret (fst start) /\ holding w0 w1 [] (snd start) (fst start) (fst start) w').
    unfold start, identified.
    destruct (decide_identity p itype payer) eqn:Eadopt, payer as [q|]; try (by apply wp_ret; split).
    unfold adopt_identity. apply wp_bind, wp_upd. intros w2 U.
    eapply holding_self in U; [|exact HO|done|exact (adopted_columns p q itype Ha Eadopt)|by left].
    clear HO. rename U into HO. do 2 hold_step. by apply wp_ret; split.
  - intros r w2 [-> HO2]. cbv beta iota.
    assert (Hst : awaits_link (fst start)).
    { unfold start, identified. destruct (decide_identity p itype payer), payer; try done. by apply adopted_awaits. }
    eapply wp_mono; [apply (wp_issue_link settings w0 w1 p _ _ _ HO2 Hst Hc Hr)|].
    intros r w3 (cs & es & row' & HA & HC). exists cs, es, row'. split; [|done]. by apply acts_link.
Qed.

(** ** Inserting the row *)

Record payment_added (p : Payment) (w w' : World) : Prop := {
  pa_committed : committed w' = committed w;
  pa_payments : payments (working w') = <[id p := p]> (payments (working w));
  pa_fresh : payments (working w) !! id p = None;
  pa_unique : violates_unique p (working w) = false;
  pa_events : payment_events (working w') = payment_events (working w);
  pa_service : service_tables (working w') = service_tables (working w);
  pa_identities : payer_identities (working w') = payer_identities (working w);
  pa_map : identity_map w' = <[id p := p]> (identity_map w);
  pa_calls : calls w' = calls w
}.

Lemma wp_insert_payment mk (Q : Res Payment -> World -> Prop) w :
  (forall i, id (mk i) = i) ->
  (forall w', payment_added (mk (next_id (payments (working w)))) w w' ->
     Q (Ret (mk (next_id (payments (working w))))) w') ->
  Q (Raise IntegrityError) w ->
  wp (insert_payment mk) Q w.
Proof.
  intros Hid Hok Hno. unfold insert_payment. apply wp_bind, wp_get_db.
  destruct (violates_unique _ _) eqn:E; [by apply wp_raise|].
  apply Hok. split; try done. rewrite Hid. apply next_id_fresh.
Qed.

Lemma unique_order_free p d : violates_unique p d = false ->
  forall i q, payments d !! i = Some q -> bot_order_id q <> bot_order_id p.
Proof.
  intros H i q Hi E. apply not_true_iff_false in H. apply H. unfold violates_unique.
  apply existsb_exists. exists q. split; [apply in_rows; eauto|].
  rewrite E, String.eqb_refl. done.
Qed.

Lemma unique_gateway_free p d : violates_unique p d = false ->
  forall i q, payments d !! i = Some q -> gateway_order_id q <> gateway_order_id p.
Proof.
  intros H i q Hi E. apply not_true_iff_false in H. apply H. unfold violates_unique.
  apply existsb_exists. exists q. split; [apply in_rows; eauto|].
  by rewrite E, Z.eqb_refl, orb_true_r.
Qed.

Lemma born_reference p : born p -> reference_id p = None.
Proof.
  intros (Hok & Hv & _). apply row_ok_spec in Hok as [Hr _]. rewrite Hv in Hr.
  by destruct (reference_id p).
Qed.

Lemma steady_payment_added p w w' : payment_added p w w' -> sound w -> born p -> steady w w'.
Proof.
  intros A [Hok Hl Hm] Hb.
  assert (L : db_legal (working w) (working w')).
  { split.
    - rewrite (pa_payments _ _ _ A). intros i q Hq. exists q. split; [|reflexivity].
      rewrite lookup_insert_ne; [done|]. intros <-. by rewrite (pa_fresh _ _ _ A) in Hq.
    - rewrite (pa_payments _ _ _ A). intros i q Hn. rewrite lookup_insert.
      case_decide; [intros [= <-]|congruence]. by exists p.
    - exists []. apply (pa_events _ _ _ A).
    - by rewrite (pa_identities _ _ _ A).
    - by rewrite (pa_identities _ _ _ A).
    - rewrite (pa_payments _ _ _ A). intros U i j q r. rewrite !lookup_insert.
      pose proof (unique_order_free _ _ (pa_unique _ _ _ A)) as Hf.
      repeat case_decide; subst; intros Hq Hr E; simplify_eq; try done.
      + by destruct (Hf j r Hr).
      + by destruct (Hf i q Hq).
      + by apply (U i j q r).
    - rewrite (pa_payments _ _ _ A). intros U i j x y v. rewrite !lookup_insert.
      pose proof (born_reference _ Hb) as Hn.
      repeat case_decide; subst; intros Hx Hy; simplify_eq; try congruence. by apply (U i j x y).
    - rewrite (pa_payments _ _ _ A). intros U i j x y v. rewrite !lookup_insert.
      pose proof (unique_gateway_free _ _ (pa_unique _ _ _ A)) as Hf. unfold gateway_key.
      repeat case_decide; subst; intros Hx Hy [= Ex] [= Ey]; simplify_eq; try done.
      + by destruct (Hf j y Hy).
      + by destruct (Hf i x Hx).
      + apply (U i j x y (gateway_order_id x)); unfold gateway_key; congruence.
    - apply same_service_legal, (pa_service _ _ _ A). }
  unfold steady. rewrite (pa_committed _ _ _ A). split; [split|reflexivity].
  - by rewrite (pa_committed _ _ _ A).
  - rewrite (pa_committed _ _ _ A). by transitivity (working w).
  - rewrite (pa_map _ _ _ A), (pa_payments _ _ _ A). intros i o. rewrite !lookup_insert.
    case_decide; [intros [= <-]; by exists p|apply Hm].
Qed.

Lemma wp_forget i (Q : Res unit -> World -> Prop) w :
  (forall w', committed w' = committed w -> working w' = working w -> calls w' = calls w ->
     identity_map w' = delete i (identity_map w) -> Q (Ret tt) w') -> wp (forget i) Q w.
Proof. intros HQ. by apply HQ. Qed.

Lemma steady_forgot i w w' : committed w' = committed w -> working w' = working w ->
  identity_map w' = delete i (identity_map w) -> sound w -> steady w w'.
Proof.
  intros E1 E2 E3 [Hok Hl Hm]. unfold steady. rewrite E1. split; [split|reflexivity].
  - by rewrite E1.
  - by rewrite E1, E2.
  - rewrite E2, E3. intros j o [_ Ho]%lookup_delete_Some. eauto.
Qed.

(** The row was inserted and committed, or another session was faster. *)
Definition row_inserted (mk : Z -> Payment) (w : World) (r : Res bool) (w' : World) : Prop :=
  between w w' /\
  match r with
  | Ret true => exists i, payments (committed w) !! i = None /\
      payments (committed w') = <[i := mk i]> (payments (committed w)) /\
      payer_identities (committed w') = payer_identities (committed w) /\
      violates_unique (mk i) (committed w) = false /\
      trail (committed w') = ["payment_fee_snapshotted"; "payment_created"] ++ trail (committed w)
  | Ret false => committed w' = committed w
  | Raise _ => False
  end.

Lemma wp_insert_payment_row mk w :
  (forall i, id (mk i) = i) -> (forall i, born (mk i)) -> sound w -> committed w = working w ->
  identity_map w = ∅ ->
  wp (insert_payment_row mk) (row_inserted mk w) w.
Proof.
  intros Hid Hb Hs Hc Hm. unfold insert_payment_row. apply wp_bind, wp_try, wp_bind.
  apply wp_insert_payment; [done| |].
  - intros w1 A. apply wp_ret. set (p := mk _) in *.
    pose proof (steady_payment_added _ _ _ A Hs (Hb _)) as S1.
    wp_step. wp_step. pose proof (steady_audited _ _ _ H (proj1 S1)) as S2.
    wp_step. wp_step. pose proof (steady_audited _ _ _ H0 (proj1 S2)) as S3.
    wp_step. wp_step. pose proof (steady_commit _ _ H1 (proj1 S3)) as S4.
    apply wp_bind, wp_forget. intros w5 E1 E2 E3 E4. pose proof (steady_forgot _ _ _ E1 E2 E4 (proj1 S4)) as S5.
    apply wp_ret. split.
    + split_and!.
      * by eapply steady_trans, steady_trans, steady_trans, steady_trans.
      * rewrite E1, E2. by ws.
      * rewrite E3. ws. apply (pa_calls _ _ _ A).
      * intros _. rewrite E4. ws. rewrite (pa_map _ _ _ A), Hm. by rewrite insert_empty, delete_singleton_eq.
    + exists (next_id (payments (working w))). fold p. rewrite E1, Hc. ws.
      rewrite (pa_payments _ _ _ A), (pa_identities _ _ _ A). unfold trail. ws.
      rewrite (pa_events _ _ _ A). replace (id p) with (next_id (payments (working w))) by (symmetry; apply Hid).
      split_and!; [apply next_id_fresh|done|done|apply A|done].
  - apply wp_ret. do 3 wp_step. split; [by apply between_rollback|]. by ws.
Qed.

(** ** Creating the row *)

Lemma begin_then_run {A} (m : M A) (P : Res A -> World -> Prop) w :
  sound w -> committed w = working w ->
  (forall w1, between w w1 -> (exists n, committed w1 = others n (committed w)) -> wp m P w1) ->
  wp (begin_tx ;;; m) P w.
Proof.
  intros Hs Hc Hm. do 2 wp_step. apply Hm; [by apply between_began|]. apply (bg_committed _ _ H).
Qed.

(** The terms a new payment is priced under: the policy in force in the
    database of one transaction, at one reading of the clock. *)
Definition priced (settings : Settings) (amt : Z) (d : Db) (policy : option FeePolicy)
    (fee payable : Z) : Prop :=
  (exists now, policy = effective_policy now (fee_policies d)) /\
  calculate_fee amt (match policy with Some r => rate_bps r | None => 0 end) = Some (fee, payable) /\
  payable <= max_payment_amount_toman settings.

(** The mapping of [payer] is stored under the hash of the requested key. *)
Definition mapped settings key telegram (payer : PayerIdentity) (d : Db) : Prop :=
  exists i m, payer_identities d !! i = Some m /\ payer = as_identity m /\
    customer_key_hash m
      = identity_key_hash (centralpay_payer_id_secret settings) (requested_key key telegram).

Lemma mapped_legal settings key telegram payer d d' : db_legal d d' ->
  mapped settings key telegram payer d -> mapped settings key telegram payer d'.
Proof. intros L (i & m & Hi & Hm). exists i, m. split; [by apply (le_identities _ _ L)|done]. Qed.

(** [row] was added by this call, at the state [d] of the database. *)
Definition created_row settings oid amt key itype telegram (payer : PayerIdentity) (w : World)
    (row : Payment) (w' : World) : Prop :=
  exists n policy fee payable g now d,
    priced settings amt (others n (committed w)) policy fee payable /\
    row = new_payment oid g payer itype amt policy fee payable now (id row) /\
    payments d !! id row = None /\ violates_unique row d = false /\
    payments (committed w') = <[id row := row]> (payments d) /\
    mapped settings key telegram payer (committed w').

Definition order_known (oid : string) (d : Db) : Prop :=
  exists i row, payments d !! i = Some row /\ bot_order_id row = oid.

Definition out_of_range (e : Exn) : Prop :=
  exists b, e = Bridge b /\ error_class b = PayableAmountOutOfRangeError.

Definition unpriceable (settings : Settings) (amt : Z) (e : Exn) (d : Db) : Prop :=
  exists now, let rate := match effective_policy now (fee_policies d) with
                          | Some r => rate_bps r | None => 0 end in
  match calculate_fee amt rate with
  | None => exists msg, e = ValueError msg
  | Some (_, payable) => out_of_range e /\ max_payment_amount_toman settings < payable
  end.

Definition ensured settings oid amt key itype telegram w (r : Res (option PayerIdentity))
    (w' : World) : Prop :=
  between w w' /\ identity_map w' = ∅ /\
  match r with
  | Ret None => order_known oid (working w) -> committed w' = committed w
  | Ret (Some payer) => ~ order_known oid (working w) /\
      exists row, created_row settings oid amt key itype telegram payer w row w'
  | Raise e =>
      ~ order_known oid (working w) /\
      (identity_failure e \/ e = allocation_failure \/
       exists n, committed w' = others n (committed w) /\ unpriceable settings amt e (committed w'))
  end.

Lemma new_payment_born oid g payer itype amt policy fee payable now i :
  calculate_fee amt (match policy with Some r => rate_bps r | None => 0 end) = Some (fee, payable) ->
  born (new_payment oid g payer itype amt policy fee payable now i).
Proof.
  intros (Ha & Hr & -> & ->)%calculate_fee_Some. split; [|done]. apply row_ok_spec.
  unfold MAX_RATE_BPS in Hr. cbn. split_and!; try done; try lia.
  apply Z.div_pos; nia.
Qed.

Lemma between_called w w' : called [] w w' -> sound w -> committed w = working w -> between w w'.
Proof.
  intros C Hs Hc. split_and!; [by eapply steady_called|by ws|by ws|by ws].
Qed.

Lemma wp_create_row settings oid amt key itype telegram w w3 n policy fee payable payer :
  between w w3 -> identity_map w3 = ∅ -> ~ order_known oid (working w) ->
  priced settings amt (others n (committed w)) policy fee payable ->
  mapped settings key telegram payer (committed w3) ->
  wp (begin_tx ;;;
      let* gateway_order := generate_gateway_order_id GATEWAY_ORDER_ID_ATTEMPTS in
      let* created := utcnow in
      let* mine := insert_payment_row
        (new_payment oid gateway_order payer itype amt policy fee payable created) in
      ret (if (mine : bool) then Some payer else None))
    (ensured settings oid amt key itype telegram w) w3.
Proof.
  intros B03 M3 Hnew Hp Hmap. pose proof (proj1 (proj2 Hp)) as Ef.
  apply begin_then_run; [apply B03|apply B03|]. intros w4 B4 _.
  pose proof (between_trans _ _ _ B03 B4) as B04. pose proof (proj2 (proj2 (proj2 B4)) M3) as M4.
  apply wp_bind, wp_generate_order_id.
  - intros g w5 C5 _. pose proof (between_called _ _ C5 (proj1 (proj1 B4)) (proj1 (proj2 B4))) as B5.
    pose proof (between_trans _ _ _ B04 B5) as B05. pose proof (proj2 (proj2 (proj2 B5)) M4) as M5.
    do 2 wp_step. pose proof (between_called _ _ H (proj1 (proj1 B5)) (proj1 (proj2 B5))) as B6.
    pose proof (between_trans _ _ _ B05 B6) as B06. pose proof (proj2 (proj2 (proj2 B6)) M5) as M6.
    apply wp_bind. eapply wp_mono.
    + apply wp_insert_payment_row; [done| |apply B6|apply B6|done].
      intros i. by apply new_payment_born.
    + intros r w7 [B7 Hr]. pose proof (between_trans _ _ _ B06 B7) as B07.
      pose proof (proj2 (proj2 (proj2 B7)) M6) as M7.
      destruct r as [[]|]; [| |done]; apply wp_ret; split_and!; try done.
      destruct Hr as (i & Hi & Ep & Eid & Hu & _).
      eexists (new_payment oid g payer itype amt policy fee payable t i).
      exists n, policy, fee, payable, g, t, (committed w').
      split_and!; try done.
      apply (mapped_legal settings key telegram payer (committed w3)); [|done].
      eapply db_legal_preorder; [apply B4|]. eapply db_legal_preorder; [apply B5|].
      eapply db_legal_preorder; [apply B6|]. apply B7.
  - intros w5 C5. pose proof (between_called _ _ C5 (proj1 (proj1 B4)) (proj1 (proj2 B4))) as B5.
    split; [by eapply between_trans|]. split; [by apply B5|]. split; [done|]. right. by left.
Qed.

Lemma wp_ensure settings oid amt key itype telegram w :
  sound w -> committed w = working w ->
  wp (ensure_payment_row settings oid amt key itype telegram)
    (ensured settings oid amt key itype telegram w) w.
Proof.
  intros Hs Hc. unfold ensure_payment_row. do 4 wp_step.
  pose proof (between_rollback _ _ H Hs) as B0. pose proof (rb_map _ _ H) as M0.
  pose proof (rb_committed _ _ H) as E0.
  destruct (payments_where (for_order oid) (working w)) as [|q l] eqn:Eq; cycle 1.
  { apply wp_ret. by split_and!. }
  assert (Hnew : ~ order_known oid (working w)).
  { intros (i & row & Hi & Ho). assert (In row []); [|done]. rewrite <- Eq. apply filter_In.
    split; [apply in_rows; eauto|]. unfold for_order. rewrite Ho. apply String.eqb_refl. }
  clear H. apply begin_then_run; [apply B0|apply B0|]. intros w1 B1 [n En]. rewrite E0 in En.
  pose proof (between_trans _ _ _ B0 B1) as B01. pose proof (proj2 (proj2 (proj2 B1)) M0) as M1.
  do 2 wp_step. unfold select_effective_policy. do 4 wp_step.
  assert (E2 : committed w'0 = others n (committed w)) by (by rewrite (ca_committed _ _ _ H)).
  assert (B2 : between w w'0).
  { eapply between_trans; [exact B01|]. split_and!; [|ws; apply B01|by ws|by ws].
    eapply steady_called; [exact H|apply B01]. }
  assert (M2 : identity_map w'0 = ∅) by (by ws).
  rewrite <- (proj1 (proj2 B2)), E2. set (policy := effective_policy t _).
  destruct (calculate_fee amt _) as [[fee payable]|] eqn:Ef; cycle 1.
  { apply wp_raise. split_and!; [done..|]. right. right. exists n. split; [done|].
    exists t. cbv zeta. rewrite E2. fold policy. rewrite Ef. eauto. }
  destruct (max_payment_amount_toman settings <? payable) eqn:Emax; bool_to_prop.
  { do 2 wp_step. pose proof (between_rollback _ _ H0 (proj1 (proj1 B2))) as B3. apply wp_raise.
    split_and!; [by eapply between_trans|apply H0|done|].
    right. right. exists n. rewrite (rb_committed _ _ H0), E2. split; [done|].
    exists t. cbv zeta. fold policy. rewrite Ef. split; [eexists; by split|done]. }
  apply wp_bind. eapply wp_mono; [apply wp_resolve; [apply B2|apply B2]|].
  intros r w3 [B3 Hr]. pose proof (between_trans _ _ _ B2 B3) as B03.
  pose proof (proj2 (proj2 (proj2 B3)) M2) as M3.
  destruct r as [payer|e]; [|split_and!; [done..|by left]].
  apply wp_create_row with (n := n); try done.
  - split; [by exists t|done].
  - destruct Hr as (i & row & Hi & He & Hh & _). exists i, row. by split_and!.
Qed.

(** ** The whole request *)

Lemma wp_resolve_for_existing settings oid key telegram w :
  sound w -> committed w = working w ->
  wp (resolve_for_existing settings oid key telegram) (fun r w' =>
    between w w' /\
    match r with
    | Ret None => exists n, stored_key_hash oid (others n (committed w))
        = Some (historical_identity_key_hash (centralpay_payer_id_secret settings) key)
    | Ret (Some payer) => mapped settings key telegram payer (committed w')
    | Raise e => identity_failure e
    end) w.
Proof.
  intros Hs Hc. unfold resolve_for_existing. apply begin_then_run; [done..|].
  intros w1 B1 [n En]. do 4 wp_step. pose proof (between_rollback _ _ H (proj1 (proj1 B1))) as B2.
  pose proof (between_trans _ _ _ B1 B2) as B12.
  destruct (bool_decide _) eqn:Eh; bool_to_prop.
  { apply wp_ret. split; [done|]. exists n. by rewrite <- En, (proj1 (proj2 B1)). }
  apply begin_then_run; [apply B2|apply B2|]. intros w3 B3 _.
  pose proof (between_trans _ _ _ B12 B3) as B13.
  apply wp_bind. eapply wp_mono; [apply wp_resolve; [apply B3|apply B3]|].
  intros r w4 [B4 Hr]. pose proof (between_trans _ _ _ B13 B4) as B14.
  destruct r as [payer|e]; [|by split]. apply wp_ret. split; [done|].
  destruct Hr as (i & row & Hi & He & Hh & _). exists i, row. by split_and!.
Qed.

(** Where the payer a decision is taken for comes from. *)
Definition payer_known settings oid telegram (payer : option PayerIdentity) (w w1 : World) : Prop :=
  match payer with
  | Some q => mapped settings (order_key oid telegram) telegram q (committed w1)
  | None => exists d, db_legal (committed w) d /\ stored_key_hash oid d
      = Some (historical_identity_key_hash (centralpay_payer_id_secret settings) (order_key oid telegram))
  end.

(** How a request for a link may end. *)
Inductive creation settings oid amt telegram (w : World) (r : Res string) (w' : World) : Prop :=
| creation_refused : between w w' -> (forall url, r <> Ret url) ->
    creation settings oid amt telegram w r w'
| creation_decided w1 payer row :
    between w w1 -> payments (working w1) !! id row = Some row -> bot_order_id row = oid ->
    payer_known settings oid telegram payer w w1 ->
    acted settings amt (requested_type telegram) payer w w1 row r w' ->
    creation settings oid amt telegram w r w'.

Lemma requested_order_key oid telegram :
  requested_key (order_key oid telegram) telegram = order_key oid telegram.
Proof. by destruct telegram. Qed.

(** The part under the lock. *)
Lemma wp_decide settings oid amt telegram payer w w2 :
  between w w2 -> identity_map w2 = ∅ -> payer_known settings oid telegram payer w w2 ->
  wp (begin_tx ;;;
      let* found := select_payment false (for_order oid) in
      match found with
      | None => raise (Bridge (bridge_error GatewayOrderIdAllocationError
                                 (Some "payment row disappeared during creation")))
      | Some p => act_on_locked_row settings amt (requested_type telegram) payer p
      end) (creation settings oid amt telegram w) w2.
Proof.
  intros B2 M2 Hp. apply begin_then_run; [apply B2|apply B2|]. intros w3 B3 _.
  pose proof (between_trans _ _ _ B2 B3) as B13. pose proof (proj2 (proj2 (proj2 B3)) M2) as M3.
  apply wp_bind, wp_select_payment; [apply (ok_keyed _ (so_working w3 (proj1 (proj1 B3))))| |].
  { intros _. apply wp_raise. by apply creation_refused. }
  intros row w4 Hr Hf A. apply String.eqb_eq in Hf.
  assert (Eo : object_of w3 false row = row) by (unfold object_of; by rewrite M3, lookup_empty).
  pose proof (holding_start w w3 false _ row w4 (proj1 B13) Hr A) as HO. rewrite Eo in *.
  eapply wp_mono; [apply (wp_act_on_locked_row _ amt (requested_type telegram) payer w w3); try done; apply B3|].
  intros r w5 HA. eapply creation_decided; try done.
  destruct payer as [q|]; [|done]. eapply mapped_legal; [apply B3|done].
Qed.

Lemma wp_create_payment settings oid amt telegram w :
  sound w -> committed w = working w ->
  wp (create_payment settings oid amt telegram) (creation settings oid amt telegram w) w.
Proof.
  intros Hs Hc. unfold create_payment. apply wp_bind.
  eapply wp_mono; [by apply wp_ensure|]. intros r w1 (B1 & M1 & Hr).
  destruct r as [[payer|]|e]; [| |by apply creation_refused].
  - apply wp_bind, wp_ret. apply wp_decide; try done.
    destruct Hr as (_ & row & n & policy & fee & payable & g & now & d & _ & _ & _ & _ & _ & Hm). done.
  - apply wp_bind. eapply wp_mono; [apply wp_resolve_for_existing; apply B1|].
    intros r w2 [B2 Hp]. pose proof (between_trans _ _ _ B1 B2) as B12.
    pose proof (proj2 (proj2 (proj2 B2)) M1) as M2.
    destruct r as [payer|e]; [|by apply creation_refused].
    apply wp_decide; try done. destruct payer as [q|]; [done|]. destruct Hp as [n En].
    exists (others n (committed w1)). split; [|done].
    transitivity (committed w1); [apply B1|apply others_legal, so_ok, B1].
Qed.

(** ** Properties *)

Lemma link_attempt_calls settings m row0 row es0 r cs es row' :
  link_attempt settings m row0 row es0 r cs es row' ->
  financial_snapshot row = financial_snapshot row0 ->
  financial_snapshot row' = financial_snapshot row0 /\
  (cs = [] \/ exists sent token, cs = [link_request settings sent token] /\
     financial_snapshot sent = financial_snapshot row0).
Proof.
  intros H E. destruct H; split; try done; try (by left);
    right; eexists (prepared row g token), token; by split.
Qed.

Lemma acts_calls settings amt itype payer m row r cs es row' :
  acts settings amt itype payer m row r cs es row' ->
  financial_snapshot row' = financial_snapshot row /\
  (cs = [] \/ exists sent token, cs = [link_request settings sent token] /\ amount row = amt /\
     financial_snapshot sent = financial_snapshot row).
Proof.
  intros H. destruct H as [| | | | |r cs es row' _ Ha _ start L]; try (split; [done|by left]).
  destruct (link_attempt_calls _ _ _ _ _ _ _ _ _ L) as [E Hc].
  { unfold start, identified. by destruct (decide_identity row itype payer), payer. }
  split; [done|]. destruct Hc as [->|(sent & token & -> & Es)]; [by left|right; eauto].
Qed.

(** C3: A request for a payment link sends at most one request to the gateway,
    whatever fails and whatever other sessions commit meanwhile. That request
    asks for the payable amount frozen in the payment's row, which is the
    requested amount plus the row's fee, and for nothing else; and the
    database it leaves behind differs from the one it found by legal changes
    only: no financial snapshot, no issued link, no recorded verification and
    no established payer is altered. *)
Theorem create_payment_requests_exact_amount settings oid amt telegram w :
  sound w -> committed w = working w ->
  wp (create_payment settings oid amt telegram) (fun _ w' =>
    db_legal (committed w) (committed w') /\ db_ok (committed w') /\
    (calls w' = calls w \/ exists row row' token,
       calls w' = link_request settings row token :: calls w /\
       payments (committed w') !! id row = Some row' /\
       financial_snapshot row = financial_snapshot row' /\
       bot_order_id row' = oid /\ amount row' = amt /\
       payable_amount row = amt + fee_amount row')) w.
Proof.
  intros Hs Hc. eapply wp_mono; [by apply wp_create_payment|].
  intros r w' [B _|w1 payer row B Hr Ho _ (cs & es & row' & HA & HC)].
  - split_and!; [apply B|apply (so_ok _ (proj1 (proj1 B)))|left; apply B].
  - split_and!; [apply HC|apply (so_ok _ (proj1 (cl_steady _ _ _ _ _ _ HC)))|].
    rewrite (cl_calls _ _ _ _ _ _ HC), (proj1 (proj2 (proj2 B))).
    destruct (acts_calls _ _ _ _ _ _ _ _ _ _ HA) as [E [->|(sent & token & -> & Ha & Es)]]; [by left|].
    right. exists sent, row', token.
    assert (Hrow : payments (committed w') !! id row' = Some row').
    { rewrite (cl_payments _ _ _ _ _ _ HC). apply lookup_insert_eq. }
    assert (Hok : row_ok row' = true) by (by apply (ok_rows _ (so_ok _ (proj1 (cl_steady _ _ _ _ _ _ HC))) _ _ Hrow)).
    apply row_ok_spec in Hok as (_ & _ & _ & (_ & _ & Hpay) & _).
    assert (E2 : financial_snapshot sent = financial_snapshot row') by congruence.
    split_and!; [| |done|..]; unfold financial_snapshot in *; [done| | | |].
    all: injection E as; injection E2 as; congruence.
Qed.

(** C4: A URL that a request for a link returns is the link of an open payment
    of that order and that amount. Either it is the link already stored in
    the row, returned without asking the gateway; or it is the validated
    answer of the gateway to the one request sent for exactly the committed
    row, whose callback URL carries the token whose hash is committed with
    the row, so that the payer's return can be authenticated. *)
Theorem create_payment_link_authentic settings oid amt telegram w :
  sound w -> committed w = working w ->
  wp (create_payment settings oid amt telegram) (fun r w' => forall url, r = Ret url ->
    exists row, payments (committed w') !! id row = Some row /\
      bot_order_id row = oid /\ amount row = amt /\ status row = LINK_CREATED /\
      gateway_verified_at row = None /\ redirect_url row = Some url /\
      (calls w' = calls w \/ exists token n,
         calls w' = link_request settings row token :: calls w /\
         callback_token_matches token (callback_token_hash_col row) = true /\
         link_answer (gateway_post n "getLink.php" (link_request_body settings row token)) = Ret url)) w.
Proof.
  intros Hs Hc. eapply wp_mono; [by apply wp_create_payment|].
  intros r w' [B Hno|w1 payer row B Hr Ho _ (cs & es & row' & HA & HC)] url ->; [by destruct (Hno url)|].
  exists row'. rewrite (cl_payments _ _ _ _ _ _ HC), lookup_insert_eq, (cl_calls _ _ _ _ _ _ HC).
  rewrite (proj1 (proj2 (proj2 B))).
  inversion HA as [| | | |url' Hd Ha Hv Hst Hne Hu|r cs' es' row2 Hd Ha Haw start L]; subst.
  - split_and!; try done. by left.
  - inversion L as [|g token now url' n Hg Hans E| |]; subst.
    assert (Hstart : financial_snapshot (fst start) = financial_snapshot row /\
                     gateway_verified_at (fst start) = None).
    { pose proof (aw_open row Haw).
      unfold start, identified. by destruct (decide_identity row _ payer), payer. }
    destruct Hstart as [Hsnap Hver]. unfold financial_snapshot in Hsnap.
    split_and!; try done; try (cbn; congruence).
    right. exists token, n. split_and!; [done| |exact Hans].
    apply callback_token_matches_own.
Qed.

(** C6: Under the row lock, the row alone decides. The answer, the requests
    sent, the business events recorded and the row committed are those of the
    contract [acts]: a different customer, then a different amount, then a
    verified payment, then a payment under review is refused in this order
    and without asking the gateway; a live link is returned as it is; only a
    payment still without a link reaches the gateway, under the payer its
    identity decision names, and a refusal of the gateway is recorded as a
    failed attempt. *)
Theorem act_on_locked_row_refines settings amt itype payer p w :
  sound w -> committed w = working w -> payments (working w) !! id p = Some p ->
  wp (act_on_locked_row settings amt itype payer p) (fun r w' => exists cs es row',
    acts settings amt itype payer (payments (working w)) p r cs es row' /\
    calls w' = cs ++ calls w /\ trail (committed w') = es ++ trail (committed w) /\
    payments (committed w') = <[id row' := row']> (payments (committed w))) w.
Proof.
  intros Hs Hc Hr.
  assert (HO : holding w w [] [] p p w).
  { split; try done. by rewrite insert_id. }
  eapply wp_mono; [by apply (wp_act_on_locked_row settings amt itype payer w w p w HO)|].
  intros r w' (cs & es & row' & HA & HC). exists cs, es, row'.
  split_and!; [done|apply HC|apply HC|apply HC].
Qed.

(** [row] belongs to an established Telegram user whose mapping is not the
    one of the request, under either derivation of its key. *)
Definition of_other_user settings oid telegram (row : Payment) (d : Db) : Prop :=
  exists i m, payer_identity_type row = Some TELEGRAM_USER /\ payer_identity_id row = Some i /\
    payer_identities d !! i = Some m /\
    let secret := centralpay_payer_id_secret settings in
    customer_key_hash m <> identity_key_hash secret (order_key oid telegram) /\
    customer_key_hash m <> historical_identity_key_hash secret (order_key oid telegram).

Lemma of_other_user_legal settings oid telegram i row d d' : db_legal d d' ->
  payments d !! i = Some row -> of_other_user settings oid telegram row d ->
  exists row', payments d' !! i = Some row' /\ bot_order_id row' = bot_order_id row /\
    of_other_user settings oid telegram row' d'.
Proof.
  intros L Hi (j & m & Ht & Hj & Hm & Hne).
  destruct (le_rows _ _ L i row Hi) as (row' & Hi' & [[Es _ _ _ _ Ep] _]).
  exists row'. unfold financial_snapshot, payer_fact, telegram_payer in *. rewrite Ht, Hj in Ep.
  specialize (Ep eq_refl). split_and!; [done|congruence|].
  exists j, m. split_and!; [congruence|congruence|by apply (le_identities _ _ L)|apply Hne..].
Qed.

Lemma stored_key_hash_row oid d i row j m : keyed id (payments d) -> unique_orders (payments d) ->
  payments d !! i = Some row -> bot_order_id row = oid -> payer_identity_id row = Some j ->
  payer_identities d !! j = Some m -> stored_key_hash oid d = Some (customer_key_hash m).
Proof.
  intros Hk U Hi Ho Hj Hm. unfold stored_key_hash, payments_where.
  assert (Hin : In row (List.filter (for_order oid) (rows (payments d)))).
  { apply filter_In. split; [apply in_rows; eauto|]. unfold for_order. rewrite Ho. apply String.eqb_refl. }
  destruct (List.filter _ _) as [|q l] eqn:E; [done|].
  assert (Hq : In q (q :: l)) by (by left). rewrite <- E in Hq.
  apply filter_In in Hq as [[k Hq]%in_rows Hf]. apply String.eqb_eq in Hf.
  assert (k = i) as -> by (by apply (U k i q row Hq Hi); rewrite Hf).
  assert (q = row) as -> by congruence. by rewrite Hj, Hm.
Qed.

(** C5: The link of one Telegram user is never handed to another end user: when
    an order belongs to an established Telegram user, a request for it in the
    name of another one, whatever its amount and whatever other sessions
    commit meanwhile, returns no URL, sends nothing to the gateway, and
    leaves every payment as the other sessions made it. *)
Theorem create_payment_never_crosses_payers settings oid amt t w i row :
  sound w -> committed w = working w ->
  payments (committed w) !! i = Some row -> bot_order_id row = oid ->
  of_other_user settings oid (Some t) row (committed w) ->
  wp (create_payment settings oid amt (Some t)) (fun r w' =>
    (forall url, r <> Ret url) /\ calls w' = calls w /\
    exists row', payments (committed w') !! i = Some row' /\
      of_other_user settings oid (Some t) row' (committed w')) w.
Proof.
  intros Hs Hc Hi Ho Hother. eapply wp_mono; [by apply wp_create_payment|].
  intros r w' [B Hno|w1 payer q B Hq Hqo Hp (cs & es & row' & HA & HC)].
  { destruct (of_other_user_legal _ _ _ _ _ _ _ (proj2 (proj1 B)) Hi Hother) as (row' & Hi' & _ & H').
    split_and!; [done|apply B|eauto]. }
  destruct (of_other_user_legal _ _ _ _ _ _ _ (proj2 (proj1 B)) Hi Hother) as (row1 & Hi1 & Ho1 & H1).
  pose proof (so_ok _ (proj1 (proj1 B))) as Hok. rewrite <- (proj1 (proj2 B)) in Hq.
  assert (Eid : id q = i) by (apply (ok_orders _ Hok _ _ q row1 Hq Hi1); congruence).
  assert (q = row1) as -> by congruence. clear Hq.
  assert (Hrej : decide_identity row1 TELEGRAM_USER payer = REJECT).
  { destruct H1 as (j & m & Ht & Hj & Hm & Hne1 & Hne2). destruct payer as [p|]; unfold payer_known in Hp; cbn [decide_identity].
    - destruct Hp as (j' & m' & Hm' & -> & Hh). unfold reconcile_identity. rewrite Hj, Ht. cbn [as_identity payer_id].
      destruct (j =? identity_id m') eqn:Ej; bool_to_prop; [|done].
      rewrite (io_keyed _ (ok_identities _ Hok) _ _ Hm') in Ej. subst j'.
      rewrite Hm' in Hm. injection Hm as ->. by destruct Hne1.
    - destruct Hp as (d & L & Hd). destruct Hne2.
      destruct Hother as (j0 & m0 & Ht0 & Hj0 & Hm0 & Hne0 & Hne3). destruct Hne3.
      pose proof (db_legal_ok _ _ L (so_ok w Hs)) as Hokd.
      destruct (le_rows _ _ L i row Hi) as (rowd & Hid & [[Es _ _ _ _ Ep] _]).
      unfold payer_fact, telegram_payer in Ep. rewrite Ht0, Hj0 in Ep. specialize (Ep eq_refl).
      unfold financial_snapshot in Es.
      rewrite (stored_key_hash_row oid d i rowd j0 m0) in Hd;
        [injection Hd; exact (fun E => E)|apply Hokd|apply Hokd|exact Hid|congruence|congruence|].
      exact (le_identities _ _ L j0 m0 Hm0). }
  assert (Hcs : cs = [] /\ (forall url, r <> Ret url)).
  { inversion HA; subst; try done. all: by rewrite Hrej in *. }
  destruct Hcs as [-> Hr]. split_and!; [done| |].
  - rewrite (cl_calls _ _ _ _ _ _ HC). apply B.
  - destruct (of_other_user_legal _ _ _ _ _ _ _ (proj2 (cl_steady _ _ _ _ _ _ HC)) Hi Hother)
      as (row2 & Hi2 & _ & H2). eauto.
Qed.

(** A new payment is priced once, from one reading of the fee policies: its
    row stores the policy in force, that policy's rate, and the fee and
    payable amount computed from exactly that rate, the payable amount being
    within the configured maximum; it is created without a link, under the
    isolated identity resolved for the request. A request whose payable
    amount exceeds the maximum is refused with the database as it was: no
    row, no mapping, no event. *)
Theorem new_payment_priced_once settings oid amt key itype telegram w :
  sound w -> committed w = working w ->
  wp (ensure_payment_row settings oid amt key itype telegram) (fun r w' =>
    calls w' = calls w /\ db_legal (committed w) (committed w') /\
    match r with
    | Ret None => True
    | Ret (Some payer) => exists row n now,
        payments (committed w') !! id row = Some row /\
        (bot_order_id row = oid /\ amount row = amt /\ status row = CREATED /\
         live_link row = false /\ gateway_verified_at row = None) /\
        (gateway_user_id row = payer_gateway_user_id payer /\
         payer_identity_id row = Some (payer_id payer) /\
         mapped settings key telegram payer (committed w')) /\
        let policy := effective_policy now (fee_policies (others n (committed w))) in
        fee_policy_id row = option_map policy_id policy /\
        fee_rate_bps row = match policy with Some r => rate_bps r | None => 0 end /\
        calculate_fee amt (fee_rate_bps row) = Some (fee_amount row, payable_amount row) /\
        payable_amount row <= max_payment_amount_toman settings
    | Raise e => identity_failure e \/ e = allocation_failure \/
        exists n, committed w' = others n (committed w) /\ unpriceable settings amt e (committed w')
    end) w.
Proof.
  intros Hs Hc. eapply wp_mono; [by apply wp_ensure|]. intros r w' (B & _ & Hr).
  split_and!; [apply B|apply B|]. destruct r as [[payer|]|e]; [|done|apply Hr].
  destruct Hr as (_ & row & n & policy & fee & payable & g & now & d & ((t & Ep) & Ef & Hmax) & Er & _ & _ & Hrow & Hm).
  exists row, n, t. rewrite Hrow, lookup_insert_eq. rewrite <- Ep. split; [done|].
  rewrite Er. by split_and!.
Qed.

(** ** Replays *)

(** The identity the row was created or adopted under is the one of a request
    of the same shape, under the current or the retired derivation. *)
Definition stored_identity settings oid telegram (row : Payment) (d : Db) : Prop :=
  exists j m, payer_identity_id row = Some j /\ payer_identities d !! j = Some m /\
    let secret := centralpay_payer_id_secret settings in
    (customer_key_hash m = identity_key_hash secret (order_key oid telegram) \/
     customer_key_hash m = historical_identity_key_hash secret (order_key oid telegram)).

(** [w'] is [w] between two transactions, nothing having happened. *)
Record idle (w w' : World) : Prop := {
  id_sound : sound w';
  id_committed : committed w' = committed w;
  id_working : working w' = committed w;
  id_map : identity_map w' = ∅;
  id_calls : calls w' = calls w
}.

Lemma wp_replay_found oid amt telegram w :
  sound w -> committed w = working w -> identity_map w = ∅ ->
  wp (find_safe_replay_redirect_url oid amt telegram) (fun r w' => idle w w' /\
    exists found, r = Ret found /\ forall url, found = Some url -> exists row,
      payments (committed w) !! id row = Some row /\ bot_order_id row = oid /\ amount row = amt /\
      status row = LINK_CREATED /\ redirect_url row = Some url /\ live_link row = true /\
      identity_matches row telegram = true) w.
Proof.
  intros Hs Hc Hm. unfold find_safe_replay_redirect_url.
  apply wp_bind, wp_select_payment; [apply (ok_keyed _ (so_working w Hs))| |].
  - intros _. do 3 wp_step. split; [|by exists None].
    pose proof (steady_rollback _ _ H Hs) as [S _]. split; [done|by ws..].
  - intros row w2 Hr Hf A. apply String.eqb_eq in Hf.
    assert (Eo : object_of w false row = row) by (unfold object_of; by rewrite Hm, lookup_empty).
    pose proof (steady_attached _ _ _ _ _ A Hr Hs) as [S2 _].
    rewrite Eo. do 3 wp_step.
    pose proof (steady_rollback _ _ H S2) as [S3 _]. split; [split; [done|by ws..]|].
    eexists. split; [done|]. intros url Hu. exists row. rewrite Hc.
    destruct (redirect_url row) as [u|] eqn:Eu; [|done].
    destruct (negb (bool_decide (status row = LINK_CREATED)) || String.eqb u "") eqn:E1; [done|].
    destruct (negb (amount row =? amt)) eqn:E2; [done|].
    destruct (negb (identity_matches row telegram)) eqn:E3; [done|]. injection Hu as ->. bool_to_prop.
    unfold live_link. rewrite Eu. split_and!; try done. by apply negb_true_iff, String.eqb_neq.
Qed.

Section Calm.
Hypothesis calm : forall n d, others n d = d.

Lemma idle_began w w1 w2 : idle w w1 -> began w1 w2 -> idle w w2.
Proof.
  intros [S C W M K] B. assert (E : committed w2 = committed w).
  { destruct (bg_committed _ _ B) as [n ->]. by rewrite calm. }
  split; [|done|by ws|by ws|by ws]. eapply (steady_began w1 w2 B); congruence.
Qed.

Lemma idle_rollback w w1 w2 : idle w w1 -> did_rollback w1 w2 -> idle w w2.
Proof.
  intros [S C W M K] R. split; [|by ws..]. by apply (steady_rollback w1 w2 R).
Qed.

Lemma wp_idle_begin {A} (m : M A) (P : Res A -> World -> Prop) w w1 :
  idle w w1 -> (forall w2, idle w w2 -> wp m P w2) -> wp (begin_tx ;;; m) P w1.
Proof. intros I Hm. do 2 wp_step. apply Hm. by eapply idle_began. Qed.

Lemma in_payments_where flt d i row : payments d !! i = Some row -> flt row = true ->
  In row (payments_where flt d).
Proof. intros Hi Hf. apply filter_In. split; [apply in_rows; eauto|done]. Qed.

(** Resolving the identity a row is stored under finds it. *)
Lemma wp_resolve_stored settings oid telegram row w w1 :
  idle w w1 -> db_ok (committed w) ->
  payments (committed w) !! id row = Some row -> bot_order_id row = oid ->
  (forall t, telegram = Some t -> 1 <= t <= MAX_TELEGRAM_USER_ID) ->
  stored_identity settings oid telegram row (committed w) ->
  wp (resolve_for_existing settings oid (order_key oid telegram) telegram) (fun r w' =>
    idle w w' /\ exists payer, r = Ret payer /\
      forall q, payer = Some q -> payer_identity_id row = Some (payer_id q)) w1.
Proof.
  intros I Hok Hr Ho Ht (j & m & Hj & Hm & Hh). unfold resolve_for_existing.
  apply (wp_idle_begin _ _ w w1 I). clear w1 I. intros w1 I. do 4 wp_step.
  assert (Hs : stored_key_hash oid (working w1) = Some (customer_key_hash m)).
  { rewrite (id_working _ _ I). by eapply stored_key_hash_row; try apply Hok. }
  rewrite Hs. pose proof (idle_rollback _ _ _ I H) as I2.
  destruct (bool_decide _) eqn:Eb.
  { apply wp_ret. split; [done|]. by exists None. }
  apply (wp_idle_begin _ _ w w' I2). intros w3 I3. apply wp_bind.
  eapply wp_mono.
  { apply (resolve_existing _ _ _ _ _ m).
    - by rewrite (id_committed _ _ I3), (id_working _ _ I3).
    - rewrite (id_working _ _ I3). apply Hok.
    - done.
    - rewrite (id_working _ _ I3), requested_order_key.
      apply bool_decide_eq_false in Eb.
      destruct Hh as [<-|Hh]; [|destruct Eb; f_equal; exact Hh].
      by eapply find_identity_hash; [apply Hok|]. }
  intros r w4 [-> R]. apply wp_ret. split; [by eapply idle_rollback|].
  eexists. split; [done|]. intros q [= <-]. rewrite Hj. cbn.
  by rewrite (io_keyed _ (ok_identities _ Hok) _ _ Hm).
Qed.

Lemma wp_replay_answered settings oid amt telegram row url w w1 :
  idle w w1 -> db_ok (committed w) ->
  payments (committed w) !! id row = Some row -> bot_order_id row = oid -> amount row = amt ->
  status row = LINK_CREATED -> gateway_verified_at row = None ->
  redirect_url row = Some url -> live_link row = true ->
  (forall t, telegram = Some t -> 1 <= t <= MAX_TELEGRAM_USER_ID) ->
  stored_identity settings oid telegram row (committed w) ->
  wp (create_payment settings oid amt telegram) (fun r w' => r = Ret url /\ idle w w') w1.
Proof.
  intros I Hok Hr Ho Ha Hst Hv Hu Hl Ht Hid. unfold create_payment.
  assert (Hf : for_order oid row = true) by (unfold for_order; rewrite Ho; apply String.eqb_refl).
  apply wp_bind. unfold ensure_payment_row. do 4 wp_step. rewrite (id_working _ _ I).
  pose proof (in_payments_where _ _ _ _ Hr Hf) as Hin.
  destruct (payments_where _ _) as [|q l]; [done|]. apply wp_ret.
  pose proof (idle_rollback _ _ _ I H) as I2. apply wp_bind.
  eapply wp_mono; [by apply (wp_resolve_stored settings oid telegram row w w')|].
  intros r w2 (I3 & payer & -> & Hp). apply (wp_idle_begin _ _ w w2 I3). intros w3 I4.
  apply wp_bind, wp_select_payment; [apply (ok_keyed _ (so_working w3 (id_sound _ _ I4)))| |].
  { intros Hno. specialize (Hno (id row) row). rewrite (id_working _ _ I4), Hf in Hno.
    by specialize (Hno Hr). }
  intros row' w4 Hr' Hf' A. rewrite (id_working _ _ I4) in Hr'. apply String.eqb_eq in Hf'.
  assert (row' = row) as ->.
  { assert (id row' = id row) as E by (apply (ok_orders _ Hok _ _ row' row Hr' Hr); congruence). congruence. }
  assert (Eo : object_of w3 false row = row) by (unfold object_of; by rewrite (id_map _ _ I4), lookup_empty).
  rewrite Eo. unfold act_on_locked_row.
  assert (Hd : decide_identity row (requested_type telegram) payer = REUSE).
  { destruct payer as [p|]; [|done]. cbn. unfold reconcile_identity. rewrite (Hp p eq_refl).
    by rewrite Z.eqb_refl. }
  rewrite Hd, Ha, Z.eqb_refl, Hv, Hst, Hl, Hu.
  change (bool_decide (REUSE = REJECT)) with false.
  change (bool_decide (LINK_CREATED = MANUAL_REVIEW)) with false.
  change (bool_decide (LINK_CREATED = LINK_CREATED)) with true. cbn. do 3 wp_step. split; [done|].
  destruct I4 as [S4 C4 W4 M4 K4]. rewrite <- W4 in Hr.
  pose proof (steady_attached _ _ _ _ _ A Hr S4) as [S5 _].
  split; [by apply (steady_rollback _ _ H0)|by ws..].
Qed.
End Calm.

(** What a typed row was created or adopted under: the mapping of its
    identity type's key, under the current or the retired derivation. *)
Definition typed_identity settings (row : Payment) (d : Db) : Prop :=
  match payer_identity_type row with
  | Some TELEGRAM_USER => stored_identity settings (bot_order_id row) (Some (gateway_user_id row)) row d
  | Some ORDER_FALLBACK => stored_identity settings (bot_order_id row) None row d
  | None => True
  end.

Lemma typed_identity_matches settings row telegram d : typed_identity settings row d ->
  identity_matches row telegram = true -> stored_identity settings (bot_order_id row) telegram row d.
Proof.
  unfold typed_identity, identity_matches. intros Ht Hm. destruct telegram as [t|]; bool_to_prop.
  - rewrite H in Ht. by rewrite H0 in Ht.
  - by rewrite Hm in Ht.
Qed.

(** C7: The exemption of replays from the rate limit is sound. When no other
    session interferes and rows carry the identity of their type, every
    request that [find_safe_replay_redirect_url] clears is one that
    [create_payment] answers with exactly that URL, without asking the
    gateway and with the database, audit trail and identity table included,
    left as it was. *)
Theorem safe_replay_is_work_free settings oid amt telegram w :
  (forall n d, others n d = d) -> sound w -> committed w = working w -> identity_map w = ∅ ->
  (forall t, telegram = Some t -> 1 <= t <= MAX_TELEGRAM_USER_ID) ->
  (forall row, payments (committed w) !! id row = Some row ->
     typed_identity settings row (committed w) /\
     (status row = LINK_CREATED -> gateway_verified_at row = None)) ->
  wp (find_safe_replay_redirect_url oid amt telegram) (fun r w1 => forall url, r = Ret (Some url) ->
    wp (create_payment settings oid amt telegram) (fun r' w' =>
      r' = Ret url /\ calls w' = calls w /\ committed w' = committed w) w1) w.
Proof.
  intros Hcalm Hs Hc Hm Ht Hrows. eapply wp_mono; [by apply wp_replay_found|].
  intros r w1 (I & found & -> & Hf) url [= ->].
  destruct (Hf url eq_refl) as (row & Hr & Ho & Ha & Hst & Hu & Hl & Hid).
  destruct (Hrows row Hr) as [Htyped Hv].
  eapply wp_mono; [apply (wp_replay_answered Hcalm settings oid amt telegram row url w w1); try done|].
  - apply (so_ok w Hs).
  - auto.
  - rewrite <- Ho. by apply typed_identity_matches.
  - intros r' w' [-> I']. split_and!; [done|apply I'|apply I'].
Qed.

End CreationFacts.

(** ** Witnesses *)

(** A gateway that issues links. *)
Definition link_env : Env := with_gateway (GatewayResponse 200 (Some (JObj
  [("status", JStr "success"); ("data", JObj [("redirectUrl", JStr "https://pay.example/x")])]))).

#[export] Instance link_rely : @Rely link_env.
Proof. intros n d _. reflexivity. Qed.

Definition no_payments : World := world_of empty_db.

Lemma no_payments_sound : sound no_payments.
Proof.
  apply sound_fresh. split.
  - intros i p Hp. change ((∅ : gmap Z Payment) !! i = Some p) in Hp. by rewrite lookup_empty in Hp.
  - intros i p Hp. change ((∅ : gmap Z Payment) !! i = Some p) in Hp. by rewrite lookup_empty in Hp.
  - apply identities_ok_empty.
  - apply unique_orders_empty.
  - apply unique_col_none.
  - apply unique_col_none.
  - by apply service_ok_empty.
Qed.

Definition user_row : PayerIdentityRow :=
  mkPayerIdentityRow 1 (identity_key_hash (centralpay_payer_id_secret default_settings)
    (telegram_identity_key 42)) 42 2 TELEGRAM_RAW.

(** A payment of the Telegram user 42, with a link, and the mapping of that
    user. *)
Definition linked_db : Db :=
  (db_of [example_payment]) <| payer_identities := {[ 1 := user_row ]} |>.

Lemma linked_sound : sound (world_of linked_db).
Proof.
  pose proof (so_ok _ (sound_example example_payment eq_refl)) as [H1 H2 _ H4 H5 H6 _].
  apply sound_fresh. split; [exact H1|exact H2| |exact H4|exact H5|exact H6|by apply service_ok_empty].
  change (identities_ok (<[identity_id user_row := user_row]> ∅)).
  apply identities_ok_insert; [apply identities_ok_empty|done|done|apply lookup_empty].
Qed.


Lemma create_payment_requests_exact_amount_witness :
  wp (@create_payment link_env _ default_settings "o1" 250000 (Some 42)) (fun r w' =>
    r = Ret "https://pay.example/x" /\ db_ok (committed w') /\ length (calls w') = 1%nat) no_payments.
Proof.
  eapply wp_mono; [apply wp_and|].
  - exact (@create_payment_requests_exact_amount link_env _ _ default_settings "o1" 250000 (Some 42)
      no_payments no_payments_sound eq_refl).
  - instantiate (1 := fun r w' => r = Ret "https://pay.example/x" /\ length (calls w') = 1%nat).
    vm_compute. split; reflexivity.
  - intros r w' [(_ & H & _) [-> L]]. split; [reflexivity|]. split; [exact H|exact L].
Defined.

Lemma create_payment_link_authentic_witness :
  wp (@create_payment link_env _ default_settings "o1" 250000 (Some 42)) (fun r w' =>
    exists row, payments (committed w') !! id row = Some row /\ status row = LINK_CREATED /\
      redirect_url row = Some "https://pay.example/x" /\
      exists token, callback_token_matches token (callback_token_hash_col row) = true) no_payments.
Proof.
  eapply wp_mono; [apply wp_and|].
  - exact (@create_payment_link_authentic link_env _ _ default_settings "o1" 250000 (Some 42)
      no_payments no_payments_sound eq_refl).
  - instantiate (1 := fun r w' => r = Ret "https://pay.example/x" /\ calls w' <> []).
    vm_compute. split; [reflexivity|discriminate].
  - intros r w' [H [Hr Hc]].
    destruct (H _ Hr) as (row & H1 & _ & _ & H2 & _ & H3 & [H4|(token & n & _ & H4 & _)]).
    + destruct (Hc H4).
    + exists row. split; [exact H1|]. split; [exact H2|]. split; [exact H3|]. exists token. exact H4.
Defined.

Lemma act_on_locked_row_refines_witness :
  payments (working (world_of linked_db)) !! id example_payment = Some example_payment /\
  wp (@act_on_locked_row link_env _ default_settings 1 TELEGRAM_USER None example_payment) (fun r w' =>
    exists cs es row', acts (ENV := link_env) default_settings 1 TELEGRAM_USER None
      (payments linked_db) example_payment r cs es row' /\ calls w' = cs) (world_of linked_db).
Proof.
  assert (Hr : payments (working (world_of linked_db)) !! id example_payment = Some example_payment)
    by (vm_compute; reflexivity).
  split; [exact Hr|].
  eapply wp_mono; [exact (@act_on_locked_row_refines link_env _ default_settings 1 TELEGRAM_USER None
    example_payment (world_of linked_db) linked_sound eq_refl Hr)|].
  intros r w' (cs & es & row' & HA & Hc & _). exists cs, es, row'. split; [exact HA|].
  rewrite Hc. apply app_nil_r.
Defined.

Lemma create_payment_never_crosses_payers_witness :
  of_other_user default_settings "order-1" (Some 43) example_payment linked_db /\
  wp (@create_payment link_env _ default_settings "order-1" 250000 (Some 43)) (fun r w' =>
    (forall url, r <> Ret url) /\ calls w' = []) (world_of linked_db).
Proof.
  assert (Ho : of_other_user default_settings "order-1" (Some 43) example_payment linked_db).
  { exists 1, user_row. split; [reflexivity|]. split; [reflexivity|]. split; [reflexivity|].
    split; vm_compute; discriminate. }
  split; [exact Ho|].
  eapply wp_mono; [exact (@create_payment_never_crosses_payers link_env _ _ default_settings "order-1"
    250000 43 (world_of linked_db) 1 example_payment linked_sound eq_refl eq_refl eq_refl Ho)|].
  intros r w' (H1 & H2 & _). split; [exact H1|exact H2].
Defined.

Lemma new_payment_priced_once_witness :
  wp (@ensure_payment_row calm_env default_settings "o1" 250000 "" TELEGRAM_USER (Some 42))
    (fun r w' => exists payer, r = Ret (Some payer) /\ exists row,
       payments (committed w') !! id row = Some row /\
       calculate_fee 250000 (fee_rate_bps row) = Some (fee_amount row, payable_amount row))
    no_payments.
Proof.
  eapply wp_mono; [apply wp_and|].
  - exact (@new_payment_priced_once calm_env _ default_settings "o1" 250000 "" TELEGRAM_USER
      (Some 42) no_payments no_payments_sound eq_refl).
  - instantiate (1 := fun r w' => match r with Ret (Some _) => True | _ => False end).
    vm_compute. exact I.
  - intros r w' [(_ & _ & H) Hr]. destruct r as [[payer|]|e]; [|destruct Hr|destruct Hr].
    exists payer. split; [reflexivity|].
    destruct H as (row & n & now & H1 & _ & _ & _ & _ & H2 & _). exists row. split; [exact H1|exact H2].
Defined.

Lemma safe_replay_is_work_free_witness :
  fst (find_safe_replay_redirect_url "order-1" 250000 (Some 42) (world_of linked_db))
    = Ret (Some "https://pay.example/1") /\
  wp (find_safe_replay_redirect_url "order-1" 250000 (Some 42)) (fun r w1 => forall url, r = Ret (Some url) ->
    wp (@create_payment calm_env _ default_settings "order-1" 250000 (Some 42)) (fun r' w' =>
      r' = Ret url /\ calls w' = []) w1) (world_of linked_db).
Proof.
  split; [vm_compute; reflexivity|].
  eapply wp_mono; [apply (@safe_replay_is_work_free calm_env _ _ default_settings "order-1" 250000
    (Some 42) (world_of linked_db))|].
  - intros n d. reflexivity.
  - exact linked_sound.
  - reflexivity.
  - reflexivity.
  - intros t [= <-]. split; vm_compute; discriminate.
  - intros row Hr.
    assert (row = example_payment) as ->.
    { change (committed (world_of linked_db)) with linked_db in Hr.
      change (payments linked_db) with (<[1 := example_payment]> ∅ : gmap Z Payment) in Hr.
      destruct (decide (id row = 1)) as [E|E].
      - rewrite E, lookup_insert_eq in Hr. congruence.
      - rewrite lookup_insert_ne, lookup_empty in Hr by congruence. discriminate. }
    split; [|reflexivity]. exists 1, user_row. split; [reflexivity|]. split; [reflexivity|].
    left. reflexivity.
  - intros r w1 H url Hu. eapply wp_mono; [exact (H url Hu)|].
    intros r' w' (H1 & H2 & _). split; [exact H1|exact H2].
Defined.
