(* ===== verification/Bot.v ===== *)
(** Classification of bot-notification outcomes ([app/bot.py]).

    Only the status code and the [Retry-After] header of a response, and the
    class and text of a transport error, are inspected. *)

From S2P Require Import Prelude PyText Exceptions Session.

Inductive OutcomeKind := ACCEPTED | RETRYABLE | AMBIGUOUS | MANUAL.

#[export] Instance OutcomeKind_eq_dec : EqDecision OutcomeKind.
Proof. solve_decision. Defined.

Record AttemptOutcome := mkOutcome {
  kind : OutcomeKind;
  reason_code : string;
  log_event : string;
  outcome_http_status : option Z;
  outcome_error_code : option string;
  outcome_retry_after : option Z
}.

Definition retryable_http (status : Z) : option ReasonCode :=
  if status =? 500 then Some BOT_HTTP_500
  else if status =? 502 then Some BOT_HTTP_502
  else if status =? 503 then Some BOT_HTTP_503
  else if status =? 504 then Some BOT_HTTP_504
  else None.

Definition manual_http (status : Z) : option ReasonCode :=
  if status =? 400 then Some BOT_HTTP_400
  else if status =? 401 then Some BOT_HTTP_401
  else if status =? 403 then Some BOT_HTTP_403
  else if status =? 404 then Some BOT_HTTP_404
  else if status =? 409 then Some BOT_HTTP_409
  else if status =? 422 then Some BOT_HTTP_422
  else None.

Definition dns_markers : list string :=
  ["getaddrinfo"; "name or service not known"; "temporary failure in name resolution";
   "no address associated"; "nodename nor servname"; "[errno -2]"; "[errno -3]"; "[errno -5]"].

Definition refused_markers : list string :=
  ["connection refused"; "[errno 111]"; "econnrefused"].

Definition MAX_RETRY_AFTER_SECONDS : Z := 3600.

(** [_parse_retry_after]. *)
Definition parse_retry_after (value : option string) : option Z :=
  match value with
  | None => None
  | Some v =>
      let stripped := strip v in
      if negb (all_digits stripped) then None
      else
        match int_of_digits stripped with
        | None => None
        | Some s => if s <=? 0 then None else Some (Z.min s MAX_RETRY_AFTER_SECONDS)
        end
  end.

Definition http_code (status : Z) : string := "http_" +:+ str_of_int status.

Definition classify_response (status : Z) (retry_after : option string) : AttemptOutcome :=
  if (200 <=? status) && (status <? 300) then
    mkOutcome ACCEPTED (reason_value BOT_NOTIFY_ACCEPTED_REASON) "bot_notification_accepted"
      (Some status) None None
  else
    match retryable_http status with
    | Some r =>
        mkOutcome RETRYABLE (reason_value r) "bot_http_5xx" (Some status)
          (Some (http_code status)) None
    | None =>
        if status =? 429 then
          mkOutcome RETRYABLE (reason_value BOT_HTTP_429) "bot_http_4xx" (Some status)
            (Some "http_429") (parse_retry_after retry_after)
        else
          match manual_http status with
          | Some r =>
              mkOutcome MANUAL (reason_value r) "bot_http_4xx" (Some status)
                (Some (http_code status)) None
          | None =>
              mkOutcome MANUAL (reason_value BOT_HTTP_OTHER)
                (if 500 <=? status then "bot_http_5xx" else "bot_http_4xx") (Some status)
                (Some (http_code status)) None
          end
    end.

Definition contains_any (markers : list string) (text : string) : bool :=
  existsb (fun m => str_contains m text) markers.

Definition classify_transport_error (exc : TransportError) : AttemptOutcome :=
  match exc with
  | ConnectError text =>
      let msg := lower text in
      let reason :=
        if contains_any dns_markers msg then BOT_DNS_FAILED
        else if contains_any refused_markers msg then BOT_CONNECTION_REFUSED
        else BOT_CONNECTION_FAILED in
      mkOutcome RETRYABLE (reason_value reason) "bot_connection_failed" None
        (Some "ConnectError") None
  | ConnectTimeout =>
      mkOutcome RETRYABLE (reason_value BOT_CONNECTION_FAILED) "bot_connection_failed" None
        (Some "ConnectTimeout") None
  | PoolTimeout =>
      mkOutcome RETRYABLE (reason_value BOT_CONNECTION_FAILED) "bot_connection_failed" None
        (Some "PoolTimeout") None
  | OtherHTTPError cls =>
      mkOutcome AMBIGUOUS (reason_value BOT_TIMEOUT_AMBIGUOUS) "bot_timeout_ambiguous" None
        (Some cls) None
  end.

(** ** Facts *)

Lemma parse_retry_after_range v s :
  parse_retry_after v = Some s -> 1 <= s <= MAX_RETRY_AFTER_SECONDS.
Proof.
  unfold parse_retry_after, MAX_RETRY_AFTER_SECONDS. intros H.
  repeat case_match; simplify_eq; bool_to_prop; lia.
Qed.

Lemma retryable_http_spec status :
  is_some (retryable_http status) = true <-> status ∈ [500; 502; 503; 504].
Proof.
  unfold retryable_http. rewrite !elem_of_cons, elem_of_nil.
  repeat case_match; bool_to_prop; cbn; split; intros; intuition lia.
Qed.

(** Classification is total and conservative: a response counts as accepted
    exactly when its status is 2xx; it is retried only for 429, 500, 502, 503
    and 504; no response is ever classified ambiguous; and a server-chosen
    delay only comes with 429 and lies within one second to one hour. *)
Theorem classify_response_conservative status header :
  let o := classify_response status header in
  (kind o = ACCEPTED <-> 200 <= status < 300) /\
  (kind o = RETRYABLE <-> status ∈ [429; 500; 502; 503; 504]) /\
  kind o <> AMBIGUOUS /\
  outcome_http_status o = Some status /\
  (forall s, outcome_retry_after o = Some s ->
     status = 429 /\ 1 <= s <= MAX_RETRY_AFTER_SECONDS).
Proof.
  cbv zeta. unfold classify_response. rewrite !elem_of_cons, elem_of_nil.
  pose proof (retryable_http_spec status) as Hr. rewrite !elem_of_cons, elem_of_nil in Hr.
  destruct ((200 <=? status) && (status <? 300)) eqn:E2; bool_to_prop.
  { cbn. split_and!; try done; split; intros; try done; lia. }
  destruct (retryable_http status) eqn:Er.
  { cbn in *. split_and!; try done; split; intros; try done; try tauto; lia. }
  destruct (status =? 429) eqn:E4; bool_to_prop.
  { cbn. split_and!; try done; try (split; intros; try done; lia).
    intros s Hs. split; [done|]. by eapply parse_retry_after_range. }
  assert (Hno : ~ (status = 429 \/ status = 500 \/ status = 502 \/ status = 503 \/
                   status = 504 \/ False)) by (cbn in Hr; intuition congruence).
  assert (H2 : ~ (200 <= status < 300)) by lia.
  destruct (manual_http status); cbn; split_and!; try done; split; intros; try done.
Qed.

(** A transport error is retried only when the connection was never
    established, so that nothing can have reached the bot; every other
    failure is ambiguous. *)
Lemma classify_transport_error_kind exc :
  let o := classify_transport_error exc in
  outcome_http_status o = None /\ outcome_retry_after o = None /\
  kind o = match exc with OtherHTTPError _ => AMBIGUOUS | _ => RETRYABLE end.
Proof. by destruct exc. Qed.
