(* ===== verification/Notification.v ===== *)
(** Delivery of the bot notification ([app/services/notification.py]): the
    claim, the attempt outside any transaction, the recording of its result,
    the recovery of interrupted claims, the worker pass, and the operator's
    manual acceptance. *)

From S2P Require Import Prelude PyText Exceptions Config Models Session AuditTrail Ledger Bot.
From Stdlib Require Import QArith_base.

#[local] Open Scope Z_scope.

Definition RETRY_DELAYS_SECONDS : list Z := [60; 120; 300; 600; 1800; 3600].

Definition safe_mode_non_retryable (http_status : option Z) : bool :=
  match http_status with
  | Some s => (s =? 500) || (s =? 502) || (s =? 503) || (s =? 504)
  | None => false
  end.

Definition DEFAULT_BATCH_SIZE : nat := 20.

(** The float factor of [default_jitter], drawn anew at each use; [float]
    arithmetic is read as rational arithmetic. *)
Definition JitterFn := nat -> Q.

(** Rounding of a rational to the nearest integer, ties to even: Python's
    [round], and the conversion of [timedelta] to microseconds. *)
Definition round_half_even (q : Q) : Z :=
  let d := Zpos (Qden q) in
  let n := Qnum q / d in
  let r := Qnum q mod d in
  if 2 * r <? d then n
  else if d <? 2 * r then n + 1
  else if Z.even n then n else n + 1.

Definition microseconds (q : Q) : Z := round_half_even (Qmult q (inject_Z 1000000)).

(** [retry_delay_seconds]. *)
Definition retry_delay_seconds (attempts_completed : Z) (retry_after : option Z) (jitter : Q) : Q :=
  let index := Z.min (Z.max attempts_completed 1) (Z.of_nat (length RETRY_DELAYS_SECONDS)) - 1 in
  let delay := Qmult (inject_Z (nth (Z.to_nat index) RETRY_DELAYS_SECONDS 0)) jitter in
  match retry_after with
  | Some s => if negb (Qle_bool (inject_Z s) delay) then inject_Z s else delay
  | None => delay
  end.

Record ClaimedPayment := mkClaimed {
  payment_id : Z;
  claimed_bot_order_id : string;
  claimed_gateway_order_id : Z;
  attempt : Z;
  worker_id : string
}.

(** [apply_accepted_state] and [_clear_claim], as attribute assignments. *)
Definition clear_claim (r : Payment) : Payment :=
  r <| notification_claimed_at := None |> <| notification_claimed_by := None |>.

Definition apply_accepted_state (now : Z) (r : Payment) : Payment :=
  clear_claim
    (r <| status := BOT_NOTIFY_ACCEPTED |>
       <| bot_notify_reason := Some (reason_value BOT_NOTIFY_ACCEPTED_REASON) |>
       <| bot_notify_accepted_at := Some now |>
       <| next_retry_at := None |>
       <| last_error := None |>).

(** The WHERE clause and the order of [claim_next_due] (NULLs sort last). *)
Definition due_for_notification (now : Z) (p : Payment) : bool :=
  bool_decide (status p = BOT_NOTIFY_PENDING) &&
  is_some (gateway_verified_at p) &&
  (is_none (next_retry_at p) || opt_le (next_retry_at p) now) &&
  is_none (notification_claimed_at p).

Definition nulls_last (a b : option Z) : bool :=
  match a, b with
  | Some x, Some y => x <=? y
  | Some _, None => true
  | None, Some _ => false
  | None, None => true
  end.

Definition retry_order (a b : Payment) : bool := nulls_last (next_retry_at a) (next_retry_at b).
Definition claim_age_order (a b : Payment) : bool :=
  nulls_last (notification_claimed_at a) (notification_claimed_at b).

(** Claims older than the timeout ([release_stale_claims]). *)
Definition stale_claim (cutoff : Z) (p : Payment) : bool :=
  bool_decide (status p = BOT_NOTIFY_PENDING) && opt_le (notification_claimed_at p) cutoff.

Inductive ManualAcceptRefusal := NOT_BOT_NOTIFY_PENDING | NOT_GATEWAY_VERIFIED.

Record ManualAcceptOutcome := mkManualAccept {
  accepted : bool;
  outcome_status : PaymentStatus;
  gateway_verified : bool;
  refusal : option ManualAcceptRefusal
}.

Definition determine_manual_accept_refusal (p : Payment) : option ManualAcceptRefusal :=
  if negb (bool_decide (status p = BOT_NOTIFY_PENDING)) then Some NOT_BOT_NOTIFY_PENDING
  else if is_none (gateway_verified_at p) then Some NOT_GATEWAY_VERIFIED
  else None.

Definition jstr_opt := json_of_option JStr.
Definition jint_opt := json_of_option JInt.

Section Delivery.
Context `{Env}.

Definition queue_notification (p : Payment) (now : Z) : M Payment :=
  let* p := upd p (fun r => r <| status := BOT_NOTIFY_PENDING |>
                              <| bot_notify_reason := None |>
                              <| next_retry_at := Some now |>) in
  record_event (Some (id p)) "bot_notification_queued" "info"
    [("bot_order_id", JStr (bot_order_id p)); ("gateway_order_id", JInt (gateway_order_id p))] ;;;
  ret p.

Definition claim_next_due (worker : string) (now : Z) : M (option ClaimedPayment) :=
  let* d := get_db in
  let* locked := tick locked_by_others in
  match pick_min retry_order
          (List.filter (fun p => due_for_notification now p && negb (locked (id p)))
             (rows (payments d))) with
  | None => rollback ;;; ret None
  | Some row =>
      let* p := attach false row in
      let attempt := bot_notify_attempts p + 1 in
      let first := is_none (bot_notify_started_at p) in
      let* p := upd p (fun r =>
        let r := r <| bot_notify_attempts := attempt |>
                   <| notification_claimed_at := Some now |>
                   <| notification_claimed_by := Some worker |> in
        if first then r <| bot_notify_started_at := Some now |> else r) in
      record_event (Some (id p)) "bot_notification_started" "info"
        [("attempt", JInt attempt); ("worker_id", JStr worker)] ;;;
      commit ;;;
      ret (Some (mkClaimed (id p) (bot_order_id p) (gateway_order_id p) attempt worker))
  end.

(** [_move_to_manual_review] of this module. *)
Definition move_to_manual_review (p : Payment) (reason : string) (attempt now : Z) : M Payment :=
  let* p := upd p (fun r => clear_claim
    (r <| status := MANUAL_REVIEW |>
       <| bot_notify_reason := Some reason |>
       <| manual_review_at := Some now |>
       <| next_retry_at := None |>
       <| last_error := Some ("bot notification: " +:+ reason) |>)) in
  record_event (Some (id p)) "manual_review_required" "error"
    [("reason", JStr reason); ("attempt", JInt attempt)] ;;;
  ret p.

(** Whether a result may be recorded: the row still carries this claim at
    this attempt. *)
Definition claim_is_current (c : ClaimedPayment) (p : Payment) : bool :=
  bool_decide (status p = BOT_NOTIFY_PENDING) &&
  bool_decide (notification_claimed_by p = Some (worker_id c)) &&
  (bot_notify_attempts p =? attempt c).

(** The retry mode adjusts the kind of the outcome. *)
Definition effective_kind (settings : Settings) (o : AttemptOutcome) : OutcomeKind :=
  if bool_decide (kind o = AMBIGUOUS) && bool_decide (bot_notify_retry_mode settings = idempotent)
  then RETRYABLE
  else if bool_decide (kind o = RETRYABLE) && bool_decide (bot_notify_retry_mode settings = safe)
          && safe_mode_non_retryable (outcome_http_status o)
  then MANUAL
  else kind o.

(** Data of the failure events. *)
Definition failure_data (c : ClaimedPayment) (o : AttemptOutcome) (duration : Json) : dict :=
  [("attempt", JInt (attempt c)); ("reason_code", JStr (reason_code o));
   ("http_status", jint_opt (outcome_http_status o));
   ("error_code", jstr_opt (outcome_error_code o)); ("duration_ms", duration)].

(** The RETRYABLE branch of [record_attempt_result]. *)
Definition record_retryable (settings : Settings) (c : ClaimedPayment) (o : AttemptOutcome)
    (duration : Json) (now : Z) (jitter : JitterFn) (p : Payment) : M unit :=
  record_event (Some (id p)) "bot_notification_failed" "warning" (failure_data c o duration) ;;;
  if bot_notify_max_attempts settings <=? attempt c then
    move_to_manual_review p (reason_value RETRY_LIMIT_REACHED) (attempt c) now ;;; ret tt
  else
    let* j := tick jitter in
    let delay := retry_delay_seconds (attempt c) (outcome_retry_after o) j in
    let retry_at := now + microseconds delay in
    let* p := upd p (fun r => clear_claim
      (r <| bot_notify_reason := Some (reason_code o) |>
         <| last_error := Some ("bot notification failed: " +:+ reason_code o) |>
         <| next_retry_at := Some retry_at |>)) in
    record_event (Some (id p)) "bot_notification_retry_scheduled" "info"
      [("attempt", JInt (attempt c)); ("reason_code", JStr (reason_code o));
       ("delay_seconds", JInt (round_half_even delay)); ("next_retry_at", JInt retry_at)].

(** A result nobody waits for any more, after the rollback. *)
Definition discard_result (c : ClaimedPayment) (o : AttemptOutcome) : M unit :=
  begin_tx ;;;
  record_event (Some (payment_id c)) "bot_notification_result_discarded" "warning"
    [("attempt", JInt (attempt c)); ("worker_id", JStr (worker_id c));
     ("reason_code", JStr (reason_code o));
     ("http_status", jint_opt (outcome_http_status o))] ;;;
  commit.

(** [record_attempt_result]. *)
Definition record_attempt_result (settings : Settings) (c : ClaimedPayment) (o : AttemptOutcome)
    (duration : Json) (now : Z) (jitter : JitterFn) : M unit :=
  let* found := select_payment_by_id true (payment_id c) in
  match found with
  | None => raise (Unexpected "NoResultFound")
  | Some p =>
      if negb (claim_is_current c p) then
        rollback ;;;
        discard_result c o
      else
        let* p := upd p (fun r => r <| bot_last_http_status := outcome_http_status o |>
                                    <| bot_last_error_code := outcome_error_code o |>) in
        match effective_kind settings o with
        | ACCEPTED =>
            let* p := upd p (apply_accepted_state now) in
            record_event (Some (id p)) "bot_notification_accepted" "info"
              [("attempt", JInt (attempt c)); ("http_status", jint_opt (outcome_http_status o));
               ("duration_ms", duration)]
        | RETRYABLE => record_retryable settings c o duration now jitter p
        | AMBIGUOUS =>
            record_event (Some (id p)) "bot_timeout_ambiguous" "critical"
              [("attempt", JInt (attempt c)); ("reason_code", JStr (reason_code o));
               ("error_code", jstr_opt (outcome_error_code o)); ("duration_ms", duration)] ;;;
            move_to_manual_review p (reason_value BOT_TIMEOUT_AMBIGUOUS) (attempt c) now ;;; ret tt
        | MANUAL =>
            record_event (Some (id p)) "bot_notification_failed" "error"
              (failure_data c o duration) ;;;
            move_to_manual_review p (reason_code o) (attempt c) now ;;; ret tt
        end ;;;
        commit
  end.

(** [execute_claimed_attempt]; the measured duration only reaches the audit
    data. *)
Definition execute_claimed_attempt (has_notifier : bool) (settings : Settings)
    (c : ClaimedPayment) (jitter : JitterFn) : M AttemptOutcome :=
  if negb has_notifier then
    let o := mkOutcome MANUAL (reason_value BOT_INVALID_CONFIGURATION)
               "bot_invalid_configuration" None None None in
    let* now := utcnow in
    begin_tx ;;;
    record_attempt_result settings c o (JFloat true) now jitter ;;;
    ret o
  else
    let* reply := call_bot (claimed_bot_order_id c) in
    let* o := match reply with
              | BotResponse st ra => ret (classify_response st ra)
              | BotTransportError e => ret (classify_transport_error e)
              | BotCrash cls => raise (Unexpected cls)
              end in
    let* now := utcnow in
    begin_tx ;;;
    record_attempt_result settings c o (JFloat false) now jitter ;;;
    ret o.

(** The body of the loop of [release_stale_claims]. *)
Definition release_one (settings : Settings) (now : Z) (jitter : JitterFn) (p : Payment) : M unit :=
  let attempt := bot_notify_attempts p in
  let data := [("attempt", JInt attempt); ("stale_worker_id", jstr_opt (notification_claimed_by p));
               ("retry_mode", JStr (retry_mode_value (bot_notify_retry_mode settings)))] in
  let recovered extra :=
    record_event (Some (id p)) "notification_recovered_after_restart" "warning" (data ++ extra) in
  if bool_decide (bot_notify_retry_mode settings = idempotent) &&
     (bot_notify_max_attempts settings <=? attempt) then
    recovered [("action", JStr "retry_limit_reached")] ;;;
    move_to_manual_review p (reason_value RETRY_LIMIT_REACHED) attempt now ;;; ret tt
  else if bool_decide (bot_notify_retry_mode settings = idempotent) then
    let* j := tick jitter in
    let retry_at := now + microseconds (retry_delay_seconds attempt None j) in
    upd p (fun r => clear_claim
      (r <| bot_notify_reason := Some (reason_value BOT_TIMEOUT_AMBIGUOUS) |>
         <| next_retry_at := Some retry_at |>)) ;;;
    recovered [("action", JStr "requeued"); ("next_retry_at", JInt retry_at)]
  else
    recovered [("action", JStr "manual_review")] ;;;
    record_event (Some (id p)) "bot_timeout_ambiguous" "critical"
      (data ++ [("stage", JStr "stale_claim")]) ;;;
    move_to_manual_review p (reason_value BOT_TIMEOUT_AMBIGUOUS) attempt now ;;; ret tt.

(** [.scalars().all()]: the objects of the selected rows. *)
Fixpoint attach_all (populate_existing : bool) (rs : list Payment) : M (list Payment) :=
  match rs with
  | [] => ret []
  | r :: rs' =>
      let* p := attach populate_existing r in
      let* ps := attach_all populate_existing rs' in
      ret (p :: ps)
  end.

Definition stale_rows (cutoff : Z) (locked : Z -> bool) (limit : nat) (d : Db) : list Payment :=
  select_batch (fun p => stale_claim cutoff p && negb (locked (id p))) claim_age_order limit
    (rows (payments d)).

Definition release_stale_claims (settings : Settings) (now : Z) (jitter : JitterFn) (limit : nat)
  : M Z :=
  let cutoff := now - bot_notify_claim_timeout settings in
  let* d := get_db in
  let* locked := tick locked_by_others in
  match stale_rows cutoff locked limit d with
  | [] => rollback ;;; ret 0
  | stale =>
      let* ps := attach_all false stale in
      for_each (release_one settings now jitter) ps ;;;
      commit ;;;
      ret (Z.of_nat (length ps))
  end.

(** [request_id_var.set(...)] around a block, reset in [finally]. *)
Definition with_request_id {A} (prefix : string) (m : M A) : M A := fun w =>
  let '(r, w') := bind (tick token_hex) (fun u w1 =>
    m (w1 <| request_id := Some (prefix +:+ str_take 16 u) |>)) w in
  (r, w' <| request_id := request_id w |>).

(** The loop of [run_worker_pass]: at most [slots] more claims. *)
Fixpoint worker_loop (has_notifier : bool) (settings : Settings) (worker : string)
    (jitter : JitterFn) (slots : nat) (processed : Z) : M Z :=
  match slots with
  | O => ret processed
  | S slots' =>
      let* more := with_request_id "ntf-" (
        let* now := utcnow in
        begin_tx ;;;
        let* claimed := claim_next_due worker now in
        match claimed with
        | None => ret false
        | Some c => execute_claimed_attempt has_notifier settings c jitter ;;; ret true
        end) in
      if (more : bool)
      then worker_loop has_notifier settings worker jitter slots' (processed + 1)
      else ret processed
  end.

Definition run_worker_pass (has_notifier : bool) (settings : Settings) (worker : string)
    (jitter : JitterFn) (batch_size : nat) : M (Z * Z) :=
  let* recovered := with_request_id "ntf-" (
    let* now := utcnow in release_stale_claims settings now jitter 100) in
  let* processed := worker_loop has_notifier settings worker jitter batch_size 0 in
  ret (recovered, processed).

(** [execute_manual_accept]. *)
Definition execute_manual_accept (pid : Z) (note : string) (now : Z)
  : M (option ManualAcceptOutcome) :=
  let* found := select_payment_by_id true pid in
  match found with
  | None => rollback ;;; ret None
  | Some p =>
      let st := status p in
      let verified := is_some (gateway_verified_at p) in
      match determine_manual_accept_refusal p with
      | Some why => rollback ;;; ret (Some (mkManualAccept false st verified (Some why)))
      | None =>
          let previous_reason := bot_notify_reason p in
          let* p := upd p (apply_accepted_state now) in
          record_event (Some (id p)) "manual_bot_notification_accepted" "info"
            [("operator", JStr "host-cli"); ("note", JStr (str_take 500 note));
             ("previous_reason", jstr_opt previous_reason)] ;;;
          commit ;;;
          ret (Some (mkManualAccept true BOT_NOTIFY_ACCEPTED verified None))
      end
  end.

End Delivery.

(** ** Facts *)

(** ** The retry delay *)

Lemma round_half_even_ge (a : Z) (q : Q) : (inject_Z a <= q)%Q -> a <= round_half_even q.
Proof.
  unfold Qle, round_half_even. cbn. intros Ha.
  assert (a <= Qnum q / Z.pos (Qden q)) by (apply Z.div_le_lower_bound; lia).
  repeat case_match; lia.
Qed.

Lemma round_half_even_le (b : Z) (q : Q) : (q <= inject_Z b)%Q -> round_half_even q <= b.
Proof.
  unfold Qle, round_half_even. cbn. intros Hb. rewrite Z.mul_1_r in Hb.
  pose proof (Z.div_mod (Qnum q) (Z.pos (Qden q))) as Hdm.
  pose proof (Z.mod_pos_bound (Qnum q) (Z.pos (Qden q))) as Hm.
  set (f := Qnum q / Z.pos (Qden q)) in *. set (r := Qnum q mod Z.pos (Qden q)) in *.
  assert (Hf : f <= b) by nia.
  assert (Hr : f = b -> r = 0) by nia.
  destruct (2 * r <? Z.pos (Qden q)) eqn:E1; [done|]. bool_to_prop.
  assert (f + 1 <= b) by (destruct (decide (f = b)) as [->|]; [|lia]; specialize (Hr eq_refl); lia).
  repeat case_match; lia.
Qed.

Lemma scheduled_delay_range a :
  60 <= nth (Z.to_nat (Z.min (Z.max a 1) (Z.of_nat (length RETRY_DELAYS_SECONDS)) - 1))
          RETRY_DELAYS_SECONDS 0 <= 3600.
Proof.
  cbn [length RETRY_DELAYS_SECONDS]. set (i := Z.to_nat _).
  assert (Hi : (i < 6)%nat) by lia. clearbody i.
  do 6 (destruct i as [|i]; [cbn; lia|]). lia.
Qed.

Definition jitter_ok (j : Q) : Prop := (85 # 100 <= j /\ j <= 115 # 100)%Q.

Definition server_delay_ok (o : option Z) : Prop :=
  match o with Some s => s <= MAX_RETRY_AFTER_SECONDS | None => True end.

(** With the jitter of [default_jitter], a retry waits between 51 seconds and
    69 minutes. *)
Lemma retry_delay_range a ra j : jitter_ok j -> server_delay_ok ra ->
  (inject_Z 51 <= retry_delay_seconds a ra j /\ retry_delay_seconds a ra j <= inject_Z 4140)%Q.
Proof.
  intros [Hj1 Hj2] Hra. unfold retry_delay_seconds.
  pose proof (scheduled_delay_range a) as Hd. set (d := nth _ _ _) in *. clearbody d. clear a.
  assert (Hlow : (inject_Z 51 <= inject_Z d * j)%Q) by (unfold Qle in *; cbn in *; nia).
  assert (Hhigh : (inject_Z d * j <= inject_Z 4140)%Q) by (unfold Qle in *; cbn in *; nia).
  destruct ra as [s|]; [|done]. destruct (Qle_bool (inject_Z s) (inject_Z d * j)) eqn:Hs; cbn [negb].
  - done.
  - assert (Hn : ~ (inject_Z s <= inject_Z d * j)%Q) by (rewrite <- Qle_bool_iff; congruence).
    unfold server_delay_ok, MAX_RETRY_AFTER_SECONDS in Hra. split.
    + apply Qnot_le_lt in Hn. apply Qlt_le_weak. eapply Qle_lt_trans; eauto.
    + unfold Qle. cbn. lia.
Qed.

Lemma microseconds_range a b q : (inject_Z a <= q)%Q -> (q <= inject_Z b)%Q ->
  seconds a <= microseconds q <= seconds b.
Proof.
  intros Ha Hb. unfold microseconds. split.
  - apply round_half_even_ge. unfold seconds. rewrite inject_Z_mult.
    by apply Qmult_le_compat_r.
  - apply round_half_even_le. unfold seconds. rewrite inject_Z_mult.
    by apply Qmult_le_compat_r.
Qed.

(** ** The rows the branches leave *)

Definition review_row (reason : string) (now : Z) (row : Payment) : Payment :=
  clear_claim
    (row <| status := MANUAL_REVIEW |> <| bot_notify_reason := Some reason |>
         <| manual_review_at := Some now |> <| next_retry_at := None |>
         <| last_error := Some ("bot notification: " +:+ reason) |>).

Definition retry_row (reason error : option string) (retry_at : Z) (row : Payment) : Payment :=
  clear_claim (row <| bot_notify_reason := reason |> <| last_error := error |>
                   <| next_retry_at := Some retry_at |>).

Definition answered_row (o : AttemptOutcome) (row : Payment) : Payment :=
  row <| bot_last_http_status := outcome_http_status o |>
      <| bot_last_error_code := outcome_error_code o |>.

Definition result_row (settings : Settings) (c : ClaimedPayment) (o : AttemptOutcome)
    (now retry_at : Z) (row : Payment) : Payment :=
  let row := answered_row o row in
  match effective_kind settings o with
  | ACCEPTED => apply_accepted_state now row
  | RETRYABLE =>
      if bot_notify_max_attempts settings <=? attempt c
      then review_row (reason_value RETRY_LIMIT_REACHED) now row
      else retry_row (Some (reason_code o))
             (Some ("bot notification failed: " +:+ reason_code o)) retry_at row
  | AMBIGUOUS => review_row (reason_value BOT_TIMEOUT_AMBIGUOUS) now row
  | MANUAL => review_row (reason_code o) now row
  end.

(** The business events of each branch, newest first. *)
Definition result_trail (settings : Settings) (c : ClaimedPayment) (o : AttemptOutcome)
  : list string :=
  match effective_kind settings o with
  | ACCEPTED => ["bot_notification_accepted"]
  | RETRYABLE =>
      if bot_notify_max_attempts settings <=? attempt c
      then ["manual_review_required"; "bot_notification_failed"]
      else ["bot_notification_retry_scheduled"; "bot_notification_failed"]
  | AMBIGUOUS => ["manual_review_required"; "bot_timeout_ambiguous"]
  | MANUAL => ["manual_review_required"; "bot_notification_failed"]
  end.

Lemma legal_answered o row : row_legal row (answered_row o row).
Proof. by row_legal_tac. Qed.

Lemma legal_retry reason error t row : row_legal row (retry_row reason error t row).
Proof. by row_legal_tac. Qed.

Lemma legal_review reason now row :
  status row = BOT_NOTIFY_PENDING -> row_legal row (review_row reason now row).
Proof. intros Hs. row_legal_tac. split_and!; try done; congruence. Qed.

Lemma legal_accept now row :
  status row = BOT_NOTIFY_PENDING -> row_legal row (apply_accepted_state now row).
Proof. intros Hs. row_legal_tac. rewrite Hs in *. cbn in *. split_and!; try done; auto. Qed.

(** ** The claim *)

Lemma nulls_last_total a b : nulls_last a b = true \/ nulls_last b a = true.
Proof. destruct a, b; cbn; auto. rewrite !Z.leb_le. lia. Qed.

Lemma nulls_last_trans a b c : nulls_last a b = true -> nulls_last b c = true -> nulls_last a c = true.
Proof. destruct a, b, c; cbn; try done. rewrite !Z.leb_le. lia. Qed.

Lemma pick_min_retry_least l row : pick_min retry_order l = Some row ->
  forall r, In r l -> retry_order row r = true.
Proof.
  apply pick_min_least; unfold retry_order; intros; eauto using nulls_last_total, nulls_last_trans.
Qed.

(** The row a claim leaves behind. *)
Definition claimed_row (worker : string) (attempt now : Z) (row : Payment) : Payment :=
  row <| bot_notify_attempts := attempt |> <| notification_claimed_at := Some now |>
      <| notification_claimed_by := Some worker |>.

Section DeliveryFacts.
Context `{Env}.

Lemma legal_claim (b : bool) a t s row :
  row_legal row (let r := row <| bot_notify_attempts := a |> <| notification_claimed_at := Some t |>
                              <| notification_claimed_by := Some s |> in
                 if b then r <| bot_notify_started_at := Some t |> else r).
Proof. destruct b; by row_legal_tac. Qed.

Lemma wp_claim_next_due w0 worker now (Q : Res (option ClaimedPayment) -> World -> Prop) w :
  steady w0 w ->
  (forall w', (forall i row, payments (working w) !! i = Some row ->
                 due_for_notification now row = false \/ locked_by_others (ticks w) i = true) ->
     steady w0 w' -> committed w' = committed w -> working w' = committed w ->
     calls w' = calls w -> Q (Ret None) w') ->
  (forall row w', payments (working w) !! id row = Some row ->
     due_for_notification now row = true ->
     locked_by_others (ticks w) (id row) = false ->
     (forall i r, payments (working w) !! i = Some r -> due_for_notification now r = true ->
        locked_by_others (ticks w) i = false -> retry_order row r = true) ->
     let attempt := bot_notify_attempts (object_of w false row) + 1 in
     let row' := (if is_none (bot_notify_started_at (object_of w false row))
                  then claimed_row worker attempt now row <| bot_notify_started_at := Some now |>
                  else claimed_row worker attempt now row) in
     settled w0 w [] ["bot_notification_started"] row' w' ->
     Q (Ret (Some (mkClaimed (id row) (bot_order_id row)
                     (gateway_order_id (object_of w false row)) attempt worker))) w') ->
  wp (claim_next_due worker now) Q w.
Proof.
  intros S Hnone Hsome. pose proof (ok_keyed _ (so_working w (proj1 S))) as Hid.
  unfold claim_next_due. do 4 wp_step.
  assert (S1 : steady w0 w') by (eapply steady_trans; [exact S|eapply steady_called; eauto; apply S]).
  destruct (pick_min _ _) as [row|] eqn:Hpick.
  - pose proof (pick_min_retry_least _ _ Hpick) as Hleast.
    apply pick_min_In, filter_In in Hpick as [[i Hi]%in_rows Hdue]. bool_to_prop.
    pose proof (Hid i row Hi) as <-.
    assert (Hobj : object_of w' false row = object_of w false row)
      by (unfold object_of; by rewrite (ca_map _ _ _ H0)).
    apply wp_bind, wp_attach. intros w2 A.
    apply (holding_start w0 w' false (id row)) in A; [|done|by rewrite (ca_working _ _ _ H0)].
    rewrite Hobj in *. set (p := object_of w false row) in *.
    apply wp_bind, wp_upd. intros w3 U.
    apply (holding_updated w0 w' A) in U; [|apply legal_claim
      |destruct (is_none _); apply (ho_key _ _ _ _ _ _ _ A)|by destruct (is_none _)].
    clear A. do 4 hold_step. wp_step. apply (settled_called w0 w) in U; [|done].
    pose proof (same_key_object w false (id row) row (proj1 S) Hi) as E0. fold p in E0.
    pose proof (same_key_id _ _ E0) as E1. pose proof (same_key_order _ _ E0) as E2.
    assert (Hmin : forall i r, payments (working w) !! i = Some r -> due_for_notification now r = true ->
        locked_by_others (ticks w) i = false -> retry_order row r = true).
    { intros i r Hr Hd Hl. apply Hleast, filter_In. split; [apply in_rows; eauto|].
      by rewrite Hd, (Hid i r Hr), Hl. }
    destruct (is_none (bot_notify_started_at p)) eqn:Hst; cbn;
      (replace (id p) with (id row) by done); (replace (bot_order_id p) with (bot_order_id row) by done);
      apply (Hsome row); subst p; try done; by rewrite Hst.
  - apply pick_min_None in Hpick. repeat wp_step. apply Hnone.
    + intros i row Hi. destruct (locked_by_others (ticks w) i) eqn:Hl; [by right|left].
      apply not_true_iff_false. intros Hd. pose proof (Hid i row Hi) as <-.
      assert (Hin : In row []); [|done]. rewrite <- Hpick. apply filter_In. split.
      * apply in_rows. eauto.
      * by rewrite Hd, Hl.
    + eapply steady_trans; [exact S1|]. eapply steady_rollback; [done|apply S1].
    + ws. done.
    + ws. done.
    + ws. done.
Qed.


(** ** Recording the result of an attempt *)

Lemma wp_hold_review {w0 w1 cs es p row w} reason attempt now (Q : Res Payment -> World -> Prop) :
  holding w0 w1 cs es p row w -> status row = BOT_NOTIFY_PENDING ->
  (forall w', holding w0 w1 cs ("manual_review_required" :: es) (review_row reason now p)
                (review_row reason now row) w' -> Q (Ret (review_row reason now p)) w') ->
  wp (move_to_manual_review p reason attempt now) Q w.
Proof.
  intros HO Hst HQ. unfold move_to_manual_review. apply wp_bind, wp_upd. intros w' U.
  apply (holding_updated w0 w1 HO) in U; [|by apply legal_review| |reflexivity].
  - clear HO. do 2 hold_step. hold_step. by apply HQ.
  - apply (ho_key _ _ _ _ _ _ _ HO).
Qed.

Definition retry_times (c : ClaimedPayment) (ra : option Z) (now : Z) (jitter : JitterFn) (t : Z) :=
  exists n, t = now + microseconds (retry_delay_seconds (attempt c) ra (jitter n)).

Lemma wp_record_retryable {w0 w1 cs es p row w} settings c o duration now jitter
    (Q : Res unit -> World -> Prop) :
  holding w0 w1 cs es p row w -> status row = BOT_NOTIFY_PENDING ->
  (forall w', bot_notify_max_attempts settings <= attempt c ->
     holding w0 w1 cs ("manual_review_required" :: "bot_notification_failed" :: es)
       (review_row (reason_value RETRY_LIMIT_REACHED) now p)
       (review_row (reason_value RETRY_LIMIT_REACHED) now row) w' -> Q (Ret tt) w') ->
  (forall t w', attempt c < bot_notify_max_attempts settings ->
     retry_times c (outcome_retry_after o) now jitter t ->
     let retry := retry_row (Some (reason_code o))
                    (Some ("bot notification failed: " +:+ reason_code o)) t in
     holding w0 w1 cs ("bot_notification_retry_scheduled" :: "bot_notification_failed" :: es)
       (retry p) (retry row) w' -> Q (Ret tt) w') ->
  wp (record_retryable settings c o duration now jitter p) Q w.
Proof.
  intros HO Hst Hlim Hret. unfold record_retryable. do 2 hold_step.
  destruct (bot_notify_max_attempts settings <=? attempt c) eqn:E; bool_to_prop.
  - apply wp_bind, (wp_hold_review _ _ _ _ HO Hst). intros w' HO'. apply wp_ret. auto.
  - apply wp_bind. apply wp_tick. intros wc C. apply (holding_called w0 w1 HO) in C.
    apply wp_bind, wp_upd. intros wu U.
    apply (holding_updated w0 w1 C) in U; [|apply legal_retry|apply (ho_key _ _ _ _ _ _ _ C)|reflexivity].
    clear C HO. hold_step. cbv zeta in Hret. eapply Hret; [done| |exact U].
    by eexists.
Qed.

Lemma claim_current_pending c row : claim_is_current c row = true -> status row = BOT_NOTIFY_PENDING.
Proof. unfold claim_is_current. intros. by bool_to_prop. Qed.

Lemma wp_discard_result `{!Rely} c o w : sound w -> working w = committed w ->
  wp (discard_result c o) (fun r w' => r = Ret tt /\ steady w w' /\ committed w' = working w' /\ calls w' = calls w /\
    exists n, payments (committed w') = payments (others n (committed w)) /\
      trail (committed w') = "bot_notification_result_discarded" :: trail (others n (committed w))) w.
Proof.
  intros Hs Hf. unfold discard_result. apply wp_bind, wp_begin_tx. intros w1 B.
  pose proof (steady_began _ _ B Hf Hs) as S1. apply wp_bind, wp_record_event. intros w2 A.
  pose proof (steady_audited _ _ _ A (proj1 S1)) as S2. apply wp_commit. intros w3 C.
  split_and!; [done| |by ws|by ws|].
  - eapply steady_trans; [exact S1|]. eapply steady_trans; [exact S2|]. by eapply steady_commit; [|apply S2].
  - destruct (bg_committed _ _ B) as [n E]. exists n. rewrite <- E, <- (bg_working _ _ B).
    split; [by ws|]. unfold trail. by ws.
Qed.

Lemma wp_record_attempt_result w0 settings c o duration now jitter row
    (Q : Res unit -> World -> Prop) w :
  steady w0 w -> payments (working w) !! payment_id c = Some row ->
  (forall t w', claim_is_current c row = true ->
     (effective_kind settings o = RETRYABLE -> attempt c < bot_notify_max_attempts settings ->
      retry_times c (outcome_retry_after o) now jitter t) ->
     settled w0 w [] (result_trail settings c o) (result_row settings c o now t row) w' ->
     Q (Ret tt) w') ->
  (forall w', claim_is_current c row = false -> steady w0 w' -> working w' = committed w' ->
     committed w' = committed w -> calls w' = calls w -> wp (discard_result c o) Q w') ->
  wp (record_attempt_result settings c o duration now jitter) Q w.
Proof.
  intros S Hrow Hcur Hstale. unfold record_attempt_result.
  apply wp_bind, wp_select_by_id. rewrite Hrow. intros w1 A. change (object_of w true row) with row in *.
  destruct (claim_is_current c row) eqn:Hc; cbn [negb].
  2:{ clear Hcur. apply (holding_start w0 w true _ _ _ S Hrow) in A.
      wp_step. apply wp_rollback. intros w2 R. destruct (holding_rollback _ _ A _ R) as (S2 & E1 & E2 & E3). clear R.
      apply Hstale; [done|exact S2|congruence|done|exact E3]. }
  clear Hstale. pose proof (claim_current_pending _ _ Hc) as Hst.
  apply (holding_start w0 w true _ _ _ S Hrow) in A.
  change (object_of w true row) with row in *. wp_step.
  apply wp_upd. intros w2 U. apply (holding_updated w0 w A) in U; [|apply (legal_answered o)|done|reflexivity].
  clear A. change (row <| _ := _ |> <| _ := _ |>) with (answered_row o row) in *.
  assert (Hst' : status (answered_row o row) = BOT_NOTIFY_PENDING) by done.
  pose proof (fun t w' => Hcur t w' eq_refl) as Hfin. clear Hcur.
  apply wp_bind. unfold result_row, result_trail in Hfin. destruct (effective_kind settings o) eqn:Ek.
  - wp_step. apply wp_upd. intros wu U3.
    apply (holding_updated w0 w U) in U3; [|by apply legal_accept|done|reflexivity]. clear U.
    do 2 hold_step. by apply (Hfin 0).
  - apply (wp_record_retryable _ _ _ _ _ _ _ U Hst').
    + intros wu Hl HO. hold_step. apply (Hfin 0); [lia|].
      by rewrite (proj2 (Z.leb_le _ _)) by done.
    + cbv zeta. intros t wu Hl Ht HO. hold_step. apply (Hfin t); [done|].
      by rewrite (proj2 (Z.leb_gt _ _)) by done.
  - do 2 hold_step. apply wp_bind, (wp_hold_review _ _ _ _ U Hst'). intros wu HO. apply wp_ret.
    hold_step. by apply (Hfin 0).
  - do 2 hold_step. apply wp_bind, (wp_hold_review _ _ _ _ U Hst'). intros wu HO. apply wp_ret.
    hold_step. by apply (Hfin 0).
Qed.

(** ** Properties of one attempt *)

Lemma result_row_released settings c o now t row :
  let row' := result_row settings c o now t row in
  id row' = id row /\ verification_fact row' = verification_fact row /\
  bot_notify_attempts row' = bot_notify_attempts row /\
  notification_claimed_at row' = None /\ notification_claimed_by row' = None.
Proof. unfold result_row. repeat case_match; done. Qed.

Lemma retry_times_range c ra now jitter t :
  (forall n, jitter_ok (jitter n)) -> server_delay_ok ra -> retry_times c ra now jitter t ->
  now + seconds 51 <= t <= now + seconds 4140.
Proof.
  intros Hj Hra [n ->]. destruct (retry_delay_range (attempt c) ra (jitter n) (Hj n) Hra).
  pose proof (microseconds_range 51 4140 (retry_delay_seconds (attempt c) ra (jitter n))). intuition lia.
Qed.

Lemma effective_kind_retryable settings o : effective_kind settings o = RETRYABLE ->
  kind o = RETRYABLE \/ kind o = AMBIGUOUS /\ bot_notify_retry_mode settings = idempotent.
Proof.
  unfold effective_kind. destruct (kind o) eqn:Ek; try done.
  - by left.
  - destruct (bot_notify_retry_mode settings); [done|by right].
Qed.

Lemma effective_kind_accepted settings o : effective_kind settings o = ACCEPTED <-> kind o = ACCEPTED.
Proof.
  unfold effective_kind. destruct (kind o), (bot_notify_retry_mode settings); try done;
    by destruct (safe_mode_non_retryable _).
Qed.

(** Recording the result of an attempt whose claim is still current always
    succeeds, sends nothing, changes no other payment, releases the claim and
    keeps the verification facts and the attempt count; the payment becomes
    accepted only on a 2xx outcome, stays pending only for a retryable (or,
    in idempotent mode, ambiguous) outcome under the attempt limit, with a
    next attempt 51 seconds to 69 minutes ahead, and otherwise goes to manual
    review with no further attempt scheduled. *)
Theorem record_attempt_result_current settings c o duration now jitter w row :
  sound w -> payments (working w) !! payment_id c = Some row -> claim_is_current c row = true ->
  (forall n, jitter_ok (jitter n)) -> server_delay_ok (outcome_retry_after o) ->
  wp (record_attempt_result settings c o duration now jitter) (fun r w' =>
    r = Ret tt /\ calls w' = calls w /\ sound w' /\
    trail (committed w') = result_trail settings c o ++ trail (working w) /\
    exists row', payments (committed w') = <[payment_id c := row']> (payments (working w)) /\
      verification_fact row' = verification_fact row /\
      bot_notify_attempts row' = bot_notify_attempts row /\
      notification_claimed_at row' = None /\ notification_claimed_by row' = None /\
      match status row' with
      | BOT_NOTIFY_ACCEPTED => kind o = ACCEPTED /\ bot_notify_accepted_at row' = Some now
      | BOT_NOTIFY_PENDING =>
          (kind o = RETRYABLE \/
           kind o = AMBIGUOUS /\ bot_notify_retry_mode settings = idempotent) /\
          attempt c < bot_notify_max_attempts settings /\
          exists t, next_retry_at row' = Some t /\ now + seconds 51 <= t <= now + seconds 4140
      | MANUAL_REVIEW => kind o <> ACCEPTED /\ next_retry_at row' = None
      | _ => False
      end) w.
Proof.
  intros Hs Hrow Hcur Hj Hra. pose proof (ok_keyed _ (so_working w Hs)) as Hid.
  apply (wp_record_attempt_result w _ _ _ _ _ _ row); [by apply steady_refl|done| |congruence].
  intros t w' _ Ht [S E P Hc T].
  destruct (result_row_released settings c o now t row) as (Ei & Ev & Ea & E1 & E2).
  split_and!; [done|done|apply S|done|]. exists (result_row settings c o now t row).
  rewrite P, Ei, (Hid _ _ Hrow). split_and!; [done..|].
  pose proof (claim_current_pending _ _ Hcur) as Hst.
  pose proof (effective_kind_accepted settings o) as Hacc.
  pose proof (effective_kind_retryable settings o) as Hretry.
  unfold result_row. destruct (effective_kind settings o) eqn:Ek.
  - cbn. by rewrite <- Hacc.
  - destruct (bot_notify_max_attempts settings <=? attempt c) eqn:El; cbn; bool_to_prop.
    + split; [|done]. by rewrite <- Hacc.
    + rewrite Hst. split_and!; [auto|done|]. eexists. split; [done|]. by eapply retry_times_range; eauto.
  - cbn. split; [|done]. by rewrite <- Hacc.
  - cbn. split; [|done]. by rewrite <- Hacc.
Qed.

(** A result that arrives after the claim was released, taken over or
    resolved elsewhere never touches any payment, whatever stale object the
    session still caches for the row: it only leaves one discard event, on top
    of what other sessions committed. *)
Theorem record_attempt_result_stale `{!Rely} settings c o duration now jitter w row :
  sound w -> payments (working w) !! payment_id c = Some row -> claim_is_current c row = false ->
  wp (record_attempt_result settings c o duration now jitter) (fun r w' =>
    r = Ret tt /\ calls w' = calls w /\ exists n, payments (committed w') = payments (others n (committed w)) /\
      trail (committed w') = "bot_notification_result_discarded" :: trail (others n (committed w))) w.
Proof.
  intros Hs Hrow Hcur.
  apply (wp_record_attempt_result w _ _ _ _ _ _ row); [by apply steady_refl|done|congruence|].
  intros w' _ S Hf Ec Hc. eapply wp_mono; [apply wp_discard_result; [apply S|done]|].
  intros r w2 (-> & _ & _ & Hc2 & n & Hp & Ht). rewrite Ec in Hp, Ht. split_and!; [done|congruence|by exists n].
Qed.

(** An outcome that may already have credited the user. *)
Definition possibly_delivered (o : AttemptOutcome) : bool :=
  bool_decide (kind o = AMBIGUOUS) || safe_mode_non_retryable (outcome_http_status o).

(** C16: In safe mode an outcome that may already have reached the bot (an
    ambiguous transport failure, or HTTP 500/502/503/504 classified retryable)
    is never sent again automatically: the payment goes to manual review,
    where neither the claim query at any later time nor stale-claim recovery
    selects it. *)
Theorem safe_mode_never_resends settings c o duration now jitter w row :
  sound w -> payments (working w) !! payment_id c = Some row -> claim_is_current c row = true ->
  bot_notify_retry_mode settings = safe -> kind o <> ACCEPTED -> possibly_delivered o = true ->
  wp (record_attempt_result settings c o duration now jitter) (fun r w' =>
    exists row', payments (committed w') !! payment_id c = Some row' /\
      status row' = MANUAL_REVIEW /\ next_retry_at row' = None /\
      forall t, due_for_notification t row' = false /\ stale_claim t row' = false) w.
Proof.
  intros Hs Hrow Hcur Hm Hk Hp. pose proof (ok_keyed _ (so_working w Hs)) as Hid.
  apply (wp_record_attempt_result w _ _ _ _ _ _ row); [by apply steady_refl|done| |congruence].
  intros t w' _ _ [S E P _ _].
  destruct (result_row_released settings c o now t row) as (Ei & _).
  exists (result_row settings c o now t row).
  rewrite P, Ei, (Hid _ _ Hrow), lookup_insert_eq.
  assert (Hr : status (result_row settings c o now t row) = MANUAL_REVIEW /\
               next_retry_at (result_row settings c o now t row) = None).
  { unfold result_row, effective_kind, possibly_delivered in *. rewrite Hm.
    by destruct (kind o), (safe_mode_non_retryable (outcome_http_status o)). }
  destruct Hr as [Hr1 Hr2]. split_and!; [done..|].
  intros u. unfold due_for_notification, stale_claim. by rewrite Hr1.
Qed.

(** A claim either takes a due payment (pending, verified, unclaimed, its
    retry time reached, not locked by another session) with the earliest retry
    time, commits the claim with one more attempt, so that no later claim query
    selects the row and the result of exactly this attempt will be accepted,
    and changes no other payment; or it reports that no unlocked payment is
    due and changes nothing. It never fails and sends nothing. *)
Theorem claim_next_due_exclusive worker now w :
  sound w ->
  wp (claim_next_due worker now) (fun r w' =>
    calls w' = calls w /\
    match r with
    | Ret (Some c) => exists row row',
        payments (working w) !! payment_id c = Some row /\
        due_for_notification now row = true /\ is_some (gateway_verified_at row) = true /\
        (forall i other, payments (working w) !! i = Some other ->
           due_for_notification now other = true -> locked_by_others (ticks w) i = false ->
           retry_order row other = true) /\
        payments (committed w') = <[payment_id c := row']> (payments (working w)) /\
        claim_is_current c row' = true /\ claimed_bot_order_id c = bot_order_id row /\
        (identity_map w !! payment_id c = None -> attempt c = bot_notify_attempts row + 1) /\
        verification_fact row' = verification_fact row /\
        forall t, due_for_notification t row' = false
    | Ret None =>
        payments (committed w') = payments (committed w) /\
        forall i row, payments (working w) !! i = Some row ->
          due_for_notification now row = false \/ locked_by_others (ticks w) i = true
    | Raise _ => False
    end) w.
Proof.
  intros Hs. apply (wp_claim_next_due w); [by apply steady_refl| |].
  - intros w' Hno _ Hcm _ Hc. split; [done|]. split; [congruence|done].
  - intros row w' Hrow Hdue Hl Hmin. cbv zeta. set (p := object_of w false row).
    set (row' := if is_none _ then _ else _). intros [_ _ P Hc _]. split; [done|].
    assert (Hrow' : id row' = id row /\ status row' = status row /\
        notification_claimed_at row' = Some now /\ notification_claimed_by row' = Some worker /\
        bot_notify_attempts row' = bot_notify_attempts p + 1 /\
        verification_fact row' = verification_fact row)
      by (subst row'; by destruct (is_none _)).
    destruct Hrow' as (E1 & E2 & E3 & E4 & E5 & E6). clearbody row'. rewrite E1 in P.
    pose proof Hdue as Hdue'. unfold due_for_notification in Hdue'. bool_to_prop.
    exists row, row'. cbn. split_and!; try done.
    + apply is_some_true. eauto.
    + unfold claim_is_current. cbn. rewrite E2, E4, E5, Z.eqb_refl.
      by rewrite !bool_decide_true by done.
    + intros Hm. subst p. unfold object_of. by rewrite Hm.
    + intros t. unfold due_for_notification. rewrite E3. cbn. by rewrite andb_false_r.
Qed.

(** ** Recovery of interrupted claims *)

Definition recovered_row (settings : Settings) (attempts now t : Z) (row : Payment) : Payment :=
  match bot_notify_retry_mode settings with
  | idempotent =>
      if bot_notify_max_attempts settings <=? attempts
      then review_row (reason_value RETRY_LIMIT_REACHED) now row
      else retry_row (Some (reason_value BOT_TIMEOUT_AMBIGUOUS)) (last_error row) t row
  | safe => review_row (reason_value BOT_TIMEOUT_AMBIGUOUS) now row
  end.

Definition recovery_times (attempts now : Z) (jitter : JitterFn) (t : Z) : Prop :=
  exists n, t = now + microseconds (retry_delay_seconds attempts None (jitter n)).

Lemma wp_release_one {w0 w1 cs es p row w} settings now jitter (Q : Res unit -> World -> Prop) :
  holding w0 w1 cs es p row w -> status row = BOT_NOTIFY_PENDING ->
  (forall t es' p' w', recovery_times (bot_notify_attempts p) now jitter t ->
     holding w0 w1 cs es' p' (recovered_row settings (bot_notify_attempts p) now t row) w' ->
     Q (Ret tt) w') ->
  wp (release_one settings now jitter p) Q w.
Proof.
  intros HO Hst HQ. unfold release_one.
  assert (Ht : recovery_times (bot_notify_attempts p) now jitter
                 (now + microseconds (retry_delay_seconds (bot_notify_attempts p) None (jitter 0%nat))))
    by (by eexists).
  unfold recovered_row in HQ. destruct (bot_notify_retry_mode settings).
  - cbn [bool_decide]. rewrite bool_decide_false by done. cbn [andb].
    do 4 hold_step. apply wp_bind, (wp_hold_review _ _ _ _ HO Hst). intros wu HO'. apply wp_ret.
    by eapply HQ.
  - rewrite bool_decide_true by done. cbn [andb].
    destruct (bot_notify_max_attempts settings <=? bot_notify_attempts p).
    + do 2 hold_step. apply wp_bind, (wp_hold_review _ _ _ _ HO Hst). intros wu HO'. apply wp_ret.
      by eapply HQ.
    + apply wp_bind, wp_tick. intros wc C. apply (holding_called w0 w1 HO) in C.
      apply wp_bind, wp_upd. intros wu U.
      apply (holding_updated w0 w1 C (fun r => retry_row (Some (reason_value BOT_TIMEOUT_AMBIGUOUS))
               (last_error r) _ r)) in U;
        [|apply legal_retry|apply (ho_key _ _ _ _ _ _ _ C)|reflexivity].
      clear C HO. hold_step. eapply HQ; [by eexists|exact U].
Qed.

(** What recovery makes of the row of an object. *)
Definition recovers (settings : Settings) (now : Z) (jitter : JitterFn) (p row row' : Payment) : Prop :=
  exists t, recovery_times (bot_notify_attempts p) now jitter t /\
    row' = recovered_row settings (bot_notify_attempts p) now t row.

Lemma recovered_row_id settings a now t row : id (recovered_row settings a now t row) = id row.
Proof. unfold recovered_row. by repeat case_match. Qed.

Lemma wp_attach_all w0 b rs (Q : Res (list Payment) -> World -> Prop) w :
  steady w0 w -> NoDup (map id rs) ->
  (forall row, In row rs -> payments (working w) !! id row = Some row) ->
  (forall w', steady w0 w' -> working w' = working w -> committed w' = committed w ->
     calls w' = calls w -> Q (Ret (map (object_of w b) rs)) w') ->
  wp (attach_all b rs) Q w.
Proof.
  revert w Q. induction rs as [|row rs IH]; intros w Q S Hnd Hrows HQ; cbn [attach_all map].
  { apply wp_ret. by apply HQ. }
  cbn in Hnd. apply NoDup_cons in Hnd as [Hni Hnd]. rewrite list_elem_of_In in Hni.
  apply wp_bind, wp_attach. intros w1 A.
  assert (Hrow : payments (working w) !! id row = Some row) by (apply Hrows; by left).
  assert (S1 : steady w0 w1)
    by (eapply steady_trans; [exact S|]; eapply steady_attached; [exact A|exact Hrow|apply S]).
  apply wp_bind, IH; [done|done| |].
  - intros r Hr. rewrite (at_working _ _ _ _ A). apply Hrows. by right.
  - intros w2 S2 E1 E2 E3. apply wp_ret. replace (map (object_of w1 b) rs) with (map (object_of w b) rs).
    + apply HQ; [done|..].
      * by rewrite E1, (at_working _ _ _ _ A).
      * by rewrite E2, (at_committed _ _ _ _ A).
      * by rewrite E3, (at_calls _ _ _ _ A).
    + apply map_ext_in. intros r Hr. unfold object_of. destruct b; [done|]. rewrite (at_map _ _ _ _ A).
      rewrite lookup_insert_ne; [done|]. intros Heq. apply Hni. rewrite Heq. by apply in_map.
Qed.

Lemma stale_rows_spec cutoff locked limit d : keyed id (payments d) ->
  let stale := stale_rows cutoff locked limit d in
  NoDup (map id stale) /\
  forall row, In row stale -> payments d !! id row = Some row /\
    stale_claim cutoff row = true /\ locked (id row) = false.
Proof.
  intros Hk. split; [by apply select_batch_NoDup, keyed_rows_NoDup|].
  intros row [[i Hi]%in_rows Hf]%select_batch_In. bool_to_prop.
  pose proof (Hk i row Hi) as <-. by split_and!.
Qed.

Lemma release_stale_claims_spec settings now jitter limit w :
  sound w ->
  let cutoff := now - bot_notify_claim_timeout settings in
  let locked := locked_by_others (ticks w) in
  let stale := stale_rows cutoff locked limit (working w) in
  wp (release_stale_claims settings now jitter limit) (fun r w' =>
    steady w w' /\ committed w' = working w' /\ r = Ret (Z.of_nat (length stale)) /\ calls w' = calls w /\
    (payments (working w) = payments (committed w) ->
     forall i, ~ In i (map id stale) -> payments (committed w') !! i = payments (working w) !! i) /\
    (forall row, In row stale -> exists row', payments (committed w') !! id row = Some row' /\
       verification_fact row' = verification_fact row /\ notification_claimed_at row' = None /\
       let attempts := bot_notify_attempts (object_of w false row) in
       match status row' with
       | MANUAL_REVIEW => bot_notify_retry_mode settings = safe \/
                          bot_notify_max_attempts settings <= attempts
       | BOT_NOTIFY_PENDING => bot_notify_retry_mode settings = idempotent /\
           attempts < bot_notify_max_attempts settings /\
           exists t, next_retry_at row' = Some t /\ recovery_times attempts now jitter t
       | _ => False
       end) /\
    ((length stale < limit)%nat -> forall i row, payments (working w) !! i = Some row ->
       stale_claim cutoff row = true -> locked i = false -> In row stale)) w.
Proof.
  intros Hs. cbv zeta. pose proof (ok_keyed _ (so_working w Hs)) as Hid.
  set (cutoff := now - _). set (locked := locked_by_others _).
  destruct (stale_rows_spec cutoff locked limit (working w) Hid) as [Hnd Hst].
  assert (Hcomplete : (length (stale_rows cutoff locked limit (working w)) < limit)%nat ->
     forall i row, payments (working w) !! i = Some row -> stale_claim cutoff row = true ->
     locked i = false -> In row (stale_rows cutoff locked limit (working w))).
  { intros Hl i row Hi Hc Hf. apply select_batch_complete; [done|apply in_rows; eauto|].
    by rewrite Hc, (Hid i row Hi), Hf. }
  unfold release_stale_claims. fold cutoff. do 4 wp_step. fold locked.
  assert (S1 : steady w w') by (by eapply steady_called).
  destruct (stale_rows cutoff locked limit (working w)) as [|row0 rs] eqn:Estale.
  { repeat wp_step. split_and!; [| |done|by ws| | |done].
    - eapply steady_trans; [exact S1|]. eapply steady_rollback; [done|apply S1].
    - by ws.
    - intros Hfresh i _. ws. by rewrite Hfresh.
    - intros row []. }
  cbv zeta in Hnd, Hst. set (stale := row0 :: rs) in *. clearbody stale.
  apply wp_bind, (wp_attach_all w); [done|done| |].
  { intros row Hin. rewrite (ca_working _ _ _ H0). by apply Hst. }
  intros w2 S2 E1 E2 E3. set (objs := map (fun row => (object_of w' false row, row)) stale).
  replace (map (object_of w' false) stale) with (map fst objs) by (subst objs; by rewrite map_map).
  assert (Hids : map (fun pr => id (snd pr)) objs = map id stale) by (subst objs; by rewrite map_map).
  assert (Hobj : forall row, object_of w' false row = object_of w false row)
    by (intros row; unfold object_of; by rewrite (ca_map _ _ _ H0)).
  apply wp_bind, (wp_for_each w _ (recovers settings now jitter) (fun _ _ => True) objs);
    [|done|by unfold row_ids; rewrite Hids| |].
  { intros w3 p row (row1 & [= <- <-] & Hin)%in_map_iff HO. destruct (Hst row1 Hin) as (_ & Hc & _).
    unfold stale_claim in Hc. bool_to_prop. apply (wp_release_one _ _ _ _ HO); [done|].
    intros t es p' w4 Ht HO'. split; [done|]. exists p', (recovered_row settings
      (bot_notify_attempts (object_of w' false row1)) now t row1), es.
    split_and!; [by exists t|apply recovered_row_id|done|done]. }
  { intros p row (row1 & [= <- <-] & Hin)%in_map_iff. destruct (Hst row1 Hin) as (Hr & Hc & _).
    rewrite E1, (ca_working _ _ _ H0). split; [done|]. rewrite Hobj. by eapply same_key_object. }
  intros w3 S3 [Rc Ra Ro Rr _]. unfold row_ids in Ro. repeat wp_step.
  split_and!; [eapply steady_trans; [exact S3|]; eapply steady_commit; [done|apply S3]|by ws| |ws; rewrite Ra, E3; by ws| | |done].
  - f_equal. f_equal. subst objs. by rewrite !length_map.
  - intros _ i Hi. ws. rewrite Ro by (by rewrite Hids). rewrite E1. by ws.
  - intros row Hin. destruct (Rr (object_of w' false row) row) as (? & (t & Ht & ->) & _ & Hrow).
    { apply in_map_iff. eauto. }
    rewrite Hobj in *. eexists. split; [by ws; exact Hrow|].
    destruct (Hst row Hin) as (_ & Hc & _). unfold stale_claim in Hc. bool_to_prop.
    unfold recovered_row. destruct (bot_notify_retry_mode settings); [by cbn; auto|].
    destruct (bot_notify_max_attempts settings <=? _) eqn:El; bool_to_prop; [by cbn; auto|].
    cbn. rewrite H2. split_and!; eauto.
Qed.

(** Recovery of interrupted claims releases every claim of its batch (the
    unlocked claims older than the timeout, all of them when the batch is not
    full) and changes no other payment; since such an attempt may have reached
    the bot, safe mode moves the payment to manual review, while idempotent
    mode requeues it below the attempt limit and moves it to manual review at
    the limit. It sends nothing and never touches verification facts. *)
Theorem release_stale_claims_correct settings now jitter limit w :
  sound w -> payments (working w) = payments (committed w) ->
  let cutoff := now - bot_notify_claim_timeout settings in
  let locked := locked_by_others (ticks w) in
  let stale := stale_rows cutoff locked limit (working w) in
  wp (release_stale_claims settings now jitter limit) (fun r w' =>
    r = Ret (Z.of_nat (length stale)) /\ calls w' = calls w /\
    (forall i, ~ In i (map id stale) -> payments (committed w') !! i = payments (working w) !! i) /\
    (forall row, In row stale -> exists row', payments (committed w') !! id row = Some row' /\
       verification_fact row' = verification_fact row /\ notification_claimed_at row' = None /\
       let attempts := bot_notify_attempts (object_of w false row) in
       match status row' with
       | MANUAL_REVIEW => bot_notify_retry_mode settings = safe \/
                          bot_notify_max_attempts settings <= attempts
       | BOT_NOTIFY_PENDING => bot_notify_retry_mode settings = idempotent /\
           attempts < bot_notify_max_attempts settings /\
           exists t, next_retry_at row' = Some t /\ recovery_times attempts now jitter t
       | _ => False
       end) /\
    ((length stale < limit)%nat -> forall i row, payments (working w) !! i = Some row ->
       stale_claim cutoff row = true -> locked i = false -> In row stale)) w.
Proof.
  intros Hs Hfresh. cbv zeta. eapply wp_mono; [by apply release_stale_claims_spec|].
  intros r w' (_ & _ & -> & Hc & Ho & Hrest). split_and!; [done|done|by apply Ho|apply Hrest..].
Qed.

(** ** The worker pass *)

Lemma wp_with_request_id {A} w0 prefix (m : M A) (Q : Res A -> World -> Prop) w :
  steady w0 w ->
  (forall w1, steady w0 w1 -> same_state w w1 ->
     wp m (fun r w2 => forall w3, same_state w2 w3 -> Q r w3) w1) ->
  wp (with_request_id prefix m) Q w.
Proof.
  intros S Hm. unfold wp, with_request_id, bind, tick. cbn.
  match goal with |- context [m ?x] => set (w1 := x) end.
  assert (Hw : same_state w w1) by done. specialize (Hm w1 (steady_same _ _ _ Hw S) Hw).
  unfold wp in Hm. destruct (m w1) as [r w2]. by apply Hm.
Qed.

(** A request to the bot about a verified payment. *)
Definition notifies_verified (c : ExternalCall) (d : Db) : Prop :=
  exists oid, c = BotPost oid /\ verified_order oid d.

(** What a part of a pass may do: [n] requests at most, all of them about
    verified payments. *)
Definition pass_effect (n : nat) (w w' : World) : Prop :=
  steady w w' /\ committed w' = working w' /\
  exists cs, calls w' = cs ++ calls w /\ (length cs <= n)%nat /\
    Forall (fun c => notifies_verified c (committed w')) cs.

Lemma pass_effect_quiet w w' :
  steady w w' -> committed w' = working w' -> calls w' = calls w -> pass_effect 0 w w'.
Proof. intros S C E. split_and!; [done..|]. exists []. by split_and!. Qed.

Lemma pass_effect_weaken n m w w' : (n <= m)%nat -> pass_effect n w w' -> pass_effect m w w'.
Proof. intros Hnm (S & C & cs & E & L & F). split_and!; [done..|]. exists cs. split_and!; [done|lia|done]. Qed.

Lemma pass_effect_trans n m w1 w2 w3 :
  pass_effect n w1 w2 -> pass_effect m w2 w3 -> pass_effect (n + m) w1 w3.
Proof.
  intros (S1 & _ & c1 & E1 & L1 & F1) (S2 & C & c2 & E2 & L2 & F2).
  split_and!; [by eapply steady_trans|done|]. exists (c2 ++ c1). split_and!.
  - by rewrite E2, E1, app_assoc.
  - rewrite length_app. lia.
  - apply Forall_app. split; [done|]. eapply Forall_impl; [exact F1|].
    intros c (oid & -> & Hv). exists oid. split; [done|]. eapply verified_order_legal; [apply S2|done].
Qed.

Lemma pass_effect_same n w0 w w' w'' :
  same_state w0 w -> pass_effect n w w' -> same_state w' w'' -> pass_effect n w0 w''.
Proof.
  intros H1 (S & C & cs & E & L & F) H2. split_and!.
  - eapply steady_same; [exact H2|]. by eapply steady_same_start.
  - by rewrite (ss_committed _ _ H2), (ss_working _ _ H2).
  - exists cs. by rewrite (ss_calls _ _ H2), (ss_committed _ _ H2), E, (ss_calls _ _ H1).
Qed.

Lemma wp_record_attempt_result_effect `{!Rely} settings c o duration now jitter row w :
  sound w -> payments (working w) !! payment_id c = Some row ->
  wp (record_attempt_result settings c o duration now jitter)
    (fun r w' => r = Ret tt /\ pass_effect 0 w w') w.
Proof.
  intros Hs Hrow.
  apply (wp_record_attempt_result w _ _ _ _ _ _ row); [by apply steady_refl|done|..].
  - intros t w' _ _ []. split; [done|]. by apply pass_effect_quiet.
  - intros w' _ S Hf Ec Hc. eapply wp_mono; [apply wp_discard_result; [apply S|done]|].
    intros r w2 (-> & S2 & Hcm & Hc2 & _). split; [done|]. apply pass_effect_quiet; [|done|congruence].
    by eapply steady_trans.
Qed.

(** The last step of an attempt: other sessions may have committed while the
    bot was asked; the result is then recorded against the row they left. *)
Lemma wp_record_after_gap `{!Rely} settings c o duration jitter row w :
  sound w -> committed w = working w -> payments (working w) !! payment_id c = Some row ->
  wp (let* now := utcnow in begin_tx ;;; record_attempt_result settings c o duration now jitter ;;; ret o)
    (fun _ w' => pass_effect 0 w w') w.
Proof.
  intros Hs Hcm Hrow. do 2 wp_step.
  assert (E1 : pass_effect 0 w w') by (apply pass_effect_quiet; [by eapply steady_called|by ws|by ws]).
  do 2 wp_step.
  destruct (began_row w' w'0 (payment_id c) row) as (row' & Hrow' & _); [done|by ws|apply E1|by ws|].
  assert (E2 : pass_effect 0 w' w'0).
  { apply pass_effect_quiet; [eapply steady_began; [done|by ws|apply E1]|by ws|by ws]. }
  apply wp_bind. eapply wp_mono; [eapply (wp_record_attempt_result_effect _ _ _ _ _ _ row')|].
  - apply E2.
  - done.
  - intros r w3 [-> E3]. apply wp_ret. apply (pass_effect_trans 0 0 _ w'); [done|].
    by apply (pass_effect_trans 0 0 _ w'0).
Qed.

Lemma wp_execute_claimed_attempt `{!Rely} has_notifier settings c jitter row w :
  sound w -> committed w = working w -> payments (working w) !! payment_id c = Some row ->
  bot_order_id row = claimed_bot_order_id c -> is_some (gateway_verified_at row) = true ->
  wp (execute_claimed_attempt has_notifier settings c jitter) (fun _ w' => pass_effect 1 w w') w.
Proof.
  intros Hs Hcm Hrow Ho Hv. unfold execute_claimed_attempt. destruct has_notifier; cbn [negb].
  - apply wp_bind, wp_call_bot. intros w1 C1.
    assert (E1 : pass_effect 1 w w1).
    { split_and!; [by eapply steady_called|by ws|]. exists [BotPost (claimed_bot_order_id c)].
      split_and!; [apply (ca_calls _ _ _ C1)|done|]. apply Forall_singleton. eexists. split; [done|].
      rewrite (ca_committed _ _ _ C1), Hcm. exists (payment_id c), row. done. }
    assert (Hrest : forall o, wp (let* now := utcnow in begin_tx ;;;
        record_attempt_result settings c o (JFloat false) now jitter ;;; ret o)
        (fun _ w' => pass_effect 1 w w') w1).
    { intros o. eapply wp_mono; [apply (wp_record_after_gap _ _ _ _ _ row)|].
      - apply E1.
      - apply E1.
      - by ws.
      - intros r w' E2. by apply (pass_effect_trans 1 0 _ w1). }
    destruct (bot_post _ _) as [st ra|e|cls].
    + apply wp_bind, wp_ret, Hrest.
    + apply wp_bind, wp_ret, Hrest.
    + apply wp_bind, wp_raise. done.
  - eapply wp_mono; [apply (wp_record_after_gap _ _ _ _ _ row); done|].
    intros r w' E. by apply (pass_effect_weaken 0); [lia|].
Qed.

Lemma wp_worker_loop `{!Rely} has_notifier settings worker jitter slots processed w :
  sound w -> committed w = working w ->
  wp (worker_loop has_notifier settings worker jitter slots processed) (fun r w' =>
    pass_effect slots w w' /\
    match r with Ret n => processed <= n <= processed + Z.of_nat slots | Raise _ => True end) w.
Proof.
  revert processed w. induction slots as [|slots IH]; intros processed w Hs Hcm; cbn [worker_loop].
  { apply wp_ret. split; [|lia]. apply pass_effect_quiet; [by apply steady_refl|done..]. }
  apply wp_bind, (wp_with_request_id w); [by apply steady_refl|]. intros w1 S1 E1.
  do 4 wp_step. pose proof (steady_trans _ _ _ S1 (steady_called _ _ _ H1 (proj1 S1))) as S2.
  assert (E2 : pass_effect 0 w w'0).
  { apply pass_effect_quiet; [|by ws|].
    - eapply steady_trans; [exact S2|]. eapply steady_began; [done| |apply S2].
      ws. by rewrite (ss_working _ _ E1), (ss_committed _ _ E1).
    - ws. apply E1. }
  apply wp_bind. apply (wp_claim_next_due w'0); [apply steady_refl, E2| |].
  - intros w2 _ S3 Hcm2 Hwk Hc. apply wp_ret. intros w3 E3. apply wp_ret. split; [|lia].
    apply (pass_effect_weaken 0); [lia|]. apply (pass_effect_trans 0 0 _ w'0); [exact E2|].
    apply (pass_effect_same 0 w'0 w'0 w2 w3); [done| |exact E3]. apply pass_effect_quiet; [done|congruence|done].
  - intros row w2 Hrow Hdue _ _. cbv zeta. intros [S3 Ec P Hcalls _].
    set (row' := if is_none _ then _ else _) in *.
    assert (Hr' : id row' = id row /\ bot_order_id row' = bot_order_id row /\
                  gateway_verified_at row' = gateway_verified_at row)
      by (subst row'; by destruct (is_none _)).
    destruct Hr' as (F1 & F2 & F3). clearbody row'.
    apply wp_bind. eapply wp_mono; [eapply (wp_execute_claimed_attempt _ _ _ _ row')|].
    + apply S3.
    + done.
    + cbn. rewrite <- Ec, P, F1. apply lookup_insert_eq.
    + cbn. done.
    + rewrite F3. unfold due_for_notification in Hdue. bool_to_prop. apply is_some_true. eauto.
    + assert (E3 : pass_effect 0 w w2)
        by (apply (pass_effect_trans 0 0 _ w'0); [done|by apply pass_effect_quiet]).
      intros [o|e] w3 E4; repeat wp_step.
      * intros w4 E5.
        assert (E6 : pass_effect 1 w w4).
        { apply (pass_effect_trans 0 1 _ w2); [done|]. by eapply pass_effect_same. }
        eapply wp_mono; [apply IH; apply E6|]. intros r w5 [E7 Hn]. split.
        -- by apply (pass_effect_trans 1 slots _ w4).
        -- destruct r; [lia|done].
      * intros w4 E5. split; [|done]. apply (pass_effect_weaken 1); [lia|].
        apply (pass_effect_trans 0 1 _ w2); [done|]. by eapply pass_effect_same.
Qed.

Lemma wp_run_worker_pass `{!Rely} has_notifier settings worker jitter batch_size w :
  sound w ->
  wp (run_worker_pass has_notifier settings worker jitter batch_size) (fun r w' =>
    pass_effect batch_size w w' /\
    match r with Ret (_, processed) => 0 <= processed <= Z.of_nat batch_size | Raise _ => True end) w.
Proof.
  intros Hs. unfold run_worker_pass.
  apply wp_bind, (wp_with_request_id w); [by apply steady_refl|]. intros w1 S1 E1.
  do 2 wp_step. pose proof (steady_trans _ _ _ S1 (steady_called _ _ _ H1 (proj1 S1))) as S2.
  eapply wp_mono; [apply release_stale_claims_spec, S2|].
  intros r w2 (S3 & C3 & -> & Hc & _) w3 E3.
  assert (E4 : pass_effect 0 w w3).
  { apply (pass_effect_same 0 w w w2 w3); [done| |exact E3].
    apply pass_effect_quiet; [exact (steady_trans _ _ _ S2 S3)|done|].
    rewrite Hc. ws. apply E1. }
  apply wp_bind. eapply wp_mono; [apply wp_worker_loop; apply E4|].
  intros r w4 [E5 Hn]. pose proof (pass_effect_trans _ _ _ _ _ E4 E5) as E6.
  destruct r as [n|e]; [apply wp_ret|]; (split; [exact E6|]); [lia|done].
Qed.

(** C17: One pass of the notification worker, with other sessions committing
    legal changes before every claim and while every request is under way,
    sends at most [batch_size] requests, each of them to the bot about an order
    that is gateway-verified in the committed database; it reports at most
    [batch_size] processed payments, and everything it commits respects the
    ledger's rules: no verification fact, issued link, price or accepted
    delivery is ever changed. *)
Theorem run_worker_pass_safe `{!Rely} has_notifier settings worker jitter batch_size w :
  sound w ->
  wp (run_worker_pass has_notifier settings worker jitter batch_size) (fun r w' =>
    sound w' /\ db_legal (committed w) (committed w') /\
    (exists cs, calls w' = cs ++ calls w /\ (length cs <= batch_size)%nat /\
       Forall (fun c => notifies_verified c (committed w')) cs) /\
    match r with Ret (_, processed) => 0 <= processed <= Z.of_nat batch_size | Raise _ => True end) w.
Proof.
  intros Hs. eapply wp_mono; [by apply wp_run_worker_pass|].
  intros r w' [(S & _ & E) Hn]. split; [apply S|]. split; [apply S|]. by split.
Qed.

(** ** Manual acceptance *)

Lemma accept_refusal_spec p :
  determine_manual_accept_refusal p = None <->
  status p = BOT_NOTIFY_PENDING /\ is_some (gateway_verified_at p) = true.
Proof.
  unfold determine_manual_accept_refusal.
  destruct (bool_decide_reflect (status p = BOT_NOTIFY_PENDING)), (gateway_verified_at p); cbn;
    intuition congruence.
Qed.

Lemma wp_execute_manual_accept pid operator_note now (Q : Res (option ManualAcceptOutcome) -> World -> Prop) w :
  sound w ->
  (forall w', payments (working w) !! pid = None -> did_rollback w w' -> Q (Ret None) w') ->
  (forall row why w', payments (working w) !! pid = Some row ->
     determine_manual_accept_refusal row = Some why ->
     steady w w' -> committed w' = committed w -> calls w' = calls w ->
     Q (Ret (Some (mkManualAccept false (status row) (is_some (gateway_verified_at row)) (Some why)))) w') ->
  (forall row w', payments (working w) !! pid = Some row ->
     determine_manual_accept_refusal row = None ->
     settled w w [] ["manual_bot_notification_accepted"] (apply_accepted_state now row) w' ->
     Q (Ret (Some (mkManualAccept true BOT_NOTIFY_ACCEPTED (is_some (gateway_verified_at row)) None))) w') ->
  wp (execute_manual_accept pid operator_note now) Q w.
Proof.
  intros Hs Hnone Hno Hyes. unfold execute_manual_accept.
  apply wp_bind, wp_select_by_id. destruct (payments (working w) !! pid) as [row|] eqn:Hrow.
  2:{ repeat wp_step. auto. }
  intros w1 A. apply (holding_start w w true pid) in A; [|by apply steady_refl|done].
  change (object_of w true row) with row in *.
  destruct (determine_manual_accept_refusal row) as [why|] eqn:Hd.
  { wp_step. apply wp_rollback. intros w2 R. apply wp_ret.
    destruct (holding_rollback _ _ A _ R) as (S & E1 & _ & E3). by apply (Hno row why). }
  apply wp_bind, wp_upd. intros w2 U.
  apply (holding_updated w w A) in U; [|by apply legal_accept, accept_refusal_spec|done|reflexivity].
  clear A. do 4 hold_step. apply wp_ret. by apply (Hyes row).
Qed.

(** The operator's manual acceptance accepts a payment exactly when the
    locked row is pending delivery and gateway-verified; it then changes only
    this payment, to exactly the state an HTTP 2xx answer leaves, without
    touching the attempt count, the last HTTP status or any verification fact,
    and records one event of its own. A refusal or an unknown payment changes
    nothing and records nothing. No request is sent in any case. *)
Theorem execute_manual_accept_exact pid operator_note now w :
  sound w ->
  wp (execute_manual_accept pid operator_note now) (fun r w' =>
    calls w' = calls w /\
    match payments (working w) !! pid, r with
    | None, Ret None => payments (committed w') = payments (committed w) /\
                        trail (committed w') = trail (committed w)
    | Some row, Ret (Some out) =>
        outcome_status out = (if accepted out then BOT_NOTIFY_ACCEPTED else status row) /\
        if accepted out then
          status row = BOT_NOTIFY_PENDING /\ is_some (gateway_verified_at row) = true /\
          refusal out = None /\
          payments (committed w') = <[pid := apply_accepted_state now row]> (payments (working w)) /\
          trail (committed w') = "manual_bot_notification_accepted" :: trail (working w)
        else
          (status row <> BOT_NOTIFY_PENDING \/ gateway_verified_at row = None) /\
          is_some (refusal out) = true /\
          payments (committed w') = payments (committed w) /\
          trail (committed w') = trail (committed w)
    | _, _ => False
    end) w.
Proof.
  intros Hs. pose proof (ok_keyed _ (so_working w Hs)) as Hid. unfold trail.
  apply wp_execute_manual_accept; [done| | |].
  - intros w' -> R. split; [by ws|]. by rewrite (rb_committed _ _ R).
  - intros row why w' -> Hd S E Hc. split; [done|]. cbn. rewrite E. split_and!; try done.
    destruct (decide (status row = BOT_NOTIFY_PENDING)) as [Hst|]; [right|by left].
    unfold determine_manual_accept_refusal in Hd. rewrite bool_decide_true in Hd by done.
    by destruct (gateway_verified_at row).
  - intros row w' Hrow [Hst Hv]%accept_refusal_spec [_ E P Hc T]. rewrite Hrow. split; [done|]. cbn.
    rewrite P, Hst. cbn. rewrite (Hid pid row Hrow). by split_and!.
Qed.

End DeliveryFacts.

(** ** Witnesses *)

Definition example_claim : ClaimedPayment := mkClaimed 1 "order-1" 700001 1 "w".
(** The row after another worker claimed it again. *)
Definition example_reclaimed : Payment := (example_claimed 5) <| bot_notify_attempts := 2 |>.

Definition unit_jitter : JitterFn := fun _ => 1%Q.

Lemma unit_jitter_ok n : jitter_ok (unit_jitter n).
Proof. unfold jitter_ok, unit_jitter, Qle. cbn. lia. Qed.

Lemma record_attempt_result_current_witness :
  let w := world_of (db_of [example_claimed 5]) in
  payments (working w) !! 1 = Some (example_claimed 5) /\
  wp (record_attempt_result default_settings example_claim (classify_response 429 (Some "90"))
        JNull (seconds 9) unit_jitter)
    (fun r w' => r = Ret tt /\ exists row', payments (committed w') !! 1 = Some row' /\
       notification_claimed_at row' = None) w.
Proof.
  cbv zeta. split; [vm_compute; reflexivity|].
  eapply wp_mono; [apply (record_attempt_result_current default_settings example_claim
    (classify_response 429 (Some "90")) JNull (seconds 9) unit_jitter _ (example_claimed 5))|].
  - apply sound_example. vm_compute. reflexivity.
  - vm_compute. reflexivity.
  - vm_compute. reflexivity.
  - exact unit_jitter_ok.
  - vm_compute. discriminate.
  - intros r w' (-> & _ & _ & _ & row' & Hp & _ & _ & Hn & _). split; [vm_compute; reflexivity|].
    exists row'. rewrite Hp. split; [apply lookup_insert_eq|exact Hn].
Defined.

Lemma record_attempt_result_stale_witness :
  claim_is_current example_claim example_reclaimed = false /\
  wp (record_attempt_result default_settings example_claim (classify_response 200 None) JNull
        (seconds 9) unit_jitter)
    (fun r w' => r = Ret tt /\ payments (committed w') !! 1
                 = Some example_reclaimed)
    (world_of (db_of [example_reclaimed])).
Proof.
  split; [vm_compute; reflexivity|].
  eapply wp_mono; [apply (@record_attempt_result_stale _ calm_rely default_settings example_claim
    (classify_response 200 None) JNull (seconds 9) unit_jitter _
    example_reclaimed)|].
  - apply sound_example. vm_compute. reflexivity.
  - vm_compute. reflexivity.
  - vm_compute. reflexivity.
  - intros r w' (-> & _ & n & -> & _). split; [reflexivity|vm_compute; reflexivity].
Defined.

Lemma safe_mode_never_resends_witness :
  possibly_delivered (classify_response 502 None) = true /\
  wp (record_attempt_result default_settings example_claim (classify_response 502 None) JNull
        (seconds 9) unit_jitter)
    (fun r w' => exists row', payments (committed w') !! 1 = Some row' /\
       status row' = MANUAL_REVIEW) (world_of (db_of [example_claimed 5])).
Proof.
  split; [vm_compute; reflexivity|].
  eapply wp_mono; [apply (safe_mode_never_resends default_settings example_claim
    (classify_response 502 None) JNull (seconds 9) unit_jitter _ (example_claimed 5))|].
  - apply sound_example. vm_compute. reflexivity.
  - vm_compute. reflexivity.
  - vm_compute. reflexivity.
  - vm_compute. reflexivity.
  - discriminate.
  - vm_compute. reflexivity.
  - intros r w' (row' & H1 & H2 & _). by exists row'.
Defined.

Definition due_world : World := world_of (db_of [example_due 5]).

Lemma claim_next_due_exclusive_witness :
  due_for_notification (seconds 9) (example_due 5) = true /\
  wp (claim_next_due "w" (seconds 9)) (fun r w' => calls w' = calls due_world) due_world.
Proof.
  split; [vm_compute; reflexivity|].
  eapply wp_mono; [apply (claim_next_due_exclusive "w" (seconds 9) due_world)|].
  - apply sound_example. vm_compute. reflexivity.
  - intros r w' [Hc _]. exact Hc.
Defined.

(** A claim of second 5 is stale at second 100000. *)
Lemma release_stale_claims_correct_witness :
  let w := world_of (db_of [example_claimed 5]) in
  stale_rows (seconds 100000 - bot_notify_claim_timeout default_settings) (fun _ => false) 100
    (working w) = [example_claimed 5] /\
  wp (release_stale_claims default_settings (seconds 100000) unit_jitter 100)
    (fun r w' => calls w' = calls w) w.
Proof.
  cbv zeta. split; [vm_compute; reflexivity|].
  eapply wp_mono; [apply (release_stale_claims_correct default_settings (seconds 100000)
                            unit_jitter 100 (world_of (db_of [example_claimed 5])))|].
  - apply sound_example. vm_compute. reflexivity.
  - reflexivity.
  - intros r w' (_ & Hc & _). exact Hc.
Defined.

Lemma run_worker_pass_safe_witness :
  row_ok (example_due 5) = true /\
  wp (run_worker_pass true default_settings "w" unit_jitter 20)
    (fun r w' => sound w') due_world.
Proof.
  split; [vm_compute; reflexivity|].
  eapply wp_mono; [apply (run_worker_pass_safe true default_settings "w" unit_jitter 20 due_world)|].
  - apply sound_example. vm_compute. reflexivity.
  - intros r w' (Hw & _). exact Hw.
Defined.

Lemma execute_manual_accept_exact_witness :
  row_ok (example_due 5) = true /\
  wp (execute_manual_accept 1 "credited" (seconds 9)) (fun r w' => calls w' = []) due_world.
Proof.
  split; [vm_compute; reflexivity|].
  eapply wp_mono; [apply (execute_manual_accept_exact 1 "credited" (seconds 9) due_world)|].
  - apply sound_example. vm_compute. reflexivity.
  - intros r w' (Hc & _). exact Hc.
Defined.
