(* ===== verification/Resend.v ===== *)
(** Bulk requeue of delivery-failed manual reviews
    ([app/services/bulk_resend.py]) and the administrator command that runs it
    ([cmd_resend_failed] of [app/adminbot/commands.py]).

    The loop selects with [FOR UPDATE SKIP LOCKED] but without
    [populate_existing], so the objects of the previous batch, still referenced
    by [locked] while the next one is selected, are returned as they were; and
    SQLAlchemy writes no column that is assigned the value its object already
    holds ([assign]). Both matter here: see [requeue_livelock]. *)

From S2P Require Import Prelude PyText Exceptions Config Models ServiceTables Session AuditTrail Ledger.
From S2P Require Import Bot Notification.

Definition ELIGIBLE_RESEND_REASONS : list string :=
  [reason_value RETRY_LIMIT_REACHED; reason_value BOT_TIMEOUT_AMBIGUOUS].

Definition PREVIEW_ORDER_LIMIT : nat := 20.
Definition RESEND_BATCH_SIZE : nat := 100.

Definition resend_reason (p : Payment) : bool :=
  match bot_notify_reason p with
  | Some r => existsb (String.eqb r) ELIGIBLE_RESEND_REASONS
  | None => false
  end.

(** [_eligible_predicate]. *)
Definition eligible_resend (p : Payment) : bool :=
  bool_decide (status p = MANUAL_REVIEW) && is_some (gateway_verified_at p) &&
  is_none (review_resolved_at p) && is_none (notification_claimed_at p) && resend_reason p.

(** [ORDER BY manual_review_at ASC NULLS FIRST, id ASC]. *)
Definition review_order (a b : Payment) : bool :=
  match manual_review_at a, manual_review_at b with
  | None, None => id a <=? id b
  | None, Some _ => true
  | Some _, None => false
  | Some s, Some t => (s <? t) || ((s =? t) && (id a <=? id b))
  end.

Record BulkResendPreview := mkBulkResendPreview {
  preview_count : Z;
  preview_total_amount : Z;
  preview_order_ids : list string
}.

Record BulkResendResult := mkBulkResendResult {
  selected_count : Z;
  requeued_count : Z;
  skipped_count : Z;
  total_amount : Z;
  order_ids : list string
}.

Definition sum_amounts (ps : list Payment) : Z := fold_right Z.add 0 (map amount ps).

Definition preview_bulk_resend : M BulkResendPreview :=
  let* d := get_db in
  let eligible := sort_by review_order (payments_where eligible_resend d) in
  rollback ;;;
  ret (mkBulkResendPreview (Z.of_nat (length eligible)) (sum_amounts eligible)
         (take PREVIEW_ORDER_LIMIT (map bot_order_id eligible))).

(** Assigning [new] to an attribute whose object holds [old]: the column keeps
    its value [current] unless the assignment is a change. *)
Definition assign {A} `{EqDecision A} (old new current : A) : A :=
  if decide (old = new) then current else new.

Definition requeue_columns (p : Payment) (now : Z) (r : Payment) : Payment :=
  r <| status := assign (status p) BOT_NOTIFY_PENDING (status r) |>
    <| next_retry_at := assign (next_retry_at p) (Some now) (next_retry_at r) |>
    <| notification_claimed_at := assign (notification_claimed_at p) None (notification_claimed_at r) |>
    <| notification_claimed_by := assign (notification_claimed_by p) None (notification_claimed_by r) |>.

(** Dropping the references to all objects but those of [ids]. *)
Definition retain (ids : list Z) : M unit := fun w =>
  (Ret tt, w <| identity_map := filter (fun kv => kv.1 ∈ ids) (identity_map w) |>).

(** The running totals of the loop. *)
Record Tally := mkTally { tally_count : Z; tally_amount : Z; tally_ids : list string }.

Definition tally_one (t : Tally) (p : Payment) : Tally :=
  mkTally (tally_count t + 1) (tally_amount t + amount p)
    (if (length (tally_ids t) <? PREVIEW_ORDER_LIMIT)%nat then tally_ids t ++ [bot_order_id p]
     else tally_ids t).

(** The rows one iteration locks. *)
Definition requeue_rows (locked : Z -> bool) (batch_size : nat) (d : Db) : list Payment :=
  select_batch (fun p => eligible_resend p && negb (locked (id p))) review_order batch_size
    (rows (payments d)).

Section Resend.
Context `{Env}.

(** The body of the inner loop. *)
Definition requeue_one (user : option Z) (now : Z) (p : Payment) : M unit :=
  let previous_reason := bot_notify_reason p in
  let previous_attempts := bot_notify_attempts p in
  let* p := upd p (requeue_columns p now) in
  record_event (Some (id p)) "admin_bulk_resend_requested" "warning"
    [("telegram_user_id", jint_opt user); ("previous_reason", jstr_opt previous_reason);
     ("previous_attempts", JInt previous_attempts); ("command", JStr "resend_failed")].

(** One iteration that found rows to lock. *)
Definition requeue_batch (user : option Z) (now : Z) (batch : list Payment) : M (list Payment) :=
  let* ps := attach_all false batch in
  retain (map id ps) ;;;
  for_each (requeue_one user now) ps ;;;
  commit ;;;
  ret ps.

(** The outer [while True]; [None] when it has not ended after [fuel]
    iterations. *)
Fixpoint requeue_loop (user : option Z) (now : Z) (batch_size : nat) (fuel : nat) (t : Tally)
  : M (option Tally) :=
  match fuel with
  | O => ret None
  | S fuel' =>
      begin_tx ;;;
      let* d := get_db in
      let* locked := tick locked_by_others in
      match requeue_rows locked batch_size d with
      | [] => rollback ;;; ret (Some t)
      | batch =>
          let* ps := requeue_batch user now batch in
          requeue_loop user now batch_size fuel' (fold_left tally_one ps t)
      end
  end.

Definition requeue_failed_deliveries (user : option Z) (now : Z) (batch_size fuel : nat)
  : M (option BulkResendResult) :=
  let* d := get_db in
  let selected := Z.of_nat (length (payments_where eligible_resend d)) in
  rollback ;;;
  let* done := requeue_loop user now batch_size fuel (mkTally 0 0 []) in
  match done with
  | None => ret None
  | Some t =>
      let skipped := Z.max 0 (selected - tally_count t) in
      begin_tx ;;;
      record_event None "admin_bulk_resend_completed" "info"
        [("telegram_user_id", jint_opt user); ("selected_count", JInt selected);
         ("requeued_count", JInt (tally_count t)); ("skipped_count", JInt skipped)] ;;;
      commit ;;;
      ret (Some (mkBulkResendResult selected (tally_count t) skipped (tally_amount t) (tally_ids t)))
  end.

(** [cmd_resend_failed], without the rendering. *)
Inductive ResendReply :=
  | ResendSafeMode
  | ResendPreview (preview : BulkResendPreview)
  | ResendDone (result : option BulkResendResult).

Definition cmd_resend_failed (settings : Settings) (user : option Z) (args : list string) (fuel : nat)
  : M ResendReply :=
  if negb (bool_decide (bot_notify_retry_mode settings = idempotent)) then ret ResendSafeMode
  else
    let confirm := match args with a :: _ => String.eqb (lower (strip a)) "confirm" | [] => false end in
    if negb confirm then let* preview := preview_bulk_resend in ret (ResendPreview preview)
    else
      let* now := utcnow in
      let* result := requeue_failed_deliveries user now RESEND_BATCH_SIZE fuel in
      ret (ResendDone result).
End Resend.

(** ** Facts *)

Lemma legal_requeue_verified p now row :
  status row = MANUAL_REVIEW -> is_some (gateway_verified_at row) = true ->
  row_legal row (requeue_columns p now row).
Proof.
  intros Hs Hv. pose proof Hv as [x Hx]%is_some_true. unfold requeue_columns, assign.
  destruct (decide (status p = BOT_NOTIFY_PENDING)); [by row_legal_tac|row_legal_tac].
  by split_and!.
Qed.

Lemma legal_requeue p now row : eligible_resend row = true -> row_legal row (requeue_columns p now row).
Proof.
  unfold eligible_resend. intros H. bool_to_prop. apply legal_requeue_verified; [done|].
  apply is_some_true. eauto.
Qed.

(** The row of a fresh object is requeued. *)
Definition requeued_row (now : Z) (row : Payment) : Payment :=
  row <| status := BOT_NOTIFY_PENDING |> <| next_retry_at := Some now |>
      <| notification_claimed_at := None |> <| notification_claimed_by := None |>.

Lemma requeue_fresh now row : requeue_columns row now row = requeued_row now row.
Proof.
  unfold requeue_columns, assign, requeued_row. destruct row. cbn.
  repeat case_decide; subst; done.
Qed.

Lemma requeued_not_eligible now row : eligible_resend (requeued_row now row) = false.
Proof. done. Qed.

(** The payments that may be requeued. *)
Definition eligible_ids (d : Db) : gset Z :=
  dom (filter (fun kv : Z * Payment => eligible_resend kv.2 = true) (payments d)).

Lemma elem_of_eligible d i : i ∈ eligible_ids d <->
  exists row, payments d !! i = Some row /\ eligible_resend row = true.
Proof.
  unfold eligible_ids. rewrite elem_of_dom. split.
  - intros [row [H1 H2]%map_lookup_filter_Some]. eauto.
  - intros (row & H1 & H2). exists row. by apply map_lookup_filter_Some.
Qed.

Lemma eligible_count d : keyed id (payments d) ->
  length (payments_where eligible_resend d) = size (eligible_ids d).
Proof.
  intros K. set (l := payments_where eligible_resend d).
  assert (Hnd : NoDup (map id l)) by (by apply filter_map_NoDup, keyed_rows_NoDup).
  rewrite <- (length_map id l), <- (size_list_to_set (C:=gset Z)) by done. f_equal. apply set_eq. intros i.
  rewrite elem_of_list_to_set, list_elem_of_In, in_map_iff, elem_of_eligible. unfold l, payments_where. split.
  - intros (row & <- & [[j Hj]%in_rows He]%filter_In). pose proof (K j row Hj) as <-. eauto.
  - intros (row & Hi & He). exists row. split; [by apply K|]. apply filter_In. split; [apply in_rows; eauto|done].
Qed.

Lemma requeue_rows_spec locked n d : keyed id (payments d) ->
  NoDup (map id (requeue_rows locked n d)) /\
  forall row, In row (requeue_rows locked n d) ->
    payments d !! id row = Some row /\ eligible_resend row = true /\ locked (id row) = false.
Proof.
  intros K. split; [by apply select_batch_NoDup, keyed_rows_NoDup|].
  intros row [[i Hi]%in_rows Hf]%select_batch_In. bool_to_prop.
  pose proof (K i row Hi) as <-. by split_and!.
Qed.

Section ResendFacts.
Context {ENV : Env} {RELY : Rely}.

Lemma wp_requeue_one w0 w1 user now p row w :
  holding w0 w1 [] [] p row w -> eligible_resend row = true ->
  wp (requeue_one user now p) (fun r w' => r = Ret tt /\ exists p' row' es,
    row' = requeue_columns p now row /\ id row' = id row /\ es = ["admin_bulk_resend_requested"] /\
    holding w0 w1 [] es p' row' w') w.
Proof.
  intros HO He. unfold requeue_one. apply wp_bind, wp_upd. intros w2 U.
  apply (holding_updated w0 w1 HO) in U;
    [|by apply legal_requeue|apply (ho_key _ _ _ _ _ _ _ HO)|reflexivity].
  clear HO. hold_step. split; [done|]. by eexists _, _, _.
Qed.

Lemma sound_retain w ids : sound w -> sound (snd (retain ids w)).
Proof.
  intros [H1 H2 H3]. split; [done..|]. cbn. intros i o [Ho _]%map_lookup_filter_Some. eauto.
Qed.

(** The computation leaves the objects of other rows alone. *)
Definition map_frame {A} (ids : list Z) (m : M A) : Prop :=
  forall w i, ~ In i ids -> identity_map (snd (m w)) !! i = identity_map w !! i.

Lemma map_frame_requeue_one user now p : map_frame [id p] (requeue_one user now p).
Proof.
  intros w i Hi. unfold requeue_one. unfold bind, upd. cbn [fst snd].
  match goal with |- context [record_event ?a ?b ?c ?e ?w1] =>
    destruct (record_event_frame a b c e w1) as (w' & -> & A) end.
  cbn [snd]. rewrite (au_map _ _ _ A). cbn. rewrite lookup_insert_ne; [done|]. intros E. apply Hi. by left.
Qed.

Lemma map_frame_for_each user now ps : map_frame (map id ps) (for_each (requeue_one user now) ps).
Proof.
  induction ps as [|p ps IH]; intros w i Hi; [done|]. cbn. unfold bind.
  pose proof (map_frame_requeue_one user now p w i) as E.
  destruct (requeue_one user now p w) as [[[]|e] w1]; cbn in E |- *.
  - rewrite IH by (intros ?; apply Hi; by right). apply E. intros [?|[]]. apply Hi. by left.
  - apply E. intros [?|[]]. apply Hi. by left.
Qed.

Lemma wp_retain ids (Q : Res unit -> World -> Prop) w :
  Q (Ret tt) (snd (retain ids w)) -> wp (retain ids) Q w.
Proof. done. Qed.

(** The business events of the trail, newest first, with their payments. *)
Definition logged (d : Db) : list (option Z * string) :=
  map (fun e => (event_payment_id e, event_type e)) (business_events (payment_events d)).

Definition request_of (p : Payment) : option Z * string := (Some (id p), "admin_bulk_resend_requested").

Lemma requeue_one_logged user now p w : exists w', requeue_one user now p w = (Ret tt, w') /\
  logged (working w') = request_of p :: logged (working w).
Proof.
  unfold requeue_one. unfold bind at 1, upd. cbn [fst snd].
  match goal with |- context [record_event ?a ?b ?c ?e ?w1] =>
    destruct (record_event_frame a b c e w1) as (w' & -> & A) end.
  exists w'. split; [done|]. unfold logged. by rewrite (au_events _ _ _ A).
Qed.

Lemma requeues_logged user now ps w :
  wp (for_each (requeue_one user now) ps) (fun _ w' =>
    logged (working w') = rev (map request_of ps) ++ logged (working w)) w.
Proof.
  revert w. induction ps as [|p ps IH]; intros w; [done|]. cbn [for_each map rev].
  destruct (requeue_one_logged user now p w) as (w1 & E1 & L1). apply wp_bind. unfold wp at 1. rewrite E1. cbn [fst snd].
  eapply wp_mono; [apply IH|]. intros _ w' ->. by rewrite L1, <- app_assoc.
Qed.

(** One committed batch: rows that may be requeued, each once, are; every
    other payment is as it was; each requeue is recorded, once. *)
Record requeued (now : Z) (batch : list Payment) (d d' : Db) : Prop := {
  rq_once : NoDup (map id batch);
  rq_before : forall row, In row batch -> payments d !! id row = Some row /\ eligible_resend row = true;
  rq_rows : forall row, In row batch -> payments d' !! id row = Some (requeued_row now row);
  rq_other : forall i, ~ In i (map id batch) -> payments d' !! i = payments d !! i;
  rq_logged : logged d' = rev (map request_of batch) ++ logged d
}.

(** One batch: its rows, none of which the session holds a stale object of,
    are requeued in one commit; nothing is sent. *)
Record batch_requeued (now : Z) (batch : list Payment) (w w' : World) : Prop := {
  br_steady : steady w w';
  br_committed : committed w' = working w';
  br_calls : calls w' = calls w;
  br_done : requeued now batch (working w) (working w');
  br_map : forall i, ~ In i (map id batch) -> identity_map w' !! i = None
}.

Lemma constant_events {A} (e : string) (objs : list A) ls :
  Forall2 (fun _ es => es = [e]) objs ls -> concat (rev ls) = repeat e (length objs).
Proof.
  intros H. assert (E : concat ls = repeat e (length objs)) by (induction H; cbn; subst; cbn; congruence).
  assert (El : ls = repeat [e] (length objs)) by (clear E; induction H; cbn; congruence).
  rewrite El. rewrite El in E. clear - E.
  replace (rev (repeat [e] (length objs))) with (repeat [e] (length objs)); [done|].
  generalize (length objs) as n. clear. intros n. induction n as [|n IH]; cbn; [done|].
  rewrite <- IH, <- repeat_cons. done.
Qed.

Lemma wp_requeue_batch user now batch w :
  sound w -> NoDup (map id batch) ->
  (forall row, In row batch -> payments (working w) !! id row = Some row /\ eligible_resend row = true /\
     identity_map w !! id row = None) ->
  wp (requeue_batch user now batch) (fun r w' => r = Ret batch /\ batch_requeued now batch w w') w.
Proof.
  intros Hs Hnd Hb. unfold requeue_batch.
  apply wp_bind, (wp_attach_all w); [by apply steady_refl|done|by intros row [? _]%Hb|].
  intros w1 S1 E1 E2 E3.
  assert (Hobj : map (object_of w false) batch = batch).
  { rewrite <- (map_id batch) at 2. apply map_ext_in. intros row (_ & _ & Hn)%Hb.
    unfold object_of. by rewrite Hn. }
  rewrite Hobj. apply wp_bind, wp_retain. set (w2 := snd (retain (map id batch) w1)).
  assert (S2 : steady w w2) by (split; [apply sound_retain, S1|apply S1]).
  set (objs := map (fun row => (row, row)) batch).
  assert (Hfst : map fst objs = batch) by (subst objs; rewrite map_map; apply map_id).
  assert (Hids : row_ids objs = map id batch) by (subst objs; unfold row_ids; by rewrite map_map).
  assert (Hin : forall p row, In (p, row) objs -> p = row /\ In row batch)
    by (intros p row (q & [= <- <-] & Hq)%in_map_iff; done).
  enough (Hgoal : wp (for_each (requeue_one user now) (map fst objs) ;;; commit ;;; ret batch)
    (fun r w' => r = Ret batch /\ batch_requeued now batch w w') w2) by (by rewrite Hfst in Hgoal).
  apply wp_bind. eapply wp_mono; [eapply (wp_and _ _ (fun _ w' => (forall i, ~ In i (map id (map fst objs)) ->
    identity_map w' !! i = identity_map w2 !! i) /\ _));
    [|apply (wp_and _ _ _ _ (map_frame_for_each user now (map fst objs) w2) (requeues_logged user now (map fst objs) w2))]|].
  { apply (wp_for_each w _ (fun p row row' => row' = requeue_columns p now row)
      (fun _ es => es = ["admin_bulk_resend_requested"]) objs
      (fun r w' => r = Ret tt /\ steady w w' /\ each_done (fun p row row' => row' = requeue_columns p now row)
         (fun _ es => es = ["admin_bulk_resend_requested"]) objs w2 w')); [|done|by rewrite Hids| |done].
    - intros w3 p row [-> (_ & He & _)%Hb]%Hin HO. by apply wp_requeue_one.
    - intros p row [-> (Hr & _)%Hb]%Hin. change (working w2) with (working w1). by rewrite E1. }
  - intros r w3 [(-> & S3 & [Rc Ra Ro Rr _]) [Hmap Hlog]]. rewrite Hfst in Hmap, Hlog. apply wp_bind, wp_commit. intros w4 C. apply wp_ret.
    split; [done|]. split; rewrite ?(cm_committed _ _ C), ?(cm_working _ _ C); [|done|..].
    + eapply steady_trans; [exact S3|]. by eapply steady_commit; [|apply S3].
    + rewrite (cm_calls _ _ C), Ra. exact E3.
    + rewrite <- E1. change (working w1) with (working w2). split; [done| | | |exact Hlog].
      * intros row Hr. change (working w2) with (working w1). rewrite E1. by destruct (Hb row Hr) as (? & ? & _).
      * intros row Hr. destruct (Rr row row) as (row' & -> & _ & E); [by apply (in_map (fun r => (r, r)))|].
        by rewrite E, requeue_fresh.
      * intros i Hi. by rewrite Ro by (by rewrite Hids).
    + intros i Hi. rewrite (cm_map _ _ C), Hmap by done. cbn.
      apply map_lookup_filter_None. right. intros o _. cbn. by rewrite list_elem_of_In.
Qed.

(** The session holds no object of a payment that may be requeued. *)
Definition no_stale_objects (w : World) : Prop :=
  forall i o, identity_map w !! i = Some o -> i ∉ eligible_ids (committed w).

(** Other sessions make no payment eligible again. *)
Definition others_add_none : Prop :=
  forall n d, db_ok d -> eligible_ids (others n d) ⊆ eligible_ids d.

Lemma requeued_ids now batch d d' : requeued now batch d d' ->
  forall i, i ∈ eligible_ids d' <-> i ∈ eligible_ids d /\ ~ In i (map id batch).
Proof.
  intros [_ _ Hr Ho _] i. rewrite !elem_of_eligible.
  destruct (in_dec Z.eq_dec i (map id batch)) as [Hin|Hni].
  - apply in_map_iff in Hin as (row & <- & Hrow). rewrite (Hr row Hrow). split.
    + intros (r & [= <-] & He). by rewrite requeued_not_eligible in He.
    + intros [_ Hn]. destruct Hn. by apply in_map.
  - rewrite Ho by done. tauto.
Qed.

Lemma requeued_eligible now batch d d' : requeued now batch d d' -> forall i, In i (map id batch) -> i ∈ eligible_ids d.
Proof. intros R i (row & <- & Hr)%in_map_iff. apply elem_of_eligible. exists row. by apply (rq_before _ _ _ _ R). Qed.

(** The run of the command, as the database sees it: batches requeued one
    after the other, and what other sessions commit in between. *)
Inductive requeue_run (now : Z) : list (list Payment) -> Db -> Db -> Prop :=
  | run_done d : requeue_run now [] d d
  | run_others n batches d d' : requeue_run now batches (others n d) d' -> requeue_run now batches d d'
  | run_batch batch batches d1 d2 d3 : requeued now batch d1 d2 -> requeue_run now batches d2 d3 ->
      requeue_run now (batch :: batches) d1 d3.

Lemma requeue_run_others now k batches d d' : requeue_run now batches d d' -> requeue_run now batches d (others k d').
Proof.
  induction 1 as [d|n batches d d' _ IH|batch batches d1 d2 d3 R _ IH].
  - apply (run_others _ k). constructor.
  - by apply (run_others _ n).
  - by eapply run_batch.
Qed.

(** The end of the loop. [batches] is all that was requeued, no payment twice;
    what is still eligible is locked by others. *)
Record requeue_ended (now : Z) (t t' : Tally) (w w' : World) : Prop := {
  re_steady : steady w w';
  re_between : committed w' = working w';
  re_calls : calls w' = calls w;
  re_run : exists batches, requeue_run now batches (committed w) (committed w') /\
    NoDup (map id (concat batches)) /\
    (forall i, In i (map id (concat batches)) -> i ∈ eligible_ids (committed w)) /\
    t' = fold_left tally_one (concat batches) t;
  re_left : forall i, i ∈ eligible_ids (committed w') -> exists n, locked_by_others n i = true
}.

Lemma tally_fold ps t : (length (tally_ids t) <= PREVIEW_ORDER_LIMIT)%nat ->
  fold_left tally_one ps t = mkTally (tally_count t + Z.of_nat (length ps)) (tally_amount t + sum_amounts ps)
    (take PREVIEW_ORDER_LIMIT (tally_ids t ++ map bot_order_id ps)).
Proof.
  revert t. induction ps as [|p ps IH]; intros t Ht; cbn [fold_left length map].
  - rewrite app_nil_r, take_ge by done. destruct t. unfold sum_amounts. cbn. by rewrite !Z.add_0_r.
  - unfold tally_one at 2.
    destruct (Nat.ltb_spec (length (tally_ids t)) PREVIEW_ORDER_LIMIT) as [Hl|Hl];
      (rewrite IH; cbn [tally_ids tally_count tally_amount]; [|try (rewrite length_app; cbn); lia]);
      unfold sum_amounts; cbn [map fold_right]; f_equal; try lia.
    + by rewrite <- app_assoc.
    + by rewrite !take_app_le by lia.
Qed.

Lemma nothing_left locked n d : (0 < n)%nat -> keyed id (payments d) -> requeue_rows locked n d = [] ->
  forall i, i ∈ eligible_ids d -> locked i = true.
Proof.
  intros Hn K E i (row & Hi & He)%elem_of_eligible. pose proof (K i row Hi) as <-.
  destruct (locked (id row)) eqn:El; [done|]. exfalso.
  assert (Hin : In row []); [|done]. rewrite <- E. unfold requeue_rows in *.
  apply select_batch_complete; [by rewrite E|apply in_rows; eauto|]. by rewrite He, El.
Qed.

(** Distinct eligible payments are at most as many as there are. *)
Lemma eligible_bound ids d : NoDup ids -> (forall i, In i ids -> i ∈ eligible_ids d) ->
  (length ids <= size (eligible_ids d))%nat.
Proof.
  intros Hnd Hin. rewrite <- (size_list_to_set (C:=gset Z)) by done. apply subseteq_size.
  intros i Hi%elem_of_list_to_set%list_elem_of_In. auto.
Qed.

Lemma batch_shrinks now batch d d' : requeued now batch d d' -> batch <> [] ->
  (size (eligible_ids d') < size (eligible_ids d))%nat.
Proof.
  intros R Hne. pose proof (requeued_ids _ _ _ _ R) as Hids. apply subset_size. split.
  - by intros i [Hi _]%Hids.
  - destruct batch as [|row batch]; [done|]. intros H.
    assert (Hi : id row ∈ eligible_ids d) by (eapply requeued_eligible; [exact R|by left]).
    apply H, Hids in Hi as [_ Hi]. apply Hi. by left.
Qed.

(** One batch more in front of the run. *)
Lemma requeue_ended_batch now batch t t' w w2 w3 w' :
  requeued now batch (committed w2) (committed w3) -> eligible_ids (committed w2) ⊆ eligible_ids (committed w) ->
  (exists k, committed w2 = others k (committed w)) -> steady w w3 -> calls w3 = calls w ->
  requeue_ended now (fold_left tally_one batch t) t' w3 w' -> requeue_ended now t t' w w'.
Proof.
  intros R Hsub [k Ek] S C [Es Eb Ec (batches & Hrun & Hnd & Hel & ->) El].
  pose proof (requeued_ids _ _ _ _ R) as Hids.
  split; [by eapply steady_trans|done|congruence| |done].
  exists (batch :: batches). cbn [concat]. rewrite map_app. split_and!.
  - apply (run_others _ k). rewrite <- Ek. by eapply run_batch.
  - apply NoDup_app. split_and!; [apply R| |done]. intros i H1%list_elem_of_In H2%list_elem_of_In.
    apply Hel, Hids in H2 as [_ H2]. done.
  - intros i [Hi|Hi]%in_app_or; apply Hsub; [by eapply requeued_eligible|].
    by apply Hel, Hids in Hi as [Hi _].
  - by rewrite fold_left_app.
Qed.

Lemma wp_requeue_loop user now n fuel t w :
  others_add_none -> (0 < n)%nat -> sound w -> committed w = working w -> no_stale_objects w ->
  (size (eligible_ids (committed w)) < fuel)%nat ->
  wp (requeue_loop user now n fuel t) (fun r w' =>
    exists t', r = Ret (Some t') /\ requeue_ended now t t' w w') w.
Proof.
  intros Hadd Hn. revert t w. induction fuel as [|fuel IH]; intros t w Hs Hc Hst Hf; [lia|].
  cbn [requeue_loop]. apply wp_bind, wp_begin_tx. intros w1 B.
  pose proof (steady_began _ _ B (eq_sym Hc) Hs) as S1. destruct (bg_committed _ _ B) as [k Ek].
  assert (Hsub : eligible_ids (committed w1) ⊆ eligible_ids (committed w))
    by (rewrite Ek; apply Hadd, Hs).
  apply wp_bind, wp_get_db. apply wp_bind, wp_tick. intros w2 T.
  assert (S2 : steady w w2) by (eapply steady_trans; [exact S1|]; eapply steady_called; [exact T|apply S1]).
  assert (Ew2 : working w2 = committed w1) by (by ws).
  assert (Ec2 : committed w2 = committed w1) by (by ws).
  set (locked := locked_by_others (ticks w1)).
  pose proof (ok_keyed _ (so_working _ (proj1 S1))) as K1.
  destruct (requeue_rows_spec locked n (working w1) K1) as [Hnd Hrows].
  pose proof (nothing_left locked n (working w1) Hn K1) as Hleft.
  rewrite (bg_working _ _ B) in *. set (batch := requeue_rows locked n (committed w1)) in *.
  destruct batch as [|row0 batch'] eqn:Eb.
  - apply wp_bind, wp_rollback. intros w3 R. apply wp_ret. exists t. split; [done|].
    assert (E3 : committed w3 = committed w1) by (by ws). split; [|by ws|by ws| |]; rewrite ?E3.
    + eapply steady_trans; [exact S2|]. by eapply steady_rollback; [|apply S2].
    + exists []. split_and!; [|constructor|by intros i []|done]. apply (run_others _ k). rewrite <- Ek. constructor.
    + intros i Hi. eexists. by apply Hleft.
  - assert (Hne : batch <> []) by (by rewrite Eb). rewrite <- Eb in *. clear Eb. clearbody batch.
    assert (Hb : forall row, In row batch -> payments (working w2) !! id row = Some row /\
      eligible_resend row = true /\ identity_map w2 !! id row = None).
    { intros row Hr. destruct (Hrows row Hr) as (H1 & H2 & _). rewrite Ew2. split_and!; [done|done|].
      rewrite (ca_map _ _ _ T), (bg_map _ _ B). apply eq_None_not_Some. intros [o Ho].
      apply (Hst _ _ Ho), Hsub, elem_of_eligible. eauto. }
    apply wp_bind. eapply wp_mono; [apply (wp_requeue_batch user now batch w2); [apply S2|exact Hnd|exact Hb]|].
    intros r w3 [-> [S3 C3 A3 R M3]]. rewrite Ew2, <- C3 in R. pose proof (requeued_ids _ _ _ _ R) as Hids.
    pose proof (batch_shrinks _ _ _ _ R Hne) as Hsize. apply subseteq_size in Hsub as Hsub'.
    eapply wp_mono; [apply IH|].
    + apply S3.
    + done.
    + intros i o Ho [_ Hi]%Hids. pose proof (M3 i Hi). congruence.
    + lia.
    + intros r w4 (t' & -> & E). exists t'. split; [done|]. eapply (requeue_ended_batch _ _ _ _ w w2 w3); rewrite ?Ec2;
        [exact R|exact Hsub|by exists k|by eapply steady_trans|rewrite A3; by ws|exact E].
Qed.

(** Whatever objects the session holds and however often the loop runs, what
    it commits is legal. *)
Lemma requeue_batch_steady user now batch w :
  sound w -> NoDup (map id batch) ->
  (forall row, In row batch -> payments (working w) !! id row = Some row /\ eligible_resend row = true) ->
  wp (requeue_batch user now batch) (fun r w' => (exists ps, r = Ret ps) /\ steady w w' /\
    committed w' = working w') w.
Proof.
  intros Hs Hnd Hb. unfold requeue_batch.
  apply wp_bind, (wp_attach_all w); [by apply steady_refl|done|by intros row [? _]%Hb|].
  intros w1 S1 E1 E2 E3. set (objs := map (fun row => (object_of w false row, row)) batch).
  replace (map (object_of w false) batch) with (map fst objs) by (subst objs; by rewrite map_map).
  assert (Hids : row_ids objs = map id batch) by (subst objs; unfold row_ids; by rewrite map_map).
  apply wp_bind, wp_retain. set (w2 := snd (retain _ w1)).
  assert (S2 : steady w w2) by (split; [apply sound_retain, S1|apply S1]).
  apply wp_bind, (wp_for_each w _ (fun p row row' => row' = requeue_columns p now row)
    (fun _ es => es = ["admin_bulk_resend_requested"]) objs); [|done|by rewrite Hids| |].
  - intros w3 p row (row1 & [= <- <-] & Hin)%in_map_iff HO. apply wp_requeue_one; [done|]. by apply Hb.
  - intros p row (row1 & [= <- <-] & Hin)%in_map_iff. destruct (Hb row1 Hin) as [Hr _].
    change (working w2) with (working w1). rewrite E1. split; [done|]. by eapply same_key_object.
  - intros w3 S3 _. apply wp_bind, wp_commit. intros w4 C. apply wp_ret. split_and!; [by eexists| |].
    + eapply steady_trans; [exact S3|]. by eapply steady_commit; [|apply S3].
    + by rewrite (cm_committed _ _ C), (cm_working _ _ C).
Qed.

Lemma requeue_loop_steady user now n fuel t w : sound w -> committed w = working w ->
  wp (requeue_loop user now n fuel t) (fun r w' => (exists o, r = Ret o) /\ steady w w' /\
    committed w' = working w') w.
Proof.
  revert t w. induction fuel as [|fuel IH]; intros t w Hs Hc; cbn [requeue_loop].
  { apply wp_ret. split_and!; [by eexists|by apply steady_refl|done]. }
  apply wp_bind, wp_begin_tx. intros w1 B.
  pose proof (steady_began _ _ B (eq_sym Hc) Hs) as S1.
  apply wp_bind, wp_get_db. apply wp_bind, wp_tick. intros w2 T.
  pose proof (steady_called _ _ _ T (proj1 S1)) as S2.
  destruct (requeue_rows_spec (locked_by_others (ticks w1)) n (working w1)) as [Hnd Hrows].
  { apply (so_working _ (proj1 S1)). }
  rewrite <- (ca_working _ _ _ T) in *. set (batch := requeue_rows _ _ _) in *. clearbody batch.
  pose proof (steady_trans _ _ _ S1 S2) as S12.
  destruct batch as [|row0 rs].
  - apply wp_bind, wp_rollback. intros w3 R. apply wp_ret. split_and!; [by eexists| |by ws].
    eapply steady_trans; [exact S12|]. by eapply steady_rollback; [|apply S12].
  - apply wp_bind. eapply wp_mono.
    { apply (requeue_batch_steady user now (row0 :: rs) w2); [apply S12|done|].
      intros row Hr. by destruct (Hrows row Hr) as (? & ? & _). }
    intros r w3 ([ps ->] & S3 & Hc3). eapply wp_mono; [apply IH; [apply S3|done]|].
    intros r w4 (Hr & S4 & Hc4). split_and!; [done| |done].
    eapply steady_trans; [exact S12|]. by eapply steady_trans.
Qed.

Lemma requeue_steady user now n fuel w : sound w ->
  wp (requeue_failed_deliveries user now n fuel) (fun _ w' => steady w w') w.
Proof.
  intros Hs. unfold requeue_failed_deliveries. apply wp_bind, wp_get_db.
  apply wp_bind, wp_rollback. intros w1 R. pose proof (steady_rollback _ _ R Hs) as S1.
  apply wp_bind. eapply wp_mono; [apply requeue_loop_steady; [apply S1|by ws]|].
  intros r w2 ([[t|] ->] & S2 & Hc); pose proof (steady_trans _ _ _ S1 S2) as S12; [|by apply wp_ret].
  apply wp_bind, wp_begin_tx. intros w3 B. pose proof (steady_began _ _ B (eq_sym Hc) (proj1 S2)) as S3.
  apply wp_bind, wp_record_event. intros w4 A. pose proof (steady_audited _ _ _ A (proj1 S3)) as S4.
  apply wp_bind, wp_commit. intros w5 C. apply wp_ret. pose proof (steady_commit _ _ C (proj1 S4)) as S5.
  eapply steady_trans; [exact S12|]. eapply steady_trans; [exact S3|]. by eapply steady_trans.
Qed.

Lemma resend_failed_steady settings user args fuel w : sound w ->
  wp (cmd_resend_failed settings user args fuel) (fun _ w' => steady w w') w.
Proof.
  intros Hs. unfold cmd_resend_failed. destruct (negb (bool_decide _)); [by apply wp_ret, steady_refl|].
  destruct (negb _).
  - apply wp_bind. unfold preview_bulk_resend. apply wp_bind, wp_get_db, wp_bind, wp_rollback.
    intros w1 R. do 2 apply wp_ret. by eapply steady_rollback.
  - apply wp_bind, wp_utcnow. intros now w1 T. pose proof (steady_called _ _ _ T Hs) as S1.
    apply wp_bind. eapply wp_mono; [apply requeue_steady, S1|].
    intros [r|e] w2 S2; [apply wp_ret|]; by eapply steady_trans.
Qed.

(** ** Properties *)

(** C18: The bulk requeue ends, requeues no payment twice, and leaves nothing
    behind. If no other session makes a payment eligible again, one iteration
    more than there are eligible payments is enough. What the command commits
    is a sequence of batches, interleaved with what other sessions commit,
    and the summary: the payments of all batches together are distinct and
    were eligible at the start, each is requeued as the batch finds it with
    one request of its own in the trail, and nothing else is written or sent.
    The result counts exactly them, with their total and their first twenty
    order ids. What is still eligible afterwards is locked by another
    session. *)
Theorem requeue_terminates user now n fuel w :
  others_add_none -> (0 < n)%nat -> sound w -> committed w = working w ->
  (size (eligible_ids (committed w)) < fuel)%nat ->
  wp (requeue_failed_deliveries user now n fuel) (fun r w' =>
    exists result batches d, r = Ret (Some result) /\ steady w w' /\ calls w' = calls w /\
      let all := concat batches in
      requeue_run now batches (committed w) d /\
      NoDup (map id all) /\ (forall i, In i (map id all) -> i ∈ eligible_ids (committed w)) /\
      payments (committed w') = payments d /\
      logged (committed w') = (None, "admin_bulk_resend_completed") :: logged d /\
      requeued_count result = Z.of_nat (length all) /\
      requeued_count result + skipped_count result = Z.of_nat (size (eligible_ids (committed w))) /\
      total_amount result = sum_amounts all /\ order_ids result = take PREVIEW_ORDER_LIMIT (map bot_order_id all) /\
      forall i, i ∈ eligible_ids (committed w') -> exists k, locked_by_others k i = true) w.
Proof.
  intros Hadd Hn Hs Hc Hf. unfold requeue_failed_deliveries. apply wp_bind, wp_get_db.
  apply wp_bind, wp_rollback. intros w1 R. pose proof (steady_rollback _ _ R Hs) as S1.
  assert (E1 : committed w1 = committed w) by (by ws).
  apply wp_bind. eapply wp_mono; [apply wp_requeue_loop; [done|done|apply S1|by ws| |by rewrite E1]|].
  { intros i o. rewrite (rb_map _ _ R), lookup_empty. done. }
  rewrite ?E1. intros r w2 (t & -> & [S2 Eb Ec (batches & Hrun & Hnd & Hel & Et) El]). rewrite E1 in Hrun, Hel.
  apply wp_bind, wp_begin_tx. intros w3 B.
  pose proof (steady_trans _ _ _ S1 S2) as S12.
  pose proof (steady_began _ _ B (eq_sym Eb) (proj1 S2)) as S3. destruct (bg_committed _ _ B) as [k Ek].
  apply wp_bind, wp_record_event. intros w4 A. apply wp_bind, wp_commit. intros w5 C. apply wp_ret.
  assert (Ep : payments (committed w5) = payments (committed w3)) by (by ws).
  rewrite tally_fold in Et by (cbn; lia). cbn in Et. pose proof (eligible_bound _ _ Hnd Hel) as Hle. rewrite length_map in Hle.
  eexists _, batches, (committed w3). cbv zeta. subst t. cbn [tally_count tally_amount tally_ids requeued_count skipped_count total_amount order_ids].
  split_and!; try done.
  - eapply steady_trans; [exact S12|]. eapply steady_trans; [exact S3|].
    eapply steady_trans; [by eapply steady_audited; [exact A|apply S3]|].
    eapply steady_commit; [exact C|]. eapply steady_audited; [exact A|apply S3].
  - by rewrite (cm_calls _ _ C), (au_calls _ _ _ A), (bg_calls _ _ B), Ec, (rb_calls _ _ R).
  - rewrite Ek. by apply requeue_run_others.
  - unfold logged. rewrite (cm_committed _ _ C), (au_events _ _ _ A). by rewrite (bg_working _ _ B).
  - rewrite eligible_count by apply (so_working _ Hs). rewrite Hc in Hle |- *. cbn [requeued_count skipped_count tally_count]. lia.
  - intros i Hi. apply El, (Hadd k); [apply S2|]. rewrite <- Ek. unfold eligible_ids in *. by rewrite Ep in Hi.
Qed.
End ResendFacts.

(** ** A requeue that does not end *)

(** A worker that tries a requeued payment at once, fails, and gives it back
    to the administrators. *)
Definition worker_fails (t : Z) (d : Db) : Db :=
  d <| payments := (fun p => if bool_decide (status p = BOT_NOTIFY_PENDING)
                             then review_row (reason_value RETRY_LIMIT_REACHED) t p else p)
                   <$> payments d |>.

Definition spin_env : Env := {|
  clock := @clock calm_env; randbelow := @randbelow calm_env; token_hex := @token_hex calm_env;
  locked_by_others := @locked_by_others calm_env; others := fun _ => worker_fails (seconds 99000);
  alert_insert_fails := @alert_insert_fails calm_env; gateway_post := @gateway_post calm_env;
  bot_post := @bot_post calm_env
|}.

Definition failed_payment : Payment :=
  review_row (reason_value RETRY_LIMIT_REACHED) (seconds 99000) (example_due 5).

Definition spin_world : World := world_of (db_of [failed_payment]).

(** From the second iteration on, the session works with the object it
    requeued, while each transaction finds the payment under review again. *)
Definition spinning (now : Z) (w : World) : Prop :=
  payments (worker_fails (seconds 99000) (committed w)) = <[1 := failed_payment]> ∅ /\
  identity_map w !! 1 = Some (requeued_row now failed_payment).

(** One iteration over the payment, whose object is [p] and whose row becomes
    [row']. *)
Lemma spin_iteration now fuel t p row' w (Q : Res (option Tally) -> World -> Prop) :
  payments (worker_fails (seconds 99000) (committed w)) = <[1 := failed_payment]> ∅ ->
  object_of w false failed_payment = p -> requeue_columns p now failed_payment = row' ->
  id p = 1 -> requeue_columns p now p = requeued_row now failed_payment ->
  (forall t' w', payments (committed w') = <[1 := row']> ∅ ->
     identity_map w' !! 1 = Some (requeued_row now failed_payment) ->
     trail (committed w') = "admin_bulk_resend_requested" :: trail (committed w) ->
     wp (@requeue_loop spin_env None now RESEND_BATCH_SIZE fuel t') Q w') ->
  wp (@requeue_loop spin_env None now RESEND_BATCH_SIZE (S fuel) t) Q w.
Proof.
  intros Hw Hobj Hrow Hid Hself HQ. cbn [requeue_loop]. apply wp_bind, wp_begin_tx. intros w1 B.
  destruct (bg_committed _ _ B) as [k Ek]. change (@others spin_env k (committed w)) with
    (worker_fails (seconds 99000) (committed w)) in Ek.
  assert (P1 : payments (working w1) = <[1 := failed_payment]> ∅) by (by rewrite (bg_working _ _ B), Ek).
  apply wp_bind, wp_get_db. apply wp_bind, wp_tick. intros w2 T.
  assert (Hrows : requeue_rows (@locked_by_others spin_env (ticks w1)) RESEND_BATCH_SIZE (working w1) = [failed_payment]).
  { unfold requeue_rows. rewrite P1. vm_compute. reflexivity. }
  rewrite Hrows. apply wp_bind. unfold requeue_batch. cbn [attach_all]. do 2 apply wp_bind.
  apply wp_attach. intros w3 A.
  assert (Hobj2 : object_of w2 false failed_payment = p).
  { rewrite <- Hobj. unfold object_of. by rewrite (ca_map _ _ _ T), (bg_map _ _ B). }
  rewrite Hobj2 in *. apply wp_bind, wp_ret. apply wp_ret. apply wp_bind, wp_retain.
  apply wp_bind. cbn [for_each]. do 2 apply wp_bind. apply wp_upd. intros w4 U.
  apply wp_record_event. intros w5 A5. apply wp_ret. apply wp_bind, wp_commit. intros w6 C. apply wp_ret.
  apply HQ.
  - rewrite (cm_committed _ _ C), (au_payments _ _ _ A5), (up_payments _ _ _ _ U), Hid. cbn.
    rewrite (at_working _ _ _ _ A), (ca_working _ _ _ T), P1. rewrite alter_insert_eq, Hrow. done.
  - rewrite (cm_map _ _ C), (au_map _ _ _ A5), (up_map _ _ _ _ U), Hid, Hself. apply lookup_insert_eq.
  - rewrite (cm_committed _ _ C). unfold trail. rewrite (au_events _ _ _ A5). cbn.
    rewrite (up_events _ _ _ _ U). cbn. rewrite (at_working _ _ _ _ A), (ca_working _ _ _ T), (bg_working _ _ B), Ek.
    done.
Qed.

(** The requeue loop can run forever on one payment. If the worker fails a
    requeued payment before the loop selects again, the session keeps the
    object it requeued: the assignments change nothing and are not written,
    the payment stays under review, and every further iteration records one
    more request for it. The loop has not ended after any number of
    iterations, though the worker failed a single time. *)
Theorem requeue_livelock t iterations :
  wp (@requeue_loop spin_env None (seconds 100000) RESEND_BATCH_SIZE (2 + iterations) t) (fun r w' =>
    r = Ret None /\
    payments (committed w') = <[1 := failed_payment]> ∅ /\ status failed_payment = MANUAL_REVIEW /\
    trail (committed w') = repeat "admin_bulk_resend_requested" (2 + iterations)) spin_world.
Proof.
  set (now := seconds 100000).
  assert (Hspin : forall n m t w, spinning now w -> trail (committed w) = repeat "admin_bulk_resend_requested" m ->
    wp (@requeue_loop spin_env None now RESEND_BATCH_SIZE (S n) t) (fun r w' => r = Ret None /\
      payments (committed w') = <[1 := failed_payment]> ∅ /\ status failed_payment = MANUAL_REVIEW /\
      trail (committed w') = repeat "admin_bulk_resend_requested" (S n + m)) w).
  { induction n as [|n IH]; intros m t' w [Hp Hm] Ht;
      (apply (spin_iteration now _ t' (requeued_row now failed_payment) failed_payment);
       [exact Hp
       |unfold object_of; change (id failed_payment) with 1; rewrite Hm; reflexivity
       |vm_compute; reflexivity|reflexivity|vm_compute; reflexivity|intros t2 w' P M T]).
    - apply wp_ret. split_and!; [reflexivity|exact P|reflexivity|by rewrite T, Ht].
    - eapply wp_mono; [apply (IH (S m)); [split; [unfold worker_fails; cbn; rewrite P; vm_compute; reflexivity|exact M]
                                          |by rewrite T, Ht]|].
      intros r w2 (-> & P2 & E & T2). split_and!; [reflexivity|exact P2|exact E|]. rewrite T2. f_equal. lia. }
  change (2 + iterations)%nat with (S (S iterations)).
  apply (spin_iteration now (S iterations) t failed_payment (requeued_row now failed_payment));
    [vm_compute; reflexivity|vm_compute; reflexivity|vm_compute; reflexivity|reflexivity|vm_compute; reflexivity|].
  intros t2 w' P M T. eapply wp_mono; [apply (Hspin _ 1%nat); [split; [|exact M]|exact T]|].
  - unfold worker_fails. cbn. rewrite P. vm_compute. reflexivity.
  - intros r w2 (-> & P2 & E & T2). split_and!; [reflexivity|exact P2|exact E|]. rewrite T2. f_equal. lia.
Qed.

(** That worker keeps to what every session promises. *)
Lemma worker_fails_legal t d : db_legal d (worker_fails t d).
Proof.
  set (f := fun p => if bool_decide (status p = BOT_NOTIFY_PENDING)
                     then review_row (reason_value RETRY_LIMIT_REACHED) t p else p).
  assert (Hf : forall p, row_legal p (f p) /\ unique_columns (f p) = unique_columns p /\
                         bot_order_id (f p) = bot_order_id p).
  { intros p. unfold f. case_bool_decide; [|by split; [reflexivity|]]. split; [by apply legal_review|done]. }
  assert (Hl : forall i q, payments (worker_fails t d) !! i = Some q ->
            exists p, payments d !! i = Some p /\ q = f p).
  { intros i q. change (payments (worker_fails t d)) with (f <$> payments d). rewrite lookup_fmap.
    destruct (payments d !! i) as [p|]; [|done]. intros [= <-]. by exists p. }
  split.
  - intros i p Hp. exists (f p). split; [|apply Hf].
    change (payments (worker_fails t d)) with (f <$> payments d). by rewrite lookup_fmap, Hp.
  - intros i q Hn (p & Hp & _)%Hl. congruence.
  - by exists [].
  - done.
  - done.
  - intros U i j x y (p & Hp & ->)%Hl (q & Hq & ->)%Hl E. apply (U i j p q); [done|done|].
    destruct (Hf p) as (_ & _ & <-), (Hf q) as (_ & _ & <-). done.
  - intros U i j x y v (p & Hp & ->)%Hl (q & Hq & ->)%Hl Ex Ey.
    destruct (Hf p) as (_ & [= E1 _] & _), (Hf q) as (_ & [= E2 _] & _). apply (U i j p q v); congruence.
  - intros U i j x y v (p & Hp & ->)%Hl (q & Hq & ->)%Hl Ex Ey. unfold gateway_key in *.
    destruct (Hf p) as (_ & [= _ E1] & _), (Hf q) as (_ & [= _ E2] & _).
    apply (U i j p q v); unfold gateway_key; congruence.
  - by apply same_service_legal.
Qed.

#[export] Instance spin_rely : @Rely spin_env.
Proof. intros n d _. apply worker_fails_legal. Qed.

(** ** Witnesses *)

Lemma requeue_terminates_witness :
  eligible_ids (committed spin_world) = {[1]} /\
  wp (@requeue_failed_deliveries calm_env None (seconds 100000) RESEND_BATCH_SIZE 2) (fun r w' =>
    exists result, r = Ret (Some result) /\ eligible_ids (committed w') = ∅) spin_world.
Proof.
  assert (E : eligible_ids (committed spin_world) = {[1]}) by (vm_compute; reflexivity).
  split; [exact E|].
  eapply wp_mono; [apply (@requeue_terminates calm_env calm_rely None (seconds 100000) RESEND_BATCH_SIZE 2
    spin_world)|].
  - intros n d _. reflexivity.
  - apply Nat.ltb_lt. reflexivity.
  - apply sound_example. vm_compute. reflexivity.
  - reflexivity.
  - rewrite E, size_singleton. lia.
  - intros r w' (result & batches & d & -> & _ & _ & _ & _ & _ & _ & _ & _ & _ & _ & _ & Hl). exists result. split; [reflexivity|].
    apply set_eq. intros i. split; [|by intros ?%not_elem_of_empty].
    intros [k Hk]%Hl. discriminate Hk.
Defined.
