(* ===== verification/Verification.v ===== *)
(** Callback processing and settlement ([app/services/verification.py]).

    [verify_and_settle] is the only path on which a payment becomes verified;
    the browser callback ([process_callback]) and the reconciliation worker
    share it. *)

From S2P Require Import Prelude PyText Exceptions Config Models Session AuditTrail Ledger.
From S2P Require Import Urls CentralPay Security Bot Notification.

#[local] Open Scope Z_scope.

Definition ERROR_MAX_LENGTH : nat := 500.

Definition verified_status (s : PaymentStatus) : bool :=
  match s with
  | GATEWAY_VERIFIED | BOT_NOTIFY_PENDING | BOT_NOTIFY_ACCEPTED => true
  | _ => false
  end.

Inductive CallbackStatus := BOT_ACCEPTED | BOT_PENDING | UNDER_REVIEW.

Inductive SettlementOutcome := VERIFIED | GATEWAY_NOT_PAID | SETTLED_UNDER_REVIEW.

Record CallbackResult := mkCallbackResult {
  callback_status : CallbackStatus;
  callback_bot_order_id : string
}.

(** [str.isdigit] on Latin-1: the decimal digits and the superscripts. *)
Definition is_digit (c : Ascii.ascii) : bool :=
  is_ascii_digit c || (code c =? 178) || (code c =? 179) || (code c =? 185).

(** [_card_last4]. *)
Definition card_last4_of (card : option string) : option string :=
  match card with
  | None => None
  | Some s =>
      if String.eqb s "" then None
      else
        let digits := str_filter is_digit s in
        if (4 <=? String.length digits)%nat then Some (str_last 4 digits) else None
  end.

Definition jstr_list (l : list string) : Json := JList (map JStr l).

Section Verification.
Context `{Env}.

(** [_move_to_manual_review] of this module. *)
Definition review_mismatch (p : Payment) (mismatch_event : string) (data : dict) : M Payment :=
  record_event (Some (id p)) mismatch_event "error" data ;;;
  let* now := utcnow in
  let* p := upd p (fun r => r <| status := MANUAL_REVIEW |> <| manual_review_at := Some now |>
                              <| last_error := Some mismatch_event |>) in
  record_event (Some (id p)) "manual_review_required" "error" [("reason", JStr mismatch_event)] ;;;
  commit ;;;
  ret p.

(** [_maybe_record_first_payment]. *)
Definition maybe_record_first_payment (p : Payment) : M unit :=
  let* d := get_db in
  let verified_count := length (payments_where (fun q => is_some (gateway_verified_at q)) d) in
  if (verified_count =? 1)%nat then
    record_event (Some (id p)) "first_production_payment_verified" "critical"
      [("gateway_order_id", JInt (gateway_order_id p)); ("amount", JInt (amount p));
       ("checklist", JStr "run the first-payment checklist (PRODUCTION_CHECKLIST_FA.md)")]
  else ret tt.

Definition under_review (p : Payment) : CallbackResult :=
  mkCallbackResult UNDER_REVIEW (bot_order_id p).

(** The payments that already carry a reference id. *)
Definition colliding (p : Payment) (ref : string) (d : Db) : list Payment :=
  payments_where (fun q => bool_decide (reference_id q = Some ref) && negb (id q =? id p)) d.

(** The last part of [_validate_and_apply_verification]: all checks passed. *)
Definition apply_verification (p : Payment) (ref : string) (card : option string)
    (first_payment_guard : bool) : M CallbackResult :=
  let* now := utcnow in
  let* p := upd p (fun r => r <| gateway_verified_at := Some now |> <| reference_id := Some ref |>
                              <| card_last4 := card_last4_of card |> <| last_error := None |>) in
  record_event (Some (id p)) "gateway_payment_verified" "info"
    [("gateway_order_id", JInt (gateway_order_id p)); ("reference_id", JStr ref);
     ("original_amount", JInt (amount p)); ("fee_rate_bps", JInt (fee_rate_bps p));
     ("fee_amount", JInt (fee_amount p)); ("payable_amount", JInt (payable_amount p))] ;;;
  let* p := queue_notification p now in
  (if first_payment_guard then maybe_record_first_payment p else ret tt) ;;;
  commit ;;;
  ret (mkCallbackResult BOT_PENDING (bot_order_id p)).

(** [_validate_and_apply_verification]; [first_payment_guard] is
    [settings is not None and settings.first_payment_guard_enabled]. *)
Definition validate_and_apply_verification (p : Payment) (result : VerifyResult)
    (first_payment_guard : bool) : M CallbackResult :=
  let errors := jstr_list (field_errors result) in
  match result_reference_id result with
  | None =>
      let* p := review_mismatch p
        (if reference_id_invalid result then "verify_invalid_reference_id"
         else "verify_missing_reference_id")
        [("gateway_order_id", JInt (gateway_order_id p)); ("field_errors", errors)] in
      ret (under_review p)
  | Some ref =>
      if negb (bool_decide (result_amount result = Some (payable_amount p))) then
        let* p := review_mismatch p "verify_payable_amount_mismatch"
          [("gateway_order_id", JInt (gateway_order_id p)); ("original_amount", JInt (amount p));
           ("fee_rate_bps", JInt (fee_rate_bps p)); ("fee_amount", JInt (fee_amount p));
           ("expected_payable_amount", JInt (payable_amount p));
           ("reported_amount", jint_opt (result_amount result)); ("field_errors", errors)] in
        ret (under_review p)
      else if negb (bool_decide (result_user_id result = Some (gateway_user_id p))) then
        let* p := review_mismatch p "verify_user_id_mismatch"
          [("gateway_order_id", JInt (gateway_order_id p));
           ("payer_identity_type",
             json_of_option (fun t => JStr (identity_type_value t)) (payer_identity_type p));
           ("field_errors", errors)] in
        ret (under_review p)
      else
        let* d := get_db in
        match colliding p ref d with
        | q :: _ =>
            let* p := review_mismatch p "reference_id_collision"
              [("gateway_order_id", JInt (gateway_order_id p));
               ("colliding_payment_id", JInt (id q))] in
            ret (under_review p)
        | [] => apply_verification p ref (card_number result) first_payment_guard
        end
  end.

(** The two branches of [verify_and_settle] that leave the payment as it is
    but for [last_error]. *)
Definition settle_transport_error (p : Payment) (e : BridgeError) : M unit :=
  let reason := str_take ERROR_MAX_LENGTH (message e) in
  let* p := upd p (fun r => r <| last_error := Some reason |>) in
  record_event (Some (id p)) "centralpay_verify_failed" "error"
    [("gateway_order_id", JInt (gateway_order_id p)); ("stage", JStr "transport");
     ("error_code", JStr (error_code (error_class e))); ("reason", JStr reason)] ;;;
  commit.

Definition settle_not_paid (p : Payment) (failure : option string) (source : string) : M unit :=
  let reason := str_take ERROR_MAX_LENGTH
    match failure with
    | Some s => if String.eqb s "" then "verify not successful" else s
    | None => "verify not successful"
    end in
  let* p := upd p (fun r => r <| last_error := Some reason |>) in
  let data := [("gateway_order_id", JInt (gateway_order_id p)); ("stage", JStr "gateway");
               ("reason", JStr reason)] in
  (if String.eqb source "callback" then
     record_event (Some (id p)) "centralpay_verify_failed" "warning" data
   else
     record_event (Some (id p)) "centralpay_verify_not_paid" "info"
       (data ++ [("source", JStr source)])) ;;;
  commit.

(** [verify_and_settle]. *)
Definition verify_and_settle (api_key : string) (p : Payment) (first_payment_guard : bool)
    (source : string) : M SettlementOutcome :=
  let* result := try_catch (verify api_key (gateway_order_id p)) (fun e =>
    match e with
    | Bridge b =>
        if is_CentralPayError (error_class b)
        then settle_transport_error p b ;;; raise e
        else raise e
    | _ => raise e
    end) in
  if negb (gateway_success result) then
    settle_not_paid p (failure_reason result) source ;;;
    ret GATEWAY_NOT_PAID
  else
    let* applied := validate_and_apply_verification p result first_payment_guard in
    match callback_status applied with
    | UNDER_REVIEW => ret SETTLED_UNDER_REVIEW
    | _ => ret VERIFIED
    end.

(** The answer to a repeated callback of a verified payment. *)
Definition duplicate_result (p : Payment) : CallbackResult :=
  mkCallbackResult
    (if bool_decide (status p = BOT_NOTIFY_ACCEPTED) then BOT_ACCEPTED
     else if bool_decide (status p = MANUAL_REVIEW) then UNDER_REVIEW
     else BOT_PENDING)
    (bot_order_id p).

(** [process_callback]. *)
Definition process_callback (api_key : string) (gateway_order : Z) (callback_token : string)
    (first_payment_guard : bool) : M CallbackResult :=
  let* found := select_payment false (fun q => gateway_order_id q =? gateway_order) in
  match found with
  | None =>
      record_event None "callback_received" "warning"
        [("gateway_order_id", JInt gateway_order); ("result", JStr "payment_not_found")] ;;;
      commit ;;;
      raise_error PaymentNotFoundError
  | Some p =>
      let data := [("gateway_order_id", JInt gateway_order);
                   ("payment_status", JStr (status_value (status p)))] in
      if negb (callback_token_matches callback_token (callback_token_hash_col p)) then
        record_event (Some (id p)) "callback_token_invalid" "warning" data ;;;
        commit ;;;
        raise_error InvalidCallbackTokenError
      else
        record_event (Some (id p)) "callback_received" "info" data ;;;
        if verified_status (status p) || is_some (gateway_verified_at p) then
          record_event (Some (id p)) "duplicate_callback_ignored" "info" data ;;;
          commit ;;;
          ret (duplicate_result p)
        else if bool_decide (status p = MANUAL_REVIEW) then
          commit ;;;
          ret (under_review p)
        else
          let* outcome := verify_and_settle api_key p first_payment_guard "callback" in
          match outcome with
          | GATEWAY_NOT_PAID => raise_error VerificationFailedError
          | SETTLED_UNDER_REVIEW => ret (under_review p)
          | VERIFIED => ret (mkCallbackResult BOT_PENDING (bot_order_id p))
          end
  end.
End Verification.

(** ** Facts *)

Lemma card_last4_of_short c l : card_last4_of c = Some l ->
  String.length l = 4%nat /\ str_forallb is_digit l = true.
Proof.
  unfold card_last4_of. destruct c as [s|]; [|done]. destruct (String.eqb s ""); [done|].
  destruct (4 <=? _)%nat eqn:E; [|done]. apply Nat.leb_le in E. intros [= <-].
  split; [by apply str_last_length|]. apply str_forallb_drop, str_filter_forallb.
Qed.

(** A payment that settlement may work on. *)
Definition settleable (row : Payment) : Prop :=
  gateway_verified_at row = None /\ verified_status (status row) = false /\
  status row <> MANUAL_REVIEW.

Definition mismatch_row (event : string) (now : Z) (row : Payment) : Payment :=
  row <| status := MANUAL_REVIEW |> <| manual_review_at := Some now |> <| last_error := Some event |>.

Definition error_row (reason : string) (row : Payment) : Payment := row <| last_error := Some reason |>.

Definition settled_row (now : Z) (ref : string) (card : option string) (row : Payment) : Payment :=
  row <| gateway_verified_at := Some now |> <| reference_id := Some ref |>
      <| card_last4 := card_last4_of card |> <| last_error := None |>
      <| status := BOT_NOTIFY_PENDING |> <| bot_notify_reason := None |>
      <| next_retry_at := Some now |>.

Lemma legal_error reason row : row_legal row (error_row reason row).
Proof. by row_legal_tac. Qed.

Lemma legal_mismatch event now row : settleable row -> row_legal row (mismatch_row event now row).
Proof.
  intros (Hv & Hs & Hm). row_legal_tac.
  - destruct (status row); done.
  - split_and!; try done; congruence.
Qed.

(** The two assignments of a successful settlement. *)
Definition verified_row (now : Z) (ref : string) (card : option string) (row : Payment) : Payment :=
  row <| gateway_verified_at := Some now |> <| reference_id := Some ref |>
      <| card_last4 := card_last4_of card |> <| last_error := None |>.

Lemma legal_verified now ref card row : settleable row -> row_legal row (verified_row now ref card row).
Proof.
  intros (Hv & Hs & Hm). row_legal_tac.
  - bool_to_prop. congruence.
  - split_and!; done.
Qed.

Definition queued_row (now : Z) (row : Payment) : Payment :=
  row <| status := BOT_NOTIFY_PENDING |> <| bot_notify_reason := None |>
      <| next_retry_at := Some now |>.

Lemma legal_queued now row : is_some (gateway_verified_at row) = true ->
  status row <> BOT_NOTIFY_ACCEPTED -> row_legal row (queued_row now row).
Proof.
  intros Hv Hs. row_legal_tac.
  - bool_to_prop. congruence.
  - split_and!; done.
Qed.

Lemma trail_event w pid etype lvl data : etype <> "admin_alert_created" ->
  map event_type (business_events [event_row w pid etype lvl data]) = [etype].
Proof.
  intros Hne. unfold business_events, business_event. cbn.
  destruct (String.eqb_spec etype "admin_alert_created"); done.
Qed.

(** What makes a gateway answer settle a payment: success, the exact payable
    amount, the payer the link was issued for, and a reference id no other
    payment carries. *)
Definition acceptable (d : Db) (row : Payment) (result : VerifyResult) (ref : string) : Prop :=
  result_reference_id result = Some ref /\
  result_amount result = Some (payable_amount row) /\
  result_user_id result = Some (gateway_user_id row) /\
  forall i q, payments d !! i = Some q -> reference_id q = Some ref -> i = id row.

(** The first check that a confirmed answer fails. *)
Definition mismatch_event (row : Payment) (result : VerifyResult) : string :=
  match result_reference_id result with
  | None => if reference_id_invalid result then "verify_invalid_reference_id"
            else "verify_missing_reference_id"
  | Some _ =>
      if negb (bool_decide (result_amount result = Some (payable_amount row)))
      then "verify_payable_amount_mismatch"
      else if negb (bool_decide (result_user_id result = Some (gateway_user_id row)))
      then "verify_user_id_mismatch"
      else "reference_id_collision"
  end.

Section VerificationFacts.
Context `{Env}.

Lemma wp_review_mismatch {w0 w1 cs es p row w} event data (Q : Res Payment -> World -> Prop) :
  holding w0 w1 cs es p row w -> settleable row -> event <> "admin_alert_created" ->
  (forall now w', settled w0 w1 cs ("manual_review_required" :: event :: es)
                    (mismatch_row event now row) w' -> Q (Ret (mismatch_row event now p)) w') ->
  wp (review_mismatch p event data) Q w.
Proof.
  intros HO Hset Hne HQ. unfold review_mismatch.
  apply wp_bind, wp_record_event. intros wa A. apply (holding_audited w0 w1 HO) in A.
  rewrite trail_event in A by done. clear HO. do 2 hold_step.
  apply wp_bind, wp_upd. intros wu U.
  apply (holding_updated w0 w1 A) in U; [|by apply legal_mismatch|apply (ho_key _ _ _ _ _ _ _ A)|reflexivity].
  clear A. do 4 hold_step. apply wp_ret. by apply (HQ t).
Qed.

Lemma wp_first_payment {w0 w1 cs es p row w} (guard : bool) (Q : Res unit -> World -> Prop) :
  holding w0 w1 cs es p row w ->
  (forall l w', holding w0 w1 cs (l ++ es) p row w' -> Q (Ret tt) w') ->
  wp (if guard then maybe_record_first_payment p else ret tt) Q w.
Proof.
  intros HO HQ. destruct guard; [|by apply wp_ret, (HQ [])].
  unfold maybe_record_first_payment. apply wp_bind, wp_get_db. destruct (_ =? 1)%nat.
  - hold_step. by apply (HQ ["first_production_payment_verified"]).
  - by apply wp_ret, (HQ []).
Qed.

Lemma wp_queue_notification {w0 w1 cs es p row w} now (Q : Res Payment -> World -> Prop) :
  holding w0 w1 cs es p row w -> is_some (gateway_verified_at row) = true ->
  status row <> BOT_NOTIFY_ACCEPTED ->
  (forall w', holding w0 w1 cs ("bot_notification_queued" :: es) (queued_row now p)
                (queued_row now row) w' -> Q (Ret (queued_row now p)) w') ->
  wp (queue_notification p now) Q w.
Proof.
  intros HO Hv Hs HQ. unfold queue_notification. apply wp_bind, wp_upd. intros wu U.
  apply (holding_updated w0 w1 HO) in U; [|by apply (legal_queued now)|apply (ho_key _ _ _ _ _ _ _ HO)|reflexivity].
  clear HO. do 3 hold_step. by apply HQ.
Qed.

(** The events of a settlement, after the events [es]: verified, then queued. *)
Definition settlement_trail (es es' : list string) : Prop :=
  exists l, es' = l ++ "bot_notification_queued" :: "gateway_payment_verified" :: es.

(** No other payment carries the reference. *)
Definition unclaimed_reference (d : Db) (row : Payment) (ref : string) : Prop :=
  forall i q, payments d !! i = Some q -> reference_id q = Some ref -> i = id row.

Lemma own_new_reference w0 w1 cs es p row w ref row' :
  holding w0 w1 cs es p row w -> unclaimed_reference (working w1) row ref ->
  reference_id row' = Some ref -> gateway_order_id row' = gateway_order_id row ->
  own_keys (payments (working w)) (id p) row row'.
Proof.
  intros HO Hnew Href Hord. split; [right|left; unfold gateway_key; congruence]. rewrite Href, (ho_payments _ _ _ _ _ _ _ HO).
  rewrite (same_key_id _ _ (ho_key _ _ _ _ _ _ _ HO)). intros i q.
  rewrite lookup_insert. case_decide; [done|apply Hnew].
Qed.

Lemma wp_apply_verification {w0 w1 cs es p row w} ref card guard (Q : Res CallbackResult -> World -> Prop) :
  holding w0 w1 cs es p row w -> settleable row -> unclaimed_reference (working w1) row ref ->
  (forall now es' w', settlement_trail es es' -> settled w0 w1 cs es' (settled_row now ref card row) w' ->
     Q (Ret (mkCallbackResult BOT_PENDING (bot_order_id p))) w') ->
  wp (apply_verification p ref card guard) Q w.
Proof.
  intros HO Hset Hnew HQ. unfold apply_verification. do 2 hold_step.
  apply wp_bind, wp_upd. intros wu U.
  apply (holding_credited w0 w1 HO) in U;
    [|by apply (legal_verified t ref card)|apply (ho_key _ _ _ _ _ _ _ HO)|by eapply own_new_reference; [..|reflexivity]].
  clear HO. do 2 hold_step. apply wp_bind, (wp_queue_notification _ _ U).
  { done. }
  { destruct Hset as (_ & Hs & _). cbn. by destruct (status row). }
  clear U w. intros w V. apply wp_bind, (wp_first_payment _ _ V). clear V w.
  intros l w V. do 2 hold_step. apply wp_ret.
  eapply (HQ t _ _); [|exact V]. by eexists.
Qed.

Lemma colliding_nil p ref d : keyed id (payments d) ->
  colliding p ref d = [] <->
  forall i q, payments d !! i = Some q -> reference_id q = Some ref -> i = id p.
Proof.
  intros Hk. unfold colliding, payments_where. split.
  - intros E i q Hi Hr. destruct (decide (i = id p)) as [|Hne]; [done|].
    assert (Hin : In q []); [|done]. rewrite <- E. apply filter_In. split; [apply in_rows; eauto|].
    rewrite bool_decide_true by done. rewrite (Hk i q Hi). cbn. by apply negb_true_iff, Z.eqb_neq.
  - intros Hall. match goal with |- ?l = [] => destruct l as [|q l'] eqn:E; [done|] end.
    assert (Hin : In q (q :: l')) by (by left). rewrite <- E in Hin.
    apply filter_In in Hin as [[i Hi]%in_rows Hf]. bool_to_prop.
    pose proof (Hall i q Hi ltac:(done)) as Hip. rewrite (Hk i q Hi) in *. congruence.
Qed.

Lemma wp_validate_and_apply {w0 w1 cs es p row w} result guard (Q : Res CallbackResult -> World -> Prop) :
  holding w0 w1 cs es p row w -> settleable row -> gateway_user_id p = gateway_user_id row ->
  (forall ref now es' w', acceptable (working w1) row result ref -> settlement_trail es es' ->
     settled w0 w1 cs es' (settled_row now ref (card_number result) row) w' ->
     Q (Ret (mkCallbackResult BOT_PENDING (bot_order_id p))) w') ->
  (forall now w', let event := mismatch_event row result in
     ~ (exists ref, acceptable (working w1) row result ref) ->
     settled w0 w1 cs ("manual_review_required" :: event :: es) (mismatch_row event now row) w' ->
     Q (Ret (under_review p)) w') ->
  wp (validate_and_apply_verification p result guard) Q w.
Proof.
  intros HO Hset Hu Hok Hno. pose proof (ho_key _ _ _ _ _ _ _ HO) as Hk.
  assert (Hpay : payable_amount p = payable_amount row)
    by (destruct Hk as [Hk _]; unfold financial_snapshot in Hk; congruence).
  assert (Hmis : forall event data, event <> "admin_alert_created" -> event = mismatch_event row result ->
     ~ (exists ref, acceptable (working w1) row result ref) ->
     wp (review_mismatch p event data) (fun r w' =>
       match r with Ret q => Q (Ret (under_review q)) w' | Raise e => Q (Raise e) w' end) w).
  { intros event data Hne -> Hacc. apply (wp_review_mismatch _ _ _ HO Hset Hne).
    intros now w' Hse. by apply (Hno now). }
  unfold validate_and_apply_verification. unfold acceptable, mismatch_event in *.
  rewrite Hpay, Hu. destruct (result_reference_id result) as [ref|] eqn:Href.
  2:{ apply wp_bind, Hmis; [by case_match|done|]. by intros (ref & ? & _). }
  destruct (negb (bool_decide (result_amount result = _))) eqn:Ea; bool_to_prop.
  { apply wp_bind, Hmis; [done|done|]. intros (? & _ & ? & _). congruence. }
  destruct (negb (bool_decide (result_user_id result = _))) eqn:Eu; bool_to_prop.
  { apply wp_bind, Hmis; [done|done|]. intros (? & _ & _ & ? & _). congruence. }
  apply wp_bind, wp_get_db.
  assert (Hcol : colliding p ref (working w) = [] <->
    forall i q, payments (working w1) !! i = Some q -> reference_id q = Some ref -> i = id row).
  { rewrite colliding_nil by apply (so_working w (proj1 (ho_steady _ _ _ _ _ _ _ HO))).
    rewrite (ho_payments _ _ _ _ _ _ _ HO), (same_key_id _ _ Hk). split; intros Hall i q Hi Hr.
    - destruct (decide (i = id row)) as [|Hne]; [done|]. apply (Hall i q); [|done].
      by rewrite lookup_insert_ne.
    - destruct (decide (i = id row)) as [|Hne]; [done|]. apply (Hall i q); [|done].
      by rewrite lookup_insert_ne in Hi. }
  destruct (colliding p ref (working w)) as [|q l] eqn:Ec.
  - assert (Hnew : unclaimed_reference (working w1) row ref) by exact (proj1 Hcol eq_refl).
    apply (wp_apply_verification _ _ _ _ HO Hset Hnew). intros now es' w' He Hse.
    apply (Hok ref now es'); [|done..]. split_and!; [done|congruence|congruence|]. by apply Hcol.
  - apply wp_bind, Hmis; [done|done|]. intros (ref' & [= <-] & _ & _ & Hall).
    by apply Hcol in Hall.
Qed.

(** The abstract contract of a settlement: what the answer of the gateway
    makes of the result and of the row. *)
Inductive settlement (d : Db) (row : Payment)
  : Res VerifyResult -> Res SettlementOutcome -> Payment -> Prop :=
  | settle_transport b :
      settlement d row (Raise (Bridge b)) (Raise (Bridge b))
        (error_row (str_take ERROR_MAX_LENGTH (message b)) row)
  | settle_unpaid result reason :
      gateway_success result = false ->
      settlement d row (Ret result) (Ret GATEWAY_NOT_PAID) (error_row reason row)
  | settle_verified result ref now :
      gateway_success result = true -> acceptable d row result ref ->
      settlement d row (Ret result) (Ret VERIFIED) (settled_row now ref (card_number result) row)
  | settle_review result now :
      gateway_success result = true -> ~ (exists ref, acceptable d row result ref) ->
      settlement d row (Ret result) (Ret SETTLED_UNDER_REVIEW)
        (mismatch_row (mismatch_event row result) now row).

Definition verify_reply (w : World) (api_key : string) (order : Z) : GatewayReply :=
  gateway_post (ticks w) "verify.php" [("api_key", JStr api_key); ("orderId", JInt order)].

Lemma verify_answer_error reply e : verify_answer reply = Raise e ->
  (exists cls, e = Unexpected cls /\ reply = GatewayCrash cls) \/
  (exists b, e = Bridge b /\ is_CentralPayError (error_class b) = true).
Proof.
  unfold verify_answer. destruct (reply_body _ _) eqn:E; [done|].
  intros [= <-]. by eapply reply_body_error.
Qed.

Lemma wp_hold_error {w0 w1 cs es p row w} reason (k : Payment -> M unit) Q :
  holding w0 w1 cs es p row w ->
  (forall w', holding w0 w1 cs es (error_row reason p) (error_row reason row) w' ->
     wp (k (error_row reason p)) Q w') ->
  wp (bind (upd p (fun r => r <| last_error := Some reason |>)) k) Q w.
Proof.
  intros HO HQ. apply wp_bind, wp_upd. intros wu U.
  apply (holding_updated w0 w1 HO) in U; [|apply (legal_error reason)|apply (ho_key _ _ _ _ _ _ _ HO)|reflexivity].
  by apply HQ.
Qed.

Lemma wp_verify_and_settle {w0 w1 cs es p row w} api_key guard source
    (Q : Res SettlementOutcome -> World -> Prop) :
  holding w0 w1 cs es p row w -> settleable row -> gateway_user_id p = gateway_user_id row ->
  let reply := verify_reply w api_key (gateway_order_id p) in
  let cs' := verify_request api_key (gateway_order_id p) :: cs in
  (forall cls w', reply = GatewayCrash cls -> holding w0 w1 cs' es p row w' ->
     Q (Raise (Unexpected cls)) w') ->
  (forall r row' es' w', settlement (working w1) row (verify_answer reply) r row' ->
     (r = Ret VERIFIED -> settlement_trail es es') -> settled w0 w1 cs' es' row' w' -> Q r w') ->
  wp (verify_and_settle api_key p guard source) Q w.
Proof.
  intros HO Hset Hu. cbv zeta. intros Hcrash Hset'. unfold verify_and_settle.
  apply wp_bind, wp_try, wp_verify. intros wc reply C Hreply.
  change (gateway_post _ _ _) with (verify_reply w api_key (gateway_order_id p)) in Hreply.
  rewrite <- Hreply in Hcrash, Hset'. clear Hreply.
  apply (holding_called w0 w1 HO) in C. cbn in C. clear HO w.
  destruct (verify_answer reply) as [result|e] eqn:Ea.
  2:{ destruct (verify_answer_error _ _ Ea) as [(cls & -> & ->)|(b & -> & Hb)].
      - apply wp_raise. by apply (Hcrash cls).
      - rewrite Hb. unfold settle_transport_error. apply wp_bind, (wp_hold_error _ _ _ C).
        clear C wc. intros w HO. do 3 hold_step. apply wp_raise.
        eapply (Hset' _ _ _ _); [constructor|done|exact HO]. }
  destruct (gateway_success result) eqn:Eg; cbn [negb].
  - apply wp_bind, (wp_validate_and_apply _ _ _ C Hset Hu).
    + intros ref now es' w Hacc He Hse. apply wp_ret.
      eapply (Hset' _ _ _ _); [by eapply settle_verified|done|exact Hse].
    + intros now w event Hacc Hse. apply wp_ret.
      eapply (Hset' _ _ _ _); [by apply settle_review|done|exact Hse].
  - unfold settle_not_paid. apply wp_bind, (wp_hold_error _ _ _ C).
    clear C wc. intros w HO. destruct (String.eqb source "callback"); do 3 hold_step; apply wp_ret;
      (eapply (Hset' _ _ _ _); [by constructor|done|exact HO]).
Qed.

(** C14: Settlement refines its contract. One request is sent; a transport or
    protocol error and an unpaid answer leave the payment unverified, with
    only [last_error] changed; an acceptable answer verifies the payment and
    queues its notification in one commit, with both events; any other answer
    moves it to manual review unverified, naming the first check it fails. Whatever happens, no other payment
    changes; and if the client itself crashes nothing is committed. *)
Theorem verify_and_settle_refines api_key guard source w row :
  sound w -> payments (working w) !! id row = Some row -> settleable row ->
  let reply := verify_reply w api_key (gateway_order_id row) in
  wp (verify_and_settle api_key row guard source) (fun r w' =>
    calls w' = verify_request api_key (gateway_order_id row) :: calls w /\ sound w' /\
    ((exists cls, reply = GatewayCrash cls /\ r = Raise (Unexpected cls) /\
        committed w' = committed w) \/
     (exists row' es, settlement (working w) row (verify_answer reply) r row' /\
        payments (committed w') = <[id row := row']> (payments (working w)) /\
        trail (committed w') = es ++ trail (working w) /\
        (r = Ret VERIFIED -> settlement_trail [] es)))) w.
Proof.
  intros Hs Hrow Hset. cbv zeta.
  assert (HO : holding w w [] [] row row w).
  { split; try done; try (by apply steady_refl); by rewrite insert_id. }
  apply (wp_verify_and_settle _ _ _ _ HO Hset eq_refl).
  - intros cls w' Hreply HO'. split_and!; [apply HO'|apply HO'|]. left. exists cls.
    split_and!; [done|done|]. apply HO'.
  - intros r row' es' w' Hst Htr [S E P Hc T]. split_and!; [done|apply S|]. right.
    exists row', es'. split_and!; [done| |done|done].
    rewrite P. f_equal. inversion Hst; subst; reflexivity.
Qed.

(** ** The callback *)

(** The row a callback is about, in a session that holds no objects yet. *)
Definition callback_row (w : World) (order : Z) (token : string) (row : Payment) : Prop :=
  payments (working w) !! id row = Some row /\ gateway_order_id row = order /\
  callback_token_matches token (callback_token_hash_col row) = true.

(** A request that ends without settling anything: payments and requests are
    as they were, whatever was recorded is committed. *)
Definition inert (w w' : World) : Prop :=
  steady w w' /\ payments (committed w') = payments (working w) /\ calls w' = calls w.

Lemma inert_settled w es row w' :
  payments (working w) !! id row = Some row -> settled w w [] es row w' -> inert w w'.
Proof.
  intros Hrow [S E P Hc T]. split_and!; [done| |by rewrite Hc]. by rewrite P, insert_id.
Qed.

Definition settlement_result (row : Payment) (r : Res SettlementOutcome) : Res CallbackResult :=
  match r with
  | Ret GATEWAY_NOT_PAID => Raise (Bridge (bridge_error VerificationFailedError None))
  | Ret SETTLED_UNDER_REVIEW => Ret (under_review row)
  | Ret VERIFIED => Ret (mkCallbackResult BOT_PENDING (bot_order_id row))
  | Raise e => Raise e
  end.

(** The gateway gave some reply to the verification request for an order. *)
Definition replied (api_key : string) (order : Z) (reply : GatewayReply) : Prop :=
  exists n, reply = gateway_post n "verify.php" [("api_key", JStr api_key); ("orderId", JInt order)].

(** A callback settled the payment [row] by the gateway's answer. *)
Record callback_settles (api_key : string) (order : Z) (row row' : Payment) (reply : GatewayReply)
    (r : Res SettlementOutcome) (w w' : World) : Prop := {
  cs_steady : steady w w';
  cs_settleable : settleable row;
  cs_reply : replied api_key order reply;
  cs_outcome : settlement (working w) row (verify_answer reply) r row';
  cs_payments : payments (committed w') = <[id row := row']> (payments (working w));
  cs_calls : calls w' = verify_request api_key order :: calls w
}.

Lemma settlement_id d row a r row' : settlement d row a r row' -> id row' = id row.
Proof. by inversion 1. Qed.

Lemma wp_process_callback api_key order token guard (Q : Res CallbackResult -> World -> Prop) w :
  sound w -> identity_map w = ∅ ->
  (forall w', inert w w' -> (forall i row, payments (working w) !! i = Some row ->
                               gateway_order_id row <> order) ->
     Q (Raise (Bridge (bridge_error PaymentNotFoundError None))) w') ->
  (forall row w', inert w w' -> payments (working w) !! id row = Some row ->
     gateway_order_id row = order ->
     callback_token_matches token (callback_token_hash_col row) = false ->
     Q (Raise (Bridge (bridge_error InvalidCallbackTokenError None))) w') ->
  (forall row w', inert w w' -> callback_row w order token row -> ~ settleable row ->
     Q (Ret (duplicate_result row)) w') ->
  (forall row row' reply r w', callback_row w order token row ->
     callback_settles api_key order row row' reply r w w' -> Q (settlement_result row r) w') ->
  (forall row cls w', callback_row w order token row -> settleable row ->
     replied api_key order (GatewayCrash cls) ->
     steady w w' -> committed w' = committed w ->
     calls w' = verify_request api_key order :: calls w -> Q (Raise (Unexpected cls)) w') ->
  wp (process_callback api_key order token guard) Q w.
Proof.
  intros Hs Hm Hnone Htok Hdup Hset Hcrash. pose proof (steady_refl w Hs) as S0.
  pose proof (ok_keyed _ (so_working w Hs)) as Hid.
  unfold process_callback. apply wp_bind, wp_select_payment; [done| |].
  { intros Hno. repeat wp_step. apply Hnone.
    - split_and!; [|by ws|by ws]. eapply steady_trans; [by eapply steady_audited|].
      eapply steady_commit; [done|]. eapply steady_audited; eauto.
    - intros i row Hi He. specialize (Hno i row Hi). apply Z.eqb_neq in Hno. done. }
  intros row w1 Hrow Hord A. apply Z.eqb_eq in Hord.
  assert (Hobj : object_of w false row = row) by (unfold object_of; by rewrite Hm).
  apply (holding_start w w false (id row) _ _ S0 Hrow) in A. rewrite Hobj in *.
  destruct (callback_token_matches token (callback_token_hash_col row)) eqn:Et; cbn [negb].
  2:{ do 4 hold_step. apply wp_raise. eapply Htok; eauto. by eapply inert_settled. }
  assert (Hcb : callback_row w order token row) by done. do 2 hold_step.
  destruct (verified_status (status row) || is_some (gateway_verified_at row)) eqn:Ev.
  { do 4 hold_step. apply wp_ret. apply Hdup; [by eapply inert_settled|done|].
    intros (H1 & H2 & _). rewrite H1, H2 in Ev. done. }
  bool_to_prop. destruct (bool_decide (status row = MANUAL_REVIEW)) eqn:Er; bool_to_prop.
  { do 2 hold_step. apply wp_ret.
    replace (under_review row) with (duplicate_result row)
      by (unfold duplicate_result, under_review; by rewrite Er).
    apply Hdup; [by eapply inert_settled|done|]. by intros (_ & _ & ?). }
  assert (Hs' : settleable row) by done.
  apply wp_bind, (wp_verify_and_settle _ _ _ _ A Hs' eq_refl); rewrite Hord.
  - intros cls w2 Hreply HO. apply (Hcrash row); [done|done|by eexists|apply HO|apply HO|apply HO].
  - intros r row' es' w2 Hst _ Hse.
    assert (Hcs : callback_settles api_key order row row' (verify_reply w0 api_key order) r w w2).
    { destruct Hse as [S E P Hc T]. split; try done; [by eexists|].
      by rewrite P, (settlement_id _ _ _ _ _ Hst). }
    specialize (Hset _ _ _ _ _ Hcb Hcs). unfold settlement_result in Hset.
    destruct r as [[]|e]; try by apply wp_ret. + by apply wp_raise. + done.
Qed.

(** The gateway confirms the payment [row]: HTTP 200 with an object body that
    is explicitly marked successful and whose data object reports the exact
    payable amount, the payer of the link, and the reference [ref]. *)
Definition confirms (reply : GatewayReply) (row : Payment) (ref : string) : Prop :=
  exists body data, reply = GatewayResponse 200 (Some (JObj body)) /\ marked_successful body /\
    dict_getN "data" body = JObj data /\
    to_int (dict_getN "amount" data) = Some (payable_amount row) /\
    to_int (dict_getN "userId" data) = Some (gateway_user_id row) /\
    parse_reference_id (dict_getN "referenceId" data) = (Some ref, false).

Lemma acceptable_confirms d reply row result ref :
  verify_answer reply = Ret result -> gateway_success result = true ->
  acceptable d row result ref -> confirms reply row ref.
Proof.
  unfold verify_answer, reply_body. destruct reply as [st body| |]; [|done..].
  destruct (negb (st =? 200)) eqn:Est; [done|]. bool_to_prop. subst st.
  destruct body as [[| | | | | |body]|]; try done. intros [= <-] Hs (Hr & Ha & Hu & _).
  unfold read_verify_body, marked_successful in *.
  destruct (fst (gateway_reason_code body)) eqn:Ec; [done|].
  pose proof (proj1 (gateway_reason_code_None body) Ec) as (? & ? & ? & ?).
  destruct (dict_getN "data" body) as [| | | | | |data] eqn:Ed; try done.
  unfold parse_verified in *.
  pose proof (parse_reference_id_contract (dict_getN "referenceId" data)) as Hp.
  destruct (parse_reference_id (dict_getN "referenceId" data)) as [o inv] eqn:Er. cbn in *. subst o.
  destruct Hp as (-> & _). exists body, data. split_and!; try done. by split_and!; eauto.
Qed.

(** C13: A callback can turn an unverified payment into a verified one only if it
    names this payment's current order id and presents its current one-time
    token, and the gateway, asked about exactly this order by the only request
    sent, confirms it: HTTP 200, an explicitly successful body, the exact
    payable amount, the payer the link was issued for, and a reference id that
    no other payment carries. The payment is then verified and its
    notification queued in the same commit. *)
Theorem process_callback_verifies_only_paid api_key order token guard w :
  sound w -> identity_map w = ∅ -> working w = committed w ->
  wp (process_callback api_key order token guard) (fun r w' =>
    forall i row row', payments (committed w) !! i = Some row -> gateway_verified_at row = None ->
      payments (committed w') !! i = Some row' -> is_some (gateway_verified_at row') = true ->
      callback_row w order token row /\
      calls w' = verify_request api_key order :: calls w /\
      r = Ret (mkCallbackResult BOT_PENDING (bot_order_id row)) /\
      status row' = BOT_NOTIFY_PENDING /\ next_retry_at row' = gateway_verified_at row' /\
      exists reply ref, replied api_key order reply /\ confirms reply row ref /\
        reference_id row' = Some ref /\
        forall j q, payments (committed w) !! j = Some q -> reference_id q = Some ref -> j = i) w.
Proof.
  intros Hs Hm Hfresh. pose proof (ok_keyed _ (so_working w Hs)) as Hid.
  assert (Hinert : forall r w', inert w w' -> forall i row row',
    payments (committed w) !! i = Some row -> gateway_verified_at row = None ->
    payments (committed w') !! i = Some row' -> is_some (gateway_verified_at row') = true ->
    (r : Prop)).
  { intros r w' (_ & E & _) i row row' H1 H2 H3 H4. rewrite E, Hfresh in H3. simplify_eq.
    by rewrite H2 in H4. }
  apply (wp_process_callback _ _ _ _ _ _ Hs Hm).
  - intros w' Hi _ i row row' H1 H2 H3 H4. by eapply Hinert.
  - intros q w' Hi _ _ _ i row row' H1 H2 H3 H4. by eapply Hinert.
  - intros q w' Hi _ _ i row row' H1 H2 H3 H4. by eapply Hinert.
  - intros q q' reply r w' Hcb [S Hset Hrep Hout P Hc] i row row' H1 H2 H3 H4.
    rewrite <- Hfresh in H1. rewrite P in H3.
    destruct (decide (id q = i)) as [<-|Hne].
    2:{ rewrite lookup_insert_ne in H3 by done. simplify_eq. by rewrite H2 in H4. }
    rewrite lookup_insert_eq in H3. injection H3 as <-.
    assert (q = row) as -> by (destruct Hcb as (Hq & _); congruence).
    inversion Hout as [b E1|result reason Hg E1|result ref now Hg Hacc E1|result now Hg Hno E1];
      subst q'; try (cbn in H4; by rewrite H2 in H4).
    split_and!; [done..| |]; [done|]. exists reply, ref. split_and!; [done| |done|].
    + by eapply acceptable_confirms.
    + rewrite <- Hfresh. apply Hacc.
  - intros q cls w' _ _ _ _ E _ i row row' H1 H2 H3 H4. rewrite E in H3. simplify_eq.
    by rewrite H2 in H4.
Qed.

(** Unless some payment matches order id and token and is still open
    (unverified and not under review), a callback sends no request and changes
    no payment; it is answered from the stored state, or refused with
    [payment_not_found] or [invalid_callback_token]. In particular a repeated
    callback of a verified payment never asks the gateway again. *)
Theorem process_callback_inert api_key order token guard w :
  sound w -> identity_map w = ∅ -> working w = committed w ->
  (forall row, callback_row w order token row -> ~ settleable row) ->
  wp (process_callback api_key order token guard) (fun r w' =>
    calls w' = calls w /\ payments (committed w') = payments (committed w) /\
    ((exists row, callback_row w order token row /\ r = Ret (duplicate_result row)) \/
     r = Raise (Bridge (bridge_error PaymentNotFoundError None)) \/
     r = Raise (Bridge (bridge_error InvalidCallbackTokenError None)))) w.
Proof.
  intros Hs Hm Hfresh Hclosed. apply (wp_process_callback _ _ _ _ _ _ Hs Hm).
  - intros w' (_ & E & Ec) _. split_and!; [done|by rewrite E, Hfresh|auto].
  - intros q w' (_ & E & Ec) _ _ _. split_and!; [done|by rewrite E, Hfresh|auto].
  - intros q w' (_ & E & Ec) Hcb _. split_and!; [done|by rewrite E, Hfresh|eauto].
  - intros q q' reply r w' Hcb [_ Hset _ _ _ _]. by destruct (Hclosed q Hcb).
  - intros q cls w' Hcb Hset _ _ _ _. by destruct (Hclosed q Hcb).
Qed.

End VerificationFacts.

(** ** Witnesses *)

Definition paid_body (amount : Z) : dict :=
  [("success", JBool true);
   ("data", JObj [("referenceId", JStr "R77"); ("amount", JInt amount); ("userId", JInt 42);
                  ("cardNumber", JStr "6037-****-1234")])].

(** The payment of [example_payment] with the hash of its token ["tok"]. *)
Definition open_payment : Payment :=
  example_payment <| callback_token_hash_col := Some (callback_token_hash "tok") |>.

Definition open_world : World := world_of (db_of [open_payment]).
Definition paid_env : Env := with_gateway (GatewayResponse 200 (Some (JObj (paid_body 275000)))).

Lemma open_world_sound : sound open_world.
Proof. apply sound_example. vm_compute. reflexivity. Qed.

Lemma verify_and_settle_refines_witness :
  payments (working open_world) !! id open_payment = Some open_payment /\ settleable open_payment /\
  wp (@verify_and_settle paid_env "k" open_payment true "callback")
    (fun r w' => calls w' = [verify_request "k" 700001]) open_world.
Proof.
  split; [vm_compute; reflexivity|]. split; [split_and!; vm_compute; congruence|].
  eapply wp_mono; [apply (@verify_and_settle_refines paid_env "k" true "callback" open_world
                            open_payment)|].
  - exact open_world_sound.
  - vm_compute. reflexivity.
  - split_and!; vm_compute; congruence.
  - intros r w' [Hc _]. rewrite Hc. reflexivity.
Defined.

(** The paid callback does verify the payment, and the theorem applies. *)
Lemma process_callback_verifies_only_paid_witness :
  (exists row', payments (committed (snd (@process_callback paid_env "k" 700001 "tok" true
                                            open_world))) !! 1 = Some row' /\
     is_some (gateway_verified_at row') = true /\ reference_id row' = Some "R77") /\
  wp (@process_callback paid_env "k" 700001 "tok" true) (fun r w' =>
    forall row', payments (committed w') !! 1 = Some row' ->
      is_some (gateway_verified_at row') = true ->
      calls w' = [verify_request "k" 700001]) open_world.
Proof.
  split.
  - eexists. split; [vm_compute; reflexivity|]. split; vm_compute; reflexivity.
  - eapply wp_mono; [apply (@process_callback_verifies_only_paid paid_env "k" 700001 "tok" true open_world)|].
    + exact open_world_sound.
    + reflexivity.
    + reflexivity.
    + intros r w' H row' H1 H2.
      destruct (H 1 open_payment row') as (_ & Hc & _); [vm_compute; reflexivity|reflexivity|exact H1|exact H2|].
      exact Hc.
Defined.

Lemma process_callback_inert_witness :
  (forall row, callback_row open_world 700001 "wrong" row -> ~ settleable row) /\
  wp (@process_callback paid_env "k" 700001 "wrong" true) (fun r w' => calls w' = []) open_world.
Proof.
  assert (Hclosed : forall row, callback_row open_world 700001 "wrong" row -> ~ settleable row).
  { intros row (Hrow & _ & Ht).
    change (payments (working open_world)) with (<[1 := open_payment]> ∅ : gmap Z Payment) in Hrow.
    rewrite lookup_insert in Hrow. case_decide; [|by rewrite lookup_empty in Hrow].
    injection Hrow as <-. vm_compute in Ht. discriminate. }
  split; [exact Hclosed|].
  eapply wp_mono; [apply (@process_callback_inert paid_env "k" 700001 "wrong" true open_world)|].
  - exact open_world_sound.
  - reflexivity.
  - reflexivity.
  - exact Hclosed.
  - intros r w' [Hc _]. exact Hc.
Defined.
