(* ===== verification/Reconciliation.v ===== *)
(** Server-side reconciliation of payments whose callback never came
    ([app/services/reconciliation.py]): age tiers, fair claims, settlement
    through the shared path, and bookkeeping of the outcome.

    The pass runs in one session whose identity map holds objects weakly: the
    loop variable keeps the object of the payment it works on, and drops it
    when the next one is claimed. *)

From S2P Require Import Prelude PyText Exceptions Config Models Session AuditTrail Ledger.
From S2P Require Import Urls CentralPay Security PayerIdentity Payments Bot Notification Verification.

Definition ERROR_GATEWAY_NOT_PAID : string := "gateway_not_paid".
Definition ERROR_INTERNAL : string := "internal_error".

(** [reconciliation_backoff_seconds], the retired exponential schedule. *)
Definition reconciliation_backoff_seconds (settings : Settings) (attempt : Z) : Z :=
  let exponent := Z.max (attempt - 1) 0 in
  if 30 <? exponent then reconciliation_max_backoff_seconds settings
  else Z.min (reconciliation_initial_backoff_seconds settings * Z.shiftl 1 exponent)
             (reconciliation_max_backoff_seconds settings).

(** [link_age_anchor]. *)
Definition link_age_anchor (p : Payment) : Z :=
  match callback_token_issued_at p with Some t => t | None => created_at p end.

Definition reconciliation_retry_delay_seconds (settings : Settings) (p : Payment) (now : Z) : Z :=
  let age := Z.max (now - link_age_anchor p) 0 in
  if age <? seconds (reconciliation_fast_window_seconds settings)
  then reconciliation_fast_interval_seconds settings
  else reconciliation_slow_interval_seconds settings.

(** ** Selection *)

Section Conditions.
Variables (settings : Settings) (now : Z).

Definition aged_out_age_condition (p : Payment) : bool :=
  link_age_anchor p <=? now - seconds (reconciliation_max_age_seconds settings).

(** [tier_age_conditions]: bounds in microseconds, [None] for no bound. *)
Definition tier_age_conditions (age_floor age_ceiling : option Z) (p : Payment) : bool :=
  bool_decide (status p = LINK_CREATED) && is_none (gateway_verified_at p) &&
  match age_floor with Some f => link_age_anchor p <=? now - f | None => true end &&
  match age_ceiling with Some c => now - c <? link_age_anchor p | None => true end.

Definition active_tier_age_conditions : Payment -> bool :=
  tier_age_conditions None (Some (seconds (reconciliation_fast_window_seconds settings))).

Definition expiring_tier_age_conditions : Payment -> bool :=
  tier_age_conditions (Some (seconds (reconciliation_fast_window_seconds settings)))
                      (Some (seconds (reconciliation_max_age_seconds settings))).

Definition aged_out_conditions (p : Payment) : bool :=
  bool_decide (status p = LINK_CREATED) && is_none (gateway_verified_at p) &&
  aged_out_age_condition p.

Definition tier_due_conditions (age_floor age_ceiling : Z) (p : Payment) : bool :=
  tier_age_conditions (Some age_floor) (Some age_ceiling) p &&
  match reconciliation_next_at p with Some t => t <=? now | None => true end &&
  (reconciliation_attempts p <? reconciliation_max_attempts settings).

Definition active_tier_due_conditions : Payment -> bool :=
  tier_due_conditions (seconds (reconciliation_min_age_seconds settings))
                      (seconds (reconciliation_fast_window_seconds settings)).

Definition expiring_tier_due_conditions : Payment -> bool :=
  tier_due_conditions (seconds (reconciliation_fast_window_seconds settings))
                      (seconds (reconciliation_max_age_seconds settings)).

Definition reconciliation_exhausted_ever_conditions (p : Payment) : bool :=
  bool_decide (status p = LINK_CREATED) && is_none (gateway_verified_at p) &&
  is_none (reconciliation_next_at p) &&
  (reconciliation_max_attempts settings <=? reconciliation_attempts p).

Definition reconciliation_exhausted_conditions (p : Payment) : bool :=
  bool_decide (status p = LINK_CREATED) && is_none (gateway_verified_at p) &&
  negb (aged_out_age_condition p) && is_none (reconciliation_next_at p) &&
  (reconciliation_max_attempts settings <=? reconciliation_attempts p).

Definition last_attempt_since (window_seconds : Z) (p : Payment) : bool :=
  match reconciliation_last_at p with
  | None => true
  | Some t => now - seconds window_seconds <=? t
  end.

Definition reconciliation_recently_exhausted_conditions (window_seconds : Z) (p : Payment) : bool :=
  reconciliation_exhausted_ever_conditions p && last_attempt_since window_seconds p.

Definition reconciliation_actionable_exhausted_conditions (window_seconds : Z) (p : Payment) : bool :=
  reconciliation_exhausted_ever_conditions p &&
  (negb (aged_out_age_condition p) || last_attempt_since window_seconds p).
End Conditions.

(** [ORDER BY coalesce(reconciliation_next_at, created_at)]. *)
Definition due_since (p : Payment) : Z :=
  match reconciliation_next_at p with Some t => t | None => created_at p end.

Definition due_order (p q : Payment) : bool := due_since p <=? due_since q.

(** The outcomes of an attempt and what [_finalize] makes of them. *)
Inductive Outcome := OUT_VERIFIED | OUT_UNDER_REVIEW | OUT_NOT_PAID | OUT_TRANSPORT.

#[export] Instance Outcome_eq_dec : EqDecision Outcome.
Proof. solve_decision. Defined.

Inductive Disposition := DISP_VERIFIED | DISP_RETRY | DISP_REVIEW | DISP_EXHAUSTED | DISP_SUPERSEDED.

Record Stats := mkStats {
  processed : Z;
  n_verified : Z;
  n_retry_scheduled : Z;
  n_under_review : Z;
  n_exhausted : Z;
  n_superseded : Z
}.

Definition no_stats : Stats := mkStats 0 0 0 0 0 0.

Definition count (d : Disposition) (s : Stats) : Stats :=
  let '(mkStats a v r u e x) := s in
  match d with
  | DISP_VERIFIED => mkStats (a + 1) (v + 1) r u e x
  | DISP_RETRY => mkStats (a + 1) v (r + 1) u e x
  | DISP_REVIEW => mkStats (a + 1) v r (u + 1) e x
  | DISP_EXHAUSTED => mkStats (a + 1) v r u (e + 1) x
  | DISP_SUPERSEDED => mkStats (a + 1) v r u e (x + 1)
  end.

Section Pass.
Context `{Env}.

(** [_claim_in_age_range]: the claim is not committed here. *)
Definition claim_in_age_range (settings : Settings) (worker : string) (now age_floor age_ceiling : Z)
  : M (option Payment) :=
  begin_tx ;;;
  let* d := get_db in
  let* locked := tick locked_by_others in
  match pick_min due_order
          (List.filter (fun p => tier_due_conditions settings now age_floor age_ceiling p &&
                                 negb (locked (id p))) (rows (payments d))) with
  | None => rollback ;;; ret None
  | Some row =>
      let* p := attach false row in
      let attempts := reconciliation_attempts p + 1 in
      let next := now + seconds (reconciliation_retry_delay_seconds settings p now) in
      let* p := upd p (fun r => r <| reconciliation_attempts := attempts |>
                                  <| reconciliation_last_at := Some now |>
                                  <| reconciliation_claimed_at := Some now |>
                                  <| reconciliation_claimed_by := Some worker |>
                                  <| reconciliation_next_at := Some next |>) in
      ret (Some p)
  end.

Definition claim_active_tier (settings : Settings) (worker : string) (now : Z) : M (option Payment) :=
  claim_in_age_range settings worker now
    (seconds (reconciliation_min_age_seconds settings))
    (seconds (reconciliation_fast_window_seconds settings)).

Definition claim_expiring_tier (settings : Settings) (worker : string) (now : Z) : M (option Payment) :=
  claim_in_age_range settings worker now
    (seconds (reconciliation_fast_window_seconds settings))
    (seconds (reconciliation_max_age_seconds settings)).

(** [a or b]. *)
Definition or_else (a b : M (option Payment)) : M (option Payment) :=
  let* r := a in match r with Some p => ret (Some p) | None => b end.

(** [_claim_next_due] of this module. *)
Definition claim_next_due_payment (settings : Settings) (worker : string) (now slot_index : Z)
  : M (option Payment) :=
  let prefer_expiring :=
    (1 <=? slot_index) && (slot_index <=? reconciliation_slow_tier_reserved_slots settings) in
  let active := claim_active_tier settings worker now in
  let expiring := claim_expiring_tier settings worker now in
  if prefer_expiring then or_else expiring active else or_else active expiring.

(** The last part of [_finalize], for a payment to be retried. *)
Definition schedule_retry (settings : Settings) (p : Payment) (worker : string) (attempt : Z)
    (outcome : Outcome) (error : option string) (now : Z) : M Disposition :=
  let data := [("gateway_order_id", JInt (gateway_order_id p)); ("attempt", JInt attempt);
               ("worker_id", JStr worker)] in
  let* p := upd p (fun r => r <| reconciliation_last_error_code := error |>) in
  record_event (Some (id p))
    (if bool_decide (outcome = OUT_NOT_PAID) then "reconciliation_gateway_not_paid"
     else "reconciliation_transport_failed") "warning"
    (data ++ [("error_code", json_of_option JStr error)]) ;;;
  if reconciliation_max_attempts settings <=? attempt then
    let* p := upd p (fun r => r <| reconciliation_next_at := None |>) in
    record_event (Some (id p)) "reconciliation_exhausted" "error"
      (data ++ [("error_code", json_of_option JStr error)]) ;;;
    commit ;;;
    ret DISP_EXHAUSTED
  else
    let delay := reconciliation_retry_delay_seconds settings p now in
    let next := now + seconds delay in
    let* p := upd p (fun r => r <| reconciliation_next_at := Some next |>) in
    record_event (Some (id p)) "reconciliation_retry_scheduled" "info"
      (data ++ [("delay_seconds", JInt delay); ("next_at", JInt next)]) ;;;
    commit ;;;
    ret DISP_RETRY.

(** [_finalize]. *)
Definition finalize (settings : Settings) (pid : Z) (worker : string) (attempt : Z)
    (outcome : Outcome) (error : option string) (now : Z) : M Disposition :=
  begin_tx ;;;
  let* found := select_payment_by_id false pid in
  match found with
  | None => raise (Unexpected "NoResultFound")
  | Some p =>
      let repair := reconciliation_attempts p <? attempt in
      let* p := upd p (fun r =>
        (if repair then r <| reconciliation_attempts := attempt |>
                          <| reconciliation_last_at := Some now |> else r)
          <| reconciliation_claimed_at := None |> <| reconciliation_claimed_by := None |>) in
      match outcome with
      | OUT_VERIFIED =>
          let* p := upd p (fun r => r <| reconciliation_next_at := None |>
                                      <| reconciliation_last_error_code := None |>) in
          record_event (Some (id p)) "reconciliation_verified" "info"
            [("gateway_order_id", JInt (gateway_order_id p)); ("attempt", JInt attempt);
             ("worker_id", JStr worker)] ;;;
          commit ;;;
          ret DISP_VERIFIED
      | OUT_UNDER_REVIEW =>
          let* p := upd p (fun r => r <| reconciliation_next_at := None |>) in
          commit ;;;
          ret DISP_REVIEW
      | _ =>
          if negb (bool_decide (status p = LINK_CREATED)) then commit ;;; ret DISP_SUPERSEDED
          else schedule_retry settings p worker attempt outcome error now
      end
  end.

(** One claimed payment: settlement, whatever comes of it, and bookkeeping. *)
Definition reconcile_claimed (settings : Settings) (worker : string) (p : Payment) : M Disposition :=
  let attempt := reconciliation_attempts p in
  let* settled := try_catch
    (let* o := verify_and_settle (centralpay_verify_api_key settings) p
                 (first_payment_guard_enabled settings) "reconciliation" in
     ret (match o with
          | VERIFIED => (OUT_VERIFIED, None)
          | SETTLED_UNDER_REVIEW => (OUT_UNDER_REVIEW, None)
          | GATEWAY_NOT_PAID => (OUT_NOT_PAID, Some ERROR_GATEWAY_NOT_PAID)
          end))
    (fun e =>
       let crashed := rollback ;;; ret (OUT_TRANSPORT, Some ERROR_INTERNAL) in
       match e with
       | Bridge b =>
           if is_CentralPayError (error_class b)
           then ret (OUT_TRANSPORT, Some (error_code (error_class b))) else crashed
       | _ => crashed
       end) in
  let '(outcome, error) := settled in
  let* now := utcnow in
  finalize settings (id p) worker attempt outcome error now.

(** Rebinding the loop variable from the payment [prev] to [i]. *)
Definition rebind (prev : option Z) (i : Z) : M unit :=
  match prev with
  | Some j => if j =? i then ret tt else forget j
  | None => ret tt
  end.

(** The loop of [run_reconciliation_pass]; [slots] is what is left of the
    limit. *)
Fixpoint reconciliation_loop (settings : Settings) (worker : string) (mandatory started budget : Z)
    (slots : nat) (prev : option Z) (stats : Stats) : M Stats :=
  match slots with
  | O => ret stats
  | S slots' =>
      let* go := (if processed stats <? mandatory then ret true
                  else let* t := tick clock in ret (t - started <? budget)) in
      if negb (go : bool) then ret stats
      else
        let* done := with_request_id "rec-" (
          let* now := utcnow in
          let* claimed := claim_next_due_payment settings worker now (processed stats) in
          match claimed with
          | None => ret None
          | Some p =>
              rebind prev (id p) ;;;
              let* disposition := reconcile_claimed settings worker p in
              ret (Some (id p, disposition))
          end) in
        match done with
        | None => ret stats
        | Some (i, disposition) =>
            reconciliation_loop settings worker mandatory started budget slots' (Some i)
              (count disposition stats)
        end
  end.

Definition run_reconciliation_pass (settings : Settings) (worker : string)
    (batch_size : option Z) (time_budget : option Z) : M Stats :=
  if negb (reconciliation_enabled settings) then ret no_stats
  else
    let limit := match batch_size with Some b => b | None => reconciliation_batch_size settings end in
    let budget := match time_budget with Some t => t | None => reconciliation_interval settings end in
    let mandatory := Z.min (1 + reconciliation_slow_tier_reserved_slots settings) limit in
    let* started := tick clock in
    reconciliation_loop settings worker mandatory started budget (Z.to_nat limit) None no_stats.
End Pass.

(** ** Facts *)

(** A row but for the columns reconciliation keeps its books in. *)
Definition business (p : Payment) : Payment :=
  p <| reconciliation_attempts := 0 |> <| reconciliation_next_at := None |>
    <| reconciliation_last_at := None |> <| reconciliation_last_error_code := None |>
    <| reconciliation_claimed_at := None |> <| reconciliation_claimed_by := None |>.

(** Only the books changed. *)
Definition bookkeeping (p p' : Payment) : Prop := business p' = business p.

#[export] Instance bookkeeping_preorder : PreOrder bookkeeping.
Proof. split; [done|]. unfold bookkeeping. intros p q r H1 H2. congruence. Qed.

Lemma bookkeeping_legal p p' : bookkeeping p p' -> row_legal p p'.
Proof.
  unfold bookkeeping, business. destruct p, p'. cbn. intros H. injection H as.
  subst. by row_legal_tac.
Qed.

Lemma bookkeeping_unique p p' : bookkeeping p p' -> unique_columns p' = unique_columns p.
Proof.
  unfold bookkeeping, business. destruct p, p'. cbn. intros H. injection H as.
  by subst.
Qed.

Lemma bookkeeping_fields p p' : bookkeeping p p' ->
  id p' = id p /\ status p' = status p /\ gateway_verified_at p' = gateway_verified_at p /\
  gateway_order_id p' = gateway_order_id p /\ redirect_url p' = redirect_url p.
Proof.
  unfold bookkeeping, business. destruct p, p'. cbn. intros H. injection H as.
  by subst.
Qed.

(** An assignment to the books only, whatever values it assigns. *)
Definition books_only (f : Payment -> Payment) : Prop := forall p, bookkeeping p (f p).

Lemma same_key_books f p row : books_only f -> same_key p row -> same_key (f p) (f row).
Proof.
  intros Hf. generalize (Hf p), (Hf row). generalize (f p), (f row). clear f Hf.
  intros p' row'. unfold bookkeeping, business. destruct p, p', row, row'. cbn.
  intros H1 H2 [E1 E2]. injection H1 as. injection H2 as. subst. done.
Qed.

Lemma live_books f p : books_only f -> live_link (f p) = live_link p.
Proof.
  intros Hf. destruct (bookkeeping_fields _ _ (Hf p)) as (_ & _ & _ & _ & E).
  unfold live_link. by rewrite E.
Qed.

Lemma holding_books w0 w1 cs es p row w f w' : holding w0 w1 cs es p row w ->
  updated p f w w' -> books_only f -> holding w0 w1 cs es (f p) (f row) w'.
Proof.
  intros HO U Hf. apply (holding_updated w0 w1 HO f w' U); [by apply bookkeeping_legal|
    |by apply bookkeeping_unique].
  by apply same_key_books, (ho_key _ _ _ _ _ _ _ HO).
Qed.

(** Every object the session holds is of a payment with a link. *)
Definition live_map (w : World) : Prop :=
  forall i o, identity_map w !! i = Some o -> live_link o = true.

Lemma live_map_empty w : identity_map w = ∅ -> live_map w.
Proof. intros E i o. by rewrite E, lookup_empty. Qed.

Lemma live_map_same w w' : identity_map w' = identity_map w -> live_map w -> live_map w'.
Proof. intros E L i o. rewrite E. apply L. Qed.

Lemma live_map_insert w w' i p : identity_map w' = <[i := p]> (identity_map w) ->
  live_link p = true -> live_map w -> live_map w'.
Proof.
  intros E Hp L j o. rewrite E, lookup_insert. case_decide; [by intros [= <-]|apply L].
Qed.

Lemma live_map_updated p f w w' : updated p f w w' -> live_link (f p) = true ->
  live_map w -> live_map w'.
Proof. intros U Hp. by eapply live_map_insert, Hp; apply (up_map _ _ _ _ U). Qed.

Lemma live_object w b row : live_map w -> live_link row = true -> live_link (object_of w b row) = true.
Proof.
  intros L Hr. unfold object_of. destruct b; [done|].
  destruct (identity_map w !! id row) as [o|] eqn:E; [|done]. cbn. by apply (L _ _ E).
Qed.

(** One statement of a computation that keeps [live_map]: the objects it
    assigns to keep their link. *)
Ltac live_step :=
  first
  [ wp_step
  | lazymatch goal with |- wp (match ?b with _ => _ end) _ _ => destruct b end ].

Ltac live_close :=
  try done;
  repeat lazymatch goal with
  | H : updated _ _ ?w ?w' |- live_map ?w' => apply (live_map_updated _ _ _ _ H); [done|]
  | H : audited _ ?w ?w' |- live_map ?w' => apply (live_map_same w); [by ws|]
  | H : called _ ?w ?w' |- live_map ?w' => apply (live_map_same w); [by ws|]
  | H : did_commit ?w ?w' |- live_map ?w' => apply (live_map_same w); [by ws|]
  | H : began ?w ?w' |- live_map ?w' => apply (live_map_same w); [by ws|]
  | H : did_rollback ?w ?w' |- live_map ?w' => apply live_map_empty; by ws
  end; try done.

Section ReconciliationFacts.
Context {ENV : Env} {RELY : Rely}.

(** ** Settlement keeps the objects live *)

Lemma live_settle_transport_error p e w : live_map w -> live_link p = true ->
  wp (settle_transport_error p e) (fun _ w' => live_map w') w.
Proof. intros L Hp. unfold settle_transport_error. repeat live_step; live_close. Qed.

Lemma live_settle_not_paid p failure source w : live_map w -> live_link p = true ->
  wp (settle_not_paid p failure source) (fun _ w' => live_map w') w.
Proof. intros L Hp. unfold settle_not_paid. repeat live_step; live_close. Qed.

Lemma live_review_mismatch p event data w : live_map w -> live_link p = true ->
  wp (review_mismatch p event data) (fun _ w' => live_map w') w.
Proof. intros L Hp. unfold review_mismatch. repeat live_step; live_close. Qed.

Lemma live_apply_verification p ref card guard w : live_map w -> live_link p = true ->
  wp (apply_verification p ref card guard) (fun _ w' => live_map w') w.
Proof.
  intros L Hp. unfold apply_verification, queue_notification, maybe_record_first_payment.
  repeat live_step; live_close.
Qed.

Lemma live_validate_and_apply p result guard w : live_map w -> live_link p = true ->
  wp (validate_and_apply_verification p result guard) (fun _ w' => live_map w') w.
Proof.
  intros L Hp. unfold validate_and_apply_verification.
  assert (Hr : forall event data, wp (let* p := review_mismatch p event data in ret (under_review p))
                 (fun _ w' => live_map w') w).
  { intros event data. apply wp_bind. eapply wp_mono; [by apply live_review_mismatch|].
    intros [q|e] w' L'; [by apply wp_ret|done]. }
  destruct (result_reference_id result); [|apply Hr].
  destruct (negb _); [apply Hr|]. destruct (negb _); [apply Hr|].
  apply wp_bind, wp_get_db. destruct (colliding _ _ _); [by apply live_apply_verification|apply Hr].
Qed.

Lemma live_verify_and_settle key p guard source w : live_map w -> live_link p = true ->
  wp (verify_and_settle key p guard source) (fun _ w' => live_map w') w.
Proof.
  intros L Hp. unfold verify_and_settle. apply wp_bind, wp_try, wp_verify. intros w1 reply C _.
  assert (L1 : live_map w1) by live_close. clear C L.
  destruct (verify_answer reply) as [result|e].
  - destruct (negb _); apply wp_bind.
    + eapply wp_mono; [by apply live_settle_not_paid|]. intros [q|e] w2 L2; [by apply wp_ret|done].
    + eapply wp_mono; [by apply live_validate_and_apply|]. intros [q|e] w2 L2; [|done].
      destruct (callback_status q); by apply wp_ret.
  - destruct e as [b| | |]; try by apply wp_raise. destruct (is_CentralPayError _); [|by apply wp_raise].
    apply wp_bind. eapply wp_mono; [by apply live_settle_transport_error|].
    intros [q|e] w2 L2; [by apply wp_raise|done].
Qed.

(** ** The steps a pass is made of *)

Inductive Tier := ACTIVE | EXPIRING.

Definition tier_due (settings : Settings) (now : Z) (t : Tier) : Payment -> bool :=
  match t with
  | ACTIVE => active_tier_due_conditions settings now
  | EXPIRING => expiring_tier_due_conditions settings now
  end.

Definition claim_tier (settings : Settings) (worker : string) (now : Z) (t : Tier) : M (option Payment) :=
  match t with
  | ACTIVE => claim_active_tier settings worker now
  | EXPIRING => claim_expiring_tier settings worker now
  end.

Definition due (settings : Settings) (now : Z) (p : Payment) : bool :=
  tier_due settings now ACTIVE p || tier_due settings now EXPIRING p.

(** The order of a reconciliation: the gateway was asked about exactly this
    payment, which was unverified, in [link_created] and due, and its answer
    made of the row what the settlement contract says. *)
Record reconciled (settings : Settings) (d d' : Db) (row claimed settled : Payment) (now : Z)
    (reply : GatewayReply) (result : Res SettlementOutcome) : Prop := {
  rc_found : payments d !! id row = Some row;
  rc_due : due settings now row = true;
  rc_books : bookkeeping row claimed;
  rc_replied : replied (centralpay_verify_api_key settings) (gateway_order_id row) reply;
  rc_settlement : settlement d claimed (verify_answer reply) result settled;
  rc_payments : payments d' = <[id row := settled]> (payments d)
}.

Inductive reconciliation_step (settings : Settings) (d d' : Db) : Prop :=
| step_others n : d' = others n d -> reconciliation_step settings d d'
| step_books row row' : payments d !! id row = Some row -> bookkeeping row row' ->
    payments d' = <[id row := row']> (payments d) -> reconciliation_step settings d d'
| step_settles row claimed settled now reply result :
    reconciled settings d d' row claimed settled now reply result -> reconciliation_step settings d d'.

Definition verify_call (settings : Settings) (c : ExternalCall) : Prop :=
  exists order, c = verify_request (centralpay_verify_api_key settings) order.

(** A part of a pass that sends [n] requests. *)
Record part (settings : Settings) (n : nat) (w w' : World) : Prop := {
  pt_steady : steady w w';
  pt_between : committed w' = working w';
  pt_live : live_map w';
  pt_steps : rtc (reconciliation_step settings) (committed w) (committed w');
  pt_calls : exists cs, calls w' = cs ++ calls w /\ length cs = n /\
               Forall (verify_call settings) cs
}.

Lemma part_trans settings n m w1 w2 w3 :
  part settings n w1 w2 -> part settings m w2 w3 -> part settings (n + m) w1 w3.
Proof.
  intros [S1 _ _ R1 (c1 & E1 & L1 & F1)] [S2 B2 V2 R2 (c2 & E2 & L2 & F2)]. split; try done.
  - by eapply steady_trans.
  - by transitivity (committed w2).
  - exists (c2 ++ c1). rewrite E2, E1, length_app, app_assoc, L1, L2. split_and!; [done|lia|].
    by apply Forall_app.
Qed.

(** A part that is not a step, or is a single one. *)
Lemma part_quiet settings w w' : steady w w' -> committed w' = working w' -> live_map w' ->
  calls w' = calls w -> (committed w' = committed w \/ reconciliation_step settings (committed w) (committed w')) ->
  part settings 0 w w'.
Proof.
  intros S B V C R. split; try done.
  - destruct R as [->|R]; [done|by apply rtc_once].
  - exists []. by split_and!.
Qed.

Lemma part_began settings w w' : began w w' -> sound w -> committed w = working w -> live_map w ->
  part settings 0 w w'.
Proof.
  intros B Hs Hc L. apply part_quiet; [by apply steady_began|by ws|by apply (live_map_same w); [ws|]|by ws|].
  right. destruct (bg_committed _ _ B) as [n E]. by apply (step_others _ _ _ n).
Qed.

Lemma part_rollback settings w w' : did_rollback w w' -> sound w -> part settings 0 w w'.
Proof.
  intros R Hs. apply part_quiet; [by apply steady_rollback|by ws|apply live_map_empty; by ws|by ws|].
  left. by ws.
Qed.

Lemma part_called settings w w' : called [] w w' -> sound w -> committed w = working w -> live_map w ->
  part settings 0 w w'.
Proof.
  intros C Hs Hc L. apply part_quiet; [by eapply steady_called|by ws|by apply (live_map_same w); [ws|]|by ws|].
  left. by ws.
Qed.

Lemma part_refl settings w : sound w -> committed w = working w -> live_map w -> part settings 0 w w.
Proof. intros Hs Hc L. apply part_quiet; auto using steady_refl. Qed.

(** ** Claims *)

(** The session holds the payment [row], locked in [w1], as the object [p];
    only its books were changed since. *)
Definition kept (w1 : World) (es : list string) (row p : Payment) (w : World) : Prop :=
  exists row', bookkeeping row row' /\ holding w1 w1 [] es p row' w /\
    live_link p = true /\ live_map w.

Lemma kept_start w1 row w : sound w1 -> payments (working w1) !! id row = Some row ->
  live_link (object_of w1 false row) = true -> live_map w1 ->
  attached row (object_of w1 false row) w1 w -> kept w1 [] row (object_of w1 false row) w.
Proof.
  intros Hs Hi Hp L A. exists row. split_and!; [done| |done|].
  - exact (holding_start w1 w1 false _ row w (steady_refl _ Hs) Hi A).
  - eapply live_map_insert; [exact (at_map _ _ _ _ A)|exact Hp|exact L].
Qed.

Lemma kept_books w1 es row p w f w' : kept w1 es row p w -> updated p f w w' -> books_only f ->
  kept w1 es row (f p) w'.
Proof.
  intros (row' & B & HO & Hp & L) U Hf. exists (f row'). split_and!.
  - etransitivity; [exact B|apply Hf].
  - by eapply holding_books.
  - by rewrite live_books.
  - eapply live_map_updated; [exact U|by rewrite live_books|exact L].
Qed.

Lemma kept_event w1 es row p w e w' : kept w1 es row p w -> audited e w w' ->
  kept w1 (map event_type e ++ es) row p w'.
Proof.
  intros (row' & B & HO & Hp & L) A. exists row'. split_and!; [done| |done|].
  - by apply (holding_audited w1 w1 HO).
  - apply (live_map_same w); [by ws|done].
Qed.

Lemma kept_commit settings w1 es row p w w' : kept w1 es row p w -> did_commit w w' ->
  committed w1 = working w1 -> payments (working w1) !! id row = Some row -> part settings 0 w1 w'.
Proof.
  intros (row' & B & HO & Hp & L) C Hc Hi. destruct (holding_commit w1 w1 HO w' C) as [S E P Hcalls _].
  apply part_quiet; [done|done|apply (live_map_same w); [by ws|done]|exact Hcalls|].
  right. apply (step_books _ _ _ row row'); [by rewrite Hc|done|]. rewrite P, Hc.
  by destruct (bookkeeping_fields _ _ B) as (-> & _).
Qed.

(** Another session holds the lock of every payment that is due. *)
Definition nothing_due (settings : Settings) (now : Z) (t : Tier) (d : Db) : Prop :=
  forall i q, payments d !! i = Some q -> tier_due settings now t q = true ->
    exists n, locked_by_others n i = true.

(** The row [row] is claimed as the object [p], which is not committed yet: no
    unlocked payment of the tier was due earlier. *)
Record claimed_as (settings : Settings) (now : Z) (t : Tier) (w1 : World) (row p : Payment)
    (w : World) : Prop := {
  cd_row : payments (working w1) !! id row = Some row;
  cd_due : tier_due settings now t row = true;
  cd_first : forall i q, payments (working w1) !! i = Some q -> tier_due settings now t q = true ->
    due_since row <= due_since q \/ exists n, locked_by_others n i = true;
  cd_live : live_link row = true;
  cd_kept : kept w1 [] row p w
}.

Lemma due_order_total p q : due_order p q = true \/ due_order q p = true.
Proof. unfold due_order. destruct (Z.le_ge_cases (due_since p) (due_since q)); [left|right]; by apply Z.leb_le. Qed.

Lemma due_order_trans p q r : due_order p q = true -> due_order q r = true -> due_order p r = true.
Proof. unfold due_order. rewrite !Z.leb_le. lia. Qed.

Lemma tier_due_link_created settings now f c row : tier_due_conditions settings now f c row = true ->
  status row = LINK_CREATED /\ gateway_verified_at row = None.
Proof. unfold tier_due_conditions, tier_age_conditions. intros H. by bool_to_prop. Qed.

Lemma wp_claim_in_age_range settings worker now t floor ceiling w :
  tier_due settings now t = tier_due_conditions settings now floor ceiling ->
  sound w -> committed w = working w -> live_map w ->
  wp (claim_in_age_range settings worker now floor ceiling) (fun r w' =>
    match r with
    | Ret (Some p) => exists w1 row, part settings 0 w w1 /\
        claimed_as settings now t w1 row p w'
    | Ret None => part settings 0 w w' /\ nothing_due settings now t (committed w')
    | Raise _ => False
    end) w.
Proof.
  intros Et Hs Hc L. unfold nothing_due. rewrite Et. unfold claim_in_age_range. do 2 wp_step.
  pose proof (part_began settings _ _ H Hs Hc L) as P1.
  do 4 wp_step. set (w1 := w') in *. set (locked := locked_by_others (ticks w1)).
  assert (P2 : part settings 0 w w'0).
  { eapply (part_trans _ 0 0); [exact P1|]. by apply part_called; [|apply P1..]. }
  assert (Ew : working w'0 = working w1) by (by ws).
  set (l := List.filter _ _).
  assert (Hin : forall i q, payments (working w1) !! i = Some q ->
    tier_due_conditions settings now floor ceiling q = true -> In q l \/ exists n, locked_by_others n i = true).
  { intros i q Hi Hq. destruct (locked i) eqn:El; [right; by eexists|left].
    apply filter_In. split; [apply in_rows; eauto|]. rewrite Hq.
    rewrite (ok_keyed _ (so_working _ (proj1 (pt_steady _ _ _ _ P1))) i q Hi). by rewrite El. }
  destruct (pick_min due_order l) as [row|] eqn:E.
  - pose proof (pick_min_least due_order due_order_total due_order_trans _ _ E) as Hleast.
    pose proof (pick_min_In due_order _ _ E) as Hrow. apply filter_In in Hrow as [[i Hi]%in_rows Hd].
    apply andb_true_iff in Hd as [Hd _].
    pose proof (ok_keyed _ (so_working _ (proj1 (pt_steady _ _ _ _ P1))) i row Hi) as <-.
    destruct (tier_due_link_created _ _ _ _ _ Hd) as [Hst _].
    assert (Hlive : live_link row = true).
    { pose proof (ok_rows _ (so_working _ (proj1 (pt_steady _ _ _ _ P1))) _ _ Hi) as Hok.
      apply row_ok_spec in Hok as (_ & _ & [_ Hl] & _). by apply Hl. }
    apply wp_bind, wp_attach. intros w2 A.
    set (p := object_of w'0 false row) in *.
    assert (Hp : live_link p = true) by (apply live_object; [apply P2|done]).
    rewrite <- Ew in Hi.
    pose proof (kept_start w'0 row w2 (proj1 (pt_steady _ _ _ _ P2)) Hi Hp (pt_live _ _ _ _ P2) A) as K.
    fold p in K. apply wp_bind, wp_upd. intros w3 U.
    eapply kept_books in U; [|exact K|by intros []].
    apply wp_ret. exists w'0, row. split; [exact P2|]. split; rewrite ?Et; [done|done| |done|exact U].
    + intros j q Hj Hq. rewrite Ew in Hj. destruct (Hin j q Hj Hq) as [Hq'|]; [left|by right].
      specialize (Hleast q Hq'). unfold due_order in Hleast. by apply Z.leb_le in Hleast.
  - do 3 wp_step. pose proof (part_rollback settings _ _ H1 (proj1 (pt_steady _ _ _ _ P2))) as P3.
    split; [exact (part_trans _ 0 0 _ _ _ P2 P3)|].
    assert (Ec : committed w'1 = committed w1) by (by ws). rewrite Ec.
    intros i q Hi Hq. assert (Hi' : payments (working w1) !! i = Some q) by (by rewrite <- (pt_between _ _ _ _ P1)).
    destruct (Hin i q Hi' Hq) as [Hq'|]; [|done].
    apply pick_min_None in E. by rewrite E in Hq'.
Qed.

(** ** Bookkeeping *)

(** A statement of [_finalize] while it keeps a payment. *)
Ltac kept_step :=
  lazymatch goal with
  | K : kept _ _ _ _ ?w |- wp (bind _ _) _ ?w => apply wp_bind
  | K : kept _ _ _ _ ?w |- wp (upd _ _) _ ?w =>
      let w' := fresh "w" in let U := fresh "U" in
      apply wp_upd; intros w' U; eapply kept_books in U; [|exact K|]; cycle 1;
      [by intros []|clear K; rename U into K; clear dependent w]
  | K : kept _ _ _ _ ?w |- wp (record_event _ _ _ _) _ ?w =>
      let w' := fresh "w" in let A := fresh "A" in
      apply wp_record_event; intros w' A; eapply kept_event in A; [|exact K];
      clear K; rename A into K
  end.

Lemma wp_kept_commit {A} settings w1 es row p w (a : A) (Q : Res A -> World -> Prop) :
  kept w1 es row p w -> committed w1 = working w1 -> payments (working w1) !! id row = Some row ->
  (forall w', part settings 0 w1 w' -> Q (Ret a) w') -> wp (commit ;;; ret a) Q w.
Proof.
  intros K Hc Hi HQ. do 2 wp_step. apply wp_ret, HQ. by eapply kept_commit.
Qed.

Lemma wp_schedule_retry settings w1 es row p worker attempt outcome error now w :
  kept w1 es row p w -> committed w1 = working w1 -> payments (working w1) !! id row = Some row ->
  wp (schedule_retry settings p worker attempt outcome error now) (fun r w' => part settings 0 w1 w' /\
    r = Ret (if reconciliation_max_attempts settings <=? attempt then DISP_EXHAUSTED else DISP_RETRY)) w.
Proof.
  intros K Hc Hi. unfold schedule_retry. cbv zeta. do 4 kept_step. destruct (_ <=? attempt).
  - do 4 kept_step. by eapply wp_kept_commit.
  - do 4 kept_step. by eapply wp_kept_commit.
Qed.

(** What [_finalize] answers for an outcome. *)
Definition disposition_of (settings : Settings) (attempt : Z) (outcome : Outcome) (d : Disposition) : Prop :=
  match outcome with
  | OUT_VERIFIED => d = DISP_VERIFIED
  | OUT_UNDER_REVIEW => d = DISP_REVIEW
  | OUT_NOT_PAID | OUT_TRANSPORT =>
      d = DISP_SUPERSEDED \/
      d = if reconciliation_max_attempts settings <=? attempt then DISP_EXHAUSTED else DISP_RETRY
  end.

Lemma wp_finalize settings pid worker attempt outcome error now row w :
  sound w -> committed w = working w -> live_map w ->
  payments (committed w) !! pid = Some row -> live_link row = true ->
  wp (finalize settings pid worker attempt outcome error now) (fun r w' =>
    part settings 0 w w' /\ exists d, r = Ret d /\ disposition_of settings attempt outcome d) w.
Proof.
  intros Hs Hc L Hrow Hlive. unfold finalize. do 2 wp_step.
  pose proof (part_began settings _ _ H Hs Hc L) as P1. destruct (bg_committed _ _ H) as [n En].
  destruct (le_rows _ _ (others_legal n (committed w) (so_ok _ Hs)) pid row Hrow) as (row1 & Hrow1 & [Hev _]).
  rewrite <- En, (pt_between _ _ _ _ P1) in Hrow1.
  pose proof (ok_keyed _ (so_working _ (proj1 (pt_steady _ _ _ _ P1))) _ _ Hrow1) as <-.
  assert (Hlive1 : live_link row1 = true).
  { pose proof (re_link _ _ Hev Hlive) as E. unfold live_link, link_fact in *.
    injection E as -> _. done. }
  apply wp_bind, wp_select_by_id. rewrite Hrow1. intros w2 A.
  set (p := object_of w' false row1) in *.
  assert (Hp : live_link p = true) by (by apply live_object, Hlive1; apply P1).
  pose proof (kept_start w' row1 w2 (proj1 (pt_steady _ _ _ _ P1)) Hrow1 Hp (pt_live _ _ _ _ P1) A) as K.
  fold p in K. clear A. apply wp_bind, wp_upd. intros w3 U.
  eapply kept_books in U; [|exact K|by intros []; destruct (_ <? attempt)]. clear K. rename U into K.
  match type of K with kept _ _ _ ?q _ => set (p3 := q) in * end. clearbody p3. clear w2 p Hp.
  assert (Hdone : forall d w4, part settings 0 w' w4 -> disposition_of settings attempt outcome d ->
    part settings 0 w w4 /\ exists d', Ret d = Ret d' /\ disposition_of settings attempt outcome d').
  { intros d w4 P4 Hd. split; [exact (part_trans _ 0 0 _ _ _ P1 P4)|eauto]. }
  assert (Hretry : wp (if negb (bool_decide (status p3 = LINK_CREATED)) then commit ;;; ret DISP_SUPERSEDED
      else schedule_retry settings p3 worker attempt outcome error now) (fun r w4 =>
      part settings 0 w' w4 /\ exists d, r = Ret d /\ (d = DISP_SUPERSEDED \/
        d = if reconciliation_max_attempts settings <=? attempt then DISP_EXHAUSTED else DISP_RETRY)) w3).
  { destruct (negb _).
    - eapply wp_kept_commit; [exact K|apply P1|done|]. intros w4 P4. split; [exact P4|eauto].
    - eapply wp_mono; [eapply wp_schedule_retry; [exact K|apply P1|done]|].
      intros r w4 [P4 ->]. split; [exact P4|eauto]. }
  destruct outcome.
  - do 4 kept_step. eapply wp_kept_commit; [exact K|apply P1|done|]. intros w4 P4. by apply Hdone.
  - do 2 kept_step. eapply wp_kept_commit; [exact K|apply P1|done|]. intros w4 P4. by apply Hdone.
  - eapply wp_mono; [exact Hretry|]. intros r w4 (P4 & d & -> & Hd). by apply Hdone.
  - eapply wp_mono; [exact Hretry|]. intros r w4 (P4 & d & -> & Hd). by apply Hdone.
Qed.

(** ** One payment *)

Lemma live_row_legal d d' i row : db_legal d d' -> payments d !! i = Some row -> live_link row = true ->
  exists row', payments d' !! i = Some row' /\ live_link row' = true.
Proof.
  intros L Hi Hl. destruct (le_rows _ _ L i row Hi) as (row' & Hi' & [Hev _]). exists row'.
  split; [done|]. pose proof (re_link _ _ Hev Hl) as E. unfold live_link, link_fact in *.
  by injection E as -> _.
Qed.

(** The outcome of an attempt and the disposition its bookkeeping may reach. *)
Definition claimed_outcome (settings : Settings) (attempt : Z) (r : Res Disposition) : Prop :=
  exists outcome d, r = Ret d /\ disposition_of settings attempt outcome d.

(** From the end of the attempt to the end of its bookkeeping. *)
Lemma wp_finish settings worker i attempt outcome error row w1 w2 :
  part settings 1 w1 w2 -> committed w1 = working w1 ->
  payments (working w1) !! i = Some row -> live_link row = true ->
  wp (let* now := utcnow in finalize settings i worker attempt outcome error now) (fun r w' =>
    part settings 1 w1 w' /\ claimed_outcome settings attempt r) w2.
Proof.
  intros P Hc Hi Hl. do 2 wp_step. rewrite <- Hc in Hi.
  assert (P2 : part settings 1 w1 w').
  { eapply (part_trans _ 1 0); [exact P|]. by apply part_called; [|apply P..]. }
  destruct (live_row_legal _ _ _ _ (proj2 (pt_steady _ _ _ _ P2)) Hi Hl) as (row2 & Hi2 & Hl2).
  eapply wp_mono; [by eapply wp_finalize; try apply P2|].
  intros r w3 (P3 & d & -> & Hd). split; [exact (part_trans _ 1 0 _ _ _ P2 P3)|].
  by exists outcome, d.
Qed.

(** The end of [verify_and_settle] for a kept payment. *)
Definition settle_end settings w1 row row' (r : Res SettlementOutcome) (w2 : World) : Prop :=
  let key := centralpay_verify_api_key settings in
  live_map w2 /\ exists p,
  ((exists cls, r = Raise (Unexpected cls) /\
      holding w1 w1 [verify_request key (gateway_order_id row)] [] p row' w2) \/
   (exists reply row2 es, replied key (gateway_order_id row) reply /\
      settlement (working w1) row' (verify_answer reply) r row2 /\
      settled w1 w1 [verify_request key (gateway_order_id row)] es row2 w2)).

Lemma wp_settle_kept settings now w1 row row' p w source :
  bookkeeping row row' -> holding w1 w1 [] [] p row' w -> live_link p = true -> live_map w ->
  due settings now row = true ->
  wp (verify_and_settle (centralpay_verify_api_key settings) p (first_payment_guard_enabled settings) source)
    (settle_end settings w1 row row') w.
Proof.
  intros B HO Hp L Hd. pose proof (bookkeeping_fields _ _ B) as (Eid & Est & Ev & Eg & _).
  pose proof (proj2 (ho_key _ _ _ _ _ _ _ HO) Hp) as Elink.
  unfold link_fact in Elink. injection Elink as _ Eorder Euser _ _.
  assert (Hset : settleable row').
  { unfold due in Hd. apply orb_true_iff in Hd as [Hd|Hd]; apply tier_due_link_created in Hd as [Hs Hv];
      unfold settleable; by rewrite Est, Ev, Hs. }
  rewrite Eg in Eorder. eapply wp_mono.
  { apply wp_and; [by apply (live_verify_and_settle _ _ _ source)|].
    apply (wp_verify_and_settle _ (first_payment_guard_enabled settings) source
      (fun r w2 => live_map w2 -> settle_end settings w1 row row' r w2) HO Hset Euser).
    - intros cls w2 _ HO2 L2. split; [done|]. exists p. left. exists cls.
      split; [done|]. by rewrite <- Eorder.
    - intros r row2 es w2 Hst _ Hse L2. split; [done|]. exists p. right.
      eexists _, row2, es. split_and!; [|exact Hst|by rewrite <- Eorder].
      rewrite Eorder. by eexists. }
  intros r w2 [L2 H2]. by apply H2.
Qed.

Lemma settled_part settings now w1 row row' reply r row2 es w2 :
  committed w1 = working w1 -> payments (working w1) !! id row = Some row ->
  due settings now row = true -> bookkeeping row row' -> live_map w2 ->
  replied (centralpay_verify_api_key settings) (gateway_order_id row) reply ->
  settlement (working w1) row' (verify_answer reply) r row2 ->
  settled w1 w1 [verify_request (centralpay_verify_api_key settings) (gateway_order_id row)] es row2 w2 ->
  part settings 1 w1 w2.
Proof.
  intros Hc Hi Hd B L Hrep Hst [S E P Hcalls _]. split; [done|done|done| |].
  - apply rtc_once, (step_settles _ _ _ row row' row2 now reply r). split; try done.
    + by rewrite Hc.
    + by rewrite Hc.
    + rewrite P, Hc. f_equal. rewrite (settlement_id _ _ _ _ _ Hst).
      by destruct (bookkeeping_fields _ _ B) as (-> & _).
  - eexists. split_and!; [exact Hcalls|done|]. repeat constructor. by eexists.
Qed.

Lemma crashed_part settings w1 row' p cs es w2 w3 :
  committed w1 = working w1 -> holding w1 w1 cs es p row' w2 -> length cs = 1%nat ->
  Forall (verify_call settings) cs -> did_rollback w2 w3 -> part settings 1 w1 w3.
Proof.
  intros Hc HO Hn Hcs R. destruct (holding_rollback w1 w1 HO w3 R) as (S & E & E2 & C).
  split; [done|congruence|apply live_map_empty; by ws| |by exists cs].
  by rewrite E.
Qed.

Lemma settlement_refused d row reply r row' e : settlement d row (verify_answer reply) r row' ->
  r = Raise e -> exists b, e = Bridge b /\ is_CentralPayError (error_class b) = true.
Proof.
  intros H ->. inversion H as [b E| | |]; subst. symmetry in E.
  apply verify_answer_error in E as [(cls & ? & _)|(b' & [= <-] & Hb)]; [done|eauto].
Qed.

Lemma wp_reconcile_claimed settings worker now w1 row p w :
  kept w1 [] row p w -> committed w1 = working w1 ->
  payments (working w1) !! id row = Some row -> due settings now row = true -> live_link row = true ->
  wp (reconcile_claimed settings worker p) (fun r w' => part settings 1 w1 w' /\
    claimed_outcome settings (reconciliation_attempts p) r) w.
Proof.
  intros (row' & B & HO & Hp & L) Hc Hi Hd Hlive.
  assert (Ep : id p = id row).
  { rewrite (same_key_id _ _ (ho_key _ _ _ _ _ _ _ HO)). by destruct (bookkeeping_fields _ _ B). }
  unfold reconcile_claimed. rewrite Ep. apply wp_bind, wp_try, wp_bind.
  eapply wp_mono; [by eapply wp_settle_kept|].
  intros r w2 [L2 (p2 & [(cls & -> & HO2)|(reply & row2 & es & Hrep & Hst & Hse)])].
  - do 3 wp_step. eapply wp_finish; try done.
    eapply crashed_part; try done. repeat constructor. by eexists.
  - assert (P : part settings 1 w1 w2) by (by eapply settled_part).
    destruct r as [o|e].
    + apply wp_ret. by destruct o; eapply wp_finish.
    + destruct (settlement_refused _ _ _ _ _ _ Hst eq_refl) as (b & -> & Hb). rewrite Hb.
      apply wp_ret. by eapply wp_finish.
Qed.

(** ** Fairness of a claim *)

Lemma wp_claim_tier settings worker now t w :
  sound w -> committed w = working w -> live_map w ->
  wp (claim_tier settings worker now t) (fun r w' =>
    match r with
    | Ret (Some p) => exists w1 row, part settings 0 w w1 /\ claimed_as settings now t w1 row p w'
    | Ret None => part settings 0 w w' /\ nothing_due settings now t (committed w')
    | Raise _ => False
    end) w.
Proof. intros Hs Hc L. destruct t; by apply wp_claim_in_age_range. Qed.

(** The tier a slot prefers. *)
Definition preferred (settings : Settings) (slot : Z) : Tier :=
  if (1 <=? slot) && (slot <=? reconciliation_slow_tier_reserved_slots settings) then EXPIRING
  else ACTIVE.

Definition other_tier (t : Tier) : Tier := match t with ACTIVE => EXPIRING | EXPIRING => ACTIVE end.

(** What a claim for a slot comes to. *)
Definition fair_claim settings now (t : Tier) (w : World) (r : Res (option Payment)) (w' : World) : Prop :=
  match r with
  | Ret (Some p) => exists w1 row t', part settings 0 w w1 /\ claimed_as settings now t' w1 row p w' /\
      (t' = t \/ t' = other_tier t /\ exists d, nothing_due settings now t d /\
         rtc (reconciliation_step settings) (committed w) d /\
         rtc (reconciliation_step settings) d (committed w1))
  | Ret None => part settings 0 w w' /\ nothing_due settings now (other_tier t) (committed w') /\
      exists d, nothing_due settings now t d /\
        rtc (reconciliation_step settings) (committed w) d /\
        rtc (reconciliation_step settings) d (committed w')
  | Raise _ => False
  end.

Lemma wp_claim_next settings worker now slot w :
  sound w -> committed w = working w -> live_map w ->
  wp (claim_next_due_payment settings worker now slot)
    (fair_claim settings now (preferred settings slot) w) w.
Proof.
  intros Hs Hc L.
  assert (Hboth : forall t, wp (or_else (claim_tier settings worker now t)
      (claim_tier settings worker now (other_tier t))) (fair_claim settings now t w) w).
  { intros t. unfold or_else. apply wp_bind. eapply wp_mono; [by apply wp_claim_tier|].
    intros [[p|]|e] w1; [| |done].
    - intros (w2 & row & P & C). apply wp_ret. exists w2, row, t. split_and!; [done..|by left].
    - intros [P N]. eapply wp_mono; [by apply wp_claim_tier; apply P|].
      intros [[p|]|e] w2; [| |done].
      + intros (w3 & row & P3 & C). exists w3, row, (other_tier t).
        split_and!; [exact (part_trans _ 0 0 _ _ _ P P3)|done|]. right. split; [done|].
        exists (committed w1). split_and!; [done|apply P|apply P3].
      + intros [P3 N3]. split_and!; [exact (part_trans _ 0 0 _ _ _ P P3)|done|].
        exists (committed w1). split_and!; [done|apply P|apply P3]. }
  unfold claim_next_due_payment, preferred. destruct (_ && _); [apply (Hboth EXPIRING)|apply (Hboth ACTIVE)].
Qed.

(** ** The loop *)

Lemma kept_forget w1 es row p w j w' : kept w1 es row p w -> j <> id row ->
  committed w' = committed w -> working w' = working w -> calls w' = calls w ->
  identity_map w' = delete j (identity_map w) -> kept w1 es row p w'.
Proof.
  intros (row' & B & HO & Hp & L) Hne E1 E2 E3 E4. exists row'. split_and!; [done| |done|].
  - destruct HO as [S K P C T Ec]. split; rewrite ?E1, ?E2, ?E3; try done.
    eapply steady_trans; [exact S|]. by eapply steady_forgot; [..|apply S].
  - intros i o. rewrite E4. intros [_ Ho]%lookup_delete_Some. by apply (L i).
Qed.

Lemma wp_rebind prev w1 es row p w : kept w1 es row p w ->
  wp (rebind prev (id row)) (fun r w' => r = Ret tt /\ kept w1 es row p w') w.
Proof.
  intros K. unfold rebind. destruct prev as [j|]; [|by apply wp_ret].
  destruct (j =? id row) eqn:E; bool_to_prop; [by apply wp_ret|].
  apply wp_forget. intros w' E1 E2 E3 E4. split; [done|]. by eapply kept_forget.
Qed.

Lemma part_same settings n w w1 w2 w3 : same_state w w1 -> same_state w2 w3 ->
  part settings n w1 w2 -> part settings n w w3.
Proof.
  intros S1 S2 [S B V R (cs & E & L & F)]. split.
  - eapply steady_same_start; [exact S1|]. by eapply steady_same.
  - by rewrite (ss_committed _ _ S2), (ss_working _ _ S2).
  - by eapply live_map_same; [apply (ss_map _ _ S2)|].
  - by rewrite (ss_committed _ _ S2), <- (ss_committed _ _ S1).
  - exists cs. by rewrite (ss_calls _ _ S2), E, (ss_calls _ _ S1).
Qed.

Definition consistent (s : Stats) : Prop :=
  processed s = n_verified s + n_retry_scheduled s + n_under_review s + n_exhausted s + n_superseded s.

(** The last claim of a pass found nothing in either tier. *)
Definition ran_dry (settings : Settings) (d0 d : Db) : Prop :=
  exists now t d1, nothing_due settings now t d1 /\ nothing_due settings now (other_tier t) d /\
    rtc (reconciliation_step settings) d0 d1 /\ rtc (reconciliation_step settings) d1 d.

(** A claim and what is done with it. *)
Lemma wp_slot settings worker slot prev w : sound w -> committed w = working w -> live_map w ->
  wp (with_request_id "rec-" (
        let* now := utcnow in
        let* claimed := claim_next_due_payment settings worker now slot in
        match claimed with
        | None => ret None
        | Some p =>
            rebind prev (id p) ;;;
            let* disposition := reconcile_claimed settings worker p in
            ret (Some (id p, disposition))
        end)) (fun r w' =>
    match r with
    | Ret None => part settings 0 w w' /\ ran_dry settings (committed w) (committed w')
    | Ret (Some _) => part settings 1 w w'
    | Raise _ => False
    end) w.
Proof.
  intros Hs Hc L. apply (wp_with_request_id w); [by apply steady_refl|]. intros w1 S1 E1.
  do 2 wp_step. rename w' into w2. pose proof (called_refl w) as Hrefl.
  assert (P2 : part settings 0 w w2).
  { apply (part_same _ _ _ w1 w2 w2); [done|done|]. apply part_called; [done|apply S1| |].
    - by rewrite (ss_committed _ _ E1), (ss_working _ _ E1).
    - eapply live_map_same; [apply (ss_map _ _ E1)|done]. }
  apply wp_bind. eapply wp_mono; [apply wp_claim_next; apply P2|].
  intros [[p|]|e] w3; [| |done].
  - intros (w4 & row & t' & P4 & [Hi Hd _ Hl K] & _).
    assert (Ep : id p = id row).
    { destruct K as (row' & B & HO & _). rewrite (same_key_id _ _ (ho_key _ _ _ _ _ _ _ HO)).
      by destruct (bookkeeping_fields _ _ B). }
    rewrite Ep. apply wp_bind. eapply wp_mono; [by apply wp_rebind|]. intros r w5 [-> K5].
    apply wp_bind. eapply wp_mono.
    { apply (wp_reconcile_claimed settings worker t w4 row p w5 K5); [apply P4|exact Hi| |exact Hl].
      unfold due. destruct t'; rewrite Hd; [done|by rewrite orb_true_r]. }
    intros r w6 (P6 & o & disp & -> & _). apply wp_ret. intros w7 E7.
    apply (part_same _ 1 w w w6 w7); [done|done|].
    exact (part_trans _ 0 1 _ _ _ P2 (part_trans _ 0 1 _ _ _ P4 P6)).
  - intros (P3 & N & d & N1 & R1 & R2). apply wp_ret. intros w4 E4. split.
    + apply (part_same _ 0 w w w3 w4); [done|done|]. exact (part_trans _ 0 0 _ _ _ P2 P3).
    + rewrite (ss_committed _ _ E4). exists t, (preferred settings slot), d.
      split_and!; [done|done| |done]. transitivity (committed w2); [apply P2|done].
Qed.

Lemma count_consistent d s : consistent s -> consistent (count d s).
Proof. unfold consistent. destruct s, d; cbn; lia. Qed.

Lemma count_processed d s : processed (count d s) = processed s + 1.
Proof. by destruct s, d. Qed.

Lemma wp_loop settings worker mandatory started budget slots prev s w :
  sound w -> committed w = working w -> live_map w -> consistent s ->
  wp (reconciliation_loop settings worker mandatory started budget slots prev s) (fun r w' =>
    exists n s', r = Ret s' /\ (n <= slots)%nat /\ part settings n w w' /\ consistent s' /\
      processed s' = processed s + Z.of_nat n /\
      (processed s' < mandatory -> (n < slots)%nat -> ran_dry settings (committed w) (committed w'))) w.
Proof.
  revert prev s w. induction slots as [|slots IH]; intros prev s w Hs Hc L Hcons; cbn [reconciliation_loop].
  { apply wp_ret. exists 0%nat, s. split_and!; [done|lia|by apply part_refl|done|lia|lia]. }
  apply wp_bind.
  assert (Hgo : wp (if processed s <? mandatory then ret true
                    else let* t := tick clock in ret (t - started <? budget)) (fun r w1 =>
      part settings 0 w w1 /\ exists go : bool, r = Ret go /\ (processed s < mandatory -> go = true)) w).
  { destruct (processed s <? mandatory) eqn:E; bool_to_prop.
    - apply wp_ret. split; [by apply part_refl|eauto].
    - do 2 wp_step. apply wp_ret. split; [by apply part_called|]. eexists. split; [done|lia]. }
  eapply wp_mono; [exact Hgo|]. intros r w1 (P1 & go & -> & Hm).
  destruct go; cbn [negb]; cycle 1.
  { apply wp_ret. exists 0%nat, s. split_and!; [done|lia|done|done|lia|].
    intros Hlt. by specialize (Hm Hlt). }
  apply wp_bind. eapply wp_mono; [apply wp_slot; apply P1|].
  intros [[[i d]|]|e] w2 H2; [| |done].
  - eapply wp_mono; [apply (IH (Some i) (count d s)); [apply H2|apply H2|apply H2|by apply count_consistent]|].
    intros r w3 (n & s' & -> & Hn & P3 & Hc3 & Hp & Hdry). rewrite count_processed in Hp.
    exists (S n), s'. split_and!; [done|lia| |done|lia|].
    + exact (part_trans _ 0 (S n) _ _ _ P1 (part_trans _ 1 n _ _ _ H2 P3)).
    + intros Hlt Hn'. destruct Hdry as (now & t & d1 & N1 & N2 & R1 & R2); [done|lia|].
      exists now, t, d1. split_and!; [done|done| |done].
      transitivity (committed w1); [apply P1|]. transitivity (committed w2); [apply H2|done].
  - destruct H2 as [P2 (now & t & d1 & N1 & N2 & R1 & R2)]. apply wp_ret. exists 0%nat, s.
    split_and!; [done|lia|exact (part_trans _ 0 0 _ _ _ P1 P2)|done|lia|]. intros _ _.
    exists now, t, d1. split_and!; [done|done| |done]. by transitivity (committed w1); [apply P1|].
Qed.

Definition pass_limit (settings : Settings) (batch_size : option Z) : Z :=
  match batch_size with Some b => b | None => reconciliation_batch_size settings end.

(** What a pass comes to. *)
Definition pass_contract settings batch_size (w : World) (r : Res Stats) (w' : World) : Prop :=
  rtc (reconciliation_step settings) (committed w) (committed w') /\
  exists s cs, r = Ret s /\ consistent s /\ steady w w' /\
      calls w' = cs ++ calls w /\ Forall (verify_call settings) cs /\
      processed s = Z.of_nat (length cs) /\
      (0 <= pass_limit settings batch_size -> processed s <= pass_limit settings batch_size) /\
      (reconciliation_enabled settings = true ->
       processed s < Z.min (1 + reconciliation_slow_tier_reserved_slots settings)
                           (pass_limit settings batch_size) ->
       ran_dry settings (committed w) (committed w')).

Lemma wp_pass settings worker batch_size time_budget w :
  sound w -> committed w = working w -> identity_map w = ∅ ->
  wp (run_reconciliation_pass settings worker batch_size time_budget)
    (pass_contract settings batch_size w) w.
Proof.
  intros Hs Hc Hm. pose proof (live_map_empty _ Hm) as L. unfold run_reconciliation_pass.
  destruct (reconciliation_enabled settings) eqn:En; cbn [negb]; cycle 1.
  { apply wp_ret. split; [done|]. exists no_stats, [].
    split_and!; try done; try (by apply steady_refl). by rewrite En. }
  do 2 wp_step. pose proof (part_called settings _ _ H Hs Hc L) as P1.
  fold (pass_limit settings batch_size). set (limit := pass_limit settings batch_size).
  eapply wp_mono; [by apply wp_loop; try apply P1|].
  intros r w2 (n & s & -> & Hn & P2 & Hcons & Hp & Hdry).
  pose proof (part_trans _ 0 n _ _ _ P1 P2) as [S B _ R (cs & E & Ln & F)].
  split; [done|]. exists s, cs. cbn in Hp. fold limit. split_and!; [done|done|done|done|done|lia|lia|].
  intros _ Hlt. destruct Hdry as (now & t & d1 & N1 & N2 & R1 & R2); [done|lia|].
  exists now, t, d1. split_and!; [done|done| |done]. by transitivity (committed w'); [apply P1|].
Qed.

(** C15: A reconciliation pass always ends with its statistics, whatever the
    gateway does: no failure of a single payment ends it. It is a sequence of
    atomic steps on the database, each of which is a step of another session,
    a change of nothing but reconciliation books of one payment, or the
    settlement of one due, unverified [link_created] payment by the gateway's
    answer to the one request about exactly that payment. It sends one
    verification request per processed payment, at most [limit], and stops
    inside its mandatory prefix only when nothing is due in either tier that
    no other session holds. *)
Theorem run_reconciliation_pass_refines settings worker batch_size time_budget w :
  sound w -> committed w = working w -> identity_map w = ∅ ->
  wp (run_reconciliation_pass settings worker batch_size time_budget) (fun r w' =>
    exists s cs, r = Ret s /\ consistent s /\ db_ok (committed w') /\
      db_legal (committed w) (committed w') /\
      rtc (reconciliation_step settings) (committed w) (committed w') /\
      calls w' = cs ++ calls w /\ Forall (verify_call settings) cs /\
      processed s = Z.of_nat (length cs) /\
      (0 <= pass_limit settings batch_size -> processed s <= pass_limit settings batch_size) /\
      (reconciliation_enabled settings = true ->
       processed s < Z.min (1 + reconciliation_slow_tier_reserved_slots settings)
                           (pass_limit settings batch_size) ->
       ran_dry settings (committed w) (committed w'))) w.
Proof.
  intros Hs Hc Hm. eapply wp_mono; [by apply wp_pass|].
  intros r w' (R & s & cs & -> & Hcons & S & E & F & Hp & Hl & Hdry).
  exists s, cs. split_and!; try done; [apply (so_ok _ (proj1 S))|apply S].
Qed.

(** Claims are fair. Slots 1 to [reconciliation_slow_tier_reserved_slots]
    of a pass prefer the expiring tier, every other slot the active tier. A
    claim takes the payment of the preferred tier that has been due longest
    among those no other session holds; it takes one of the other tier, by
    the same rule, only when the preferred tier had nothing to offer; and it
    finds nothing only when neither had. Finding nothing writes nothing. *)
Theorem claim_next_due_fair settings worker now slot w :
  sound w -> committed w = working w -> identity_map w = ∅ ->
  wp (claim_next_due_payment settings worker now slot) (fun r w' =>
    calls w' = calls w /\
    fair_claim settings now (preferred settings slot) w r w') w.
Proof.
  intros Hs Hc Hm. eapply wp_mono; [apply wp_claim_next; try done; by apply live_map_empty|].
  intros r w' H. split; [|exact H]. destruct r as [[p|]|e]; [| |done].
  - destruct H as (w1 & row & t' & [_ _ _ _ (cs & E & Ln & _)] & C & _).
    destruct cs; [|done]. destruct (cd_kept _ _ _ _ _ _ _ C) as (row' & _ & HO & _).
    by rewrite (ho_calls _ _ _ _ _ _ _ HO), E.
  - destruct H as ([_ _ _ _ (cs & E & Ln & _)] & _). by destruct cs.
Qed.

(** ** What a pass settles *)

Lemma bookkeeping_verified p p' : bookkeeping p p' ->
  gateway_verified_at p' = gateway_verified_at p /\ reference_id p' = reference_id p /\
  payable_amount p' = payable_amount p /\ gateway_user_id p' = gateway_user_id p.
Proof.
  unfold bookkeeping, business. destruct p, p'. cbn. intros H. injection H as. by subst.
Qed.

(** The evidence on which the step from [d] to [d'] verified the payment
    [row] as [row']. *)
Definition reconciled_payment settings (row row' : Payment) (d d' : Db) : Prop :=
  payments d !! id row = Some row /\ payments d' !! id row = Some row' /\
  is_some (gateway_verified_at row') = true /\
  exists now reply ref,
    due settings now row = true /\
    replied (centralpay_verify_api_key settings) (gateway_order_id row) reply /\
    confirms reply row ref /\ reference_id row' = Some ref /\
    forall j q, payments d !! j = Some q -> reference_id q = Some ref -> j = id row.

Lemma confirms_books reply row claimed ref : bookkeeping row claimed ->
  confirms reply claimed ref -> confirms reply row ref.
Proof.
  intros B (body & data & E1 & E2 & E3 & E4 & E5 & E6).
  destruct (bookkeeping_verified _ _ B) as (_ & _ & Ep & Eu). rewrite Ep in E4. rewrite Eu in E5.
  by exists body, data.
Qed.

(** The terms of a payment: what it charges, to whom, under which link. *)
Definition same_terms (p p' : Payment) : Prop :=
  financial_snapshot p' = financial_snapshot p /\ link_fact p' = link_fact p.

Lemma bookkeeping_terms p p' : bookkeeping p p' -> same_terms p p'.
Proof. unfold bookkeeping, business. destruct p, p'. cbn. intros H. injection H as. by subst. Qed.

Lemma same_terms_trans p q r : same_terms p q -> same_terms q r -> same_terms p r.
Proof. unfold same_terms. intros [] []. split; congruence. Qed.

(** One step verifies a payment only by a settlement. *)
Lemma step_verifies settings d d' i row : (forall n d, others n d = d) ->
  reconciliation_step settings d d' -> payments d !! i = Some row -> gateway_verified_at row = None ->
  exists row', payments d' !! i = Some row' /\ same_terms row row' /\
    (gateway_verified_at row' = None \/ reconciled_payment settings row row' d d').
Proof.
  intros Hcalm Hstep Hi Hv.
  destruct Hstep as [n ->|r0 r1 Hr B Hp|r0 claimed settled now reply result [Hf Hd B Hrep Hst Hp]].
  - rewrite Hcalm. exists row. split_and!; [done|done|by left].
  - rewrite Hp. destruct (decide (id r0 = i)) as [<-|Hne].
    + rewrite lookup_insert_eq. assert (r0 = row) as -> by congruence. exists r1.
      split_and!; [done|by apply bookkeeping_terms|left].
      by destruct (bookkeeping_verified _ _ B) as (-> & _).
    + rewrite lookup_insert_ne by done. exists row. split_and!; [done|done|by left].
  - destruct (decide (id r0 = i)) as [<-|Hne].
    2:{ rewrite Hp, lookup_insert_ne by done. exists row. split_and!; [done|done|by left]. }
    assert (r0 = row) as -> by congruence. rewrite Hp, lookup_insert_eq. exists settled.
    destruct (bookkeeping_verified _ _ B) as (Ev & _). rewrite Hv in Ev.
    pose proof (bookkeeping_terms _ _ B) as Et.
    assert (Hans : exists a, verify_answer reply = a) by eauto. destruct Hans as [a Ea]. rewrite Ea in Hst.
    inversion Hst as [b E1 E2|result' reason Hg E1 E2|result' ref now' Hg Hacc E1 E2|result' event now' Hg Hno E1 E2];
      subst; (split_and!; [done|exact Et|]); try (left; exact Ev).
    right. unfold reconciled_payment. rewrite Hp, lookup_insert_eq.
    split_and!; [done|done|done|]. exists now, reply, ref. split_and!; [done|done| |done|].
    + apply (confirms_books _ _ claimed); [done|]. by eapply acceptable_confirms.
    + intros j q Hj Hq. destruct Hacc as (_ & _ & _ & Hall). rewrite (Hall j q Hj Hq).
      by destruct (bookkeeping_fields _ _ B) as (-> & _).
Qed.

(** No step touches a payment that is verified, books apart. *)
Lemma step_keeps_verified settings d d' i row : (forall n d, others n d = d) ->
  reconciliation_step settings d d' -> payments d !! i = Some row ->
  is_some (gateway_verified_at row) = true ->
  exists row', payments d' !! i = Some row' /\ verification_fact row' = verification_fact row.
Proof.
  intros Hcalm Hstep Hi Hv.
  destruct Hstep as [n ->|r0 r1 Hr B Hp|r0 claimed settled now reply result [Hf Hd B Hrep Hst Hp]].
  - rewrite Hcalm. eauto.
  - rewrite Hp. destruct (decide (id r0 = i)) as [<-|Hne].
    + rewrite lookup_insert_eq. assert (r0 = row) as -> by congruence. exists r1. split; [done|].
      by apply (re_verified _ _ (proj1 (bookkeeping_legal _ _ B))).
    + rewrite lookup_insert_ne by done. eauto.
  - destruct (decide (id r0 = i)) as [<-|Hne].
    2:{ rewrite Hp, lookup_insert_ne by done. eauto. }
    assert (r0 = row) as -> by congruence. exfalso. unfold due in Hd.
    apply orb_true_iff in Hd as [Hd|Hd]; apply tier_due_link_created in Hd as [_ Hn]; by rewrite Hn in Hv.
Qed.

Lemma steps_keep_verified settings d d' : (forall n d, others n d = d) ->
  rtc (reconciliation_step settings) d d' -> forall i row, payments d !! i = Some row ->
  is_some (gateway_verified_at row) = true ->
  exists row', payments d' !! i = Some row' /\ verification_fact row' = verification_fact row.
Proof.
  intros Hcalm. induction 1 as [d|d1 d2 d3 Hstep Hrest IH]; intros i row Hi Hv; [eauto|].
  destruct (step_keeps_verified _ _ _ _ _ Hcalm Hstep Hi Hv) as (row2 & Hi2 & E2).
  destruct (IH i row2 Hi2) as (row3 & Hi3 & E3).
  { unfold verification_fact in E2. injection E2 as -> _ _. done. }
  exists row3. split; [done|congruence].
Qed.

Lemma steps_verify settings d d' : (forall n d, others n d = d) ->
  rtc (reconciliation_step settings) d d' -> forall i row row', payments d !! i = Some row ->
  gateway_verified_at row = None -> payments d' !! i = Some row' ->
  is_some (gateway_verified_at row') = true ->
  exists d1 d2 row1 row2, reconciled_payment settings row1 row2 d1 d2 /\ same_terms row row1 /\
    verification_fact row' = verification_fact row2.
Proof.
  intros Hcalm. induction 1 as [d|d1 d2 d3 Hstep Hrest IH]; intros i row row' Hi Hv Hi' Hv'.
  { assert (row' = row) as -> by congruence. by rewrite Hv in Hv'. }
  destruct (step_verifies _ _ _ _ _ Hcalm Hstep Hi Hv) as (row2 & Hi2 & Et & [Hn|Hrec]).
  - destruct (IH i row2 row' Hi2 Hn Hi' Hv') as (e1 & e2 & q1 & q2 & Hrec & Et2 & E).
    exists e1, e2, q1, q2. split_and!; [done| |done]. by eapply same_terms_trans.
  - pose proof (proj1 (proj2 (proj2 Hrec))) as Hv2.
    destruct (steps_keep_verified _ _ _ Hcalm Hrest i row2 Hi2 Hv2) as (row3 & Hi3 & E3).
    exists d1, d2, row, row2. split_and!; [done|done|]. congruence.
Qed.

(** Reconciliation verifies a payment only on the gateway's word. With no
    other session at work, a payment that a pass finds unverified and leaves
    verified was due in one of the tiers, and the gateway, asked about its
    own order id, confirmed it: HTTP 200, an explicitly successful body, the
    exact payable amount, the payer of its link, and a reference id that no
    other payment carried, which is the one recorded. *)
Theorem reconciliation_verifies_only_confirmed settings worker batch_size time_budget w :
  (forall n d, others n d = d) -> sound w -> committed w = working w -> identity_map w = ∅ ->
  wp (run_reconciliation_pass settings worker batch_size time_budget) (fun _ w' =>
    forall i row row', payments (committed w) !! i = Some row -> gateway_verified_at row = None ->
      payments (committed w') !! i = Some row' -> is_some (gateway_verified_at row') = true ->
      exists now reply ref row1, same_terms row row1 /\ due settings now row1 = true /\
        replied (centralpay_verify_api_key settings) (gateway_order_id row) reply /\
        confirms reply row ref /\ reference_id row' = Some ref) w.
Proof.
  intros Hcalm Hs Hc Hm. eapply wp_mono; [by apply wp_pass|].
  intros r w' (R & _) i row row' Hi Hv Hi' Hv'.
  destruct (steps_verify _ _ _ Hcalm R i row row' Hi Hv Hi' Hv')
    as (d1 & d2 & row1 & row2 & (_ & _ & _ & now & reply & ref & Hd & Hrep & Hconf & Href & _) & Et & E).
  exists now, reply, ref, row1. destruct Et as [Es El].
  assert (Eg : gateway_order_id row1 = gateway_order_id row /\ gateway_user_id row1 = gateway_user_id row /\
               payable_amount row1 = payable_amount row).
  { unfold financial_snapshot, link_fact in *. injection Es as. injection El as. done. }
  destruct Eg as (E1 & E2 & E3). split_and!; [done|done|by rewrite <- E1| |].
  - destruct Hconf as (body & data & C1 & C2 & C3 & C4 & C5 & C6).
    rewrite E2 in C5. rewrite E3 in C4. by exists body, data.
  - unfold verification_fact in E. congruence.
Qed.

(** ** Tiers and schedule *)

Definition open_link (p : Payment) : Prop := status p = LINK_CREATED /\ gateway_verified_at p = None.

Lemma tier_age_spec now floor ceiling p : tier_age_conditions now floor ceiling p = true <->
  open_link p /\
  (forall f, floor = Some f -> f <= now - link_age_anchor p) /\
  (forall c, ceiling = Some c -> now - link_age_anchor p < c).
Proof.
  unfold tier_age_conditions, open_link. rewrite !andb_true_iff, bool_decide_eq_true, is_none_true.
  destruct floor as [f|], ceiling as [c|]; rewrite ?Z.leb_le, ?Z.ltb_lt;
    (split; [intros (([? ?] & ?) & ?); split_and!; try done; intros ? [= <-]; lia
            |intros ([? ?] & Hf & Hc); split_and!; try done;
             try (specialize (Hf _ eq_refl)); try (specialize (Hc _ eq_refl)); lia]).
Qed.

Lemma tier_due_spec settings now floor ceiling p :
  tier_due_conditions settings now floor ceiling p = true <->
  open_link p /\ floor <= now - link_age_anchor p < ceiling /\
  (forall t, reconciliation_next_at p = Some t -> t <= now) /\
  reconciliation_attempts p < reconciliation_max_attempts settings.
Proof.
  unfold tier_due_conditions. rewrite !andb_true_iff, tier_age_spec, Z.ltb_lt.
  split.
  - intros [[(Ho & Hf & Hc) Hn] Ha]. specialize (Hf _ eq_refl). specialize (Hc _ eq_refl).
    split_and!; [done|lia|lia| |done]. intros t Ht. rewrite Ht in Hn. by apply Z.leb_le.
  - intros (Ho & Hr & Hn & Ha). split_and!; try done; try (intros ? [= <-]; lia).
    destruct (reconciliation_next_at p) as [t|]; [|done]. apply Z.leb_le. by apply Hn.
Qed.

Lemma retry_delay_positive settings p now : settings_valid settings = true ->
  0 < reconciliation_retry_delay_seconds settings p now.
Proof.
  unfold settings_valid, field_bounds. intros H. bool_to_prop.
  unfold reconciliation_retry_delay_seconds. by destruct (_ <? _).
Qed.

(** The tiers partition the open links by age. Under valid settings an
    unverified [link_created] payment is in exactly one of active (younger
    than the fast window), expiring (younger than the maximal age) and aged
    out; only active payments of the minimal age and expiring ones can be
    due, never one aged out or out of attempts; a claimed payment, scheduled
    by the retry delay, is not due again before that delay has passed; and
    the exhausted payments to act on are exactly those not aged out or
    attempted recently. *)
Theorem reconciliation_tiers_partition settings now window p :
  settings_valid settings = true -> open_link p ->
  let age := now - link_age_anchor p in
  let fast := seconds (reconciliation_fast_window_seconds settings) in
  let maximal := seconds (reconciliation_max_age_seconds settings) in
  (active_tier_age_conditions settings now p = true <-> age < fast) /\
  (expiring_tier_age_conditions settings now p = true <-> fast <= age < maximal) /\
  (aged_out_conditions settings now p = true <-> maximal <= age) /\
  fast < maximal /\
  (due settings now p = true ->
     reconciliation_attempts p < reconciliation_max_attempts settings /\
     aged_out_conditions settings now p = false /\
     (seconds (reconciliation_min_age_seconds settings) <= age < fast \/ fast <= age < maximal)) /\
  (forall now', reconciliation_next_at p
       = Some (now + seconds (reconciliation_retry_delay_seconds settings p now)) ->
     due settings now' p = true -> now < now') /\
  reconciliation_actionable_exhausted_conditions settings now window p
    = reconciliation_exhausted_conditions settings now p
      || reconciliation_recently_exhausted_conditions settings now window p.
Proof.
  intros Hval Ho. cbv zeta. destruct Ho as [Hs Hv].
  assert (Hfm : seconds (reconciliation_fast_window_seconds settings)
                < seconds (reconciliation_max_age_seconds settings)).
  { unfold settings_valid, validate_bot_settings in Hval. bool_to_prop. unfold seconds. lia. }
  assert (Hage : aged_out_conditions settings now p = true <->
                 seconds (reconciliation_max_age_seconds settings) <= now - link_age_anchor p).
  { unfold aged_out_conditions, aged_out_age_condition. rewrite Hs, Hv, bool_decide_true by done.
    cbn. rewrite Z.leb_le. lia. }
  split_and!.
  - unfold active_tier_age_conditions. rewrite tier_age_spec. split.
    + intros (_ & _ & Hc). by apply Hc.
    + intros Hlt. split_and!; try done. intros c [= <-]. lia.
  - unfold expiring_tier_age_conditions. rewrite tier_age_spec. split.
    + intros (_ & Hf & Hc). split; [by apply Hf|by apply Hc].
    + intros Hlt. split_and!; try done; intros c [= <-]; lia.
  - apply Hage.
  - done.
  - unfold due. cbn [tier_due]. unfold active_tier_due_conditions, expiring_tier_due_conditions.
    rewrite orb_true_iff, !tier_due_spec. intros Hd.
    assert (Hold : now - link_age_anchor p < seconds (reconciliation_max_age_seconds settings)) by lia.
    split_and!; [lia| |lia]. apply not_true_iff_false. rewrite Hage. lia.
  - intros now' Hn Hd. pose proof (retry_delay_positive settings p now Hval) as Hpos.
    unfold due in Hd. cbn [tier_due] in Hd. unfold active_tier_due_conditions, expiring_tier_due_conditions in Hd.
    rewrite orb_true_iff, !tier_due_spec in Hd.
    assert (Hle : now + seconds (reconciliation_retry_delay_seconds settings p now) <= now')
      by (destruct Hd as [(_ & _ & Hd & _)|(_ & _ & Hd & _)]; by apply Hd).
    unfold seconds in Hle. lia.
  - unfold reconciliation_actionable_exhausted_conditions, reconciliation_exhausted_conditions,
      reconciliation_recently_exhausted_conditions, reconciliation_exhausted_ever_conditions.
    rewrite Hs, Hv, bool_decide_true by done. cbn.
    by destruct (is_none _), (_ <=? reconciliation_attempts p), (aged_out_age_condition _ _ _),
      (last_attempt_since _ _ _).
Qed.

End ReconciliationFacts.

(** ** A settlement that bookkeeping does not notice *)

Definition recent_payment : Payment :=
  example_payment <| callback_token_issued_at := Some (seconds 99900) |>.

Definition not_paid : GatewayReply := GatewayResponse 200 (Some (JObj [("status", JStr "error")])).

Definition race_env : Env := {|
  clock := @clock calm_env; randbelow := @randbelow calm_env; token_hex := @token_hex calm_env;
  locked_by_others := @locked_by_others calm_env;
  others := fun n d =>
    if (n =? 7)%nat then d <| payments := settled_row (seconds 100005) "R9" None <$> payments d |> else d;
  alert_insert_fails := @alert_insert_fails calm_env;
  gateway_post := fun _ _ _ => not_paid; bot_post := @bot_post calm_env
|}.

Definition example_race : Res Stats * World :=
  @run_reconciliation_pass race_env default_settings "w" None None (world_of (db_of [recent_payment])).

(** The re-check of [_finalize] reads the object the session holds, not the
    row. When the gateway answers "not paid" and the payer's callback settles
    the payment before [_finalize] takes the row lock again (interaction 7 of
    [race_env]), the attempt is not superseded: a retry of the verified
    payment is scheduled and recorded. No column but the books is touched. *)
Theorem finalize_misses_settlement :
  fst example_race = Ret (mkStats 1 0 1 0 0 0) /\
  (exists row, payments (committed (snd example_race)) !! 1 = Some row /\
     status row = BOT_NOTIFY_PENDING /\ gateway_verified_at row = Some (seconds 100005) /\
     reconciliation_next_at row = Some (seconds 100016)) /\
  head (trail (committed (snd example_race))) = Some "reconciliation_retry_scheduled".
Proof.
  split; [vm_compute; reflexivity|]. split; [|vm_compute; reflexivity].
  eexists. split; [vm_compute; reflexivity|]. split_and!; vm_compute; reflexivity.
Qed.

(** Nothing relates the minimal age to the fast window: with a fast window
    shorter than the minimal age, a payment younger than the minimal age is
    due in the expiring tier. *)
Definition short_window : Settings :=
  default_settings <| reconciliation_min_age_seconds := 60 |>
                   <| reconciliation_fast_window_seconds := 5 |>.

Example minimal_age_not_enforced :
  settings_valid short_window = true /\
  expiring_tier_due_conditions short_window (seconds 99910) recent_payment = true /\
  seconds 99910 - link_age_anchor recent_payment < seconds (reconciliation_min_age_seconds short_window).
Proof. split_and!; vm_compute; reflexivity. Qed.

(** ** Witnesses *)

Definition recent_world : World := world_of (db_of [recent_payment]).

Lemma recent_sound : sound recent_world.
Proof. apply sound_example. vm_compute. reflexivity. Qed.

#[export] Instance paid_rely : @Rely paid_env.
Proof. intros n d _. reflexivity. Qed.

Lemma run_reconciliation_pass_refines_witness :
  wp (@run_reconciliation_pass paid_env default_settings "w" None None) (fun r w' =>
    r = Ret (mkStats 1 1 0 0 0 0) /\ length (calls w') = 1%nat /\ db_ok (committed w')) recent_world.
Proof.
  eapply wp_mono; [apply wp_and|].
  - exact (@run_reconciliation_pass_refines paid_env _ default_settings "w" None None recent_world
      recent_sound eq_refl eq_refl).
  - instantiate (1 := fun r w' => r = Ret (mkStats 1 1 0 0 0 0) /\ length (calls w') = 1%nat).
    vm_compute. split; reflexivity.
  - intros r w' [(s & cs & _ & _ & H & _) [-> L]]. split; [reflexivity|]. split; [exact L|exact H].
Defined.

Lemma claim_next_due_fair_witness :
  wp (@claim_next_due_payment paid_env default_settings "w" (seconds 100000) 0) (fun r w' =>
    calls w' = [] /\ exists p, r = Ret (Some p)) recent_world.
Proof.
  eapply wp_mono; [apply wp_and|].
  - exact (@claim_next_due_fair paid_env _ default_settings "w" (seconds 100000) 0 recent_world
      recent_sound eq_refl eq_refl).
  - instantiate (1 := fun r w' => match r with Ret (Some _) => True | _ => False end).
    vm_compute. exact I.
  - intros r w' [[H _] Hr]. split; [exact H|]. destruct r as [[p|]|e]; [|destruct Hr|destruct Hr].
    exists p. reflexivity.
Defined.

(** The pass does verify the payment, and the theorem applies to it. *)
Lemma reconciliation_verifies_only_confirmed_witness :
  (exists row', payments (committed (snd (@run_reconciliation_pass paid_env default_settings "w" None
      None recent_world))) !! 1 = Some row' /\ reference_id row' = Some "R77") /\
  wp (@run_reconciliation_pass paid_env default_settings "w" None None) (fun r w' =>
    forall row', payments (committed w') !! 1 = Some row' -> is_some (gateway_verified_at row') = true ->
      exists reply ref, confirms reply recent_payment ref /\ reference_id row' = Some ref) recent_world.
Proof.
  split.
  - eexists. split; vm_compute; reflexivity.
  - eapply wp_mono; [apply (@reconciliation_verifies_only_confirmed paid_env _ default_settings "w"
      None None recent_world)|].
    + intros n d. reflexivity.
    + exact recent_sound.
    + reflexivity.
    + reflexivity.
    + intros r w' H row' H1 H2.
      destruct (H 1 recent_payment row') as (now & reply & ref & row1 & _ & _ & _ & H3 & H4);
        [vm_compute; reflexivity|reflexivity|exact H1|exact H2|].
      exists reply, ref. split; [exact H3|exact H4].
Defined.

Lemma reconciliation_tiers_partition_witness :
  settings_valid default_settings = true /\ open_link recent_payment /\
  (active_tier_age_conditions default_settings (seconds 100000) recent_payment = true <->
   seconds 100000 - link_age_anchor recent_payment < seconds 900).
Proof.
  assert (Ho : open_link recent_payment) by (split; reflexivity).
  split; [reflexivity|]. split; [exact Ho|].
  exact (proj1 (reconciliation_tiers_partition default_settings (seconds 100000) 86400 recent_payment
    eq_refl Ho)).
Defined.
