(* ===== verification/Inspect.v ===== *)
(** Inspecting one payment: the lookup by order id
    ([app/services/payment_lookup.py], [_load_review_payment] of
    [app/ops.py]) and the read-only reconciliation inspection with its
    diagnostic gateway check ([app/services/reconcile_inspect.py],
    [_cmd_reconcile] of [app/cli.py]).

    The diagnostic check predicts what settlement would do; the main theorem
    is that the prediction is exact. *)

From S2P Require Import Prelude PyText Exceptions Config Models Session AuditTrail Ledger.
From S2P Require Import Urls CentralPay Security Bot Notification Verification Reconciliation.

(** ** Looking up a payment *)

Definition POSTGRES_BIGINT_MAX : Z := 2 ^ 63 - 1.

(** [str.isdecimal] on Latin-1: the ASCII digits only. [str.isdigit] accepts
    the superscripts as well. *)
Definition isdecimal : string -> bool := all_digits.
Definition isdigit (s : string) : bool := negb (String.eqb s "") && str_forallb is_digit s.

(** [int(s)] on a text that satisfies [isdigit]. *)
Definition py_int (s : string) : M Z :=
  match (if all_digits s then int_of_digits s else None) with
  | Some n => ret n
  | None => raise (Unexpected "ValueError")
  end.

Definition AmbiguousOrderIdError : Exn := Unexpected "AmbiguousOrderIdError".

Definition is_ambiguous (e : Exn) : bool :=
  match e with Unexpected cls => String.eqb cls "AmbiguousOrderIdError" | _ => false end.

Definition select_by_bot_order (oid : string) : M (option Payment) :=
  select_payment false (fun q => String.eqb (bot_order_id q) oid).
Definition select_by_gateway_order (n : Z) : M (option Payment) :=
  select_payment false (fun q => gateway_order_id q =? n).

Definition find_payment_by_order_id (order_id : string) : M (option Payment) :=
  let* payment := select_by_bot_order order_id in
  if negb (isdecimal order_id) then ret payment
  else
    let* n := py_int order_id in
    if negb (n <=? POSTGRES_BIGINT_MAX) then ret payment
    else
      let* gateway_payment := select_by_gateway_order n in
      match gateway_payment, payment with
      | None, _ => ret payment
      | Some g, None => ret (Some g)
      | Some g, Some p => if id p =? id g then ret payment else raise AmbiguousOrderIdError
      end.

(** [_load_review_payment]; the row locks it takes block, so each statement
    starts with what other sessions have committed meanwhile. *)
Definition load_review_payment `{Env} (order_id : string) : M (option Payment) :=
  begin_tx ;;;
  let* payment := select_by_bot_order order_id in
  match payment with
  | Some p => ret (Some p)
  | None =>
      if negb (isdigit order_id) then ret None
      else let* n := py_int order_id in select_by_gateway_order n
  end.

(** ** The local snapshot *)

Inductive AgeBucket := BUCKET_ACTIVE | BUCKET_EXPIRING | BUCKET_AGED_OUT.

#[export] Instance AgeBucket_eq_dec : EqDecision AgeBucket.
Proof. solve_decision. Defined.

(** [_verify_aged_out_conditions]. *)
Definition verify_aged_out_conditions (settings : Settings) (now : Z) (p : Payment) : bool :=
  negb (verified_status (status p)) && is_none (gateway_verified_at p) &&
  aged_out_age_condition settings now p.

Record LocalSnapshot := mkLocalSnapshot {
  snapshot_now : Z;
  link_age : Z;
  is_link_created_unverified : bool;
  age_bucket : option AgeBucket;
  active_tier_due : bool;
  expiring_tier_due : bool;
  schedule_due : bool;
  snapshot_reconciliation_enabled : bool;
  auto_reconciliation_due : bool;
  attempts_exhausted : bool;
  verify_aged_out : bool;
  is_gateway_verified : bool
}.

(** The labels and flags computed from the one row the SELECT returned. *)
Definition local_snapshot_of (settings : Settings) (now : Z) (p : Payment) : LocalSnapshot :=
  let active_due := active_tier_due_conditions settings now p in
  let expiring_due := expiring_tier_due_conditions settings now p in
  let schedule := active_due || expiring_due in
  {| snapshot_now := now;
     link_age := now - link_age_anchor p;
     is_link_created_unverified :=
       bool_decide (status p = LINK_CREATED) && is_none (gateway_verified_at p);
     age_bucket :=
       if aged_out_conditions settings now p then Some BUCKET_AGED_OUT
       else if active_tier_age_conditions settings now p then Some BUCKET_ACTIVE
       else if expiring_tier_age_conditions settings now p then Some BUCKET_EXPIRING
       else None;
     active_tier_due := active_due;
     expiring_tier_due := expiring_due;
     schedule_due := schedule;
     snapshot_reconciliation_enabled := reconciliation_enabled settings;
     auto_reconciliation_due := reconciliation_enabled settings && schedule;
     attempts_exhausted := reconciliation_max_attempts settings <=? reconciliation_attempts p;
     verify_aged_out := verify_aged_out_conditions settings now p;
     is_gateway_verified := verified_status (status p) || is_some (gateway_verified_at p) |}.

Definition build_local_snapshot (settings : Settings) (payment_id now : Z)
  : M (option (Payment * LocalSnapshot)) :=
  let* found := select_payment_by_id true payment_id in
  match found with
  | None => ret None
  | Some p => ret (Some (p, local_snapshot_of settings now p))
  end.

(** ** The diagnostic check *)

Inductive VerifyRefusal :=
  | DIAGNOSTIC_VERIFY_DISABLED | VERIFY_ALREADY_VERIFIED | VERIFY_MANUAL_REVIEW_OWNED | VERIFY_AGED_OUT.

Definition determine_verify_refusal (p : Payment) (local : LocalSnapshot) (confirm_aged_out : bool)
  : option VerifyRefusal :=
  if bool_decide (status p = MANUAL_REVIEW) then Some VERIFY_MANUAL_REVIEW_OWNED
  else if is_gateway_verified local then Some VERIFY_ALREADY_VERIFIED
  else if verify_aged_out local && negb confirm_aged_out then Some VERIFY_AGED_OUT
  else None.

Inductive VerifyAssessment := WOULD_VERIFY | WOULD_REQUIRE_MANUAL_REVIEW | NOT_SUCCESSFUL.

Definition REASON_MISSING_REFERENCE_ID : string := "missing_reference_id".
Definition REASON_INVALID_REFERENCE_ID : string := "invalid_reference_id".
Definition REASON_PAYABLE_AMOUNT_MISMATCH : string := "payable_amount_mismatch".
Definition REASON_USER_ID_MISMATCH : string := "user_id_mismatch".
Definition REASON_REFERENCE_ID_COLLISION : string := "reference_id_collision".

Record VerifyComparison := mkVerifyComparison {
  cmp_gateway_success : bool;
  assessment : VerifyAssessment;
  cmp_reason_code : option string;
  gateway_failure_reason : option string;
  reference_id_present : bool;
  reference_id_valid : bool;
  reported_reference_id : option string;
  amount_matches : option bool;
  expected_payable_amount : Z;
  reported_amount : option Z;
  user_id_matches : option bool;
  cmp_reference_id_collision : bool;
  cmp_field_errors : list string
}.

Definition evaluate_verify_result (p : Payment) (result : VerifyResult) : M VerifyComparison :=
  let expected := payable_amount p in
  let errors := field_errors result in
  let review reason present valid reported amount_ok user_ok collision :=
    mkVerifyComparison true WOULD_REQUIRE_MANUAL_REVIEW (Some reason) None present valid reported
      amount_ok expected (result_amount result) user_ok collision errors in
  if negb (gateway_success result) then
    ret (mkVerifyComparison false NOT_SUCCESSFUL None (failure_reason result) false false None None
           expected None None false errors)
  else
    match result_reference_id result with
    | None =>
        ret (review (if reference_id_invalid result then REASON_INVALID_REFERENCE_ID
                     else REASON_MISSING_REFERENCE_ID)
               (reference_id_invalid result) false None None None false)
    | Some ref =>
        if negb (bool_decide (result_amount result = Some expected)) then
          ret (review REASON_PAYABLE_AMOUNT_MISMATCH true true (Some ref) (Some false) None false)
        else if negb (bool_decide (result_user_id result = Some (gateway_user_id p))) then
          ret (review REASON_USER_ID_MISMATCH true true (Some ref) (Some true) (Some false) false)
        else
          let* d := get_db in
          match colliding p ref d with
          | _ :: _ => ret (review REASON_REFERENCE_ID_COLLISION true true (Some ref) (Some true)
                             (Some true) true)
          | [] => ret (mkVerifyComparison true WOULD_VERIFY None None true true (Some ref)
                         (Some true) expected (result_amount result) (Some true) false errors)
          end
    end.

(** ** The command *)

(** What [_cmd_reconcile] prints, without the rendering; [performed] is [None]
    where a transport failure leaves open whether the request was sent. *)
Inductive ReconcileReport :=
  | ConfirmRequiresVerify
  | AmbiguousOrderId
  | PaymentNotFound
  | LocalReport (p : Payment) (local : LocalSnapshot)
  | VerifyRefused (p : Payment) (local : LocalSnapshot) (refusal : VerifyRefusal)
  | VerifyTransportFailed (p : Payment) (local : LocalSnapshot) (performed : option bool)
      (delivery_uncertain : bool) (code : string)
  | VerifyCompared (p : Payment) (local : LocalSnapshot) (comparison : VerifyComparison).

Definition exit_status (r : ReconcileReport) : Z :=
  match r with
  | LocalReport _ _ | VerifyRefused _ _ _ | VerifyCompared _ _ _ => 0
  | _ => 1
  end.

(** Whether a request that failed reached the gateway: unknown for a
    connection-level failure, certain otherwise. *)
Definition request_performed (c : ErrorClass) : option bool * bool :=
  match c with CentralPayConnectionError => (None, true) | _ => (Some true, false) end.

Section Command.
Context `{Env}.

(** The part under the row lock. *)
Definition diagnostic_verify (settings : Settings) (payment_id : Z) (confirm_aged_out : bool)
  : M ReconcileReport :=
  begin_tx ;;;
  let* d := get_db in
  if is_none (payments d !! payment_id) then ret PaymentNotFound
  else
    let* now := utcnow in
    let* snapshot := build_local_snapshot settings payment_id now in
    match snapshot with
    | None => ret PaymentNotFound
    | Some (p, local) =>
        match determine_verify_refusal p local confirm_aged_out with
        | Some refusal => ret (VerifyRefused p local refusal)
        | None =>
            let* answer := try_catch
              (let* result := verify (centralpay_verify_api_key settings) (gateway_order_id p) in
               ret (inl result))
              (fun e => match e with
                        | Bridge b => if is_CentralPayError (error_class b)
                                      then ret (inr (error_class b)) else raise e
                        | _ => raise e
                        end) in
            match answer with
            | inr c =>
                let '(performed, uncertain) := request_performed c in
                ret (VerifyTransportFailed p local performed uncertain (error_code c))
            | inl result =>
                let* comparison := evaluate_verify_result p result in
                ret (VerifyCompared p local comparison)
            end
        end
    end.

Definition cmd_reconcile (settings : Settings) (order_id : string) (verify_flag confirm_aged_out : bool)
  : M ReconcileReport :=
  if confirm_aged_out && negb verify_flag then ret ConfirmRequiresVerify
  else
    let* found := try_catch (let* p := find_payment_by_order_id order_id in ret (inl p))
      (fun e => if is_ambiguous e then ret (inr AmbiguousOrderId) else raise e) in
    match found with
    | inr report => ret report
    | inl None => ret PaymentNotFound
    | inl (Some found) =>
        let payment_id := id found in
        if verify_flag && centralpay_diagnostic_verify_enabled settings
        then diagnostic_verify settings payment_id confirm_aged_out
        else
          let* now := utcnow in
          let* snapshot := build_local_snapshot settings payment_id now in
          match snapshot with
          | None => ret PaymentNotFound
          | Some (p, local) =>
              ret (if verify_flag then VerifyRefused p local DIAGNOSTIC_VERIFY_DISABLED
                   else LocalReport p local)
          end
    end.
End Command.

(** ** Looking up: facts *)

(** Every object the session holds is the row the transaction sees. *)
Definition clean (w : World) : Prop :=
  forall i o, identity_map w !! i = Some o -> payments (working w) !! i = Some o.

Lemma clean_empty w : identity_map w = ∅ -> clean w.
Proof. intros E i o. by rewrite E, lookup_empty. Qed.

Lemma object_clean w b row : clean w -> keyed id (payments (working w)) ->
  payments (working w) !! id row = Some row -> object_of w b row = row.
Proof.
  intros C K Hr. unfold object_of. destruct b; [done|].
  destruct (identity_map w !! id row) as [o|] eqn:Ho; [|done].
  apply C in Ho. cbn. congruence.
Qed.

(** A transaction that only looks. *)
Record looked (w w' : World) : Prop := {
  lk_committed : committed w' = committed w;
  lk_working : working w' = working w;
  lk_calls : calls w' = calls w;
  lk_clean : clean w'
}.

Lemma looked_trans w1 w2 w3 : looked w1 w2 -> looked w2 w3 -> looked w1 w3.
Proof. intros [] []. split; [congruence..|done]. Qed.

Lemma looked_attached w row w' : clean w -> payments (working w) !! id row = Some row ->
  attached row row w w' -> looked w w'.
Proof.
  intros C Hr A. split; try (by ws). intros i o. ws.
  rewrite lookup_insert. case_decide; [intros [= <-]; congruence|apply C].
Qed.

Lemma steady_looked w w' : sound w -> looked w w' -> steady w w'.
Proof.
  intros [H1 H2 H3] [E1 E2 E3 E4]. split; [split|]; rewrite ?E1, ?E2; [done|done| |reflexivity].
  intros i o Ho%E4. exists o. rewrite <- E2. by split; [|apply same_key_refl].
Qed.

Lemma wp_select_clean flt (Q : Res (option Payment) -> World -> Prop) w :
  keyed id (payments (working w)) -> clean w ->
  ((forall i row, payments (working w) !! i = Some row -> flt row = false) -> Q (Ret None) w) ->
  (forall row w', payments (working w) !! id row = Some row -> flt row = true -> looked w w' ->
     Q (Ret (Some row)) w') ->
  wp (select_payment false flt) Q w.
Proof.
  intros K C Hn Hs. apply wp_select_payment; [done|done|]. intros row w' Hr Hf A.
  rewrite (object_clean w false row C K Hr) in *. apply Hs; [done|done|]. by eapply looked_attached.
Qed.

(** The order id names the payment by its gateway order id. *)
Definition names_gateway_order (order_id : string) (p : Payment) : Prop :=
  isdecimal order_id = true /\ exists n, int_of_digits order_id = Some n /\
    n <= POSTGRES_BIGINT_MAX /\ gateway_order_id p = n.

Definition named_by (order_id : string) (p : Payment) : Prop :=
  bot_order_id p = order_id \/ names_gateway_order order_id p.

(** What a lookup by [order_id] in the database [d] may answer. *)
Inductive lookup_answer (order_id : string) (d : Db) : Res (option Payment) -> Prop :=
  | lookup_none : (forall i q, payments d !! i = Some q -> ~ named_by order_id q) ->
      lookup_answer order_id d (Ret None)
  | lookup_one p : payments d !! id p = Some p -> named_by order_id p ->
      (forall i q, payments d !! i = Some q -> named_by order_id q -> q = p) ->
      lookup_answer order_id d (Ret (Some p))
  | lookup_ambiguous p q : payments d !! id p = Some p -> payments d !! id q = Some q ->
      bot_order_id p = order_id -> names_gateway_order order_id q -> p <> q ->
      lookup_answer order_id d (Raise AmbiguousOrderIdError)
  | lookup_too_long : isdecimal order_id = true -> int_of_digits order_id = None ->
      lookup_answer order_id d (Raise (Unexpected "ValueError")).

Section Lookup.
Context (order_id : string) (w : World).
Hypothesis K : keyed id (payments (working w)).
Hypothesis UO : unique_orders (payments (working w)).
Hypothesis UG : unique_gateway_orders (payments (working w)).

Lemma same_bot_order p q i : payments (working w) !! id p = Some p ->
  payments (working w) !! i = Some q -> bot_order_id q = bot_order_id p -> q = p.
Proof. intros Hp Hq E. assert (i = id p) by (by eapply UO). congruence. Qed.

Lemma same_gateway_order p q i : payments (working w) !! id p = Some p ->
  payments (working w) !! i = Some q -> gateway_order_id q = gateway_order_id p -> q = p.
Proof.
  intros Hp Hq E. assert (i = id p); [|congruence].
  eapply (UG i (id p) q p (gateway_order_id p)); unfold gateway_key; congruence.
Qed.

(** The answer when only the bot order id counts. *)
Lemma lookup_by_bot_order payment :
  match payment with
  | Some p => payments (working w) !! id p = Some p /\ bot_order_id p = order_id
  | None => forall i q, payments (working w) !! i = Some q -> bot_order_id q <> order_id
  end ->
  (forall i q, payments (working w) !! i = Some q -> names_gateway_order order_id q ->
     payment = Some q) ->
  lookup_answer order_id (working w) (Ret payment).
Proof.
  intros Hp Hg. destruct payment as [p|].
  - destruct Hp as [Hp <-]. constructor; [done|by left|]. intros i q Hq [Hb|Hn].
    + by eapply same_bot_order.
    + specialize (Hg i q Hq Hn). congruence.
  - constructor. intros i q Hq [Hb|Hn]; [by eapply Hp|]. by specialize (Hg i q Hq Hn).
Qed.

Lemma wp_find_payment : clean w ->
  wp (find_payment_by_order_id order_id) (fun r w' =>
    looked w w' /\ lookup_answer order_id (working w) r) w.
Proof.
  intros C. unfold find_payment_by_order_id. apply wp_bind.
  set (found := fun payment : option Payment => match payment with
    | Some p => payments (working w) !! id p = Some p /\ bot_order_id p = order_id
    | None => forall i q, payments (working w) !! i = Some q -> bot_order_id q <> order_id
    end).
  eapply (wp_mono _ (fun r w' => looked w w' /\ exists payment, r = Ret payment /\ found payment)).
  { apply wp_select_clean; [done|done| |].
    - intros Hno. split; [by split|]. exists None. split; [done|]. intros i q Hq.
      apply String.eqb_neq. by eapply Hno.
    - intros row w' Hr Hf L. apply String.eqb_eq in Hf. split; [done|]. by exists (Some row). }
  intros r w1 (L & payment & -> & Hp).
  destruct (isdecimal order_id) eqn:Ed; cbn [negb].
  2:{ apply wp_ret. split; [done|]. apply lookup_by_bot_order; [done|].
      intros i q _ [Hd _]. congruence. }
  unfold py_int. unfold isdecimal in Ed. rewrite Ed. apply wp_bind.
  destruct (int_of_digits order_id) as [n|] eqn:En.
  2:{ apply wp_raise. split; [done|]. by constructor. }
  apply wp_ret. destruct (n <=? POSTGRES_BIGINT_MAX) eqn:Em; cbn [negb]; bool_to_prop.
  2:{ apply wp_ret. split; [done|]. apply lookup_by_bot_order; [done|].
      intros i q _ (_ & n' & En' & Hn & _). assert (n' = n) by congruence. lia. }
  rewrite <- (lk_working _ _ L) in K. apply wp_bind, wp_select_clean; [exact K|apply L| |].
  - rewrite (lk_working _ _ L). intros Hno. apply wp_ret. split; [done|].
    apply lookup_by_bot_order; [done|]. intros i q Hq (_ & n' & En' & _ & Hg).
    assert (n' = n) as -> by congruence. specialize (Hno i q Hq). bool_to_prop. done.
  - rewrite (lk_working _ _ L). intros g w2 Hg Hf L2. apply Z.eqb_eq in Hf.
    assert (Hng : names_gateway_order order_id g) by (split; [done|by exists n]).
    assert (Hsame : forall i q, payments (working w) !! i = Some q -> names_gateway_order order_id q -> q = g).
    { intros i q Hq (_ & n' & En' & _ & E). eapply same_gateway_order; [done|done|]. congruence. }
    pose proof (looked_trans _ _ _ L L2) as L'.
    destruct payment as [p|]; [destruct Hp as [Hp Hb]; destruct (id p =? id g) eqn:Ei; bool_to_prop|].
    + apply wp_ret. split; [done|]. apply lookup_by_bot_order; [done|].
      intros i q Hq Hn. rewrite (Hsame i q Hq Hn). f_equal. congruence.
    + apply wp_raise. split; [done|]. apply (lookup_ambiguous _ _ p g); try done. congruence.
    + apply wp_ret. split; [done|]. constructor; [done|by right|].
      intros i q Hq [Hb|Hn]; [by destruct (Hp i q Hq)|by eapply Hsame].
Qed.
End Lookup.

(** ** The snapshot and the diagnostic check: facts *)

Lemma wp_build_local_snapshot settings i now (Q : Res (option (Payment * LocalSnapshot)) -> World -> Prop) w :
  keyed id (payments (working w)) -> clean w ->
  (payments (working w) !! i = None -> Q (Ret None) w) ->
  (forall row w', payments (working w) !! i = Some row -> id row = i -> looked w w' ->
     Q (Ret (Some (row, local_snapshot_of settings now row))) w') ->
  wp (build_local_snapshot settings i now) Q w.
Proof.
  intros K C Hn Hs. unfold build_local_snapshot. apply wp_bind, wp_select_by_id.
  destruct (payments (working w) !! i) as [row|] eqn:E; [|by apply wp_ret, Hn].
  intros w' A. pose proof (K i row E) as <-. apply wp_ret, Hs; [done|done|].
  change (object_of w true row) with row in A. by eapply looked_attached.
Qed.

(** A refusal is decided by the state of the row alone: the check asks the
    gateway only about a payment that settlement may work on. *)
Lemma verify_refusal_spec settings now p confirm :
  determine_verify_refusal p (local_snapshot_of settings now p) confirm = None <->
  settleable p /\ (aged_out_age_condition settings now p = true -> confirm = true).
Proof.
  unfold determine_verify_refusal, settleable. cbn. unfold verify_aged_out_conditions.
  destruct (bool_decide_reflect (status p = MANUAL_REVIEW)) as [Hs|Hs]; [split; [done|by intros [(_ & _ & ?) _]]|].
  destruct (verified_status (status p)), (gateway_verified_at p); cbn;
    try (split; [done|by intros [(? & ? & _) _]]).
  destruct (aged_out_age_condition settings now p), confirm; cbn;
    split; try done; intros [_ H]; by specialize (H eq_refl).
Qed.

(** The comparison reads the database and nothing else. *)
Lemma evaluate_pure p result w : exists cmp, evaluate_verify_result p result w = (Ret cmp, w).
Proof.
  unfold evaluate_verify_result. repeat (case_match; try by eexists).
  unfold bind, get_db. destruct (colliding p s (working w)); by eexists.
Qed.

Definition review_event (reason : string) : string :=
  if String.eqb reason REASON_REFERENCE_ID_COLLISION then reason else "verify_" +:+ reason.

(** What a comparison says of the answer [result] about [row] in [d]. *)
Definition predicts (d : Db) (row : Payment) (result : VerifyResult) (cmp : VerifyComparison) : Prop :=
  match assessment cmp with
  | NOT_SUCCESSFUL => gateway_success result = false
  | WOULD_VERIFY => gateway_success result = true /\ exists ref,
      reported_reference_id cmp = Some ref /\ acceptable d row result ref
  | WOULD_REQUIRE_MANUAL_REVIEW => gateway_success result = true /\
      ~ (exists ref, acceptable d row result ref) /\
      exists reason, cmp_reason_code cmp = Some reason /\
        review_event reason = mismatch_event row result
  end.

Lemma evaluate_predicts row result w : keyed id (payments (working w)) ->
  exists cmp, evaluate_verify_result row result w = (Ret cmp, w) /\
    predicts (working w) row result cmp.
Proof.
  intros K. unfold evaluate_verify_result, predicts, acceptable, mismatch_event.
  destruct (gateway_success result); cbn [negb]; [|eexists; split; [reflexivity|done]].
  destruct (result_reference_id result) as [ref|].
  2:{ eexists. split; [reflexivity|]. split; [done|]. split; [by intros (? & ? & _)|].
      eexists. split; [reflexivity|]. by destruct (reference_id_invalid result). }
  destruct (bool_decide_reflect (result_amount result = Some (payable_amount row))) as [Ea|Ea]; cbn [negb].
  2:{ eexists. split; [reflexivity|]. split; [done|]. split; [by intros (? & _ & ? & _)|].
      by eexists. }
  destruct (bool_decide_reflect (result_user_id result = Some (gateway_user_id row))) as [Eu|Eu]; cbn [negb].
  2:{ eexists. split; [reflexivity|]. split; [done|]. split; [by intros (? & _ & _ & ? & _)|].
      by eexists. }
  erewrite bind_ret_eq by reflexivity. pose proof (colliding_nil row ref (working w) K) as Hcol.
  destruct (colliding row ref (working w)) as [|q l].
  - eexists. split; [reflexivity|]. split; [done|]. exists ref. split_and!; [done..|]. by apply Hcol.
  - eexists. split; [reflexivity|]. split; [done|]. split; [|by eexists].
    intros (ref' & [= <-] & _ & _ & Hall). by apply Hcol in Hall.
Qed.

Section InspectFacts.
Context `{Env}.

(** The state a read-only command leaves: what it can see may have been
    committed by others, it commits nothing. *)
Definition only_read (w w' : World) : Prop :=
  working w' = committed w' /\
  (committed w' = committed w \/ exists n, committed w' = others n (committed w)).

Lemma looked_only_read w w' : working w = committed w -> looked w w' -> only_read w w'.
Proof. intros E []. split; [congruence|by left]. Qed.

(** The request of a diagnostic check was due: the row the lock protects may
    be settled, and it is not aged out unless the operator confirmed. *)
Definition diagnosed (settings : Settings) (confirm : bool) (w w' : World) : Prop :=
  exists p now, payments (committed w') !! id p = Some p /\ settleable p /\
    (aged_out_age_condition settings now p = true -> confirm = true) /\
    calls w' = verify_request (centralpay_verify_api_key settings) (gateway_order_id p) :: calls w.

Lemma wp_diagnostic_verify `{!Rely} settings i confirm w :
  sound w -> working w = committed w -> clean w ->
  wp (diagnostic_verify settings i confirm) (fun r w' => only_read w w' /\
    (calls w' = calls w \/ diagnosed settings confirm w w')) w.
Proof.
  intros Hs Hf C. unfold diagnostic_verify. apply wp_bind, wp_begin_tx. intros w' B.
  pose proof (steady_began _ _ B Hf Hs) as [Hs1 _].
  pose proof (ok_keyed _ (so_working _ Hs1)) as K1. destruct (bg_committed _ _ B) as [n En].
  apply wp_bind, wp_get_db. destruct (payments (working w') !! i) as [row|] eqn:Hrow; cbn [is_none].
  2:{ apply wp_ret. split; [|left; by ws]. split; [by ws|right; by exists n]. }
  apply wp_bind, wp_utcnow. intros t w2 T. apply wp_bind. unfold build_local_snapshot.
  apply wp_bind, wp_select_by_id. rewrite (ca_working _ _ _ T), Hrow.
  intros w3 A. change (object_of w2 true row) with row in *. apply wp_ret.
  pose proof (K1 i row Hrow) as <-.
  assert (Hr3 : only_read w w3) by (split; [by ws|right; exists n; by ws]).
  assert (Hc3 : calls w3 = calls w) by (by ws).
  assert (Hrow3 : payments (committed w3) !! id row = Some row) by (ws; by rewrite <- (bg_working _ _ B)).
  destruct (determine_verify_refusal row _ confirm) as [refusal|] eqn:Er.
  { apply wp_ret. by split; [|left]. }
  apply verify_refusal_spec in Er as [Hset Hage]. apply wp_bind, wp_try, wp_bind, wp_verify.
  intros w4 reply CA _. assert (Hr4 : only_read w w4).
  { destruct Hr3 as [E1 E2]. unfold only_read. by rewrite (ca_working _ _ _ CA), (ca_committed _ _ _ CA). }
  assert (Hd : diagnosed settings confirm w w4).
  { exists row, t. rewrite (ca_committed _ _ _ CA), (ca_calls _ _ _ CA), Hc3. done. }
  destruct (verify_answer reply) as [result|e].
  - apply wp_ret. apply wp_bind. unfold wp.
    destruct (evaluate_pure row result w4) as [cmp ->]. by split; [|right].
  - destruct e as [b| | |]; try (by apply wp_raise; split; [|right]).
    destruct (is_CentralPayError (error_class b)); [|by apply wp_raise; split; [|right]].
    apply wp_ret. destruct (request_performed _). apply wp_ret. by split; [|right].
Qed.

(** ** Properties *)

(** Looking a payment up by order id never guesses. In a fresh session
    over a well-formed ledger, the answer is the only payment that
    [order_id] names, as a bot order id or as a decimal gateway order id that
    fits a BIGINT; nothing, when it names no payment; a refusal, when it names
    two different ones; and it changes nothing. The one other failure is
    Python's own limit on the digits of an integer. *)
Theorem order_lookup_exact order_id w :
  sound w -> clean w ->
  wp (find_payment_by_order_id order_id) (fun r w' =>
    committed w' = committed w /\ working w' = working w /\ calls w' = calls w /\
    lookup_answer order_id (working w) r) w.
Proof.
  intros Hs C. pose proof (so_working w Hs) as Hok.
  eapply wp_mono; [apply wp_find_payment; [apply Hok|apply Hok|apply Hok|exact C]|].
  intros r w' [[] A]. done.
Qed.

(** The operator's [reconcile] command is read-only, and careful with the
    gateway. However it ends, its session commits nothing: the committed
    database is the one it found or what others committed meanwhile. It sends
    at most one request, a verification of one payment, and only if the
    operator asked for it, the diagnostic check is enabled, and the row under
    the lock is unverified, not under review, and not aged out unless the
    operator confirmed that. *)
Theorem reconcile_command_read_only `{!Rely} settings order_id verify_flag confirm w :
  sound w -> working w = committed w -> clean w ->
  wp (cmd_reconcile settings order_id verify_flag confirm) (fun r w' =>
    only_read w w' /\
    (calls w' = calls w \/
     verify_flag = true /\ centralpay_diagnostic_verify_enabled settings = true /\
     diagnosed settings confirm w w')) w.
Proof.
  intros Hs Hf C. pose proof (so_working w Hs) as Hok.
  assert (Hend : forall w', looked w w' -> only_read w w' /\ (calls w' = calls w \/
     verify_flag = true /\ centralpay_diagnostic_verify_enabled settings = true /\
     diagnosed settings confirm w w')).
  { intros w' L. split; [by apply looked_only_read|left; apply L]. }
  unfold cmd_reconcile. destruct (confirm && negb verify_flag).
  { apply wp_ret, Hend. by split. }
  apply wp_bind, wp_try, wp_bind.
  eapply wp_mono; [apply wp_find_payment; [apply Hok|apply Hok|apply Hok|exact C]|].
  intros [found|e] w1 [L A].
  2:{ destruct (is_ambiguous e); [|by apply wp_raise, Hend]. by apply wp_ret, wp_ret, Hend. }
  apply wp_ret. destruct found as [p|]; [|by apply wp_ret, Hend].
  destruct (verify_flag && centralpay_diagnostic_verify_enabled settings) eqn:Ev.
  - apply andb_true_iff in Ev as [-> Ev].
    pose proof (proj1 (steady_looked _ _ Hs L)) as Hs1.
    eapply wp_mono; [apply wp_diagnostic_verify; [done|destruct L; congruence|apply L]|].
    intros r w2 [[E1 E2] Hcalls]. rewrite (lk_committed _ _ L) in E2. split; [by split|].
    destruct Hcalls as [E|(q & now & Hq & Hset & Hage & E)].
    { left. by rewrite E, (lk_calls _ _ L). }
    right. rewrite (lk_calls _ _ L) in E.
    split_and!; [done..|]. by exists q, now.
  - apply wp_bind, wp_utcnow. intros t w2 T.
    assert (L2 : looked w w2).
    { destruct L as [E1 E2 E3 E4]. split; try (ws; cbn; congruence). intros i o. ws. apply E4. }
    assert (K2 : keyed id (payments (working w2))) by (rewrite (lk_working _ _ L2); apply Hok).
    apply wp_bind, wp_build_local_snapshot; [exact K2|apply L2|intros _; by apply wp_ret, Hend|].
    intros row w3 _ _ L3. apply wp_ret, Hend. by eapply looked_trans.
Qed.

(** C19: The diagnostic check predicts settlement exactly. For a payment that
    may be settled and any answer of the gateway, the comparison says "would
    verify" only if settlement, run on the same state and answer, verifies the
    payment with the reference it reports; "would require manual review" only
    if settlement moves it to manual review for the very reason it names; and
    "not successful" only if settlement leaves it unpaid and unverified. *)
Theorem diagnostic_predicts_settlement api_key guard source w row result :
  sound w -> payments (working w) !! id row = Some row -> settleable row ->
  verify_answer (verify_reply w api_key (gateway_order_id row)) = Ret result ->
  exists cmp, evaluate_verify_result row result w = (Ret cmp, w) /\
    wp (verify_and_settle api_key row guard source) (fun r w' =>
      exists row', payments (committed w') !! id row = Some row' /\
      match assessment cmp with
      | WOULD_VERIFY => r = Ret VERIFIED /\ is_some (gateway_verified_at row') = true /\
          reference_id row' = reported_reference_id cmp
      | WOULD_REQUIRE_MANUAL_REVIEW => r = Ret SETTLED_UNDER_REVIEW /\ status row' = MANUAL_REVIEW /\
          last_error row' = option_map review_event (cmp_reason_code cmp)
      | NOT_SUCCESSFUL => r = Ret GATEWAY_NOT_PAID /\ status row' = status row /\
          gateway_verified_at row' = None
      end) w.
Proof.
  intros Hs Hrow Hset Ha. pose proof (ok_keyed _ (so_working w Hs)) as K.
  destruct (evaluate_predicts row result w K) as (cmp & E & P). exists cmp. split; [exact E|].
  assert (HO : holding w w [] [] row row w).
  { split; try done; try (by apply steady_refl); by rewrite insert_id. }
  apply (wp_verify_and_settle _ _ _ _ HO Hset eq_refl).
  { intros cls w' Hc _. rewrite Hc in Ha. done. }
  intros r row' es w' Hst _ [_ _ Ep _ _]. rewrite Ha in Hst. exists row'.
  rewrite Ep, (settlement_id _ _ _ _ _ Hst), lookup_insert_eq. split; [done|].
  unfold predicts in P. inversion Hst; clear Hst; subst.
  - destruct (assessment cmp); [by destruct P; congruence..|].
    split_and!; [done|done|apply Hset].
  - destruct (assessment cmp); [|exfalso; destruct P as (_ & [] & _); eauto|congruence].
    destruct P as (_ & ref' & -> & Hacc'). split_and!; [done|done|]. unfold acceptable in *. cbn.
    intuition congruence.
  - destruct (assessment cmp); [exfalso; destruct P as (_ & ref' & _ & Hacc'); eauto| |congruence].
    destruct P as (_ & _ & reason & -> & Ee). split_and!; [done|done|]. cbn. by rewrite Ee.
Qed.

End InspectFacts.

(** The review commands look an order up by rules of their own. On a
    superscript digit they crash with [ValueError] where the shared lookup
    answers "not found"; and where an id names two different payments, they
    take the one of the bot order where the shared lookup refuses. *)
Theorem review_lookup_diverges :
  let superscript := String (char 178) "" in
  fst (find_payment_by_order_id superscript (world_of empty_db)) = Ret None /\
  fst (@load_review_payment calm_env superscript (world_of empty_db)) = Raise (Unexpected "ValueError") /\
  exists d p q, bot_order_id p = "700001" /\ gateway_order_id q = 700001 /\ id p <> id q /\
    fst (find_payment_by_order_id "700001" (world_of d)) = Raise AmbiguousOrderIdError /\
    fst (@load_review_payment calm_env "700001" (world_of d)) = Ret (Some p).
Proof.
  split; [vm_compute; reflexivity|]. split; [vm_compute; reflexivity|].
  set (p := example_payment <| id := 1 |> <| bot_order_id := "700001" |> <| gateway_order_id := 5 |>).
  set (q := example_payment <| id := 2 |>).
  exists (db_of [p; q]), p, q. split_and!; try reflexivity; [done|..]; vm_compute; reflexivity.
Qed.

(** ** Witnesses *)

Lemma order_lookup_exact_witness :
  fst (find_payment_by_order_id "700001" open_world) = Ret (Some open_payment) /\
  wp (find_payment_by_order_id "700001") (fun r w' => lookup_answer "700001" (working open_world) r)
    open_world.
Proof.
  split; [vm_compute; reflexivity|].
  eapply wp_mono; [apply (order_lookup_exact "700001" open_world)|].
  - exact open_world_sound.
  - apply clean_empty. reflexivity.
  - intros r w' (_ & _ & _ & A). exact A.
Defined.

Definition diagnosing : Settings :=
  default_settings <| centralpay_diagnostic_verify_enabled := true |>.

Lemma reconcile_command_read_only_witness :
  length (calls (snd (@cmd_reconcile paid_env diagnosing "order-1" true true open_world))) = 1%nat /\
  wp (@cmd_reconcile paid_env diagnosing "order-1" true true) (fun r w' =>
    committed w' = committed open_world) open_world.
Proof.
  split; [vm_compute; reflexivity|].
  eapply wp_mono; [apply (@reconcile_command_read_only paid_env _ diagnosing "order-1" true true open_world)|].
  - exact open_world_sound.
  - reflexivity.
  - apply clean_empty. reflexivity.
  - intros r w' [[_ [E|[n E]]] _]; exact E.
Defined.

Lemma diagnostic_predicts_settlement_witness :
  exists result, verify_answer (@verify_reply paid_env open_world "k" 700001) = Ret result /\
  exists cmp, evaluate_verify_result open_payment result open_world = (Ret cmp, open_world) /\
    assessment cmp = WOULD_VERIFY /\
    wp (@verify_and_settle paid_env "k" open_payment true "callback") (fun r w' =>
      exists row', payments (committed w') !! 1 = Some row' /\ reference_id row' = Some "R77") open_world.
Proof.
  eexists. split; [vm_compute; reflexivity|].
  destruct (@diagnostic_predicts_settlement paid_env "k" true "callback" open_world open_payment _
    open_world_sound ltac:(vm_compute; reflexivity) ltac:(split_and!; vm_compute; congruence)
    ltac:(vm_compute; reflexivity)) as (cmp & E & W).
  exists cmp. split; [exact E|].
  assert (Ec : assessment cmp = WOULD_VERIFY /\ reported_reference_id cmp = Some "R77").
  { vm_compute in E. injection E as <-. split; reflexivity. }
  destruct Ec as [Ec Er]. split; [exact Ec|]. rewrite Ec, Er in W.
  eapply wp_mono; [exact W|]. intros r w' (row' & H & _ & _ & R). exists row'. split; [exact H|exact R].
Defined.
