(* ===== verification/AgedOut.v ===== *)
(** Operator recovery of a payment whose link aged out of reconciliation
    ([app/services/aged_out_recovery.py]).

    The module adds no financial logic: it decides whether to call
    [verify_and_settle] at all, under the row lock, and marks the attempt in
    the audit trail. The theorems say exactly when it does, and that the
    payment it recovers is settled as any other would be. *)

From S2P Require Import Prelude PyText Exceptions Config Models Session AuditTrail Ledger.
From S2P Require Import Urls CentralPay Security Bot Notification Verification Reconciliation Inspect.

Definition RECOVERY_SOURCE : string := "aged_out_recovery".

Inductive RecoveryRefusal :=
  | RECOVERY_MANUAL_REVIEW_OWNED | RECOVERY_ALREADY_VERIFIED | NOT_LINK_CREATED | NOT_AGED_OUT.

Definition recovery_refusal_value (r : RecoveryRefusal) : string :=
  match r with
  | RECOVERY_MANUAL_REVIEW_OWNED => "manual_review_owned"
  | RECOVERY_ALREADY_VERIFIED => "already_gateway_verified"
  | NOT_LINK_CREATED => "not_link_created"
  | NOT_AGED_OUT => "not_aged_out"
  end.

Definition determine_recovery_refusal (p : Payment) (local : LocalSnapshot) : option RecoveryRefusal :=
  if bool_decide (status p = MANUAL_REVIEW) then Some RECOVERY_MANUAL_REVIEW_OWNED
  else if is_gateway_verified local then Some RECOVERY_ALREADY_VERIFIED
  else if negb (bool_decide (status p = LINK_CREATED)) then Some NOT_LINK_CREATED
  else if negb (bool_decide (age_bucket local = Some BUCKET_AGED_OUT)) then Some NOT_AGED_OUT
  else None.

Record RecoverySnapshot := mkRecoverySnapshot {
  rs_bot_order_id : string;
  rs_gateway_order_id : Z;
  rs_status : PaymentStatus;
  rs_gateway_verified : bool;
  rs_link_age : Z;
  rs_aged_out : bool;
  rs_reconciliation_attempts : Z
}.

(** [_snapshot]. *)
Definition recovery_snapshot (p : Payment) (local : LocalSnapshot) : RecoverySnapshot :=
  mkRecoverySnapshot (bot_order_id p) (gateway_order_id p) (status p) (is_gateway_verified local)
    (link_age local) (bool_decide (age_bucket local = Some BUCKET_AGED_OUT)) (reconciliation_attempts p).

Definition build_preview (settings : Settings) (payment_id now : Z)
  : M (option (RecoverySnapshot * option RecoveryRefusal)) :=
  let* snapshot := build_local_snapshot settings payment_id now in
  match snapshot with
  | None => ret None
  | Some (p, local) => ret (Some (recovery_snapshot p local, determine_recovery_refusal p local))
  end.

Inductive RecoveryOutcomeKind :=
  | RECOVERY_REFUSED | RECOVERY_VERIFIED | RECOVERY_GATEWAY_NOT_PAID | RECOVERY_MANUAL_REVIEW
  | RECOVERY_TRANSPORT_FAILED.

Record RecoveryOutcome := mkRecoveryOutcome {
  kind : RecoveryOutcomeKind;
  gateway_request_performed : option bool;
  delivery_uncertain : bool;
  refusal : option RecoveryRefusal;
  transport_error_code : option string
}.

Section Recovery.
Context `{Env}.

(** One event and the commit. *)
Definition mark_attempt (p : Payment) (event level : string) (data : dict) : M unit :=
  record_event (Some (id p)) event level (("gateway_order_id", JInt (gateway_order_id p)) :: data) ;;;
  commit.

Definition settled_kind (o : SettlementOutcome) : RecoveryOutcomeKind * string :=
  match o with
  | VERIFIED => (RECOVERY_VERIFIED, "aged_out_recovery_verified")
  | SETTLED_UNDER_REVIEW => (RECOVERY_MANUAL_REVIEW, "aged_out_recovery_manual_review")
  | GATEWAY_NOT_PAID => (RECOVERY_GATEWAY_NOT_PAID, "aged_out_recovery_not_paid")
  end.

(** The settlement attempt of an eligible payment. *)
Definition attempt_recovery (settings : Settings) (p : Payment) (snapshot : RecoverySnapshot)
  : M (option (RecoverySnapshot * RecoveryOutcome)) :=
  let* answer := try_catch
    (let* o := verify_and_settle (centralpay_verify_api_key settings) p
                 (first_payment_guard_enabled settings) RECOVERY_SOURCE in
     ret (inl o))
    (fun e => match e with
              | Bridge b => if is_CentralPayError (error_class b)
                            then ret (inr (error_class b)) else raise e
              | _ => raise e
              end) in
  match answer with
  | inr c =>
      let '(performed, uncertain) := request_performed c in
      begin_tx ;;;
      mark_attempt p "aged_out_recovery_transport_failed" "error" [("error_code", JStr (error_code c))] ;;;
      ret (Some (snapshot, mkRecoveryOutcome RECOVERY_TRANSPORT_FAILED performed uncertain
                             None (Some (error_code c))))
  | inl o =>
      let '(outcome_kind, event) := settled_kind o in
      begin_tx ;;;
      mark_attempt p event "info" [] ;;;
      ret (Some (snapshot, mkRecoveryOutcome outcome_kind (Some true) false None None))
  end.

Definition execute_confirmed_recovery (payment_id : Z) (settings : Settings)
  : M (option (RecoverySnapshot * RecoveryOutcome)) :=
  begin_tx ;;;
  let* d := get_db in
  if is_none (payments d !! payment_id) then ret None
  else
    let* now := utcnow in
    let* reloaded := build_local_snapshot settings payment_id now in
    match reloaded with
    | None => ret None
    | Some (p, local) =>
        let snapshot := recovery_snapshot p local in
        record_event (Some (id p)) "aged_out_recovery_requested" "info"
          [("gateway_order_id", JInt (gateway_order_id p))] ;;;
        match determine_recovery_refusal p local with
        | Some refused =>
            mark_attempt p "aged_out_recovery_refused" "warning"
              [("reason", JStr (recovery_refusal_value refused))] ;;;
            ret (Some (snapshot,
                       mkRecoveryOutcome RECOVERY_REFUSED (Some false) false (Some refused) None))
        | None => attempt_recovery settings p snapshot
        end
    end.
End Recovery.

(** ** Facts *)

(** Recovery is offered exactly to the payments of the worker's aged-out
    tier. *)
Lemma recovery_refusal_spec settings now p :
  determine_recovery_refusal p (local_snapshot_of settings now p) = None <->
  aged_out_conditions settings now p = true.
Proof.
  unfold determine_recovery_refusal. cbn. unfold aged_out_conditions.
  destruct (bool_decide_reflect (status p = MANUAL_REVIEW)) as [E|E]; [by rewrite E|].
  destruct (bool_decide_reflect (status p = LINK_CREATED)) as [El|El]; cbn.
  2:{ by destruct (verified_status _ || _). }
  rewrite El. cbn. destruct (gateway_verified_at p); cbn; [done|].
  destruct (aged_out_age_condition settings now p); cbn; [done|].
  by repeat case_match.
Qed.

Lemma aged_out_settleable settings now p : aged_out_conditions settings now p = true -> settleable p.
Proof.
  unfold aged_out_conditions, settleable. intros H. bool_to_prop. rewrite H. done.
Qed.

(** The outcome reported for the end of a settlement. *)
Definition recovery_result (o : Res SettlementOutcome) : option RecoveryOutcome :=
  match o with
  | Ret s => Some (mkRecoveryOutcome (fst (settled_kind s)) (Some true) false None None)
  | Raise (Bridge b) =>
      let c := error_class b in
      Some (mkRecoveryOutcome RECOVERY_TRANSPORT_FAILED (fst (request_performed c))
              (snd (request_performed c)) None (Some (error_code c)))
  | Raise _ => None
  end.

Section RecoveryFacts.
Context {ENV : Env} {RELY : Rely}.

(** What an attempt to settle [row], locked in the database [d], comes to. *)
Inductive attempted (settings : Settings) (d : Db) (row : Payment) (snapshot : RecoverySnapshot) (w' : World)
  : Res (option (RecoverySnapshot * RecoveryOutcome)) -> Prop :=
  | attempt_crashed cls :
      replied (centralpay_verify_api_key settings) (gateway_order_id row) (GatewayCrash cls) ->
      attempted settings d row snapshot w' (Raise (Unexpected cls))
  | attempt_settled reply o row' d2 m outcome :
      replied (centralpay_verify_api_key settings) (gateway_order_id row) reply ->
      settlement d row (verify_answer reply) o row' ->
      payments d2 = <[id row := row']> (payments d) ->
      payments (committed w') = payments (others m d2) ->
      recovery_result o = Some outcome ->
      attempted settings d row snapshot w' (Ret (Some (snapshot, outcome))).

(** What a recovery of [row] comes to, when the lock was granted at [now]. *)
Inductive recovery (settings : Settings) (d : Db) (row : Payment) (now : Z) (w w' : World)
    (r : Res (option (RecoverySnapshot * RecoveryOutcome))) : Prop :=
  | recovery_refused refused :
      aged_out_conditions settings now row = false ->
      determine_recovery_refusal row (local_snapshot_of settings now row) = Some refused ->
      calls w' = calls w -> payments (committed w') = payments d ->
      r = Ret (Some (recovery_snapshot row (local_snapshot_of settings now row),
                     mkRecoveryOutcome RECOVERY_REFUSED (Some false) false (Some refused) None)) ->
      recovery settings d row now w w' r
  | recovery_attempted :
      aged_out_conditions settings now row = true ->
      calls w' = verify_request (centralpay_verify_api_key settings) (gateway_order_id row) :: calls w ->
      attempted settings d row (recovery_snapshot row (local_snapshot_of settings now row)) w' r ->
      recovery settings d row now w w' r.

(** The marker, in a transaction of its own. *)
Lemma wp_mark {A} w0 w p event level data (a : A) (Q : Res A -> World -> Prop) :
  steady w0 w -> committed w = working w ->
  (forall w' m, steady w0 w' -> calls w' = calls w ->
     payments (committed w') = payments (others m (committed w)) -> Q (Ret a) w') ->
  wp (begin_tx ;;; mark_attempt p event level data ;;; ret a) Q w.
Proof.
  intros S Hc HQ. apply wp_bind, wp_begin_tx. intros w1 B. destruct (bg_committed _ _ B) as [m Em].
  unfold mark_attempt. do 2 apply wp_bind. apply wp_record_event. intros w2 A2.
  apply wp_commit. intros w3 C. apply wp_ret, (HQ _ m).
  - pose proof (steady_began _ _ B (eq_sym Hc) (proj1 S)) as S1.
    pose proof (steady_audited _ _ _ A2 (proj1 S1)) as S2.
    pose proof (steady_commit _ _ C (proj1 S2)) as S3.
    exact (steady_trans _ _ _ S (steady_trans _ _ _ S1 (steady_trans _ _ _ S2 S3))).
  - rewrite (cm_calls _ _ C), (au_calls _ _ _ A2), (bg_calls _ _ B). done.
  - rewrite (cm_committed _ _ C), (au_payments _ _ _ A2), (bg_working _ _ B), Em. done.
Qed.

Lemma wp_attempt_recovery settings w0 w1 es row snapshot w :
  holding w0 w1 [] es row row w -> settleable row ->
  wp (attempt_recovery settings row snapshot) (fun r w' => steady w0 w' /\
    calls w' = verify_request (centralpay_verify_api_key settings) (gateway_order_id row) :: calls w1 /\
    attempted settings (working w1) row snapshot w' r) w.
Proof.
  intros HO Hset. unfold attempt_recovery.
  apply wp_bind, wp_try, wp_bind, (wp_verify_and_settle _ _ _ _ HO Hset eq_refl).
  { intros cls w' Hreply HO'. apply wp_raise. split_and!; [apply HO'|apply HO'|].
    constructor. by eexists. }
  intros o row' es' w4 Hst _ [S E P Hcalls _]. rewrite (settlement_id _ _ _ _ _ Hst) in P.
  set (reply := verify_reply w _ _) in *.
  assert (Hrep : replied (centralpay_verify_api_key settings) (gateway_order_id row) reply) by (by eexists).
  assert (Hmark : forall event level data outcome, recovery_result o = Some outcome ->
    wp (begin_tx ;;; mark_attempt row event level data ;;; ret (Some (snapshot, outcome)))
      (fun r w' => steady w0 w' /\
        calls w' = verify_request (centralpay_verify_api_key settings) (gateway_order_id row) :: calls w1 /\
        attempted settings (working w1) row snapshot w' r) w4).
  { intros event level data outcome Ho. apply (wp_mark w0); [done|done|]. intros w' m S' Hc' Hp'.
    split_and!; [done|by rewrite Hc'|]. by apply (attempt_settled _ _ _ _ _ reply o row' (committed w4) m). }
  destruct o as [o|e].
  - apply wp_ret. specialize (Hmark (snd (settled_kind o)) "info" [] _ eq_refl).
    by destruct (settled_kind o).
  - assert (Hb : exists b, e = Bridge b /\ is_CentralPayError (error_class b) = true).
    { clearbody reply. inversion Hst as [b Ea| | |]; subst. exists b. split; [done|].
      by destruct (verify_answer_error _ _ (eq_sym Ea)) as [(cls & ? & _)|(b' & [= <-] & ?)]. }
    destruct Hb as (b & -> & ->). apply wp_ret. specialize (Hmark "aged_out_recovery_transport_failed"
      "error" [("error_code", JStr (error_code (error_class b)))] _ eq_refl). cbn in Hmark.
    by destruct (request_performed _).
Qed.

Lemma wp_execute_confirmed_recovery settings pid w :
  sound w -> committed w = working w ->
  wp (execute_confirmed_recovery pid settings) (fun r w' => steady w w' /\
    exists n, let d := others n (committed w) in
    match payments d !! pid with
    | None => r = Ret None /\ calls w' = calls w /\ committed w' = d
    | Some row => exists now, recovery settings d row now w w' r
    end) w.
Proof.
  intros Hs Hc. unfold execute_confirmed_recovery. apply wp_bind, wp_begin_tx. intros w1 B.
  assert (S1 : steady w w1) by (by eapply steady_began). destruct (bg_committed _ _ B) as [n En].
  pose proof (ok_keyed _ (so_working _ (proj1 S1))) as K1.
  assert (Ed : working w1 = others n (committed w)) by (rewrite (bg_working _ _ B); exact En).
  apply wp_bind, wp_get_db. rewrite Ed.
  destruct (payments (others n (committed w)) !! pid) as [row|] eqn:Hrow; cbn [is_none].
  2:{ apply wp_ret. split; [done|]. exists n. cbv zeta. rewrite Hrow. split_and!; [done|by ws|done]. }
  apply wp_bind, wp_utcnow. intros now w2 T.
  assert (S2 : steady w w2) by (eapply steady_trans; [exact S1|eapply steady_called; [exact T|apply S1]]).
  rewrite <- Ed in Hrow. pose proof (K1 pid row Hrow) as <-.
  rewrite <- (ca_working _ _ _ T) in Hrow. apply wp_bind. unfold build_local_snapshot.
  apply wp_bind, wp_select_by_id. rewrite Hrow. intros w3 A. apply wp_ret.
  apply (holding_start w w2 true (id row) _ _ S2 Hrow) in A. change (object_of w2 true row) with row in *.
  assert (Ec2 : calls w2 = calls w) by (rewrite (ca_calls _ _ _ T); by ws).
  assert (Ed2 : working w2 = others n (committed w)) by (by rewrite (ca_working _ _ _ T)).
  rewrite Ed2 in Hrow. do 2 hold_step.
  eapply (wp_mono _ (fun r w' => steady w w' /\ recovery settings (working w2) row now w w' r)).
  2:{ intros r w' [S R]. rewrite Ed2 in R. split; [done|]. exists n. cbv zeta. rewrite Hrow. by exists now. }
  destruct (determine_recovery_refusal row _) as [refused|] eqn:Er.
  - unfold mark_attempt. do 3 hold_step. apply wp_commit. intros w5 C.
    apply (holding_commit w w2 A) in C as [S E P Hcalls _]. apply wp_ret. split; [done|].
    apply (recovery_refused _ _ _ _ _ _ _ refused); [|done|by rewrite Hcalls| |done].
    + apply not_true_iff_false. rewrite <- recovery_refusal_spec. congruence.
    + rewrite P, insert_id; [done|]. by rewrite Ed2.
  - apply recovery_refusal_spec in Er. pose proof (aged_out_settleable _ _ _ Er) as Hset.
    eapply wp_mono; [by apply (wp_attempt_recovery _ _ _ _ _ _ _ A Hset)|].
    intros r w' (S & Hcalls & At). split; [done|]. apply recovery_attempted; [done|by rewrite Hcalls, Ec2|done].
Qed.

(** C20: An operator's recovery settles a payment only if it is aged out under
    the row lock. With the row as the lock protects it: unless it is in the
    worker's own aged-out tier, the command refuses, sends nothing and changes
    no payment; if it is, exactly one verification of this payment's order is
    sent, and the gateway's answer makes of it what settlement would, no
    other payment changing; the answer reports what happened, and that it is
    unknown whether the request was sent only for a connection failure. *)
Theorem recovery_settles_only_aged_out settings pid w :
  sound w -> committed w = working w ->
  wp (execute_confirmed_recovery pid settings) (fun r w' => steady w w' /\
    exists n, let d := others n (committed w) in
    match payments d !! pid with
    | None => r = Ret None /\ calls w' = calls w /\ committed w' = d
    | Some row => exists now, recovery settings d row now w w' r
    end) w.
Proof.
  intros Hs Hc. eapply wp_mono; [by apply wp_execute_confirmed_recovery|]. intros r w' [S [n H]].
  split; [exact S|]. by exists n.
Qed.
End RecoveryFacts.

(** ** Witness *)

(** The link of [example_payment] was issued more than a day ago; the payment
    turns out to be paid. *)
Definition aged_world : World := world_of (db_of [example_payment]).

Lemma recovery_settles_only_aged_out_witness :
  (exists snapshot, fst (@execute_confirmed_recovery paid_env 1 default_settings aged_world)
     = Ret (Some (snapshot, mkRecoveryOutcome RECOVERY_VERIFIED (Some true) false None None))) /\
  wp (@execute_confirmed_recovery paid_env 1 default_settings) (fun r w' =>
    exists now, @recovery paid_env default_settings (db_of [example_payment]) example_payment now
                  aged_world w' r) aged_world.
Proof.
  split; [eexists; vm_compute; reflexivity|].
  assert (Hs : sound aged_world) by (apply sound_example; vm_compute; reflexivity).
  eapply wp_mono; [exact (@recovery_settles_only_aged_out paid_env _ default_settings 1 aged_world Hs eq_refl)|].
  intros r w' [_ [n R]]. cbv zeta in R. change (others n (committed aged_world)) with (db_of [example_payment]) in R.
  assert (E : payments (db_of [example_payment]) !! 1 = Some example_payment) by (vm_compute; reflexivity).
  rewrite E in R. exact R.
Defined.
