(* ===== verification/Reviews.v ===== *)
(** Manual reviews: the single-payment commands of [_cmd_review]
    ([app/ops.py]) and the all-or-nothing bulk resolution
    ([app/services/review_resolution.py]).

    A resolution is an operational record: it never changes the status, the
    money or the verification of a payment. *)

From S2P Require Import Prelude PyText Exceptions Config Models Session AuditTrail Ledger.
From S2P Require Import Bot Notification Resend Verification Reconciliation Inspect.

(** ** One payment *)

Inductive ReviewMutation :=
  | ReviewAcknowledge (note : string)
  | ReviewResolve (resolution note : string)
  | ReviewResend.

Inductive ReviewCommand := ReviewShow | ReviewMutate (m : ReviewMutation).

Inductive ReviewReply :=
  | ReviewNotFound
  | ReviewShown (p : Payment)
  | NotInManualReview (st : PaymentStatus)
  | Acknowledged (p : Payment)
  | Resolved (p : Payment)
  | ResendSafeModeRefused
  | ResendUnverifiedRefused
  | Requeued (p : Payment).

Definition resolve_row (resolution : string) (now : Z) (p r : Payment) : Payment :=
  r <| review_acknowledged_at :=
         match review_acknowledged_at p with Some t => Some t | None => Some now end |>
    <| review_resolved_at := Some now |> <| review_resolution := Some resolution |>.

Definition NOTE_MAX_LENGTH : nat := 500.
Definition ACTOR_MAX_LENGTH : nat := 128.

Section Commands.
Context `{Env}.

(** A mutating command on a payment under review. *)
Definition mutate_review (settings : Settings) (now : Z) (p : Payment) (m : ReviewMutation) : M ReviewReply :=
  match m with
  | ReviewAcknowledge note =>
      let* p := upd p (fun r => r <| review_acknowledged_at := Some now |>) in
      record_event (Some (id p)) "manual_review_acknowledged" "info"
        [("note", JStr (str_take NOTE_MAX_LENGTH note)); ("operator", JStr "host-cli")] ;;;
      commit ;;;
      ret (Acknowledged p)
  | ReviewResolve resolution note =>
      let* p := upd p (resolve_row resolution now p) in
      record_event (Some (id p)) "manual_review_resolved" "info"
        [("resolution", JStr resolution); ("note", JStr (str_take NOTE_MAX_LENGTH note));
         ("operator", JStr "host-cli")] ;;;
      commit ;;;
      ret (Resolved p)
  | ReviewResend =>
      if negb (bool_decide (bot_notify_retry_mode settings = idempotent)) then
        rollback ;;; ret ResendSafeModeRefused
      else if is_none (gateway_verified_at p) then
        rollback ;;; ret ResendUnverifiedRefused
      else
        let previous_reason := bot_notify_reason p in
        let* p := upd p (requeue_columns p now) in
        record_event (Some (id p)) "manual_review_resend_requested" "warning"
          [("operator", JStr "host-cli"); ("previous_reason", jstr_opt previous_reason);
           ("retry_mode", JStr (retry_mode_value (bot_notify_retry_mode settings)))] ;;;
        commit ;;;
        ret (Requeued p)
  end.

Definition cmd_review (settings : Settings) (order_id : string) (command : ReviewCommand)
  : M ReviewReply :=
  let* found := load_review_payment order_id in
  match found, command with
  | None, _ => ret ReviewNotFound
  | Some p, ReviewShow => rollback ;;; ret (ReviewShown p)
  | Some p, ReviewMutate m =>
      if negb (bool_decide (status p = MANUAL_REVIEW)) then
        rollback ;;; ret (NotInManualReview (status p))
      else
        let* now := utcnow in
        mutate_review settings now p m
  end.
End Commands.

(** ** Bulk resolution *)

Definition MAX_BULK_SIZE : nat := 100.

Definition RESOLUTIONS_REQUIRING_GATEWAY_VERIFIED : list string :=
  ["confirmed_by_bot_operator"; "duplicate_notification_confirmed_safe"].

Inductive BulkReviewRefusal :=
  | NOT_FOUND | AMBIGUOUS_ORDER_ID | NOT_MANUAL_REVIEW | ALREADY_RESOLVED
  | FINANCIAL_REVIEW_REQUIRES_INDIVIDUAL_RESOLUTION | DELIVERY_REASON_NOT_BULK_ELIGIBLE
  | REQUIRES_GATEWAY_VERIFIED | DUPLICATE_ORDER_ID | MIXED_VERIFICATION_SET
  | BATCH_TOO_LARGE | EMPTY_BATCH.

#[export] Instance BulkReviewRefusal_eq_dec : EqDecision BulkReviewRefusal.
Proof. solve_decision. Defined.

Record BulkReviewRow := mkBulkReviewRow {
  row_order_id : string;
  row_payment_id : option Z;
  row_bot_order_id : option string;
  row_status : option PaymentStatus;
  row_gateway_verified : option bool;
  row_amount : option Z;
  row_bot_notify_reason : option string;
  row_refusal : option BulkReviewRefusal
}.

Record BulkReviewReport := mkBulkReviewReport {
  report_rows : list BulkReviewRow;
  set_refusal : option BulkReviewRefusal;
  report_resolution : string
}.

Definition rows_pass (rows : list BulkReviewRow) : bool :=
  forallb (fun r => is_none (row_refusal r)) rows.

(** [BulkReviewReport.eligible]. *)
Definition report_eligible (report : BulkReviewReport) : bool :=
  is_none (set_refusal report) && rows_pass (report_rows report).

Record BulkReviewResult := mkBulkReviewResult {
  resolved : bool;
  resolved_count : Z;
  report : BulkReviewReport
}.

Definition refuse_reason (p : Payment) (resolution : string) : option BulkReviewRefusal :=
  if negb (bool_decide (status p = MANUAL_REVIEW)) then Some NOT_MANUAL_REVIEW
  else if is_some (review_resolved_at p) then Some ALREADY_RESOLVED
  else if is_none (bot_notify_reason p) then Some FINANCIAL_REVIEW_REQUIRES_INDIVIDUAL_RESOLUTION
  else if negb (resend_reason p) then Some DELIVERY_REASON_NOT_BULK_ELIGIBLE
  else if existsb (String.eqb resolution) RESOLUTIONS_REQUIRING_GATEWAY_VERIFIED &&
          is_none (gateway_verified_at p) then Some REQUIRES_GATEWAY_VERIFIED
  else None.

Definition payment_row (order_id : string) (p : Payment) (refusal : option BulkReviewRefusal)
  : BulkReviewRow :=
  mkBulkReviewRow order_id (Some (id p)) (Some (bot_order_id p)) (Some (status p))
    (Some (is_some (gateway_verified_at p))) (Some (amount p)) (bot_notify_reason p) refusal.

(** [_row_for]. *)
Definition row_for (resolution order_id : string) (p : Payment) : BulkReviewRow :=
  payment_row order_id p (refuse_reason p resolution).

Definition blank_row (order_id : string) (refusal : BulkReviewRefusal) : BulkReviewRow :=
  mkBulkReviewRow order_id None None None None None None (Some refusal).

(** [_set_refusal]: more than one value among the verification flags. *)
Definition set_refusal_of (rows : list BulkReviewRow) : option BulkReviewRefusal :=
  match map row_gateway_verified rows with
  | [] => None
  | v :: vs => if forallb (fun v' => bool_decide (v' = v)) vs then None else Some MIXED_VERIFICATION_SET
  end.

Definition report_of (resolution : string) (rows : list BulkReviewRow) : BulkReviewReport :=
  mkBulkReviewReport rows (if rows_pass rows then set_refusal_of rows else None) resolution.

(** The loop of [build_report]. *)
Fixpoint build_rows (resolution : string) (seen : list string) (seen_ids : list Z)
    (order_ids : list string) : M (list BulkReviewRow) :=
  match order_ids with
  | [] => ret []
  | oid :: rest =>
      if existsb (String.eqb oid) seen then
        let* rows := build_rows resolution seen seen_ids rest in
        ret (blank_row oid DUPLICATE_ORDER_ID :: rows)
      else
        let seen := oid :: seen in
        let* found := try_catch (let* p := find_payment_by_order_id oid in ret (inl p))
          (fun e => if is_ambiguous e then ret (inr tt) else raise e) in
        match found with
        | inr _ =>
            let* rows := build_rows resolution seen seen_ids rest in
            ret (blank_row oid AMBIGUOUS_ORDER_ID :: rows)
        | inl None =>
            let* rows := build_rows resolution seen seen_ids rest in
            ret (blank_row oid NOT_FOUND :: rows)
        | inl (Some p) =>
            if existsb (Z.eqb (id p)) seen_ids then
              let* rows := build_rows resolution seen seen_ids rest in
              ret (payment_row oid p (Some DUPLICATE_ORDER_ID) :: rows)
            else
              let* rows := build_rows resolution seen (id p :: seen_ids) rest in
              ret (row_for resolution oid p :: rows)
        end
  end.

Definition build_report (order_ids : list string) (resolution : string) : M BulkReviewReport :=
  match order_ids with
  | [] => ret (mkBulkReviewReport [] (Some EMPTY_BATCH) resolution)
  | _ =>
      if (MAX_BULK_SIZE <? length order_ids)%nat then
        ret (mkBulkReviewReport [] (Some BATCH_TOO_LARGE) resolution)
      else
        let* rows := build_rows resolution [] [] order_ids in
        ret (report_of resolution rows)
  end.

Definition preview_bulk_resolution (order_ids : list string) (resolution : string) : M BulkReviewReport :=
  let* report := build_report order_ids resolution in
  rollback ;;;
  ret report.

(** The check of a listed row against the locked payments. *)
Definition recheck_row (resolution : string) (locked : list Payment) (row : BulkReviewRow) : BulkReviewRow :=
  let payment :=
    match row_payment_id row with
    | Some i => List.find (fun p => id p =? i) locked
    | None => None
    end in
  match payment with
  | Some p => row_for resolution (row_order_id row) p
  | None => mkBulkReviewRow (row_order_id row) (row_payment_id row) (row_bot_order_id row) None None None
              None (Some NOT_FOUND)
  end.

Section Bulk.
Context `{Env}.

Definition resolve_one (resolution note actor : string) (now : Z) (batch_size : nat) (p : Payment) : M unit :=
  let* p := upd p (resolve_row resolution now p) in
  record_event (Some (id p)) "manual_review_resolved" "info"
    [("resolution", JStr resolution); ("note", JStr note); ("operator", JStr actor);
     ("bulk", JBool true); ("batch_size", JInt (Z.of_nat batch_size))].

Definition resolve_reviews (order_ids : list string) (resolution note actor : string) (now : Z)
  : M BulkReviewResult :=
  let* first := build_report order_ids resolution in
  if negb (report_eligible first) then rollback ;;; ret (mkBulkReviewResult false 0 first)
  else
    let payment_ids := omap row_payment_id (report_rows first) in
    begin_tx ;;;
    let* d := get_db in
    let* locked := attach_all true
      (sort_by (fun p q => id p <=? id q) (payments_where (fun p => existsb (Z.eqb (id p)) payment_ids) d)) in
    let recheck := report_of resolution (map (recheck_row resolution locked) (report_rows first)) in
    if negb (report_eligible recheck) then rollback ;;; ret (mkBulkReviewResult false 0 recheck)
    else
      let safe_note := str_take NOTE_MAX_LENGTH (strip note) in
      let safe_actor := str_take ACTOR_MAX_LENGTH (strip actor) in
      for_each (resolve_one resolution safe_note safe_actor now (length locked)) locked ;;;
      record_event None "manual_review_bulk_resolved" "warning"
        [("resolution", JStr resolution); ("note", JStr safe_note); ("operator", JStr safe_actor);
         ("resolved_count", JInt (Z.of_nat (length locked)));
         ("order_ids", JList (map (fun p => JStr (bot_order_id p)) locked))] ;;;
      commit ;;;
      ret (mkBulkReviewResult true (Z.of_nat (length locked)) recheck).
End Bulk.

(** ** Facts: one payment *)

Lemma legal_acknowledge t row : row_legal row (row <| review_acknowledged_at := t |>).
Proof. by row_legal_tac. Qed.

Lemma legal_resolve resolution now p row : row_legal row (resolve_row resolution now p row).
Proof. by row_legal_tac. Qed.


Section ReviewFacts.
Context {ENV : Env} {RELY : Rely}.

Lemma wp_load_review_payment oid (Q : Res (option Payment) -> World -> Prop) w :
  sound w -> committed w = working w -> identity_map w = ∅ ->
  (forall n r w', steady w w' -> committed w' = others n (committed w) -> working w' = committed w' ->
     clean w' -> calls w' = calls w ->
     match r with
     | Ret (Some p) => payments (working w') !! id p = Some p
     | _ => True
     end -> Q r w') ->
  wp (load_review_payment oid) Q w.
Proof.
  intros Hs Hc Hm HQ. unfold load_review_payment. apply wp_bind, wp_begin_tx. intros w1 B.
  pose proof (steady_began _ _ B (eq_sym Hc) Hs) as S1. destruct (bg_committed _ _ B) as [n En].
  assert (K1 : keyed id (payments (working w1))) by apply (so_working _ (proj1 S1)).
  assert (C1 : clean w1) by (apply clean_empty; by rewrite (bg_map _ _ B)).
  assert (Hend : forall r w', looked w1 w' -> match r with
     | Ret (Some p) => payments (working w') !! id p = Some p | _ => True end -> Q r w').
  { intros r w' [E1 E2 E3 E4] Hr. apply (HQ n); try done.
    - eapply steady_trans; [exact S1|]. by apply steady_looked; [apply S1|split].
    - congruence.
    - rewrite E1, E2. apply (bg_working _ _ B).
    - rewrite E3. apply (bg_calls _ _ B). }
  assert (Hrefl : looked w1 w1) by (by split).
  apply wp_bind, wp_select_clean; [done|done| |].
  - intros _. destruct (negb (isdigit oid)); [by apply wp_ret, Hend|].
    apply wp_bind. unfold py_int. case_match; [|by apply wp_raise, Hend].
    apply wp_ret, wp_select_clean; [done|done|by intros _; apply Hend|].
    intros row w' Hr _ L. apply Hend; [done|]. by rewrite (lk_working _ _ L).
  - intros row w' Hr _ L. apply wp_ret, Hend; [done|]. by rewrite (lk_working _ _ L).
Qed.

(** What the mutation [m] of the payment [p], held in the database [d], comes to. *)
Definition mutation_effect (settings : Settings) (now : Z) (m : ReviewMutation) (p : Payment) (d : Db)
    (r : Res ReviewReply) (d' : Db) : Prop :=
  let changed event p' := payments d' = <[id p := p']> (payments d) /\ trail d' = event :: trail d in
  match m, r with
  | ReviewAcknowledge _, Ret (Acknowledged p') =>
      p' = p <| review_acknowledged_at := Some now |> /\ changed "manual_review_acknowledged" p'
  | ReviewResolve resolution _, Ret (Resolved p') =>
      p' = resolve_row resolution now p p /\ changed "manual_review_resolved" p'
  | ReviewResend, Ret (Requeued p') =>
      p' = requeued_row now p /\ changed "manual_review_resend_requested" p' /\
      bot_notify_retry_mode settings = idempotent /\ is_some (gateway_verified_at p) = true
  | ReviewResend, Ret ResendSafeModeRefused =>
      payments d' = payments d /\ bot_notify_retry_mode settings = safe
  | ReviewResend, Ret ResendUnverifiedRefused => payments d' = payments d /\ gateway_verified_at p = None
  | _, _ => False
  end.

Lemma wp_mutate_review settings now m p w0 w1 w :
  holding w0 w1 [] [] p p w -> status p = MANUAL_REVIEW -> committed w1 = working w1 ->
  wp (mutate_review settings now p m) (fun r w' => steady w0 w' /\ calls w' = calls w1 /\
    mutation_effect settings now m p (working w1) r (committed w')) w.
Proof.
  intros HO Hst Hc. destruct m as [note|resolution note|]; cbn [mutate_review].
  - apply wp_bind, wp_upd. intros wu U.
    apply (holding_updated w0 w1 HO) in U; [|apply legal_acknowledge|by split|done].
    clear HO. do 4 hold_step. apply wp_ret. destruct U as [S E P C T]. split_and!; [done|by rewrite C|].
    split; [done|]. by split.
  - apply wp_bind, wp_upd. intros wu U.
    apply (holding_updated w0 w1 HO) in U; [|apply legal_resolve|by split|done].
    clear HO. do 4 hold_step. apply wp_ret. destruct U as [S E P C T]. split_and!; [done|by rewrite C|].
    split; [done|]. by split.
  - destruct (bool_decide_reflect (bot_notify_retry_mode settings = idempotent)) as [Hi|Hi]; cbn [negb].
    2:{ apply wp_bind, wp_rollback. intros w2 R. apply wp_ret.
        destruct (holding_rollback w0 w1 HO _ R) as (S & E & _ & C). split_and!; [done|by rewrite C|].
        cbn. rewrite E, Hc. split; [done|]. by destruct (bot_notify_retry_mode settings). }
    destruct (gateway_verified_at p) as [t|] eqn:Hv; cbn [is_none].
    2:{ apply wp_bind, wp_rollback. intros w2 R. apply wp_ret.
        destruct (holding_rollback w0 w1 HO _ R) as (S & E & _ & C). split_and!; [done|by rewrite C|].
        cbn. by rewrite E, Hc. }
    assert (Hv' : is_some (gateway_verified_at p) = true) by (by rewrite Hv).
    apply wp_bind, wp_upd. intros wu U.
    apply (holding_updated w0 w1 HO) in U; [|by apply legal_requeue_verified|by split|done].
    clear HO. rewrite requeue_fresh in *. do 4 hold_step. apply wp_ret. destruct U as [S E P C T].
    split_and!; [done|by rewrite C|]. split; [done|]. by split_and!.
Qed.

Lemma wp_cmd_review settings oid command w :
  sound w -> committed w = working w -> identity_map w = ∅ ->
  wp (cmd_review settings oid command) (fun r w' =>
    steady w w' /\ calls w' = calls w /\ exists n, let d := others n (committed w) in
    committed w' = d \/
    exists p m now, command = ReviewMutate m /\ payments d !! id p = Some p /\ status p = MANUAL_REVIEW /\
      mutation_effect settings now m p d r (committed w')) w.
Proof.
  intros Hs Hc Hm. unfold cmd_review. apply wp_bind, wp_load_review_payment; [done..|].
  intros n r w1 S1 E1 F1 C1 Ecalls Hr.
  assert (Hnone : forall w', steady w1 w' -> calls w' = calls w1 -> committed w' = committed w1 ->
    forall r, steady w w' /\ calls w' = calls w /\ exists n, let d := others n (committed w) in
    committed w' = d \/
    exists p m now, command = ReviewMutate m /\ payments d !! id p = Some p /\ status p = MANUAL_REVIEW /\
      mutation_effect settings now m p d r (committed w')).
  { intros w' S' C' E' r'. split_and!; [by eapply steady_trans|congruence|]. exists n. left. congruence. }
  pose proof (steady_refl w1 (proj1 S1)) as Srefl.
  assert (Hroll : forall A (a : A) Q, (forall w', steady w1 w' -> calls w' = calls w1 ->
    committed w' = committed w1 -> Q (Ret a) w') -> wp (rollback ;;; ret a) Q w1).
  { intros A a Q HQ. apply wp_bind, wp_rollback. intros w2 R. apply wp_ret, HQ.
    - by eapply steady_rollback; [|apply S1].
    - apply (rb_calls _ _ R).
    - apply (rb_committed _ _ R). }
  destruct r as [[p|]|e]; [|by apply wp_ret, Hnone|by apply Hnone].
  destruct command as [|m]; [apply Hroll; auto|].
  destruct (bool_decide_reflect (status p = MANUAL_REVIEW)) as [Hst|Hst]; cbn [negb]; [|apply Hroll; auto].
  apply wp_bind, wp_utcnow. intros now w2 T.
  pose proof (steady_called _ _ _ T (proj1 S1)) as S2.
  assert (Hp2 : payments (working w2) !! id p = Some p) by (by rewrite (ca_working _ _ _ T)).
  assert (HO : holding w1 w2 [] [] p p w2).
  { split; try done. by rewrite insert_id. }
  eapply wp_mono; [apply (wp_mutate_review settings now m p w1 w2); [exact HO|exact Hst|]|].
  { by rewrite (ca_committed _ _ _ T), (ca_working _ _ _ T), F1. }
  intros r w' (S3 & C3 & Hend). split_and!.
  - by eapply steady_trans.
  - rewrite C3, (ca_calls _ _ _ T). done.
  - exists n. cbv zeta. rewrite <- E1, <- F1, <- (ca_working _ _ _ T). right. by exists p, m, now.
Qed.

(** What the single-payment review commands may do. Each of them works
    on one payment, found under review under its lock: [acknowledge] and
    [resolve] write review columns only, [resend] queues the delivery again
    and is granted only in idempotent mode for a verified payment. The event
    is recorded in the same commit; in every other case no payment changes.
    Nothing is ever sent. *)
Theorem review_command_effects settings oid command w :
  sound w -> committed w = working w -> identity_map w = ∅ ->
  wp (cmd_review settings oid command) (fun r w' =>
    steady w w' /\ calls w' = calls w /\ exists n, let d := others n (committed w) in
    committed w' = d \/
    exists p m now, command = ReviewMutate m /\ payments d !! id p = Some p /\ status p = MANUAL_REVIEW /\
      mutation_effect settings now m p d r (committed w')) w.
Proof.
  intros Hs Hc Hm. eapply wp_mono; [by apply wp_cmd_review|]. intros r w' (S & C & n & H).
  split; [exact S|]. split; [exact C|]. by exists n.
Qed.

(** ** Facts: bulk resolution *)

(** A row of the report that passed, for the payment [p]. *)
Definition passes (resolution : string) (d : Db) (oid : string) (p : Payment) : Prop :=
  payments d !! id p = Some p /\ named_by oid p /\ refuse_reason p resolution = None.

(** The rows of a report that passed throughout: one payment per order id,
    none of them twice. *)
Definition passing_rows (resolution : string) (seen_ids : list Z) (d : Db) (oids : list string)
    (rows : list BulkReviewRow) (ps : list Payment) : Prop :=
  rows = zip_with (row_for resolution) oids ps /\ Forall2 (passes resolution d) oids ps /\
  NoDup (map id ps) /\ forall p, In p ps -> ~ In (id p) seen_ids.

Lemma wp_build_rows resolution seen seen_ids oids w :
  keyed id (payments (working w)) -> unique_orders (payments (working w)) ->
  unique_gateway_orders (payments (working w)) -> clean w ->
  wp (build_rows resolution seen seen_ids oids) (fun r w' => looked w w' /\
    forall rows, r = Ret rows -> rows_pass rows = true ->
      exists ps, passing_rows resolution seen_ids (working w) oids rows ps) w.
Proof.
  revert seen seen_ids w. induction oids as [|oid oids IH]; intros seen seen_ids w K UO UG C; cbn [build_rows].
  { apply wp_ret. split; [by split|]. intros rows [= <-] _. exists []. split_and!; [done|done|constructor|done]. }
  assert (Hskip : forall refused seen seen_ids w1, looked w w1 -> is_none (row_refusal refused) = false ->
    wp (let* rows := build_rows resolution seen seen_ids oids in ret (refused :: rows)) (fun r w' =>
      looked w w' /\ forall rows, r = Ret rows -> rows_pass rows = true ->
        exists ps, passing_rows resolution seen_ids (working w) (oid :: oids) rows ps) w1).
  { intros refused seen' seen_ids' w1 L Href. apply wp_bind. eapply wp_mono.
    - apply (IH seen' seen_ids' w1); rewrite ?(lk_working _ _ L); [done..|apply L].
    - intros [rows|e] w2 [L2 _]; [apply wp_ret|]; (split; [by eapply looked_trans|]); [|done].
      intros rows' [= <-]. unfold rows_pass. cbn. by rewrite Href. }
  destruct (existsb (String.eqb oid) seen); [by apply Hskip|].
  apply wp_bind, wp_try, wp_bind. eapply wp_mono; [by apply wp_find_payment|].
  intros [found|e] w1 [L A].
  2:{ destruct (is_ambiguous e); [by apply wp_ret, Hskip|apply wp_raise]. by split. }
  apply wp_ret. destruct found as [p|]; [|by apply Hskip].
  destruct (existsb (Z.eqb (id p)) seen_ids) eqn:Eseen; [by apply Hskip|].
  apply wp_bind. eapply wp_mono.
  { apply (IH (oid :: seen) (id p :: seen_ids) w1); rewrite ?(lk_working _ _ L); [done..|apply L]. }
  intros [rows|e] w2 [L2 Hrows]; [apply wp_ret|]; (split; [by eapply looked_trans|]); [|done].
  intros rows' [= <-] Hpass. unfold rows_pass in Hpass. cbn in Hpass. apply andb_true_iff in Hpass as [Hr Hpass].
  rewrite (lk_working _ _ L) in Hrows. destruct (Hrows rows eq_refl Hpass) as (ps & -> & F & N & D).
  exists (p :: ps). inversion A as [|? Hp Hn _ E| |]; subst. split_and!.
  - done.
  - constructor; [|done]. split_and!; [done|done|]. by apply is_none_true.
  - cbn. constructor; [|done]. rewrite list_elem_of_In, in_map_iff. intros (q & Eq & Hq).
    apply (D q Hq). rewrite Eq. by left.
  - intros q [<-|Hq] Hin.
    + assert (E : existsb (Z.eqb (id p)) seen_ids = true); [|congruence].
      apply existsb_exists. exists (id p). split; [done|apply Z.eqb_refl].
    + apply (D q Hq). by right.
Qed.

(** The rows [SELECT ... WHERE id IN (ids) ORDER BY id] locks. *)
Definition locked_rows (ids : list Z) (d : Db) : list Payment :=
  sort_by (fun p q => id p <=? id q) (payments_where (fun p => existsb (Z.eqb (id p)) ids) d).

Lemma in_locked_rows ids d p : keyed id (payments d) ->
  In p (locked_rows ids d) <-> payments d !! id p = Some p /\ In (id p) ids.
Proof.
  intros K. unfold locked_rows. rewrite <- list_elem_of_In, sort_by_Permutation, list_elem_of_In.
  unfold payments_where. rewrite filter_In, in_rows, existsb_exists. split.
  - intros [[i Hi] (j & Hj & E)]. apply Z.eqb_eq in E as <-. by rewrite (K i p Hi) in *.
  - intros [Hp Hin]. split; [by exists (id p)|]. exists (id p). split; [done|apply Z.eqb_refl].
Qed.

Lemma locked_rows_NoDup ids d : keyed id (payments d) -> NoDup (map id (locked_rows ids d)).
Proof.
  intros K. unfold locked_rows. rewrite (Permutation_map id (sort_by_Permutation _ _)).
  unfold payments_where. pose proof (keyed_rows_NoDup id _ K) as N. revert N.
  induction (rows (payments d)) as [|p l IH]; [done|]. cbn. intros [Hni N]%NoDup_cons.
  destruct (existsb _ ids); [|auto]. cbn. constructor; [|auto].
  rewrite list_elem_of_In, in_map_iff in *. intros (q & E & [Hq _]%filter_In). apply Hni. by exists q.
Qed.

Lemma find_locked ids d i q : keyed id (payments d) -> payments d !! i = Some q -> In i ids ->
  List.find (fun p => id p =? i) (locked_rows ids d) = Some q.
Proof.
  intros K Hi Hin. pose proof (K i q Hi) as <-.
  destruct (List.find _ _) as [p|] eqn:E.
  - apply find_some in E as [[Hp _]%in_locked_rows E]; [|done]. apply Z.eqb_eq in E. rewrite E in Hp. congruence.
  - exfalso. assert (En : (id q =? id q) = false) by (apply (find_none _ _ E q); by apply in_locked_rows).
    by rewrite Z.eqb_refl in En.
Qed.

Lemma wp_resolve_one w0 w1 resolution note actor now n p row w :
  holding w0 w1 [] [] p row w ->
  wp (resolve_one resolution note actor now n p) (fun r w' => r = Ret tt /\ exists p' row' es,
    row' = resolve_row resolution now p row /\ id row' = id row /\ es = ["manual_review_resolved"] /\
    holding w0 w1 [] es p' row' w') w.
Proof.
  intros HO. unfold resolve_one. apply wp_bind, wp_upd. intros w2 U.
  apply (holding_updated w0 w1 HO) in U; [|apply legal_resolve|apply (ho_key _ _ _ _ _ _ _ HO)|done].
  clear HO. hold_step. split; [done|]. by eexists _, _, _.
Qed.

(** The locked payments [locked], all found eligible in [d], were resolved. *)
Record bulk_resolved (resolution : string) (now : Z) (locked : list Payment) (d d' : Db) : Prop := {
  bu_distinct : NoDup (map id locked);
  bu_rows : forall p, In p locked -> payments d !! id p = Some p /\ refuse_reason p resolution = None /\
    payments d' !! id p = Some (resolve_row resolution now p p);
  bu_other : forall i, ~ In i (map id locked) -> payments d' !! i = payments d !! i;
  bu_trail : trail d' = "manual_review_bulk_resolved" ::
                        repeat "manual_review_resolved" (length locked) ++ trail d
}.

(** From the lock to the commit. *)
Lemma wp_resolve_locked resolution note actor now n locked data result w0 w
    (Q : Res BulkReviewResult -> World -> Prop) :
  steady w0 w -> NoDup (map id locked) ->
  (forall p, In p locked -> payments (working w) !! id p = Some p /\ refuse_reason p resolution = None) ->
  (forall w', steady w0 w' -> calls w' = calls w ->
     bulk_resolved resolution now locked (working w) (committed w') -> Q (Ret result) w') ->
  wp (for_each (resolve_one resolution note actor now n) locked ;;;
      record_event None "manual_review_bulk_resolved" "warning" data ;;; commit ;;; ret result) Q w.
Proof.
  intros S N Hl HQ. set (objs := map (fun p : Payment => (p, p)) locked).
  assert (Hfst : map fst objs = locked) by (subst objs; rewrite map_map; apply map_id).
  assert (Hids : row_ids objs = map id locked) by (subst objs; unfold row_ids; by rewrite map_map).
  assert (Hin : forall p row, In (p, row) objs -> p = row /\ In row locked)
    by (intros p row (q & [= <- <-] & Hq)%in_map_iff; done).
  rewrite <- Hfst. apply wp_bind, (wp_for_each w0 _ (fun p row row' => row' = resolve_row resolution now p row)
    (fun _ es => es = ["manual_review_resolved"]) objs); [|done|by rewrite Hids| |].
  { intros w2 p row _ HO. by apply wp_resolve_one. }
  { intros p row [-> Hr]%Hin. split; [by apply Hl|apply same_key_refl]. }
  intros w2 S2 [Rc Ra Ro Rr (ls & Hls & Et)]. apply wp_bind, wp_record_event. intros w3 A.
  apply wp_bind, wp_commit. intros w4 C. apply wp_ret, HQ.
  - eapply steady_trans; [exact S2|]. pose proof (steady_audited _ _ _ A (proj1 S2)) as S3.
    eapply steady_trans; [exact S3|]. by eapply steady_commit; [|apply S3].
  - by rewrite (cm_calls _ _ C), (au_calls _ _ _ A).
  - split; [done|..].
    + intros p Hp. destruct (Hl p Hp) as [H1 H2]. split_and!; [done|done|].
      rewrite (cm_committed _ _ C), (au_payments _ _ _ A).
      destruct (Rr p p) as (row' & -> & _ & E); [by apply (in_map (fun q => (q, q)))|done].
    + intros i Hi. rewrite (cm_committed _ _ C), (au_payments _ _ _ A). apply Ro. by rewrite Hids.
    + rewrite (cm_committed _ _ C). unfold trail in *. rewrite (au_events _ _ _ A), map_app, trail_event by done.
      by rewrite Et, (constant_events _ _ _ Hls), Hfst.
Qed.

Lemma wp_build_report resolution oids w :
  keyed id (payments (working w)) -> unique_orders (payments (working w)) ->
  unique_gateway_orders (payments (working w)) -> clean w ->
  wp (build_report oids resolution) (fun r w' => looked w w' /\
    forall report, r = Ret report -> report_eligible report = true ->
      exists ps, passing_rows resolution [] (working w) oids (report_rows report) ps) w.
Proof.
  intros K UO UG C. assert (L : looked w w) by (by split). unfold build_report.
  destruct oids as [|oid oids]; [apply wp_ret; split; [done|by intros report [= <-]]|].
  destruct (_ <? _)%nat; [apply wp_ret; split; [done|by intros report [= <-]]|].
  apply wp_bind. eapply wp_mono; [by apply wp_build_rows|].
  intros [rows|e] w1 [L1 Hrows]; [apply wp_ret|]; (split; [done|]); [|done].
  intros report [= <-]. unfold report_eligible. intros [_ Hp]%andb_true_iff. by apply Hrows.
Qed.

Lemma passing_in resolution seen_ids d oids rows ps p :
  passing_rows resolution seen_ids d oids rows ps -> In p ps -> payments d !! id p = Some p.
Proof.
  intros (_ & F & _) Hp. induction F as [|oid q oids ps [Hq _] _ IH]; [done|].
  destruct Hp as [<-|Hp]; [done|by apply IH].
Qed.

(** The re-check under the lock, of a report that passed. *)
Lemma recheck_passes resolution d d0 oids rows ps :
  passing_rows resolution [] d0 oids rows ps -> keyed id (payments d) ->
  (forall p, In p ps -> is_Some (payments d !! id p)) ->
  let ids := omap row_payment_id rows in
  ids = map id ps /\
  (rows_pass (map (recheck_row resolution (locked_rows ids d)) rows) = true ->
   forall p, In p (locked_rows ids d) -> refuse_reason p resolution = None) /\
  map id (locked_rows ids d) ≡ₚ map id ps.
Proof.
  intros (-> & F & N & _) K Hex. cbv zeta.
  assert (Hids : omap row_payment_id (zip_with (row_for resolution) oids ps) = map id ps).
  { clear N Hex. induction F as [|oid p oids ps _ _ IH]; [done|]. cbn. by rewrite IH. }
  rewrite Hids. split; [done|]. split.
  - intros Hp p Hin. pose proof Hin as [Hl Hi]%in_locked_rows; [|done].
    apply in_map_iff in Hi as (q & Eq & Hq).
    assert (Hz : exists oid, In (row_for resolution oid q) (zip_with (row_for resolution) oids ps)).
    { clear - F Hq. induction F as [|oid p oids ps _ _ IH]; [done|]. destruct Hq as [->|Hq].
      - exists oid. by left.
      - destruct (IH Hq) as [oid' H]. exists oid'. by right. }
    destruct Hz as [oid Hz]. unfold rows_pass in Hp. rewrite forallb_forall in Hp.
    specialize (Hp _ (in_map _ _ _ Hz)). unfold recheck_row in Hp. cbn in Hp.
    rewrite Eq, (find_locked _ _ _ p K Hl) in Hp; [by apply is_none_true in Hp|].
    apply in_map_iff. eauto.
  - apply NoDup_Permutation; [by apply locked_rows_NoDup|done|]. intros i.
    rewrite !list_elem_of_In, !in_map_iff. split.
    + intros (p & <- & [_ Hin]%in_locked_rows); [|done]. by apply in_map_iff in Hin.
    + intros (q & <- & Hq). destruct (Hex q Hq) as [p Hp]. exists p. pose proof (K _ _ Hp) as E.
      split; [done|]. apply in_locked_rows; [done|]. rewrite E. split; [done|]. by apply in_map.
Qed.

Lemma wp_resolve_reviews oids resolution note actor now w :
  sound w -> committed w = working w -> identity_map w = ∅ ->
  wp (resolve_reviews oids resolution note actor now) (fun r w' => steady w w' /\ calls w' = calls w /\
    ((exists n result locked found, r = Ret result /\ resolved result = true /\
        resolved_count result = Z.of_nat (length oids) /\
        Forall2 (passes resolution (committed w)) oids found /\ map id locked ≡ₚ map id found /\
        bulk_resolved resolution now locked (others n (committed w)) (committed w')) \/
     ((forall result, r = Ret result -> resolved result = false) /\
      (committed w' = committed w \/ exists n, committed w' = others n (committed w))))) w.
Proof.
  intros Hs Hc Hm. pose proof (so_working w Hs) as Hok. unfold resolve_reviews.
  apply wp_bind. eapply wp_mono; [apply wp_build_report; [apply Hok|apply Hok|apply Hok|by apply clean_empty]|].
  intros [first|e] w1 [L1 Hfirst].
  2:{ split_and!; [by apply steady_looked|apply L1|]. right. split; [done|]. left. apply L1. }
  pose proof (steady_looked _ _ Hs L1) as S1.
  destruct (report_eligible first) eqn:Ef; cbn [negb].
  2:{ apply wp_bind, wp_rollback. intros w2 R. apply wp_ret. split_and!.
      - eapply steady_trans; [exact S1|]. by eapply steady_rollback; [|apply S1].
      - rewrite (rb_calls _ _ R). apply L1.
      - right. split; [by intros result [= <-]|]. left. rewrite (rb_committed _ _ R). apply L1. }
  destruct (Hfirst first eq_refl Ef) as [ps Hps].
  apply wp_bind, wp_begin_tx. intros w2 B. destruct (bg_committed _ _ B) as [n En].
  rewrite (lk_committed _ _ L1) in En.
  assert (Hc1 : working w1 = committed w1) by (destruct L1; congruence).
  pose proof (steady_began _ _ B Hc1 (proj1 S1)) as S2. pose proof (steady_trans _ _ _ S1 S2) as S12.
  pose proof (ok_keyed _ (so_working _ (proj1 S2))) as K2.
  assert (Hex : forall p, In p ps -> is_Some (payments (working w2) !! id p)).
  { intros p Hp. pose proof (passing_in _ _ _ _ _ _ _ Hps Hp) as Hp'.
    rewrite <- Hc in Hp'. rewrite (bg_working _ _ B).
    destruct (le_rows _ _ (proj2 S12) _ _ Hp') as (p' & E & _). eauto. }
  destruct (recheck_passes _ _ _ _ _ _ Hps K2 Hex) as (Hids & Hrecheck & Hperm).
  apply wp_bind, wp_get_db. fold (locked_rows (omap row_payment_id (report_rows first)) (working w2)).
  rewrite Hids in *. set (locked := locked_rows (map id ps) (working w2)) in *.
  assert (Hnd : NoDup (map id locked)) by (by apply locked_rows_NoDup).
  assert (Hl : forall p, In p locked -> payments (working w2) !! id p = Some p)
    by (intros p Hp; by apply in_locked_rows in Hp as [? _]).
  apply wp_bind, (wp_attach_all w); [done|done|done|]. intros w3 S3 Ew3 Ec3 Eq3.
  replace (map (object_of w2 true) locked) with locked by (symmetry; apply map_id).
  destruct (report_eligible (report_of _ _)) eqn:Er; cbn [negb].
  - apply (wp_resolve_locked _ _ _ _ _ locked _ _ w); [done|done| |].
    { intros p Hp. rewrite Ew3. split; [by apply Hl|]. apply Hrecheck; [|done].
      unfold report_eligible in Er. by apply andb_true_iff in Er as [_ Er]. }
    intros w4 S4 C4 R4. split_and!; [done|rewrite C4, Eq3, (bg_calls _ _ B); apply L1|]. left.
    eexists n, _, locked, ps. split_and!; [done|done| | |done|].
    + cbn. f_equal. destruct Hps as (_ & F & _). rewrite <- (length_map id locked), Hperm, length_map.
      symmetry. by apply Forall2_length in F.
    + rewrite Hc. apply Hps.
    + rewrite <- En, <- (bg_working _ _ B), <- Ew3. exact R4.
  - apply wp_bind, wp_rollback. intros w4 R. apply wp_ret. split_and!.
    + eapply steady_trans; [exact S3|]. by eapply steady_rollback; [|apply S3].
    + rewrite (rb_calls _ _ R), Eq3, (bg_calls _ _ B). apply L1.
    + right. split; [by intros result [= <-]|]. right. exists n. by rewrite (rb_committed _ _ R), Ec3.
Qed.

(** C21: Bulk resolution is all or nothing. If the command reports success,
    then under one lock every listed order id stood for its own payment that
    was open, failed in delivery and passed every check, all of them were
    resolved in one commit with one event each and one for the batch, and no
    other payment changed. Otherwise no payment changed and nothing was
    recorded. It never sends anything. *)
Theorem resolve_reviews_all_or_nothing oids resolution note actor now w :
  sound w -> committed w = working w -> identity_map w = ∅ ->
  wp (resolve_reviews oids resolution note actor now) (fun r w' => steady w w' /\ calls w' = calls w /\
    ((exists n result locked found, r = Ret result /\ resolved result = true /\
        resolved_count result = Z.of_nat (length oids) /\
        Forall2 (passes resolution (committed w)) oids found /\ map id locked ≡ₚ map id found /\
        bulk_resolved resolution now locked (others n (committed w)) (committed w')) \/
     ((forall result, r = Ret result -> resolved result = false) /\
      (committed w' = committed w \/ exists n, committed w' = others n (committed w))))) w.
Proof.
  intros Hs Hc Hm. eapply wp_mono; [by apply wp_resolve_reviews|]. intros r w' (S & C & H).
  split; [exact S|]. by split.
Qed.
End ReviewFacts.

(** ** Witnesses *)

Lemma failed_sound : sound spin_world.
Proof. apply sound_example. vm_compute. reflexivity. Qed.

Lemma review_command_effects_witness :
  fst (@cmd_review calm_env (default_settings <| bot_notify_retry_mode := idempotent |>) "order-1"
         (ReviewMutate ReviewResend) spin_world) = Ret (Requeued (requeued_row (seconds 100001) failed_payment)) /\
  wp (@cmd_review calm_env (default_settings <| bot_notify_retry_mode := idempotent |>) "order-1"
        (ReviewMutate ReviewResend)) (fun r w' => calls w' = []) spin_world.
Proof.
  split; [vm_compute; reflexivity|].
  eapply wp_mono; [apply (@review_command_effects calm_env calm_rely
    (default_settings <| bot_notify_retry_mode := idempotent |>) "order-1" (ReviewMutate ReviewResend) spin_world)|].
  - exact failed_sound.
  - reflexivity.
  - reflexivity.
  - intros r w' (_ & C & _). exact C.
Defined.

Definition bulk_call : M BulkReviewResult :=
  @resolve_reviews calm_env ["order-1"] "confirmed_by_bot_operator" "credited" "host-cli" (seconds 100000).

Lemma resolve_reviews_all_or_nothing_witness :
  (exists result, fst (bulk_call spin_world) = Ret result /\ resolved result = true) /\
  (exists result, fst (@resolve_reviews calm_env ["order-1"; "700001"] "false_positive" "n" "a" 0 spin_world)
     = Ret result /\ resolved result = false) /\
  wp bulk_call (fun r w' => steady spin_world w' /\ calls w' = []) spin_world.
Proof.
  split; [eexists; split; vm_compute; reflexivity|].
  split; [eexists; split; vm_compute; reflexivity|].
  eapply wp_mono; [apply (@resolve_reviews_all_or_nothing calm_env calm_rely ["order-1"]
    "confirmed_by_bot_operator" "credited" "host-cli" (seconds 100000) spin_world)|].
  - exact failed_sound.
  - reflexivity.
  - reflexivity.
  - intros r w' (S & C & _). split; [exact S|exact C].
Defined.
