(* ===== verification/Attention.v ===== *)
(** Operator closure of stale link failures ([app/services/attention.py],
    the resolve path of [_cmd_attention] in [app/ops.py]) and the worklist
    predicate it shares with [app/services/stuck_payments.py].

    The id of an audit event is the number of events up to it: ids are
    allocated in order and events are never deleted. *)

From S2P Require Import Prelude PyText Exceptions Models Session AuditTrail Ledger Verification.

Definition NOTE_MAX_LENGTH : nat := 500.
Definition ACTOR_MAX_LENGTH : nat := 128.
Definition UNEXPECTED_STATE_GRACE_SECONDS : Z := 60.

Definition ATTENTION_RESOLUTIONS : list (string * list PaymentStatus) :=
  [("stale_getlink_failure", [GETLINK_FAILED]); ("stale_incomplete_creation", [CREATED])].

Definition RESOLVABLE_STATUSES : list PaymentStatus := concat (map snd ATTENTION_RESOLUTIONS).

Definition status_in (s : PaymentStatus) (l : list PaymentStatus) : bool :=
  existsb (fun s' => bool_decide (s = s')) l.

(** [ATTENTION_RESOLUTIONS.get(resolution, frozenset())]. *)
Definition resolution_statuses (resolution : string) : list PaymentStatus :=
  match List.find (fun kv => String.eqb (fst kv) resolution) ATTENTION_RESOLUTIONS with
  | Some kv => snd kv
  | None => []
  end.

Definition eligible_resolutions_for_status (s : PaymentStatus) : list string :=
  map fst (List.filter (fun kv => status_in s (snd kv)) ATTENTION_RESOLUTIONS).

Inductive AttentionRefusal :=
  | ATTENTION_ALREADY_RESOLVED | NOT_YET_STALE | EMPTY_NOTE | STATUS_NOT_ELIGIBLE
  | RESOLUTION_NOT_VALID_FOR_STATUS | GATEWAY_IS_VERIFIED | HAS_REFERENCE_ID | UNDER_MANUAL_REVIEW
  | BOT_NOTIFICATION_ATTEMPTED | PAYMENT_LINK_ISSUED.

Definition LINK_FAILURE_EVENT_TYPE : string := "centralpay_getlink_failed".
Definition ATTENTION_RESOLVED_EVENT_TYPE : string := "payment_attention_resolved".

(** ** Event ids *)

Definition event_of (pid : Z) (etype : string) (e : PaymentEvent) : bool :=
  bool_decide (event_payment_id e = Some pid) && String.eqb (event_type e) etype.

(** [_latest_event_id], over the newest-first trail. *)
Fixpoint latest_event_id (pid : Z) (etype : string) (l : list PaymentEvent) : option Z :=
  match l with
  | [] => None
  | e :: l' => if event_of pid etype e then Some (Z.of_nat (length l)) else latest_event_id pid etype l'
  end.

(** A link failure is recorded after the last resolution, if any. *)
Definition failed_since_resolution (d : Db) (pid : Z) : bool :=
  match latest_event_id pid LINK_FAILURE_EVENT_TYPE (payment_events d),
        latest_event_id pid ATTENTION_RESOLVED_EVENT_TYPE (payment_events d) with
  | None, _ => false
  | Some _, None => true
  | Some failure, Some resolution => resolution <? failure
  end.

Definition unresolved_attention_condition (d : Db) (p : Payment) : bool :=
  is_none (attention_resolved_at p) || failed_since_resolution d (id p).

Definition resolved_attention_condition (p : Payment) : bool := is_some (attention_resolved_at p).

(** [resolution_superseded_in_db]. *)
Definition resolution_superseded_in_db (d : Db) (p : Payment) : bool :=
  if is_none (attention_resolved_at p) then false else failed_since_resolution d (id p).

(** [latest_link_failure_code]: the error code of the newest link failure. *)
Definition latest_link_failure_code (d : Db) (pid : Z) : option string :=
  match List.find (event_of pid LINK_FAILURE_EVENT_TYPE) (payment_events d) with
  | Some e =>
      match dict_get "error_code" (default [] (event_data e)) with
      | Some (JStr s) => Some s
      | _ => None
      end
  | None => None
  end.

Definition _UNEXPECTED_STATUSES : list PaymentStatus := [CREATED; GETLINK_FAILED; GATEWAY_VERIFIED].

(** [unexpected_status_conditions]. *)
Definition unexpected_status_conditions (d : Db) (now : Z) (p : Payment) : bool :=
  status_in (status p) _UNEXPECTED_STATUSES &&
  (created_at p <=? now - seconds UNEXPECTED_STATE_GRACE_SECONDS) &&
  unresolved_attention_condition d p.

(** The open view of [attention list]. *)
Definition attention_list_conditions (d : Db) (now : Z) (p : Payment) : bool :=
  unexpected_status_conditions d now p && status_in (status p) RESOLVABLE_STATUSES.

(** ** The guard *)

(** [refuse_reason] of this module. *)
Definition attention_refusal (p : Payment) (now : Z) (resolution : option string) (superseded : bool)
  : option AttentionRefusal :=
  if is_some (attention_resolved_at p) && negb superseded then Some ATTENTION_ALREADY_RESOLVED
  else if is_some (gateway_verified_at p) then Some GATEWAY_IS_VERIFIED
  else if is_some (reference_id p) then Some HAS_REFERENCE_ID
  else if is_some (manual_review_at p) then Some UNDER_MANUAL_REVIEW
  else if 0 <? bot_notify_attempts p then Some BOT_NOTIFICATION_ATTEMPTED
  else if is_some (redirect_url p) then Some PAYMENT_LINK_ISSUED
  else if negb (status_in (status p) RESOLVABLE_STATUSES) then Some STATUS_NOT_ELIGIBLE
  else if now - seconds UNEXPECTED_STATE_GRACE_SECONDS <? created_at p then Some NOT_YET_STALE
  else
    match resolution with
    | Some code => if status_in (status p) (resolution_statuses code) then None
                   else Some RESOLUTION_NOT_VALID_FOR_STATUS
    | None => None
    end.

Record AttentionSnapshot := mkAttentionSnapshot {
  as_payment : Payment; (* the reported columns, verbatim *)
  redirect_url_present : bool;
  callback_token_issued : bool;
  last_error_code : option string;
  as_refusal : option AttentionRefusal;
  eligible_resolutions : list string;
  attention_resolution_superseded : bool
}.

(** [a or b] on optional texts. *)
Definition or_text (a b : option string) : option string :=
  match a with Some s => if String.eqb s "" then b else a | None => b end.

Definition snapshot (p : Payment) (now : Z) (superseded : bool) (link_failure_code : option string)
  : AttentionSnapshot := {|
  as_payment := p;
  redirect_url_present := is_some (redirect_url p);
  callback_token_issued := is_some (callback_token_hash_col p);
  last_error_code := or_text (or_text link_failure_code (bot_last_error_code p))
                             (reconciliation_last_error_code p);
  as_refusal := attention_refusal p now None superseded;
  eligible_resolutions := eligible_resolutions_for_status (status p);
  attention_resolution_superseded := superseded
|}.

Record AttentionOutcome := mkAttentionOutcome {
  attention_resolved : bool;
  ao_bot_order_id : string;
  ao_status : option PaymentStatus;
  ao_resolution : option string;
  ao_refusal : option AttentionRefusal;
  existing_resolution : option string;
  existing_resolved_at : option Z;
  existing_resolved_by : option string
}.

(** The four columns of a resolution. *)
Definition attention_row (now : Z) (resolution actor note : string) (r : Payment) : Payment :=
  r <| attention_resolved_at := Some now |> <| attention_resolution := Some resolution |>
    <| attention_resolved_by := Some actor |> <| attention_resolution_note := Some note |>.

Section Attention.
Context `{Env}.

Definition resolve_attention (payment_id : Z) (resolution note actor : string) (now : Z)
  : M AttentionOutcome :=
  if String.eqb (strip note) "" || String.eqb (strip actor) "" then
    ret (mkAttentionOutcome false "" None None (Some EMPTY_NOTE) None None None)
  else
    begin_tx ;;;
    let* found := select_payment_by_id true payment_id in
    match found with
    | None => raise (Unexpected "NoResultFound")
    | Some p =>
        let* d := get_db in
        let superseded := resolution_superseded_in_db d p in
        let previous_resolution := attention_resolution p in
        match attention_refusal p now (Some resolution) superseded with
        | Some refusal =>
            rollback ;;;
            ret (mkAttentionOutcome false (bot_order_id p) (Some (status p)) None (Some refusal)
                   (attention_resolution p) (attention_resolved_at p) (attention_resolved_by p))
        | None =>
            let previous_status := status p in
            let safe_actor := str_take ACTOR_MAX_LENGTH (strip actor) in
            let safe_note := str_take NOTE_MAX_LENGTH (strip note) in
            let* p := upd p (attention_row now resolution safe_actor safe_note) in
            record_event (Some (id p)) "payment_attention_resolved" "warning"
              [("resolution", JStr resolution); ("note", JStr safe_note); ("operator", JStr safe_actor);
               ("status", JStr (status_value previous_status)); ("gateway_verified", JBool false);
               ("gateway_order_id", JInt (gateway_order_id p));
               ("superseded_previous_resolution", JBool superseded);
               ("previous_resolution",
                 if superseded then json_of_option JStr previous_resolution else JNull)] ;;;
            commit ;;;
            ret (mkAttentionOutcome true (bot_order_id p) (Some previous_status) (Some resolution)
                   None None None None)
        end
    end.
End Attention.

(** ** Facts *)

Lemma latest_bound pid etype l k : latest_event_id pid etype l = Some k -> 1 <= k <= Z.of_nat (length l).
Proof.
  induction l as [|e l IH]; cbn [latest_event_id]; [done|]. destruct (event_of pid etype e).
  - intros [= <-]. cbn [length]. lia.
  - intros H%IH. cbn [length]. lia.
Qed.

(** Events recorded since do not matter unless they are of the type. *)
Lemma latest_app pid etype l l0 : (forall e, In e l -> event_of pid etype e = false) ->
  latest_event_id pid etype (l ++ l0) = latest_event_id pid etype l0.
Proof.
  induction l as [|e l IH]; intros H; [done|]. cbn [app latest_event_id].
  rewrite (H e) by (by left). apply IH. intros e' He. apply H. by right.
Qed.

Lemma latest_app_new pid etype l l0 e : In e l -> event_of pid etype e = true ->
  exists k, latest_event_id pid etype (l ++ l0) = Some k /\ Z.of_nat (length l0) < k.
Proof.
  induction l as [|e' l IH]; intros Hin He; [done|]. cbn [app latest_event_id].
  destruct (event_of pid etype e') eqn:E'.
  - eexists. split; [done|]. cbn [length]. rewrite length_app. lia.
  - destruct Hin as [->|Hin]; [congruence|]. by apply IH.
Qed.

(** The guard and the worklist draw the same line: a payment may be closed
    exactly if the worklist shows it, in a resolvable status, and nothing
    financial ever happened to it. *)
Definition no_financial_fact (p : Payment) : Prop :=
  gateway_verified_at p = None /\ reference_id p = None /\ manual_review_at p = None /\
  bot_notify_attempts p <= 0 /\ redirect_url p = None.

Lemma resolvable_unexpected s : status_in s RESOLVABLE_STATUSES = true -> status_in s _UNEXPECTED_STATUSES = true.
Proof. by destruct s. Qed.

Lemma unresolved_superseded d p :
  unresolved_attention_condition d p
  = negb (is_some (attention_resolved_at p) && negb (resolution_superseded_in_db d p)).
Proof.
  unfold unresolved_attention_condition, resolution_superseded_in_db.
  destruct (attention_resolved_at p); cbn; [|done]. by rewrite negb_involutive.
Qed.

(** The resolutions offered for a status are those whose statuses include it. *)
Lemma eligible_resolutions_spec s code :
  In code (eligible_resolutions_for_status s) <-> status_in s (resolution_statuses code) = true.
Proof.
  unfold eligible_resolutions_for_status, resolution_statuses, ATTENTION_RESOLUTIONS. cbn [List.find fst].
  destruct (String.eqb_spec "stale_getlink_failure" code) as [<-|H1];
    [|destruct (String.eqb_spec "stale_incomplete_creation" code) as [<-|H2]];
    (destruct s; vm_compute; split; intros H; first [reflexivity|by left|exfalso; intuition congruence]).
Qed.

(** A text that is not blank keeps a character that is not blank when it is
    stripped and then shortened. *)
Lemma lstrip_head s : match lstrip is_space s with String c _ => is_space c = false | _ => True end.
Proof. induction s as [|c s IH]; cbn; [done|]. by destruct (is_space c) eqn:E. Qed.

Lemma rstrip_head c s : is_space c = false -> exists s', rstrip is_space (String c s) = String c s'.
Proof. intros Hc. cbn. destruct (rstrip is_space s); rewrite ?Hc; eauto. Qed.

Lemma not_blank s n : strip s <> "" -> strip (str_take (S n) (strip s)) <> "".
Proof.
  unfold strip at 1 3. pose proof (lstrip_head s) as Hh. destruct (lstrip is_space s) as [|c s1]; [done|].
  intros _. destruct (rstrip_head c s1 Hh) as [s2 ->]. cbn [str_take].
  unfold strip. cbn [lstrip]. rewrite Hh. by destruct (rstrip_head c (str_take n s2) Hh) as [s3 ->].
Qed.


Lemma attention_row_legal now resolution actor note r : row_legal r (attention_row now resolution actor note r).
Proof. by row_legal_tac. Qed.

(** Recording an event that is not a link failure closes the item. *)
Lemma resolution_closes pid w w' e : audited [e] w w' -> event_of pid ATTENTION_RESOLVED_EVENT_TYPE e = true ->
  failed_since_resolution (working w') pid = false.
Proof.
  intros A He. destruct (au_suffix _ _ _ A) as [l El]. pose proof (au_events _ _ _ A) as Eb.
  rewrite El in Eb. unfold business_events in Eb. rewrite List.filter_app in Eb. apply app_inv_tail in Eb.
  assert (Hin : In e l) by (assert (In e (List.filter business_event l)) as [? _]%filter_In by (rewrite Eb; by left); done).
  unfold failed_since_resolution. rewrite El.
  destruct (latest_app_new pid _ l (payment_events (working w)) e Hin He) as (k & -> & Hk).
  rewrite latest_app.
  2:{ intros e' He'. apply not_true_iff_false. unfold event_of. intros [Hp Ht%String.eqb_eq]%andb_true_iff.
      assert (Hb : In e' (List.filter business_event l)) by (apply filter_In; unfold business_event; by rewrite Ht).
      rewrite Eb in Hb. destruct Hb as [->|[]]. unfold event_of in He. rewrite Ht in He.
      by apply andb_true_iff in He as [_ He]. }
  destruct (latest_event_id pid LINK_FAILURE_EVENT_TYPE _) eqn:E; [|done]. apply latest_bound in E. lia.
Qed.

(** The guard of the mutating path and the worklist predicate draw the
    same line. A payment may be closed with some resolution exactly if the
    open worklist shows it and nothing financial ever happened to it, and
    with a given resolution exactly if the resolution is, moreover, for its
    status; the code reported otherwise is one of the refusals. *)
Theorem attention_guard_matches_worklist d now resolution p :
  attention_refusal p now resolution (resolution_superseded_in_db d p) = None <->
  attention_list_conditions d now p = true /\ no_financial_fact p /\
  forall code, resolution = Some code -> In code (eligible_resolutions_for_status (status p)).
Proof.
  unfold attention_refusal, attention_list_conditions, unexpected_status_conditions, no_financial_fact.
  rewrite unresolved_superseded. destruct (_ && negb _); cbn [negb].
  { rewrite andb_false_r. by split; [|intros [? _]]. }
  destruct (gateway_verified_at p); cbn [is_some]; [by split; [|intros (_ & (? & _) & _)]|].
  destruct (reference_id p); cbn [is_some]; [by split; [|intros (_ & (_ & ? & _) & _)]|].
  destruct (manual_review_at p); cbn [is_some]; [by split; [|intros (_ & (_ & _ & ? & _) & _)]|].
  destruct (Z.ltb_spec 0 (bot_notify_attempts p)); [by split; [|intros (_ & (_ & _ & _ & ? & _) & _); lia]|].
  destruct (redirect_url p); cbn [is_some]; [by split; [|intros (_ & (_ & _ & _ & _ & ?) & _)]|].
  destruct (status_in (status p) RESOLVABLE_STATUSES) eqn:Es; cbn [negb].
  2:{ rewrite andb_false_r. by split; [|intros [? _]]. }
  rewrite (resolvable_unexpected _ Es), !andb_true_r. cbn [andb].
  destruct (Z.ltb_spec (now - seconds UNEXPECTED_STATE_GRACE_SECONDS) (created_at p));
    destruct (Z.leb_spec (created_at p) (now - seconds UNEXPECTED_STATE_GRACE_SECONDS)); try lia.
  { by split; [|intros [? _]]. }
  destruct resolution as [code|]; [|by split].
  pose proof (eligible_resolutions_spec (status p) code) as Hspec.
  destruct (status_in _ (resolution_statuses code)).
  - split; [|done]. intros _. split_and!; [done..|]. intros ? [= <-]. by apply Hspec.
  - split; [done|]. intros (_ & _ & Hr). by apply Hspec in Hr.
Qed.

Section AttentionFacts.
Context {ENV : Env} {RELY : Rely}.

(** The row of payment [pid], as the lock protects it, was closed. *)
Record attention_closed (d : Db) (pid : Z) (resolution note actor : string) (now : Z) (row : Payment) (w' : World)
  : Prop := {
  cl_id : id row = pid;
  cl_row : payments d !! pid = Some row;
  cl_allowed : attention_refusal row now (Some resolution) (resolution_superseded_in_db d row) = None;
  cl_payments : payments (committed w') =
    <[pid := attention_row now resolution (str_take ACTOR_MAX_LENGTH (strip actor))
               (str_take NOTE_MAX_LENGTH (strip note)) row]> (payments d);
  cl_trail : trail (committed w') = ATTENTION_RESOLVED_EVENT_TYPE :: trail d;
  cl_open : failed_since_resolution (committed w') pid = false
}.

Lemma wp_resolve_attention pid resolution note actor now w :
  sound w -> committed w = working w ->
  wp (resolve_attention pid resolution note actor now) (fun r w' => steady w w' /\ calls w' = calls w /\
    exists n, let d := others n (committed w) in
    match r with
    | Ret o =>
        if attention_resolved o
        then strip note <> "" /\ strip actor <> "" /\ exists row,
               attention_closed d pid resolution note actor now row w' /\
               o = mkAttentionOutcome true (bot_order_id row) (Some (status row)) (Some resolution) None None None None
        else is_some (ao_refusal o) = true /\ (committed w' = committed w \/ committed w' = d)
    | Raise _ => payments d !! pid = None /\ committed w' = d
    end) w.
Proof.
  intros Hs Hc. unfold resolve_attention.
  destruct (String.eqb_spec (strip note) "") as [En|En]; cbn [orb].
  { apply wp_ret. split_and!; [by apply steady_refl|done|]. exists 0%nat. split; [done|by left]. }
  destruct (String.eqb_spec (strip actor) "") as [Ea|Ea]; cbn [orb].
  { apply wp_ret. split_and!; [by apply steady_refl|done|]. exists 0%nat. split; [done|by left]. }
  apply wp_bind, wp_begin_tx. intros w1 B. destruct (bg_committed _ _ B) as [n Ed].
  assert (S1 : steady w w1) by (by eapply steady_began).
  assert (Ew : working w1 = others n (committed w)) by (rewrite (bg_working _ _ B); exact Ed).
  pose proof (ok_keyed _ (so_working _ (proj1 S1))) as K1.
  apply wp_bind, wp_select_by_id. destruct (payments (working w1) !! pid) as [row|] eqn:Hrow.
  2:{ apply wp_raise. split_and!; [done|by ws|]. exists n. cbv zeta.
      rewrite <- Ew. split; [done|]. by rewrite <- (bg_working _ _ B). }
  pose proof (K1 pid row Hrow) as <-. intros w2 A. pose proof (at_working _ _ _ _ A) as Ew2.
  apply (holding_start w w1 true (id row) _ _ S1 Hrow) in A. change (object_of w1 true row) with row in *.
  apply wp_bind, wp_get_db. rewrite Ew2, Ew. rewrite Ew in Hrow.
  destruct (attention_refusal row now (Some resolution) _) as [refused|] eqn:Er.
  - apply wp_bind, wp_rollback. intros w3 R. apply wp_ret.
    destruct (holding_rollback w w1 A _ R) as (S & E & _ & C). split_and!; [done|rewrite C; by ws|].
    exists n. split; [done|]. right. by rewrite E, Ed.
  - apply wp_bind, wp_upd. intros w3 U.
    apply (holding_updated w w1 A) in U; [|apply attention_row_legal|by split|done]. clear A.
    apply wp_bind, wp_record_event. intros w4 A.
    assert (Hclosed : failed_since_resolution (working w4) (id row) = false).
    { eapply resolution_closes; [exact A|]. unfold event_of, event_row. cbn. by rewrite bool_decide_eq_true_2. }
    apply (holding_audited w w1 U) in A. cbn in A. apply wp_bind, wp_commit. intros w5 C.
    rewrite <- (cm_committed _ _ C) in Hclosed. apply (holding_commit w w1 A) in C as [S E P Hcalls T].
    apply wp_ret. split_and!; [done|rewrite Hcalls; by ws|]. exists n. cbv zeta. rewrite <- Ew in *.
    split_and!; [done|done|]. exists row. split; [|done]. by split.
Qed.

(** Closing an attention item is an operational record and nothing else.
    Success means that the note and the actor were not blank, that the guard
    let the payment through under its lock, and that exactly its four
    attention columns and one audit event were committed, with a note and an
    actor that are still not blank; the payment then is off the worklist
    until its link fails again. A refusal names its reason and changes
    nothing. The gateway and the bot are never called. *)
Theorem resolve_attention_record_only pid resolution note actor now w :
  sound w -> committed w = working w ->
  wp (resolve_attention pid resolution note actor now) (fun r w' =>
    steady w w' /\ calls w' = calls w /\ exists n, let d := others n (committed w) in
    forall o, r = Ret o ->
    (attention_resolved o = false -> is_some (ao_refusal o) = true /\
       (committed w' = committed w \/ committed w' = d)) /\
    (attention_resolved o = true -> exists row row',
       payments d !! pid = Some row /\
       attention_refusal row now (Some resolution) (resolution_superseded_in_db d row) = None /\
       payments (committed w') = <[pid := row']> (payments d) /\
       trail (committed w') = ATTENTION_RESOLVED_EVENT_TYPE :: trail d /\
       (exists safe_actor safe_note, row' = attention_row now resolution safe_actor safe_note row /\
          strip safe_actor <> "" /\ strip safe_note <> "") /\
       attention_list_conditions (committed w') now row' = false)) w.
Proof.
  intros Hs Hc. eapply wp_mono; [by apply wp_resolve_attention|].
  intros r w' (S & C & n & H). split_and!; [done|done|]. exists n. cbv zeta. intros o ->.
  destruct (attention_resolved o); split; try done; intros _.
  destruct H as (Hn & Ha & row & [Cid Cr Call Cp Ct Co] & _). eexists row, _. split_and!; [done..| |].
  - eexists _, _. split_and!; [done|..]; by apply not_blank.
  - unfold attention_list_conditions, unexpected_status_conditions, unresolved_attention_condition. cbn.
    by rewrite Cid, Co, andb_false_r.
Qed.
End AttentionFacts.

(** ** Witnesses *)

(** A payment whose link was never created. *)
Definition stale_payment : Payment :=
  example_payment <| status := GETLINK_FAILED |> <| redirect_url := None |> <| callback_token_hash_col := None |>
    <| callback_token_issued_at := None |>.

Definition stale_world : World := world_of (db_of [stale_payment]).

Definition close_stale : M AttentionOutcome :=
  @resolve_attention calm_env 1 "stale_getlink_failure" " paid elsewhere " "ops" (seconds 3600).

Lemma attention_guard_matches_worklist_witness :
  attention_list_conditions (working stale_world) (seconds 3600) stale_payment = true /\
  no_financial_fact stale_payment /\
  attention_refusal stale_payment (seconds 59) None false = Some NOT_YET_STALE /\
  attention_list_conditions (working stale_world) (seconds 59) stale_payment = false /\
  (attention_refusal stale_payment (seconds 3600) None
     (resolution_superseded_in_db (working stale_world) stale_payment) = None <->
   attention_list_conditions (working stale_world) (seconds 3600) stale_payment = true /\
   no_financial_fact stale_payment /\
   forall code, None = Some code -> In code (eligible_resolutions_for_status (status stale_payment))).
Proof.
  split; [vm_compute; reflexivity|]. split; [split_and!; vm_compute; congruence|].
  split; [vm_compute; reflexivity|]. split; [vm_compute; reflexivity|].
  apply attention_guard_matches_worklist.
Defined.

(** Closed once, refused the second time. *)
Lemma resolve_attention_record_only_witness :
  fst (close_stale stale_world) = Ret (mkAttentionOutcome true "order-1" (Some GETLINK_FAILED)
    (Some "stale_getlink_failure") None None None None) /\
  (exists o, fst (close_stale (snd (close_stale stale_world))) = Ret o /\
             ao_refusal o = Some ATTENTION_ALREADY_RESOLVED) /\
  wp close_stale (fun r w' => steady stale_world w' /\ calls w' = []) stale_world.
Proof.
  split; [vm_compute; reflexivity|]. split; [eexists; split; vm_compute; reflexivity|].
  eapply wp_mono; [apply (@resolve_attention_record_only calm_env calm_rely 1 "stale_getlink_failure"
    " paid elsewhere " "ops" (seconds 3600) stale_world)|].
  - apply sound_example. vm_compute. reflexivity.
  - reflexivity.
  - intros r w' (S & C & _). split; [exact S|exact C].
Defined.
