(* ===== verification/Stuck.v ===== *)
(** The operator's worklists: the read-only predicates and listings of
    [app/adminbot/queries.py] and the categorised overview of
    [app/services/stuck_payments.py].

    Each function is one or several SQL statements over one snapshot of the
    database. When a payment entered the notification phase is read from the
    creation times of its audit events, which the database fills in: it is
    the parameter [entered_at] of the section. *)

From S2P Require Import Prelude PyText Exceptions Config Models Session AuditTrail Ledger.
From S2P Require Import Notification Verification Reconciliation Inspect Attention.

(** ** Ordered, capped statements *)

(** [ORDER BY k1, k2, ...]: lexicographic order of the keys. *)
Fixpoint lex_le (k l : list Z) : bool :=
  match k, l with
  | [], _ => true
  | _ :: _, [] => false
  | a :: k', b :: l' => (a <? b) || (a =? b) && lex_le k' l'
  end.

Definition by_key (key : Payment -> list Z) (p q : Payment) : bool := lex_le (key p) (key q).

(** [NULLS FIRST]. *)
Definition nulls_first (o : option Z) : list Z := match o with None => [0; 0] | Some t => [1; t] end.

(** [select(func.count(Payment.id)).where(...)]. *)
Definition count_where (flt : Payment -> bool) (d : Db) : Z := Z.of_nat (length (payments_where flt d)).

(** [_rows_with_exact_total]: the window function counts the rows before the
    limit, in the statement that returns them. *)
Definition rows_with_exact_total (flt : Payment -> bool) (key : Payment -> list Z) (limit : nat) (d : Db)
  : list Payment * Z :=
  let batch := select_batch flt (by_key key) limit (rows (payments d)) in
  (batch, match batch with [] => 0 | _ => count_where flt d end).

(** ** [app/adminbot/queries.py] *)

Definition open_manual_review_conditions (p : Payment) : bool :=
  bool_decide (status p = MANUAL_REVIEW) && is_none (review_resolved_at p).

Definition manual_review_history_conditions (p : Payment) : bool :=
  is_some (manual_review_at p) || is_some (review_resolved_at p).

Definition bot_delivery_manual_review_conditions (p : Payment) : bool :=
  open_manual_review_conditions p && is_some (bot_notify_reason p).

Definition non_delivery_manual_review_conditions (p : Payment) : bool :=
  open_manual_review_conditions p && is_none (bot_notify_reason p).

Definition count_by_status (d : Db) (s : PaymentStatus) : Z :=
  count_where (fun p => bool_decide (status p = s)) d.

Definition count_open_manual_reviews : Db -> Z := count_where open_manual_review_conditions.

Definition count_non_delivery_manual_reviews : Db -> Z := count_where non_delivery_manual_review_conditions.

(** [func.min] of a column. *)
Definition column_min (l : list (option Z)) : option Z :=
  fold_right (fun o m => match o, m with
                         | Some a, Some b => Some (Z.min a b)
                         | Some a, None => Some a
                         | None, _ => m
                         end) None l.

Definition oldest_open_manual_review_age_seconds (d : Db) (now : Z) : option Z :=
  option_map (fun oldest => now - oldest)
    (column_min (map manual_review_at (payments_where open_manual_review_conditions d))).

Definition manual_review_payments (d : Db) (limit : nat) : list Payment :=
  select_batch open_manual_review_conditions (by_key (fun p => nulls_first (manual_review_at p))) limit
    (rows (payments d)).

Definition resolved_review_payments (d : Db) (limit : nat) : list Payment :=
  select_batch (fun p => is_some (review_resolved_at p))
    (by_key (fun p => [- default 0 (review_resolved_at p)])) limit (rows (payments d)).

(** [queries.StuckEntry]. *)
Record QueryEntry := mkQueryEntry { qe_payment : Payment; qe_category : string }.

Record RetryQueue := mkRetryQueue {
  rq_due : list Payment;
  rq_scheduled : list Payment;
  rq_claimed : list Payment;
  rq_retry_limit : list Payment
}.

(** [retry_queue_snapshot]. *)
Definition retry_queue_snapshot (d : Db) (now : Z) (limit : nat) : RetryQueue :=
  let pending := select_batch (fun p => bool_decide (status p = BOT_NOTIFY_PENDING))
    (by_key (fun p => nulls_first (next_retry_at p))) limit (rows (payments d)) in
  let unclaimed := List.filter (fun p => is_none (notification_claimed_at p)) pending in
  let is_due p := match next_retry_at p with None => true | Some t => t <=? now end in
  mkRetryQueue (List.filter is_due unclaimed) (List.filter (fun p => negb (is_due p)) unclaimed)
    (List.filter (fun p => is_some (notification_claimed_at p)) pending)
    (select_batch (fun p => open_manual_review_conditions p &&
                            bool_decide (bot_notify_reason p = Some "retry_limit_reached"))
       (by_key (fun p => match manual_review_at p with None => [0; 0] | Some t => [1; - t] end)) 10
       (rows (payments d))).

(** [queries.find_payment]: the lookup of the command line, and a gateway
    reference when nothing else matches. *)
Definition find_payment (identifier : string) : M (option Payment) :=
  let* payment := find_payment_by_order_id identifier in
  match payment with
  | Some p => ret (Some p)
  | None =>
      let* d := get_db in
      let* matches := attach_all false
        (take 2 (payments_where (fun p => bool_decide (reference_id p = Some identifier)) d)) in
      match matches with
      | [p] => ret (Some p)
      | _ => ret None
      end
  end.

Section Worklists.

(** When the payment last entered the notification phase, if an event says so:
    [MAX(created_at)] over its entry events. *)
Variable entered_at : Payment -> option Z.

(** [_notification_age_anchor]. *)
Definition notification_age_anchor (p : Payment) : Z :=
  match entered_at p with
  | Some t => t
  | None => default (created_at p) (gateway_verified_at p)
  end.

Definition oldest_pending_notification_age_seconds (d : Db) (now : Z) : option Z :=
  option_map (fun oldest => now - oldest)
    (column_min (map (fun p => Some (notification_age_anchor p))
       (payments_where (fun p => bool_decide (status p = BOT_NOTIFY_PENDING)) d))).

Definition stale_bot_notify_pending_conditions (pending_cutoff : Z) (p : Payment) : bool :=
  bool_decide (status p = BOT_NOTIFY_PENDING) && (notification_age_anchor p <=? pending_cutoff).

(** The order both snapshots share: reviews first, each group by its own
    time. *)
Definition attention_key (is_manual_review : Payment -> bool) (p : Payment) : list Z :=
  if is_manual_review p then 0 :: nulls_first (manual_review_at p) ++ [id p]
  else 1 :: nulls_first (Some (notification_age_anchor p)) ++ [id p].

(** The label of a pending payment. *)
Definition pending_label (claim_cutoff : Z) (p : Payment) : string :=
  match notification_claimed_at p with
  | Some t => if t <=? claim_cutoff then "stale_notification_claim"
              else default "" (or_text (bot_notify_reason p) (Some "bot_notify_pending_old"))
  | None => default "" (or_text (bot_notify_reason p) (Some "bot_notify_pending_old"))
  end.

(** [bot_delivery_snapshot] and [open_attention_snapshot] differ in which
    reviews they list, and in the text of a review without a delivery reason. *)
Definition attention_snapshot (is_manual_review : Payment -> bool) (review_reason : Payment -> option string)
    (d : Db) (now pending_age_minutes claim_timeout : Z) (limit : nat) : list QueryEntry * Z :=
  let pending_cutoff := now - minutes pending_age_minutes in
  let '(batch, total) := rows_with_exact_total
    (fun p => is_manual_review p || stale_bot_notify_pending_conditions pending_cutoff p)
    (attention_key is_manual_review) limit d in
  let claim_cutoff := now - claim_timeout in
  (map (fun p => mkQueryEntry p
          (if is_manual_review p then "manual_review:" +:+ default "None" (review_reason p)
           else pending_label claim_cutoff p)) batch, total).

Definition bot_delivery_snapshot : Db -> Z -> Z -> Z -> nat -> list QueryEntry * Z :=
  attention_snapshot bot_delivery_manual_review_conditions bot_notify_reason.

Definition open_attention_snapshot : Db -> Z -> Z -> Z -> nat -> list QueryEntry * Z :=
  attention_snapshot open_manual_review_conditions
    (fun p => or_text (or_text (bot_notify_reason p) (last_error p)) (Some "manual_review")).

(** ** [app/services/stuck_payments.py] *)

Definition QUERY_CAP : nat := 200.

Inductive StuckCategory := NEEDS_ATTENTION | WAITING_GATEWAY | EXPIRED.

Record StuckEntry := mkStuckEntry {
  se_payment : Payment;
  se_category : StuckCategory;
  se_reason : string;
  se_gateway_state : option string
}.

Record StuckOverview := mkStuckOverview {
  needs_attention : list StuckEntry;
  waiting_gateway : list StuckEntry;
  expired : list StuckEntry;
  total_needs_attention : Z;
  total_waiting : Z;
  total_expired : Z
}.

(** [StuckOverview.ordered]. *)
Definition ordered (o : StuckOverview) : list StuckEntry :=
  needs_attention o ++ waiting_gateway o ++ expired o.

Definition gateway_state (p : Payment) : string :=
  if bool_decide (reconciliation_last_error_code p = Some ERROR_GATEWAY_NOT_PAID) then "not_paid"
  else if reconciliation_attempts p =? 0 then "pending"
  else default "" (or_text (reconciliation_last_error_code p) (Some "pending")).

Section Overview.
Context (settings : Settings) (now : Z).

Definition waiting_conditions (p : Payment) : bool :=
  bool_decide (status p = LINK_CREATED) && is_none (gateway_verified_at p) &&
  negb (aged_out_age_condition settings now p) &&
  (is_some (reconciliation_next_at p) || (reconciliation_attempts p <? reconciliation_max_attempts settings)).

Definition expired_conditions : Payment -> bool := aged_out_conditions settings now.

Definition waiting_entry (p : Payment) : StuckEntry :=
  mkStuckEntry p WAITING_GATEWAY "link_created" (Some (gateway_state p)).

Definition expired_entry (p : Payment) : StuckEntry :=
  mkStuckEntry p EXPIRED "reconciliation_max_age_exceeded" (Some (gateway_state p)).

Definition count_waiting : Db -> Z := count_where waiting_conditions.

Definition count_expired : Db -> Z := count_where expired_conditions.

Definition other_attention_conditions (d : Db) (p : Payment) : bool :=
  reconciliation_exhausted_conditions settings now p || unexpected_status_conditions d now p ||
  non_delivery_manual_review_conditions p.

Definition count_other_attention (d : Db) : Z := count_where (other_attention_conditions d) d.

(** Longest waiting first; most recently expired first. *)
Definition waiting_snapshot (d : Db) (limit : nat) : list StuckEntry * Z :=
  let '(batch, total) :=
    rows_with_exact_total waiting_conditions (fun p => [link_age_anchor p; id p]) limit d in
  (map waiting_entry batch, total).

Definition expired_snapshot (d : Db) (limit : nat) : list StuckEntry * Z :=
  let '(batch, total) :=
    rows_with_exact_total expired_conditions (fun p => [- link_age_anchor p; - id p]) limit d in
  (map expired_entry batch, total).

(** [_reused_needs_attention]. *)
Definition reused_needs_attention (d : Db) : list StuckEntry * Z :=
  let '(entries, total) :=
    open_attention_snapshot d now 30 (bot_notify_claim_timeout settings) QUERY_CAP in
  (map (fun e => mkStuckEntry (qe_payment e) NEEDS_ATTENTION (qe_category e) None) entries, total).

(** [_link_created_buckets]: entries and total of each bucket. *)
Definition link_created_buckets (d : Db)
  : (list StuckEntry * Z) * (list StuckEntry * Z) * (list StuckEntry * Z) :=
  let by_anchor p := [link_age_anchor p] in
  let '(exhausted_rows, exhausted_total) :=
    rows_with_exact_total (reconciliation_exhausted_conditions settings now) by_anchor QUERY_CAP d in
  let '(waiting_rows, waiting_total) := rows_with_exact_total waiting_conditions by_anchor QUERY_CAP d in
  let '(expired_rows, expired_total) := rows_with_exact_total expired_conditions by_anchor QUERY_CAP d in
  ((map (fun p => mkStuckEntry p NEEDS_ATTENTION
            ("reconciliation_exhausted:" +:+
             default "" (or_text (reconciliation_last_error_code p) (Some "unknown")))
            (Some (gateway_state p))) exhausted_rows, exhausted_total),
   (map waiting_entry waiting_rows, waiting_total),
   (map expired_entry expired_rows, expired_total)).

(** [_unexpected_status_entries]. *)
Definition unexpected_status_entries (d : Db) : list StuckEntry * Z :=
  let '(batch, total) :=
    rows_with_exact_total (unexpected_status_conditions d now) (fun p => [created_at p]) QUERY_CAP d in
  (map (fun p => mkStuckEntry p NEEDS_ATTENTION ("unexpected_status:" +:+ status_value (status p)) None) batch,
   total).

Definition stuck_payments_overview (d : Db) : StuckOverview :=
  let '(reused_attention, reused_total) := reused_needs_attention d in
  let '(exhausted, waiting, expired) := link_created_buckets d in
  let '(unexpected_attention, unexpected_total) := unexpected_status_entries d in
  mkStuckOverview (reused_attention ++ fst exhausted ++ unexpected_attention) (fst waiting) (fst expired)
    (reused_total + snd exhausted + unexpected_total) (snd waiting) (snd expired).
End Overview.
End Worklists.

(** ** Facts *)

Lemma lex_le_total k l : length k = length l -> lex_le k l = true \/ lex_le l k = true.
Proof.
  revert l. induction k as [|a k IH]; intros [|b l]; cbn; intros E; auto.
  destruct (IH l) as [H|H]; [lia|..]; rewrite H;
    destruct (Z.ltb_spec a b), (Z.ltb_spec b a), (Z.eqb_spec a b), (Z.eqb_spec b a); auto; lia.
Qed.

Lemma lex_le_trans k l m : lex_le k l = true -> lex_le l m = true -> lex_le k m = true.
Proof.
  revert l m. induction k as [|a k IH]; intros [|b l] [|c m]; cbn; try done.
  destruct (Z.ltb_spec a b), (Z.ltb_spec b c), (Z.ltb_spec a c), (Z.eqb_spec a b), (Z.eqb_spec b c),
    (Z.eqb_spec a c); cbn; try done; try lia; eauto.
Qed.

(** Keys of one length order the rows. *)
Definition uniform (key : Payment -> list Z) : Prop := forall p q, length (key p) = length (key q).

Lemma by_key_first key flt n l a b : uniform key ->
  In a (select_batch flt (by_key key) n l) -> In b l -> flt b = true ->
  ~ In b (select_batch flt (by_key key) n l) -> lex_le (key a) (key b) = true.
Proof.
  intros U. apply (select_batch_first flt (by_key key)).
  - intros p q. by apply lex_le_total.
  - intros p q r. apply lex_le_trans.
Qed.

(** *** Counting *)

Lemma count_where_ext f g d : (forall p, f p = g p) -> count_where f d = count_where g d.
Proof. intros E. unfold count_where, payments_where. by rewrite (filter_ext f g E). Qed.

Lemma count_where_or f g d : (forall p, f p = true -> g p = false) ->
  count_where (fun p => f p || g p) d = count_where f d + count_where g d.
Proof.
  intros D. unfold count_where, payments_where. induction (rows (payments d)) as [|p l IH]; [done|].
  cbn. specialize (D p). destruct (f p), (g p); cbn [length orb]; lia.
Qed.

Lemma exact_total flt key n d : (0 < n)%nat -> snd (rows_with_exact_total flt key n d) = count_where flt d.
Proof.
  intros Hn. unfold rows_with_exact_total. cbn [snd].
  pose proof (select_batch_length_min flt (by_key key) n (rows (payments d))) as E.
  destruct (select_batch _ _ _ _); [|done]. cbn in E. unfold count_where, payments_where.
  destruct (List.filter flt (rows (payments d))); [done|]. cbn in E. lia.
Qed.

Lemma in_batch flt key n d p : In p (fst (rows_with_exact_total flt key n d)) ->
  (exists i, payments d !! i = Some p) /\ flt p = true.
Proof. intros [?%in_rows ?]%select_batch_In. done. Qed.

Lemma batch_complete flt key n d p : count_where flt d <= Z.of_nat n ->
  (exists i, payments d !! i = Some p) -> flt p = true -> In p (fst (rows_with_exact_total flt key n d)).
Proof.
  intros Hn Hp%in_rows Hf. cbn. unfold select_batch. rewrite take_ge.
  - eapply Permutation_in; [symmetry; apply sort_by_Permutation|]. by apply filter_In.
  - rewrite (Permutation_length (sort_by_Permutation _ _)). unfold count_where, payments_where in Hn. lia.
Qed.

Section Facts.
Context (entered_at : Payment -> option Z) (settings : Settings) (now : Z).

(** Every open review needs attention, whatever caused it; so does a delivery
    pending for half an hour, an exhausted link and an unexpected status. *)
Definition stale_pending : Payment -> bool :=
  stale_bot_notify_pending_conditions entered_at (now - minutes 30).

Definition attention_conditions (d : Db) (p : Payment) : bool :=
  (open_manual_review_conditions p || stale_pending p) ||
  reconciliation_exhausted_conditions settings now p || unexpected_status_conditions d now p.

(** Which statuses each condition can hold for. *)
Lemma review_status p : open_manual_review_conditions p = true -> status p = MANUAL_REVIEW.
Proof. unfold open_manual_review_conditions. intros H. by bool_to_prop. Qed.

Lemma stale_status p : stale_pending p = true -> status p = BOT_NOTIFY_PENDING.
Proof. unfold stale_pending, stale_bot_notify_pending_conditions. intros H. by bool_to_prop. Qed.

Lemma exhausted_status p : reconciliation_exhausted_conditions settings now p = true -> status p = LINK_CREATED.
Proof. unfold reconciliation_exhausted_conditions. intros H. by bool_to_prop. Qed.

Lemma unexpected_status d p : unexpected_status_conditions d now p = true ->
  status p = CREATED \/ status p = GETLINK_FAILED \/ status p = GATEWAY_VERIFIED.
Proof.
  unfold unexpected_status_conditions, status_in. intros H. bool_to_prop.
  destruct (status p); cbn in *; auto; by repeat case_bool_decide.
Qed.

Lemma waiting_status p : waiting_conditions settings now p = true -> status p = LINK_CREATED.
Proof. unfold waiting_conditions. intros H. by bool_to_prop. Qed.

Lemma expired_status p : expired_conditions settings now p = true -> status p = LINK_CREATED.
Proof. unfold expired_conditions, aged_out_conditions. intros H. by bool_to_prop. Qed.

(** Two conditions on different statuses exclude each other. *)
Ltac by_status :=
  repeat match goal with
  | H : (_ || _)%bool = true |- _ => apply orb_true_iff in H as [H|H]
  | H : (_ && _)%bool = true |- _ => apply andb_true_iff in H as [? ?]
  | H : negb _ = true |- _ => apply negb_true_iff in H
  end;
  repeat match goal with
  | H : open_manual_review_conditions _ = true |- _ => apply review_status in H
  | H : stale_pending _ = true |- _ => apply stale_status in H
  | H : reconciliation_exhausted_conditions _ _ _ = true |- _ => apply exhausted_status in H
  | H : unexpected_status_conditions _ _ _ = true |- _ => apply unexpected_status in H
  | H : waiting_conditions _ _ _ = true |- _ => apply waiting_status in H
  | H : expired_conditions _ _ _ = true |- _ => apply expired_status in H
  end; intuition congruence.

Lemma link_buckets p : status p = LINK_CREATED -> gateway_verified_at p = None ->
  match expired_conditions settings now p, waiting_conditions settings now p,
        reconciliation_exhausted_conditions settings now p with
  | true, false, false | false, true, false | false, false, true => True
  | _, _, _ => False
  end.
Proof.
  intros Hs Hv. unfold expired_conditions, aged_out_conditions, waiting_conditions,
    reconciliation_exhausted_conditions. rewrite Hs, Hv, bool_decide_eq_true_2 by done. cbn.
  destruct (aged_out_age_condition settings now p); cbn; [done|].
  destruct (reconciliation_next_at p); cbn; [done|].
  destruct (Z.ltb_spec (reconciliation_attempts p) (reconciliation_max_attempts settings)),
    (Z.leb_spec (reconciliation_max_attempts settings) (reconciliation_attempts p)); try done; lia.
Qed.

Lemma delivery_or_other p :
  open_manual_review_conditions p
  = bot_delivery_manual_review_conditions p || non_delivery_manual_review_conditions p.
Proof.
  unfold bot_delivery_manual_review_conditions, non_delivery_manual_review_conditions, is_some.
  by destruct (open_manual_review_conditions p), (is_none (bot_notify_reason p)).
Qed.

Lemma link_open p : waiting_conditions settings now p || expired_conditions settings now p ||
    reconciliation_exhausted_conditions settings now p = true ->
  status p = LINK_CREATED /\ gateway_verified_at p = None.
Proof.
  unfold waiting_conditions, expired_conditions, aged_out_conditions, reconciliation_exhausted_conditions.
  destruct (bool_decide_reflect (status p = LINK_CREATED)), (gateway_verified_at p); done.
Qed.

Lemma link_union p : bool_decide (status p = LINK_CREATED) && is_none (gateway_verified_at p)
  = waiting_conditions settings now p || expired_conditions settings now p ||
    reconciliation_exhausted_conditions settings now p.
Proof.
  apply eq_iff_eq_true. split; [intros H; bool_to_prop|].
  - pose proof (link_buckets p ltac:(done) ltac:(done)) as B. by repeat case_match.
  - intros [Hs Hv]%link_open. rewrite Hs, Hv. by rewrite bool_decide_eq_true_2.
Qed.

Lemma link_exclusive p :
  (waiting_conditions settings now p = true -> expired_conditions settings now p = false) /\
  (waiting_conditions settings now p = true -> reconciliation_exhausted_conditions settings now p = false) /\
  (expired_conditions settings now p = true -> reconciliation_exhausted_conditions settings now p = false).
Proof.
  pose proof (link_open p) as O. pose proof (link_buckets p) as B.
  destruct (waiting_conditions settings now p), (expired_conditions settings now p),
    (reconciliation_exhausted_conditions settings now p); try done; destruct (O eq_refl); exfalso; eauto.
Qed.

Lemma overview_totals d :
  let o := stuck_payments_overview entered_at settings now d in
  total_needs_attention o = count_where (fun p => open_manual_review_conditions p || stale_pending p) d
    + count_where (reconciliation_exhausted_conditions settings now) d
    + count_where (unexpected_status_conditions d now) d /\
  total_waiting o = count_where (waiting_conditions settings now) d /\
  total_expired o = count_where (expired_conditions settings now) d.
Proof.
  assert (Hcap : (0 < QUERY_CAP)%nat) by (unfold QUERY_CAP; lia).
  pose proof (fun flt key => exact_total flt key QUERY_CAP d Hcap) as E.
  cbv zeta. split_and!; [|exact (E (waiting_conditions settings now) (fun p => [link_age_anchor p]))
    |exact (E (expired_conditions settings now) (fun p => [link_age_anchor p]))].
  rewrite <- (E (fun p => open_manual_review_conditions p || stale_pending p)
    (attention_key entered_at open_manual_review_conditions)),
    <- (E (reconciliation_exhausted_conditions settings now) (fun p => [link_age_anchor p])),
    <- (E (unexpected_status_conditions d now) (fun p => [created_at p])). done.
Qed.

(** The overview counts every payment once. Its attention total is the
    number of payments that meet at least one attention condition; it is
    also the sum of the two numbers the bot shows, deliveries and others. The
    unverified [link_created] payments are those waiting, those expired and
    those exhausted, and each total is the number of payments that meet the
    condition, not the number of entries that fit below the cap. *)
Theorem overview_totals_exact limit d : (0 < limit)%nat ->
  let o := stuck_payments_overview entered_at settings now d in
  total_needs_attention o = count_where (attention_conditions d) d /\
  total_needs_attention o =
    snd (bot_delivery_snapshot entered_at d now 30 (bot_notify_claim_timeout settings) limit) +
    count_other_attention settings now d /\
  total_waiting o = count_waiting settings now d /\ total_expired o = count_expired settings now d /\
  count_where (fun p => bool_decide (status p = LINK_CREATED) && is_none (gateway_verified_at p)) d =
    total_waiting o + total_expired o + count_where (reconciliation_exhausted_conditions settings now) d.
Proof.
  intros Hlim. cbv zeta. destruct (overview_totals d) as (E1 & E2 & E3). rewrite E1, E2, E3.
  assert (D : forall f g : Payment -> bool, (forall p, f p = true -> g p = true -> False) ->
    count_where (fun p => f p || g p) d = count_where f d + count_where g d).
  { intros f g H. apply count_where_or. intros p Hf. apply not_true_iff_false. eauto. }
  split_and!; [| |done|done|].
  - unfold attention_conditions. rewrite !D; [done|..]; intros p H H'; by_status.
  - unfold count_other_attention, other_attention_conditions.
    change (snd (bot_delivery_snapshot _ _ _ _ _ _)) with (snd (rows_with_exact_total
      (fun p => bot_delivery_manual_review_conditions p || stale_pending p)
      (attention_key entered_at bot_delivery_manual_review_conditions) limit d)).
    rewrite exact_total by done. rewrite (count_where_ext _ _ d (fun p => f_equal (fun b => b || stale_pending p)
      (delivery_or_other p))).
    rewrite !D; [lia|..]; unfold bot_delivery_manual_review_conditions, non_delivery_manual_review_conditions, is_some;
      intros p H H'; by_status.
  - rewrite <- !D; [|intros p H H'; pose proof (link_exclusive p) as (X1 & X2 & X3);
      try (apply orb_true_iff in H as [H|H]); intuition congruence..].
    apply count_where_ext. apply link_union.
Qed.

(** What a capped listing [batch] of the payments that meet [flt], in the order
    of [key], promises. *)
Definition lists_first (flt : Payment -> bool) (key : Payment -> list Z) (limit : nat) (d : Db)
    (batch : list Payment) (total : Z) : Prop :=
  NoDup (map id batch) /\ Z.of_nat (length batch) = Z.min (Z.of_nat limit) (count_where flt d) /\
  ((0 < limit)%nat -> total = count_where flt d) /\
  (forall p, In p batch -> payments d !! id p = Some p /\ flt p = true) /\
  (forall p q, In p batch -> payments d !! id q = Some q -> flt q = true -> ~ In q batch ->
     lex_le (key p) (key q) = true) /\
  StronglySorted (fun p q => lex_le (key p) (key q) = true) batch.

Lemma rows_listed flt key limit d : keyed id (payments d) -> uniform key ->
  lists_first flt key limit d (fst (rows_with_exact_total flt key limit d))
    (snd (rows_with_exact_total flt key limit d)).
Proof.
  intros K U. split_and!.
  - by apply select_batch_NoDup, keyed_rows_NoDup.
  - cbn [fst rows_with_exact_total]. rewrite select_batch_length_min. unfold count_where, payments_where. lia.
  - apply exact_total.
  - intros p [[i Hi] Hf]%in_batch. by rewrite (K i p Hi) in *.
  - intros p q Hp Hq Hf Hn. eapply (by_key_first key flt limit); [done|exact Hp|apply in_rows; eauto|done|done].
  - cbn [fst rows_with_exact_total]. unfold select_batch. apply sorted_prefix, (sort_by_sorted (by_key key)).
    + intros p q. by apply lex_le_total.
    + intros p q r. apply lex_le_trans.
Qed.

(** The two link listings show the payments that matter most. [waiting]
    lists at most [limit] waiting payments, each once, the longest waiting
    first: whatever is left out waits no longer than what is shown. [expired]
    lists the most recently expired first. Both report the exact number of
    payments that meet the condition, however small the limit. *)
Theorem snapshots_most_urgent_first limit d : keyed id (payments d) ->
  let '(waiting, total_w) := waiting_snapshot settings now d limit in
  let '(expired, total_e) := expired_snapshot settings now d limit in
  lists_first (waiting_conditions settings now) (fun p => [link_age_anchor p; id p]) limit d
    (map se_payment waiting) total_w /\
  lists_first (expired_conditions settings now) (fun p => [- link_age_anchor p; - id p]) limit d
    (map se_payment expired) total_e /\
  (forall p q, In p (map se_payment waiting) -> payments d !! id q = Some q ->
     waiting_conditions settings now q = true -> ~ In q (map se_payment waiting) ->
     link_age_anchor p <= link_age_anchor q) /\
  (forall p q, In p (map se_payment expired) -> payments d !! id q = Some q ->
     expired_conditions settings now q = true -> ~ In q (map se_payment expired) ->
     link_age_anchor q <= link_age_anchor p).
Proof.
  intros K. unfold waiting_snapshot, expired_snapshot.
  pose proof (rows_listed (waiting_conditions settings now) (fun p => [link_age_anchor p; id p]) limit d K) as W.
  pose proof (rows_listed (expired_conditions settings now) (fun p => [- link_age_anchor p; - id p]) limit d K) as X.
  destruct (rows_with_exact_total (waiting_conditions _ _) _ _ _) as [ws tw].
  destruct (rows_with_exact_total (expired_conditions _ _) _ _ _) as [es te]. cbn [fst snd] in *.
  rewrite !map_map, !map_id. specialize (W (fun _ _ => eq_refl)). specialize (X (fun _ _ => eq_refl)).
  split_and!; [exact W|exact X|..].
  - intros p q Hp Hq Hf Hn. destruct W as (_ & _ & _ & _ & H & _). specialize (H p q Hp Hq Hf Hn).
    cbn in H. apply orb_true_iff in H as [H|[H _]%andb_true_iff]; lia.
  - intros p q Hp Hq Hf Hn. destruct X as (_ & _ & _ & _ & H & _). specialize (H p q Hp Hq Hf Hn).
    cbn in H. apply orb_true_iff in H as [H|[H _]%andb_true_iff]; lia.
Qed.
End Facts.

(** ** Witnesses *)

(** Two links of different age, an expired one, a review and a stale
    delivery. *)
Definition at_second (i t : Z) (p : Payment) : Payment :=
  p <| id := i |> <| callback_token_issued_at := Some (seconds t) |>.

Definition busy_db : Db := db_of
  [at_second 1 99990 example_payment; at_second 2 99980 example_payment; at_second 3 5 example_payment;
   (example_due 5) <| id := 4 |>;
   example_payment <| id := 5 |> <| status := MANUAL_REVIEW |> <| manual_review_at := Some (seconds 9) |>].

Definition busy_overview : StuckOverview :=
  stuck_payments_overview (fun _ => None) default_settings (seconds 100000) busy_db.

Lemma overview_totals_exact_witness :
  total_needs_attention busy_overview = 2 /\ map (fun e => id (se_payment e)) (ordered busy_overview) = [5; 4; 2; 1; 3] /\
  total_needs_attention busy_overview = count_where
    (attention_conditions (fun _ => None) default_settings (seconds 100000) busy_db) busy_db.
Proof.
  split; [vm_compute; reflexivity|]. split; [vm_compute; reflexivity|].
  apply (overview_totals_exact (fun _ => None) default_settings (seconds 100000) 1 busy_db). lia.
Defined.

Lemma busy_keyed : keyed id (payments busy_db).
Proof. apply (bool_decide_unpack (map_Forall (fun i p => id p = i) (payments busy_db))). vm_compute. exact I. Qed.

Lemma snapshots_most_urgent_first_witness :
  map (fun e => id (se_payment e)) (fst (waiting_snapshot default_settings (seconds 100000) busy_db 1)) = [2] /\
  snd (waiting_snapshot default_settings (seconds 100000) busy_db 1) = 2 /\
  forall q, payments busy_db !! id q = Some q -> waiting_conditions default_settings (seconds 100000) q = true ->
    ~ In q [at_second 2 99980 example_payment] -> seconds 99980 <= link_age_anchor q.
Proof.
  split; [vm_compute; reflexivity|]. split; [vm_compute; reflexivity|].
  pose proof (snapshots_most_urgent_first default_settings (seconds 100000) 1 busy_db busy_keyed) as H.
  assert (E : map se_payment (fst (waiting_snapshot default_settings (seconds 100000) busy_db 1))
    = [at_second 2 99980 example_payment]) by (vm_compute; reflexivity).
  destruct (waiting_snapshot _ _ _ _) as [ws tw], (expired_snapshot _ _ _ _) as [es te].
  cbn [fst] in E. destruct H as (_ & _ & H & _). rewrite E in H.
  intros q. exact (H (at_second 2 99980 example_payment) q (or_introl eq_refl)).
Defined.
