(* ===== verification/Integrity.v ===== *)
(** The integrity checks of the operator's command line ([run_db_checks] and
    [_cmd_privacy_audit] of [app/ops.py]).

    What the checks count in the tables is computed here. The migration
    revision and the id sequences belong to the database server: the revision
    is an argument, and the state of the sequences is passed through
    ([Sequences]), since [--repair-sequences] writes it. *)

From S2P Require Import Prelude PyText Exceptions Config Models Identity Session AuditTrail Ledger.
From S2P Require Import Attention Stuck.

(** ** Counting *)

(** [dup_count(column)]: the values that occur in more than one row. *)
Definition dup_count {A B} `{EqDecision B} (col : A -> option B) (l : list A) : Z :=
  let vals := omap col l in
  Z.of_nat (length (List.filter (fun v => (1 <? length (List.filter (fun u => bool_decide (u = v)) vals))%nat)
                      (remove_dups vals))).

Definition all_statuses : list PaymentStatus :=
  [CREATED; LINK_CREATED; GETLINK_FAILED; GATEWAY_VERIFIED; BOT_NOTIFY_PENDING; BOT_NOTIFY_ACCEPTED; MANUAL_REVIEW].

Definition count_rows {A} (flt : A -> bool) (l : list A) : Z := Z.of_nat (length (List.filter flt l)).

(** ** The checks *)

Definition orphan_event (d : Db) (e : PaymentEvent) : bool :=
  match event_payment_id e with Some i => is_none (payments d !! i) | None => false end.

Definition orphan_policy (d : Db) (p : Payment) : bool :=
  match fee_policy_id p with Some i => is_none (fee_policies d !! i) | None => false end.

Definition invalid_policy (r : FeePolicy) : bool :=
  (rate_bps r <? 0) || (10000 <? rate_bps r) || String.eqb (note r) "" ||
  (is_some (cancelled_at r) && (is_none (cancelled_by r) || is_none (cancellation_note r))).

(** The counts, in the order of the report. The column [payable_amount] is NOT
    NULL, so that no row can be missing it. *)
Definition db_checks (d : Db) : list (string * Z) :=
  [("invalid_payment_status", count_where (fun p => negb (status_in (status p) all_statuses)) d);
   ("duplicate_bot_order_id", dup_count (fun p => Some (bot_order_id p)) (rows (payments d)));
   ("duplicate_gateway_order_id", dup_count (fun p => Some (gateway_order_id p)) (rows (payments d)));
   ("duplicate_reference_id", dup_count reference_id (rows (payments d)));
   ("orphan_payment_events", count_rows (orphan_event d) (payment_events d));
   ("claims_on_non_pending_payments",
     count_where (fun p => is_some (notification_claimed_at p) &&
                           negb (bool_decide (status p = BOT_NOTIFY_PENDING))) d);
   ("invalid_fee_rate", count_where (fun p => (fee_rate_bps p <? 0) || (10000 <? fee_rate_bps p)) d);
   ("negative_fee_amount", count_where (fun p => fee_amount p <? 0) d);
   ("payable_amount_mismatch", count_where (fun p => negb (payable_amount p =? amount p + fee_amount p)) d);
   ("missing_payable_amount", count_where (fun _ => false) d);
   ("orphan_fee_policy_reference", count_where (orphan_policy d) d);
   ("policyless_payment_with_fee",
     count_where (fun p => is_none (fee_policy_id p) &&
                           (negb (fee_rate_bps p =? 0) || negb (fee_amount p =? 0))) d);
   ("invalid_fee_policy_rows", count_rows invalid_policy (rows (fee_policies d)))].

(** *** The id sequences *)

(** A sequence of the server: its name and [SELECT last_value, is_called]. *)
Record Sequence := mkSequence {
  sequence_name : string;
  last_value : Z;
  is_called : bool
}.

(** The sequences by table ([pg_get_serial_sequence]); a table may have none. *)
Abbreviation Sequences := (gmap string Sequence).

Definition SEQUENCE_TABLES : list string :=
  ["payments"; "payment_events"; "admin_alerts"; "worker_heartbeats"; "fee_policies"; "monitor_incidents"].

(** [func.max] of a column. *)
Definition column_max (l : list Z) : option Z :=
  fold_right (fun a m => match m with Some b => Some (Z.max a b) | None => Some a end) None l.

(** [SELECT COALESCE(MAX(id), 0)]; an event's id is its place in the trail. *)
Definition table_max_id (table : string) (d : Db) : Z :=
  let highest ids := default 0 (column_max ids) in
  if String.eqb table "payments" then highest (map fst (map_to_list (payments d)))
  else if String.eqb table "payment_events" then Z.of_nat (length (payment_events d))
  else if String.eqb table "admin_alerts" then highest (map fst (map_to_list (admin_alerts d)))
  else if String.eqb table "worker_heartbeats" then highest (map fst (map_to_list (worker_heartbeats d)))
  else if String.eqb table "fee_policies" then highest (map fst (map_to_list (fee_policies d)))
  else if String.eqb table "monitor_incidents" then highest (map fst (map_to_list (monitor_incidents d)))
  else 0.

Definition is_behind (max_id : Z) (seq : Sequence) : bool :=
  (0 <? max_id) && ((last_value seq <? max_id) || ((last_value seq =? max_id) && negb (is_called seq))).

(** [setval(seq_name, max_id)]. *)
Definition setval (max_id : Z) (seq : Sequence) : Sequence := mkSequence (sequence_name seq) max_id true.

Record SequenceStatus := mkSequenceStatus {
  sequence_table : string;
  reported_name : string;
  reported_max_id : Z;
  reported_last_value : Z;
  reported_behind : bool
}.

(** What the loop over the tables accumulates, and the sequences it leaves. *)
Record SequenceRun := mkSequenceRun {
  run_statuses : list SequenceStatus;
  run_repaired : list string;
  run_failures : list string;
  run_after : Sequences
}.

Fixpoint check_sequences (repair_sequences : bool) (d : Db) (tables : list string) (seqs : Sequences) : SequenceRun :=
  match tables with
  | [] => mkSequenceRun [] [] [] seqs
  | table :: rest =>
      match seqs !! table with
      | None => check_sequences repair_sequences d rest seqs
      | Some seq =>
          let max_id := table_max_id table d in
          let behind := is_behind max_id seq in
          let repaired := behind && repair_sequences in
          let run := check_sequences repair_sequences d rest
                       (if repaired then <[table := setval max_id seq]> seqs else seqs) in
          mkSequenceRun
            (mkSequenceStatus table (sequence_name seq) max_id (last_value seq) behind :: run_statuses run)
            (if repaired then table :: run_repaired run else run_repaired run)
            (if repaired then run_failures run
             else if behind then ("sequence_behind:" +:+ table) :: run_failures run else run_failures run)
            (run_after run)
      end
  end.

Record DbReport := mkDbReport {
  alembic_revision : option string;
  report_checks : list (string * Z);
  repaired_sequences : list string;
  report_sequences : list SequenceStatus;
  report_failures : list string
}.

(** The report's status is ["ok"]. *)
Definition report_ok (r : DbReport) : bool := match report_failures r with [] => true | _ => false end.

(** The report, and the sequences as the run leaves them. The commit that
    follows a repair is the session's ([cmd_db_check]). *)
Definition run_db_checks (revision : option string) (seqs : Sequences) (repair_sequences : bool) (d : Db)
  : DbReport * Sequences :=
  let checks := db_checks d in
  let run := check_sequences repair_sequences d SEQUENCE_TABLES seqs in
  (mkDbReport revision checks (run_repaired run) (run_statuses run)
     ((if is_none revision then ["alembic_version_missing"] else []) ++
      map fst (List.filter (fun kv => negb (snd kv =? 0)) checks) ++ run_failures run),
   run_after run).

(** ** The privacy audit *)

Inductive CreationGuard := GUARD_ACTIVE | GUARD_DISABLED | GUARD_MISCONFIGURED.

Record PrivacyReport := mkPrivacyReport {
  payments_total : Z;
  legacy_shared_payer_payments : Z;
  isolated_payer_payments : Z;
  untyped_isolated_payments : Z;
  payer_identity_mappings : Z;
  mappings_by_scheme : IdentityScheme -> Z;
  duplicate_gateway_user_ids : Z;
  newest_legacy_payment_at : option Z;
  payment_creation_guard : CreationGuard;
  privacy_failures : list string
}.

Definition privacy_audit (settings : Settings) (d : Db) : PrivacyReport :=
  let mappings := rows (payer_identities d) in
  let legacy := fun p : Payment => is_none (payer_identity_id p) in
  let duplicates := dup_count (fun r => Some (row_gateway_user_id r)) mappings in
  let guard := if negb (payment_creation_enabled settings) then GUARD_DISABLED
               else if String.eqb (centralpay_payer_id_secret settings) "" then GUARD_MISCONFIGURED
               else GUARD_ACTIVE in
  mkPrivacyReport (count_where (fun _ => true) d) (count_where legacy d)
    (count_where (fun p => is_some (payer_identity_id p)) d)
    (count_where (fun p => is_some (payer_identity_id p) && is_none (payer_identity_type p)) d)
    (Z.of_nat (length mappings))
    (fun s => count_rows (fun r => bool_decide (identity_scheme r = s)) mappings)
    duplicates (column_max (map created_at (payments_where legacy d))) guard
    ((match guard with GUARD_MISCONFIGURED => ["payer_id_secret_missing"] | _ => [] end) ++
     (if negb (duplicates =? 0) then ["duplicate_gateway_user_ids"] else [])).

(** ** Facts *)

Section Counting.
Context {B : Type} `{EqDecision B}.

Definition occurrences (v : B) (l : list B) : nat := length (List.filter (fun u => bool_decide (u = v)) l).

Lemma occurrences_cons v a l :
  occurrences v (a :: l) = ((if bool_decide (a = v) then 1 else 0) + occurrences v l)%nat.
Proof. unfold occurrences. cbn. by destruct (bool_decide (a = v)). Qed.

Lemma occurrences_pos v l : (0 < occurrences v l)%nat <-> In v l.
Proof.
  induction l as [|a l IH]; [split; [cbn; lia|done]|]. rewrite occurrences_cons. cbn.
  case_bool_decide; split; [auto|lia|..]; rewrite <- IH; [auto|]. intros [?|?]; [done|lia].
Qed.

Lemma NoDup_occurrences l : NoDup l <-> forall v, In v l -> (occurrences v l <= 1)%nat.
Proof.
  induction l as [|a l IH]; [split; [done|constructor]|]. split.
  - intros [Hni Hnd]%NoDup_cons v Hv. rewrite occurrences_cons. rewrite list_elem_of_In in Hni.
    case_bool_decide as E.
    + subst v. rewrite <- occurrences_pos in Hni. lia.
    + apply IH; [done|]. by destruct Hv as [?|?].
  - intros H. constructor.
    + rewrite list_elem_of_In, <- occurrences_pos. specialize (H a (or_introl eq_refl)).
      rewrite occurrences_cons, bool_decide_eq_true_2 in H by done. lia.
    + apply IH. intros v Hv. specialize (H v (or_intror Hv)). rewrite occurrences_cons in H. lia.
Qed.

Lemma dup_count_NoDup {A} (col : A -> option B) l : dup_count col l = 0 <-> NoDup (omap col l).
Proof.
  unfold dup_count. rewrite NoDup_occurrences. set (vals := omap col l). split.
  - intros H v Hv. destruct (Nat.ltb_spec 1 (occurrences v vals)) as [Hlt|]; [|done].
    assert (Hin : In v (List.filter (fun v => (1 <? occurrences v vals)%nat) (remove_dups vals))).
    { apply filter_In. split; [by apply list_elem_of_In, elem_of_remove_dups, list_elem_of_In|].
      by apply Nat.ltb_lt. }
    unfold occurrences in *. destruct (List.filter _ (remove_dups vals)); [done|cbn in H; lia].
  - intros H. destruct (List.filter _ (remove_dups vals)) as [|v r] eqn:E; [done|].
    assert (Hin : In v (v :: r)) by (by left). rewrite <- E in Hin. apply filter_In in Hin as [Hv Hc].
    rewrite <- list_elem_of_In, elem_of_remove_dups, list_elem_of_In in Hv. specialize (H v Hv).
    apply Nat.ltb_lt in Hc. unfold occurrences in H. lia.
Qed.
End Counting.

Lemma omap_In {A B} (f : A -> option B) l v : In v (omap f l) <-> exists a, In a l /\ f a = Some v.
Proof.
  rewrite <- list_elem_of_In, list_elem_of_omap.
  split; intros (a & Ha & E); exists a; by rewrite list_elem_of_In in *.
Qed.

(** The count of duplicates is zero exactly if the column is unique. *)
Lemma dup_count_unique {A B} `{EqDecision B} (key : A -> Z) (col : A -> option B) (m : gmap Z A) :
  keyed key m -> dup_count col (rows m) = 0 <-> unique_col col m.
Proof.
  intros K. rewrite dup_count_NoDup. pose proof (keyed_rows_NoDup key m K) as N.
  assert (E : unique_col col m <-> forall x y v, In x (rows m) -> In y (rows m) ->
            col x = Some v -> col y = Some v -> key x = key y).
  { split.
    - intros U x y v [i Hx]%in_rows [j Hy]%in_rows Ex Ey. by rewrite (K i x Hx), (K j y Hy), (U i j x y v).
    - intros H i j x y v Hx Hy Ex Ey. rewrite <- (K i x Hx), <- (K j y Hy).
      apply (H x y v); [apply in_rows; eauto|apply in_rows; eauto|done|done]. }
  rewrite E. clear E. revert N. induction (rows m) as [|a l IH]; [split; [done|constructor]|].
  cbn. intros [Hni N]%NoDup_cons. specialize (IH N). rewrite list_elem_of_In in Hni.
  split.
  - intros Hd x y v. destruct (col a) as [va|] eqn:Ea.
    + apply NoDup_cons in Hd as [Hna Hd]. rewrite list_elem_of_In, omap_In in Hna.
      intros [<-|Hx] [<-|Hy] Ex Ey; [done| | |by eapply IH].
      * destruct Hna. exists y. split; [done|congruence].
      * destruct Hna. exists x. split; [done|congruence].
    + intros [<-|Hx] [<-|Hy] Ex Ey; [congruence..|]. by eapply IH.
  - intros H. assert (Hl : NoDup (omap col l)) by (apply IH; intros x y v Hx Hy; apply H; by right).
    destruct (col a) as [va|] eqn:Ea; [|done]. constructor; [|done].
    rewrite list_elem_of_In, omap_In. intros (x & Hx & Ex). apply Hni.
    rewrite (H a x va); [by apply in_map|by left|by right|done|done].
Qed.

Lemma count_rows_zero {A} (flt : A -> bool) l : count_rows flt l = 0 <-> forall a, In a l -> flt a = false.
Proof.
  unfold count_rows. induction l as [|a l IH]; [done|]. cbn. destruct (flt a) eqn:E; cbn [length].
  - split; [lia|]. intros H. specialize (H a (or_introl eq_refl)). congruence.
  - rewrite IH. split; [intros H b [<-|Hb]; auto|auto].
Qed.

Lemma count_where_zero flt d : count_where flt d = 0 <-> forall i p, payments d !! i = Some p -> flt p = false.
Proof.
  change (count_where flt d) with (count_rows flt (rows (payments d))). rewrite count_rows_zero. split.
  - intros H i p Hi. apply H, in_rows. eauto.
  - intros H p [i Hi]%in_rows. eauto.
Qed.

(** What an operator may conclude from a report without failures. *)
Record intact (d : Db) : Prop := {
  in_orders : unique_orders (payments d);
  in_gateways : unique_gateway_orders (payments d);
  in_references : unique_col reference_id (payments d);
  in_events : forall e i, In e (payment_events d) -> event_payment_id e = Some i -> is_Some (payments d !! i);
  in_claims : forall i p, payments d !! i = Some p -> is_some (notification_claimed_at p) = true ->
    status p = BOT_NOTIFY_PENDING;
  in_price : forall i p, payments d !! i = Some p ->
    0 <= fee_rate_bps p <= 10000 /\ 0 <= fee_amount p /\ payable_amount p = amount p + fee_amount p;
  in_policy : forall i p k, payments d !! i = Some p -> fee_policy_id p = Some k -> is_Some (fee_policies d !! k);
  in_policyless : forall i p, payments d !! i = Some p -> fee_policy_id p = None ->
    fee_rate_bps p = 0 /\ fee_amount p = 0;
  in_policies : forall r, In r (rows (fee_policies d)) -> invalid_policy r = false
}.

(** *** The sequences *)

Lemma list_filter_none {A} (f : A -> bool) l : (forall x, In x l -> f x = false) -> List.filter f l = [].
Proof.
  induction l as [|x l IH]; [done|]. intros H. cbn. rewrite H by (by left). apply IH. intros y Hy. apply H. by right.
Qed.

(** The tables whose sequence would hand out an id again. *)
Definition behind_in (seqs : Sequences) (d : Db) (table : string) : bool :=
  match seqs !! table with Some seq => is_behind (table_max_id table d) seq | None => false end.

Definition tables_behind (seqs : Sequences) (d : Db) : list string := List.filter (behind_in seqs d) SEQUENCE_TABLES.

Lemma setval_not_behind m seq : is_behind m (setval m seq) = false.
Proof. unfold is_behind, setval. cbn. rewrite Z.ltb_irrefl, Z.eqb_refl. by destruct (0 <? m). Qed.

Lemma behind_insert seqs d table t seq : t <> table -> behind_in (<[table := seq]> seqs) d t = behind_in seqs d t.
Proof. intros Hn. unfold behind_in. by rewrite lookup_insert_ne. Qed.

(** Checking alone changes no sequence and reports those behind. *)
Lemma check_sequences_reports d tables seqs : let run := check_sequences false d tables seqs in
  run_after run = seqs /\ run_repaired run = [] /\
  run_failures run = map (fun t => "sequence_behind:" +:+ t) (List.filter (behind_in seqs d) tables).
Proof.
  induction tables as [|t tables IH]; [done|]. cbn. unfold behind_in at 1. destruct (seqs !! t) as [seq|]; [|done].
  rewrite andb_false_r. cbn. destruct IH as (H1 & H2 & H3). destruct (is_behind _ _); cbn; by rewrite ?H3.
Qed.

(** Repairing sets exactly the sequences behind, each to its table's maximum,
    and fails nothing. *)
Lemma check_sequences_repairs d tables seqs : NoDup tables -> let run := check_sequences true d tables seqs in
  run_failures run = [] /\ run_repaired run = List.filter (behind_in seqs d) tables /\
  (forall t, ~ In t (run_repaired run) -> run_after run !! t = seqs !! t) /\
  (forall t, In t (run_repaired run) -> run_after run !! t = setval (table_max_id t d) <$> seqs !! t).
Proof.
  revert seqs. induction tables as [|t tables IH]; intros seqs; [done|]. intros [Hn Hnd]%NoDup_cons.
  rewrite list_elem_of_In in Hn. cbn. unfold behind_in at 1. destruct (seqs !! t) as [seq|] eqn:Es; [|by apply IH].
  rewrite andb_true_r. destruct (is_behind (table_max_id t d) seq) eqn:Eb; cbn; [|by destruct (IH seqs Hnd) as (? & ? & ?)].
  destruct (IH (<[t := setval (table_max_id t d) seq]> seqs) Hnd) as (H1 & H2 & H3 & H4).
  assert (Ef : List.filter (behind_in (<[t := setval (table_max_id t d) seq]> seqs) d) tables
               = List.filter (behind_in seqs d) tables).
  { apply filter_ext_in. intros t' Ht'. apply behind_insert. congruence. }
  assert (Ht : ~ In t (run_repaired (check_sequences true d tables (<[t := setval (table_max_id t d) seq]> seqs)))).
  { rewrite H2, Ef, filter_In. tauto. }
  split_and!; [done|by rewrite H2, Ef| |].
  - intros t' Hno. rewrite H3 by tauto. apply lookup_insert_ne. intros ->. tauto.
  - intros t' [<-|Hin].
    + rewrite H3 by done. by rewrite lookup_insert_eq, Es.
    + rewrite H4 by done. rewrite lookup_insert_ne; [done|]. by intros <-.
Qed.

Lemma sequence_tables_distinct : NoDup SEQUENCE_TABLES.
Proof. by apply (bool_decide_unpack (NoDup SEQUENCE_TABLES)). Qed.

(** A repair: the tables [repaired] are those behind, their sequences are set
    to the largest id, no other sequence moves, and none is behind any more. *)
Record repairs (seqs : Sequences) (d : Db) (repaired : list string) (after : Sequences) : Prop := {
  rp_tables : repaired = tables_behind seqs d;
  rp_set : forall t, In t repaired -> after !! t = setval (table_max_id t d) <$> seqs !! t;
  rp_kept : forall t, ~ In t repaired -> after !! t = seqs !! t;
  rp_none : tables_behind after d = []
}.

Lemma repaired_run revision seqs d : let run := run_db_checks revision seqs true d in
  repairs seqs d (repaired_sequences (fst run)) (snd run).
Proof.
  unfold run_db_checks. pose proof sequence_tables_distinct as Hnd. cbn [fst snd repaired_sequences].
  destruct (check_sequences_repairs d SEQUENCE_TABLES seqs Hnd) as (_ & H2 & H3 & H4). cbv zeta in *.
  set (run := check_sequences true d SEQUENCE_TABLES seqs) in *. clearbody run. fold (tables_behind seqs d) in H2.
  split; [done..|]. unfold tables_behind. apply list_filter_none. intros t Ht. unfold behind_in.
  destruct (behind_in seqs d t) eqn:Eb.
  - assert (Hr : In t (run_repaired run)) by (rewrite H2; by apply filter_In). rewrite H4 by done.
    destruct (seqs !! t) as [seq|]; [|done]. apply setval_not_behind.
  - assert (Hr : ~ In t (run_repaired run)) by (rewrite H2; unfold tables_behind; rewrite filter_In; intros [_ ?]; congruence).
    by rewrite H3.
Qed.

Lemma unique_orders_col (m : gmap Z Payment) : unique_orders m <-> unique_col (fun p => Some (bot_order_id p)) m.
Proof.
  split.
  - intros U i j x y v Hx Hy [= <-] [= E]. by apply (U i j x y).
  - intros U i j p q Hp Hq E. apply (U i j p q (bot_order_id p)); congruence.
Qed.


Lemma failing_nil (checks : list (string * Z)) :
  map fst (List.filter (fun kv => negb (snd kv =? 0)) checks) = [] <-> Forall (fun kv => snd kv = 0) checks.
Proof.
  induction checks as [|[k n] l IH]; cbn; [done|]. destruct (Z.eqb_spec n 0) as [->|Hn]; cbn.
  - rewrite IH. split; [by constructor|]. by inversion 1.
  - split; [done|]. inversion 1. done.
Qed.

Lemma present {A} (o : option A) : is_none o = false -> is_Some o.
Proof. intros [a ->]%is_none_false. eauto. Qed.

(** The checks that count rows, spelt out. *)
Lemma intact_counts d :
  (0 = 0 /\ unique_orders (payments d) /\ unique_gateway_orders (payments d) /\
   unique_col reference_id (payments d) /\ count_rows (orphan_event d) (payment_events d) = 0 /\
   count_where (fun p => is_some (notification_claimed_at p) &&
                         negb (bool_decide (status p = BOT_NOTIFY_PENDING))) d = 0 /\
   count_where (fun p => (fee_rate_bps p <? 0) || (10000 <? fee_rate_bps p)) d = 0 /\
   count_where (fun p => fee_amount p <? 0) d = 0 /\
   count_where (fun p => negb (payable_amount p =? amount p + fee_amount p)) d = 0 /\ 0 = 0 /\
   count_where (orphan_policy d) d = 0 /\
   count_where (fun p => is_none (fee_policy_id p) &&
                         (negb (fee_rate_bps p =? 0) || negb (fee_amount p =? 0))) d = 0 /\
   count_rows invalid_policy (rows (fee_policies d)) = 0 /\ True) <-> intact d.
Proof.
  rewrite !count_where_zero, !count_rows_zero. split.
  - intros (_ & H1 & H2 & H3 & H4 & H5 & H6 & H7 & H8 & _ & H9 & H10 & H11 & _). split; [done..| | | | | |done].
    + intros e i He Hi. specialize (H4 e He). unfold orphan_event in H4. rewrite Hi in H4. by apply present.
    + intros i p Hp Hc. specialize (H5 i p Hp).
      apply andb_false_iff in H5 as [H5|H5]; [congruence|]. by bool_to_prop.
    + intros i p Hp. specialize (H6 i p Hp). specialize (H7 i p Hp). specialize (H8 i p Hp).
      apply orb_false_iff in H6 as [? ?]. bool_to_prop. lia.
    + intros i p k Hp Hk. specialize (H9 i p Hp). unfold orphan_policy in H9. rewrite Hk in H9. by apply present.
    + intros i p Hp Hn. specialize (H10 i p Hp). rewrite Hn in H10.
      cbn in H10. apply orb_false_iff in H10 as [? ?]. bool_to_prop. lia.
  - intros [H1 H2 H3 H4 H5 H6 H7 H8 H9]. split_and!; [done..| | | | | |done| | |done|done].
    + intros e He. unfold orphan_event. destruct (event_payment_id e) as [i|] eqn:Ei; [|done].
      destruct (H4 e i He Ei) as [p ->]. done.
    + intros i p Hp. destruct (is_some (notification_claimed_at p)) eqn:Hc; [|done].
      by rewrite (H5 i p Hp Hc), bool_decide_eq_true_2.
    + intros i p Hp. destruct (H6 i p Hp) as (? & _). lia.
    + intros i p Hp. destruct (H6 i p Hp) as (_ & ? & _). lia.
    + intros i p Hp. destruct (H6 i p Hp) as (_ & _ & ->). by rewrite Z.eqb_refl.
    + intros i p Hp. unfold orphan_policy. destruct (fee_policy_id p) as [k|] eqn:Ek; [|done].
      by destruct (H7 i p k Hp Ek) as [r ->].
    + intros i p Hp. destruct (fee_policy_id p) eqn:Ek; [done|]. by destruct (H8 i p Hp Ek) as [-> ->].
Qed.

Lemma ledger_counts d : db_ok d ->
  count_where (fun p => (fee_rate_bps p <? 0) || (10000 <? fee_rate_bps p)) d = 0 /\
  count_where (fun p => fee_amount p <? 0) d = 0 /\
  count_where (fun p => negb (payable_amount p =? amount p + fee_amount p)) d = 0.
Proof.
  intros Hok. rewrite !count_where_zero. split_and!; intros i p Hp;
    pose proof (ok_rows d Hok i p Hp) as (_ & _ & _ & (_ & H2 & H3) & H4)%row_ok_spec; [lia|lia|].
  by rewrite H3, Z.eqb_refl.
Qed.

Lemma report_failures_read revision seqs d :
  report_failures (fst (run_db_checks (Some revision) seqs false d)) =
  map fst (List.filter (fun kv => negb (snd kv =? 0)) (db_checks d)) ++
  map (fun t => "sequence_behind:" +:+ t) (tables_behind seqs d).
Proof.
  unfold run_db_checks, tables_behind. generalize SEQUENCE_TABLES as tables. intros tables.
  cbn [fst report_failures is_none app]. by rewrite (proj2 (proj2 (check_sequences_reports d tables seqs))).
Qed.

(** C24: The integrity checks are exact. With a recorded revision the report is
    clean if and only if no sequence is behind and the tables are
    intact: one payment per bot order, per gateway order and per credited
    reference, no event or fee policy missing, claims on pending deliveries
    only, and every price consistent with its snapshot. A well-formed ledger,
    as the bridge keeps it, passes every check on order numbers, references
    and prices, and never fails the privacy audit but for a missing secret. *)
Theorem integrity_checks_exact revision seqs d : keyed id (payments d) ->
  let report := fst (run_db_checks (Some revision) seqs false d) in
  (report_ok report = true <-> intact d /\ tables_behind seqs d = []) /\
  (db_ok d -> forall settings,
     (forall name, In name (report_failures report) ->
        In name ["orphan_payment_events"; "claims_on_non_pending_payments"; "orphan_fee_policy_reference";
                 "policyless_payment_with_fee"; "invalid_fee_policy_rows"] \/
        exists t, In t (tables_behind seqs d) /\ name = "sequence_behind:" +:+ t) /\
     (forall name, In name (privacy_failures (privacy_audit settings d)) ->
        name = "payer_id_secret_missing" /\ centralpay_payer_id_secret settings = "")).
Proof.
  intros K report. pose proof (report_failures_read revision seqs d) as Hf. fold report in Hf. clearbody report.
  assert (Hst : count_where (fun p => negb (status_in (status p) all_statuses)) d = 0).
  { apply count_where_zero. intros i p _. by destruct (status p). }
  assert (Hmiss : count_where (fun _ => false) d = 0) by (by apply count_where_zero).
  pose proof (dup_count_unique id (fun p => Some (bot_order_id p)) _ K) as U1.
  pose proof (dup_count_unique id (fun p => Some (gateway_order_id p)) _ K) as U2.
  pose proof (dup_count_unique id reference_id _ K) as U3. rewrite <- unique_orders_col in U1. split.
  - unfold report_ok. rewrite Hf. clear Hf.
    transitivity (Forall (fun kv => snd kv = 0) (db_checks d) /\ tables_behind seqs d = []).
    { rewrite <- failing_nil. destruct (map fst _); [|by split; [|intros [? _]]].
      cbn [app]. destruct (tables_behind seqs d); cbn; [done|]. by split; [|intros [_ ?]]. }
    unfold db_checks. rewrite !Forall_cons, Forall_nil. cbn [snd].
    rewrite Hst, Hmiss, U1, U2, U3. by rewrite (intact_counts d).
  - intros Hok settings. split.
    + intros name. rewrite Hf. clear Hf.
      intros [Hin|(t & <- & Ht)%in_map_iff]%in_app_or; [left|right; by exists t].
      apply in_map_iff in Hin as ([k n] & <- & [Hin Hn]%filter_In). cbn in Hn |- *. apply negb_true_iff, Z.eqb_neq in Hn.
      destruct (ledger_counts d Hok) as (R1 & R2 & R3). destruct Hok as [_ _ _ O1 O3 O2].
      apply U1 in O1. apply U2 in O2. apply U3 in O3.
      unfold db_checks in Hin. cbn [In] in Hin. rewrite Hst, Hmiss, O1, O2, O3, R1, R2, R3 in Hin. clear - Hin Hn.
      repeat (destruct Hin as [[= <- <-]|Hin]; [first [by destruct Hn|cbn; tauto]|]). done.
    + intros name. unfold privacy_audit. cbn [privacy_failures].
      pose proof (ok_identities d Hok) as [Ki _ Ug _]. pose proof (dup_count_unique _ (fun r => Some (row_gateway_user_id r)) _ Ki) as U4.
      apply U4 in Ug. rewrite Ug. cbn [negb Z.eqb]. rewrite app_nil_r.
      destruct (negb (payment_creation_enabled settings)); [done|].
      destruct (String.eqb_spec (centralpay_payer_id_secret settings) ""); [|done]. by intros [<-|[]].
Qed.

(** ** Witness *)

(** Two payments for one order, the second with a wrong price. *)
Definition damaged_db : Db :=
  db_of [example_payment; example_payment <| id := 2 |> <| payable_amount := 1 |>].

(** The sequence of the payments was left at the one payment's id, unused. *)
Definition restored_sequences : Sequences := {["payments" := mkSequence "public.payments_id_seq" 1 false]}.

Lemma integrity_checks_exact_witness :
  report_failures (fst (run_db_checks (Some "0012") ∅ false damaged_db)) =
    ["duplicate_bot_order_id"; "duplicate_gateway_order_id"; "payable_amount_mismatch"; "orphan_fee_policy_reference"] /\
  keyed id (payments (db_of [example_payment])) /\
  (report_ok (fst (run_db_checks (Some "0012") restored_sequences false (db_of [example_payment]))) = true <->
   intact (db_of [example_payment]) /\ ["payments"] = []).
Proof.
  split; [vm_compute; reflexivity|].
  assert (K : keyed id (payments (db_of [example_payment]))).
  { apply (bool_decide_unpack (map_Forall (fun i p => id p = i) _)). vm_compute. exact I. }
  split; [exact K|]. apply (integrity_checks_exact "0012" restored_sequences (db_of [example_payment]) K).
Defined.
