(* ===== verification/Ops.v ===== *)
(** The operator's command line: [app/ops.py] and the commands of [app/cli.py]
    that write.

    A command is what the argument parser delivers; what it prints is an
    [Output], its exit status a number. Each command works in a session of
    its own. A statement that may wait, for a row lock or for the advisory
    lock of the fee table, starts with [begin_tx]: it sees what other
    sessions committed in the meantime.

    The id sequences of the server are passed through the command line as a
    state of their own: [db-check --repair-sequences] writes them ([setval]).
    The ids that inserted rows draw from them are [next_id] of the table
    ([Models]). The drill-down that [--details] adds to the report is not
    modelled. *)

From S2P Require Import Prelude PyText Exceptions Config Models ServiceTables Identity Session AuditTrail Ledger.
From S2P Require Import Urls CentralPay Security Fees Bot Notification Resend Verification Reconciliation.
From S2P Require Import Inspect AgedOut Reviews Attention Stuck Integrity.

(** ** Commands *)

(** [--at] is what [datetime.fromisoformat] makes of the argument: the time
    and whether it carries a zone, or nothing (ValueError). *)
Inductive FeeCommand :=
  | FeeStatus
  | FeeHistory
  | FeeEnsureInitial (percent : option string) (fee_note actor : string)
  | FeeSet (rate fee_note actor : string) (ensure_initial : bool)
  | FeeSchedule (rate : string) (at_time : option (Z * bool)) (fee_note actor : string)
  | FeeCancel (pid : Z) (fee_note actor : string).

Inductive ReviewAction :=
  | ReviewList (all : bool)
  | ReviewOne (order_id : string) (command : ReviewCommand) (confirm_idempotent_bot yes : bool)
  | ReviewResolveMany (order_ids : list string) (resolution review_note : string) (yes : bool).

Inductive AttentionAction :=
  | AttentionList (resolved : bool) (limit : Z)
  | AttentionShow (order_id : string)
  | AttentionResolve (order_id resolution attention_note : string) (yes : bool).

Inductive OpsCommand :=
  | OpBackupEvent (success : bool) (size file_name : string) (retention_days : Z) (detail : string)
  | OpDbCheck (repair_sequences details details_json : bool)
  | OpPrivacyAudit
  | OpFee (c : FeeCommand)
  | OpReview (c : ReviewAction)
  | OpAttention (c : AttentionAction)
  | OpNotificationAccept (order_id accept_note : string) (yes : bool)
  | OpTestAlert.

Inductive Output :=
  | Messages
  | OutPayments (l : list Payment)
  | OutAttention (l : list AttentionSnapshot)
  | OutFee (active scheduled : option FeePolicy)
  | OutPolicies (l : list FeePolicy)
  | OutBulk (r : BulkReviewReport)
  | OutDb (r : DbReport)
  | OutPrivacy (r : PrivacyReport)
  | OutPreview (snapshot : RecoverySnapshot) (refusal : option RecoveryRefusal)
  | OutRecovery (snapshot : RecoverySnapshot) (outcome : RecoveryOutcome).

Definition Exit : Type := Z * Output.

Definition ACTOR_HOST_CLI : string := "host-cli".

(** The part of [s] after its last slash ([rsplit("/", 1)[-1]]). *)
Fixpoint base_name (s : string) : string :=
  match s with
  | EmptyString => ""
  | String c s' => if str_forallb (fun c => negb (Ascii.eqb c (char 47))) s'
                   then if Ascii.eqb c (char 47) then s' else s
                   else base_name s'
  end.

Section Commands.
Context `{Env}.

(** [_cmd_backup_event]. *)
Definition cmd_backup_event (success : bool) (size file_name : string) (retention_days : Z) (detail : string)
  : M Exit :=
  let given s := negb (String.eqb s "") in
  let data :=
    (if given size then [("size", JStr (str_take 64 size))] else []) ++
    (if given file_name then [("file_name", JStr (str_take 128 (base_name file_name)))] else []) ++
    (if negb (retention_days =? 0) then [("retention_days", JInt retention_days)] else []) ++
    (if given detail then [("detail", JStr (str_take 200 detail))] else []) in
  record_event None (if success then "backup_succeeded" else "backup_failed")
    (if success then "info" else "error") data ;;;
  commit ;;;
  ret (0, Messages).

(** [_cmd_db_check], from one state of the sequences to the next; the commit
    is that of [run_db_checks] after a repair. *)
Definition cmd_db_check (revision : option string) (seqs : Sequences) (repair_sequences : bool)
  : M (Exit * Sequences) :=
  let* d := get_db in
  let '(report, after) := run_db_checks revision seqs repair_sequences d in
  match repaired_sequences report with [] => ret tt | _ => commit end ;;;
  ret ((if report_ok report then 0 else 1, OutDb report), after).

(** [_cmd_test_alert]; the payload's text as UTF-8. *)
Definition cmd_test_alert (settings : Settings) : M Exit :=
  if negb (admin_bot_enabled settings) then ret (1, Messages)
  else
    let* _ := create_alert "admin_test_alert" "info" None None
      (Some [("detail", JStr "پیام آزمایشی — این فقط یک تست است / test message")]) None None in
    commit ;;;
    ret (0, Messages).

(** [_cmd_privacy_audit]. *)
Definition cmd_privacy_audit (settings : Settings) : M Exit :=
  let* d := get_db in
  let report := privacy_audit settings d in
  ret (match privacy_failures report with [] => 0 | _ => 1 end, OutPrivacy report).

(** ** Fees *)

(** [except ValueError]. *)
Definition refuse_value_error (m : M Exit) : M Exit :=
  try_catch m (fun e => match e with
                        | ValueError _ => rollback ;;; ret (1, Messages)
                        | _ => raise e
                        end).

(** Behind the advisory lock: [created] when the table has no row at all. *)
Definition if_no_policy (create : M Exit) : M Exit :=
  begin_tx ;;;
  let* d := get_db in
  if negb (Z.of_nat (size (fee_policies d)) =? 0) then rollback ;;; ret (0, Messages) else create.

Definition fee_status : M Exit :=
  let* now := utcnow in
  let* active := select_effective_policy now in
  let* now := utcnow in
  let* scheduled := next_scheduled_policy now in
  rollback ;;;
  ret (0, OutFee active scheduled).

Definition fee_history : M Exit :=
  let* d := get_db in
  rollback ;;;
  ret (0, OutPolicies (sort_by (fun a b => policy_id a <=? policy_id b) (rows (fee_policies d)))).

Definition fee_ensure_initial (percent : option string) (fee_note actor : string) : M Exit :=
  if_no_policy
    match percent with
    | None => rollback ;;; ret (1, Messages)
    | Some rate =>
        match parse_rate_percent rate with
        | None => rollback ;;; ret (1, Messages)
        | Some bps =>
            let* now := utcnow in
            let* _ := create_policy bps now true actor fee_note false in
            commit ;;;
            ret (0, Messages)
        end
    end.

Definition parsed_rate (rate : string) (k : Z -> M Exit) : M Exit :=
  match parse_rate_percent rate with
  | None => raise (ValueError "rate")
  | Some bps => k bps
  end.

Definition fee_set (rate fee_note actor : string) (ensure_initial : bool) : M Exit :=
  parsed_rate rate (fun bps =>
    let* now := utcnow in
    let create :=
      let* _ := create_policy bps now true actor fee_note false in
      commit ;;;
      ret (0, Messages) in
    if ensure_initial then if_no_policy create else create).

Definition fee_schedule (rate : string) (at_time : option (Z * bool)) (fee_note actor : string) : M Exit :=
  parsed_rate rate (fun bps =>
    match at_time with
    | None => raise (ValueError "isoformat")
    | Some (effective, has_timezone) =>
        if negb has_timezone then raise (ValueError "timezone")
        else
          let* now := utcnow in
          if effective <=? now then raise (ValueError "future")
          else
            let* _ := create_policy bps effective true actor fee_note true in
            commit ;;;
            ret (0, Messages)
    end).

Definition fee_cancel (pid : Z) (fee_note actor : string) : M Exit :=
  let* now := utcnow in
  let* _ := cancel_policy pid actor fee_note now in
  commit ;;;
  ret (0, Messages).

Definition cmd_fee (c : FeeCommand) : M Exit :=
  match c with
  | FeeStatus => fee_status
  | FeeHistory => fee_history
  | FeeEnsureInitial percent fee_note actor => fee_ensure_initial percent fee_note actor
  | FeeSet rate fee_note actor ensure_initial => refuse_value_error (fee_set rate fee_note actor ensure_initial)
  | FeeSchedule rate at_time fee_note actor => refuse_value_error (fee_schedule rate at_time fee_note actor)
  | FeeCancel pid fee_note actor => refuse_value_error (fee_cancel pid fee_note actor)
  end.

(** ** Reviews *)

Definition review_exit (r : ReviewReply) : Exit :=
  match r with
  | ReviewShown p => (0, OutPayments [p])
  | Acknowledged _ | Resolved _ | Requeued _ => (0, Messages)
  | ReviewNotFound | NotInManualReview _ | ResendSafeModeRefused | ResendUnverifiedRefused => (1, Messages)
  end.

(** [_cmd_review_resolve_many]. *)
Definition cmd_review_resolve_many (order_ids : list string) (resolution review_note : string) (yes : bool)
  : M Exit :=
  if negb yes then
    let* report := preview_bulk_resolution order_ids resolution in
    ret (1, OutBulk report)
  else
    let* now := utcnow in
    let* result := resolve_reviews order_ids resolution review_note ACTOR_HOST_CLI now in
    ret (if resolved result then 0 else 1, OutBulk (report result)).

(** [_cmd_review]. *)
Definition review_command (settings : Settings) (c : ReviewAction) : M Exit :=
  match c with
  | ReviewList all =>
      let* d := get_db in
      let* ps := attach_all false
        (sort_by (by_key (fun p => nulls_first (manual_review_at p)))
           (payments_where (if all then manual_review_history_conditions else open_manual_review_conditions) d)) in
      ret (0, OutPayments ps)
  | ReviewOne order_id command _ _ =>
      let* reply := cmd_review settings order_id command in
      ret (review_exit reply)
  | ReviewResolveMany order_ids resolution review_note yes =>
      cmd_review_resolve_many order_ids resolution review_note yes
  end.

(** ** Commands on one order id *)

(** [_find_payment] with the exits every command shares; leaving the command
    closes its session, which rolls back as well. *)
Definition on_found (order_id : string) (k : Payment -> M Exit) : M Exit :=
  let* found := try_catch (let* p := find_payment_by_order_id order_id in ret (inl p))
    (fun e => if is_ambiguous e then ret (inr tt) else raise e) in
  match found with
  | inl (Some p) => k p
  | _ => rollback ;;; ret (1, Messages)
  end.

(** [_cmd_attention]. *)
Definition cmd_attention (c : AttentionAction) : M Exit :=
  match c with
  | AttentionList resolved limit =>
      let* now := utcnow in
      let* d := get_db in
      let batch :=
        if resolved
        then select_batch resolved_attention_condition
               (by_key (fun p => [- default 0 (attention_resolved_at p); - id p])) (Z.to_nat limit)
               (rows (payments d))
        else select_batch (attention_list_conditions d now) (by_key (fun p => [created_at p; id p]))
               (Z.to_nat limit) (rows (payments d)) in
      let* ps := attach_all false batch in
      ret (0, OutAttention (map (fun p =>
        Attention.snapshot p now (resolution_superseded_in_db d p) (latest_link_failure_code d (id p))) ps))
  | AttentionShow order_id =>
      on_found order_id (fun p =>
        let* now := utcnow in
        let* d := get_db in
        let summary :=
          Attention.snapshot p now (resolution_superseded_in_db d p) (latest_link_failure_code d (id p)) in
        rollback ;;;
        ret (0, OutAttention [summary]))
  | AttentionResolve order_id resolution attention_note _ =>
      on_found order_id (fun p =>
        let* now := utcnow in
        let* outcome := resolve_attention (id p) resolution attention_note ACTOR_HOST_CLI now in
        ret (if attention_resolved outcome then 0 else 1, Messages))
  end.

(** [_cmd_notification]. *)
Definition cmd_notification_accept (order_id accept_note : string) : M Exit :=
  on_found order_id (fun p =>
    let* now := utcnow in
    begin_tx ;;;
    let* outcome := execute_manual_accept (id p) accept_note now in
    ret (match outcome with
         | Some o => if accepted o then 0 else 1
         | None => 1
         end, Messages)).

(** [_cmd_recover_aged_out] of [app/cli.py]. *)
Definition cmd_recover_aged_out (settings : Settings) (order_id : string) (confirm : bool) : M Exit :=
  on_found order_id (fun p =>
    if negb confirm then
      let* now := utcnow in
      let* preview := build_preview settings (id p) now in
      ret match preview with
          | None => (1, Messages)
          | Some (snapshot, refusal) => (0, OutPreview snapshot refusal)
          end
    else
      let* result := execute_confirmed_recovery (id p) settings in
      ret match result with
          | None => (1, Messages)
          | Some (snapshot, outcome) =>
              (match AgedOut.kind outcome with RECOVERY_TRANSPORT_FAILED => 1 | _ => 0 end,
               OutRecovery snapshot outcome)
          end).

(** ** [main] of [app/ops.py] *)

Definition blank (s : string) : bool := String.eqb (strip s) "".

(** The commands [main] turns away before it opens a session. *)
Definition turned_away (c : OpsCommand) : bool :=
  match c with
  | OpDbCheck repair_sequences details details_json =>
      details && repair_sequences || details_json && negb details
  | OpFee (FeeSet _ n _ _) | OpFee (FeeSchedule _ _ n _) | OpFee (FeeCancel _ n _) => blank n
  | OpReview (ReviewOne _ (ReviewMutate ReviewResend) confirm_idempotent_bot yes) =>
      negb (confirm_idempotent_bot && yes)
  | OpReview (ReviewOne _ (ReviewMutate (ReviewAcknowledge n)) _ _)
  | OpReview (ReviewOne _ (ReviewMutate (ReviewResolve _ n)) _ _)
  | OpReview (ReviewResolveMany _ _ n _) => blank n
  | OpAttention (AttentionResolve _ _ n yes) => blank n || negb yes
  | OpAttention (AttentionList _ limit) => limit <=? 0
  | OpNotificationAccept _ n yes => blank n || negb yes
  | _ => false
  end.

(** A command that sets no sequence. *)
Definition beside (seqs : Sequences) (m : M Exit) : M (Exit * Sequences) := let* e := m in ret (e, seqs).

Definition ops_main (settings : Settings) (revision : option string) (seqs : Sequences) (c : OpsCommand)
  : M (Exit * Sequences) :=
  if turned_away c then ret ((1, Messages), seqs)
  else
    match c with
    | OpBackupEvent success size file_name retention_days detail =>
        beside seqs (cmd_backup_event success size file_name retention_days detail)
    | OpDbCheck repair_sequences _ _ => cmd_db_check revision seqs repair_sequences
    | OpPrivacyAudit => beside seqs (cmd_privacy_audit settings)
    | OpFee c => beside seqs (cmd_fee c)
    | OpReview c => beside seqs (review_command settings c)
    | OpAttention c => beside seqs (cmd_attention c)
    | OpNotificationAccept order_id n _ => beside seqs (cmd_notification_accept order_id n)
    | OpTestAlert => beside seqs (cmd_test_alert settings)
    end.
End Commands.

(** ** Facts: every command is lawful *)

Section PolicyFacts.
Context {ENV : Env}.

Lemma steady_policies d w : sound w -> db_legal (working w) d -> payments d = payments (working w) ->
  steady w (w <| working := d |>).
Proof.
  intros [Hok Hl Hm] L E. split; [split|reflexivity]; cbn; [done|by transitivity (working w)|].
  by rewrite E.
Qed.

Lemma policies_legal d m : db_legal d (d <| fee_policies := m |>).
Proof.
  split; cbn; [|congruence|by exists []|done..|by apply same_service_legal].
  intros i p Hp. exists p. by split; [|reflexivity].
Qed.

(** Writing the policy table and recording the event. *)
Lemma lawful_put_policies (f : Db -> gmap Z FeePolicy) (k : Db -> M FeePolicy) :
  (forall d, lawful (k d)) ->
  forall w, sound w ->
  wp (put_db ((working w) <| fee_policies := f (working w) |>) ;;; k (working w))
     (fun _ w' => steady w w') w.
Proof.
  intros Hk w Hs. apply wp_lawful_bind.
  assert (S : steady w (w <| working := (working w) <| fee_policies := f (working w) |> |>))
    by (apply steady_policies; [done|apply policies_legal|done]).
  split; [exact S|]. apply Hk, S.
Qed.

Lemma lawful_validate_note n : lawful (validate_note n).
Proof. unfold validate_note. repeat apply lawful_if; auto with bridge. Qed.

Lemma lawful_create_policy rate effective has_timezone actor note scheduled :
  lawful (create_policy rate effective has_timezone actor note scheduled).
Proof.
  unfold create_policy. apply lawful_if; [auto with bridge|]. apply lawful_if; [auto with bridge|].
  apply lawful_bind; [apply lawful_validate_note|]. intros n w Hs. apply wp_bind, wp_get_db.
  apply (lawful_put_policies (fun d => <[_ := mkFeePolicy (next_id (fee_policies d)) _ _ _ _ _ _ _]> _)
           (fun d => _)); [|done].
  auto with bridge.
Qed.

Lemma lawful_cancel_policy pid actor note now : lawful (cancel_policy pid actor note now).
Proof.
  unfold cancel_policy. apply lawful_bind; [apply lawful_validate_note|]. intros n w Hs.
  apply wp_bind, wp_get_db. destruct (fee_policies (working w) !! pid) as [policy|]; [|by apply lawful_raise].
  destruct (is_some (cancelled_at policy)); [by apply lawful_raise|].
  destruct (effective_at policy <=? now); [by apply lawful_raise|].
  apply (lawful_put_policies (fun d => <[pid := _]> (fee_policies d)) (fun d => _)); [|done].
  auto with bridge.
Qed.


End PolicyFacts.

Section CommandFacts.
Context {ENV : Env} {RELY : Rely}.

Lemma steady_if_no_policy create w : sound w -> working w = committed w -> lawful create ->
  wp (if_no_policy create) (fun _ w' => steady w w') w.
Proof.
  intros Hs Hf Hc. unfold if_no_policy. apply wp_bind, wp_begin_tx. intros w1 B.
  pose proof (steady_began _ _ B Hf Hs) as S1. apply wp_bind, wp_get_db.
  eapply (wp_mono _ (fun _ w' => steady w1 w')); [|intros r w' S; by eapply steady_trans].
  destruct (negb _); [|by apply Hc, S1].
  apply (lawful_bind _ _ lawful_rollback (fun _ => lawful_ret _)), S1.
Qed.

Lemma lawful_write_policy {A} (m : M A) (x : Exit) : lawful m -> lawful (let* _ := m in commit ;;; ret x).
Proof. intros Hm. apply lawful_bind; [done|]. auto with bridge. Qed.

Lemma steady_refusing m w : wp m (fun _ w' => steady w w') w -> wp (refuse_value_error m) (fun _ w' => steady w w') w.
Proof.
  intros Hm. apply wp_try. eapply wp_mono; [exact Hm|]. intros [a|e] w' S; [done|].
  destruct e; try (by apply wp_raise).
  eapply (wp_mono _ (fun _ w2 => steady w' w2)); [|intros r w2 S'; by eapply steady_trans].
  apply (lawful_bind _ _ lawful_rollback (fun _ => lawful_ret _)), S.
Qed.

Lemma lawful_fee_status : lawful (cmd_fee FeeStatus).
Proof. unfold cmd_fee, fee_status, select_effective_policy, next_scheduled_policy. auto 20 with bridge. Qed.

Lemma lawful_fee_history : lawful (cmd_fee FeeHistory).
Proof. unfold cmd_fee, fee_history. auto 20 with bridge. Qed.

Lemma fee_steady c w : sound w -> working w = committed w -> wp (cmd_fee c) (fun _ w' => steady w w') w.
Proof.
  intros Hs Hf. destruct c as [| |percent n actor|rate n actor initial|rate at_time n actor|pid n actor].
  - by apply lawful_fee_status.
  - by apply lawful_fee_history.
  - apply steady_if_no_policy; [done|done|]. destruct percent as [rate|]; [|auto with bridge].
    destruct (parse_rate_percent rate); [|auto with bridge].
    apply lawful_bind; [auto with bridge|]. intros now. apply lawful_write_policy, lawful_create_policy.
  - apply steady_refusing. unfold fee_set, parsed_rate. destruct (parse_rate_percent rate) as [bps|]; [|by apply lawful_raise].
    apply wp_bind, wp_utcnow. intros now w1 T. pose proof (steady_called _ _ _ T Hs) as S1.
    eapply (wp_mono _ (fun _ w' => steady w1 w')); [|intros r w' S; by eapply steady_trans].
    destruct initial.
    + apply steady_if_no_policy; [apply S1|by ws|]. apply lawful_write_policy, lawful_create_policy.
    + apply lawful_write_policy, S1. apply lawful_create_policy.
  - apply steady_refusing. unfold fee_schedule, parsed_rate. destruct (parse_rate_percent rate) as [bps|]; [|by apply lawful_raise].
    destruct at_time as [[effective has_timezone]|]; [|by apply lawful_raise].
    apply lawful_if; [auto with bridge| |done]. apply lawful_bind; [auto with bridge|]. intros now.
    apply lawful_if; [auto with bridge|]. apply lawful_write_policy, lawful_create_policy.
  - apply steady_refusing. apply (lawful_bind _ _ lawful_utcnow); [|done]. intros now.
    apply lawful_write_policy, lawful_cancel_policy.
Qed.

(** A lookup has one answer. *)
Lemma lookup_answer_unique order_id d p found : lookup_answer order_id d (Ret (Some p)) ->
  lookup_answer order_id d (Ret found) -> found = Some p.
Proof.
  intros L1 L2. inversion L1 as [|p' Hp Hn Hu| |]; subst. inversion L2 as [Hno|q Hq Hqn _| |]; subst.
  - by destruct (Hno _ _ Hp).
  - by rewrite (Hu _ _ Hq Hqn).
Qed.

Lemma lookup_not_ambiguous order_id d p : lookup_answer order_id d (Ret (Some p)) ->
  ~ lookup_answer order_id d (Raise AmbiguousOrderIdError).
Proof.
  intros L1 L2. inversion L1 as [|p' Hp Hn Hu| |]; subst. inversion L2 as [| |q1 q2 Hq1 Hq2 Hb Hg Hne|]; subst.
  apply Hne. rewrite (Hu _ _ Hq1), (Hu _ _ Hq2); [done|by right|by left].
Qed.

Lemma is_ambiguous_spec e : is_ambiguous e = true -> e = AmbiguousOrderIdError.
Proof. destruct e; cbn; try done. by intros ->%String.eqb_eq. Qed.

(** A lookup by order id: what follows runs on the payment named. *)
Lemma wp_on_found order_id k (Q : Res Exit -> World -> Prop) w :
  sound w -> clean w ->
  (forall e w', looked w w' -> Q (Raise e) w') ->
  (forall w1 w', (forall p, ~ lookup_answer order_id (working w) (Ret (Some p))) ->
     looked w w1 -> did_rollback w1 w' -> Q (Ret (1, Messages)) w') ->
  (forall p w', looked w w' -> lookup_answer order_id (working w) (Ret (Some p)) -> wp (k p) Q w') ->
  wp (on_found order_id k) Q w.
Proof.
  intros Hs C Hraise Hno Hyes. pose proof (so_working w Hs) as Hok. unfold on_found.
  apply wp_bind, wp_try, wp_bind. eapply wp_mono.
  { apply wp_find_payment; [apply Hok|apply Hok|apply Hok|exact C]. }
  assert (Hroll : forall w1, (forall p, ~ lookup_answer order_id (working w) (Ret (Some p))) ->
    looked w w1 -> wp (rollback ;;; ret (1, Messages)) Q w1).
  { intros w1 Hn L. apply wp_bind, wp_rollback. intros w2 R. by apply wp_ret, (Hno w1). }
  intros [found|e] w1 [L A].
  - apply wp_ret. destruct found as [p|]; [by apply Hyes|apply Hroll; [|done]].
    intros p Lp. by pose proof (lookup_answer_unique _ _ _ _ Lp A).
  - destruct (is_ambiguous e) eqn:Ea; [|by apply wp_raise, Hraise]. apply is_ambiguous_spec in Ea as ->.
    apply wp_ret, Hroll; [|done]. intros p Lp. by apply (lookup_not_ambiguous _ _ _ Lp).
Qed.

Lemma steady_on_found order_id k w : sound w -> working w = committed w -> clean w ->
  (forall p w', sound w' -> working w' = committed w' -> clean w' ->
     wp (k p) (fun _ w2 => steady w' w2) w') ->
  wp (on_found order_id k) (fun _ w' => steady w w') w.
Proof.
  intros Hs Hf C Hk. apply wp_on_found; [done|done|..].
  - intros e w' L. by apply steady_looked.
  - intros w1 w' _ L R. pose proof (steady_looked _ _ Hs L) as S1.
    eapply steady_trans; [exact S1|]. by eapply steady_rollback; [|apply S1].
  - intros p w' L _. pose proof (steady_looked _ _ Hs L) as S1.
    eapply wp_mono; [apply Hk; [apply S1|destruct L; congruence|apply L]|].
    intros r w2 S2. by eapply steady_trans.
Qed.

Lemma review_one_steady settings order_id command w : sound w -> working w = committed w -> identity_map w = ∅ ->
  wp (cmd_review settings order_id command) (fun _ w' => steady w w') w.
Proof. intros Hs Hf Hm. eapply wp_mono; [by apply wp_cmd_review|]. by intros r w' [S _]. Qed.

(** Returning something else of what was computed. *)
Lemma steady_map {A B} (m : M A) (f : A -> B) w : wp m (fun _ w' => steady w w') w ->
  wp (let* a := m in ret (f a)) (fun _ w' => steady w w') w.
Proof. intros Hm. apply wp_bind. eapply wp_mono; [exact Hm|]. intros [a|e] w' S; [by apply wp_ret|done]. Qed.

Lemma steady_after_clock {A} (k : Z -> M A) w : sound w ->
  (forall now w', called [] w w' -> sound w' -> wp (k now) (fun _ w2 => steady w' w2) w') ->
  wp (let* now := utcnow in k now) (fun _ w' => steady w w') w.
Proof.
  intros Hs Hk. apply wp_bind, wp_utcnow. intros now w1 T. pose proof (steady_called _ _ _ T Hs) as S1.
  eapply wp_mono; [apply (Hk now w1 T), S1|]. intros r w' S. by eapply steady_trans.
Qed.

(** Reading whole rows. *)
Lemma attach_rows_steady rs w : sound w -> NoDup (map id rs) ->
  (forall row, In row rs -> payments (working w) !! id row = Some row) ->
  wp (attach_all false rs) (fun r w' => steady w w' /\ working w' = working w /\
    committed w' = committed w /\ calls w' = calls w) w.
Proof. intros Hs Hn Hr. apply (wp_attach_all w); [by apply steady_refl|done|done|]. by intros w'. Qed.

Lemma where_rows flt d p : keyed id (payments d) -> In p (payments_where flt d) -> payments d !! id p = Some p.
Proof. intros K [[i Hi]%in_rows _]%filter_In. by rewrite (K i p Hi). Qed.

Lemma where_NoDup flt d : keyed id (payments d) -> NoDup (map id (payments_where flt d)).
Proof.
  intros K. unfold payments_where. pose proof (keyed_rows_NoDup id _ K) as N. revert N.
  induction (rows (payments d)) as [|p l IH]; [done|]. cbn. intros [Hni N]%NoDup_cons.
  destruct (flt p); [|auto]. cbn. constructor; [|auto].
  rewrite list_elem_of_In, in_map_iff in *. intros (q & E & [Hq _]%filter_In). apply Hni. by exists q.
Qed.

(** A listing of the payments that meet [flt], in some order, with a limit. *)
Inductive listing (d : Db) : list Payment -> Prop :=
  | listing_all flt le : listing d (sort_by le (payments_where flt d))
  | listing_batch flt le n : listing d (select_batch flt le n (rows (payments d))).

Lemma wp_listing {A} rs (f : list Payment -> A) w : sound w -> listing (working w) rs ->
  wp (let* ps := attach_all false rs in ret (f ps)) (fun _ w' => steady w w' /\ working w' = working w /\
    committed w' = committed w /\ calls w' = calls w) w.
Proof.
  intros Hs L. pose proof (ok_keyed _ (so_working w Hs)) as K.
  apply wp_bind. eapply wp_mono; [apply (attach_rows_steady rs w Hs)|].
  - destruct L as [flt le|flt le n].
    + rewrite (Permutation_map id (sort_by_Permutation _ _)). by apply where_NoDup.
    + by apply select_batch_NoDup, keyed_rows_NoDup.
  - intros row Hr. destruct L as [flt le|flt le n].
    + eapply Permutation_in in Hr; [|apply sort_by_Permutation]. by eapply where_rows.
    + apply select_batch_In in Hr as [[i Hi]%in_rows _]. by rewrite (K i row Hi).
  - intros [ps|e] w' H; [by apply wp_ret|done].
Qed.

Lemma review_steady settings c w : sound w -> working w = committed w -> identity_map w = ∅ ->
  wp (review_command settings c) (fun _ w' => steady w w') w.
Proof.
  intros Hs Hf Hm. destruct c as [all|order_id command b1 b2|ids resolution n yes]; cbn [review_command].
  - apply wp_bind, wp_get_db. eapply wp_mono; [apply wp_listing; [done|constructor]|]. by intros r w' [S _].
  - by apply steady_map, review_one_steady.
  - unfold cmd_review_resolve_many. destruct (negb yes).
    + apply steady_map. unfold preview_bulk_resolution. apply wp_bind.
      pose proof (so_working w Hs) as Hok.
      eapply wp_mono; [apply wp_build_report; [apply Hok..|by apply clean_empty]|].
      intros [report|e] w1 [L _]; [|by apply steady_looked]. pose proof (steady_looked _ _ Hs L) as S1.
      apply wp_bind, wp_rollback. intros w2 R. apply wp_ret.
      eapply steady_trans; [exact S1|]. by eapply steady_rollback; [|apply S1].
    + apply steady_after_clock; [done|]. intros now w1 T Hs1. apply steady_map.
      eapply wp_mono; [apply wp_resolve_reviews; [done|by ws|by ws]|]. by intros r w' [S _].
Qed.

Lemma attention_steady c w : sound w -> working w = committed w -> clean w ->
  wp (cmd_attention c) (fun _ w' => steady w w') w.
Proof.
  intros Hs Hf C. destruct c as [resolved limit|order_id|order_id resolution n yes]; cbn [cmd_attention].
  - apply steady_after_clock; [done|]. intros now w1 T Hs1. apply wp_bind, wp_get_db.
    eapply wp_mono; [apply wp_listing; [done|destruct resolved; constructor]|]. by intros r w' [S _].
  - apply steady_on_found; [done..|]. intros p w1 Hs1 _ _. apply steady_after_clock; [done|].
    intros now w2 _ Hs2. apply wp_bind, wp_get_db, wp_bind, wp_rollback. intros w3 R. apply wp_ret.
    by eapply steady_rollback.
  - apply steady_on_found; [done..|]. intros p w1 Hs1 Hf1 _. apply steady_after_clock; [done|].
    intros now w2 T Hs2. apply steady_map. eapply wp_mono; [apply wp_resolve_attention; [done|by ws]|].
    by intros r w' [S _].
Qed.

Lemma accept_steady order_id n w : sound w -> working w = committed w -> clean w ->
  wp (cmd_notification_accept order_id n) (fun _ w' => steady w w') w.
Proof.
  intros Hs Hf C. apply steady_on_found; [done..|]. intros p w1 Hs1 Hf1 _.
  apply steady_after_clock; [done|]. intros now w2 T Hs2. apply wp_bind, wp_begin_tx. intros w3 B.
  assert (S3 : steady w2 w3) by (eapply steady_began; [exact B|by ws|done]).
  eapply (wp_mono _ (fun _ w' => steady w3 w')); [|intros r w' S; by eapply steady_trans].
  apply steady_map. apply wp_execute_manual_accept; [apply S3| | |].
  - intros w' _ R. eapply steady_rollback; [exact R|apply S3].
  - done.
  - intros row w' _ _ [S _ _ _ _]. exact S.
Qed.

Lemma recover_steady settings order_id confirm w : sound w -> working w = committed w -> clean w ->
  wp (cmd_recover_aged_out settings order_id confirm) (fun _ w' => steady w w') w.
Proof.
  intros Hs Hf C. apply steady_on_found; [done..|]. intros p w1 Hs1 Hf1 C1. destruct (negb confirm).
  - apply steady_after_clock; [done|]. intros now w2 T Hs2. apply steady_map. unfold build_preview.
    assert (C2 : clean w2) by (intros i o; rewrite (ca_map _ _ _ T), (ca_working _ _ _ T); apply C1).
    apply wp_bind, wp_build_local_snapshot; [apply (so_working _ Hs2)|done|..].
    + intros _. by apply wp_ret, steady_refl.
    + intros row w3 _ _ L. apply wp_ret. by apply steady_looked.
  - apply steady_map. eapply wp_mono; [by apply wp_execute_confirmed_recovery|]. by intros r w' [S _].
Qed.

(** Every command of the operator commits only legal changes. *)
Lemma lawful_test_alert settings : lawful (cmd_test_alert settings).
Proof.
  unfold cmd_test_alert. apply lawful_if; [apply lawful_ret|].
  apply lawful_bind; [|intros _; apply lawful_bind; [apply lawful_commit|intros _; apply lawful_ret]].
  intros w Hs. unfold wp. eapply steady_audited; [|exact Hs].
  apply (quiet_create_alert record_event), (quiet_record_alert_created 1).
Qed.

Lemma ops_steady settings revision seqs c w :
  sound w -> working w = committed w -> identity_map w = ∅ ->
  wp (ops_main settings revision seqs c) (fun _ w' => steady w w') w.
Proof.
  intros Hs Hf Hm. unfold ops_main. destruct (turned_away c); [by apply wp_ret, steady_refl|].
  pose proof (clean_empty w Hm) as C. destruct c.
  - apply steady_map, (lawful_bind _ _ (lawful_record_event _ _ _ _)
      (fun _ => lawful_bind _ _ lawful_commit (fun _ => lawful_ret _))), Hs.
  - unfold cmd_db_check. apply wp_bind, wp_get_db. destruct (run_db_checks _ _ _ _) as [report after].
    apply lawful_bind; [case_match; auto with bridge|auto with bridge|done].
  - apply steady_map, wp_bind, wp_get_db. by apply wp_ret, steady_refl.
  - by apply steady_map, fee_steady.
  - by apply steady_map, review_steady.
  - by apply steady_map, attention_steady.
  - by apply steady_map, accept_steady.
  - by apply steady_map, lawful_test_alert.
Qed.
End CommandFacts.

(** ** Properties *)

(** The commands that may commit something, as the argument parser delivers
    them: [main] did not turn them away, and they are not one of the
    listings, previews and checks. *)
Definition may_commit (c : OpsCommand) : bool :=
  negb (turned_away c) &&
  match c with
  | OpBackupEvent _ _ _ _ _ | OpNotificationAccept _ _ _ | OpTestAlert => true
  | OpDbCheck repair_sequences _ _ => repair_sequences
  | OpPrivacyAudit => false
  | OpFee FeeStatus | OpFee FeeHistory => false
  | OpFee _ => true
  | OpReview (ReviewOne _ (ReviewMutate _) _ _) => true
  | OpReview (ReviewResolveMany _ _ _ yes) => yes
  | OpReview _ => false
  | OpAttention (AttentionResolve _ _ _ _) => true
  | OpAttention _ => false
  end.

Section CommandProperties.
Context {ENV : Env} {RELY : Rely}.

(** Nothing committed but what others did, nobody called. *)
Definition passive (w w' : World) : Prop :=
  (committed w' = committed w \/ exists n, committed w' = others n (committed w)) /\ calls w' = calls w.

Lemma passive_same w w' : committed w' = committed w -> calls w' = calls w -> passive w w'.
Proof. intros E C. split; [by left|done]. Qed.

Lemma passive_looked w w' : looked w w' -> passive w w'.
Proof. intros []. by apply passive_same. Qed.

Lemma passive_before w w1 w' : committed w1 = committed w -> calls w1 = calls w -> passive w1 w' -> passive w w'.
Proof. intros E C [E' C']. rewrite E in E'. split; [done|congruence]. Qed.

Lemma passive_rollback w w1 w' : passive w w1 -> did_rollback w1 w' -> passive w w'.
Proof. intros [E C] R. split; [by rewrite (rb_committed _ _ R)|by rewrite (rb_calls _ _ R)]. Qed.

(** Reading, then ending the transaction. *)
Lemma passive_after_rollback {A} (a : A) w w1 : passive w w1 -> wp (rollback ;;; ret a) (fun _ w' => passive w w') w1.
Proof. intros I. apply wp_bind, wp_rollback. intros w2 R. by apply wp_ret, (passive_rollback _ w1). Qed.

Lemma passive_after_clock {A} (k : Z -> M A) w : (forall now w1, called [] w w1 -> wp (k now) (fun _ w' => passive w1 w') w1) ->
  wp (let* now := utcnow in k now) (fun _ w' => passive w w') w.
Proof.
  intros Hk. apply wp_bind, wp_utcnow. intros now w1 T. eapply wp_mono; [by apply Hk|].
  intros r w' I. eapply passive_before; [..|exact I]; [apply (ca_committed _ _ _ T)|apply (ca_calls _ _ _ T)].
Qed.

Lemma passive_fee c w : c = FeeStatus \/ c = FeeHistory -> wp (cmd_fee c) (fun _ w' => passive w w') w.
Proof.
  intros [-> | ->]; cbn [cmd_fee]; unfold fee_status, fee_history.
  - unfold select_effective_policy, next_scheduled_policy. apply passive_after_clock. intros now w1 T.
    apply wp_bind, wp_bind, wp_get_db, wp_ret. apply passive_after_clock. intros now' w2 T'.
    apply wp_bind, wp_bind, wp_get_db, wp_ret. by apply passive_after_rollback, passive_same.
  - apply wp_bind, wp_get_db. by apply passive_after_rollback, passive_same.
Qed.

Lemma passive_listing {A} rs (f : list Payment -> A) w : sound w -> listing (working w) rs ->
  wp (let* ps := attach_all false rs in ret (f ps)) (fun _ w' => passive w w') w.
Proof. intros Hs L. eapply wp_mono; [by apply wp_listing|]. intros r w' (_ & E & Ec & C). by apply passive_same. Qed.

Lemma passive_preview oids resolution w : sound w -> clean w ->
  wp (preview_bulk_resolution oids resolution) (fun _ w' => passive w w') w.
Proof.
  intros Hs C. pose proof (so_working w Hs) as Hok. unfold preview_bulk_resolution. apply wp_bind.
  eapply wp_mono; [by apply wp_build_report; [apply Hok..|]|]. intros [report|e] w1 [L _].
  - by apply passive_after_rollback, passive_looked.
  - by apply passive_looked.
Qed.

Lemma passive_on_found order_id k w : sound w -> clean w ->
  (forall p w', sound w' -> clean w' -> wp (k p) (fun _ w2 => passive w' w2) w') ->
  wp (on_found order_id k) (fun _ w' => passive w w') w.
Proof.
  intros Hs C Hk. apply wp_on_found; [done|done|..].
  - intros e w' L. by apply passive_looked.
  - intros w1 w' _ L R. by apply (passive_rollback w w1); [apply passive_looked|].
  - intros p w' L _. pose proof (steady_looked _ _ Hs L) as S1.
    eapply wp_mono; [apply Hk; [apply S1|apply L]|].
    intros r w2. by apply passive_before; [apply L..].
Qed.

Lemma passive_review settings c w : sound w -> working w = committed w -> identity_map w = ∅ ->
  may_commit (OpReview c) = false -> turned_away (OpReview c) = false ->
  wp (review_command settings c) (fun _ w' => passive w w') w.
Proof.
  intros Hs Hf Hm Hc Ht. pose proof (clean_empty w Hm) as C. unfold may_commit in Hc. rewrite Ht in Hc.
  destruct c as [all|order_id [|m] b1 b2|ids resolution n yes]; cbn [review_command]; [| |done|].
  - apply wp_bind, wp_get_db. apply passive_listing; [done|constructor].
  - apply wp_bind. eapply wp_mono; [by apply wp_cmd_review|].
    intros [reply|e] w' (S & Ec & n & [E|(p & m & now & [=] & _)]); [apply wp_ret|]; (split; [by right; exists n|done]).
  - unfold cmd_review_resolve_many. cbn in Hc. rewrite Hc. apply wp_bind.
    eapply wp_mono; [by apply passive_preview|]. intros [report|e] w' I; [by apply wp_ret|done].
Qed.

Lemma passive_attention c w : sound w -> clean w ->
  may_commit (OpAttention c) = false -> turned_away (OpAttention c) = false ->
  wp (cmd_attention c) (fun _ w' => passive w w') w.
Proof.
  intros Hs C Hc Ht. unfold may_commit in Hc. rewrite Ht in Hc.
  destruct c as [resolved limit|order_id|order_id resolution n yes]; cbn [cmd_attention]; [..|done].
  - apply passive_after_clock. intros now w1 T. pose proof (steady_called _ _ _ T Hs) as [Hs1 _].
    apply wp_bind, wp_get_db, passive_listing; [done|destruct resolved; constructor].
  - apply passive_on_found; [done..|]. intros p w1 Hs1 C1. apply passive_after_clock. intros now w2 T.
    apply wp_bind, wp_get_db. by apply passive_after_rollback, passive_same.
Qed.

Lemma passive_beside seqs m w : wp m (fun _ w' => passive w w') w ->
  wp (beside seqs m) (fun r w' => passive w w' /\ forall e after, r = Ret (e, after) -> after = seqs) w.
Proof.
  intros Hm. apply wp_bind. eapply wp_mono; [exact Hm|]. intros [e|e] w' I; [apply wp_ret|]; (split; [done|]).
  - by intros ? ? [= _ <-].
  - done.
Qed.

(** [db-check] without a repair. *)
Lemma passive_db_check revision seqs w : wp (cmd_db_check revision seqs false) (fun r w' =>
  passive w w' /\ forall e after, r = Ret (e, after) -> after = seqs) w.
Proof.
  unfold cmd_db_check. apply wp_bind, wp_get_db. unfold run_db_checks.
  generalize SEQUENCE_TABLES as tables. intros tables.
  destruct (check_sequences_reports (working w) tables seqs) as (Ea & Er & _). cbn [repaired_sequences]. rewrite Er, Ea.
  apply wp_bind, wp_ret, wp_ret. split; [by apply passive_same|]. by intros ? ? [= _ <-].
Qed.


(** [--repair-sequences] writes no table: it leaves the database as it was,
    sets exactly the sequences that were behind, each to the largest id of
    its table, and afterwards none is. *)
Theorem repair_sets_sequences revision seqs w : working w = committed w ->
  wp (cmd_db_check revision seqs true) (fun r w' => committed w' = committed w /\ calls w' = calls w /\
    exists report after, r = Ret ((if report_ok report then 0 else 1, OutDb report), after) /\
      repairs seqs (committed w) (repaired_sequences report) after) w.
Proof.
  intros Hw. unfold cmd_db_check. apply wp_bind, wp_get_db. rewrite Hw. set (d := committed w).
  destruct (run_db_checks revision seqs true d) as [report after] eqn:Erun.
  pose proof (repaired_run revision seqs d) as H. rewrite Erun in H. cbn [fst snd] in H.
  apply wp_bind. enough (forall w', committed w' = d -> calls w' = calls w ->
    wp (ret ((if report_ok report then 0 else 1, OutDb report), after)) (fun r w' => committed w' = d /\ calls w' = calls w /\
      exists report after, r = Ret ((if report_ok report then 0 else 1, OutDb report), after) /\
        repairs seqs d (repaired_sequences report) after) w') as Hend.
  { destruct (repaired_sequences report); [by apply wp_ret, Hend|]. apply wp_commit. intros w' Co. apply Hend; by ws. }
  intros w' E1 E2. apply wp_ret. split_and!; [done..|]. by exists report, after.
Qed.

(** [notification accept] exits 0 exactly when the one payment its order
    id names was, under its lock, a verified payment pending delivery; that
    payment alone is then marked as accepted, with the audit event in the
    same commit. An unknown or ambiguous order id, or a payment in any other
    state, exits 1 and nothing changes. The bot is never called. *)
Theorem accept_command_exact order_id n w :
  sound w -> working w = committed w -> identity_map w = ∅ ->
  wp (cmd_notification_accept order_id n) (fun r w' => calls w' = calls w /\
       exists k, let d := others k (committed w) in
    (r = Ret (0, Messages) /\ exists p row now,
       lookup_answer order_id (committed w) (Ret (Some p)) /\ payments d !! id p = Some row /\
       status row = BOT_NOTIFY_PENDING /\ is_some (gateway_verified_at row) = true /\
       payments (committed w') = <[id p := apply_accepted_state now row]> (payments d) /\
       trail (committed w') = "manual_bot_notification_accepted" :: trail d) \/
    (r = Ret (1, Messages) /\ (committed w' = committed w \/ committed w' = d) /\
       forall p row, lookup_answer order_id (committed w) (Ret (Some p)) -> payments d !! id p = Some row ->
         status row <> BOT_NOTIFY_PENDING \/ gateway_verified_at row = None) \/
    (exists e, r = Raise e /\ committed w' = committed w)) w.
Proof.
  intros Hs Hf Hm. pose proof (clean_empty w Hm) as C. apply wp_on_found; [done|done|..].
  - intros e w' L. split; [apply L|]. exists 0%nat. right. right. exists e. split; [done|apply L].
  - intros w1 w' Hno L R. split; [rewrite (rb_calls _ _ R); apply L|]. exists 0%nat. right. left.
    split; [done|]. split; [left; rewrite (rb_committed _ _ R); apply L|]. intros p row Lp. rewrite <- Hf in Lp. by destruct (Hno p).
  - intros p w1 L Lp. pose proof (steady_looked _ _ Hs L) as [Hs1 _]. apply wp_bind, wp_utcnow. intros now w2 T.
    pose proof (steady_called _ _ _ T Hs1) as [Hs2 _]. apply wp_bind, wp_begin_tx. intros w3 B.
    assert (Hf2 : working w2 = committed w2).
    { rewrite (ca_working _ _ _ T), (ca_committed _ _ _ T). destruct L; congruence. }
    pose proof (steady_began _ _ B Hf2 Hs2) as [Hs3 _]. destruct (bg_committed _ _ B) as [k Ek].
    rewrite (ca_committed _ _ _ T), (lk_committed _ _ L) in Ek.
    assert (Hcalls : calls w3 = calls w).
    { rewrite (bg_calls _ _ B), (ca_calls _ _ _ T). apply L. }
    assert (Hone : forall q, lookup_answer order_id (committed w) (Ret (Some q)) -> q = p).
    { intros q Lq. rewrite <- Hf in Lq. by injection (lookup_answer_unique _ _ _ _ Lp Lq). }
    apply wp_bind. apply wp_execute_manual_accept; [done|..].
    + intros w' Hno R. apply wp_ret. split; [by rewrite (rb_calls _ _ R)|]. exists k. cbv zeta. right. left.
      split; [done|]. split; [right; by rewrite (rb_committed _ _ R)|].
      intros q row ->%Hone. rewrite <- Ek, <- (bg_working _ _ B), Hno. done.
    + intros row why w' Hrow Hw S E Ec. apply wp_ret. split; [congruence|]. exists k. cbv zeta. right. left.
      split; [done|]. split; [right; congruence|].
      intros q row' ->%Hone. rewrite <- Ek, <- (bg_working _ _ B), Hrow. intros [= <-].
      destruct (decide (status row = BOT_NOTIFY_PENDING)) as [Hst|]; [right|by left].
      destruct (gateway_verified_at row) eqn:Hv; [|done].
      assert (Hn : determine_manual_accept_refusal row = None) by (apply accept_refusal_spec; by rewrite Hv). congruence.
    + intros row w' Hrow [Hst Hv]%accept_refusal_spec [S Ec Ep Ecalls Et]. apply wp_ret.
      split; [by rewrite Ecalls|]. exists k. cbv zeta. left. split; [done|]. exists p, row, now.
      pose proof (ok_keyed _ (so_working _ Hs3) _ _ Hrow) as Eid. cbn in Ep. rewrite Eid in Ep.
      rewrite <- Ek, <- (bg_working _ _ B), <- Hf. split_and!; try done; by rewrite <- ?Hf in *.
Qed.


(** What the installer asks for: the row a valid request adds. *)
Definition valid_note (n : string) : bool :=
  negb (String.eqb (strip n) "") && negb (Fees.NOTE_MAX_LENGTH <? Z.of_nat (String.length (strip n))).

Lemma validate_note_spec n w :
  if valid_note n then validate_note n w = (Ret (strip n), w)
  else exists msg, validate_note n w = (Raise (ValueError msg), w).
Proof.
  unfold valid_note, validate_note. destruct (String.eqb (strip n) ""); [by eexists|].
  destruct (Fees.NOTE_MAX_LENGTH <? _); [by eexists|done].
Qed.

Lemma wp_outcome {A} {m : M A} {r w w'} {Q : Res A -> World -> Prop} : m w = (r, w') -> Q r w' -> wp m Q w.
Proof. unfold wp. by intros ->. Qed.

Lemma wp_put_db_eq d (Q : Res unit -> World -> Prop) w : Q (Ret tt) (w <| working := d |>) -> wp (put_db d) Q w.
Proof. done. Qed.

Lemma create_first_policy bps now actor n w : fee_policies (working w) = ∅ -> 0 <= bps <= MAX_RATE_BPS ->
  wp (let* _ := create_policy bps now true actor n false in commit ;;; ret (0, Messages)) (fun r w' =>
    calls w' = calls w /\
    if valid_note n then r = Ret (0, Messages) /\ payments (committed w') = payments (working w) /\
      trail (committed w') = "fee_policy_created" :: trail (working w) /\
      exists i, fee_policies (committed w') = {[i := mkFeePolicy i bps now actor (strip n) None None None]}
    else (exists msg, r = Raise (ValueError msg)) /\ committed w' = committed w) w.
Proof.
  intros He Hb. pose proof (validate_note_spec n w) as Hn. unfold create_policy. apply wp_bind.
  rewrite (proj2 (Z.leb_le _ _)), (proj2 (Z.leb_le _ _)) by lia. cbn [andb negb].
  apply wp_bind. destruct (valid_note n).
  - apply (wp_outcome Hn).
    apply wp_bind, wp_get_db, wp_bind. apply wp_put_db_eq, wp_bind, wp_record_event.
    intros w1 Hau. apply wp_ret, wp_bind, wp_commit. intros w2 Co. apply wp_ret.
    split_and!; [by ws|done|..].
    + by rewrite (cm_committed _ _ Co), (au_payments _ _ _ Hau).
    + unfold trail. by rewrite (cm_committed _ _ Co), (au_events _ _ _ Hau).
    + rewrite (cm_committed _ _ Co), (au_policies _ _ _ Hau). cbn. rewrite He. by eexists.
  - destruct Hn as [msg Hn]. apply (wp_outcome Hn). by split_and!; [|eexists|].
Qed.

Lemma effective_first_policy now i p : effective_at_now now p = true ->
  effective_policy now {[i := p]} = Some p.
Proof.
  intros Ha. destruct (effective_policy now {[i := p]}) as [q|] eqn:E.
  - apply effective_policy_Some in E as ((j & Hj) & _). apply lookup_singleton_Some in Hj as [_ ->]. done.
  - pose proof (proj1 (effective_policy_None _ _) E i p) as Hn. rewrite lookup_singleton_eq in Hn. by rewrite Hn in Ha.
Qed.

(** What [fee ensure-initial] makes of the table it finds under its lock. *)
Definition initial_policy_effect (percent : option string) (n : string) (d : Db) (r : Res Exit) (d' : Db) : Prop :=
  payments d' = payments d /\
  (fee_policies d <> ∅ -> r = Ret (0, Messages) /\ d' = d) /\
  (fee_policies d = ∅ ->
     match percent ≫= parse_rate_percent with
     | None => r = Ret (1, Messages) /\ d' = d
     | Some bps =>
         if valid_note n then
           r = Ret (0, Messages) /\ trail d' = "fee_policy_created" :: trail d /\
           exists policy now, rate_bps policy = bps /\ cancelled_at policy = None /\
             fee_policies d' = {[policy_id policy := policy]} /\
             effective_policy now (fee_policies d') = Some policy
         else (exists msg, r = Raise (ValueError msg)) /\ d' = d
     end).

Lemma effect_of_first_policy rate bps n now actor d r d' : parse_rate_percent rate = Some bps ->
  fee_policies d = ∅ ->
  (if valid_note n then r = Ret (0, Messages) /\ payments d' = payments d /\
     trail d' = "fee_policy_created" :: trail d /\
     exists i, fee_policies d' = {[i := mkFeePolicy i bps now actor (strip n) None None None]}
   else (exists msg, r = Raise (ValueError msg)) /\ d' = d) ->
  initial_policy_effect (Some rate) n d r d'.
Proof.
  intros Hp He H. unfold initial_policy_effect. cbn [mbind option_bind]. rewrite Hp.
  destruct (valid_note n); [|destruct H as (Hr & ->); by split].
  destruct H as (-> & P & Tr & i & E). split; [done|]. split; [done|]. intros _. split_and!; [done..|].
  eexists _, now. split_and!; [..|rewrite E; apply effective_first_policy; unfold effective_at_now; cbn];
    [done|done|exact E|]. by rewrite Z.leb_refl.
Qed.

(** [fee ensure-initial] never overrides an operator and never opens with
    a silent zero. Under the advisory lock it acts only when the policy table
    has no row at all, scheduled and cancelled ones included, so that running
    it again changes nothing. On the empty table a missing or malformed rate
    exits 1, a blank or overlong note raises, both without a change; a valid
    rate becomes the one policy of the table, in force from that instant. *)
Theorem fee_ensure_initial_exact percent n actor w :
  wp (cmd_fee (FeeEnsureInitial percent n actor)) (fun r w' => calls w' = calls w /\
    exists k, initial_policy_effect percent n (others k (committed w)) r (committed w')) w.
Proof.
  cbn [cmd_fee]. unfold fee_ensure_initial, if_no_policy. apply wp_bind, wp_begin_tx. intros w1 B.
  destruct (bg_committed _ _ B) as [k Ek]. pose proof (bg_calls _ _ B) as Hc1. pose proof (bg_working _ _ B) as Hw1.
  set (d := others k (committed w)) in *.
  assert (Hroll : forall x, initial_policy_effect percent n d (Ret x) d -> wp (rollback ;;; ret x) (fun r w' =>
    calls w' = calls w /\ exists k, initial_policy_effect percent n (others k (committed w)) r (committed w')) w1).
  { intros x Hx. apply wp_bind, wp_rollback. intros w2 R. apply wp_ret. split; [by rewrite (rb_calls _ _ R)|].
    exists k. by rewrite (rb_committed _ _ R), Ek. }
  apply wp_bind, wp_get_db. rewrite Hw1, Ek.
  destruct (Z.eqb_spec (Z.of_nat (size (fee_policies d))) 0) as [Hz|Hz]; cbn [negb].
  2:{ apply Hroll. split_and!; [done..|]. intros He. by rewrite He in Hz. }
  assert (He : fee_policies d = ∅) by (apply map_size_empty_iff; lia).
  destruct percent as [rate|]; [|by apply Hroll].
  destruct (parse_rate_percent rate) as [bps|] eqn:Hp.
  2:{ apply Hroll. unfold initial_policy_effect. cbn [mbind option_bind]. by rewrite Hp. }
  apply wp_bind, wp_utcnow. intros now w2 T. eapply wp_mono; [apply create_first_policy|].
  - by rewrite (ca_working _ _ _ T), Hw1, Ek.
  - by eapply parse_rate_percent_range.
  - rewrite (ca_working _ _ _ T), (ca_committed _ _ _ T), (ca_calls _ _ _ T), Hw1, Ek.
    intros r w' [C H]. split; [by rewrite C|]. exists k. by eapply effect_of_first_policy.
Qed.
End CommandProperties.

(** ** Witnesses *)


Definition accept_call : M Exit := @cmd_notification_accept calm_env "order-1" "credited by hand".
Definition claimed_world : World := world_of (db_of [example_claimed 5]).

(** Accepted by its bot order, once. *)
Lemma accept_command_exact_witness :
  fst (accept_call claimed_world) = Ret (0, Messages) /\
  fst (accept_call (snd (accept_call claimed_world))) = Ret (1, Messages) /\
  wp accept_call (fun r w' => calls w' = []) claimed_world.
Proof.
  split; [vm_compute; reflexivity|]. split; [vm_compute; reflexivity|].
  eapply wp_mono; [apply (@accept_command_exact calm_env calm_rely "order-1" "credited by hand" claimed_world)|].
  - apply sound_example. vm_compute. reflexivity.
  - reflexivity.
  - reflexivity.
  - intros r w' [C _]. exact C.
Defined.

Definition ensure_call (percent : option string) : M Exit :=
  @cmd_fee calm_env (FeeEnsureInitial percent "installer" "host-cli").

(** Refused without a rate, created with one, and no change the second time. *)
Example fee_ensure_initial_runs :
  fst (ensure_call None claimed_world) = Ret (1, Messages) /\
  fst (ensure_call (Some "7.5") claimed_world) = Ret (0, Messages) /\
  map rate_bps (rows (fee_policies (committed (snd (ensure_call (Some "9")
    (snd (ensure_call (Some "7.5") claimed_world))))))) = [750].
Proof. vm_compute. split_and!; reflexivity. Qed.
