(* ===== verification/RateLimit.v ===== *)
(** Rate limiting ([app/ratelimit.py]): sliding windows, the LRU-bounded store
    of per-client windows, and the checks the API routes make.

    Times are readings of [time.monotonic()] in microseconds. A limiter is a
    value: a method that changes it returns the new one. Each method runs under
    the limiter's lock, so it is one atomic operation here. *)

From Stdlib Require Import Sorting.Sorted.
From S2P Require Import Prelude PyText Config.

(** ** [SlidingWindowLimiter] *)

Record SlidingWindowLimiter := mkLimiter {
  limit : Z;
  window : Z;
  events : list Z
}.

#[export] Instance eta_SlidingWindowLimiter : Eta SlidingWindowLimiter := fun l =>
  mkLimiter (limit l) (window l) (events l).

Definition new_limiter (lim win : Z) : SlidingWindowLimiter := mkLimiter lim win [].

(** [while self._events and self._events[0] < cutoff: popleft()]. *)
Fixpoint drop_before (cutoff : Z) (l : list Z) : list Z :=
  match l with
  | e :: l' => if e <? cutoff then drop_before cutoff l' else l
  | [] => []
  end.

Definition prune (now : Z) (l : SlidingWindowLimiter) : SlidingWindowLimiter :=
  l <| events := drop_before (now - window l) (events l) |>.

Definition full (l : SlidingWindowLimiter) : bool := limit l <=? Z.of_nat (length (events l)).

Definition allow (now : Z) (l : SlidingWindowLimiter) : bool * SlidingWindowLimiter :=
  let l := prune now l in
  if full l then (false, l) else (true, l <| events := events l ++ [now] |>).

(** [None] stands for the [IndexError] of reading the first of no events, which
    a limit of zero or less would cause. *)
Definition retry_after (now : Z) (l : SlidingWindowLimiter) : option Z * SlidingWindowLimiter :=
  let l := prune now l in
  if negb (full l) then (Some 0, l)
  else match events l with
       | [] => (None, l)
       | oldest :: _ => (Some (Z.max 0 (window l - (now - oldest))), l)
       end.

Definition reset_limiter (l : SlidingWindowLimiter) : SlidingWindowLimiter := l <| events := [] |>.

(** ** [BoundedLimiterStore] *)

(** The [OrderedDict], least recently used key first. *)
Record BoundedLimiterStore := mkStore {
  store_limit : Z;
  store_window : Z;
  capacity : Z;
  entries : list (string * SlidingWindowLimiter)
}.

#[export] Instance eta_BoundedLimiterStore : Eta BoundedLimiterStore := fun s =>
  mkStore (store_limit s) (store_window s) (capacity s) (entries s).

Definition new_store (lim win cap : Z) : BoundedLimiterStore := mkStore lim win cap [].

Fixpoint assoc {A} (key : string) (l : list (string * A)) : option A :=
  match l with
  | [] => None
  | (k, a) :: l' => if String.eqb k key then Some a else assoc key l'
  end.

Definition remove_key {A} (key : string) (l : list (string * A)) : list (string * A) :=
  List.filter (fun e => negb (String.eqb (fst e) key)) l.
#[global] Arguments remove_key : simpl never.

(** [_get_or_create]: the limiter of the key, which becomes the most recently
    used one. [None] stands for the [KeyError] of [popitem] on an empty
    dictionary, which a capacity of zero or less would cause. *)
Definition get_or_create (key : string) (s : BoundedLimiterStore)
  : option (SlidingWindowLimiter * BoundedLimiterStore) :=
  match assoc key (entries s) with
  | Some l => Some (l, s <| entries := remove_key key (entries s) ++ [(key, l)] |>)
  | None =>
      let l := new_limiter (store_limit s) (store_window s) in
      if capacity s <=? Z.of_nat (length (entries s))
      then match entries s with
           | [] => None
           | _ :: kept => Some (l, s <| entries := kept ++ [(key, l)] |>)
           end
      else Some (l, s <| entries := entries s ++ [(key, l)] |>)
  end.

(** The dictionary holds the limiter object itself, so a change of the limiter
    is a change of its entry. *)
Definition set_entry (key : string) (l : SlidingWindowLimiter) (s : BoundedLimiterStore)
  : BoundedLimiterStore :=
  s <| entries := map (fun e => if String.eqb (fst e) key then (fst e, l) else e) (entries s) |>.

Definition store_allow (key : string) (now : Z) (s : BoundedLimiterStore)
  : option (bool * BoundedLimiterStore) :=
  match get_or_create key s with
  | None => None
  | Some (l, s) => let (ok, l) := allow now l in Some (ok, set_entry key l s)
  end.

Definition store_retry_after (key : string) (now : Z) (s : BoundedLimiterStore)
  : option (option Z * BoundedLimiterStore) :=
  match get_or_create key s with
  | None => None
  | Some (l, s) => let (t, l) := retry_after now l in Some (t, set_entry key l s)
  end.

(** ** [RateLimiters] *)

Record RateLimiters := mkRateLimiters {
  enabled : bool;
  create : SlidingWindowLimiter;
  invalid_api_key : SlidingWindowLimiter;
  invalid_signature : SlidingWindowLimiter;
  create_per_ip : BoundedLimiterStore;
  invalid_signature_per_ip : BoundedLimiterStore
}.

#[export] Instance eta_RateLimiters : Eta RateLimiters := fun r =>
  mkRateLimiters (enabled r) (create r) (invalid_api_key r) (invalid_signature r)
    (create_per_ip r) (invalid_signature_per_ip r).

Definition rate_limiters (settings : Settings) : RateLimiters := {|
  enabled := rate_limit_enabled settings;
  create := new_limiter (rate_limit_create_per_minute settings) (seconds 60);
  invalid_api_key := new_limiter (rate_limit_invalid_key_per_10min settings) (seconds 600);
  invalid_signature := new_limiter (rate_limit_invalid_signature_per_10min settings) (seconds 600);
  create_per_ip := new_store (rate_limit_create_per_ip_per_minute settings) (seconds 60)
                     (rate_limit_ip_bucket_capacity settings);
  invalid_signature_per_ip := new_store (rate_limit_invalid_signature_per_ip_per_10min settings)
                                (seconds 600) (rate_limit_ip_bucket_capacity settings)
|}.

(** [check] and [check_per_ip]: an internal error lets the request pass. *)
Definition check (on : bool) (now : Z) (l : SlidingWindowLimiter) : bool * SlidingWindowLimiter :=
  if negb on then (true, l) else allow now l.

Definition check_per_ip (on : bool) (ip : string) (now : Z) (s : BoundedLimiterStore)
  : bool * BoundedLimiterStore :=
  if negb on then (true, s)
  else match store_allow ip now s with Some (ok, s) => (ok, s) | None => (true, s) end.

(** The two [retry_after] methods: an internal error reports the window. *)
Definition safe_retry_after (now : Z) (l : SlidingWindowLimiter) : Z * SlidingWindowLimiter :=
  match retry_after now l with
  | (Some t, l) => (t, l)
  | (None, l) => (window l, l)
  end.

Definition safe_retry_after_per_ip (ip : string) (now : Z) (s : BoundedLimiterStore)
  : Z * BoundedLimiterStore :=
  match store_retry_after ip now s with
  | Some (Some t, s) => (t, s)
  | Some (None, s) => (store_window s, s)
  | None => (store_window s, s)
  end.

(** ** Windows *)

Definition ascending : list Z -> Prop := StronglySorted Z.le.

Lemma ascending_snoc l t : ascending l -> Forall (fun e => e <= t) l -> ascending (l ++ [t]).
Proof.
  unfold ascending. induction l as [|a l IH]; cbn; intros Hs Hf.
  - by repeat constructor.
  - apply StronglySorted_inv in Hs as [Hs Ha]. inversion_clear Hf. constructor; [by apply IH|].
    apply Forall_app. split; [done|]. by repeat constructor.
Qed.

Lemma drop_before_filter c l : ascending l -> drop_before c l = List.filter (fun e => c <=? e) l.
Proof.
  unfold ascending. induction l as [|a l IH]; cbn; intros Hs; [done|].
  apply StronglySorted_inv in Hs as [Hs Ha]. destruct (a <? c) eqn:E1, (c <=? a) eqn:E2; try lia.
  - by apply IH.
  - f_equal. symmetry. apply forallb_filter_id, forallb_forall. intros e He.
    rewrite Forall_forall in Ha. specialize (Ha e). rewrite <- list_elem_of_In in He.
    specialize (Ha He). lia.
Qed.

Lemma filter_filter {A} (f g : A -> bool) l :
  (forall a, g a = true -> f a = true) -> List.filter g (List.filter f l) = List.filter g l.
Proof.
  intros H. induction l as [|a l IH]; cbn; [done|]. destruct (f a) eqn:Ef; cbn; rewrite IH.
  - done.
  - destruct (g a) eqn:Eg; [|done]. apply H in Eg. congruence.
Qed.

Lemma filter_app_one {A} (f : A -> bool) l a :
  List.filter f (l ++ [a]) = List.filter f l ++ (if f a then [a] else []).
Proof. rewrite List.filter_app. cbn. by destruct (f a). Qed.

(** The accepted times that lie in the window that ends now. *)
Definition recent (win now : Z) (acc : list Z) : list Z := List.filter (fun t => now - win <=? t) acc.

(** The limiter [l] is a faithful digest of the accepted times [acc], the last
    of which is at most [last]. *)
Record digest (acc : list Z) (last : Z) (l : SlidingWindowLimiter) : Prop := {
  dg_sorted : ascending (events l);
  dg_before : Forall (fun e => e <= last) (events l);
  dg_recent : forall c, last - window l <= c ->
    List.filter (fun e => c <=? e) (events l) = List.filter (fun e => c <=? e) acc
}.

Lemma ascending_filter f l : ascending l -> ascending (List.filter f l).
Proof.
  unfold ascending. induction l as [|a l IH]; cbn; intros Hs; [done|].
  apply StronglySorted_inv in Hs as [Hs Ha]. destruct (f a); [|by apply IH].
  constructor; [by apply IH|]. rewrite Forall_forall in *. intros e He. apply Ha.
  apply list_elem_of_In, filter_In in He as [He _]. by apply list_elem_of_In.
Qed.

Lemma digest_prune acc last now l : digest acc last l -> last <= now ->
  digest acc now (prune now l) /\ events (prune now l) = recent (window l) now acc.
Proof.
  intros [Hs Hb Hr] Hle.
  assert (E : events (prune now l) = List.filter (fun e => now - window l <=? e) (events l))
    by (cbn; by apply drop_before_filter).
  split; [|rewrite E; apply Hr; lia]. split.
  - rewrite E. by apply ascending_filter.
  - rewrite E. rewrite Forall_forall in *. intros e He. apply list_elem_of_In, filter_In in He as [He _].
    apply list_elem_of_In in He. specialize (Hb e He). lia.
  - intros c Hc. cbn in Hc. rewrite E, filter_filter by (intros; lia). apply Hr. lia.
Qed.

Lemma digest_allow acc last now l ok l' : digest acc last l -> last <= now ->
  allow now l = (ok, l') ->
  ok = (Z.of_nat (length (recent (window l) now acc)) <? limit l) /\
  window l' = window l /\ limit l' = limit l /\
  digest (if ok then acc ++ [now] else acc) now l'.
Proof.
  intros D Hle. destruct (digest_prune _ _ _ _ D Hle) as [D' E]. unfold allow, full. rewrite E.
  change (limit (prune now l)) with (limit l).
  destruct (limit l <=? _) eqn:Ef; intros [= <- <-]; (split; [lia|]); (split; [done|]); (split; [done|]).
  - exact D'.
  - destruct D' as [Hs Hb Hr]. rewrite <- E. split; cbn.
    + by apply ascending_snoc.
    + apply Forall_app. split; [done|]. by repeat constructor.
    + intros c Hc. rewrite !filter_app_one. f_equal. by apply Hr.
Qed.

(** ** The reference: the whole history of accepted times is kept *)

Fixpoint reference (lim win : Z) (acc ts : list Z) : list bool :=
  match ts with
  | [] => []
  | t :: ts =>
      let ok := Z.of_nat (length (recent win t acc)) <? lim in
      ok :: reference lim win (if ok then acc ++ [t] else acc) ts
  end.

Fixpoint run_limiter (l : SlidingWindowLimiter) (ts : list Z) : list bool :=
  match ts with
  | [] => []
  | t :: ts => let (ok, l) := allow t l in ok :: run_limiter l ts
  end.

(** The times at which the answer was yes. *)
Fixpoint accepted_times (ts : list Z) (ds : list bool) : list Z :=
  match ts, ds with
  | t :: ts, d :: ds => if d then t :: accepted_times ts ds else accepted_times ts ds
  | _, _ => []
  end.

Lemma run_limiter_reference ts : forall acc last l, digest acc last l -> ascending (last :: ts) ->
  run_limiter l ts = reference (limit l) (window l) acc ts.
Proof.
  induction ts as [|t ts IH]; intros acc last l D Hs; cbn [run_limiter reference]; [done|].
  apply StronglySorted_inv in Hs as [Hs Hf]. inversion_clear Hf as [|? ? Hle _].
  destruct (allow t l) as [ok l'] eqn:E.
  destruct (digest_allow _ _ _ _ _ _ D Hle E) as (-> & Ew & El & D').
  rewrite (IH _ _ _ D' Hs). by rewrite Ew, El.
Qed.

(** At most [lim] accepted times in any closed interval of length [win]. *)
Definition sparse (lim win : Z) (acc : list Z) : Prop := forall t,
  Z.of_nat (length (List.filter (fun a => (t <=? a) && (a <=? t + win)) acc)) <= Z.max 0 lim.

Lemma filter_length_mono {A} (f g : A -> bool) l : (forall a, f a = true -> g a = true) ->
  (length (List.filter f l) <= length (List.filter g l))%nat.
Proof.
  intros H. induction l as [|a l IH]; cbn; [lia|].
  destruct (f a) eqn:Ef; [rewrite (H a Ef)|destruct (g a)]; cbn; lia.
Qed.

Lemma sparse_snoc lim win acc now : sparse lim win acc ->
  Z.of_nat (length (recent win now acc)) < lim -> sparse lim win (acc ++ [now]).
Proof.
  intros Hs Hr t. rewrite filter_app_one, length_app. specialize (Hs t).
  destruct ((t <=? now) && (now <=? t + win)) eqn:E; cbn; [|lia].
  pose proof (filter_length_mono (fun a => (t <=? a) && (a <=? t + win)) (fun a => now - win <=? a)
                acc ltac:(cbn; intros; lia)) as H.
  unfold recent in Hr. lia.
Qed.

Lemma reference_sparse lim win ts : forall acc, sparse lim win acc ->
  sparse lim win (acc ++ accepted_times ts (reference lim win acc ts)).
Proof.
  induction ts as [|t ts IH]; intros acc Hs; cbn; [by rewrite app_nil_r|].
  destruct (_ <? lim) eqn:E; [|by apply IH].
  change (t :: ?l) with ([t] ++ l). rewrite app_assoc. apply IH, sparse_snoc; [done|lia].
Qed.

Lemma new_limiter_digest lim win t : digest [] t (new_limiter lim win).
Proof. split; cbn; [constructor|done|done]. Qed.

(** ** One store, many clients *)

(** The limiter a client has, a new one when the store holds none. *)
Definition client (s : BoundedLimiterStore) (key : string) : SlidingWindowLimiter :=
  default (new_limiter (store_limit s) (store_window s)) (assoc key (entries s)).

Definition keys (s : BoundedLimiterStore) : gset string := list_to_set (map fst (entries s)).
#[global] Arguments keys : simpl never.

Record store_ok (s : BoundedLimiterStore) : Prop := {
  sk_keys : NoDup (map fst (entries s));
  sk_size : Z.of_nat (length (entries s)) <= capacity s
}.

Lemma assoc_None {A} key (l : list (string * A)) : assoc key l = None <-> key ∉ map fst l.
Proof.
  induction l as [|[k a] l IH]; cbn; [split; [intros _; apply not_elem_of_nil|done]|].
  rewrite not_elem_of_cons, <- IH. destruct (String.eqb_spec k key) as [->|Hne].
  - split; [done|]. by intros [? _].
  - split; [by intros ->|by intros [_ ?]].
Qed.

Lemma assoc_app {A} key (l1 l2 : list (string * A)) :
  assoc key (l1 ++ l2) = match assoc key l1 with Some a => Some a | None => assoc key l2 end.
Proof. induction l1 as [|[k a] l1 IH]; cbn; [done|]. by destruct (String.eqb k key). Qed.

Lemma assoc_remove {A} key key' (l : list (string * A)) :
  assoc key' (remove_key key l) = if String.eqb key key' then None else assoc key' l.
Proof.
  unfold remove_key.
  induction l as [|[k a] l IH]; cbn; [by destruct (String.eqb key key')|].
  destruct (String.eqb_spec k key) as [->|Hk]; cbn; rewrite IH.
  - by destruct (String.eqb key key').
  - destruct (String.eqb_spec k key') as [->|]; [|done].
    destruct (String.eqb_spec key key') as [->|]; done.
Qed.

Lemma keys_remove {A} key (l : list (string * A)) :
  map fst (remove_key key l) = List.filter (fun k => negb (String.eqb k key)) (map fst l).
Proof.
  unfold remove_key. induction l as [|[k a] l IH]; cbn; [done|].
  destruct (String.eqb k key); cbn; by rewrite IH.
Qed.

Lemma NoDup_filter_list {A} (f : A -> bool) l : NoDup l -> NoDup (List.filter f l).
Proof.
  induction 1 as [|a l Ha _ IH]; cbn; [constructor|]. destruct (f a); [|done]. constructor; [|done].
  intros Hin. apply list_elem_of_In, filter_In in Hin as [Hin _]. by apply Ha, list_elem_of_In.
Qed.

Lemma remove_key_length {A} key (l : list (string * A)) a :
  assoc key l = Some a -> (length (remove_key key l) < length l)%nat.
Proof.
  unfold remove_key.
  induction l as [|[k b] l IH]; cbn; [done|]. destruct (String.eqb k key) eqn:E; cbn.
  - intros _. pose proof (List.filter_length_le (fun e : string * A => negb (String.eqb (fst e) key)) l).
    lia.
  - intros H. specialize (IH H). lia.
Qed.

Lemma assoc_set key l (e : list (string * SlidingWindowLimiter)) key' :
  assoc key' (map (fun e => if String.eqb (fst e) key then (fst e, l) else e) e)
  = if String.eqb key key' then (fun _ => l) <$> assoc key' e else assoc key' e.
Proof.
  induction e as [|[k a] e IH]; cbn; [by destruct (String.eqb key key')|].
  destruct (String.eqb_spec k key) as [->|Hk]; cbn; rewrite IH.
  - by destruct (String.eqb key key').
  - destruct (String.eqb_spec k key') as [->|]; [|done].
    destruct (String.eqb_spec key key') as [->|]; done.
Qed.

(** The keys a store holds after [key] was used, when nothing was evicted. *)
Definition fits (s : BoundedLimiterStore) (ks : list string) : Prop :=
  Z.of_nat (size (keys s ∪ list_to_set ks)) <= capacity s.

Lemma size_keys s : store_ok s -> size (keys s) = length (entries s).
Proof. intros [H _]. unfold keys. by rewrite size_list_to_set, length_map. Qed.

(** Using a key keeps the store well formed, whatever is evicted. *)
Lemma get_or_create_ok key s l s' : store_ok s -> get_or_create key s = Some (l, s') ->
  store_ok s' /\ assoc key (entries s') = Some l /\ capacity s' = capacity s /\
  store_limit s' = store_limit s /\ store_window s' = store_window s.
Proof.
  intros [Hk Hs]. unfold get_or_create. destruct (assoc key (entries s)) as [l0|] eqn:E.
  - intros [= <- <-]. split; [|split_and!; try done].
    + split; cbn.
      * rewrite map_app, keys_remove. apply NoDup_app. split_and!.
        -- by apply NoDup_filter_list.
        -- intros k Hin [-> |[]%not_elem_of_nil]%elem_of_cons.
           apply list_elem_of_In, filter_In in Hin as [_ Hin]. cbn in Hin.
           by rewrite String.eqb_refl in Hin.
        -- apply NoDup_singleton.
      * pose proof (remove_key_length _ _ _ E). rewrite length_app. cbn. lia.
    + cbn. rewrite assoc_app, assoc_remove, String.eqb_refl. cbn. by rewrite String.eqb_refl.
  - pose proof (proj1 (assoc_None _ _) E) as Hnew.
    assert (Hadd : forall e, NoDup (map fst e) -> key ∉ map fst e ->
              NoDup (map fst (e ++ [(key, new_limiter (store_limit s) (store_window s))])) /\
              assoc key (e ++ [(key, new_limiter (store_limit s) (store_window s))])
                = Some (new_limiter (store_limit s) (store_window s))).
    { intros e He Hin. split.
      - rewrite map_app. apply NoDup_app. split_and!; [done| |apply NoDup_singleton].
        by intros k Hk' [->|[]%not_elem_of_nil]%elem_of_cons.
      - rewrite assoc_app, (proj2 (assoc_None _ _) Hin). cbn. by rewrite String.eqb_refl. }
    destruct (capacity s <=? _) eqn:Ec.
    + destruct (entries s) as [|[k0 l0] kept] eqn:Ee; [done|]. intros [= <- <-].
      cbn in Hk, Hnew, Hs. apply NoDup_cons in Hk as [_ Hk]. apply not_elem_of_cons in Hnew as [_ Hnew].
      destruct (Hadd kept Hk Hnew) as [H1 H2]. split; [|done]. split; cbn; [done|].
      rewrite length_app. cbn. lia.
    + intros [= <- <-]. destruct (Hadd (entries s) Hk Hnew) as [H1 H2]. split; [|done].
      split; cbn; [done|]. rewrite length_app. cbn. lia.
Qed.

Lemma keys_spec s k : k ∈ keys s <-> assoc k (entries s) <> None.
Proof. unfold keys. rewrite elem_of_list_to_set, assoc_None. destruct (decide (k ∈ map fst (entries s))); tauto. Qed.

(** While all keys fit, using one creates its limiter or finds it, and leaves
    the other clients alone. *)
Lemma get_or_create_fits key s ks : store_ok s -> fits s (key :: ks) ->
  exists s', get_or_create key s = Some (client s key, s') /\
    (forall k, client s' k = client s k) /\ keys s' = keys s ∪ {[key]}.
Proof.
  intros Hok Hfit. unfold get_or_create, client. destruct (assoc key (entries s)) as [l|] eqn:E.
  - eexists. split; [reflexivity|]. cbn.
    assert (Ha : forall k, assoc k (remove_key key (entries s) ++ [(key, l)]) = assoc k (entries s)).
    { intros k. rewrite assoc_app, assoc_remove. cbn. destruct (String.eqb_spec key k) as [<-|]; [done|].
      by destruct (assoc k (entries s)). }
    split; [intros k; by rewrite Ha|]. apply set_eq. intros k.
    rewrite elem_of_union, elem_of_singleton, !keys_spec. cbn. rewrite Ha.
    split; [by left|]. intros [H| ->]; [done|congruence].
  - assert (Hnew : key ∉ keys s) by (rewrite keys_spec; tauto).
    assert (Hlt : Z.of_nat (length (entries s)) < capacity s).
    { unfold fits in Hfit. cbn in Hfit. rewrite <- (size_keys s Hok).
      assert (Hsub : keys s ∪ {[key]} ⊆ keys s ∪ ({[key]} ∪ list_to_set ks)) by set_solver.
      apply subseteq_size in Hsub. rewrite size_union, size_singleton in Hsub by set_solver. lia. }
    destruct (capacity s <=? _) eqn:Ec; [lia|]. eexists. split; [reflexivity|]. cbn.
    assert (Ha : forall k, assoc k (entries s ++ [(key, new_limiter (store_limit s) (store_window s))])
                 = if String.eqb key k then Some (new_limiter (store_limit s) (store_window s))
                   else assoc k (entries s)).
    { intros k. rewrite assoc_app. cbn. destruct (String.eqb_spec key k) as [<-|]; [by rewrite E|].
      by destruct (assoc k (entries s)). }
    split.
    + intros k. rewrite Ha. destruct (String.eqb_spec key k) as [<-|]; [by rewrite E|done].
    + apply set_eq. intros k. rewrite elem_of_union, elem_of_singleton, !keys_spec. cbn. rewrite Ha.
      destruct (String.eqb_spec key k) as [<-|]; [|by intuition]. split; [by right|done].
Qed.

Lemma set_entry_keys key l s : map fst (entries (set_entry key l s)) = map fst (entries s).
Proof.
  cbn. rewrite map_map. apply map_ext. intros [k a]. cbn. by destruct (String.eqb k key).
Qed.

Lemma set_entry_ok key l s : store_ok s -> store_ok (set_entry key l s).
Proof.
  intros [Hk Hs]. split; [by rewrite set_entry_keys|].
  rewrite <- (length_map fst), set_entry_keys, length_map. exact Hs.
Qed.

(** A check keeps the store bounded, whatever it evicts. *)
Lemma store_allow_ok key now s ok s' : store_ok s -> store_allow key now s = Some (ok, s') ->
  store_ok s' /\ capacity s' = capacity s.
Proof.
  intros Hok. unfold store_allow. destruct (get_or_create key s) as [[l s1]|] eqn:E; [|done].
  destruct (get_or_create_ok _ _ _ _ Hok E) as (H1 & _ & Hc & _). destruct (allow now l).
  intros [= _ <-]. split; [by apply set_entry_ok|done].
Qed.

Lemma store_allow_fits key now s ks : store_ok s -> fits s (key :: ks) ->
  exists s', store_allow key now s = Some (fst (allow now (client s key)), s') /\
    store_ok s' /\ fits s' ks /\
    forall k, client s' k = if String.eqb key k then snd (allow now (client s key)) else client s k.
Proof.
  intros Hok Hfit. destruct (get_or_create_fits key s ks Hok Hfit) as (s1 & E & Hcl & Hks).
  destruct (get_or_create_ok _ _ _ _ Hok E) as (H1 & Ha & Hc & Hl & Hw).
  unfold store_allow. rewrite E. destruct (allow now (client s key)) as [ok l] eqn:Eal.
  eexists. split; [reflexivity|]. split; [by apply set_entry_ok|]. split.
  - unfold fits in *. assert (Ek : keys (set_entry key l s1) = keys s1) by (unfold keys; by rewrite set_entry_keys).
    change (capacity (set_entry key l s1)) with (capacity s1). rewrite Ek, Hks, Hc.
    cbn in Hfit. by rewrite <- (assoc_L (∪)).
  - intros k. unfold client at 1. cbn. rewrite assoc_set.
    destruct (String.eqb_spec key k) as [<-|]; [by rewrite Ha|apply Hcl].
Qed.

(** ** Runs *)

(** The answers to a sequence of checks, each for a client at a time. *)
Fixpoint run_store (s : BoundedLimiterStore) (qs : list (string * Z)) : list bool :=
  match qs with
  | [] => []
  | (key, now) :: qs => let (ok, s) := check_per_ip true key now s in ok :: run_store s qs
  end.

Fixpoint store_after (s : BoundedLimiterStore) (qs : list (string * Z)) : BoundedLimiterStore :=
  match qs with
  | [] => s
  | (key, now) :: qs => store_after (snd (check_per_ip true key now s)) qs
  end.

Fixpoint times_of (key : string) (qs : list (string * Z)) : list Z :=
  match qs with
  | [] => []
  | (k, now) :: qs => if String.eqb k key then now :: times_of key qs else times_of key qs
  end.

Fixpoint answers_to (key : string) (qs : list (string * Z)) (ds : list bool) : list bool :=
  match qs, ds with
  | (k, _) :: qs, d :: ds => if String.eqb k key then d :: answers_to key qs ds else answers_to key qs ds
  | _, _ => []
  end.

Lemma run_store_clients qs : forall s key, store_ok s -> fits s (map fst qs) ->
  answers_to key qs (run_store s qs) = run_limiter (client s key) (times_of key qs).
Proof.
  induction qs as [|[k now] qs IH]; intros s key Hok Hfit; cbn [run_store answers_to times_of]; [done|].
  destruct (store_allow_fits k now s (map fst qs) Hok Hfit) as (s' & E & Hok' & Hfit' & Hcl).
  unfold check_per_ip. cbn [negb]. rewrite E. rewrite (IH s' key Hok' Hfit'), Hcl.
  destruct (String.eqb_spec k key) as [->|]; [|done]. cbn [run_limiter].
  by destruct (allow now (client s key)).
Qed.

Lemma store_after_ok qs : forall s, store_ok s ->
  store_ok (store_after s qs) /\ capacity (store_after s qs) = capacity s.
Proof.
  induction qs as [|[k now] qs IH]; intros s Hok; cbn; [done|].
  unfold check_per_ip. cbn [negb]. destruct (store_allow k now s) as [[ok s']|] eqn:E.
  - destruct (store_allow_ok _ _ _ _ _ Hok E) as [H1 H2]. cbn. rewrite <- H2. by apply IH.
  - by apply IH.
Qed.

Lemma new_store_ok lim win cap : 0 <= cap -> store_ok (new_store lim win cap).
Proof. intros H. split; cbn; [apply NoDup_nil_2|lia]. Qed.

(** What every limiter in use satisfies at a time [now] of the clock. *)
Record well_kept (now : Z) (l : SlidingWindowLimiter) : Prop := {
  wk_sorted : ascending (events l);
  wk_before : Forall (fun e => e <= now) (events l);
  wk_size : Z.of_nat (length (events l)) <= Z.max 0 (limit l)
}.

Lemma well_kept_allow last now l : well_kept last l -> last <= now ->
  well_kept now (snd (allow now l)) /\ limit (snd (allow now l)) = limit l /\
  window (snd (allow now l)) = window l.
Proof.
  intros [Hs Hb Hn] Hle. pose proof (List.filter_length_le (fun e => now - window l <=? e) (events l)).
  assert (Hb' : Forall (fun e => e <= now) (List.filter (fun e => now - window l <=? e) (events l))).
  { rewrite Forall_forall in *. intros e He. apply list_elem_of_In, filter_In in He as [He _].
    apply list_elem_of_In in He. specialize (Hb e He). lia. }
  unfold allow, full, prune. cbn. rewrite drop_before_filter by done.
  destruct (_ <=? _) eqn:E; cbn; (split; [|done]); split; cbn.
  - by apply ascending_filter.
  - done.
  - lia.
  - apply ascending_snoc; [by apply ascending_filter|done].
  - apply Forall_app. split; [done|]. by repeat constructor.
  - rewrite length_app. cbn. lia.
Qed.

Fixpoint limiter_after (l : SlidingWindowLimiter) (ts : list Z) : SlidingWindowLimiter :=
  match ts with [] => l | t :: ts => limiter_after (snd (allow t l)) ts end.

Lemma well_kept_after ts : forall last l now, well_kept last l -> ascending (last :: ts ++ [now]) ->
  well_kept now (limiter_after l ts) /\ limit (limiter_after l ts) = limit l /\
  window (limiter_after l ts) = window l.
Proof.
  induction ts as [|t ts IH]; intros last l now W Hs; cbn in *;
    apply StronglySorted_inv in Hs as [Hs Hf]; inversion_clear Hf as [|? ? Hle _].
  - split; [|done]. destruct W as [H1 H2 H3]. split; [done| |done].
    rewrite Forall_forall in *. intros e He. specialize (H2 e He). lia.
  - destruct (well_kept_allow _ _ _ W Hle) as (W' & E1 & E2). rewrite <- E1, <- E2. by apply (IH t).
Qed.

(** When the limiter is full of recent events, it has room again exactly when
    its oldest event has left the window. *)
Lemma room_again now' l oldest rest : ascending (events l) -> events l = oldest :: rest ->
  limit l = Z.of_nat (length (events l)) ->
  fst (allow now' l) = true <-> oldest < now' - window l.
Proof.
  intros Hs He Hlim. unfold allow, full, prune. cbn. rewrite drop_before_filter by done.
  set (f := fun e => now' - window l <=? e).
  assert (Hfull : (limit l <=? Z.of_nat (length (List.filter f (events l)))) = (now' - window l <=? oldest)).
  { rewrite Hlim, He in *. apply StronglySorted_inv in Hs as [_ Hf].
    destruct (now' - window l <=? oldest) eqn:E.
    - rewrite (forallb_filter_id f); [apply Z.leb_refl|]. apply forallb_forall. intros e [<-|Hin]; [done|].
      rewrite Forall_forall in Hf. apply list_elem_of_In, Hf in Hin. unfold f. lia.
    - pose proof (List.filter_length_le f rest). cbn [List.filter length].
      assert (Ef : f oldest = false) by exact E. rewrite Ef. apply Z.leb_gt. lia. }
  rewrite Hfull. destruct (now' - window l <=? oldest) eqn:E; cbn; split; intros; (lia || done).
Qed.

Lemma retry_after_refused now l t l' : well_kept now l -> 0 < limit l ->
  fst (allow now l) = false -> retry_after now l = (Some t, l') ->
  exists oldest rest, events l = oldest :: rest /\ limit l = Z.of_nat (length (events l)) /\
    0 <= t /\ now + t = oldest + window l.
Proof.
  intros [Hs Hb Hn] Hlim. unfold allow, retry_after, full, prune. cbn. rewrite drop_before_filter by done.
  destruct (limit l <=? _) eqn:E; cbn; [|done]. intros _.
  pose proof (List.filter_length_le (fun e => now - window l <=? e) (events l)) as Hle.
  assert (Hall : forallb (fun e => now - window l <=? e) (events l) = true)
    by (apply filter_length_forallb; lia).
  rewrite (forallb_filter_id _ _ Hall) in *. destruct (events l) as [|oldest rest] eqn:He; [done|].
  intros [= <- _]. exists oldest, rest. cbn in Hall. apply andb_true_iff in Hall as [Hall _].
  split_and!; [done|lia|lia|lia].
Qed.

(** ** Properties *)

(** C23: The limiter decides as if it kept every accepted request: at times
    that never go back, it accepts a request exactly when fewer than [limit]
    accepted ones lie in the window that ends now; so no closed interval of
    the window's length ever holds more than [limit] accepted requests. *)
Theorem sliding_window_exact lim win ts :
  ascending ts ->
  run_limiter (new_limiter lim win) ts = reference lim win [] ts /\
  forall t, Z.of_nat (length (List.filter (fun a => (t <=? a) && (a <=? t + win))
              (accepted_times ts (run_limiter (new_limiter lim win) ts)))) <= Z.max 0 lim.
Proof.
  intros Hs. assert (E : run_limiter (new_limiter lim win) ts = reference lim win [] ts).
  { destruct ts as [|t ts]; [done|].
    apply (run_limiter_reference (t :: ts) [] t (new_limiter lim win)); [apply new_limiter_digest|].
    constructor; [done|]. apply StronglySorted_inv in Hs as [_ Hf]. by constructor. }
  split; [done|]. rewrite E. apply (reference_sparse lim win ts []). intros t. cbn. lia.
Qed.

(** The [Retry-After] of a refused request is exact, but for its last
    instant: with no other request in between, the limiter accepts at a later
    time exactly when strictly more than the reported duration has passed. A
    client that waits exactly that long is refused again. *)
Theorem retry_after_exact lim win ts now now' t l' :
  0 < lim -> ascending (ts ++ [now]) -> now <= now' ->
  let l := limiter_after (new_limiter lim win) ts in
  fst (allow now l) = false -> retry_after now l = (Some t, l') ->
  0 <= t /\ (fst (allow now' l) = true <-> now + t < now') /\ fst (allow (now + t) l) = false.
Proof.
  intros Hlim Hs Hle l Hno Hr.
  assert (W : well_kept now l /\ limit l = lim /\ window l = win).
  { subst l. destruct ts as [|a ts].
    - split; [|done]. by split; cbn; [constructor| |lia].
    - apply (well_kept_after (a :: ts) a (new_limiter lim win)).
      + by split; cbn; [constructor| |lia].
      + constructor; [done|]. apply StronglySorted_inv in Hs as [_ Hf]. by constructor. }
  destruct W as (W & El & Ew).
  destruct (retry_after_refused now l t l' W ltac:(lia) Hno Hr) as (oldest & rest & He & Hl & Ht & Ert).
  pose proof (wk_sorted _ _ W) as Hsort.
  split; [done|]. split.
  - rewrite (room_again now' l oldest rest Hsort He Hl). lia.
  - apply not_true_iff_false. rewrite (room_again (now + t) l oldest rest Hsort He Hl). lia.
Qed.

(** The per-client layer isolates the clients and is bounded. The store
    never holds more than [cap] limiters, whatever keys it is asked about; and
    as long as the clients fit, each one gets exactly the answers of a limiter
    of its own, whatever the others do. *)
Theorem store_isolates_clients lim win cap qs key :
  0 < cap -> Z.of_nat (size (list_to_set (map fst qs) : gset string)) <= cap ->
  answers_to key qs (run_store (new_store lim win cap) qs)
    = run_limiter (new_limiter lim win) (times_of key qs) /\
  forall qs', Z.of_nat (length (entries (store_after (new_store lim win cap) qs'))) <= cap.
Proof.
  intros Hcap Hfit. pose proof (new_store_ok lim win cap ltac:(lia)) as Hok. split.
  - apply (run_store_clients qs (new_store lim win cap) key Hok). unfold fits, keys. cbn.
    by rewrite union_empty_l_L.
  - intros qs'. destruct (store_after_ok qs' _ Hok) as [[_ H] E]. by rewrite E in H.
Qed.

(** ** Witnesses *)

Lemma sliding_window_exact_witness :
  ascending [0; 1; 2; 11] /\ run_limiter (new_limiter 2 10) [0; 1; 2; 11] = [true; true; false; true].
Proof.
  assert (Hs : ascending [0; 1; 2; 11]) by (repeat constructor; lia).
  split; [exact Hs|]. rewrite (proj1 (sliding_window_exact 2 10 [0; 1; 2; 11] Hs)). reflexivity.
Defined.

Lemma retry_after_exact_witness :
  fst (allow 7 (mkLimiter 1 10 [3])) = false /\ fst (allow 13 (mkLimiter 1 10 [3])) = false.
Proof.
  split; [reflexivity|].
  refine (proj2 (proj2 (retry_after_exact 1 10 [3] 7 20 6 (mkLimiter 1 10 [3]) _ _ _ _ _)));
    [lia|repeat constructor; lia|lia|reflexivity|reflexivity].
Defined.

Lemma store_isolates_clients_witness :
  answers_to "a" [("a", 0); ("b", 1); ("a", 2)]
    (run_store (new_store 1 10 2) [("a", 0); ("b", 1); ("a", 2)]) = [true; false].
Proof.
  rewrite (proj1 (store_isolates_clients 1 10 2 [("a", 0); ("b", 1); ("a", 2)] "a" ltac:(lia)
    ltac:(vm_compute; discriminate))). reflexivity.
Defined.
