(* ===== verification/ClientIp.v ===== *)
(** The key of the per-client rate limits ([app/clientip.py]), with the part
    of Python's [ipaddress] module it uses: parsing an address in any
    spelling and printing its canonical text (Python 3.12). *)

From S2P Require Import Prelude PyText Crypto Config Urls.

(** ** Splitting and joining *)

(** [s.split(c)]. *)
Fixpoint split_on (c : Ascii.ascii) (s : string) : list string :=
  match s with
  | "" => [""]
  | String x s' =>
      if Ascii.eqb x c then "" :: split_on c s'
      else match split_on c s' with
           | part :: parts => String x part :: parts
           | [] => [String x ""]
           end
  end.

(** [c.join(parts)]. *)
Fixpoint join_with (c : Ascii.ascii) (parts : list string) : string :=
  match parts with
  | [] => ""
  | [part] => part
  | part :: rest => part +:+ String c (join_with c rest)
  end.

Definition DOT : Ascii.ascii := char 46.

(** ** [ipaddress] *)

(** [IPv4Address._parse_octet]. *)
Definition parse_octet (s : string) : option Z :=
  if negb (all_digits s) then None
  else if (3 <? String.length s)%nat then None
  else if negb (String.eqb s "0") && String.prefix "0" s then None
  else let n := digits_value 0 s in if 255 <? n then None else Some n.

(** [IPv4Address._ip_int_from_string]. *)
Definition ipv4_of (s : string) : option Z :=
  match split_on DOT s with
  | [a; b; c; d] =>
      match parse_octet a, parse_octet b, parse_octet c, parse_octet d with
      | Some a, Some b, Some c, Some d => Some (((a * 256 + b) * 256 + c) * 256 + d)
      | _, _, _, _ => None
      end
  | _ => None
  end.

Definition ipv4_text (n : Z) : string :=
  join_with DOT (map (fun k => str_of_int (n / 256 ^ k mod 256)) [3; 2; 1; 0]).

Definition hex_value (c : Ascii.ascii) : option Z :=
  let z := code c in
  if (48 <=? z) && (z <=? 57) then Some (z - 48)
  else if (65 <=? z) && (z <=? 70) then Some (z - 55)
  else if (97 <=? z) && (z <=? 102) then Some (z - 87)
  else None.

Fixpoint hex_int (acc : Z) (s : string) : option Z :=
  match s with
  | "" => Some acc
  | String c s' => match hex_value c with Some v => hex_int (acc * 16 + v) s' | None => None end
  end.

(** [IPv6Address._parse_hextet]. *)
Definition parse_hextet (s : string) : option Z :=
  if String.eqb s "" || (4 <? String.length s)%nat then None else hex_int 0 s.

(** ["%x" % n] for [0 <= n < 2 ^ 16]. *)
Definition hextet_text (n : Z) : string :=
  let digits := [n / 4096; n / 256 mod 16; n / 16 mod 16] in
  lstrip (Ascii.eqb (char 48)) (fold_right (fun d s => String (hex_digit d) s) "" digits)
  +:+ String (hex_digit (n mod 16)) "".

(** The positions of the empty parts, end points left out. *)
Fixpoint inner_gaps (i : nat) (parts : list string) : list nat :=
  match parts with
  | [] | [_] => []
  | part :: rest => (if (0 <? i)%nat && String.eqb part "" then [i] else []) ++ inner_gaps (S i) rest
  end.

(** The numbers of the two sides of the double colon, if any. *)
Definition ipv6_sides (parts : list string) : option (list string * list string) :=
  let first := match parts with p :: _ => String.eqb p "" | [] => true end in
  let final := match List.last parts "" with "" => true | _ => false end in
  match inner_gaps 0 parts with
  | [] => if (length parts =? 8)%nat && negb first && negb final then Some (parts, []) else None
  | [skip] =>
      let hi := List.firstn skip parts in
      let lo := List.skipn (S skip) parts in
      let hi' := if first then List.tl hi else hi in
      let lo' := if final then List.removelast lo else lo in
      if first && negb (length hi' =? 0)%nat then None
      else if final && negb (length lo' =? 0)%nat then None
      else if (8 - (length hi' + length lo') <? 1)%nat then None
      else Some (hi', lo')
  | _ => None
  end.

Fixpoint all_some {A} (l : list (option A)) : option (list A) :=
  match l with
  | [] => Some []
  | Some a :: l' => option_map (cons a) (all_some l')
  | None :: _ => None
  end.

(** The last part, when it is dotted, stands for two numbers. *)
Definition expand_ipv4 (parts : list string) : option (list string) :=
  let tail := List.last parts "" in
  if has_char DOT tail then
    match ipv4_of tail with
    | Some n => Some (List.removelast parts ++ [hextet_text (n / 65536); hextet_text (n mod 65536)])
    | None => None
    end
  else Some parts.

Definition from_hextets (acc : Z) (l : list Z) : Z := fold_left (fun acc h => acc * 65536 + h) l acc.

(** [IPv6Address._ip_int_from_string]. *)
Definition ipv6_int (s : string) : option Z :=
  let parts := split_on COLON s in
  if (length parts <? 3)%nat then None
  else
    match expand_ipv4 parts with
    | None => None
    | Some parts =>
        if (9 <? length parts)%nat then None
        else
          match ipv6_sides parts with
          | None => None
          | Some (hi, lo) =>
              match all_some (map parse_hextet hi), all_some (map parse_hextet lo) with
              | Some hi, Some lo =>
                  let skipped := (8 - (length hi + length lo))%nat in
                  Some (from_hextets (from_hextets 0 hi * 65536 ^ Z.of_nat skipped) lo)
              | _, _ => None
              end
          end
    end.

(** The eight numbers of an address. *)
Fixpoint hextets (k : nat) (n : Z) : list Z :=
  match k with O => [] | S k' => hextets k' (n / 65536) ++ [n mod 65536] end.

(** [_compress_hextets]: the first of the longest runs of zeros; [i] is the
    position of the rest, [run] the length of the run that ends there. *)
Fixpoint longest_zeros (i run : nat) (best : nat * nat) (l : list Z) : nat * nat :=
  match l with
  | [] => best
  | h :: l' =>
      if h =? 0 then
        let run := S run in
        longest_zeros (S i) run (if (snd best <? run)%nat then (S i - run, run)%nat else best) l'
      else longest_zeros (S i) 0 best l'
  end.

Definition compressed (l : list Z) : list string :=
  let texts := map hextet_text l in
  let '(start, len) := longest_zeros 0 0 (0, 0)%nat l in
  if (1 <? len)%nat then
    (if (start =? 0)%nat then [""] else []) ++ List.firstn start texts ++ [""] ++
    List.skipn (start + len) texts ++ (if (start + len =? length l)%nat then [""] else [])
  else texts.

Definition ipv6_text (n : Z) : string := join_with COLON (compressed (hextets 8 n)).

(** A parsed address: [IPv4Address] or [IPv6Address] with its scope. *)
Inductive IpAddress :=
  | IPv4 (n : Z)
  | IPv6 (n : Z) (scope : option string).

(** [IPv6Address._split_scope_id]. *)
Definition split_scope_id (s : string) : option (string * option string) :=
  match partition PERCENT s with
  | None => Some (s, None)
  | Some (addr, scope) =>
      if String.eqb scope "" || has_char PERCENT scope then None else Some (addr, Some scope)
  end.

Definition ipv6_of (s : string) : option IpAddress :=
  match split_scope_id s with
  | Some (addr, scope) => option_map (fun n => IPv6 n scope) (ipv6_int addr)
  | None => None
  end.

(** [ipaddress.ip_address]; [None] is a [ValueError]. *)
Definition ip_address (s : string) : option IpAddress :=
  if has_char (char 47) s then None
  else match ipv4_of s with Some n => Some (IPv4 n) | None => ipv6_of s end.

(** [str(address)]. *)
Definition address_text (a : IpAddress) : string :=
  match a with
  | IPv4 n => ipv4_text n
  | IPv6 n scope => ipv6_text n +:+ match scope with Some s => String PERCENT s | None => "" end
  end.

(** ** [resolve_client_ip] *)

Definition UNKNOWN_CLIENT : string := "unknown".

(** The address of a text, or the text itself. *)
Definition client_text (s : string) : string :=
  match ip_address s with Some a => address_text a | None => s end.

Definition resolve_client_ip (settings : Settings) (forwarded client_host : option string) : string :=
  let peer := match client_host with Some host => client_text host | None => UNKNOWN_CLIENT end in
  if rate_limit_trust_proxy_headers settings then
    match forwarded with
    | Some text => match ip_address (strip text) with Some a => address_text a | None => peer end
    | None => peer
    end
  else peer.

Example ip_v4 : client_text "192.168.0.1" = "192.168.0.1". Proof. vm_compute. reflexivity. Qed.
Example ip_v4_zeros : ip_address "192.168.00.1" = None. Proof. vm_compute. reflexivity. Qed.
Example ip_loopback : client_text "0:0:0:0:0:0:0:1" = "::1" /\ client_text "::1" = "::1" /\
  client_text "::" = "::" /\ client_text "::0001" = "::1".
Proof. vm_compute. split_and!; reflexivity. Qed.
Example ip_compress : client_text "2001:DB8:0:0:1:0:0:1" = "2001:db8::1:0:0:1" /\
  client_text "1:0:2:3:4:5:6:7" = "1:0:2:3:4:5:6:7" /\ client_text "1:2:3:4:5:6::" = "1:2:3:4:5:6::" /\
  client_text "1::2:3:4:5:6:7" = "1:0:2:3:4:5:6:7".
Proof. vm_compute. split_and!; reflexivity. Qed.
Example ip_mapped : client_text "::ffff:1.2.3.4" = "::ffff:102:304" /\ client_text "fe80::1%eth0" = "fe80::1%eth0".
Proof. vm_compute. split_and!; reflexivity. Qed.
Example ip_refused : map ip_address ["1:2:3"; ":::"; "1:::2"; "1:2:3:4:5:6:7:8:9"; "1:2:3:4:5:6:7::8"; ":1:2:3:4:5:6:7";
    "::12345"; "::g"; "a, b"; ""; "1.2.3.4/8"; "::1%"] = repeat None 12.
Proof. vm_compute. reflexivity. Qed.

(** ** Facts: splitting *)

Lemma str_cons_app c s t : String c s +:+ t = String c (s +:+ t).
Proof. done. Qed.

Lemma str_nil_app t : "" +:+ t = t.
Proof. done. Qed.

Definition free_of (c : Ascii.ascii) : string -> bool := str_forallb (fun x => negb (Ascii.eqb x c)).

Lemma has_char_free c s : has_char c s = negb (free_of c s).
Proof.
  unfold has_char. induction s as [|x s IH]; [done|]. cbn. destruct (Ascii.eqb x c); [done|].
  cbn. rewrite <- IH. by destruct (partition c s) as [[]|].
Qed.

Lemma free_of_app c s t : free_of c (s +:+ t) = free_of c s && free_of c t.
Proof. apply str_forallb_app. Qed.

Lemma partition_app c s t : free_of c s = true -> partition c (s +:+ String c t) = Some (s, t).
Proof.
  induction s as [|x s IH]; [intros _; rewrite str_nil_app; cbn; by rewrite Ascii.eqb_refl|].
  unfold free_of in *. cbn. intros [Hx Hs]%andb_true_iff.
  apply negb_true_iff in Hx. rewrite str_cons_app. cbn. by rewrite Hx, (IH Hs).
Qed.

Lemma split_on_free c s : free_of c s = true -> split_on c s = [s].
Proof.
  induction s as [|x s IH]; cbn; [done|]. intros [Hx Hs]%andb_true_iff. apply negb_true_iff in Hx.
  by rewrite Hx, (IH Hs).
Qed.

Lemma split_on_app c s t : free_of c s = true -> split_on c (s +:+ String c t) = s :: split_on c t.
Proof.
  induction s as [|x s IH]; [intros _; rewrite str_nil_app; cbn; by rewrite Ascii.eqb_refl|].
  unfold free_of in *. cbn. intros [Hx Hs]%andb_true_iff.
  apply negb_true_iff in Hx. rewrite str_cons_app. cbn. by rewrite Hx, (IH Hs).
Qed.

(** Splitting what was joined. *)
Lemma split_join c parts : parts <> [] -> Forall (fun p => free_of c p = true) parts ->
  split_on c (join_with c parts) = parts.
Proof.
  intros Hne HF. induction HF as [|p parts Hp HF IH]; [done|]. destruct parts as [|q parts].
  - by apply split_on_free.
  - change (join_with c (p :: q :: parts)) with (p +:+ String c (join_with c (q :: parts))).
    rewrite split_on_app by done. f_equal. by apply IH.
Qed.

Lemma join_free d c parts : d <> c -> Forall (fun p => free_of d p = true) parts ->
  free_of d (join_with c parts) = true.
Proof.
  intros Hne HF. assert (Hc : Ascii.eqb c d = false) by (by apply Ascii.eqb_neq).
  induction HF as [|p parts Hp HF IH]; [done|]. destruct parts as [|q parts]; [done|].
  change (join_with c (p :: q :: parts)) with (p +:+ String c (join_with c (q :: parts))).
  rewrite free_of_app, Hp. unfold free_of at 1. cbn [str_forallb]. rewrite Hc. exact IH.
Qed.

(** ** Facts: numbers *)

(** What is used of the text of a number below [2 ^ 16]. *)
Definition plain_text (h : Z) (t : string) : bool :=
  bool_decide (parse_hextet t = Some h) && negb (String.eqb t "") && free_of COLON t && free_of DOT t &&
  free_of PERCENT t && free_of (char 47) t.

Definition hex_char (c : Ascii.ascii) : bool := match hex_value c with Some _ => true | None => false end.

Lemma hex_value_digit d : 0 <= d < 16 -> hex_value (hex_digit d) = Some d.
Proof.
  intros Hd. assert (H : In (Z.to_nat d) (seq 0 16)) by (apply in_seq; lia).
  rewrite <- (Z2Nat.id d) by lia. revert H. generalize (Z.to_nat d). clear d Hd. intros n H.
  cbn in H. repeat (destruct H as [<-|H]; [reflexivity|]). done.
Qed.

(** Digits are none of the separators of an address. *)
Lemma hex_char_free c s : hex_char c = false -> str_forallb hex_char s = true -> free_of c s = true.
Proof.
  intros Hc. apply str_forallb_impl. intros x Hx. apply negb_true_iff, Ascii.eqb_neq. intros ->. congruence.
Qed.

(** The digits [ds], leading zeros left out, then [d]: what they say and how many there are. *)
Definition digits_text (ds : list Z) : string := fold_right (fun d s => String (hex_digit d) s) "" ds.

Lemma hex_int_digits ds : Forall (fun d => 0 <= d < 16) ds -> forall acc d, 0 <= d < 16 ->
  hex_int acc (digits_text ds +:+ String (hex_digit d) "") = Some (fold_left (fun n x => n * 16 + x) (ds ++ [d]) acc).
Proof.
  induction 1 as [|x ds Hx _ IH]; intros acc d Hd.
  - cbn [digits_text fold_right]. rewrite str_nil_app. cbn -[hex_digit hex_value]. by rewrite hex_value_digit.
  - change (digits_text (x :: ds)) with (String (hex_digit x) (digits_text ds)). rewrite str_cons_app.
    cbn -[hex_digit hex_value digits_text]. rewrite hex_value_digit by done. apply IH, Hd.
Qed.

(** Dropping zeros changes neither the number nor the alphabet. *)
Lemma lstrip_digits ds : Forall (fun d => 0 <= d < 16) ds ->
  exists es, lstrip (Ascii.eqb (char 48)) (digits_text ds) = digits_text es /\ Forall (fun d => 0 <= d < 16) es /\
    (length es <= length ds)%nat /\
    forall d, fold_left (fun n x => n * 16 + x) (es ++ [d]) 0 = fold_left (fun n x => n * 16 + x) (ds ++ [d]) 0.
Proof.
  induction 1 as [|x ds Hx HF IH]; [by exists []|]. destruct IH as (es & He & HeF & Hl & Hv).
  change (lstrip _ (digits_text (x :: ds))) with (if Ascii.eqb (char 48) (hex_digit x)
    then lstrip (Ascii.eqb (char 48)) (digits_text ds) else digits_text (x :: ds)).
  destruct (Ascii.eqb (char 48) (hex_digit x)) eqn:E.
  - apply Ascii.eqb_eq in E. pose proof (hex_value_digit x Hx) as Hz. rewrite <- E in Hz.
    assert (x = 0) as -> by (vm_compute in Hz; congruence). exists es. split_and!; auto. cbn. lia.
  - exists (x :: ds). split_and!; auto using Forall_cons_2.
Qed.

Lemma string_length_app s t : String.length (s +:+ t) = (String.length s + String.length t)%nat.
Proof. induction s as [|c s IH]; [done|]. rewrite str_cons_app. cbn. by rewrite IH. Qed.

Lemma digits_text_length ds : String.length (digits_text ds) = length ds.
Proof. induction ds as [|d ds IH]; [done|]. cbn. f_equal. exact IH. Qed.

Lemma digits_text_hex ds : Forall (fun d => 0 <= d < 16) ds -> str_forallb hex_char (digits_text ds) = true.
Proof.
  induction 1 as [|d ds Hd _ IH]; [done|].
  change (hex_char (hex_digit d) && str_forallb hex_char (digits_text ds) = true).
  unfold hex_char at 1. by rewrite hex_value_digit, IH.
Qed.

Lemma hextet_plain h : 0 <= h < 65536 -> plain_text h (hextet_text h) = true.
Proof.
  intros Hh. set (ds := [h / 4096; h / 256 mod 16; h / 16 mod 16]).
  assert (HF : Forall (fun d => 0 <= d < 16) ds).
  { repeat constructor; try (apply Z.mod_pos_bound; lia); [apply Z.div_pos|apply Z.div_lt_upper_bound]; lia. }
  assert (Hd : 0 <= h mod 16 < 16) by (apply Z.mod_pos_bound; lia).
  destruct (lstrip_digits ds HF) as (es & He & HeF & Hl & Hv).
  assert (Ht : hextet_text h = digits_text es +:+ String (hex_digit (h mod 16)) "").
  { change (lstrip (Ascii.eqb (char 48)) (digits_text ds) +:+ String (hex_digit (h mod 16)) "" =
      digits_text es +:+ String (hex_digit (h mod 16)) ""). by rewrite He. }
  assert (Hlen : String.length (hextet_text h) = S (length es)).
  { rewrite Ht, string_length_app, digits_text_length. cbn. lia. }
  assert (Hx : str_forallb hex_char (hextet_text h) = true).
  { rewrite Ht, str_forallb_app, digits_text_hex by done. cbn -[hex_digit hex_char]. unfold hex_char. by rewrite hex_value_digit. }
  assert (Hn : String.eqb (hextet_text h) "" = false) by (destruct (hextet_text h); [discriminate Hlen|done]).
  assert (Hp : parse_hextet (hextet_text h) = Some h).
  { unfold parse_hextet. rewrite Hn, Hlen. replace (4 <? S (length es))%nat with false by (symmetry; apply Nat.ltb_ge; cbn in Hl; lia).
    cbn [orb]. rewrite Ht, hex_int_digits, Hv by done. f_equal. cbn. Z.to_euclidean_division_equations. lia. }
  unfold plain_text. rewrite Hp, Hn, bool_decide_eq_true_2 by done.
  by rewrite !hex_char_free by done.
Qed.

Lemma hextets_length k n : length (hextets k n) = k.
Proof. revert n. induction k as [|k IH]; intros n; [done|]. cbn. rewrite length_app, IH. cbn. lia. Qed.

Lemma hextets_range k n : Forall (fun h => 0 <= h < 65536) (hextets k n).
Proof.
  revert n. induction k as [|k IH]; intros n; [constructor|]. cbn. apply Forall_app. split; [apply IH|].
  repeat constructor; apply Z.mod_pos_bound; lia.
Qed.

Lemma from_hextets_app acc l m : from_hextets acc (l ++ m) = from_hextets (from_hextets acc l) m.
Proof. apply fold_left_app. Qed.

Lemma from_hextets_hextets k n : 0 <= n < 65536 ^ Z.of_nat k -> from_hextets 0 (hextets k n) = n.
Proof.
  revert n. induction k as [|k IH]; intros n Hn; [cbn in *; lia|]. cbn [hextets].
  rewrite from_hextets_app, IH.
  - cbn. pose proof (Z.div_mod n 65536). lia.
  - rewrite Nat2Z.inj_succ, Z.pow_succ_r in Hn by lia. split; [apply Z.div_pos; lia|].
    apply Z.div_lt_upper_bound; lia.
Qed.

Lemma from_hextets_zeros acc k : from_hextets acc (repeat 0 k) = acc * 65536 ^ Z.of_nat k.
Proof.
  revert acc. induction k as [|k IH]; intros acc; [cbn; lia|].
  rewrite Nat2Z.inj_succ, Z.pow_succ_r by lia. cbn. change (from_hextets (acc * 65536 + 0) (repeat 0 k) = acc * (65536 * 65536 ^ Z.of_nat k)).
  rewrite IH. lia.
Qed.

(** ** Facts: the compressed text *)

Definition zeros_at (l : list Z) (b : nat * nat) : Prop :=
  exists pre post, l = pre ++ repeat 0 (snd b) ++ post /\ length pre = fst b.

Lemma longest_zeros_spec l pre run best : zeros_at (pre ++ repeat 0 run ++ l) best ->
  zeros_at (pre ++ repeat 0 run ++ l) (longest_zeros (length pre + run) run best l).
Proof.
  revert pre run best. induction l as [|h l IH]; intros pre run best Hb; [done|]. cbn [longest_zeros].
  destruct (Z.eqb_spec h 0) as [->|Hh].
  - assert (E : pre ++ repeat 0 run ++ 0 :: l = pre ++ repeat 0 (S run) ++ l).
    { assert (R : repeat 0 (S run) = repeat 0 run ++ [0]) by (cbn; apply repeat_cons).
      by rewrite R, <- app_assoc. }
    rewrite E in *. replace (S (length pre + run)) with (length pre + S run)%nat by lia.
    apply IH. case_match; [|done]. exists pre, l. split; [done|]. cbn. lia.
  - assert (E : pre ++ repeat 0 run ++ h :: l = (pre ++ repeat 0 run ++ [h]) ++ repeat 0 0 ++ l).
    { by rewrite <- !app_assoc. }
    rewrite E in *. replace (S (length pre + run)) with (length (pre ++ repeat 0%Z run ++ [h]) + 0)%nat
      by (rewrite !length_app, repeat_length; cbn; lia).
    by apply IH.
Qed.

Lemma longest_zeros_at l : zeros_at l (longest_zeros 0 0 (0, 0)%nat l).
Proof. apply (longest_zeros_spec l [] 0). by exists [], l. Qed.

Lemma all_some_parsed l : Forall (fun h => 0 <= h < 65536) l ->
  all_some (map parse_hextet (map hextet_text l)) = Some l.
Proof.
  induction 1 as [|h l Hh _ IH]; [done|]. cbn. pose proof (hextet_plain h Hh) as P.
  unfold plain_text in P. do 5 (apply andb_true_iff in P as [P _]). apply bool_decide_eq_true in P.
  by rewrite P, IH.
Qed.

Lemma hextet_nonempty h : 0 <= h < 65536 -> String.eqb (hextet_text h) "" = false.
Proof.
  intros Hh%hextet_plain. unfold plain_text in Hh. do 4 (apply andb_true_iff in Hh as [Hh _]).
  apply andb_true_iff in Hh as [_ Hh]. by apply negb_true_iff in Hh.
Qed.

Definition nonempty : list string -> Prop := Forall (fun t => String.eqb t "" = false).

Lemma texts_nonempty l : Forall (fun h => 0 <= h < 65536) l -> nonempty (map hextet_text l).
Proof. induction 1; cbn; constructor; auto using hextet_nonempty. Qed.

(** The parts of a text whose numbers between [pre] and [post] are left out. *)
Definition gap (pre post : list string) : list string :=
  (if (length pre =? 0)%nat then [""] else []) ++ pre ++ [""] ++ post ++
  (if (length post =? 0)%nat then [""] else []).

Lemma nonempty_tail t l : nonempty (t :: l) -> nonempty l.
Proof. apply Forall_inv_tail. Qed.

Ltac short_list l :=
  lazymatch goal with
  | H : nonempty l |- _ =>
      destruct l as [|[|? ?] l]; [| by inversion H |]; [|apply nonempty_tail in H]
  end.

Lemma sides_of_gap pre post : nonempty pre -> nonempty post -> (length pre + length post <= 6)%nat ->
  ipv6_sides (gap pre post) = Some (pre, post).
Proof.
  intros Hpre Hpost Hl.
  do 7 (try (short_list pre; [do 7 (try (short_list post; [reflexivity|])); cbn in Hl; lia|])).
  cbn in Hl. lia.
Qed.

Lemma sides_of_full l : nonempty l -> length l = 8%nat -> ipv6_sides l = Some (l, []).
Proof.
  intros H Hl. do 8 (short_list l; [done|]). destruct l; [reflexivity|done].
Qed.

(** The text is either the eight numbers or those around a run of zeros. *)
Lemma compressed_cases l : length l = 8%nat ->
  compressed l = map hextet_text l \/
  exists pre post len, l = pre ++ repeat 0%Z len ++ post /\ (2 <= len)%nat /\
    compressed l = gap (map hextet_text pre) (map hextet_text post).
Proof.
  intros Hl. unfold compressed. pose proof (longest_zeros_at l) as (pre & post & El & Ep).
  destruct (longest_zeros 0 0 (0, 0)%nat l) as [start len]. cbn [fst snd] in *.
  destruct (Nat.ltb_spec 1 len); [right|by left]. exists pre, post, len. split; [done|]. split; [lia|].
  assert (Elen : length l = (start + (len + length post))%nat)
    by (rewrite El, !length_app, repeat_length; lia).
  assert (Ht : take start (map hextet_text l) = map hextet_text pre).
  { rewrite El, !map_app. apply take_app_length'. by rewrite length_map. }
  assert (Hd : drop (start + len) (map hextet_text l) = map hextet_text post).
  { rewrite El, !map_app, app_assoc. apply drop_app_length'.
    rewrite length_app, !length_map, repeat_length. lia. }
  unfold gap. rewrite Ht, Hd, !length_map, Ep, Elen.
  by destruct (Nat.eqb_spec (start + len) (start + (len + length post))), (Nat.eqb_spec (length post) 0); [|lia..|].
Qed.

Lemma free_texts c l : In c [COLON; DOT; PERCENT; char 47] -> Forall (fun h => 0 <= h < 65536) l ->
  Forall (fun t => free_of c t = true) (map hextet_text l).
Proof.
  intros Hc. induction 1 as [|h l Hh _ IH]; [constructor|]. cbn. constructor; [|done].
  apply hextet_plain in Hh. unfold plain_text in Hh. repeat (apply andb_true_iff in Hh as [Hh ?]).
  by repeat (destruct Hc as [<-|Hc]; [done|]).
Qed.

Lemma gap_free c pre post : Forall (fun t => free_of c t = true) pre -> Forall (fun t => free_of c t = true) post ->
  Forall (fun t => free_of c t = true) (gap pre post).
Proof.
  intros H1 H2. unfold gap. repeat (apply Forall_app; split); try done; try (by repeat constructor);
    case_match; by repeat constructor.
Qed.

Lemma last_free c l : Forall (fun t => free_of c t = true) l -> free_of c (List.last l "") = true.
Proof. induction 1 as [|t l Ht HF IH]; [done|]. by destruct l. Qed.

Lemma gap_length pre post : (length (gap pre post) <= S (S (S (length pre + length post))))%nat /\
  (length (gap pre post) >= 3)%nat.
Proof.
  unfold gap. rewrite !length_app. cbn. destruct (Nat.eqb_spec (length pre) 0), (Nat.eqb_spec (length post) 0); cbn; lia.
Qed.

Lemma ipv6_parts_round_trip l : Forall (fun h => 0 <= h < 65536) l -> length l = 8%nat ->
  ipv6_int (join_with COLON (compressed l)) = Some (from_hextets 0 l) /\
  forall c, In c [DOT; PERCENT; char 47] -> free_of c (join_with COLON (compressed l)) = true.
Proof.
  intros HF Hl.
  assert (Hparts : (3 <= length (compressed l) <= 9)%nat /\
    (forall c, In c [COLON; DOT; PERCENT; char 47] -> Forall (fun t => free_of c t = true) (compressed l)) /\
    exists hi lo, ipv6_sides (compressed l) = Some (map hextet_text hi, map hextet_text lo) /\
      Forall (fun h => 0 <= h < 65536) hi /\ Forall (fun h => 0 <= h < 65536) lo /\
      from_hextets (from_hextets 0 hi * 65536 ^ Z.of_nat (8 - (length hi + length lo))) lo = from_hextets 0 l).
  { destruct (compressed_cases l Hl) as [-> | (pre & post & len & El & Hlen & ->)].
    - rewrite length_map, Hl. split; [lia|]. split; [intros c Hc; by apply free_texts|].
      exists l, []. split; [apply sides_of_full; [by apply texts_nonempty|by rewrite length_map]|].
      split_and!; [done|constructor|]. rewrite Hl. cbn. apply Z.mul_1_r.
    - pose proof HF as HF'. rewrite El in HF'. apply Forall_app in HF' as [Hpre [_ Hpost]%Forall_app].
      rewrite El, !length_app, repeat_length in Hl.
      pose proof (gap_length (map hextet_text pre) (map hextet_text post)) as Hg. rewrite !length_map in Hg.
      split; [lia|]. split; [intros c Hc; by apply gap_free; apply free_texts|].
      exists pre, post. split; [apply sides_of_gap; [by apply texts_nonempty..|rewrite !length_map; lia]|].
      split_and!; [done..|]. replace (8 - (length pre + length post))%nat with len by lia.
      by rewrite El, !from_hextets_app, from_hextets_zeros. }
  destruct Hparts as (Hn & Hfree & hi & lo & Hsides & Hhi & Hlo & Hv). split.
  - unfold ipv6_int. rewrite split_join; [|by intros E; rewrite E in Hn; cbn in Hn; lia|apply Hfree; by left].
    destruct (Nat.ltb_spec (length (compressed l)) 3); [lia|].
    assert (E : expand_ipv4 (compressed l) = Some (compressed l)).
    { unfold expand_ipv4. rewrite has_char_free, (last_free DOT); [done|]. apply Hfree. by right; left. }
    rewrite E. destruct (Nat.ltb_spec 9 (length (compressed l))); [lia|]. rewrite Hsides.
    rewrite !all_some_parsed by done. by rewrite Hv.
  - intros c Hc. apply join_free; [|apply Hfree; by right].
    intros ->. vm_compute in Hc. repeat (destruct Hc as [Hc|Hc]; [discriminate Hc|]). done.
Qed.

Lemma ipv6_round_trip n : 0 <= n < 2 ^ 128 -> ipv6_int (ipv6_text n) = Some n.
Proof.
  intros Hn. unfold ipv6_text. destruct (ipv6_parts_round_trip (hextets 8 n) (hextets_range 8 n) (hextets_length 8 n)) as [-> _].
  by rewrite from_hextets_hextets.
Qed.

(** ** Facts: addresses and their texts *)

Lemma all_octets : forallb (fun k => bool_decide (parse_octet (str_of_int (Z.of_nat k)) = Some (Z.of_nat k)) &&
  free_of DOT (str_of_int (Z.of_nat k)) && free_of (char 47) (str_of_int (Z.of_nat k))) (seq 0 256) = true.
Proof. vm_compute. reflexivity. Qed.

Lemma octet_text k : 0 <= k < 256 -> parse_octet (str_of_int k) = Some k /\
  free_of DOT (str_of_int k) = true /\ free_of (char 47) (str_of_int k) = true.
Proof.
  intros Hk. pose proof (proj1 (forallb_forall _ _) all_octets (Z.to_nat k)) as H. cbv beta in H.
  specialize (H ltac:(apply in_seq; lia)). rewrite Z2Nat.id in H by lia.
  apply andb_true_iff in H as [[H1 H2]%andb_true_iff H3]. by apply bool_decide_eq_true in H1.
Qed.

Lemma ipv4_round_trip n : 0 <= n < 2 ^ 32 ->
  ipv4_of (ipv4_text n) = Some n /\ free_of (char 47) (ipv4_text n) = true.
Proof.
  intros Hn. set (octets := map (fun k => n / 256 ^ k mod 256) [3; 2; 1; 0]).
  assert (Ht : ipv4_text n = join_with DOT (map str_of_int octets)) by done.
  assert (HF : Forall (fun k => 0 <= k < 256) octets) by (repeat constructor; apply Z.mod_pos_bound; lia).
  assert (Hfree : forall c, c = DOT \/ c = char 47 -> Forall (fun t => free_of c t = true) (map str_of_int octets)).
  { intros c Hc. apply List.Forall_map. eapply Forall_impl; [exact HF|]. intros k (_ & H1 & H2)%octet_text.
    by destruct Hc as [-> | ->]. }
  rewrite Ht. split; [|apply join_free; [done|apply Hfree; by right]].
  unfold ipv4_of. rewrite split_join; [|done|apply Hfree; by left].
  subst octets. cbn [map] in *. rewrite !Forall_cons in HF. destruct HF as (H3 & H2 & H1 & H0 & _).
  rewrite (proj1 (octet_text _ H3)), (proj1 (octet_text _ H2)), (proj1 (octet_text _ H1)), (proj1 (octet_text _ H0)).
  f_equal. change (256 ^ 3) with 16777216. change (256 ^ 2) with 65536. change (256 ^ 1) with 256.
  change (256 ^ 0) with 1. rewrite Z.div_1_r. change (2 ^ 32) with 4294967296 in Hn. clear - Hn.
  Z.to_euclidean_division_equations. lia.
Qed.

Lemma join_split c s : join_with c (split_on c s) = s.
Proof.
  induction s as [|x s IH]; [done|]. cbn. destruct (Ascii.eqb x c) eqn:E.
  - apply Ascii.eqb_eq in E as ->. destruct (split_on c s) as [|p l] eqn:Es.
    + destruct s; cbn in Es; repeat case_match; done.
    + change (join_with c ("" :: p :: l)) with (String c (join_with c (p :: l))). by rewrite IH.
  - destruct (split_on c s) as [|p l]; [by rewrite <- IH|]. destruct l as [|q l].
    + cbn in *. by rewrite IH.
    + change (join_with c (String x p :: q :: l)) with (String x (p +:+ String c (join_with c (q :: l)))).
      change (join_with c (p :: q :: l)) with (p +:+ String c (join_with c (q :: l))) in IH. by rewrite IH.
Qed.

Lemma parse_octet_Some s n : parse_octet s = Some n -> 0 <= n < 256 /\ str_forallb is_ascii_digit s = true.
Proof.
  unfold parse_octet. destruct (all_digits s) eqn:Hd; [|done]. apply all_digits_forallb in Hd.
  pose proof (digits_value_nonneg 0 s ltac:(lia) Hd). cbn [negb].
  repeat (case_match; [done|]). intros [= <-]. split; [lia|done].
Qed.

Lemma digits_free c s : is_ascii_digit c = false -> str_forallb is_ascii_digit s = true -> free_of c s = true.
Proof.
  intros Hc. apply str_forallb_impl. intros x Hx. destruct (Ascii.eqb x c) eqn:E; [|done].
  apply Ascii.eqb_eq in E as ->. congruence.
Qed.

Lemma ipv4_of_Some s n : ipv4_of s = Some n -> 0 <= n < 2 ^ 32 /\ free_of COLON s = true.
Proof.
  unfold ipv4_of. pose proof (join_split DOT s) as J. destruct (split_on DOT s) as [|a [|b [|c [|d [|]]]]]; try done.
  destruct (parse_octet a) as [a'|] eqn:Ha; [|done]. destruct (parse_octet b) as [b'|] eqn:Hb; [|done].
  destruct (parse_octet c) as [c'|] eqn:Hc; [|done]. destruct (parse_octet d) as [d'|] eqn:Hd; [|done].
  intros [= <-]. apply parse_octet_Some in Ha as [Ha Fa], Hb as [Hb Fb], Hc as [Hc Fc], Hd as [Hd Fd].
  split; [lia|]. rewrite <- J. apply join_free; [done|]. by repeat constructor; apply digits_free.
Qed.

Lemma hex_int_range acc s v : 0 <= acc -> hex_int acc s = Some v ->
  0 <= v < (acc + 1) * 16 ^ Z.of_nat (String.length s).
Proof.
  revert acc. induction s as [|c s IH]; intros acc Ha; cbn [hex_int].
  - intros [= <-]. cbn. lia.
  - destruct (hex_value c) as [d|] eqn:Hd; [|done]. assert (0 <= d < 16).
    { unfold hex_value in Hd. repeat case_match; try done; injection Hd as <-; bool_to_prop; lia. }
    intros Hv%IH; [|lia]. cbn [String.length]. rewrite Nat2Z.inj_succ, Z.pow_succ_r by lia.
    pose proof (Z.pow_pos_nonneg 16 (Z.of_nat (String.length s)) ltac:(lia) ltac:(lia)). nia.
Qed.

Lemma parse_hextet_range s v : parse_hextet s = Some v -> 0 <= v < 65536.
Proof.
  unfold parse_hextet. destruct (String.eqb s "" || _) eqn:E; [done|]. apply orb_false_iff in E as [_ El%Nat.ltb_ge].
  intros Hv%hex_int_range; [|lia]. assert (16 ^ Z.of_nat (String.length s) <= 16 ^ 4) by (apply Z.pow_le_mono_r; lia). lia.
Qed.

Lemma all_some_range l l' : all_some (map parse_hextet l) = Some l' ->
  length l' = length l /\ Forall (fun h => 0 <= h < 65536) l'.
Proof.
  revert l'. induction l as [|s l IH]; cbn; intros l'; [by intros [= <-]|].
  destruct (parse_hextet s) as [v|] eqn:Hv; [|done]. destruct (all_some _) as [m|]; [|done].
  intros [= <-]. destruct (IH m eq_refl) as [E HF]. split; [cbn; lia|].
  constructor; [by apply parse_hextet_range in Hv|done].
Qed.

Lemma from_hextets_range acc l : 0 <= acc -> Forall (fun h => 0 <= h < 65536) l ->
  0 <= from_hextets acc l < (acc + 1) * 65536 ^ Z.of_nat (length l).
Proof.
  intros Ha HF. revert acc Ha. induction HF as [|h l Hh _ IH]; intros acc Ha; [cbn; lia|].
  change (from_hextets acc (h :: l)) with (from_hextets (acc * 65536 + h) l). specialize (IH (acc * 65536 + h)).
  cbn [length]. rewrite Nat2Z.inj_succ, Z.pow_succ_r by lia.
  pose proof (Z.pow_pos_nonneg 65536 (Z.of_nat (length l)) ltac:(lia) ltac:(lia)). nia.
Qed.

Lemma ipv6_sides_length parts hi lo : ipv6_sides parts = Some (hi, lo) -> (length hi + length lo <= 8)%nat.
Proof.
  unfold ipv6_sides. destruct (inner_gaps 0 parts) as [|skip [|]]; [..|done].
  - destruct (Nat.eqb_spec (length parts) 8); [|done]. cbn [andb]. case_match; [|done]. intros [= <- <-]. cbn. lia.
  - cbv zeta. match goal with |- (if ?a then _ else if ?b then _ else if ?c then _ else _) = _ -> _ =>
      destruct a; [done|]; destruct b; [done|]; destruct c eqn:E; [done|] end.
    apply Nat.ltb_ge in E. intros [= <- <-]. lia.
Qed.

Lemma ipv6_int_Some s n : ipv6_int s = Some n -> 0 <= n < 2 ^ 128 /\ free_of COLON s = false.
Proof.
  unfold ipv6_int. destruct (Nat.ltb_spec (length (split_on COLON s)) 3) as [|Hlen]; [done|].
  intros H. split.
  2:{ destruct (free_of COLON s) eqn:E; [|done]. rewrite split_on_free in Hlen by done. cbn in Hlen. lia. }
  destruct (expand_ipv4 _) as [parts|]; [|done]. destruct (Nat.ltb _ _); [done|].
  destruct (ipv6_sides parts) as [[hi lo]|] eqn:Hs; [|done]. apply ipv6_sides_length in Hs.
  destruct (all_some (map parse_hextet hi)) as [hi'|] eqn:Hhi; [|done]. apply all_some_range in Hhi as [Eh Fh].
  destruct (all_some (map parse_hextet lo)) as [lo'|] eqn:Hlo; [|done]. apply all_some_range in Hlo as [El Fl].
  injection H as <-. remember (8 - (length hi' + length lo'))%nat as k eqn:Ek.
  pose proof (from_hextets_range 0 hi' ltac:(lia) Fh) as R1.
  pose proof (Z.pow_pos_nonneg 65536 (Z.of_nat k) ltac:(lia) ltac:(lia)) as P.
  pose proof (from_hextets_range (from_hextets 0 hi' * 65536 ^ Z.of_nat k) lo' ltac:(nia) Fl) as R2.
  split; [lia|]. assert (E : 2 ^ 128 = 65536 ^ Z.of_nat (length hi') * 65536 ^ Z.of_nat k * 65536 ^ Z.of_nat (length lo')).
  { rewrite <- !Z.pow_add_r by lia. replace (Z.of_nat (length hi') + Z.of_nat k + Z.of_nat (length lo')) with 8 by lia. reflexivity. }
  rewrite E. pose proof (Z.pow_pos_nonneg 65536 (Z.of_nat (length lo')) ltac:(lia) ltac:(lia)) as PB.
  assert (Hle : from_hextets 0 hi' * 65536 ^ Z.of_nat k + 1 <= 65536 ^ Z.of_nat (length hi') * 65536 ^ Z.of_nat k) by nia.
  eapply Z.lt_le_trans; [apply R2|]. by apply Z.mul_le_mono_nonneg_r; [lia|].
Qed.

Lemma split_scope_id_Some s addr scope : split_scope_id s = Some (addr, scope) ->
  s = addr +:+ match scope with Some t => String PERCENT t | None => "" end /\ free_of PERCENT addr = true /\
  match scope with Some t => String.eqb t "" = false /\ free_of PERCENT t = true | None => True end.
Proof.
  unfold split_scope_id. destruct (partition PERCENT s) as [[a t]|] eqn:E.
  - destruct (String.eqb t "") eqn:Et; [done|]. destruct (has_char PERCENT t) eqn:Ht; [done|]. cbn [orb].
    intros [= <- <-]. apply partition_spec in E as [-> Ea]. rewrite has_char_free in Ea, Ht.
    apply negb_false_iff in Ea, Ht. by split_and!.
  - intros [= <- <-]. split_and!; [|by apply negb_false_iff; rewrite <- has_char_free; unfold has_char; rewrite E|done].
    clear. induction s as [|x s IH]; [done|]. rewrite str_cons_app. by rewrite <- IH.
Qed.

(** The printed text of a parsed address is an address again, and the same. *)
Lemma address_round_trip s a : ip_address s = Some a -> ip_address (address_text a) = Some a.
Proof.
  unfold ip_address. rewrite has_char_free. destruct (free_of (char 47) s) eqn:Hslash; [|done]. cbn [negb].
  destruct (ipv4_of s) as [n|] eqn:H4.
  - intros [= <-]. apply ipv4_of_Some in H4 as [Hn _]. destruct (ipv4_round_trip n Hn) as [E Hf].
    cbn [address_text]. by rewrite has_char_free, Hf, E.
  - unfold ipv6_of. destruct (split_scope_id s) as [[addr scope]|] eqn:Hsc; [|done].
    apply split_scope_id_Some in Hsc as (-> & _ & Hscope). rewrite free_of_app in Hslash.
    apply andb_true_iff in Hslash as [_ Hslash].
    destruct (ipv6_int addr) as [n|] eqn:H6; [|done]. intros [= <-]. apply ipv6_int_Some in H6 as [Hn _].
    destruct (ipv6_parts_round_trip (hextets 8 n) (hextets_range 8 n) (hextets_length 8 n)) as [_ Hfree].
    change (join_with COLON (compressed (hextets 8 n))) with (ipv6_text n) in Hfree.
    pose proof (ipv6_round_trip n Hn) as R. cbn [address_text].
    rewrite has_char_free, free_of_app, (Hfree (char 47)), Hslash by (cbn; auto). cbn [andb negb].
    assert (E4 : ipv4_of (ipv6_text n +:+ match scope with Some t => String PERCENT t | None => "" end) = None).
    { apply eq_None_not_Some. intros [m E]. apply ipv4_of_Some in E as [_ E]. rewrite free_of_app in E.
      apply andb_true_iff in E as [E _]. apply ipv6_int_Some in R as [_ R]. congruence. }
    rewrite E4. unfold split_scope_id. destruct scope as [t|].
    + rewrite partition_app by (apply Hfree; cbn; auto). destruct Hscope as [-> Ht].
      rewrite has_char_free, Ht. cbn. by rewrite R.
    + assert (Ep : partition PERCENT (ipv6_text n +:+ "") = None).
      { apply eq_None_not_Some. intros [p E]. assert (Hp : free_of PERCENT (ipv6_text n +:+ "") = true)
          by (rewrite free_of_app, Hfree by (cbn; auto); done).
        apply negb_false_iff in Hp. rewrite <- has_char_free in Hp. unfold has_char in Hp. by rewrite E in Hp. }
      rewrite Ep. replace (ipv6_text n +:+ "") with (ipv6_text n); [by rewrite R|].
      generalize (ipv6_text n). clear. intros s. induction s as [|x s IH]; [done|]. rewrite str_cons_app. by rewrite <- IH.
Qed.

(** ** Properties *)

(** C22: One address, one bucket. Behind the trusted proxy the key of a request
    is the canonical text of the address in its header, whatever the
    connection: two requests share a bucket exactly when their headers denote
    the same address, however it is spelled; the key denotes that address
    again, and is its own key. *)
Theorem client_key_identifies_address settings text text' host host' a b :
  rate_limit_trust_proxy_headers settings = true ->
  ip_address (strip text) = Some a -> ip_address (strip text') = Some b ->
  let key := resolve_client_ip settings (Some text) host in
  (key = resolve_client_ip settings (Some text') host' <-> a = b) /\
  ip_address key = Some a /\ client_text key = key.
Proof.
  intros Ht Ha Hb. unfold resolve_client_ip. rewrite Ht, Ha, Hb. cbv zeta.
  pose proof (address_round_trip _ _ Ha) as Ra. pose proof (address_round_trip _ _ Hb) as Rb. split_and!.
  - split; [|by intros ->]. intros E. rewrite E in Ra. congruence.
  - done.
  - unfold client_text. by rewrite Ra.
Qed.

Lemma client_key_identifies_address_witness :
  let key := resolve_client_ip default_settings (Some " 2001:DB8:0:0::1 ") (Some "10.0.0.2") in
  key = "2001:db8::1" /\
  (key = resolve_client_ip default_settings (Some "2001:db8::0.0.0.1") None <->
   IPv6 42540766411282592856903984951653826561 None = IPv6 42540766411282592856903984951653826561 None) /\
  ip_address key = Some (IPv6 42540766411282592856903984951653826561 None) /\ client_text key = key.
Proof.
  split; [vm_compute; reflexivity|].
  apply client_key_identifies_address; vm_compute; reflexivity.
Defined.
