(* ===== verification/ConfigUrls.v ===== *)
(** The outbound URLs of the configuration ([app/config.py]): the public base
    URL of the return links, the base URL of the gateway and the endpoint of
    the bot. Each normaliser accepts a strict form and returns its canonical
    spelling; [None] stands for the [ValueError] with the fixed message.

    A value is a [str]; what the environment holds always is. *)

From S2P Require Import Prelude PyText Urls ClientIp.

#[local] Open Scope Z_scope.

(** ** Text *)

Definition isascii (s : string) : bool := str_forallb (fun c => code c <? 128) s.

(** Whitespace, control characters and backslashes. *)
Definition clean_char (c : Ascii.ascii) : bool :=
  negb ((code c <=? 32) || (code c =? 127)) && negb (code c =? 92).

Definition SLASH : Ascii.ascii := char 47.
Definition QUESTION : Ascii.ascii := char 63.
Definition HASH : Ascii.ascii := char 35.

(** [s.endswith(suffix)]. *)
Definition ends_in (suffix s : string) : bool :=
  (String.length suffix <=? String.length s)%nat && String.eqb (str_last (String.length suffix) s) suffix.

(** The path of [urlsplit], for a URL without query and fragment. *)
Definition split_path (url : string) : string :=
  match snd (split_scheme url) with
  | String a (String b rest) as whole =>
      if (code a =? 47) && (code b =? 47) then snd (span netloc_char rest) else whole
  | whole => whole
  end.

(** ** The authority *)

(** [_HOST_LABEL_PATTERN.fullmatch(label)]: [[a-z0-9]([a-z0-9-]*[a-z0-9])?]. *)
Definition label_end (c : Ascii.ascii) : bool := is_ascii_digit c || ((97 <=? code c) && (code c <=? 122)).
Definition label_char (c : Ascii.ascii) : bool := label_end c || (code c =? 45).

Definition host_label_match (label : string) : bool :=
  str_forallb label_char label &&
  str_forallb label_end (str_take 1 label) && str_forallb label_end (str_last 1 label) &&
  negb (String.eqb label "").

(** [IPv6Address(s)]; the ["/"] of its first test cannot occur in an authority. *)
Definition ipv6_valid (s : string) : bool := negb (has_char SLASH s) && is_some (ipv6_of s).
Definition ipv4_valid (s : string) : bool := negb (has_char SLASH s) && is_some (ipv4_of s).

Definition registered_name (host : string) : bool :=
  (String.length host <=? 253)%nat &&
  forallb (fun label => (String.length label <=? 63)%nat && host_label_match label) (split_on DOT host).

(** [_split_raw_authority]: the canonical host and the raw port text. *)
Definition split_raw_authority (netloc : string) : option (string * option string) :=
  match netloc with
  | String c inner =>
      if Ascii.eqb c LBRACKET then
        match partition RBRACKET inner with
        | None => None
        | Some (host_raw, rest) =>
            if negb (ipv6_valid host_raw) then None
            else
              let host := "[" +:+ lower host_raw +:+ "]" in
              match rest with
              | "" => Some (host, None)
              | String c port_text => if Ascii.eqb c COLON then Some (host, Some port_text) else None
              end
        end
      else
        let '(host_raw, port_text) := match partition COLON netloc with
                                      | Some (h, p) => (h, Some p)
                                      | None => (netloc, None)
                                      end in
        let host := lower host_raw in
        let labels := split_on DOT host in
        if existsb (fun label => String.eqb label "") labels then None
        else if forallb all_digits labels then
          (if ipv4_valid host then Some (host, port_text) else None)
        else if registered_name host then Some (host, port_text) else None
  | "" => None
  end.

(** [_parse_canonical_port]. *)
Definition parse_canonical_port (port_text : option string) : option (option Z) :=
  match port_text with
  | None => Some None
  | Some t =>
      if negb (all_digits t) then None
      else match int_of_digits t with
           | None => None
           | Some port =>
               if negb ((1 <=? port) && (port <=? 65535)) || negb (String.eqb t (str_of_int port)) then None
               else Some (Some port)
           end
  end.

Definition port_part (port : option Z) : string :=
  match port with Some p => ":" +:+ str_of_int p | None => "" end.

Section Normalisers.
Context `{UrlLib}.

(** [_parse_outbound_url]: scheme, canonical host, port and raw path. *)
Definition parse_outbound_url (value : string) : option (string * string * option Z * string) :=
  if String.eqb value "" || negb (isascii value) then None
  else if negb (str_forallb clean_char value) then None
  else if has_char QUESTION value || has_char HASH value then None
  else
    match urlsplit value with
    | None => None
    | Some parts =>
        let netloc := url_netloc parts in
        if String.eqb netloc "" || has_char AT netloc || has_char PERCENT netloc then None
        else
          match split_raw_authority netloc with
          | None => None
          | Some (host, port_text) =>
              match parse_canonical_port port_text with
              | None => None
              | Some port => Some (lower (url_scheme parts), host, port, split_path value)
              end
          end
    end.

(** [normalize_public_base_url]. *)
Definition normalize_public_base_url (value : string) : option string :=
  if String.eqb value "" || negb (isascii value) then None
  else if negb (str_forallb clean_char value) then None
  else if has_char QUESTION value || has_char HASH value then None
  else
    match urlsplit value with
    | None => None
    | Some parts =>
        if negb (String.eqb (lower (url_scheme parts)) "https") then None
        else if negb (String.eqb (split_path value) "" || String.eqb (split_path value) "/") then None
        else
          let netloc := url_netloc parts in
          if String.eqb netloc "" || has_char AT netloc || has_char PERCENT netloc then None
          else
            match split_raw_authority netloc with
            | None => None
            | Some (host_canonical, port_text) =>
                match parse_canonical_port port_text with
                | None => None
                | Some port => Some ("https://" +:+ host_canonical +:+ port_part port)
                end
            end
    end.

(** [_PATH_SEGMENT_PATTERN]: [[A-Za-z0-9._~-]+]. *)
Definition segment_char (c : Ascii.ascii) : bool :=
  is_ascii_alpha c || is_ascii_digit c || (code c =? 46) || (code c =? 95) || (code c =? 126) || (code c =? 45).

(** [_validate_path_segments]. *)
Definition validate_path_segments (path : string) : bool :=
  match path with
  | String c tail =>
      Ascii.eqb c SLASH && negb (has_char PERCENT path) &&
      forallb (fun segment => negb (String.eqb segment "") &&
                 negb (String.eqb segment "." || String.eqb segment "..") &&
                 str_forallb segment_char segment)
        (split_on SLASH tail)
  | "" => false
  end.

(** [path.rsplit("/", 1)[-1]]. *)
Definition basename (path : string) : string :=
  match rpartition SLASH path with Some (_, b) => b | None => path end.

(** [normalize_centralpay_base_url]. *)
Definition normalize_centralpay_base_url (value : string) : option string :=
  match parse_outbound_url value with
  | None => None
  | Some (scheme, host, port, path) =>
      if negb (String.eqb scheme "https") then None
      else if String.eqb path "" || String.eqb path "/" then Some ("https://" +:+ host +:+ port_part port)
      else
        let path := if ends_in "/" path then str_take (String.length path - 1) path else path in
        if negb (validate_path_segments path) then None
        else if ends_in ".php" (lower (basename path)) then None
        else Some ("https://" +:+ host +:+ port_part port +:+ path)
  end.

(** ** Private hosts *)

(** [address in network], for an address of [bits] bits. *)
Definition in_network (bits : Z) (n : Z) (network : Z * Z) : bool :=
  let '(address, prefix) := network in n / 2 ^ (bits - prefix) =? address / 2 ^ (bits - prefix).

Definition net4 (text : string) (prefix : Z) : Z * Z := (default 0 (ipv4_of text), prefix).
Definition net6 (text : string) (prefix : Z) : Z * Z := (default 0 (ipv6_int text), prefix).

(** The tables of [ipaddress] (Python 3.12). *)
Definition private4 : list (Z * Z) :=
  [net4 "0.0.0.0" 8; net4 "10.0.0.0" 8; net4 "127.0.0.0" 8; net4 "169.254.0.0" 16; net4 "172.16.0.0" 12;
   net4 "192.0.0.0" 24; net4 "192.0.0.170" 31; net4 "192.0.2.0" 24; net4 "192.168.0.0" 16; net4 "198.18.0.0" 15;
   net4 "198.51.100.0" 24; net4 "203.0.113.0" 24; net4 "240.0.0.0" 4; net4 "255.255.255.255" 32].
Definition private4_exceptions : list (Z * Z) := [net4 "192.0.0.9" 32; net4 "192.0.0.10" 32].

Definition private6 : list (Z * Z) :=
  [net6 "::1" 128; net6 "::" 128; net6 "::ffff:0:0" 96; net6 "64:ff9b:1::" 48; net6 "100::" 64; net6 "2001::" 23;
   net6 "2001:db8::" 32; net6 "2002::" 16; net6 "3fff::" 20; net6 "fc00::" 7; net6 "fe80::" 10].
Definition private6_exceptions : list (Z * Z) :=
  [net6 "2001:1::1" 128; net6 "2001:1::2" 128; net6 "2001:3::" 32; net6 "2001:4:112::" 48; net6 "2001:20::" 28;
   net6 "2001:30::" 28].

Definition is_private4 (n : Z) : bool :=
  existsb (in_network 32 n) private4 && forallb (fun net => negb (in_network 32 n net)) private4_exceptions.

(** [ipv4_mapped]. *)
Definition ipv4_mapped (n : Z) : option Z :=
  if n / 2 ^ 32 =? 65535 then Some (n mod 2 ^ 32) else None.

Definition is_private6 (n : Z) : bool :=
  match ipv4_mapped n with
  | Some m => is_private4 m
  | None => existsb (in_network 128 n) private6 &&
            forallb (fun net => negb (in_network 128 n net)) private6_exceptions
  end.

Definition private_or_local4 (n : Z) : bool :=
  in_network 32 n (net4 "127.0.0.0" 8) || is_private4 n || in_network 32 n (net4 "169.254.0.0" 16).

Definition private_or_local6 (n : Z) : bool :=
  (n =? 1) || is_private6 n || in_network 128 n (net6 "fe80::" 10).

(** [_is_private_bot_host], of a host that [_split_raw_authority] returned:
    the address constructors do not fail on it. *)
Definition is_private_bot_host (host : string) : bool :=
  match host with
  | String c inner =>
      if Ascii.eqb c LBRACKET then
        match ipv6_of (str_take (String.length inner - 1) inner) with
        | Some (IPv6 n _) => private_or_local6 n
        | _ => false
        end
      else if forallb all_digits (split_on DOT host) then
        match ipv4_of host with Some n => private_or_local4 n | None => false end
      else
        String.eqb host "localhost" || ends_in ".localhost" host || negb (has_char DOT host) ||
        ends_in ".internal" host || ends_in ".local" host
  | "" => true
  end.

(** [normalize_bot_notify_url]. *)
Definition normalize_bot_notify_url (value : string) (allow_insecure : bool) : option string :=
  match parse_outbound_url value with
  | None => None
  | Some (scheme, host, port, path) =>
      let continue := 
        if validate_path_segments path then Some (scheme +:+ "://" +:+ host +:+ port_part port +:+ path) else None in
      if String.eqb scheme "http" then
        (if negb allow_insecure || negb (is_private_bot_host host) then None else continue)
      else if negb (String.eqb scheme "https") then None
      else continue
  end.
End Normalisers.

(** ** The canonical forms *)

(** What an authority is made of. *)
Definition authority_char (c : Ascii.ascii) : bool :=
  (code c <? 128) && clean_char c && netloc_char c && negb (Ascii.eqb c AT) && negb (Ascii.eqb c PERCENT).

(** A host as the configuration keeps it: an IPv6 address in brackets, an
    IPv4 address, or a name of labels that are not all numbers. *)
Inductive canonical_host : string -> Prop :=
  | host_v6 a : str_forallb authority_char a = true -> free_of RBRACKET a = true -> lower a = a ->
      is_some (ipv6_int a) = true -> canonical_host ("[" +:+ a +:+ "]")
  | host_v4 h : is_some (ipv4_of h) = true -> canonical_host h
  | host_name h : registered_name h = true -> forallb all_digits (split_on DOT h) = false -> canonical_host h.

Definition canonical_port (port : option Z) : Prop :=
  match port with Some p => 1 <= p <= 65535 | None => True end.

(** A URL text without anything that is refused before it is parsed. *)
Definition plain_url (v : string) : bool :=
  isascii v && str_forallb clean_char v && free_of QUESTION v && free_of HASH v.

Definition path_ok (path : string) : Prop :=
  match path with String c _ => c = SLASH | "" => True end.

(** The text of a URL in its parts. *)
Definition url_text (scheme authority : string) (port : option Z) (path : string) : string :=
  scheme +:+ "://" +:+ authority +:+ port_part port +:+ path.

(** [urlsplit] accepts an IPv6 address in brackets, whether or not a port follows. *)
Definition accepts_ipv6 `{UrlLib} : Prop := forall a rest,
  is_some (ipv6_int a) = true -> free_of RBRACKET a = true -> free_of PERCENT a = true ->
  (rest = "" \/ exists t, rest = ":" +:+ t) ->
  bracketed_netloc_ok ("[" +:+ a +:+ "]" +:+ rest) = true.

(** ** Examples *)

(** The check of Python 3.12: what stands in the brackets is an IPv6 address. *)
#[local] Instance brackets_checked : UrlLib := {| bracketed_netloc_ok := fun netloc =>
  match partition LBRACKET netloc with
  | Some (_, bracketed) =>
      match partition RBRACKET bracketed with Some (a, _) => is_some (ipv6_of a) | None => false end
  | None => false
  end |}.

Example public_ex : map normalize_public_base_url
    ["https://pay.example.com"; "HTTPS://Pay.Example.com:8443/"; "https://[2001:DB8::1]:443"; "https://10.0.0.1/"]
  = map Some ["https://pay.example.com"; "https://pay.example.com:8443"; "https://[2001:db8::1]:443"; "https://10.0.0.1"].
Proof. vm_compute. reflexivity. Qed.

Example public_refused : forallb (fun v => is_none (normalize_public_base_url v))
    ["http://pay.example.com"; "https://pay.example.com:"; "https://pay.example.com:0443"; "https://u@pay.example.com";
     "https://pay.example.com/x"; "https://pay.example.com?"; "https://pay..com"; "https://-a.com"; "https://a_b.com";
     "https://1.2.3"; "https://999.1.1.1"; "https://[::1]x"; "//pay.example.com"; "https://pay.example.com:65536"; ""]
  = true.
Proof. vm_compute. reflexivity. Qed.

Example centralpay_ex : map normalize_centralpay_base_url
    ["https://centralapi.org/webservice/basic"; "https://Centralapi.org/webservice/basic/"; "https://centralapi.org/";
     "https://centralapi.org/a/getLink.PHP"; "https://centralapi.org//a"; "http://centralapi.org/a"]
  = [Some "https://centralapi.org/webservice/basic"; Some "https://centralapi.org/webservice/basic";
     Some "https://centralapi.org"; None; None; None].
Proof. vm_compute. reflexivity. Qed.

Example bot_ex : map (fun v => normalize_bot_notify_url v true)
    ["http://mock-bot:8080/notify"; "http://10.1.2.3/n"; "http://bot.example.com/n"; "http://8.8.8.8/n";
     "http://[::ffff:8.8.8.8]/n"; "http://[fd00::1]/n"; "https://bot.example.com/n/"; "https://bot.example.com"]
  = [Some "http://mock-bot:8080/notify"; Some "http://10.1.2.3/n"; None; None; None; Some "http://[fd00::1]/n"; None; None].
Proof. vm_compute. reflexivity. Qed.

(** ** Facts: letter case *)

Lemma char_code c : char (code c) = c.
Proof. unfold char, code. rewrite N2Z.id. apply Ascii.ascii_N_embedding. Qed.

(** A boolean fact of every character, by trying all of them. *)
Lemma every_char (P : Ascii.ascii -> bool) : forallb (fun k => P (char (Z.of_nat k))) (seq 0 256) = true ->
  forall c, P c = true.
Proof.
  intros H c. rewrite <- (char_code c), <- (Z2Nat.id (code c)) by apply code_range.
  apply (proj1 (forallb_forall _ _) H). apply in_seq. pose proof (code_range c). lia.
Qed.

(** A predicate that does not tell a letter from its lower case. *)
Definition caseless (p : Ascii.ascii -> bool) : Prop := forall c, p (lower_char c) = p c.

Lemma every_caseless (p : Ascii.ascii -> bool) :
  forallb (fun k => Bool.eqb (p (lower_char (char (Z.of_nat k)))) (p (char (Z.of_nat k)))) (seq 0 256) = true ->
  caseless p.
Proof. intros H c. apply Bool.eqb_prop. by apply (every_char (fun c => Bool.eqb (p (lower_char c)) (p c))). Qed.

Ltac by_caseless := apply every_caseless; vm_compute; reflexivity.

Lemma caseless_colon : caseless (fun x => Ascii.eqb x COLON). Proof. by_caseless. Qed.
Lemma caseless_dot : caseless (fun x => Ascii.eqb x DOT). Proof. by_caseless. Qed.
Lemma caseless_lbracket : caseless (fun x => Ascii.eqb x LBRACKET). Proof. by_caseless. Qed.
Lemma caseless_rbracket : caseless (fun x => Ascii.eqb x RBRACKET). Proof. by_caseless. Qed.
Lemma caseless_percent : caseless (fun x => Ascii.eqb x PERCENT). Proof. by_caseless. Qed.
Lemma caseless_digit : caseless is_ascii_digit. Proof. by_caseless. Qed.

Create HintDb caseless.
#[export] Hint Resolve caseless_colon caseless_dot caseless_lbracket caseless_rbracket caseless_percent caseless_digit
  : caseless.

Lemma str_app_assoc s t r : (s +:+ t) +:+ r = s +:+ t +:+ r.
Proof. induction s as [|c s IH]; [done|]. rewrite !str_cons_app. by rewrite IH. Qed.

Lemma str_app_nil_r s : s +:+ "" = s.
Proof. induction s as [|c s IH]; [done|]. rewrite str_cons_app. by rewrite IH. Qed.

Lemma lower_app s t : lower (s +:+ t) = lower s +:+ lower t.
Proof. induction s as [|c s IH]; [done|]. change (String (lower_char c) (lower (s +:+ t)) = String (lower_char c) (lower s +:+ lower t)). by rewrite IH. Qed.

Lemma lower_char_idem c : lower_char (lower_char c) = lower_char c.
Proof. assert (H : Ascii.eqb (lower_char (lower_char c)) (lower_char c) = true) by (revert c; apply every_char; vm_compute; reflexivity). by apply Ascii.eqb_eq. Qed.

Lemma lower_idem s : lower (lower s) = lower s.
Proof. unfold lower. induction s as [|c s IH]; cbn; [done|]. by rewrite lower_char_idem, IH. Qed.

Lemma lower_length s : String.length (lower s) = String.length s.
Proof. unfold lower. induction s as [|c s IH]; cbn; [done|]. by rewrite IH. Qed.

Lemma lower_empty s : lower s = "" <-> s = "".
Proof. by destruct s. Qed.

Lemma lower_forallb p s : caseless p -> str_forallb p (lower s) = str_forallb p s.
Proof. intros Hp. unfold lower. induction s as [|c s IH]; cbn; [done|]. by rewrite Hp, IH. Qed.

Lemma lower_free c s : caseless (fun x => Ascii.eqb x c) -> free_of c (lower s) = free_of c s.
Proof. intros Hc. apply lower_forallb. intros x. f_equal. apply Hc. Qed.

Lemma partition_lower c s : caseless (fun x => Ascii.eqb x c) ->
  partition c (lower s) = option_map (fun ab => (lower (fst ab), lower (snd ab))) (partition c s).
Proof.
  intros Hc. unfold lower. induction s as [|x s IH]; cbn; [done|]. rewrite (Hc x). destruct (Ascii.eqb x c); [done|].
  rewrite IH. by destruct (partition c s) as [[a b]|].
Qed.

Lemma split_on_lower c s : caseless (fun x => Ascii.eqb x c) -> split_on c (lower s) = map lower (split_on c s).
Proof.
  intros Hc. unfold lower. induction s as [|x s IH]; cbn; [done|]. rewrite (Hc x), IH. destruct (Ascii.eqb x c); [done|].
  by destruct (split_on c s).
Qed.

Lemma all_digits_lower s : all_digits (lower s) = all_digits s.
Proof. unfold all_digits. rewrite lower_forallb by auto with caseless. by destruct s. Qed.

(** A text without upper-case letters. *)
Lemma lower_same p s : (forall c, p c = true -> lower_char c = c) -> str_forallb p s = true -> lower s = s.
Proof.
  intros Hp. unfold lower. induction s as [|c s IH]; cbn; [done|]. intros [Hc Hs]%andb_true_iff. by rewrite (Hp c Hc), (IH Hs).
Qed.

Lemma digit_lower c : is_ascii_digit c = true -> lower_char c = c.
Proof.
  intros Hc. unfold lower_char, is_ascii_digit in *. bool_to_prop.
  destruct (_ || _) eqn:E; [|done]. bool_to_prop. lia.
Qed.

Lemma digits_lower s : str_forallb is_ascii_digit s = true -> lower s = s.
Proof. apply lower_same, digit_lower. Qed.

(** *** Addresses *)

Lemma hex_value_lower c : hex_value (lower_char c) = hex_value c.
Proof.
  assert (H : bool_decide (hex_value (lower_char c) = hex_value c) = true)
    by (revert c; apply every_char; vm_compute; reflexivity).
  by apply bool_decide_eq_true in H.
Qed.

Lemma hex_int_lower acc s : hex_int acc (lower s) = hex_int acc s.
Proof.
  revert acc. unfold lower. induction s as [|c s IH]; intros acc; cbn; [done|]. rewrite hex_value_lower.
  by destruct (hex_value c).
Qed.

Lemma parse_octet_lower s : parse_octet (lower s) = parse_octet s.
Proof.
  unfold parse_octet. rewrite all_digits_lower. destruct (all_digits s) eqn:E; [|done].
  by rewrite digits_lower by (by apply all_digits_forallb).
Qed.

Lemma ipv4_of_lower s : ipv4_of (lower s) = ipv4_of s.
Proof.
  unfold ipv4_of. rewrite split_on_lower by auto with caseless.
  destruct (split_on DOT s) as [|a [|b [|c [|d [|]]]]]; cbn [map]; try done. by rewrite !parse_octet_lower.
Qed.

(** Parts that [ipv6_int] cannot tell apart. *)
Definition alike (a b : string) : Prop := parse_hextet a = parse_hextet b /\ String.eqb a "" = String.eqb b "".

Lemma alike_refl a : alike a a. Proof. done. Qed.

Lemma alike_lower a : alike (lower a) a.
Proof. split; [|by destruct a]. unfold parse_hextet. rewrite lower_length, hex_int_lower. by destruct a. Qed.

Lemma alike_map_lower l : Forall2 alike (map lower l) l.
Proof. induction l; cbn; constructor; [apply alike_lower|done]. Qed.

Lemma alike_parsed l l' : Forall2 alike l l' -> map parse_hextet l = map parse_hextet l'.
Proof. induction 1 as [|a b l l' [E _] _ IH]; cbn; [done|]. by rewrite E, IH. Qed.

Lemma alike_gaps l l' : Forall2 alike l l' -> forall i, inner_gaps i l = inner_gaps i l'.
Proof.
  induction 1 as [|a b l l' [_ E] Hl IH]; intros i; [done|].
  destruct Hl as [|a2 b2 l2 l2' H2 Hl2]; [done|]. cbn [inner_gaps]. cbn [inner_gaps] in IH. by rewrite E, IH.
Qed.

Lemma alike_last l l' : Forall2 alike l l' -> String.eqb (List.last l "") "" = String.eqb (List.last l' "") "".
Proof. induction 1 as [|a b l l' [_ E] Hl IH]; [done|]. by destruct Hl. Qed.

Lemma alike_removelast l l' : Forall2 alike l l' -> Forall2 alike (List.removelast l) (List.removelast l').
Proof. induction 1 as [|a b l l' E Hl IH]; [constructor|]. destruct Hl; [constructor|]. by constructor. Qed.

Definition alike_sides (a b : option (list string * list string)) : Prop :=
  match a, b with
  | Some (hi, lo), Some (hi', lo') => Forall2 alike hi hi' /\ Forall2 alike lo lo'
  | None, None => True
  | _, _ => False
  end.

Lemma last_empty (l : list string) :
  match List.last l "" with "" => true | _ => false end = String.eqb (List.last l "") "".
Proof. by destruct (List.last l ""). Qed.

Lemma alike_ipv6_sides l l' : Forall2 alike l l' -> alike_sides (ipv6_sides l) (ipv6_sides l').
Proof.
  intros Hl. unfold ipv6_sides. rewrite !last_empty, (alike_last _ _ Hl), (alike_gaps _ _ Hl), (Forall2_length _ _ _ Hl).
  assert (E : match l with p :: _ => String.eqb p "" | [] => true end =
              match l' with p :: _ => String.eqb p "" | [] => true end) by (by destruct Hl as [|? ? ? ? [_ E]]).
  rewrite E. destruct (inner_gaps 0 l') as [|skip [|]]; [by destruct (_ && _)| |done].
  set (first := match l' with [] => true | _ => _ end). set (final := String.eqb (List.last l' "") "").
  assert (H1 : Forall2 alike (if first then List.tl (List.firstn skip l) else List.firstn skip l)
                             (if first then List.tl (List.firstn skip l') else List.firstn skip l')).
  { pose proof (Forall2_take _ _ _ skip Hl) as Ht. destruct first; [|done]. by destruct Ht. }
  assert (H2 : Forall2 alike (if final then List.removelast (List.skipn (S skip) l) else List.skipn (S skip) l)
                             (if final then List.removelast (List.skipn (S skip) l') else List.skipn (S skip) l')).
  { pose proof (Forall2_drop _ _ _ (S skip) Hl) as Ht. destruct final; [by apply alike_removelast|done]. }
  cbv zeta. rewrite (Forall2_length _ _ _ H1), (Forall2_length _ _ _ H2). by repeat case_match.
Qed.

Lemma alike_expand parts : match expand_ipv4 (map lower parts), expand_ipv4 parts with
  | Some l, Some l' => Forall2 alike l l' | None, None => True | _, _ => False end.
Proof.
  unfold expand_ipv4. assert (E : List.last (map lower parts) "" = lower (List.last parts "")).
  { induction parts as [|p parts IH]; [done|]. by destruct parts. }
  rewrite E, !has_char_free, lower_free, ipv4_of_lower by auto with caseless.
  destruct (negb _); [|apply alike_map_lower]. destruct (ipv4_of _); [|done].
  apply Forall2_app; [|by repeat constructor]. apply alike_removelast, alike_map_lower.
Qed.

Lemma ipv6_int_lower s : ipv6_int (lower s) = ipv6_int s.
Proof.
  unfold ipv6_int. rewrite split_on_lower by auto with caseless. rewrite length_map.
  destruct (_ <? 3)%nat; [done|]. pose proof (alike_expand (split_on COLON s)) as He.
  destruct (expand_ipv4 (map lower _)) as [l|], (expand_ipv4 _) as [l'|]; try done.
  rewrite (Forall2_length _ _ _ He). destruct (_ <? _)%nat; [done|].
  pose proof (alike_ipv6_sides _ _ He) as Hs. destruct (ipv6_sides l) as [[hi lo]|], (ipv6_sides l') as [[hi' lo']|]; try done.
  destruct Hs as [H1 H2]. by rewrite (alike_parsed _ _ H1), (alike_parsed _ _ H2).
Qed.

(** ** Facts: the authority *)

Lemma caseless_authority : caseless authority_char. Proof. by_caseless. Qed.
#[export] Hint Resolve caseless_authority : caseless.

Lemma authority_char_spec c : authority_char c = true ->
  code c < 128 /\ clean_char c = true /\ netloc_char c = true /\ Ascii.eqb c AT = false /\ Ascii.eqb c PERCENT = false.
Proof. unfold authority_char. intros [[[[H1 H2]%andb_true_iff H3]%andb_true_iff H4]%andb_true_iff H5]%andb_true_iff. bool_to_prop. by destruct (Ascii.eqb c AT), (Ascii.eqb c PERCENT). Qed.

Lemma authority_free c s : authority_char c = false -> str_forallb authority_char s = true -> free_of c s = true.
Proof.
  intros Hc. apply str_forallb_impl. intros x Hx. destruct (Ascii.eqb x c) eqn:E; [|done].
  apply Ascii.eqb_eq in E as ->. congruence.
Qed.

(** The characters of numbers and names. *)
Definition name_char (c : Ascii.ascii) : bool := label_char c || Ascii.eqb c DOT.

Lemma split_forallb p c s : forallb (str_forallb p) (split_on c s) = true ->
  str_forallb (fun x => p x || Ascii.eqb x c) s = true.
Proof.
  induction s as [|x s IH]; cbn; [done|]. destruct (Ascii.eqb x c); cbn.
  - intros H. by rewrite orb_true_r, IH.
  - destruct (split_on c s) as [|part parts]; cbn in *; [|intros [[-> ?]%andb_true_iff ?]%andb_true_iff; cbn; apply IH; by apply andb_true_iff].
    intros [[-> _]%andb_true_iff _]%andb_true_iff. by rewrite IH.
Qed.

Lemma label_match_chars label : host_label_match label = true -> str_forallb label_char label = true /\ label <> "".
Proof. unfold host_label_match. intros [[[H1 _]%andb_true_iff _]%andb_true_iff H2]%andb_true_iff. split; [done|by destruct label]. Qed.

Lemma digit_label c : is_ascii_digit c = true -> label_char c = true.
Proof. intros H. unfold label_char, label_end. by rewrite H. Qed.

Lemma ipv4_digits h : is_some (ipv4_of h) = true -> forallb all_digits (split_on DOT h) = true.
Proof.
  unfold ipv4_of. assert (Ho : forall o z, parse_octet o = Some z -> all_digits o = true).
  { intros o z. unfold parse_octet. by destruct (all_digits o). }
  destruct (split_on DOT h) as [|a [|b [|c [|d [|]]]]]; try done.
  destruct (parse_octet a) eqn:Ea, (parse_octet b) eqn:Eb, (parse_octet c) eqn:Ec, (parse_octet d) eqn:Ed; try done.
  intros _. cbn. by rewrite (Ho _ _ Ea), (Ho _ _ Eb), (Ho _ _ Ec), (Ho _ _ Ed).
Qed.

Lemma plain_host_chars h : is_some (ipv4_of h) = true \/ registered_name h = true -> str_forallb name_char h = true.
Proof.
  intros H. apply split_forallb. apply forallb_forall. intros label Hl. destruct H as [H|H].
  - apply ipv4_digits in H. rewrite forallb_forall in H. specialize (H label Hl).
    eapply str_forallb_impl; [exact digit_label|by apply all_digits_forallb].
  - apply andb_true_iff in H as [_ H]. rewrite forallb_forall in H. specialize (H label Hl).
    apply andb_true_iff in H as [_ H]. by apply label_match_chars in H as [? _].
Qed.

Lemma name_char_facts c : name_char c = true ->
  authority_char c = true /\ lower_char c = c /\ Ascii.eqb c COLON = false /\ Ascii.eqb c LBRACKET = false /\
  Ascii.eqb c RBRACKET = false.
Proof.
  intros H. assert (Hall : implb (name_char c) (authority_char c && Ascii.eqb (lower_char c) c &&
      negb (Ascii.eqb c COLON) && negb (Ascii.eqb c LBRACKET) && negb (Ascii.eqb c RBRACKET)) = true).
  { clear H. revert c. apply every_char. vm_compute. reflexivity. }
  rewrite H in Hall. cbn [implb] in Hall.
  revert Hall. intros [[[[H1 H2]%andb_true_iff H3]%andb_true_iff H4]%andb_true_iff H5]%andb_true_iff.
  apply Ascii.eqb_eq in H2. by apply negb_true_iff in H3, H4, H5.
Qed.

Lemma plain_host_free c h : name_char c = false -> str_forallb name_char h = true -> free_of c h = true.
Proof.
  intros Hc. apply str_forallb_impl. intros x Hx. destruct (Ascii.eqb x c) eqn:E; [|done].
  apply Ascii.eqb_eq in E as ->. congruence.
Qed.

Lemma plain_host_lower h : str_forallb name_char h = true -> lower h = h.
Proof. apply lower_same. intros c Hc. by apply name_char_facts. Qed.

Lemma canonical_host_facts h : canonical_host h ->
  lower h = h /\ str_forallb authority_char h = true /\ h <> "".
Proof.
  assert (Hplain : forall h, str_forallb name_char h = true -> lower h = h /\ str_forallb authority_char h = true).
  { intros h' Hn. split; [by apply plain_host_lower|]. eapply str_forallb_impl; [|exact Hn]. intros c Hc. by apply name_char_facts. }
  destruct 1 as [a Ha Hr Hl H6|h H4|h Hn Hd].
  - split_and!; [by rewrite !lower_app, Hl| |done]. by rewrite !str_forallb_app, Ha.
  - destruct (Hplain h); [by apply plain_host_chars; left|]. split_and!; try done. by intros ->.
  - destruct (Hplain h); [by apply plain_host_chars; right|]. split_and!; try done. by intros ->.
Qed.

Definition raw_port (port_text : option string) : string :=
  match port_text with Some t => String COLON t | None => "" end.

Lemma ipv6_of_plain a : free_of PERCENT a = true -> is_some (ipv6_of a) = is_some (ipv6_int a).
Proof.
  intros Ha. unfold ipv6_of, split_scope_id. pose proof (has_char_free PERCENT a) as H. unfold has_char in H. rewrite Ha in H.
  destruct (partition PERCENT a) as [[]|]; [done|]. by destruct (ipv6_int a).
Qed.

Lemma ipv6_valid_plain a : str_forallb authority_char a = true -> ipv6_valid a = is_some (ipv6_int a).
Proof.
  intros Ha. unfold ipv6_valid. rewrite has_char_free, (authority_free SLASH), ipv6_of_plain; [done|..|done|done].
  by apply authority_free.
Qed.

Lemma ipv4_valid_plain h : str_forallb authority_char h = true -> ipv4_valid h = is_some (ipv4_of h).
Proof. intros Ha. unfold ipv4_valid. by rewrite has_char_free, (authority_free SLASH). Qed.

(** What [_split_raw_authority] accepts is a canonical host, up to case, and
    a port text. *)
Lemma split_raw_authority_sound n h pt : str_forallb authority_char n = true ->
  split_raw_authority n = Some (h, pt) ->
  exists raw, n = raw +:+ raw_port pt /\ lower raw = h /\ canonical_host h.
Proof.
  intros Hn. destruct n as [|c inner]; [done|]. cbn [split_raw_authority]. destruct (Ascii.eqb c LBRACKET) eqn:Ec.
  - apply Ascii.eqb_eq in Ec as ->. destruct (partition RBRACKET inner) as [[a rest]|] eqn:Hp; [|done].
    apply partition_spec in Hp as [-> Ha]. cbn [str_forallb] in Hn. apply andb_true_iff in Hn as [_ Hn].
    rewrite str_forallb_app in Hn. apply andb_true_iff in Hn as [Hn _]. rewrite ipv6_valid_plain by done.
    destruct (is_some (ipv6_int a)) eqn:H6; [|done]. cbn [negb].
    assert (Hc : canonical_host ("[" +:+ lower a +:+ "]")).
    { constructor; [by rewrite lower_forallb by auto with caseless| |apply lower_idem|by rewrite ipv6_int_lower].
      rewrite has_char_free in Ha. apply negb_false_iff in Ha. by rewrite lower_free by auto with caseless. }
    destruct rest as [|c port_text]; [|destruct (Ascii.eqb c COLON) eqn:Ec; [apply Ascii.eqb_eq in Ec as ->|done]];
      intros [= <- <-]; exists ("[" +:+ a +:+ "]"); (split_and!; [|by rewrite !lower_app|done]);
      cbn [raw_port]; by rewrite !str_cons_app, ?str_app_assoc, ?str_app_nil_r.
  - set (n := String c inner) in *.
    destruct (match partition COLON n with Some (h, p) => (h, Some p) | None => (n, None) end) as [raw port_text] eqn:Hp.
    assert (Er : n = raw +:+ raw_port port_text).
    { destruct (partition COLON n) as [[a b]|] eqn:Hc; injection Hp as <- <-; [by apply partition_spec in Hc as [-> _]|].
      cbn [raw_port]. by rewrite str_app_nil_r. }
    rewrite Er, str_forallb_app in Hn. apply andb_true_iff in Hn as [Hn _].
    destruct (existsb _ _); [done|]. destruct (forallb all_digits _) eqn:Hd.
    + rewrite ipv4_valid_plain by (by rewrite lower_forallb by auto with caseless).
      destruct (is_some _) eqn:H4; [|done]. intros [= <- <-]. exists raw. split_and!; [done..|by constructor].
    + destruct (registered_name _) eqn:Hr; [|done]. intros [= <- <-]. exists raw. split_and!; [done..|by apply host_name].
Qed.

Lemma lower_app_inv s a b : lower s = a +:+ b -> exists a' b', s = a' +:+ b' /\ lower a' = a /\ lower b' = b.
Proof.
  revert a. induction s as [|c s IH]; intros a.
  - destruct a; [|done]. intros E. by exists "", "".
  - destruct a as [|x a]; [intros E; by exists "", (String c s)|]. intros [= <- E].
    destruct (IH a E) as (a' & b' & -> & <- & <-). by exists (String c a'), b'.
Qed.

Lemma lower_char_inv c x : caseless (fun y => Ascii.eqb y c) -> lower_char x = c -> x = c.
Proof. intros Hc E. apply Ascii.eqb_eq. by rewrite <- (Hc x), E, Ascii.eqb_refl. Qed.

Lemma lower_single_inv c s : caseless (fun y => Ascii.eqb y c) -> lower s = String c "" -> s = String c "".
Proof.
  intros Hc. destruct s as [|x [|]]; try done. intros [= E]. by rewrite (lower_char_inv c x Hc E).
Qed.

(** Partition at a colon, of a host without one. *)
Lemma partition_raw_port raw pt : free_of COLON raw = true ->
  match partition COLON (raw +:+ raw_port pt) with
  | Some (h, p) => (h, Some p) | None => (raw +:+ raw_port pt, None)
  end = (raw, pt).
Proof.
  intros Hf. destruct pt as [t|]; cbn [raw_port]; [by rewrite partition_app|]. rewrite str_app_nil_r.
  pose proof (has_char_free COLON raw) as H. rewrite Hf in H. unfold has_char in H. by destruct (partition COLON raw) as [[]|].
Qed.

Lemma no_empty_label h : (is_some (ipv4_of h) = true \/ registered_name h = true) ->
  existsb (fun label => String.eqb label "") (split_on DOT h) = false.
Proof.
  intros H. apply not_true_is_false. intros [label [Hl E%String.eqb_eq]]%existsb_exists. subst label. destruct H as [H|H].
  - apply ipv4_digits in H. rewrite forallb_forall in H. by specialize (H "" Hl).
  - apply andb_true_iff in H as [_ H]. rewrite forallb_forall in H. by specialize (H "" Hl).
Qed.

Lemma split_plain_authority raw h pt : lower raw = h -> (is_some (ipv4_of h) = true \/ registered_name h = true) ->
  (forallb all_digits (split_on DOT h) = true -> is_some (ipv4_of h) = true) ->
  (forallb all_digits (split_on DOT h) = false -> registered_name h = true) ->
  split_raw_authority (raw +:+ raw_port pt) = Some (h, pt).
Proof.
  intros Hl Hh H4 Hn. assert (Hc : str_forallb name_char h = true) by (by apply plain_host_chars).
  assert (Hf : free_of COLON raw = true) by (rewrite <- lower_free, Hl by auto with caseless; by apply plain_host_free).
  pose proof (partition_raw_port raw pt Hf) as Hp. pose proof (no_empty_label h Hh) as He.
  destruct raw as [|c r]. { subst h. by destruct Hh. }
  rewrite str_cons_app in *. cbn [split_raw_authority].
  assert (Ec : Ascii.eqb c LBRACKET = false).
  { rewrite <- (caseless_lbracket c). subst h. cbn [lower str_map str_forallb] in Hc. apply andb_true_iff in Hc as [Hc _].
    by apply name_char_facts. }
  rewrite Ec, Hp, Hl, He. destruct (forallb all_digits _) eqn:Ed; [|by rewrite Hn].
  rewrite ipv4_valid_plain, H4; [done..|]. eapply str_forallb_impl; [|exact Hc]. intros x Hx. by apply name_char_facts.
Qed.

Lemma split_raw_authority_complete raw h pt : canonical_host h -> lower raw = h ->
  split_raw_authority (raw +:+ raw_port pt) = Some (h, pt).
Proof.
  intros Hh Hl. destruct Hh as [a Ha Hr Hla H6|h H4|h Hn Hd].
  - destruct (lower_app_inv raw "[" (a +:+ "]") Hl) as (b & y & -> & Hb & Hy).
    apply lower_single_inv in Hb as ->; [|auto with caseless].
    destruct (lower_app_inv y a "]" Hy) as (a' & z & -> & Ha' & Hz).
    apply lower_single_inv in Hz as ->; [|auto with caseless].
    change (split_raw_authority (String LBRACKET ((a' +:+ "]") +:+ raw_port pt)) = Some ("[" +:+ a +:+ "]", pt)).
    cbn [split_raw_authority]. rewrite Ascii.eqb_refl, str_app_assoc.
    change ("]" +:+ raw_port pt) with (String RBRACKET (raw_port pt)).
    subst a. rewrite partition_app by (by rewrite <- lower_free by auto with caseless).
    rewrite ipv6_valid_plain by (by rewrite <- lower_forallb by auto with caseless).
    rewrite <- ipv6_int_lower, H6. by destruct pt.
  - apply split_plain_authority; [done|by left|done|]. by rewrite ipv4_digits.
  - apply split_plain_authority; [done|by right| |done]. by rewrite Hd.
Qed.

(** ** Facts: the port *)

Lemma pretty_N_go_length k : forall x s, (x < 10 ^ N.of_nat k)%N ->
  (String.length (pretty_N_go x s) <= k + String.length s)%nat.
Proof.
  induction k as [|k IH]; intros x s Hx.
  - assert (x = 0%N) as -> by (cbn in Hx; lia). rewrite pretty_N_go_0. lia.
  - destruct (decide (0 < x)%N) as [H0|H0].
    + rewrite pretty_N_go_step by done. etransitivity; [apply IH|cbn; lia].
      apply N.Div0.div_lt_upper_bound. by rewrite Nat2N.inj_succ, N.pow_succ_r' in Hx.
    + assert (x = 0%N) as -> by lia. rewrite pretty_N_go_0. lia.
Qed.

Lemma port_text p : 1 <= p <= 65535 ->
  all_digits (str_of_int p) = true /\ int_of_digits (str_of_int p) = Some p.
Proof.
  intros Hp. destruct p as [|p|p]; try lia. change (str_of_int (Z.pos p)) with (pretty (N.pos p)).
  destruct (pretty_N_value (N.pos p)) as [Hd Hv]. split; [done|]. unfold int_of_digits. rewrite Hv.
  assert (Hl : (String.length (pretty_N_go (N.pos p) "") <= 5 + 0)%nat) by (apply pretty_N_go_length; cbn; lia).
  unfold pretty, pretty_N. rewrite decide_False by done.
  assert (Hm : (5 <= INT_MAX_STR_DIGITS)%nat) by (apply Nat.leb_le; vm_compute; reflexivity).
  by rewrite (proj2 (Nat.leb_le _ _)) by lia.
Qed.

Lemma parse_canonical_port_exact pt port :
  parse_canonical_port pt = Some port <-> raw_port pt = port_part port /\ canonical_port port.
Proof.
  destruct pt as [t|]; cbn [parse_canonical_port raw_port].
  2:{ split; [by intros [= <-]|]. destruct port as [p|]; [|done]. by intros [? _]. }
  split.
  - destruct (all_digits t); [|done]. destruct (int_of_digits t) as [p|]; [|done]. cbn [negb].
    destruct ((1 <=? p) && (p <=? 65535)) eqn:Hr; [|done]. destruct (String.eqb t (str_of_int p)) eqn:Ht; [|done].
    apply String.eqb_eq in Ht as ->. intros [= <-]. bool_to_prop. split; [done|cbn; lia].
  - destruct port as [p|]; [|by intros [? _]].
    intros [Ht Hp]. assert (t = str_of_int p) as -> by (by injection Ht). cbn in Hp. destruct (port_text p Hp) as [-> ->]. cbn [negb].
    rewrite String.eqb_refl. by rewrite (proj2 (Z.leb_le 1 p)), (proj2 (Z.leb_le p 65535)) by lia.
Qed.

(** ** Facts: the whole URL *)

Lemma str_forallb_and p q s : str_forallb (fun c => p c && q c) s = str_forallb p s && str_forallb q s.
Proof. induction s as [|c s IH]; cbn; [done|]. rewrite IH. by destruct (p c), (q c), (str_forallb p s). Qed.

Lemma authority_chars_intro n : isascii n = true -> str_forallb clean_char n = true -> str_forallb netloc_char n = true ->
  free_of AT n = true -> free_of PERCENT n = true -> str_forallb authority_char n = true.
Proof. intros. unfold authority_char. rewrite !str_forallb_and. unfold isascii, free_of in *. by repeat (apply andb_true_iff; split). Qed.

Lemma plain_url_app a b : plain_url (a +:+ b) = true <-> plain_url a = true /\ plain_url b = true.
Proof.
  unfold plain_url, isascii, free_of. rewrite !str_forallb_app, !andb_true_iff. tauto.
Qed.

Lemma netloc_char_end c : plain_url (String c "") = true -> netloc_char c = false -> c = SLASH.
Proof.
  unfold plain_url, isascii, free_of. cbn [str_forallb]. rewrite !andb_true_r, !andb_true_iff.
  intros [[_ Hq%negb_true_iff%Ascii.eqb_neq] Hh%negb_true_iff%Ascii.eqb_neq].
  unfold netloc_char. intros [[H|H]%orb_true_iff|H]%negb_false_iff%orb_true_iff; apply Z.eqb_eq in H;
    pose proof (char_code c) as Hc; rewrite H in Hc; by subst c.
Qed.

(** The authority and the path of a URL that has an authority. *)
Lemma split_url v : split_netloc (snd (split_scheme v)) <> "" ->
  snd (split_scheme v) = "//" +:+ split_netloc (snd (split_scheme v)) +:+ split_path v /\
  str_forallb netloc_char (split_netloc (snd (split_scheme v))) = true /\
  match split_path v with "" => True | String x _ => netloc_char x = false end.
Proof.
  unfold split_path, split_netloc. destruct (snd (split_scheme v)) as [|a [|b rest]]; [done..|].
  destruct ((code a =? 47) && (code b =? 47)) eqn:E; [|done]. intros _.
  destruct (span netloc_char rest) as [n r] eqn:Hs. cbn [fst snd]. destruct (span_spec _ _ _ _ Hs) as (-> & H1 & H2).
  split; [|done]. bool_to_prop. rewrite <- (char_code a), <- (char_code b). by repeat match goal with H : code _ = _ |- _ => rewrite H; clear H end.
Qed.

Section UrlFacts.
Context `{UrlLib}.

Lemma parse_outbound_url_sound v scheme h p path :
  parse_outbound_url v = Some (scheme, h, p, path) -> scheme <> "" ->
  plain_url v = true /\ canonical_host h /\ canonical_port p /\ path_ok path /\
  exists s raw, v = url_text s raw p path /\ lower s = scheme /\ lower raw = h.
Proof.
  unfold parse_outbound_url. destruct (String.eqb v "" || negb (isascii v)) eqn:E1; [done|].
  destruct (str_forallb clean_char v) eqn:E2; [|done]. cbn [negb].
  destruct (has_char QUESTION v || has_char HASH v) eqn:E3; [done|].
  apply orb_false_iff in E1 as [_ E1%negb_false_iff]. rewrite !has_char_free in E3.
  apply orb_false_iff in E3 as [E3%negb_false_iff E4%negb_false_iff].
  assert (Hplain : plain_url v = true) by (unfold plain_url; by rewrite E1, E2, E3, E4).
  unfold urlsplit. pose proof (split_url v) as Hu. destruct (split_scheme v) as [sc rest] eqn:Hsc. cbn [fst snd] in *.
  destruct (xorb _ _); [done|]. destruct (_ && _ && negb _); [done|]. cbn [url_netloc url_scheme].
  set (n := split_netloc rest) in *.
  destruct (String.eqb n "" || has_char AT n || has_char PERCENT n) eqn:E5; [done|].
  destruct (split_raw_authority n) as [[h' pt]|] eqn:Ha; [|done].
  destruct (parse_canonical_port pt) as [p'|] eqn:Hp; [|done]. intros [= <- <- <- <-] Hne.
  rewrite !has_char_free in E5.
  apply orb_false_iff in E5 as [[E5%String.eqb_neq E6%negb_false_iff]%orb_false_iff E7%negb_false_iff].
  destruct (Hu E5) as (Er & Hn & Hend). clear Hu. revert Er Hend. generalize (split_path v) as path. intros path Er Hend.
  destruct (split_scheme_spec v sc rest Hsc) as (s & Ev & Es); [by intros ->|].
  assert (Hpr : plain_url n = true /\ plain_url path = true).
  { pose proof Hplain as Hx. rewrite Ev, Er, !plain_url_app in Hx. tauto. }
  destruct Hpr as [Hpn Hpp]. unfold plain_url in Hpn.
  revert Hpn. intros [[[P1 P2]%andb_true_iff P3]%andb_true_iff P4]%andb_true_iff.
  destruct (split_raw_authority_sound n h' pt) as (raw & En & Hl & Hc); [by apply authority_chars_intro|done|].
  apply parse_canonical_port_exact in Hp as [Hp1 Hp2]. split_and!; [done..| |].
  - unfold path_ok. destruct path as [|c t]; [done|]. apply netloc_char_end; [|done].
    change (String c t) with (String c "" +:+ t) in Hpp. apply plain_url_app in Hpp. tauto.
  - exists s, raw. split_and!; [|by rewrite <- Es, lower_idem|done].
    rewrite Ev, Er, En, Hp1. unfold url_text. by rewrite !str_app_assoc.
Qed.

Definition scheme_ok (s : string) : bool :=
  match s with String c _ => is_ascii_alpha c && str_forallb scheme_char s | "" => false end.

Lemma caseless_alpha : caseless is_ascii_alpha. Proof. by_caseless. Qed.
Lemma caseless_scheme : caseless scheme_char. Proof. by_caseless. Qed.

Lemma scheme_ok_lower s : scheme_ok (lower s) = scheme_ok s.
Proof.
  unfold scheme_ok. rewrite (lower_forallb _ _ caseless_scheme). destruct s as [|c s]; [done|].
  cbn [lower str_map]. by rewrite (caseless_alpha c).
Qed.

Lemma split_scheme_complete s rest : scheme_ok s = true -> split_scheme (s +:+ String COLON rest) = (lower s, rest).
Proof.
  intros Hs. unfold split_scheme. assert (Hf : free_of COLON s = true).
  { unfold scheme_ok in Hs. destruct s as [|c s]; [done|]. apply andb_true_iff in Hs as [_ Hs].
    eapply str_forallb_impl; [|exact Hs]. intros x Hx. destruct (Ascii.eqb x COLON) eqn:E; [|done].
    apply Ascii.eqb_eq in E as ->. done. }
  rewrite partition_app by done. unfold scheme_ok in Hs. by destruct s; [|rewrite Hs].
Qed.

Lemma span_complete p n path : str_forallb p n = true ->
  match path with String c _ => p c = false | "" => True end -> span p (n +:+ path) = (n, path).
Proof.
  intros Hn Hp. induction n as [|c n IH].
  - rewrite str_nil_app. destruct path as [|c path]; [done|]. cbn. by rewrite Hp.
  - cbn [str_forallb] in Hn. apply andb_true_iff in Hn as [Hc Hn]. rewrite str_cons_app. cbn. by rewrite Hc, (IH Hn).
Qed.

Lemma port_part_raw p : canonical_port p -> exists pt, port_part p = raw_port pt /\ parse_canonical_port pt = Some p.
Proof.
  intros Hp. exists (option_map str_of_int p). assert (E : raw_port (option_map str_of_int p) = port_part p) by (by destruct p).
  split; [done|]. by apply parse_canonical_port_exact.
Qed.

Lemma port_chars p : canonical_port p -> str_forallb (fun c => is_ascii_digit c || Ascii.eqb c COLON) (port_part p) = true.
Proof.
  destruct p as [p|]; [|done]. intros Hp. destruct (port_text p Hp) as [Hd _]. apply all_digits_forallb in Hd.
  change (true && str_forallb (fun c => is_ascii_digit c || Ascii.eqb c COLON) (str_of_int p) = true).
  eapply str_forallb_impl; [|exact Hd]. intros c Hc. by rewrite Hc.
Qed.

Lemma port_char_facts c : is_ascii_digit c || Ascii.eqb c COLON = true ->
  authority_char c = true /\ negb (Ascii.eqb c LBRACKET) = true /\ negb (Ascii.eqb c RBRACKET) = true.
Proof.
  intros H'. assert (Hall : implb (is_ascii_digit c || Ascii.eqb c COLON)
      (authority_char c && negb (Ascii.eqb c LBRACKET) && negb (Ascii.eqb c RBRACKET)) = true).
  { clear H'. revert c. apply every_char. vm_compute. reflexivity. }
  rewrite H' in Hall. cbn [implb] in Hall. revert Hall. by intros [[H1 H2]%andb_true_iff H3]%andb_true_iff.
Qed.

(** The authority that is built from a host and a port. *)
Section Authority.
Variables (raw h : string) (p : option Z).
Hypotheses (Hl : lower raw = h) (Hh : canonical_host h) (Hp : canonical_port p).

Lemma authority_chars : str_forallb authority_char (raw +:+ port_part p) = true.
Proof.
  rewrite str_forallb_app. destruct (canonical_host_facts h Hh) as (_ & Hc & _).
  rewrite <- (lower_forallb _ raw), Hl, Hc by auto with caseless.
  eapply str_forallb_impl; [|by apply port_chars]. intros c Hc'. by apply port_char_facts.
Qed.

Lemma authority_nonempty : String.eqb (raw +:+ port_part p) "" = false.
Proof. destruct raw as [|c r]; [|done]. subst h. by destruct (canonical_host_facts _ Hh) as (_ & _ & []). Qed.

Lemma plain_brackets c : str_forallb name_char h = true -> c = LBRACKET \/ c = RBRACKET ->
  has_char c (raw +:+ port_part p) = false.
Proof.
  intros Hn Hc. rewrite has_char_free. apply negb_false_iff. rewrite free_of_app. apply andb_true_iff. split.
  - rewrite <- lower_free, Hl by (destruct Hc as [->| ->]; auto with caseless).
    apply plain_host_free; [by destruct Hc as [->| ->]|done].
  - eapply str_forallb_impl; [|by apply port_chars]. intros x Hx. apply port_char_facts in Hx.
    destruct Hc as [->| ->]; tauto.
Qed.

Lemma authority_brackets : accepts_ipv6 ->
  xorb (has_char LBRACKET (raw +:+ port_part p)) (has_char RBRACKET (raw +:+ port_part p)) = false /\
  has_char LBRACKET (raw +:+ port_part p) && has_char RBRACKET (raw +:+ port_part p) &&
    negb (bracketed_netloc_ok (raw +:+ port_part p)) = false.
Proof.
  intros Hlaw. pose proof plain_brackets as Hpb. destruct Hh as [a Ha Hr Hla H6|h' H4|h' Hn Hd].
  - destruct (lower_app_inv raw "[" (a +:+ "]") Hl) as (b & y & -> & Hb & Hy).
    apply lower_single_inv in Hb as ->; [|auto with caseless].
    destruct (lower_app_inv y a "]" Hy) as (a' & z & -> & Ha' & Hz).
    apply lower_single_inv in Hz as ->; [|auto with caseless].
    assert (E : ("[" +:+ a' +:+ "]") +:+ port_part p = "[" +:+ a' +:+ "]" +:+ port_part p) by (by rewrite !str_app_assoc).
    rewrite E. assert (Hb : forall c, c = LBRACKET \/ c = RBRACKET -> has_char c ("[" +:+ a' +:+ "]" +:+ port_part p) = true).
    { intros c Hc. rewrite has_char_free, !free_of_app. destruct Hc as [->| ->]; cbn; by rewrite ?andb_false_r. }
    subst a. rewrite !Hb by auto. rewrite Hlaw; [done|by rewrite <- ipv6_int_lower|by rewrite <- lower_free by auto with caseless| |].
    + apply authority_free; [done|]. by rewrite <- lower_forallb by auto with caseless.
    + destruct p; [right; by eexists|by left].
  - rewrite !Hpb by (auto; by apply plain_host_chars; left). done.
  - rewrite !Hpb by (auto; by apply plain_host_chars; right). done.
Qed.
End Authority.

Lemma parse_outbound_url_complete s raw h p path : accepts_ipv6 -> scheme_ok s = true -> lower raw = h ->
  canonical_host h -> canonical_port p -> path_ok path -> plain_url (url_text s raw p path) = true ->
  parse_outbound_url (url_text s raw p path) = Some (lower s, h, p, path).
Proof.
  intros Hlaw Hs Hl Hh Hp Hpath Hplain. set (n := raw +:+ port_part p).
  assert (Ev : url_text s raw p path = s +:+ String COLON ("//" +:+ n +:+ path)).
  { unfold url_text, n. by rewrite !str_app_assoc. }
  assert (Hn : str_forallb authority_char n = true) by (by apply (authority_chars raw h p)).
  assert (Hspan : span netloc_char (n +:+ path) = (n, path)).
  { apply span_complete; [|unfold path_ok in Hpath; destruct path; [done|by rewrite Hpath]].
    eapply str_forallb_impl; [|exact Hn]. intros c Hc. by apply authority_char_spec. }
  pose proof Hplain as Hx. unfold plain_url in Hx. revert Hx.
  intros [[[P1 P2]%andb_true_iff P3]%andb_true_iff P4]%andb_true_iff.
  rewrite Ev in *. unfold parse_outbound_url, urlsplit, split_path. rewrite P1, P2, !has_char_free, P3, P4.
  rewrite split_scheme_complete by done. cbn [fst snd].
  assert (En : split_netloc ("//" +:+ n +:+ path) = n).
  { change (fst (span netloc_char (n +:+ path)) = n). by rewrite Hspan. }
  rewrite En. destruct (authority_brackets raw h p Hl Hh Hp Hlaw) as [Hb1 Hb2]. fold n in Hb1, Hb2.
  rewrite !has_char_free in Hb1, Hb2. rewrite !has_char_free, Hb1, Hb2. cbn [url_netloc url_scheme].
  rewrite !has_char_free. rewrite (authority_free AT), (authority_free PERCENT) by done.
  assert (E1 : String.eqb n "" = false) by (by apply (authority_nonempty raw h p)).
  destruct (port_part_raw p Hp) as (pt & Ept & Hpt).
  assert (E2 : split_raw_authority n = Some (h, pt)) by (unfold n; rewrite Ept; by apply split_raw_authority_complete).
  assert (E3 : String.eqb (s +:+ String COLON ("//" +:+ n +:+ path)) "" = false) by (by destruct s).
  rewrite E1, E2, E3, Hpt, lower_idem.
  change (Some (lower s, h, p, snd (span netloc_char (n +:+ path))) = Some (lower s, h, p, path)). by rewrite Hspan.
Qed.
End UrlFacts.

(** ** Facts: spelling up to case *)

(** Characters that no upper-case letter stands behind. *)
Definition symbol (c : Ascii.ascii) : bool := (code c <? 97) || ((122 <? code c) && (code c <? 224)).

Lemma lower_symbol_inv s t : str_forallb symbol t = true -> lower s = t -> s = t.
Proof.
  intros Ht <-. unfold lower in *. induction s as [|x s IH]; [done|]. cbn in *. apply andb_true_iff in Ht as [Hx Hs].
  rewrite <- (IH Hs). f_equal.
  assert (Hall : implb (symbol (lower_char x)) (Ascii.eqb x (lower_char x)) = true)
    by (clear; revert x; apply every_char; vm_compute; reflexivity).
  rewrite Hx in Hall. by apply Ascii.eqb_eq in Hall.
Qed.

Lemma port_symbols p : canonical_port p -> str_forallb symbol (port_part p) = true.
Proof.
  intros Hp. eapply str_forallb_impl; [|by apply port_chars]. intros c Hc.
  assert (Hall : implb (is_ascii_digit c || Ascii.eqb c COLON) (symbol c) = true)
    by (clear; revert c; apply every_char; vm_compute; reflexivity).
  by rewrite Hc in Hall.
Qed.

Lemma port_lower p : canonical_port p -> lower (port_part p) = port_part p.
Proof.
  intros Hp. eapply (lower_same (fun c => is_ascii_digit c || Ascii.eqb c COLON)); [|by apply port_chars].
  intros c [Hc|Hc]%orb_true_iff; [by apply digit_lower|]. by apply Ascii.eqb_eq in Hc as ->.
Qed.

Definition plain_char (c : Ascii.ascii) : bool :=
  (code c <? 128) && clean_char c && negb (Ascii.eqb c QUESTION) && negb (Ascii.eqb c HASH).

Lemma plain_url_chars v : plain_url v = str_forallb plain_char v.
Proof. unfold plain_url, plain_char, isascii, free_of. by rewrite !str_forallb_and. Qed.

Lemma caseless_plain : caseless plain_char. Proof. by_caseless. Qed.

Lemma plain_url_lower v : plain_url (lower v) = plain_url v.
Proof. rewrite !plain_url_chars. apply lower_forallb, caseless_plain. Qed.

Lemma authority_plain c : authority_char c = true -> plain_char c = true.
Proof.
  intros Hc. assert (Hall : implb (authority_char c) (plain_char c) = true)
    by (clear; revert c; apply every_char; vm_compute; reflexivity).
  by rewrite Hc in Hall.
Qed.

Lemma url_text_lower s raw p path : canonical_port p ->
  lower (url_text s raw p path) = url_text (lower s) (lower raw) p (lower path).
Proof. intros Hp. unfold url_text. by rewrite !lower_app, port_lower. Qed.

Lemma url_text_plain s raw p path : scheme_ok s = true -> canonical_host (lower raw) -> canonical_port p ->
  plain_url path = true -> plain_url (url_text s raw p path) = true.
Proof.
  intros Hs Hh Hp Hpath. assert (Ha : plain_url (raw +:+ port_part p) = true).
  { rewrite plain_url_chars. eapply str_forallb_impl; [exact authority_plain|]. by apply (authority_chars raw (lower raw)). }
  rewrite plain_url_app in Ha. unfold url_text. rewrite !plain_url_app. split_and!; try tauto.
  rewrite plain_url_chars. destruct s as [|c s]; [done|]. apply andb_true_iff in Hs as [_ Hs].
  eapply str_forallb_impl; [|exact Hs]. intros x Hx.
  assert (Hall : implb (scheme_char x) (plain_char x) = true)
    by (clear; revert x; apply every_char; vm_compute; reflexivity).
  by rewrite Hx in Hall.
Qed.

(** ** The public base URL *)

Section PublicUrl.
Context `{UrlLib}.

Lemma normalize_public_parse v : normalize_public_base_url v =
  match parse_outbound_url v with
  | Some (scheme, host, port, path) =>
      if String.eqb scheme "https" && (String.eqb path "" || String.eqb path "/")
      then Some ("https://" +:+ host +:+ port_part port) else None
  | None => None
  end.
Proof.
  unfold normalize_public_base_url, parse_outbound_url. destruct (_ || negb (isascii v)); [done|].
  destruct (negb _); [done|]. destruct (_ || has_char HASH v); [done|]. destruct (urlsplit v) as [parts|]; [|done].
  destruct (String.eqb (lower (url_scheme parts)) "https") eqn:E1; cbn [negb];
    [destruct (String.eqb (split_path v) "" || String.eqb (split_path v) "/") eqn:E2; cbn [negb]|];
    repeat case_match; try done; simplify_eq; rewrite ?E1, ?E2 in *; done.
Qed.

Definition slash_or_nothing (path : string) : Prop := path = "" \/ path = "/".

Lemma slash_or_nothing_spec path : String.eqb path "" || String.eqb path "/" = true <-> slash_or_nothing path.
Proof. unfold slash_or_nothing. by rewrite orb_true_iff, !String.eqb_eq. Qed.

Lemma normalize_public_sound v r : normalize_public_base_url v = Some r ->
  exists h p, canonical_host h /\ canonical_port p /\ r = "https://" +:+ h +:+ port_part p /\
    (lower v = r \/ lower v = r +:+ "/").
Proof.
  rewrite normalize_public_parse. destruct (parse_outbound_url v) as [[[[scheme h] p] path]|] eqn:Ep; [|done].
  destruct (String.eqb scheme "https") eqn:Es; [|done]. apply String.eqb_eq in Es as ->. cbn [andb].
  destruct (_ || _) eqn:Epath; [|done]. apply slash_or_nothing_spec in Epath. intros [= <-].
  destruct (parse_outbound_url_sound _ _ _ _ _ Ep) as (_ & Hh & Hp & _ & s & raw & -> & Hs & Hr); [done|].
  exists h, p. split_and!; [done..|]. rewrite url_text_lower, Hs, Hr by done. unfold url_text.
  destruct Epath as [->| ->]; [left; by rewrite str_app_nil_r|right].
  change ("https" +:+ "://" +:+ h +:+ port_part p +:+ "/" = ("https://" +:+ h +:+ port_part p) +:+ "/").
  by rewrite !str_app_assoc.
Qed.

Lemma normalize_public_complete v h p : accepts_ipv6 -> canonical_host h -> canonical_port p ->
  (lower v = "https://" +:+ h +:+ port_part p \/ lower v = ("https://" +:+ h +:+ port_part p) +:+ "/") ->
  normalize_public_base_url v = Some ("https://" +:+ h +:+ port_part p).
Proof.
  intros Hlaw Hh Hp Hv. rewrite normalize_public_parse.
  assert (Hv' : exists path, slash_or_nothing path /\ lower v = "https" +:+ "://" +:+ h +:+ port_part p +:+ path).
  { destruct Hv as [->| ->]; [exists ""; split; [by left|by rewrite str_app_nil_r]|exists "/"; split; [by right|]].
    by rewrite !str_app_assoc. }
  clear Hv. destruct Hv' as (path & Hpath & Hv).
  destruct (lower_app_inv _ _ _ Hv) as (s & v1 & -> & Hs & H1).
  destruct (lower_app_inv _ _ _ H1) as (sep & v2 & -> & Hsep & H2).
  destruct (lower_app_inv _ _ _ H2) as (raw & v3 & -> & Hraw & H3).
  destruct (lower_app_inv _ _ _ H3) as (pt & sl & -> & Hpt & Hsl).
  apply lower_symbol_inv in Hsep as ->; [|done]. apply lower_symbol_inv in Hpt as ->; [|by apply port_symbols].
  apply lower_symbol_inv in Hsl as ->; [|by destruct Hpath as [->| ->]].
  assert (Hok : scheme_ok s = true) by (by rewrite <- scheme_ok_lower, Hs).
  change (s +:+ "://" +:+ raw +:+ port_part p +:+ path) with (url_text s raw p path).
  rewrite (parse_outbound_url_complete s raw h p path); [|done..| |].
  - rewrite Hs. cbn [String.eqb Ascii.eqb Bool.eqb andb]. by rewrite (proj2 (slash_or_nothing_spec path)).
  - by destruct Hpath as [->| ->].
  - apply url_text_plain; [done|by rewrite Hraw|done|by destruct Hpath as [->| ->]].
Qed.

Lemma public_url_lower h p : canonical_host h -> canonical_port p ->
  lower ("https://" +:+ h +:+ port_part p) = "https://" +:+ h +:+ port_part p.
Proof. intros Hh Hp. destruct (canonical_host_facts h Hh) as (Hl & _). by rewrite !lower_app, Hl, port_lower. Qed.

Lemma normalize_public_idem v r : accepts_ipv6 ->
  normalize_public_base_url v = Some r -> normalize_public_base_url r = Some r.
Proof.
  intros Hlaw (h & p & Hh & Hp & -> & _)%normalize_public_sound.
  apply normalize_public_complete; [done..|]. left. by apply public_url_lower.
Qed.

(** The public base URL. A value is accepted exactly when, up to the case
    of its letters and one trailing slash, it reads
    "https://" host [":" port] with a canonical host and a port from 1 to
    65535 without leading zeros; and that spelling is what it becomes. Nothing
    else is repaired, and a normalised URL is its own normal form. *)
Theorem public_base_url_exact v r : accepts_ipv6 ->
  (normalize_public_base_url v = Some r <->
   exists h p, canonical_host h /\ canonical_port p /\ r = "https://" +:+ h +:+ port_part p /\
     (lower v = r \/ lower v = r +:+ "/")) /\
  (normalize_public_base_url v = Some r -> normalize_public_base_url r = Some r).
Proof.
  intros Hlaw. split; [split; [apply normalize_public_sound|]|by apply normalize_public_idem].
  intros (h & p & Hh & Hp & -> & Hv). by apply normalize_public_complete.
Qed.
End PublicUrl.

(** ** Paths *)

(** The path of a service base: nothing, or clean segments of which the last
    names no script. *)
Definition base_path (path : string) : Prop :=
  path = "" \/ validate_path_segments path = true /\ ends_in ".php" (lower (basename path)) = false.

Lemma segment_plain c : segment_char c = true -> plain_char c = true.
Proof.
  intros Hc. assert (Hall : implb (segment_char c) (plain_char c) = true)
    by (clear; revert c; apply every_char; vm_compute; reflexivity).
  by rewrite Hc in Hall.
Qed.

Lemma forallb_impl {A} (f g : A -> bool) l : (forall x, f x = true -> g x = true) -> forallb f l = true -> forallb g l = true.
Proof. intros Hfg. rewrite !forallb_forall. eauto. Qed.

Lemma validate_path_spec path : validate_path_segments path = true ->
  path_ok path /\ plain_url path = true /\
  exists tail, path = String SLASH tail /\ forallb (fun segment => negb (String.eqb segment "")) (split_on SLASH tail) = true.
Proof.
  destruct path as [|c tail]; [done|]. cbn [validate_path_segments].
  intros [[Hc%Ascii.eqb_eq _]%andb_true_iff Hf]%andb_true_iff. subst c. split; [done|]. split.
  - change (String SLASH tail) with ("/" +:+ tail). rewrite plain_url_app. split; [done|].
    rewrite plain_url_chars. eapply str_forallb_impl; [|apply (split_forallb segment_char SLASH)].
    + intros c [Hc|Hc]%orb_true_iff; [by apply segment_plain|by apply Ascii.eqb_eq in Hc as ->].
    + eapply forallb_impl; [|exact Hf]. by intros seg [[_ _]%andb_true_iff H]%andb_true_iff.
  - exists tail. split; [done|]. eapply forallb_impl; [|exact Hf]. by intros seg [[H _]%andb_true_iff _]%andb_true_iff.
Qed.

Lemma str_drop_app s t : str_drop (String.length s) (s +:+ t) = t.
Proof. induction s as [|c s IH]; [by destruct t|]. exact IH. Qed.

Lemma str_take_app s t : str_take (String.length s) (s +:+ t) = s.
Proof. induction s as [|c s IH]; [by destruct t|]. rewrite str_cons_app. cbn. by rewrite IH. Qed.

Lemma str_snoc s : s = "" \/ exists t c, s = t +:+ String c "".
Proof.
  induction s as [|c s [->|(t & x & ->)]]; [by left|right; by exists "", c|right; by exists (String c t), x].
Qed.

Lemma str_last_snoc t c : str_last 1 (t +:+ String c "") = String c "".
Proof.
  unfold str_last. rewrite string_length_app. cbn [String.length]. rewrite Nat.add_sub. apply str_drop_app.
Qed.

Lemma ends_in_slash s : ends_in "/" s = true <-> exists t, s = t +:+ "/".
Proof.
  unfold ends_in. change (String.length "/") with 1%nat. split.
  - intros [_ H%String.eqb_eq]%andb_true_iff. destruct (str_snoc s) as [->|(t & c & ->)]; [done|].
    rewrite str_last_snoc in H. exists t. by rewrite H.
  - intros [t ->]. change "/" with (String SLASH "") at 2 3. rewrite str_last_snoc, String.eqb_refl, andb_true_r.
    apply Nat.leb_le. rewrite string_length_app. cbn [String.length]. lia.
Qed.

Lemma drop_slash t : str_take (String.length (t +:+ "/") - 1) (t +:+ "/") = t.
Proof. rewrite string_length_app. cbn [String.length]. rewrite Nat.add_sub. apply str_take_app. Qed.

Lemma split_on_slash t : exists part parts, split_on SLASH (t +:+ "/") = part :: parts ++ [""].
Proof.
  induction t as [|c t (part & parts & IH)]; [by exists "", []|]. rewrite str_cons_app. cbn [split_on]. rewrite IH.
  destruct (Ascii.eqb c SLASH); [by exists "", (part :: parts)|by exists (String c part), parts].
Qed.

(** A valid path ends in no slash. *)
Lemma valid_path_end path : validate_path_segments path = true -> ends_in "/" path = false.
Proof.
  intros Hp. destruct (validate_path_spec path Hp) as (_ & _ & tail & -> & Hf). apply not_true_is_false.
  intros [t Ht]%ends_in_slash. destruct t as [|c t].
  - injection Ht as ->. done.
  - injection Ht as _ ->. destruct (split_on_slash t) as (part & parts & E).
    change (forallb (fun segment => negb (String.eqb segment "")) (split_on SLASH (t +:+ "/")) = true) in Hf.
    rewrite E in Hf. cbn in Hf. rewrite forallb_app in Hf. cbn in Hf. by rewrite !andb_false_r in Hf.
Qed.

(** ** The base URL of the gateway *)

(** [path] with or without one more slash. *)
Definition up_to_slash (given path : string) : Prop := given = path \/ given = path +:+ "/".

Lemma base_path_plain path : base_path path -> path_ok path /\ plain_url path = true /\ path_ok (path +:+ "/") /\ plain_url (path +:+ "/") = true.
Proof.
  intros [->|[Hv _]]; [by split_and!|]. destruct (validate_path_spec path Hv) as (H1 & H2 & tail & E & _).
  split_and!; [done..|by rewrite E|]. by rewrite plain_url_app.
Qed.

Section ServiceUrls.
Context `{UrlLib}.

Definition centralpay_path (path : string) : option string :=
  if String.eqb path "" || String.eqb path "/" then Some ""
  else
    let path := if ends_in "/" path then str_take (String.length path - 1) path else path in
    if negb (validate_path_segments path) then None
    else if ends_in ".php" (lower (basename path)) then None
    else Some path.

Lemma normalize_centralpay_parse v : normalize_centralpay_base_url v =
  match parse_outbound_url v with
  | Some (scheme, host, port, path) =>
      if String.eqb scheme "https"
      then option_map (fun path => url_text "https" host port path) (centralpay_path path) else None
  | None => None
  end.
Proof.
  unfold normalize_centralpay_base_url, centralpay_path. destruct (parse_outbound_url v) as [[[[scheme h] p] path]|]; [|done].
  destruct (String.eqb scheme "https"); [|done]. cbn [negb]. unfold url_text.
  destruct (_ || _); [cbn [option_map]; by rewrite str_app_nil_r|]. cbv zeta. destruct (negb _); [done|]. by destruct (ends_in ".php" _).
Qed.

Lemma centralpay_path_exact given path : centralpay_path given = Some path <-> base_path path /\ up_to_slash given path.
Proof.
  unfold centralpay_path, base_path, up_to_slash. split.
  - destruct (String.eqb given "" || String.eqb given "/") eqn:E.
    + intros [= <-]. apply slash_or_nothing_spec in E. split; [by left|]. by destruct E as [->| ->]; [left|right].
    + cbv zeta. set (path' := if ends_in "/" given then _ else _).
      destruct (validate_path_segments path') eqn:Hv; [|done]. destruct (ends_in ".php" _) eqn:Hphp; [done|].
      intros [= <-]. split; [by right|]. subst path'. destruct (ends_in "/" given) eqn:Hs; [|by left].
      apply ends_in_slash in Hs as [t ->]. rewrite drop_slash. by right.
  - intros [[->|[Hv Hphp]] Hg]; [by destruct Hg as [->| ->]|].
    pose proof (valid_path_end path Hv) as He. destruct (validate_path_spec path Hv) as (_ & _ & tail & Ep & Hf).
    assert (Hne : tail <> "") by (by intros ->).
    assert (E : String.eqb given "" || String.eqb given "/" = false).
    { apply orb_false_iff. rewrite !String.eqb_neq. subst path. destruct tail as [|c tail]; [done|].
      by destruct Hg as [->| ->]; split. }
    rewrite E. cbv zeta. assert (Ed : (if ends_in "/" given then str_take (String.length given - 1) given else given) = path).
    { destruct Hg as [->| ->]; [by rewrite He|]. rewrite (proj2 (ends_in_slash _)) by eauto. apply drop_slash. }
    by rewrite Ed, Hv, Hphp.
Qed.

Lemma normalize_centralpay_sound v r : normalize_centralpay_base_url v = Some r ->
  exists s raw p given path, v = url_text s raw p given /\ lower s = "https" /\ canonical_host (lower raw) /\
    canonical_port p /\ base_path path /\ up_to_slash given path /\ r = url_text "https" (lower raw) p path.
Proof.
  rewrite normalize_centralpay_parse. destruct (parse_outbound_url v) as [[[[scheme h] p] given]|] eqn:Ep; [|done].
  destruct (String.eqb scheme "https") eqn:Es; [|done]. apply String.eqb_eq in Es as ->.
  destruct (centralpay_path given) as [path|] eqn:Epath; [|done]. intros [= <-].
  apply centralpay_path_exact in Epath as [Hb Hg].
  destruct (parse_outbound_url_sound _ _ _ _ _ Ep) as (_ & Hh & Hp & _ & s & raw & -> & Hs & <-); [done|].
  by exists s, raw, p, given, path.
Qed.

Lemma normalize_centralpay_complete s raw p given path : accepts_ipv6 -> lower s = "https" -> canonical_host (lower raw) ->
  canonical_port p -> base_path path -> up_to_slash given path ->
  normalize_centralpay_base_url (url_text s raw p given) = Some (url_text "https" (lower raw) p path).
Proof.
  intros Hlaw Hs Hh Hp Hb Hg. rewrite normalize_centralpay_parse.
  assert (Hok : scheme_ok s = true) by (by rewrite <- scheme_ok_lower, Hs).
  destruct (base_path_plain path Hb) as (P1 & P2 & P3 & P4).
  assert (Hgiven : path_ok given /\ plain_url given = true) by (by destruct Hg as [->| ->]).
  destruct Hgiven as [G1 G2].
  rewrite (parse_outbound_url_complete s raw (lower raw) p given); [|done..|by apply url_text_plain].
  rewrite Hs, String.eqb_refl. by rewrite (proj2 (centralpay_path_exact given path)).
Qed.

Lemma normalize_centralpay_idem v r : accepts_ipv6 ->
  normalize_centralpay_base_url v = Some r -> normalize_centralpay_base_url r = Some r.
Proof.
  intros Hlaw (s & raw & p & given & path & _ & _ & Hh & Hp & Hb & _ & ->)%normalize_centralpay_sound.
  rewrite <- (lower_idem raw) at 2. apply normalize_centralpay_complete; try done; [by rewrite lower_idem|by left].
Qed.

(** The base URL of the gateway. A value is accepted exactly when it is
    an https URL with a canonical host, a canonical port and a path of clean
    segments that names no script, possibly followed by one slash; it becomes
    the same URL with scheme and host in lower case and without that slash.
    Cleartext is never accepted, and a normalised URL is its own normal form. *)
Theorem centralpay_base_url_exact v r : accepts_ipv6 ->
  (normalize_centralpay_base_url v = Some r <->
   exists s raw p given path, v = url_text s raw p given /\ lower s = "https" /\ canonical_host (lower raw) /\
     canonical_port p /\ base_path path /\ up_to_slash given path /\ r = url_text "https" (lower raw) p path) /\
  (normalize_centralpay_base_url v = Some r -> normalize_centralpay_base_url r = Some r).
Proof.
  intros Hlaw. split; [split; [apply normalize_centralpay_sound|]|by apply normalize_centralpay_idem].
  intros (s & raw & p & given & path & -> & Hs & Hh & Hp & Hb & Hg & ->). by apply normalize_centralpay_complete.
Qed.

(** The schemes the bot may be reached by. *)
Definition bot_scheme (allow_insecure : bool) (scheme host : string) : Prop :=
  scheme = "https" \/ scheme = "http" /\ allow_insecure = true /\ is_private_bot_host host = true.

Lemma normalize_bot_sound v allow_insecure r : normalize_bot_notify_url v allow_insecure = Some r ->
  exists s raw p path, v = url_text s raw p path /\ canonical_host (lower raw) /\ canonical_port p /\
    validate_path_segments path = true /\ r = url_text (lower s) (lower raw) p path /\
    bot_scheme allow_insecure (lower s) (lower raw).
Proof.
  unfold normalize_bot_notify_url, bot_scheme. destruct (parse_outbound_url v) as [[[[scheme h] p] path]|] eqn:Ep; [|done]. cbv zeta.
  destruct (validate_path_segments path) eqn:Hv; [|by repeat case_match].
  assert (Hform : scheme <> "" -> exists s raw, v = url_text s raw p path /\ canonical_host (lower raw) /\ canonical_port p /\
      scheme = lower s /\ h = lower raw).
  { intros Hne. destruct (parse_outbound_url_sound _ _ _ _ _ Ep Hne) as (_ & Hh & Hp & _ & s & raw & -> & Hs & <-). by exists s, raw. }
  destruct (String.eqb scheme "http") eqn:E1; [|destruct (String.eqb scheme "https") eqn:E2; [|done]];
    [apply String.eqb_eq in E1 as ->; destruct (negb allow_insecure || negb (is_private_bot_host h)) eqn:Ei; [done|]
    |apply String.eqb_eq in E2 as ->]; intros [= <-];
    (destruct Hform as (s & raw & -> & ? & ? & Es & ->); [done|]); exists s, raw, p, path; rewrite <- Es; split_and!; try done.
  + right. apply orb_false_iff in Ei as [E3%negb_false_iff E4%negb_false_iff]. done.
  + by left.
Qed.

Lemma normalize_bot_complete s raw p path allow_insecure : accepts_ipv6 -> canonical_host (lower raw) -> canonical_port p ->
  validate_path_segments path = true -> bot_scheme allow_insecure (lower s) (lower raw) ->
  normalize_bot_notify_url (url_text s raw p path) allow_insecure = Some (url_text (lower s) (lower raw) p path).
Proof.
  intros Hlaw Hh Hp Hv Hs. unfold normalize_bot_notify_url, bot_scheme in *.
  assert (Hok : scheme_ok s = true) by (rewrite <- scheme_ok_lower; by destruct Hs as [->|[-> _]]).
  destruct (validate_path_spec path Hv) as (P1 & P2 & _).
  rewrite (parse_outbound_url_complete s raw (lower raw) p path); [|done..|by apply url_text_plain].
  cbv zeta. rewrite Hv. destruct Hs as [->|(-> & -> & ->)]; done.
Qed.

Lemma normalize_bot_idem v allow_insecure r : accepts_ipv6 ->
  normalize_bot_notify_url v allow_insecure = Some r -> normalize_bot_notify_url r allow_insecure = Some r.
Proof.
  intros Hlaw (s & raw & p & path & _ & Hh & Hp & Hv & -> & Hs)%normalize_bot_sound.
  rewrite <- (lower_idem raw) at 2. rewrite <- (lower_idem s) at 2.
  apply normalize_bot_complete; rewrite ?lower_idem; done.
Qed.

(** The endpoint of the bot. A value is accepted exactly when it is an
    https URL, or an http URL whose host is private and cleartext is allowed,
    with a canonical host and port and a path of clean segments; it keeps its
    path and becomes lower case in scheme and host, and a normalised URL is its
    own normal form. *)
Theorem bot_notify_url_exact v allow_insecure r : accepts_ipv6 ->
  (normalize_bot_notify_url v allow_insecure = Some r <->
   exists s raw p path, v = url_text s raw p path /\ canonical_host (lower raw) /\ canonical_port p /\
     validate_path_segments path = true /\ r = url_text (lower s) (lower raw) p path /\
     bot_scheme allow_insecure (lower s) (lower raw)) /\
  (normalize_bot_notify_url v allow_insecure = Some r -> normalize_bot_notify_url r allow_insecure = Some r).
Proof.
  intros Hlaw. split; [split; [apply normalize_bot_sound|]|by apply normalize_bot_idem].
  intros (s & raw & p & path & -> & Hh & Hp & Hv & -> & Hs). by apply normalize_bot_complete.
Qed.
End ServiceUrls.

(** ** Witnesses *)

Lemma brackets_checked_accepts : accepts_ipv6.
Proof.
  intros a rest Ha Hr Hp _. change (match partition RBRACKET (a +:+ String RBRACKET rest) with
    | Some (a, _) => is_some (ipv6_of a) | None => false end = true).
  rewrite partition_app by done. by rewrite ipv6_of_plain.
Qed.

Theorem public_base_url_exact_witness :
  exists h p, canonical_host h /\ canonical_port p /\ "https://[2001:db8::1]:8443" = "https://" +:+ h +:+ port_part p /\
    (lower "HTTPS://[2001:DB8::1]:8443/" = "https://[2001:db8::1]:8443" \/
     lower "HTTPS://[2001:DB8::1]:8443/" = "https://[2001:db8::1]:8443" +:+ "/").
Proof. apply (public_base_url_exact _ _ brackets_checked_accepts). by vm_compute. Defined.

Theorem centralpay_base_url_exact_witness :
  normalize_centralpay_base_url "https://centralapi.org/webservice/basic" = Some "https://centralapi.org/webservice/basic".
Proof.
  apply (centralpay_base_url_exact "https://CentralApi.org/webservice/basic/" _ brackets_checked_accepts). by vm_compute.
Defined.

Theorem bot_notify_url_exact_witness :
  exists s raw p path, "HTTP://Mock-Bot:8080/Notify" = url_text s raw p path /\ canonical_host (lower raw) /\
    canonical_port p /\ validate_path_segments path = true /\
    "http://mock-bot:8080/Notify" = url_text (lower s) (lower raw) p path /\
    bot_scheme true (lower s) (lower raw).
Proof. apply (bot_notify_url_exact _ _ _ brackets_checked_accepts). by vm_compute. Defined.
