(* ===== verification/Startup.v ===== *)
(** Loading and checking the configuration ([app/config.py]): the construction
    of [Settings] with its validators, and the checks that each service makes
    when it starts.

    A failure of [Settings()] is a [ValidationError]; the checks of the
    services raise [ConfigurationError], with a fixed message, or whatever a
    function they call raises. *)

From S2P Require Import Prelude PyText Exceptions Config Urls ClientIp ConfigUrls Models Session Verification Inspect.
From Stdlib Require Import QArith_base.

#[local] Open Scope Z_scope.

(** ** [Settings] *)

(** [re.fullmatch(r"@?[A-Za-z0-9_]{1,64}", name)]. *)
Definition username_char (c : Ascii.ascii) : bool := is_ascii_alpha c || is_ascii_digit c || (code c =? 95).

Definition telegram_username_match (name : string) : bool :=
  let body s := (1 <=? String.length s)%nat && (String.length s <=? 64)%nat && str_forallb username_char s in
  body name || match name with String c rest => Ascii.eqb c AT && body rest | "" => false end.

Section Load.
Context `{UrlLib}.

(** The part of [_validate_bot_settings] that rewrites the bot's URL. *)
Definition normalized_bot_url (s : Settings) : option string :=
  if String.eqb (bot_payment_notify_url s) "" then Some ""
  else normalize_bot_notify_url (bot_payment_notify_url s) (allow_insecure_bot_notify_url s).

(** [Settings()] of values that have the types of their fields; [None] is a
    [ValidationError]. *)
Definition load_settings (s : Settings) : option Settings :=
  if negb (field_bounds s && validate_payer_id_secret (centralpay_payer_id_secret s)) then None
  else
    match normalize_centralpay_base_url (centralpay_base_url s), normalize_public_base_url (public_base_url s) with
    | Some centralpay, Some public =>
        let s := s <| centralpay_base_url := centralpay |> <| public_base_url := public |> in
        if negb (min_payment_amount_toman s <? max_payment_amount_toman s) then None
        else if negb (String.eqb (telegram_bot_username s) "") && negb (telegram_username_match (telegram_bot_username s))
        then None
        else
          match normalized_bot_url s with
          | None => None
          | Some bot =>
              let s := s <| bot_payment_notify_url := bot |> in
              if validate_bot_settings s then Some s else None
          end
    | _, _ => None
    end.
End Load.

(** ** The checks of the services *)

Inductive StartupError :=
  | ConfigurationError (message : string)
  | OtherError (cls : string).

Definition Checked (A : Type) : Type := A + StartupError.

Definition refuse {A} (message : string) : Checked A := inr (ConfigurationError message).

Definition validate_bot_notification_settings (s : Settings) : Checked unit :=
  if String.eqb (bot_payment_notify_url s) "" then refuse "BOT_PAYMENT_NOTIFY_URL is not configured"
  else if String.eqb (bot_notify_token s) "" then refuse "BOT_NOTIFY_TOKEN is not configured"
  else inl tt.

Definition COMMA : Ascii.ascii := char 44.

Definition admin_ids_message : string :=
  "ADMIN_TELEGRAM_IDS must contain only positive numeric Telegram user IDs separated by commas".

(** [int(candidate)] of a text of digits; [None] is a [ValueError]. *)
Definition int_of_candidate (candidate : string) : option Z :=
  if all_digits candidate then int_of_digits candidate else None.

(** The loop over the parts. *)
Fixpoint parse_id_parts (parts : list string) : Checked (list Z) :=
  match parts with
  | [] => inl []
  | part :: parts' =>
      let candidate := strip part in
      if String.eqb candidate "" then parse_id_parts parts'
      else if negb (isdigit candidate) then refuse admin_ids_message
      else match int_of_candidate candidate with
           | None => inr (OtherError "ValueError")
           | Some n =>
               if n <=? 0 then refuse admin_ids_message
               else match parse_id_parts parts' with inl ids => inl (n :: ids) | inr e => inr e end
           end
  end.

(** [dict.fromkeys(ids)]: the first occurrences, in order. *)
Fixpoint from_keys (ids : list Z) : list Z :=
  match ids with
  | [] => []
  | n :: ids' => n :: List.filter (fun m => negb (m =? n)) (from_keys ids')
  end.

Definition parse_admin_telegram_ids (raw : string) : Checked (list Z) :=
  match parse_id_parts (split_on COMMA raw) with inl ids => inl (from_keys ids) | inr e => inr e end.

(** The first refusal of a list of tests. *)
Fixpoint refuse_first (tests : list (bool * string)) : Checked unit :=
  match tests with
  | [] => inl tt
  | (bad, message) :: tests' => if bad : bool then refuse message else refuse_first tests'
  end.

Definition validate_monitor_settings (s : Settings) : Checked unit :=
  refuse_first
    [(negb (monitor_enabled s), "MONITOR_ENABLED is false");
     (monitor_worker_heartbeat_critical_seconds s <=? monitor_worker_heartbeat_warning_seconds s,
      "MONITOR_WORKER_HEARTBEAT_WARNING_SECONDS must be less than MONITOR_WORKER_HEARTBEAT_CRITICAL_SECONDS");
     (monitor_notification_critical_count s <=? monitor_notification_warning_count s,
      "MONITOR_NOTIFICATION_WARNING_COUNT must be less than MONITOR_NOTIFICATION_CRITICAL_COUNT");
     (monitor_manual_review_critical_count s <=? monitor_manual_review_warning_count s,
      "MONITOR_MANUAL_REVIEW_WARNING_COUNT must be less than MONITOR_MANUAL_REVIEW_CRITICAL_COUNT");
     (monitor_backup_critical_age_seconds s <=? monitor_backup_warning_age_seconds s,
      "MONITOR_BACKUP_WARNING_AGE_SECONDS must be less than MONITOR_BACKUP_CRITICAL_AGE_SECONDS");
     (Qle_bool (monitor_disk_warning_percent s) (monitor_disk_critical_percent s),
      "MONITOR_DISK_CRITICAL_PERCENT must be less than MONITOR_DISK_WARNING_PERCENT");
     (monitor_gateway_failure_critical_count s <=? monitor_gateway_failure_warning_count s,
      "MONITOR_GATEWAY_FAILURE_WARNING_COUNT must be less than MONITOR_GATEWAY_FAILURE_CRITICAL_COUNT");
     (monitor_bot_failure_critical_count s <=? monitor_bot_failure_warning_count s,
      "MONITOR_BOT_FAILURE_WARNING_COUNT must be less than MONITOR_BOT_FAILURE_CRITICAL_COUNT")].

(** [re.fullmatch(r"([01]?\d|2[0-3]):[0-5]\d", time)]. *)
Definition in_chars (lo hi : Z) (c : Ascii.ascii) : bool := (lo <=? code c) && (code c <=? hi).

Definition hour_match (h : string) : bool :=
  match h with
  | String a "" => is_ascii_digit a
  | String a (String b "") => (in_chars 48 49 a && is_ascii_digit b) || (in_chars 50 50 a && in_chars 48 51 b)
  | _ => false
  end.

Definition minute_match (m : string) : bool :=
  match m with String a (String b "") => in_chars 48 53 a && is_ascii_digit b | _ => false end.

Definition report_time_match (time : string) : bool :=
  match partition COLON time with Some (h, m) => hour_match h && minute_match m | None => false end.

(** The clock of a time zone: [astimezone] of an instant. *)
Record LocalTime := mkLocalTime { local_date : string; local_hour : Z; local_minute : Z }.

(** [ZoneInfo(name)], from the zone database of the host. *)
Class TimeZones := { zone_info : string -> option (Z -> LocalTime) }.

Definition validate_admin_bot_settings `{TimeZones} (s : Settings) : Checked (list Z) :=
  if negb (admin_bot_enabled s) then refuse "ADMIN_BOT_ENABLED is false"
  else if String.eqb (admin_bot_token s) "" then refuse "ADMIN_BOT_TOKEN is not configured"
  else
    match parse_admin_telegram_ids (admin_telegram_ids s) with
    | inr e => inr e
    | inl [] => refuse "ADMIN_TELEGRAM_IDS is empty"
    | inl admin_ids =>
        if negb (report_time_match (admin_bot_daily_report_time s)) then
          refuse "ADMIN_BOT_DAILY_REPORT_TIME must be HH:MM"
        else match zone_info (admin_bot_timezone s) with
             | None => refuse "ADMIN_BOT_TIMEZONE is not a valid IANA timezone"
             | Some _ => inl admin_ids
             end
    end.

(** ** Examples *)

Example ids_ex : parse_admin_telegram_ids " 42, 7,,42 ,0099" = inl [42; 7; 99]. Proof. vm_compute. reflexivity. Qed.
Example ids_refused : map parse_admin_telegram_ids ["@admin"; "12,-5"; "0"]
  = repeat (refuse admin_ids_message) 3.
Proof. vm_compute. reflexivity. Qed.
Example report_times : map report_time_match ["09:00"; "9:00"; "23:59"; "24:00"; "12:60"; "12"; "012:00"]
  = [true; true; true; false; false; false; false].
Proof. vm_compute. reflexivity. Qed.

(** ** Facts: the administrators *)

Lemma from_keys_spec ids : NoDup (from_keys ids) /\ forall n, In n (from_keys ids) <-> In n ids.
Proof.
  induction ids as [|n ids [IH1 IH2]]; cbn; [split; [constructor|done]|]. split.
  - constructor.
    + rewrite list_elem_of_In, filter_In. intros [_ H]. by rewrite Z.eqb_refl in H.
    + by apply NoDup_ListNoDup, List.NoDup_filter, NoDup_ListNoDup.
  - intros m. rewrite filter_In, IH2, negb_true_iff, Z.eqb_neq. destruct (decide (n = m)); intuition.
Qed.

Lemma from_keys_NoDup ids : NoDup ids -> from_keys ids = ids.
Proof.
  induction 1 as [|n ids Hn _ IH]; [done|]. cbn. rewrite IH. f_equal. rewrite list_elem_of_In in Hn. clear IH.
  induction ids as [|m ids IH]; [done|]. cbn. rewrite (proj2 (Z.eqb_neq m n)) by (intros ->; apply Hn; by left).
  cbn. f_equal. apply IH. intros H. apply Hn. by right.
Qed.

(** A part that names an administrator, and the number it is. *)
Definition part_id (part : string) : option Z :=
  if String.eqb (strip part) "" then None else int_of_candidate (strip part).

Definition good_part (part : string) : Prop :=
  strip part = "" \/ exists n, part_id part = Some n /\ 0 < n.

Lemma digits_isdigit s : all_digits s = true -> isdigit s = true.
Proof.
  unfold all_digits, isdigit. intros [-> H]%andb_true_iff. cbn. eapply str_forallb_impl; [|exact H].
  intros c Hc. unfold is_digit. by rewrite Hc.
Qed.

Lemma parse_id_parts_exact parts ids :
  parse_id_parts parts = inl ids <-> Forall good_part parts /\ ids = omap part_id parts.
Proof.
  revert ids. induction parts as [|part parts IH]; intros ids; cbn [parse_id_parts].
  { split; [by intros [= <-]|]. by intros [_ ->]. }
  cbn [omap list_omap]. rewrite Forall_cons. unfold good_part at 1, part_id at 1 2. cbv zeta.
  destruct (String.eqb (strip part) "") eqn:E.
  { apply String.eqb_eq in E. rewrite IH. split; [intros [Hf ->]; by split; [split; [left|]|]|by intros [[_ Hf] ->]]. }
  apply String.eqb_neq in E. unfold int_of_candidate. destruct (all_digits (strip part)) eqn:Hd.
  2:{ split; [by destruct (isdigit _)|]. intros [[[?|(n & ? & _)] _] _]; done. }
  rewrite digits_isdigit by done. cbn [negb]. destruct (int_of_digits (strip part)) as [n|].
  2:{ split; [done|]. intros [[[?|(n & ? & _)] _] _]; done. }
  destruct (Z.leb_spec n 0).
  { split; [done|]. intros [[[?|(m & [= <-] & ?)] _] _]; [done|lia]. }
  destruct (parse_id_parts parts) as [ids'|e].
  - destruct (proj1 (IH ids') eq_refl) as [H1 H2]. split.
    + intros [= <-]. split; [split; [right; by exists n|done]|by f_equal].
    + intros [_ ->]. by rewrite H2.
  - split; [done|]. intros [[_ Hf] _]. pose proof (proj2 (IH (omap part_id parts)) (conj Hf eq_refl)). discriminate.
Qed.

(** The administrators of the bot. The list is accepted exactly when
    every part that is not blank is a positive decimal number; the result has
    no duplicates and holds exactly these numbers. *)
Theorem admin_ids_exact raw ids : parse_admin_telegram_ids raw = inl ids <->
  Forall good_part (split_on COMMA raw) /\ ids = from_keys (omap part_id (split_on COMMA raw)) /\
  NoDup ids /\ Forall (fun n => 0 < n) ids /\
  forall n, In n ids <-> exists part, In part (split_on COMMA raw) /\ part_id part = Some n.
Proof.
  unfold parse_admin_telegram_ids. split.
  - destruct (parse_id_parts _) as [l|e] eqn:E; [|done]. intros [= <-].
    apply parse_id_parts_exact in E as [Hf ->]. destruct (from_keys_spec (omap part_id (split_on COMMA raw))) as [Hn Hin].
    assert (Hex : forall n, In n (from_keys (omap part_id (split_on COMMA raw))) <->
        exists part, In part (split_on COMMA raw) /\ part_id part = Some n).
    { intros n. rewrite Hin, <- list_elem_of_In, list_elem_of_omap. by setoid_rewrite list_elem_of_In. }
    split_and!; try done. apply Forall_forall. intros n. rewrite list_elem_of_In, Hex. intros (part & Hp & Hv).
    rewrite Forall_forall in Hf. destruct (Hf part) as [H0|(m & Hm & ?)]; [by apply list_elem_of_In| |].
    + unfold part_id in Hv. by rewrite H0 in Hv.
    + congruence.
  - intros (Hf & -> & _). by rewrite (proj2 (parse_id_parts_exact _ _) (conj Hf eq_refl)).
Qed.

(** A superscript passes [isdigit] but not [int]: no [ConfigurationError]. *)
Example superscript_id : parse_admin_telegram_ids (String (char 178) "") = inr (OtherError "ValueError").
Proof. vm_compute. reflexivity. Qed.

(** ** Facts: loading *)

Section LoadFacts.
Context `{UrlLib}.

(** The fields that loading rewrites. *)
Definition with_urls (centralpay public bot : string) (s : Settings) : Settings :=
  s <| centralpay_base_url := centralpay |> <| public_base_url := public |> <| bot_payment_notify_url := bot |>.

(** What loading checks besides the URLs; none of it depends on them. *)
Definition loadable (s : Settings) : bool :=
  settings_valid s && (String.eqb (telegram_bot_username s) "" || telegram_username_match (telegram_bot_username s)).

Lemma loadable_urls a b c s : loadable (with_urls a b c s) = loadable s.
Proof. done. Qed.

Lemma normalized_bot_url_urls a b s :
  normalized_bot_url (s <| centralpay_base_url := a |> <| public_base_url := b |>) = normalized_bot_url s.
Proof. done. Qed.

Lemma validate_bot_settings_min_max s : validate_bot_settings s = true ->
  (min_payment_amount_toman s <? max_payment_amount_toman s) = true.
Proof. unfold validate_bot_settings. by intros [[[[H1 _]%andb_true_iff _]%andb_true_iff _]%andb_true_iff _]%andb_true_iff. Qed.

Lemma load_settings_exact s s' : load_settings s = Some s' <->
  loadable s = true /\ exists centralpay public bot,
    normalize_centralpay_base_url (centralpay_base_url s) = Some centralpay /\
    normalize_public_base_url (public_base_url s) = Some public /\
    normalized_bot_url s = Some bot /\ s' = with_urls centralpay public bot s.
Proof.
  unfold load_settings, loadable, settings_valid. cbv zeta. split.
  - destruct (field_bounds s && validate_payer_id_secret (centralpay_payer_id_secret s)) eqn:E1; [|done]. cbn [negb andb].
    destruct (normalize_centralpay_base_url _) as [a|] eqn:Ea; [|done].
    destruct (normalize_public_base_url _) as [b|] eqn:Eb; [|done]. rewrite normalized_bot_url_urls.
    destruct (negb (_ <? _)); [done|].
    destruct (negb (String.eqb _ _) && negb _) eqn:E2; [done|].
    destruct (normalized_bot_url s) as [c|] eqn:Ec; [|done].
    change (s <| centralpay_base_url := a |> <| public_base_url := b |> <| bot_payment_notify_url := c |>) with (with_urls a b c s).
    change (validate_bot_settings (with_urls a b c s)) with (validate_bot_settings s).
    destruct (validate_bot_settings s) eqn:E3; [|done]. intros [= <-]. split; [|by exists a, b, c].
    change (negb (String.eqb (telegram_bot_username s) "") && negb (telegram_username_match (telegram_bot_username s)) = false) in E2.
    by destruct (String.eqb (telegram_bot_username s) ""), (telegram_username_match (telegram_bot_username s)).
  - intros [[[H1 H3]%andb_true_iff H2]%andb_true_iff (a & b & c & -> & -> & Hc & ->)]. rewrite H1. cbn [negb].
    rewrite normalized_bot_url_urls, Hc.
    change (min_payment_amount_toman (s <| centralpay_base_url := a |> <| public_base_url := b |>)) with (min_payment_amount_toman s).
    change (max_payment_amount_toman (s <| centralpay_base_url := a |> <| public_base_url := b |>)) with (max_payment_amount_toman s).
    change (telegram_bot_username (s <| centralpay_base_url := a |> <| public_base_url := b |>)) with (telegram_bot_username s).
    rewrite validate_bot_settings_min_max by done. cbn [negb].
    assert (E2 : negb (String.eqb (telegram_bot_username s) "") && negb (telegram_username_match (telegram_bot_username s)) = false)
      by (by destruct (String.eqb (telegram_bot_username s) ""), (telegram_username_match (telegram_bot_username s))).
    rewrite E2.
    change (s <| centralpay_base_url := a |> <| public_base_url := b |> <| bot_payment_notify_url := c |>) with (with_urls a b c s).
    change (validate_bot_settings (with_urls a b c s)) with (validate_bot_settings s). by rewrite H3.
Qed.

(** C40: A loaded configuration is canonical. It satisfies every bound, its
    three URLs are in normal form (the public one and the gateway's https; the
    bot's unset, https, or http to a private host with cleartext allowed), no
    other field differs from the environment, and loading it again changes
    nothing. *)
Theorem loaded_settings_canonical s s' : accepts_ipv6 -> load_settings s = Some s' ->
  settings_valid s' = true /\ load_settings s' = Some s' /\
  s' = with_urls (centralpay_base_url s') (public_base_url s') (bot_payment_notify_url s') s /\
  (exists h p, canonical_host h /\ canonical_port p /\ public_base_url s' = "https://" +:+ h +:+ port_part p) /\
  (exists h p path, canonical_host h /\ canonical_port p /\ base_path path /\
     centralpay_base_url s' = url_text "https" h p path) /\
  (bot_payment_notify_url s' = "" \/
   exists scheme h p path, canonical_host h /\ canonical_port p /\ validate_path_segments path = true /\
     bot_payment_notify_url s' = url_text scheme h p path /\ bot_scheme (allow_insecure_bot_notify_url s') scheme h).
Proof.
  intros Hlaw (Hl & a & b & c & Ha & Hb & Hc & ->)%load_settings_exact.
  assert (Hc' : c = "" \/ normalize_bot_notify_url (bot_payment_notify_url s) (allow_insecure_bot_notify_url s) = Some c).
  { unfold normalized_bot_url in Hc. destruct (String.eqb _ _); [injection Hc as <-; by left|by right]. }
  split_and!.
  - by apply andb_true_iff in Hl as [Hl _].
  - apply load_settings_exact. rewrite loadable_urls. split; [done|]. exists a, b, c. split_and!; [| | |done].
    + by apply (normalize_centralpay_idem (centralpay_base_url s)).
    + by apply (normalize_public_idem (public_base_url s)).
    + unfold normalized_bot_url. cbn. destruct (String.eqb c "") eqn:E; [by apply String.eqb_eq in E as ->|].
      destruct Hc' as [->|Hc']; [done|]. by apply (normalize_bot_idem (bot_payment_notify_url s)).
  - done.
  - destruct (normalize_public_sound _ _ Hb) as (h & p & ? & ? & ? & _). by exists h, p.
  - destruct (normalize_centralpay_sound _ _ Ha) as (? & raw & p & ? & path & _ & _ & ? & ? & ? & _ & ?).
    by exists (lower raw), p, path.
  - destruct Hc' as [->|Hc']; [by left|right].
    destruct (normalize_bot_sound _ _ _ Hc') as (x & raw & p & path & _ & ? & ? & ? & ? & ?).
    by exists (lower x), (lower raw), p, path.
Qed.
End LoadFacts.

(** ** Facts: the report time *)

(** [(int(part) for part in time.split(":"))]: hour and minute of a validated
    report time; [int] reads more than such a text holds, which is left out. *)
Definition report_time (time : string) : option (Z * Z) :=
  match split_on COLON time with
  | [h; m] => match int_of_candidate h, int_of_candidate m with Some h, Some m => Some (h, m) | _, _ => None end
  | _ => None
  end.

Lemma in_chars_spec lo hi c : in_chars lo hi c = true <-> lo <= code c <= hi.
Proof. unfold in_chars. rewrite andb_true_iff, !Z.leb_le. lia. Qed.

Lemma digit_spec c : is_ascii_digit c = true <-> 48 <= code c <= 57.
Proof. apply in_chars_spec. Qed.

Lemma two_digits a b : is_ascii_digit a = true -> is_ascii_digit b = true ->
  int_of_candidate (String a (String b "")) = Some (10 * (code a - 48) + (code b - 48)).
Proof. intros Ha Hb. unfold int_of_candidate, all_digits. cbn [str_forallb String.eqb negb]. rewrite Ha, Hb. done. Qed.

Lemma hour_match_spec h : hour_match h = true ->
  free_of COLON h = true /\ exists n, int_of_candidate h = Some n /\ 0 <= n < 24.
Proof.
  assert (Hfree : forall c, is_ascii_digit c = true -> Ascii.eqb c COLON = false).
  { intros c Hc. apply Ascii.eqb_neq. intros ->. done. }
  unfold hour_match. destruct h as [|a [|b [|]]]; try done.
  - intros Ha. split; [cbn; by rewrite Hfree|]. exists (code a - 48). split; [|apply digit_spec in Ha; lia].
    unfold int_of_candidate, all_digits. cbn. by rewrite Ha.
  - intros H. assert (Hd : is_ascii_digit a = true /\ is_ascii_digit b = true /\ 10 * (code a - 48) + (code b - 48) < 24).
    { apply orb_true_iff in H as [[H1 H2]%andb_true_iff|[H1 H2]%andb_true_iff];
        rewrite ?in_chars_spec, ?digit_spec in *; lia. }
    destruct Hd as (Ha & Hb & Hlt). split; [cbn; by rewrite !Hfree|]. eexists. split; [by apply two_digits|].
    apply digit_spec in Ha, Hb. lia.
Qed.

Lemma minute_match_spec m : minute_match m = true ->
  free_of COLON m = true /\ exists n, int_of_candidate m = Some n /\ 0 <= n < 60.
Proof.
  unfold minute_match. destruct m as [|a [|b [|]]]; try done. intros [H1 H2]%andb_true_iff.
  assert (Ha : is_ascii_digit a = true) by (rewrite in_chars_spec, digit_spec in *; lia).
  assert (Hfree : forall c, is_ascii_digit c = true -> Ascii.eqb c COLON = false).
  { intros c Hc. apply Ascii.eqb_neq. by intros ->. }
  split; [cbn; by rewrite !Hfree|]. eexists. split; [by apply two_digits|].
  rewrite in_chars_spec in H1. apply digit_spec in H2. lia.
Qed.

(** A validated report time is a time of day. *)
Lemma report_time_total time : report_time_match time = true ->
  exists h m, report_time time = Some (h, m) /\ 0 <= h < 24 /\ 0 <= m < 60.
Proof.
  unfold report_time_match. destruct (partition COLON time) as [[h m]|] eqn:Hp; [|done].
  intros [Hh Hm]%andb_true_iff. apply partition_spec in Hp as [-> _].
  destruct (hour_match_spec h Hh) as (Fh & i & Hi & ?), (minute_match_spec m Hm) as (Fm & j & Hj & ?).
  exists i, j. unfold report_time. rewrite split_on_app, split_on_free by done. by rewrite Hi, Hj.
Qed.

Lemma validate_admin_bot_settings_spec `{TimeZones} s ids : validate_admin_bot_settings s = inl ids ->
  admin_bot_enabled s = true /\ parse_admin_telegram_ids (admin_telegram_ids s) = inl ids /\ ids <> [] /\
  report_time_match (admin_bot_daily_report_time s) = true /\ exists clock, zone_info (admin_bot_timezone s) = Some clock.
Proof.
  unfold validate_admin_bot_settings. destruct (admin_bot_enabled s); [|done]. cbn [negb]. destruct (String.eqb _ _); [done|].
  destruct (parse_admin_telegram_ids _) as [[|n l]|]; try done.
  destruct (report_time_match _); [|done]. cbn [negb]. destruct (zone_info _) as [clock|]; [|done].
  intros [= <-]. split_and!; try done. by exists clock.
Qed.

(** ** Witnesses *)

Definition capital_settings : Settings :=
  default_settings <| public_base_url := "HTTPS://Pay.Example.com:8443/" |>
    <| centralpay_base_url := "https://centralapi.org/webservice/basic/" |>
    <| bot_payment_notify_url := "HTTP://Mock-Bot:8080/Notify" |> <| allow_insecure_bot_notify_url := true |>.

Theorem loaded_settings_canonical_witness :
  settings_valid (with_urls "https://centralapi.org/webservice/basic" "https://pay.example.com:8443"
    "http://mock-bot:8080/Notify" capital_settings) = true.
Proof.
  apply (loaded_settings_canonical (H := brackets_checked) capital_settings _ brackets_checked_accepts).
  by vm_compute.
Defined.
