(* ===== verification/Api.v ===== *)
(** The two public routes: [GET /api/centralpay/callback]
    ([app/api/callback.py]) and [POST /api/custom-payment]
    ([app/api/payments.py], from the parsed request on).

    A request handler runs in a database session of its own and shares one
    application state, the rate limiters and the storm tracker, with all
    other requests of the process. A [Process] is both. Each use of the
    shared state is atomic, under a lock; what other requests did to it in
    the meantime is [other_requests]. What FastAPI delivers of a request is
    an argument; [ParsedPaymentRequest] is the strict body of the code. *)

From S2P Require Import Prelude PyText Exceptions Config Models Identity Session AuditTrail Ledger.
From S2P Require Import Urls CentralPay Security RateLimit ClientIp PayerIdentity Payments Verification.

(** ** [SignatureFailureTracker] *)

Record SignatureFailureTracker := mkTracker {
  threshold : Z;
  storm_window : Z;
  max_events : nat;
  failures : list Z;
  last_reported : option Z
}.

#[export] Instance eta_SignatureFailureTracker : Eta SignatureFailureTracker := fun t =>
  mkTracker (threshold t) (storm_window t) (max_events t) (failures t) (last_reported t).

Definition signature_failure_tracker : SignatureFailureTracker := mkTracker 5 (seconds 600) 1000 [] None.

(** [deque(maxlen=bound).append]: a full deque drops its oldest entry. *)
Definition append_bounded (bound : nat) (l : list Z) (x : Z) : list Z :=
  drop (S (length l) - bound) (l ++ [x]).

(** [record]: the count to report, if any. *)
Definition record_failure (now : Z) (t : SignatureFailureTracker) : option Z * SignatureFailureTracker :=
  let evs := drop_before (now - storm_window t) (append_bounded (max_events t) (failures t) now) in
  let t := t <| failures := evs |> in
  let count := Z.of_nat (length evs) in
  if (threshold t <=? count) &&
     match last_reported t with None => true | Some r => storm_window t <=? now - r end
  then (Some count, t <| last_reported := Some now |>)
  else (None, t).

Definition reset_tracker (t : SignatureFailureTracker) : SignatureFailureTracker :=
  t <| failures := [] |> <| last_reported := None |>.

(** ** Request handlers *)

Record AppState := mkAppState {
  rate_limits : RateLimiters;
  failure_tracker : SignatureFailureTracker
}.

#[export] Instance eta_AppState : Eta AppState := fun s => mkAppState (rate_limits s) (failure_tracker s).

(** The monotonic clock, and the effect of other requests on the shared state
    up to an interaction. *)
Class Host := {
  monotonic : nat -> Z;
  other_requests : nat -> AppState -> AppState
}.

Record Process := mkProcess {
  app : AppState;
  session : World
}.

#[export] Instance eta_Process : Eta Process := fun p => mkProcess (app p) (session p).

Definition Handler (A : Type) : Type := Process -> Res A * Process.

Definition hret {A} (a : A) : Handler A := fun p => (Ret a, p).
Definition hraise {A} (e : Exn) : Handler A := fun p => (Raise e, p).
Definition hbind {A B} (m : Handler A) (k : A -> Handler B) : Handler B := fun p =>
  match m p with
  | (Ret a, p') => k a p'
  | (Raise e, p') => (Raise e, p')
  end.

Declare Scope handler_scope.
Delimit Scope handler_scope with handler.
Notation "'let^' x := m 'in' k" := (hbind m (fun x => k))
  (at level 10, x pattern, m at level 100, k at level 200) : handler_scope.
#[global] Open Scope handler_scope.

(** A computation of the session. *)
Definition in_session {A} (m : M A) : Handler A := fun p =>
  let (r, w) := m (session p) in (r, p <| session := w |>).

Record Request := mkRequest {
  forwarded_for : option string;
  client_host : option string
}.

Section Shared.
Context `{Host}.

(** One atomic use of the shared state. *)
Definition shared {A} (f : Z -> AppState -> A * AppState) : Handler A := fun p =>
  let n := ticks (session p) in
  let (a, s) := f (monotonic n) (other_requests n (app p)) in
  (Ret a, mkProcess s ((session p) <| ticks := S n |>)).

(** The attributes of [RateLimiters] that the routes pass to its methods. *)
Inductive Window := CREATE | INVALID_API_KEY | INVALID_SIGNATURE.
Inductive Store := CREATE_PER_IP | INVALID_SIGNATURE_PER_IP.

Definition window_of (x : Window) (r : RateLimiters) : SlidingWindowLimiter :=
  match x with
  | CREATE => create r
  | INVALID_API_KEY => invalid_api_key r
  | INVALID_SIGNATURE => invalid_signature r
  end.

Definition set_window (x : Window) (l : SlidingWindowLimiter) (r : RateLimiters) : RateLimiters :=
  match x with
  | CREATE => r <| create := l |>
  | INVALID_API_KEY => r <| invalid_api_key := l |>
  | INVALID_SIGNATURE => r <| invalid_signature := l |>
  end.

Definition store_of (x : Store) (r : RateLimiters) : BoundedLimiterStore :=
  match x with
  | CREATE_PER_IP => create_per_ip r
  | INVALID_SIGNATURE_PER_IP => invalid_signature_per_ip r
  end.

Definition set_store (x : Store) (s : BoundedLimiterStore) (r : RateLimiters) : RateLimiters :=
  match x with
  | CREATE_PER_IP => r <| create_per_ip := s |>
  | INVALID_SIGNATURE_PER_IP => r <| invalid_signature_per_ip := s |>
  end.

Definition on_window {A} (x : Window) (f : Z -> SlidingWindowLimiter -> A * SlidingWindowLimiter)
    (now : Z) (s : AppState) : A * AppState :=
  let r := rate_limits s in
  let (a, l) := f now (window_of x r) in (a, s <| rate_limits := set_window x l r |>).

Definition on_store {A} (x : Store) (f : Z -> BoundedLimiterStore -> A * BoundedLimiterStore)
    (now : Z) (s : AppState) : A * AppState :=
  let r := rate_limits s in
  let (a, st) := f now (store_of x r) in (a, s <| rate_limits := set_store x st r |>).

Definition check_window (x : Window) : Handler bool :=
  shared (fun now s => on_window x (check (enabled (rate_limits s))) now s).
Definition check_client (x : Store) (ip : string) : Handler bool :=
  shared (fun now s => on_store x (check_per_ip (enabled (rate_limits s)) ip) now s).
Definition window_retry (x : Window) : Handler Z := shared (on_window x safe_retry_after).
Definition client_retry (x : Store) (ip : string) : Handler Z := shared (on_store x (safe_retry_after_per_ip ip)).

(** [raise RateLimitedError(retry_after_seconds=...)]. *)
Definition rate_limited {A} (retry : Handler Z) : Handler A :=
  let^ us := retry in hraise (Bridge (rate_limited_error (Some us))).

Definition record_signature_failure : Handler (option Z) :=
  shared (fun now s => let (r, t) := record_failure now (failure_tracker s) in
                       (r, s <| failure_tracker := t |>)).

(** ** The callback *)

Definition is_lower_hex (c : Ascii.ascii) : bool :=
  is_ascii_digit c || ((97 <=? code c) && (code c <=? 102)).

(** The bounds declared for the query parameters. *)
Definition callback_params_valid (order_id : Z) (ct sig : string) : bool :=
  (1 <=? order_id) && (order_id <=? 999999999999999999) &&
  (1 <=? String.length ct)%nat && (String.length ct <=? 64)%nat && str_forallb is_lower_hex ct &&
  (1 <=? String.length sig)%nat && (String.length sig <=? 128)%nat && str_forallb is_lower_hex sig.

Definition occurs_once (query : list (string * string)) (name : string) : bool :=
  (length (List.filter (fun kv => String.eqb (fst kv) name) query) =? 1)%nat.

Definition RequestValidationError : Exn := Unexpected "RequestValidationError".

Section Routes.
Context `{Env} `{UrlLib}.

(** The aggregated alert: [except Exception] around both statements. *)
Definition storm_alert (count : Z) : M unit :=
  try_catch
    (let* _ := create_alert "callback_signature_failures" "warning" None (Some "callback_signature_failures")
                 (Some [("count", JInt count); ("window_seconds", JInt 600)]) None None in
     commit)
    (fun _ => ret tt).

(** The answer once the failure was counted. *)
Definition refuse_signature (ip : string) (per_ip_ok global_ok : bool) : Handler CallbackResult :=
  if negb per_ip_ok then rate_limited (client_retry INVALID_SIGNATURE_PER_IP ip)
  else if negb global_ok then rate_limited (window_retry INVALID_SIGNATURE)
  else hraise (Bridge (bridge_error InvalidCallbackSignatureError None)).

Definition count_failure : Handler unit :=
  let^ storm_count := record_signature_failure in
  match storm_count with Some n => in_session (storm_alert n) | None => hret tt end.

Definition reject_signature (settings : Settings) (request : Request) : Handler CallbackResult :=
  let ip := resolve_client_ip settings (forwarded_for request) (client_host request) in
  let^ per_ip_ok := check_client INVALID_SIGNATURE_PER_IP ip in
  let^ global_ok := (if per_ip_ok : bool then check_window INVALID_SIGNATURE else hret true) in
  let^ _ := count_failure in
  refuse_signature ip per_ip_ok global_ok.

Definition centralpay_callback (settings : Settings) (request : Request) (query : list (string * string))
    (order_id : Z) (ct sig : string) : Handler CallbackResult :=
  if negb (callback_params_valid order_id ct sig) then hraise RequestValidationError
  else if negb (forallb (occurs_once query) ["orderId"; "ct"; "sig"])
  then hraise (Bridge (bridge_error InvalidCallbackSignatureError None))
  else if negb (verify_callback_signature (callback_hmac_secret settings) order_id ct sig)
  then reject_signature settings request
  else in_session (process_callback (centralpay_verify_api_key settings) order_id ct
                     (first_payment_guard_enabled settings)).

(** ** Payment creation *)

Record ParsedPaymentRequest := mkParsed {
  body_api_key : string;
  body_amount : Z;
  body_order_id : string;
  parsed_telegram_user_id : option Z
}.

Definition create_limits (settings : Settings) (request : Request) : Handler unit :=
  let ip := resolve_client_ip settings (forwarded_for request) (client_host request) in
  let^ ok := check_client CREATE_PER_IP ip in
  if negb ok then rate_limited (client_retry CREATE_PER_IP ip)
  else
    let^ ok := check_window CREATE in
    if negb ok then rate_limited (window_retry CREATE) else hret tt.

(** The guards after authentication, and the creation. *)
Definition guarded_creation (settings : Settings) (parsed : ParsedPaymentRequest) : Handler string :=
  if negb (payment_creation_enabled settings) then
    hraise (Bridge (bridge_error PaymentCreationDisabledError None))
  else if String.eqb (centralpay_payer_id_secret settings) "" then
    hraise (Bridge (bridge_error PayerIdentityMisconfiguredError None))
  else if body_amount parsed <? min_payment_amount_toman settings then
    hraise (Bridge (bridge_error AmountOutOfRangeError
                      (Some ("Amount must be at least " +:+ str_of_int (min_payment_amount_toman settings) +:+ " TOMAN"))))
  else in_session (create_payment settings (body_order_id parsed) (body_amount parsed)
                     (parsed_telegram_user_id parsed)).

Definition create_custom_payment (settings : Settings) (request : Request) (parsed : ParsedPaymentRequest)
  : Handler string :=
  if String.eqb (inbound_api_key settings) "" ||
     negb (constant_time_equals (body_api_key parsed) (inbound_api_key settings)) then
    let^ ok := check_window INVALID_API_KEY in
    if negb ok then rate_limited (window_retry INVALID_API_KEY)
    else hraise (Bridge (bridge_error InvalidApiKeyError None))
  else
    let^ replay := in_session (find_safe_replay_redirect_url (body_order_id parsed) (body_amount parsed)
                                 (parsed_telegram_user_id parsed)) in
    let^ _ := (if is_none replay then create_limits settings request else hret tt) in
    guarded_creation settings parsed.
End Routes.
End Shared.

(** ** Facts: the storm tracker *)

(** What is left of a deque that drops its oldest entries. *)
Definition newest (bound : nat) (l : list Z) : list Z := drop (length l - bound) l.

Lemma newest_snoc bound l x : append_bounded bound (newest bound l) x = newest bound (l ++ [x]).
Proof.
  unfold append_bounded, newest. rewrite length_drop, length_app. cbn [length].
  destruct (Nat.le_gt_cases (length l) bound) as [Hle|Hgt].
  - replace (length l - bound)%nat with 0%nat by lia. cbn [drop]. f_equal. lia.
  - replace (S (length l - (length l - bound)) - bound)%nat with 1%nat by lia.
    replace (length l + 1 - bound)%nat with (length l - bound + 1)%nat by lia.
    rewrite <- drop_drop, (drop_app_le l [x]) by lia. done.
Qed.

Lemma ascending_drop n l : ascending l -> ascending (drop n l).
Proof.
  unfold ascending. revert l. induction n as [|n IH]; [done|]. intros [|a l]; [done|].
  intros [Hs _]%StronglySorted_inv. by apply IH.
Qed.

Lemma ascending_app l m : ascending (l ++ m) -> ascending l.
Proof.
  unfold ascending. induction l as [|a l IH]; [constructor|]. cbn. intros [Hs Ha]%StronglySorted_inv.
  apply Forall_app in Ha as [Ha _]. constructor; auto.
Qed.

Lemma ascending_after l x m : ascending ((l ++ [x]) ++ m) -> Forall (fun e => x <= e) m.
Proof.
  unfold ascending. induction l as [|a l IH]; cbn; intros [Hs Ha]%StronglySorted_inv; [done|]. by apply IH.
Qed.

Lemma filter_newest bound c l : ascending l ->
  List.filter (fun e => c <=? e) (newest bound l) = newest bound (List.filter (fun e => c <=? e) l).
Proof.
  unfold newest. revert bound. induction l as [|a l IH]; intros bound Hs; [done|].
  pose proof Hs as [Hs' Ha]%StronglySorted_inv. cbn [length List.filter].
  destruct (Nat.le_gt_cases (S (length l)) bound) as [Hle|Hgt].
  - replace (S (length l) - bound)%nat with 0%nat by lia. cbn [drop List.filter].
    assert (Hf : (length (List.filter (fun e => (c <=? e)%Z) l) <= length l)%nat) by apply filter_length_le.
    case_match; cbn [length]; [replace (S (length (List.filter (fun e => (c <=? e)%Z) l)) - bound)%nat with 0%nat by lia
      |replace (length (List.filter (fun e => (c <=? e)%Z) l) - bound)%nat with 0%nat by lia]; done.
  - replace (S (length l) - bound)%nat with (S (length l - bound)) by lia. cbn [drop]. rewrite (IH bound Hs').
    destruct (Z.leb_spec c a) as [Hc|Hc]; [|done].
    assert (E : List.filter (fun e => c <=? e) l = l).
    { apply forallb_filter_id, forallb_forall. intros e He. rewrite Forall_forall in Ha.
      specialize (Ha e ltac:(by apply list_elem_of_In)). lia. }
    rewrite E. cbn [length]. replace (S (length l) - bound)%nat with (S (length l - bound)) by lia. done.
Qed.

Lemma newest_length bound l : Z.of_nat (length (newest bound l)) = Z.min (Z.of_nat bound) (Z.of_nat (length l)).
Proof. unfold newest. rewrite length_drop. lia. Qed.

(** The deque holds the newest of the failures in the window that ends at [last]. *)
Definition tracks (hist : list Z) (last : Z) (t : SignatureFailureTracker) : Prop :=
  failures t = newest (max_events t) (recent (storm_window t) last hist).

Lemma tracks_record hist last now t : 0 <= storm_window t -> last <= now -> ascending (hist ++ [now]) ->
  tracks hist last t ->
  drop_before (now - storm_window t) (append_bounded (max_events t) (failures t) now)
  = newest (max_events t) (recent (storm_window t) now (hist ++ [now])).
Proof.
  intros Hw Hle Hs E. rewrite E, newest_snoc. unfold recent.
  assert (Hx : List.filter (fun e => last - storm_window t <=? e) hist ++ [now]
    = List.filter (fun e => last - storm_window t <=? e) (hist ++ [now])).
  { rewrite filter_app_one. by rewrite (proj2 (Z.leb_le _ _)) by lia. }
  rewrite Hx. assert (Hs' : ascending (List.filter (fun e => last - storm_window t <=? e) (hist ++ [now])))
    by (by apply ascending_filter).
  rewrite drop_before_filter, filter_newest by (try done; by apply ascending_drop).
  rewrite filter_filter; [done|]. intros e He. lia.
Qed.

(** The tracker without a bound on its memory: it remembers every failure. *)
Fixpoint storm_reference (thr win : Z) (bound : nat) (hist : list Z) (reported : option Z) (times : list Z)
  : list (option Z) :=
  match times with
  | [] => []
  | now :: rest =>
      let hist := hist ++ [now] in
      let count := Z.min (Z.of_nat bound) (Z.of_nat (length (recent win now hist))) in
      let due := (thr <=? count) && match reported with None => true | Some r => win <=? now - r end in
      (if due then Some count else None)
      :: storm_reference thr win bound hist (if due then Some now else reported) rest
  end.

Fixpoint run_tracker (t : SignatureFailureTracker) (times : list Z) : list (option Z) :=
  match times with
  | [] => []
  | now :: rest => let (r, t) := record_failure now t in r :: run_tracker t rest
  end.

Lemma run_tracker_reference t hist last times : 0 <= storm_window t -> ascending (hist ++ times) ->
  Forall (fun e => last <= e) times -> tracks hist last t ->
  run_tracker t times = storm_reference (threshold t) (storm_window t) (max_events t) hist (last_reported t) times.
Proof.
  revert t hist last. induction times as [|now times IH]; intros t hist last Hw Hs Hl HT; [done|].
  apply Forall_cons in Hl as [Hle Hl]. cbn [run_tracker storm_reference]. unfold record_failure.
  assert (E : hist ++ now :: times = (hist ++ [now]) ++ times) by (by rewrite <- app_assoc). rewrite E in Hs.
  assert (Hs1 : ascending (hist ++ [now])) by (by eapply ascending_app).
  assert (Hn : Forall (fun e => now <= e) times) by (by eapply ascending_after).
  rewrite (tracks_record hist last now t) by done. destruct t as [thr win bound evs reported]. cbn in *.
  rewrite newest_length.
  match goal with |- context [if ?b then (Some _, _) else _] => destruct b end;
    (f_equal; by apply (IH (mkTracker thr win bound _ _) (hist ++ [now]) now)).
Qed.

(** ** Facts: handlers *)

(** The postcondition of a handler. *)
Definition hwp {A} (m : Handler A) (Q : Res A -> Process -> Prop) (p : Process) : Prop :=
  Q (fst (m p)) (snd (m p)).

Lemma hwp_ret {A} (a : A) (Q : Res A -> Process -> Prop) p : Q (Ret a) p -> hwp (hret a) Q p.
Proof. done. Qed.

Lemma hwp_raise {A} e (Q : Res A -> Process -> Prop) p : Q (Raise e) p -> hwp (hraise e) Q p.
Proof. done. Qed.

Lemma hwp_bind {A B} (m : Handler A) (k : A -> Handler B) Q p :
  hwp m (fun r p' => match r with Ret a => hwp (k a) Q p' | Raise e => Q (Raise e) p' end) p ->
  hwp (hbind m k) Q p.
Proof. unfold hwp, hbind. by destruct (m p) as [[a|e] p']. Qed.

Lemma hwp_mono {A} (m : Handler A) (Q Q' : Res A -> Process -> Prop) p :
  hwp m Q p -> (forall r p', Q r p' -> Q' r p') -> hwp m Q' p.
Proof. unfold hwp. auto. Qed.

Lemma hwp_session {A} (m : M A) (Q : Res A -> Process -> Prop) p :
  wp m (fun r w => Q r (mkProcess (app p) w)) (session p) -> hwp (in_session m) Q p.
Proof. unfold hwp, wp, in_session. by destruct (m (session p)) as [r w]. Qed.

Section HandlerFacts.
Context `{Host}.

(** A use of the shared state leaves the session alone, the clock apart. *)
Lemma hwp_shared {A} (f : Z -> AppState -> A * AppState) (Q : Res A -> Process -> Prop) p :
  (forall n a s w', n = ticks (session p) -> f (monotonic n) (other_requests n (app p)) = (a, s) ->
     called [] (session p) w' -> Q (Ret a) (mkProcess s w')) ->
  hwp (shared f) Q p.
Proof.
  intros HQ. unfold hwp, shared. destruct (f _ _) as [a s] eqn:E. cbn. by eapply HQ.
Qed.

(** What the requests for payment links may spend. *)
Definition same_budgets (s s' : AppState) : Prop :=
  create (rate_limits s') = create (rate_limits s) /\ create_per_ip (rate_limits s') = create_per_ip (rate_limits s).

Definition alone : Prop := forall n s, other_requests n s = s.

(** Using the limiter of the invalid keys leaves the budgets as they were. *)
Lemma hwp_invalid_key {A} (f : Z -> AppState -> A * AppState) (Q : Res A -> Process -> Prop) p :
  (forall now s a s', f now s = (a, s') -> same_budgets s s') ->
  (forall a s w', (alone -> same_budgets (app p) s) -> called [] (session p) w' -> Q (Ret a) (mkProcess s w')) ->
  hwp (shared f) Q p.
Proof.
  intros Hf HQ. apply hwp_shared. intros n a s w' -> E C. apply HQ; [|done]. intros Ha. rewrite Ha in E.
  by apply Hf in E.
Qed.

Lemma budgets_window {A} (f : AppState -> Z -> SlidingWindowLimiter -> A * SlidingWindowLimiter) now s a s' :
  on_window INVALID_API_KEY (f s) now s = (a, s') -> same_budgets s s'.
Proof. unfold on_window. destruct (f s now _) as [b l]. by intros [= _ <-]. Qed.

Lemma same_budgets_trans s1 s2 s3 : same_budgets s1 s2 -> same_budgets s2 s3 -> same_budgets s1 s3.
Proof. intros [] []. split; congruence. Qed.

Lemma called_nil_trans w1 w2 w3 : called [] w1 w2 -> called [] w2 w3 -> called [] w1 w3.
Proof. intros [] []. split; cbn in *; congruence. Qed.

(** ** Facts: payment creation *)

Section CreationFacts.
Context {ENV : Env} {URL : UrlLib}.

Definition authentic (settings : Settings) (parsed : ParsedPaymentRequest) : bool :=
  negb (String.eqb (inbound_api_key settings) "") &&
  constant_time_equals (body_api_key parsed) (inbound_api_key settings).

Definition refused_as (l : list ErrorClass) {A} (r : Res A) : Prop :=
  exists e, r = Raise (Bridge e) /\ In (error_class e) l.

(** The request was within both budgets, its client's and the global one. *)
Definition within_budgets (settings : Settings) (request : Request) (s s' : AppState) : Prop :=
  let ip := resolve_client_ip settings (forwarded_for request) (client_host request) in
  exists n m s1 l st, let s0 := other_requests n s in
    check_per_ip (enabled (rate_limits s0)) ip (monotonic n) (create_per_ip (rate_limits s0)) = (true, st) /\
    s1 = other_requests m (s0 <| rate_limits := set_store CREATE_PER_IP st (rate_limits s0) |>) /\
    check (enabled (rate_limits s1)) (monotonic m) (create (rate_limits s1)) = (true, l) /\
    s' = s1 <| rate_limits := set_window CREATE l (rate_limits s1) |>.

Lemma hwp_rate_limited {A} (f : Z -> AppState -> Z * AppState) (Q : Res A -> Process -> Prop) p :
  (forall e s w', error_class e = RateLimitedError -> called [] (session p) w' ->
     (exists n now us, f now (other_requests n (app p)) = (us, s)) -> Q (Raise (Bridge e)) (mkProcess s w')) ->
  hwp (rate_limited (shared f)) Q p.
Proof.
  intros HQ. apply hwp_bind, hwp_shared. intros n us s w' Hn E C. apply hwp_raise, HQ; [done|done|]. by eexists _, _, _.
Qed.

Lemma hwp_create_limits settings request (Q : Res unit -> Process -> Prop) p :
  (forall e s w', error_class e = RateLimitedError -> called [] (session p) w' -> Q (Raise (Bridge e)) (mkProcess s w')) ->
  (forall s w', within_budgets settings request (app p) s -> called [] (session p) w' -> Q (Ret tt) (mkProcess s w')) ->
  hwp (create_limits settings request) Q p.
Proof.
  intros Href Hok. unfold create_limits. apply hwp_bind, hwp_shared. intros n ok s w1 _ E1 C1.
  destruct ok; cbn [negb].
  2:{ apply hwp_rate_limited. intros e s2 w2 He C2 _. apply Href; [done|]. by eapply called_nil_trans. }
  apply hwp_bind, hwp_shared. intros m ok s2 w2 _ E2 C2. cbn [app session] in *.
  pose proof (called_nil_trans _ _ _ C1 C2) as C. destruct ok; cbn [negb].
  2:{ apply hwp_rate_limited. intros e s3 w3 He C3 _. apply Href; [done|]. by eapply called_nil_trans. }
  apply hwp_ret, Hok; [|done]. unfold on_store in E1. unfold on_window in E2.
  destruct (check_per_ip _ _ _ _) as [ok1 st] eqn:K1. injection E1 as -> <-.
  destruct (check _ _ _) as [ok2 l] eqn:K2. injection E2 as -> <-.
  exists n, m, (other_requests m ((other_requests n (app p)) <| rate_limits := set_store CREATE_PER_IP st (rate_limits (other_requests n (app p))) |>)), l, st.
  by split_and!.
Qed.

Definition turned_away_as : list ErrorClass :=
  [RateLimitedError; PaymentCreationDisabledError; PayerIdentityMisconfiguredError; AmountOutOfRangeError].

(** What becomes of a creation request. *)
Inductive create_outcome (settings : Settings) (request : Request) (parsed : ParsedPaymentRequest)
    (p : Process) (r : Res string) (p' : Process) : Prop :=
  | create_unauthenticated :
      authentic settings parsed = false -> refused_as [InvalidApiKeyError; RateLimitedError] r ->
      called [] (session p) (session p') -> (alone -> same_budgets (app p) (app p')) ->
      create_outcome settings request parsed p r p'
  | create_turned_away :
      authentic settings parsed = true ->
      refused_as turned_away_as r ->
      idle (session p) (session p') ->
      create_outcome settings request parsed p r p'
  | create_admitted found w1 w2 :
      authentic settings parsed = true -> payment_creation_enabled settings = true ->
      centralpay_payer_id_secret settings <> "" ->
      min_payment_amount_toman settings <= body_amount parsed ->
      find_safe_replay_redirect_url (body_order_id parsed) (body_amount parsed) (parsed_telegram_user_id parsed)
        (session p) = (Ret found, w1) ->
      match found with
      | Some _ => w2 = w1 /\ app p' = app p
      | None => called [] w1 w2 /\ within_budgets settings request (app p) (app p')
      end ->
      idle (session p) w2 ->
      create_payment settings (body_order_id parsed) (body_amount parsed) (parsed_telegram_user_id parsed) w2
        = (r, session p') ->
      create_outcome settings request parsed p r p'.

Lemma idle_consulted w w1 w2 : idle w w1 -> called [] w1 w2 -> idle w w2.
Proof.
  intros [S C W M K] T. pose proof (steady_called _ _ _ T S) as [S2 _].
  split; [done|by ws|by ws|by ws|]. by rewrite (ca_calls _ _ _ T).
Qed.

Lemma refused_raise l c msg {A} : In c l -> refused_as l (Raise (A:=A) (Bridge (bridge_error c msg))).
Proof. intros Hc. eexists. by split. Qed.

(** The guards, once the budgets were passed. *)
Lemma hwp_guarded_creation settings request parsed p found w1 w2 s :
  authentic settings parsed = true -> idle (session p) w1 -> called [] w1 w2 ->
  find_safe_replay_redirect_url (body_order_id parsed) (body_amount parsed) (parsed_telegram_user_id parsed)
    (session p) = (Ret found, w1) ->
  match found with
  | Some _ => w2 = w1 /\ s = app p
  | None => within_budgets settings request (app p) s
  end ->
  hwp (guarded_creation settings parsed) (create_outcome settings request parsed p) (mkProcess s w2).
Proof.
  intros Hauth I1 C2 Erun Hfound. unfold guarded_creation.
  assert (Hturn : forall c msg, In c turned_away_as ->
    hwp (hraise (Bridge (bridge_error c msg))) (create_outcome settings request parsed p) (mkProcess s w2)).
  { intros c msg Hc. apply hwp_raise, create_turned_away; [done|by apply refused_raise|]. by eapply idle_consulted. }
  destruct (payment_creation_enabled settings) eqn:Hen; cbn [negb]; [|apply Hturn; cbn; auto].
  destruct (String.eqb (centralpay_payer_id_secret settings) "") eqn:Hsec; [apply Hturn; cbn; auto|].
  destruct (Z.ltb_spec (body_amount parsed) (min_payment_amount_toman settings)) as [|Hmin]; [apply Hturn; cbn; auto|].
  apply hwp_session. unfold wp. cbn [session app].
  destruct (create_payment _ _ _ _ w2) as [r w3] eqn:Ec. cbn [fst snd].
  apply (create_admitted _ _ _ _ _ _ found w1 w2); try done.
  - by apply String.eqb_neq.
  - destruct found; [exact Hfound|by split].
  - by eapply idle_consulted.
Qed.

Lemma hwp_unauthenticated settings request parsed p : authentic settings parsed = false ->
  hwp (let^ ok := check_window INVALID_API_KEY in
       if negb ok then rate_limited (window_retry INVALID_API_KEY)
       else hraise (Bridge (bridge_error InvalidApiKeyError None)))
    (create_outcome settings request parsed p) p.
Proof.
  intros Hauth. apply hwp_bind, (hwp_invalid_key _ _ p).
  { intros now s ok s'. apply (budgets_window (fun s => check (enabled (rate_limits s)))). }
  intros ok s w1 B1 C1. destruct ok; cbn [negb].
  - apply hwp_raise. constructor; [done|by apply refused_raise; left|done..].
  - apply hwp_bind, (hwp_invalid_key _ _ (mkProcess s w1)).
    { intros now s1 us s'. apply (budgets_window (fun _ => safe_retry_after)). }
    intros us s2 w2 B2 C2. apply hwp_raise. constructor; [done| | |].
    + eexists. split; [done|]. cbn. auto.
    + by eapply called_nil_trans.
    + intros Hal. eapply same_budgets_trans; [by apply B1|by apply B2].
Qed.

Lemma hwp_create_custom_payment settings request parsed p :
  sound (session p) -> committed (session p) = working (session p) -> identity_map (session p) = ∅ ->
  hwp (create_custom_payment settings request parsed) (create_outcome settings request parsed p) p.
Proof.
  intros Hs Hc Hm. unfold create_custom_payment.
  assert (Ha : String.eqb (inbound_api_key settings) "" ||
     negb (constant_time_equals (body_api_key parsed) (inbound_api_key settings)) = negb (authentic settings parsed)).
  { unfold authentic. by rewrite negb_andb, negb_involutive. }
  rewrite Ha. destruct (authentic settings parsed) eqn:Hauth; cbn [negb]; [|by apply hwp_unauthenticated].
  apply hwp_bind, hwp_session.
  destruct (find_safe_replay_redirect_url (body_order_id parsed) (body_amount parsed) (parsed_telegram_user_id parsed)
    (session p)) as [rf w1] eqn:Erun.
  pose proof (wp_run _ _ _ _ _ Erun (wp_replay_found (body_order_id parsed) (body_amount parsed)
    (parsed_telegram_user_id parsed) _ Hs Hc Hm)) as (I1 & found & -> & _).
  unfold wp. rewrite Erun. cbn [fst snd]. apply hwp_bind. destruct found as [url|]; cbn [is_none].
  - apply hwp_ret. by eapply hwp_guarded_creation.
  - apply hwp_create_limits.
    + intros e s w' He C. apply create_turned_away; [done| |by eapply idle_consulted].
      exists e. split; [done|]. rewrite He. by left.
    + intros s w' B C. by eapply hwp_guarded_creation.
Qed.
End CreationFacts.
End HandlerFacts.

(** ** Facts: the callback *)

Section CallbackFacts.
Context `{Host} {ENV : Env}.

Definition callback_authentic (settings : Settings) (query : list (string * string)) (order_id : Z)
    (ct sig : string) : bool :=
  callback_params_valid order_id ct sig && forallb (occurs_once query) ["orderId"; "ct"; "sig"] &&
  verify_callback_signature (callback_hmac_secret settings) order_id ct sig.

(** At most an alert was queued. *)
Record alerted (w w' : World) : Prop := {
  al_steady : sound w -> steady w w';
  al_calls : calls w' = calls w;
  al_payments : payments (committed w') = payments (committed w);
  al_identities : payer_identities (committed w') = payer_identities (committed w);
  al_policies : fee_policies (committed w') = fee_policies (committed w);
  al_trail : trail (committed w') = trail (committed w)
}.

Lemma alerted_refl w : alerted w w.
Proof. by split; [apply steady_refl|..]. Qed.

Lemma alerted_trans w1 w2 w3 : alerted w1 w2 -> alerted w2 w3 -> alerted w1 w3.
Proof.
  intros [S1 C1 P1 I1 F1 T1] [S2 C2 P2 I2 F2 T2]. split; try congruence. intros Hs.
  eapply steady_trans; [by apply S1|]. by apply S2, S1.
Qed.

Lemma alerted_called w w' : called [] w w' -> alerted w w'.
Proof. intros T. split; [intros Hs; by eapply steady_called|apply (ca_calls _ _ _ T)|..]; by rewrite (ca_committed _ _ _ T). Qed.

Lemma wp_storm_alert n w : working w = committed w ->
  wp (storm_alert n) (fun r w' => r = Ret tt /\ alerted w w') w.
Proof.
  intros Hf. unfold storm_alert. apply wp_try, wp_bind.
  pose proof (quiet_create_alert record_event "callback_signature_failures" "warning" None
    (Some "callback_signature_failures") (Some [("count", JInt n); ("window_seconds", JInt 600)]) None None
    (quiet_record_alert_created 1) w) as Q.
  unfold wp at 1. fold (create_alert) in Q.
  destruct (create_alert _ _ _ _ _ _ _ w) as [[a|e] w1]; cbn [fst snd] in *.
  - apply wp_commit. intros w2 Co. split; [done|]. split.
    + intros Hs. pose proof (steady_audited _ _ _ Q Hs) as S1. eapply steady_trans; [exact S1|].
      by eapply steady_commit; [|apply S1].
    + by rewrite (cm_calls _ _ Co), (au_calls _ _ _ Q).
    + by rewrite (cm_committed _ _ Co), (au_payments _ _ _ Q), Hf.
    + by rewrite (cm_committed _ _ Co), (au_identities _ _ _ Q), Hf.
    + by rewrite (cm_committed _ _ Co), (au_policies _ _ _ Q), Hf.
    + unfold trail. by rewrite (cm_committed _ _ Co), (au_events _ _ _ Q), Hf.
  - apply wp_ret. split; [done|]. split; [intros Hs; by eapply steady_audited|apply (au_calls _ _ _ Q)|..];
      by rewrite (au_committed _ _ _ Q).
Qed.

(** The answers to a request whose signature fails. *)
Definition signature_refusal : list ErrorClass := [InvalidCallbackSignatureError; RateLimitedError].

Lemma hwp_alerted {A} (f : Z -> AppState -> A * AppState) (Q : Res A -> Process -> Prop) w p :
  alerted w (session p) -> working (session p) = committed (session p) ->
  (forall a s w', alerted w w' -> working w' = committed w' -> Q (Ret a) (mkProcess s w')) ->
  hwp (shared f) Q p.
Proof.
  intros Ha Hf HQ. apply hwp_shared. intros n a s w' _ _ C. apply HQ.
  - eapply alerted_trans; [exact Ha|by apply alerted_called].
  - by rewrite (ca_working _ _ _ C), (ca_committed _ _ _ C).
Qed.

Lemma hwp_refuse_signature ip per_ip global w p : alerted w (session p) ->
  hwp (refuse_signature ip per_ip global) (fun r p' => refused_as signature_refusal r /\ alerted w (session p')) p.
Proof.
  intros A. assert (Hl : forall f, hwp (rate_limited (shared f)) (fun (r : Res CallbackResult) p' =>
      refused_as signature_refusal r /\ alerted w (session p')) p).
  { intros f. apply hwp_rate_limited. intros e s w' He C _. split.
    - exists e. split; [done|]. rewrite He. cbn. auto.
    - eapply alerted_trans; [exact A|by apply alerted_called]. }
  unfold refuse_signature. destruct per_ip; cbn [negb]; [|apply Hl]. destruct global; cbn [negb]; [|apply Hl].
  apply hwp_raise. split; [by apply refused_raise; left|done].
Qed.

Lemma hwp_count_failure w p : alerted w (session p) -> working (session p) = committed (session p) ->
  hwp count_failure (fun r p' => r = Ret tt /\ alerted w (session p')) p.
Proof.
  intros A F. apply hwp_bind, (hwp_alerted _ _ w); [done|done|]. intros storm s w2 A2 F2.
  destruct storm as [n|]; [|by apply hwp_ret].
  apply hwp_session. eapply wp_mono; [by apply wp_storm_alert|]. intros r w3 [-> A3].
  split; [done|by eapply alerted_trans].
Qed.

Lemma hwp_reject_signature settings request p : working (session p) = committed (session p) ->
  hwp (reject_signature settings request) (fun r p' =>
    refused_as signature_refusal r /\ alerted (session p) (session p')) p.
Proof.
  intros Hf. unfold reject_signature.
  apply hwp_bind, (hwp_alerted _ _ (session p)); [apply alerted_refl|done|]. intros per_ip s1 w1 A1 F1.
  assert (Hrest : forall global s w, alerted (session p) w -> working w = committed w ->
    hwp (let^ _ := count_failure in refuse_signature
           (resolve_client_ip settings (forwarded_for request) (client_host request)) per_ip global)
      (fun r p' => refused_as signature_refusal r /\ alerted (session p) (session p')) (mkProcess s w)).
  { intros global s w A F. apply hwp_bind. eapply hwp_mono; [by apply (hwp_count_failure (session p))|].
    intros r p' [-> A']. by apply hwp_refuse_signature. }
  apply hwp_bind. destruct per_ip.
  - apply (hwp_alerted _ _ (session p)); [done|done|]. intros global s2 w2 A2 F2. by apply Hrest.
  - by apply hwp_ret, Hrest.
Qed.

Lemma hwp_callback settings request query order_id ct sig p : working (session p) = committed (session p) ->
  hwp (centralpay_callback settings request query order_id ct sig) (fun r p' =>
    if callback_authentic settings query order_id ct sig
    then app p' = app p /\
         process_callback (centralpay_verify_api_key settings) order_id ct (first_payment_guard_enabled settings)
           (session p) = (r, session p')
    else (r = Raise RequestValidationError \/ refused_as signature_refusal r) /\
         alerted (session p) (session p')) p.
Proof.
  intros Hf. unfold centralpay_callback, callback_authentic.
  destruct (callback_params_valid order_id ct sig); cbn [negb andb].
  2:{ apply hwp_raise. split; [by left|apply alerted_refl]. }
  destruct (forallb _ _); cbn [negb andb].
  2:{ apply hwp_raise. split; [right; by apply refused_raise; left|apply alerted_refl]. }
  destruct (verify_callback_signature _ _ _ _); cbn [negb].
  - unfold hwp, in_session. by destruct (process_callback _ _ _ _ (session p)) as [r w].
  - eapply hwp_mono; [by apply hwp_reject_signature|]. intros r p' [Hr A]. by split; [right|].
Qed.
End CallbackFacts.

(** ** Facts: replays *)

Section ReplayFacts.
Context `{Host} {ENV : Env} {URL : UrlLib}.

(** The query clears the row it is about. *)
Lemma wp_replay_finds oid amt telegram row url w :
  sound w -> committed w = working w -> identity_map w = ∅ ->
  payments (committed w) !! id row = Some row -> bot_order_id row = oid -> amount row = amt ->
  status row = LINK_CREATED -> redirect_url row = Some url -> url <> "" -> identity_matches row telegram = true ->
  wp (find_safe_replay_redirect_url oid amt telegram) (fun r w' => r = Ret (Some url)) w.
Proof.
  intros Hs Hc Hm Hr Ho Ha Hst Hu Hne Hid. pose proof (so_working w Hs) as Hok.
  unfold find_safe_replay_redirect_url. rewrite Hc in Hr.
  apply wp_bind, wp_select_payment; [apply Hok|intros Hno|].
  { specialize (Hno _ _ Hr). unfold for_order in Hno. by rewrite Ho, String.eqb_refl in Hno. }
  intros q w1 Hq Hf A. apply String.eqb_eq in Hf.
  assert (q = row) as ->.
  { assert (E : id q = id row) by (eapply (ok_orders _ Hok); [exact Hq|exact Hr|congruence]).
    rewrite E in Hq. congruence. }
  assert (Eo : object_of w false row = row) by (unfold object_of; by rewrite Hm, lookup_empty).
  rewrite Eo. apply wp_bind, wp_rollback. intros w2 R. apply wp_ret.
  rewrite Hu, Hst, bool_decide_true by done. cbn. apply String.eqb_neq in Hne.
  by rewrite Hne, Ha, Z.eqb_refl, Hid.
Qed.
End ReplayFacts.

(** ** Properties *)

Section RouteProperties.
Context `{Host} {ENV : Env} {URL : UrlLib}.

(** The storm tracker forgets nothing that matters. Over any sequence of
    failures in order of time, with a bounded memory, it reports exactly as a
    tracker that remembers all of them would: a storm is reported when the
    window holds at least the threshold, with the number of failures in it
    (at most the bound), unless one was reported less than a window ago. *)
Theorem storm_reports_exact thr win bound times :
  0 <= win -> ascending times ->
  run_tracker (mkTracker thr win bound [] None) times = storm_reference thr win bound [] None times.
Proof.
  intros Hw Hs. destruct times as [|now times]; [done|].
  apply (run_tracker_reference (mkTracker thr win bound [] None) [] now); [done|done| |].
  - constructor; [lia|]. by apply (ascending_after [] now).
  - unfold tracks, newest, recent. by destruct bound.
Qed.

(** C9: The callback route acts only on authentic requests. A request whose
    parameters are well formed, each present once, and signed with the
    callback secret is handed to [process_callback], the limiters untouched;
    any other request is refused, whatever the limiters and the alert outbox
    do: no payment, identity or policy changes, no event but an alert's is
    recorded, and neither gateway nor bot is called. *)
Theorem callback_acts_only_if_authentic settings request query order_id ct sig p :
  working (session p) = committed (session p) ->
  hwp (centralpay_callback settings request query order_id ct sig) (fun r p' =>
    if callback_authentic settings query order_id ct sig
    then app p' = app p /\
         process_callback (centralpay_verify_api_key settings) order_id ct (first_payment_guard_enabled settings)
           (session p) = (r, session p')
    else (r = Raise RequestValidationError \/ refused_as signature_refusal r) /\
         alerted (session p) (session p')) p.
Proof. intros Hf. eapply hwp_mono; [by apply hwp_callback|]. auto. Qed.

(** A retry is never starved. An authenticated repetition of the request
    that created a live, unverified link gets the same link again, however
    exhausted the budgets are: no limiter is even consulted, the gateway is
    not called and the database is left as it was. *)
Theorem replays_bypass_limits settings request parsed p row url :
  (forall n d, others n d = d) -> sound (session p) -> committed (session p) = working (session p) ->
  identity_map (session p) = ∅ ->
  authentic settings parsed = true -> payment_creation_enabled settings = true ->
  centralpay_payer_id_secret settings <> "" -> min_payment_amount_toman settings <= body_amount parsed ->
  (forall t, parsed_telegram_user_id parsed = Some t -> 1 <= t <= MAX_TELEGRAM_USER_ID) ->
  payments (committed (session p)) !! id row = Some row -> bot_order_id row = body_order_id parsed ->
  amount row = body_amount parsed -> status row = LINK_CREATED -> gateway_verified_at row = None ->
  redirect_url row = Some url -> identity_matches row (parsed_telegram_user_id parsed) = true ->
  typed_identity settings row (committed (session p)) ->
  hwp (create_custom_payment settings request parsed) (fun r p' =>
    r = Ret url /\ app p' = app p /\ calls (session p') = calls (session p) /\
    committed (session p') = committed (session p)) p.
Proof.
  intros Hcalm Hs Hc Hm Hauth Hen Hsec Hmin Ht Hr Ho Ha Hst Hv Hu Hid Htyped.
  assert (RELY : @Rely ENV) by (intros n d _; by rewrite Hcalm).
  assert (Hl : live_link row = true).
  { pose proof (ok_rows _ (so_ok _ Hs) _ _ Hr) as R. apply row_ok_spec in R as (_ & _ & [_ R] & _). by apply R. }
  assert (Hne : url <> "") by (intros ->; unfold live_link in Hl; by rewrite Hu in Hl).
  pose proof (wp_replay_finds (body_order_id parsed) (body_amount parsed) (parsed_telegram_user_id parsed) row url
    (session p) Hs Hc Hm Hr Ho Ha Hst Hu Hne Hid) as Hfind.
  destruct (find_safe_replay_redirect_url (body_order_id parsed) (body_amount parsed) (parsed_telegram_user_id parsed)
    (session p)) as [rf w1] eqn:Erun.
  pose proof (wp_run _ _ _ _ _ Erun Hfind) as ->.
  pose proof (wp_run _ _ _ _ _ Erun (wp_replay_found _ _ _ _ Hs Hc Hm)) as [I _].
  unfold create_custom_payment, guarded_creation.
  assert (Ha' : String.eqb (inbound_api_key settings) "" ||
     negb (constant_time_equals (body_api_key parsed) (inbound_api_key settings)) = false).
  { unfold authentic in Hauth. apply andb_true_iff in Hauth as [->%negb_true_iff ->]. done. }
  rewrite Ha', Hen, (proj2 (String.eqb_neq _ _) Hsec), (proj2 (Z.ltb_ge _ _) Hmin). cbn [negb].
  apply hwp_bind, hwp_session. unfold wp at 1. rewrite Erun. cbn [fst snd is_none].
  apply hwp_bind, hwp_ret, hwp_session. cbn [session app].
  eapply wp_mono; [apply (wp_replay_answered Hcalm settings _ _ _ row url (session p) w1); try done|].
  - apply (so_ok _ Hs).
  - rewrite <- Ho. by apply typed_identity_matches.
  - intros r' w' [-> I']. split_and!; [done|done|apply I'|apply I'].
Qed.
End RouteProperties.

(** ** Witnesses *)

(** One request at a time, every 10 seconds. *)
#[export] Instance quiet_host : Host | 100 := {|
  monotonic := fun n => seconds (10 * Z.of_nat n);
  other_requests := fun _ s => s
|}.

Lemma storm_reports_exact_witness :
  run_tracker signature_failure_tracker (map seconds [0; 1; 2; 3; 4; 5; 700])
    = [None; None; None; None; Some 5; None; None] /\
  run_tracker signature_failure_tracker (map seconds [0; 1; 2; 3; 4; 5; 700])
    = storm_reference 5 (seconds 600) 1000 [] None (map seconds [0; 1; 2; 3; 4; 5; 700]).
Proof.
  split; [vm_compute; reflexivity|]. apply storm_reports_exact.
  - vm_compute. discriminate.
  - repeat constructor; vm_compute; discriminate.
Defined.

Definition fresh_app : AppState := mkAppState (rate_limiters default_settings) signature_failure_tracker.

(** Every budget spent. *)
Definition exhausted_app : AppState :=
  fresh_app <| rate_limits := rate_limiters (default_settings <| rate_limit_create_per_minute := 0 |>) |>.

Definition shop_request : Request := mkRequest (Some "203.0.113.7") None.
Definition shop_body (key : string) (amt : Z) : ParsedPaymentRequest := mkParsed key amt "order-1" (Some 42).
Definition linked_process (s : AppState) : Process := mkProcess s (world_of linked_db).

Definition create_call (key : string) (amt : Z) : Handler string :=
  @create_custom_payment quiet_host calm_env no_brackets default_settings shop_request (shop_body key amt).

(** Refused with a wrong key, and with another amount when the budgets are spent. *)
Example refused_creations :
  refused_as [InvalidApiKeyError] (fst (create_call "guess" 250000 (linked_process fresh_app))) /\
  refused_as [RateLimitedError] (fst (create_call "inbound-api-key-0001" 260000 (linked_process exhausted_app))).
Proof. split; eexists; (split; [vm_compute; reflexivity|left; reflexivity]). Qed.

Lemma replays_bypass_limits_witness :
  hwp (create_call "inbound-api-key-0001" 250000) (fun r p' => r = Ret "https://pay.example/1" /\ app p' = exhausted_app)
    (linked_process exhausted_app).
Proof.
  eapply hwp_mono; [apply (@replays_bypass_limits quiet_host calm_env no_brackets default_settings shop_request
    (shop_body "inbound-api-key-0001" 250000) (linked_process exhausted_app) example_payment "https://pay.example/1")|].
  - intros n d. reflexivity.
  - exact linked_sound.
  - reflexivity.
  - reflexivity.
  - vm_compute. reflexivity.
  - reflexivity.
  - vm_compute. discriminate.
  - vm_compute. discriminate.
  - intros t [= <-]. split; vm_compute; discriminate.
  - reflexivity.
  - reflexivity.
  - reflexivity.
  - reflexivity.
  - reflexivity.
  - reflexivity.
  - reflexivity.
  - exists 1, user_row. split; [reflexivity|]. split; [reflexivity|]. left. reflexivity.
  - intros r p' (H1 & H2 & _). split; [exact H1|exact H2].
Defined.

Definition callback_call (sig : string) : Handler CallbackResult :=
  @centralpay_callback quiet_host calm_env default_settings shop_request
    [("orderId", "700001"); ("ct", "00ff"); ("sig", sig)] 700001 "00ff" sig.

Lemma callback_acts_only_if_authentic_witness :
  callback_authentic default_settings [("orderId", "700001"); ("ct", "00ff"); ("sig", "0")] 700001 "00ff" "0" = false /\
  hwp (callback_call "0") (fun r p' => calls (session p') = [] /\
    payments (committed (session p')) = payments linked_db) (linked_process fresh_app).
Proof.
  split; [vm_compute; reflexivity|].
  eapply hwp_mono; [apply (@callback_acts_only_if_authentic quiet_host calm_env default_settings shop_request
    [("orderId", "700001"); ("ct", "00ff"); ("sig", "0")] 700001 "00ff" "0" (linked_process fresh_app))|].
  - reflexivity.
  - intros r p' Hp. assert (Hno : callback_authentic default_settings
      [("orderId", "700001"); ("ct", "00ff"); ("sig", "0")] 700001 "00ff" "0" = false) by (vm_compute; reflexivity).
    rewrite Hno in Hp. destruct Hp as [_ A]. split; [exact (al_calls _ _ A)|exact (al_payments _ _ A)].
Defined.

(** A signed callback reaches [process_callback], which rejects its token. *)
Example signed_callback :
  let sig := callback_signature (callback_hmac_secret default_settings) 700001 "00ff" in
  refused_as [InvalidCallbackTokenError] (fst (callback_call sig (linked_process fresh_app))).
Proof. eexists. split; [vm_compute; reflexivity|left; reflexivity]. Qed.
