(* ===== verification/Unicode.v ===== *)
(** Python [str] over all of Unicode, bytes, and the form decoding of
    [urllib.parse].

    A text is the list of its code points, lone surrogates included; bytes
    are lists of numbers below 256. Written out here are the functions of
    the standard library that the request decoder calls: the UTF-8 codec
    (strict, and with replacement of ill-formed sequences), [strip],
    [split], [unquote] and [parse_qsl] with [strict_parsing] and
    [keep_blank_values]. *)

From S2P Require Import Prelude PyText.

Definition text : Type := list Z.

(** A literal. *)
Fixpoint u (s : string) : text :=
  match s with "" => [] | String c s' => code c :: u s' end.

Definition text_eqb (s t : text) : bool := bool_decide (s = t).

Definition is_surrogate (c : Z) : bool := (55296 <=? c) && (c <=? 57343).

(** A code point that UTF-8 can encode. *)
Definition scalar (c : Z) : bool := (0 <=? c) && (c <=? 1114111) && negb (is_surrogate c).

(** ** UTF-8 *)

Definition utf8_char (c : Z) : list Z :=
  if c <? 128 then [c]
  else if c <? 2048 then [192 + c / 64; 128 + c mod 64]
  else if c <? 65536 then [224 + c / 4096; 128 + c / 64 mod 64; 128 + c mod 64]
  else [240 + c / 262144; 128 + c / 4096 mod 64; 128 + c / 64 mod 64; 128 + c mod 64].

Definition utf8_bytes (s : text) : list Z := flat_map utf8_char s.

(** [s.encode("utf-8")]; [None] is a [UnicodeEncodeError]. *)
Definition utf8_encode (s : text) : option (list Z) :=
  if forallb scalar s then Some (utf8_bytes s) else None.

Definition REPLACEMENT : Z := 65533.

Definition continuation (b : Z) : bool := (128 <=? b) && (b <=? 191).

(** The second byte of a sequence of three or four: no overlong form, no
    surrogate, nothing above U+10FFFF. *)
Definition second_byte (b0 b1 : Z) : bool :=
  continuation b1 &&
  (if b0 =? 224 then 160 <=? b1 else if b0 =? 237 then b1 <=? 159
   else if b0 =? 240 then 144 <=? b1 else if b0 =? 244 then b1 <=? 143 else true).

(** One more character, or one ill-formed subsequence: an error in the
    strict codec, U+FFFD with [errors="replace"]. *)
Definition emit (strict : bool) (c : option Z) (rest : option text) : option text :=
  match c with
  | Some c => option_map (cons c) rest
  | None => if strict then None else option_map (cons REPLACEMENT) rest
  end.

Fixpoint utf8_decode (strict : bool) (bs : list Z) : option text :=
  match bs with
  | [] => Some []
  | b0 :: r0 =>
      if b0 <? 128 then emit strict (Some b0) (utf8_decode strict r0)
      else if (194 <=? b0) && (b0 <=? 223) then
        match r0 with
        | b1 :: r1 =>
            if continuation b1 then emit strict (Some ((b0 - 192) * 64 + (b1 - 128))) (utf8_decode strict r1)
            else emit strict None (utf8_decode strict r0)
        | [] => emit strict None (Some [])
        end
      else if (224 <=? b0) && (b0 <=? 239) then
        match r0 with
        | b1 :: r1 =>
            if second_byte b0 b1 then
              match r1 with
              | b2 :: r2 =>
                  if continuation b2 then
                    emit strict (Some ((b0 - 224) * 4096 + (b1 - 128) * 64 + (b2 - 128))) (utf8_decode strict r2)
                  else emit strict None (utf8_decode strict r1)
              | [] => emit strict None (Some [])
              end
            else emit strict None (utf8_decode strict r0)
        | [] => emit strict None (Some [])
        end
      else if (240 <=? b0) && (b0 <=? 244) then
        match r0 with
        | b1 :: r1 =>
            if second_byte b0 b1 then
              match r1 with
              | b2 :: r2 =>
                  if continuation b2 then
                    match r2 with
                    | b3 :: r3 =>
                        if continuation b3 then
                          emit strict (Some ((b0 - 240) * 262144 + (b1 - 128) * 4096 + (b2 - 128) * 64 + (b3 - 128)))
                            (utf8_decode strict r3)
                        else emit strict None (utf8_decode strict r2)
                    | [] => emit strict None (Some [])
                    end
                  else emit strict None (utf8_decode strict r1)
              | [] => emit strict None (Some [])
              end
            else emit strict None (utf8_decode strict r0)
        | [] => emit strict None (Some [])
        end
      else emit strict None (utf8_decode strict r0)
  end.

(** [bs.decode("utf-8", "replace")]. *)
Definition utf8_replace (bs : list Z) : text := default [] (utf8_decode false bs).

(** ** Methods of [str] *)

(** [str.isspace], the characters that [strip()] removes. *)
Definition white (c : Z) : bool :=
  ((9 <=? c) && (c <=? 13)) || ((28 <=? c) && (c <=? 32)) ||
  existsb (Z.eqb c) [133; 160; 5760; 8232; 8233; 8239; 8287; 12288] ||
  ((8192 <=? c) && (c <=? 8202)).

Fixpoint drop_while (p : Z -> bool) (s : text) : text :=
  match s with c :: s' => if p c then drop_while p s' else s | [] => [] end.

Fixpoint take_while (p : Z -> bool) (s : text) : text :=
  match s with c :: s' => if p c then c :: take_while p s' else [] | [] => [] end.

Definition text_lstrip (s : text) : text := drop_while white s.
Definition text_rstrip (s : text) : text := rev (drop_while white (rev s)).
Definition text_strip (s : text) : text := text_rstrip (text_lstrip s).

(** [s.split(c, 1)] when [c] occurs. *)
Fixpoint text_partition (c : Z) (s : text) : option (text * text) :=
  match s with
  | [] => None
  | x :: s' =>
      if x =? c then Some ([], s')
      else match text_partition c s' with Some (a, b) => Some (x :: a, b) | None => None end
  end.

(** [s.split(c)]. *)
Fixpoint text_split (c : Z) (s : text) : list text :=
  match s with
  | [] => [[]]
  | x :: s' =>
      if x =? c then [] :: text_split c s'
      else match text_split c s' with p :: ps => (x :: p) :: ps | [] => [[x]] end
  end.

(** [s.count(c)] of one character. *)
Definition text_count (c : Z) (s : text) : nat := length (List.filter (Z.eqb c) s).

(** [s.startswith(c)], [s.endswith(c)] of one character. *)
Definition starts_with (c : Z) (s : text) : bool := match s with x :: _ => x =? c | [] => false end.
Definition ends_with (c : Z) (s : text) : bool := starts_with c (rev s).

Definition ascii_digit (c : Z) : bool := (48 <=? c) && (c <=? 57).

(** [_ASCII_DECIMAL.fullmatch(s)]. *)
Definition ascii_decimal (s : text) : bool := negb (text_eqb s []) && forallb ascii_digit s.

(** [int(s)] of ASCII digits; [None] is the [ValueError] of a text with more
    than 4300 of them. *)
Definition decimal_value (s : text) : Z := fold_left (fun n c => n * 10 + (c - 48)) s 0.

Definition int_of_decimal (s : text) : option Z :=
  if (length s <=? INT_MAX_STR_DIGITS)%nat then Some (decimal_value s) else None.

(** ** [urllib.parse] *)

Definition hex_digit_value (c : Z) : option Z :=
  if (48 <=? c) && (c <=? 57) then Some (c - 48)
  else if (65 <=? c) && (c <=? 70) then Some (c - 55)
  else if (97 <=? c) && (c <=? 102) then Some (c - 87)
  else None.

(** [unquote_to_bytes] of ASCII text: a percent sign that two hexadecimal
    digits do not follow stands for itself. *)
Fixpoint unquote_to_bytes (s : text) : list Z :=
  match s with
  | [] => []
  | c :: s' =>
      if c =? 37 then
        match s' with
        | a :: b :: r =>
            match hex_digit_value a, hex_digit_value b with
            | Some x, Some y => (16 * x + y) :: unquote_to_bytes r
            | _, _ => c :: unquote_to_bytes s'
            end
        | _ => c :: unquote_to_bytes s'
        end
      else c :: unquote_to_bytes s'
  end.

(** The ASCII runs are decoded, other characters stay. *)
Definition unquote_run (run : text) : text := utf8_replace (unquote_to_bytes run).

Fixpoint unquote_parts (run : text) (s : text) : text :=
  match s with
  | [] => unquote_run run
  | c :: s' => if c <? 128 then unquote_parts (run ++ [c]) s' else unquote_run run ++ c :: unquote_parts [] s'
  end.

Definition unquote (s : text) : text :=
  if existsb (Z.eqb 37) s then unquote_parts [] s else s.

Definition plus_to_space (s : text) : text := map (fun c => if c =? 43 then 32 else c) s.

(** One field [name=value]; [None] is the [ValueError] of strict parsing. *)
Definition form_field (s : text) : option (text * text) :=
  match text_partition 61 s with
  | Some (k, v) => Some (unquote (plus_to_space k), unquote (plus_to_space v))
  | None => None
  end.

Fixpoint form_fields (l : list text) : option (list (text * text)) :=
  match l with
  | [] => Some []
  | s :: l' =>
      match form_field s, form_fields l' with
      | Some kv, Some kvs => Some (kv :: kvs)
      | _, _ => None
      end
  end.

(** [parse_qsl(s, keep_blank_values=True, strict_parsing=True)]. *)
Definition parse_qsl (s : text) : option (list (text * text)) :=
  match s with [] => Some [] | _ => form_fields (text_split 38 s) end.

Example decode_strict : utf8_decode true [216; 179; 33; 240; 159; 146; 179] = Some [1587; 33; 128179].
Proof. vm_compute. reflexivity. Qed.
Example decode_errors : map (utf8_decode true) [[192; 128]; [237; 160; 128]; [244; 144; 128; 128]; [226; 130]; [255]] = repeat None 5.
Proof. vm_compute. reflexivity. Qed.
Example decode_replace : utf8_replace [226; 130; 65; 240; 128; 128; 226; 130] = [65533; 65; 65533; 65533; 65533; 65533].
Proof. vm_compute. reflexivity. Qed.
Example form_ex : parse_qsl (u "a=1&b=x+y%21%zz&c=") = Some [(u "a", u "1"); (u "b", u "x y!%zz"); (u "c", [])].
Proof. vm_compute. reflexivity. Qed.
Example form_bad : parse_qsl (u "a=1&&b=2") = None. Proof. vm_compute. reflexivity. Qed.

(** ** Facts: UTF-8 *)

Ltac z_tests :=
  repeat match goal with
  | |- context [?a <? ?b] => first [replace (a <? b) with true by lia | replace (a <? b) with false by lia]
  | |- context [?a <=? ?b] => first [replace (a <=? b) with true by lia | replace (a <=? b) with false by lia]
  | |- context [?a =? ?b] => first [replace (a =? b) with true by lia | replace (a =? b) with false by lia]
  end; cbn [andb orb negb].

Lemma scalar_spec c : scalar c = true <-> 0 <= c <= 1114111 /\ ~ (55296 <= c <= 57343).
Proof. unfold scalar, is_surrogate. rewrite !andb_true_iff, negb_true_iff, andb_false_iff, !Z.leb_le, !Z.leb_gt. lia. Qed.

Lemma utf8_decode_ascii strict c r : c < 128 ->
  utf8_decode strict (c :: r) = option_map (cons c) (utf8_decode strict r).
Proof. intros Hc. cbn [utf8_decode]. by z_tests. Qed.

Lemma utf8_decode_char strict c r : scalar c = true ->
  utf8_decode strict (utf8_char c ++ r) = option_map (cons c) (utf8_decode strict r).
Proof.
  intros Hc%scalar_spec. unfold utf8_char.
  destruct (c <? 128) eqn:E1; [apply utf8_decode_ascii; lia|].
  destruct (c <? 2048) eqn:E2; [|destruct (c <? 65536) eqn:E3]; cbn [app utf8_decode].
  - assert (2 <= c / 64 <= 31) by (split; [apply Z.div_le_lower_bound|apply Z.lt_succ_r, Z.div_lt_upper_bound]; lia).
    pose proof (Z.mod_pos_bound c 64). pose proof (Z.div_mod c 64).
    unfold continuation. z_tests. cbn [emit]. do 2 f_equal. lia.
  - assert (0 <= c / 4096 <= 15) by (split; [apply Z.div_pos|apply Z.lt_succ_r, Z.div_lt_upper_bound]; lia).
    pose proof (Z.mod_pos_bound c 64). pose proof (Z.mod_pos_bound (c / 64) 64). pose proof (Z.div_mod c 64).
    pose proof (Z.div_mod (c / 64) 64). rewrite Zdiv.Zdiv_Zdiv in * by lia. change (64 * 64) with 4096 in *; change (4096 * 64) with 262144 in *.
    assert (Hs : second_byte (224 + c / 4096) (128 + c / 64 mod 64) = true).
    { unfold second_byte, continuation. z_tests. repeat case_match; bool_to_prop; try done; apply Z.leb_le; lia. }
    rewrite Hs. unfold continuation. z_tests. cbn [emit]. do 2 f_equal. lia.
  - assert (0 <= c / 262144 <= 4) by (split; [apply Z.div_pos|apply Z.lt_succ_r, Z.div_lt_upper_bound]; lia).
    pose proof (Z.mod_pos_bound c 64). pose proof (Z.mod_pos_bound (c / 64) 64). pose proof (Z.mod_pos_bound (c / 4096) 64).
    pose proof (Z.div_mod c 64). pose proof (Z.div_mod (c / 64) 64). pose proof (Z.div_mod (c / 4096) 64).
    rewrite !Zdiv.Zdiv_Zdiv in * by lia. change (64 * 64) with 4096 in *; change (4096 * 64) with 262144 in *.
    assert (Hs : second_byte (240 + c / 262144) (128 + c / 4096 mod 64) = true).
    { unfold second_byte, continuation. z_tests. repeat case_match; bool_to_prop; try done; apply Z.leb_le; lia. }
    rewrite Hs. unfold continuation. z_tests. cbn [emit]. do 2 f_equal. lia.
Qed.

Lemma utf8_round_trip strict s : forallb scalar s = true -> utf8_decode strict (utf8_bytes s) = Some s.
Proof.
  induction s as [|c s IH]; [done|]. cbn [forallb]. intros [Hc Hs]%andb_true_iff.
  unfold utf8_bytes. cbn [flat_map]. rewrite utf8_decode_char by done. fold (utf8_bytes s). by rewrite IH.
Qed.

Lemma utf8_replace_bytes s : forallb scalar s = true -> utf8_replace (utf8_bytes s) = s.
Proof. intros Hs. unfold utf8_replace. by rewrite utf8_round_trip. Qed.

(** Replacement never fails. *)
Lemma emit_replace c t : is_Some t -> is_Some (emit false c t).
Proof. intros [s ->]. destruct c; by eexists. Qed.

Lemma utf8_decode_total bs : is_Some (utf8_decode false bs).
Proof.
  induction (well_founded_ltof _ (@length Z) bs) as [[|b0 r0] _ IH]; [by eexists|]. unfold ltof in IH.
  cbn [utf8_decode]. repeat case_match; subst; apply emit_replace; first [by eexists | apply IH; cbn; lia].
Qed.

(** The first byte, when it is ASCII, is the first character. *)
Lemma utf8_replace_ascii c bs : c < 128 -> utf8_replace (c :: bs) = c :: utf8_replace bs.
Proof.
  intros Hc. unfold utf8_replace. rewrite utf8_decode_ascii by done.
  by destruct (utf8_decode_total bs) as [t ->].
Qed.

Lemma utf8_replace_nonempty b bs : utf8_replace (b :: bs) <> [].
Proof.
  unfold utf8_replace. destruct (utf8_decode_total (b :: bs)) as [t Ht]. rewrite Ht. cbn. intros ->.
  revert Ht. cbn [utf8_decode].
  assert (Hne : forall c t, emit false c t <> Some []) by (intros [c|] [t|]; cbn; congruence).
  repeat case_match; intros Ht; by eapply Hne.
Qed.

(** ** Facts: splitting *)

Definition lacks (c : Z) (s : text) : bool := negb (existsb (Z.eqb c) s).

Lemma lacks_cons c x s : lacks c (x :: s) = negb (c =? x) && lacks c s.
Proof. unfold lacks. cbn. apply negb_orb. Qed.

Lemma lacks_app c s t : lacks c (s ++ t) = lacks c s && lacks c t.
Proof. unfold lacks. rewrite existsb_app. apply negb_orb. Qed.

Lemma lacks_forallb (p : Z -> bool) c s : p c = false -> forallb p s = true -> lacks c s = true.
Proof.
  intros Hc. induction s as [|x s IH]; [done|]. cbn. intros [Hx Hs]%andb_true_iff.
  rewrite lacks_cons, IH by done. rewrite andb_true_r. apply negb_true_iff, Z.eqb_neq. congruence.
Qed.

Lemma text_partition_app c s t : lacks c s = true -> text_partition c (s ++ c :: t) = Some (s, t).
Proof.
  induction s as [|x s IH]; cbn; [by rewrite Z.eqb_refl|]. rewrite lacks_cons.
  intros [Hx%negb_true_iff Hs]%andb_true_iff. by rewrite Z.eqb_sym, Hx, IH.
Qed.

Lemma text_partition_eq c s a b : text_partition c s = Some (a, b) -> s = a ++ c :: b /\ lacks c a = true.
Proof.
  revert a b. induction s as [|x s IH]; cbn; [done|]. intros a b. destruct (x =? c) eqn:E.
  - intros [= <- <-]. by apply Z.eqb_eq in E as ->.
  - destruct (text_partition c s) as [[a' b']|]; [|done]. intros [= <- <-].
    destruct (IH a' b' eq_refl) as [-> Ha]. split; [done|]. by rewrite lacks_cons, Z.eqb_sym, E, Ha.
Qed.

Lemma text_partition_None c s : text_partition c s = None <-> lacks c s = true.
Proof.
  induction s as [|x s IH]; [done|]. cbn. rewrite lacks_cons, (Z.eqb_sym c x). destruct (x =? c); cbn; [done|].
  rewrite <- IH. by destruct (text_partition c s) as [[]|].
Qed.

Lemma text_split_some c s : text_split c s <> [].
Proof. destruct s as [|x s]; cbn; [done|]. destruct (x =? c); [done|]. by destruct (text_split c s). Qed.

Lemma text_split_lacks c s : lacks c s = true -> text_split c s = [s].
Proof.
  induction s as [|x s IH]; [done|]. rewrite lacks_cons. intros [Hx%negb_true_iff Hs]%andb_true_iff.
  cbn. by rewrite Z.eqb_sym, Hx, IH.
Qed.

Lemma text_split_app c s t : lacks c s = true -> text_split c (s ++ c :: t) = s :: text_split c t.
Proof.
  induction s as [|x s IH]; cbn; [by rewrite Z.eqb_refl|]. rewrite lacks_cons.
  intros [Hx%negb_true_iff Hs]%andb_true_iff. by rewrite Z.eqb_sym, Hx, IH.
Qed.

(** ** Percent-encoding: a reference encoder *)

Definition unreserved (c : Z) : bool :=
  ascii_digit c || ((65 <=? c) && (c <=? 90)) || ((97 <=? c) && (c <=? 122)) || existsb (Z.eqb c) [45; 46; 95; 126].

Definition hex_upper (d : Z) : Z := if d <? 10 then 48 + d else 55 + d.

Definition quote_byte (b : Z) : text :=
  if unreserved b then [b] else [37; hex_upper (b / 16); hex_upper (b mod 16)].

(** [urllib.parse.quote(s, safe="")]. *)
Definition quote (s : text) : text := flat_map quote_byte (utf8_bytes s).

Definition is_byte (b : Z) : bool := (0 <=? b) && (b <=? 255).

Lemma utf8_bytes_range s : forallb scalar s = true -> forallb is_byte (utf8_bytes s) = true.
Proof.
  induction s as [|c s IH]; [done|]. cbn [forallb]. intros [Hc%scalar_spec Hs]%andb_true_iff.
  unfold utf8_bytes. cbn [flat_map]. rewrite forallb_app. fold (utf8_bytes s). rewrite IH, andb_true_r by done.
  assert (Hm : forall x, 0 <= x mod 64 < 64) by (intros x; apply Z.mod_pos_bound; lia).
  pose proof (Hm c). pose proof (Hm (c / 64)). pose proof (Hm (c / 4096)). unfold utf8_char, is_byte.
  destruct (c <? 128) eqn:E1; [|destruct (c <? 2048) eqn:E2; [|destruct (c <? 65536) eqn:E3]]; bool_to_prop; cbn [forallb].
  - by z_tests.
  - assert (0 <= c / 64 < 32) by (split; [apply Z.div_pos|apply Z.div_lt_upper_bound]; lia). by z_tests.
  - assert (0 <= c / 4096 < 16) by (split; [apply Z.div_pos|apply Z.div_lt_upper_bound]; lia). by z_tests.
  - assert (0 <= c / 262144 < 8) by (split; [apply Z.div_pos|apply Z.div_lt_upper_bound]; lia). by z_tests.
Qed.

Lemma hex_upper_value d : 0 <= d < 16 -> hex_digit_value (hex_upper d) = Some d.
Proof.
  intros Hd. unfold hex_upper, hex_digit_value. destruct (d <? 10) eqn:E; bool_to_prop; z_tests; f_equal; lia.
Qed.

Lemma unreserved_facts c : unreserved c = true -> 0 <= c < 128 /\ c <> 37 /\ c <> 38 /\ c <> 43 /\ c <> 61.
Proof. unfold unreserved, ascii_digit. cbn [existsb]. intros H. bool_to_prop. lia. Qed.

(** What quoting produces. *)
Definition quoted_char (c : Z) : bool := unreserved c || (c =? 37).

Lemma quoted_char_facts c : quoted_char c = true -> 0 <= c < 128 /\ c <> 38 /\ c <> 43 /\ c <> 61.
Proof. intros [H%unreserved_facts|H%Z.eqb_eq]%orb_true_iff; lia. Qed.

Lemma quote_byte_chars b : is_byte b = true -> forallb quoted_char (quote_byte b) = true.
Proof.
  unfold is_byte. intros Hb. bool_to_prop. unfold quote_byte. destruct (unreserved b) eqn:E; cbn [forallb]; unfold quoted_char; [by rewrite E|].
  assert (Hh : forall d, 0 <= d < 16 -> unreserved (hex_upper d) = true).
  { intros d Hd. unfold hex_upper, unreserved, ascii_digit. destruct (d <? 10) eqn:Ed; bool_to_prop; by z_tests. }
  rewrite !Hh; [done|apply Z.mod_pos_bound; lia|]. split; [apply Z.div_pos|apply Z.div_lt_upper_bound]; lia.
Qed.

Lemma quote_chars s : forallb scalar s = true -> forallb quoted_char (quote s) = true.
Proof.
  intros Hs%utf8_bytes_range. unfold quote. induction (utf8_bytes s) as [|b bs IH]; [done|].
  cbn [forallb flat_map] in *. apply andb_true_iff in Hs as [Hb Hs]. by rewrite forallb_app, quote_byte_chars, IH.
Qed.

Lemma quote_lacks c s : forallb scalar s = true -> quoted_char c = false -> lacks c (quote s) = true.
Proof. intros Hs Hc. by apply (lacks_forallb quoted_char), quote_chars. Qed.

Lemma plus_to_space_id s : lacks 43 s = true -> plus_to_space s = s.
Proof.
  induction s as [|c s IH]; [done|]. rewrite lacks_cons. intros [Hc%negb_true_iff Hs]%andb_true_iff.
  cbn. rewrite Z.eqb_sym, Hc. f_equal. by apply IH.
Qed.

Lemma unquote_bytes_quote bs : forallb is_byte bs = true -> unquote_to_bytes (flat_map quote_byte bs) = bs.
Proof.
  induction bs as [|b bs IH]; [done|]. cbn [forallb flat_map]. intros [Hb Hs]%andb_true_iff. unfold quote_byte at 1.
  destruct (unreserved b) eqn:E.
  - apply unreserved_facts in E. cbn [app unquote_to_bytes]. z_tests. by rewrite IH.
  - unfold is_byte in Hb. bool_to_prop. pose proof (Z.mod_pos_bound b 16). pose proof (Z.div_mod b 16).
    assert (0 <= b / 16 < 16) by (split; [apply Z.div_pos|apply Z.div_lt_upper_bound]; lia).
    cbn [app unquote_to_bytes]. z_tests. rewrite !hex_upper_value, IH by (done || lia). f_equal. lia.
Qed.

(** ** Facts: [unquote] *)

Definition ascii (c : Z) : bool := c <? 128.

Lemma unquote_parts_ascii run s : forallb ascii s = true -> unquote_parts run s = unquote_run (run ++ s).
Proof.
  revert run. induction s as [|c s IH]; intros run; cbn [forallb unquote_parts]; [by rewrite app_nil_r|].
  intros [Hc Hs]%andb_true_iff. unfold ascii in Hc. by rewrite Hc, IH, <- app_assoc.
Qed.

Lemma unquote_to_bytes_lacks s : lacks 37 s = true -> unquote_to_bytes s = s.
Proof.
  induction s as [|c s IH]; [done|]. rewrite lacks_cons, (Z.eqb_sym 37). intros [Hc%negb_true_iff Hs]%andb_true_iff.
  cbn [unquote_to_bytes]. by rewrite Hc, IH.
Qed.

Lemma utf8_bytes_ascii s : forallb ascii s = true -> utf8_bytes s = s.
Proof.
  induction s as [|c s IH]; [done|]. cbn [forallb]. intros [Hc Hs]%andb_true_iff. unfold utf8_bytes, utf8_char, ascii in *.
  cbn [flat_map]. rewrite Hc. cbn [app]. f_equal. by apply IH.
Qed.

Lemma utf8_replace_ascii_text s : forallb ascii s = true -> utf8_replace s = s.
Proof.
  induction s as [|c s IH]; [done|]. cbn [forallb]. intros [Hc Hs]%andb_true_iff. unfold ascii in Hc. bool_to_prop.
  by rewrite utf8_replace_ascii, IH.
Qed.

Lemma unquote_run_decode s : forallb ascii s = true -> unquote s = unquote_run s.
Proof.
  intros Hs. unfold unquote. destruct (existsb (Z.eqb 37) s) eqn:E; [by rewrite unquote_parts_ascii|].
  unfold unquote_run. rewrite unquote_to_bytes_lacks, utf8_replace_ascii_text; [done..|]. unfold lacks. by rewrite E.
Qed.

Lemma quoted_ascii s : forallb scalar s = true -> forallb ascii (quote s) = true.
Proof.
  intros Hs%quote_chars. rewrite forallb_forall in *. intros c Hc%Hs%quoted_char_facts. apply Z.ltb_lt. lia.
Qed.

Lemma quote_scalar s : forallb scalar s = true -> forallb scalar (quote s) = true.
Proof.
  intros Hs%quote_chars. rewrite forallb_forall in *. intros c Hc%Hs%quoted_char_facts. apply scalar_spec. lia.
Qed.

Lemma unquote_quote s : forallb scalar s = true -> unquote (plus_to_space (quote s)) = s.
Proof.
  intros Hs. rewrite plus_to_space_id by by apply quote_lacks.
  rewrite unquote_run_decode by by apply quoted_ascii. unfold unquote_run, quote.
  rewrite unquote_bytes_quote by by apply utf8_bytes_range. by apply utf8_replace_bytes.
Qed.

(** The first character, unless it is a percent sign, survives. *)
Lemma unquote_to_bytes_head c s : c <> 37 -> unquote_to_bytes (c :: s) = c :: unquote_to_bytes s.
Proof. intros Hc. cbn [unquote_to_bytes]. by z_tests. Qed.

Lemma unquote_parts_head c run s : c < 128 -> c <> 37 ->
  exists r, unquote_parts (c :: run) s = c :: r.
Proof.
  intros Hc Hp. revert run. induction s as [|x s IH]; intros run; cbn [unquote_parts].
  - eexists. unfold unquote_run. by rewrite unquote_to_bytes_head, utf8_replace_ascii.
  - destruct (x <? 128); [apply (IH (run ++ [x]))|]. eexists. unfold unquote_run.
    by rewrite unquote_to_bytes_head, utf8_replace_ascii.
Qed.

Lemma unquote_head c s : c < 128 -> c <> 37 -> exists r, unquote (c :: s) = c :: r.
Proof.
  intros Hc Hp. unfold unquote. destruct (existsb _ _); [|by eexists]. cbn [unquote_parts]. z_tests.
  by apply unquote_parts_head.
Qed.

(** Only the empty text decodes to the empty text. *)
Lemma unquote_to_bytes_nonempty c s : unquote_to_bytes (c :: s) <> [].
Proof. cbn [unquote_to_bytes]. repeat case_match; congruence. Qed.

Lemma unquote_run_nonempty c s : unquote_run (c :: s) <> [].
Proof.
  unfold unquote_run. destruct (unquote_to_bytes (c :: s)) as [|b bs] eqn:E; [by apply unquote_to_bytes_nonempty in E|].
  apply utf8_replace_nonempty.
Qed.

Lemma unquote_parts_nonempty run s : run <> [] \/ s <> [] -> unquote_parts run s <> [].
Proof.
  revert run. induction s as [|c s IH]; intros run Hr; cbn [unquote_parts].
  - destruct run as [|x run]; [by destruct Hr|]. apply unquote_run_nonempty.
  - destruct (c <? 128); [|intros H; by apply app_eq_nil in H as [_ [=]]]. apply IH. left. by destruct run.
Qed.

Lemma form_value_empty s : unquote (plus_to_space s) = [] <-> s = [].
Proof.
  split; [|by intros ->]. intros H. destruct s as [|c s]; [done|]. exfalso. revert H. unfold unquote.
  cbn [plus_to_space map]. destruct (existsb _ _); [|done]. apply unquote_parts_nonempty. by right.
Qed.

(** ** Forms *)

(** [quote(k) + "=" + quote(v)] of each field, joined by ["&"]. *)
Definition field_text (kv : text * text) : text := quote (fst kv) ++ 61 :: quote (snd kv).

Fixpoint urlencode (kvs : list (text * text)) : text :=
  match kvs with
  | [] => []
  | [kv] => field_text kv
  | kv :: kvs' => field_text kv ++ 38 :: urlencode kvs'
  end.

Definition scalar_field (kv : text * text) : bool := forallb scalar (fst kv) && forallb scalar (snd kv).

Lemma urlencode_scalar kvs : forallb scalar_field kvs = true -> forallb scalar (urlencode kvs) = true.
Proof.
  assert (Hf : forall kv, scalar_field kv = true -> forallb scalar (field_text kv) = true).
  { intros [k v] [Hk Hv]%andb_true_iff. unfold field_text. cbn [fst snd] in *. rewrite forallb_app. cbn [forallb].
    by rewrite !quote_scalar. }
  induction kvs as [|kv kvs IH]; [done|]. cbn [forallb]. intros [Hkv Hs]%andb_true_iff. destruct kvs as [|kv' kvs].
  - by apply Hf.
  - change (urlencode (kv :: kv' :: kvs)) with (field_text kv ++ 38 :: urlencode (kv' :: kvs)).
    rewrite forallb_app, Hf by done. cbn [forallb andb]. by apply IH.
Qed.

Lemma form_field_text kv : scalar_field kv = true -> form_field (field_text kv) = Some kv.
Proof.
  destruct kv as [k v]. intros [Hk Hv]%andb_true_iff. cbn in Hk, Hv. unfold form_field, field_text. cbn [fst snd].
  rewrite text_partition_app by by apply quote_lacks. by rewrite !unquote_quote.
Qed.

Lemma field_text_lacks kv : scalar_field kv = true -> lacks 38 (field_text kv) = true.
Proof.
  destruct kv as [k v]. intros [Hk Hv]%andb_true_iff. unfold field_text. cbn [fst snd] in *.
  rewrite lacks_app, lacks_cons, !quote_lacks by done. done.
Qed.

Lemma form_fields_split kvs : kvs <> [] -> forallb scalar_field kvs = true ->
  form_fields (text_split 38 (urlencode kvs)) = Some kvs.
Proof.
  induction kvs as [|kv kvs IH]; [done|]. intros _. cbn [forallb]. intros [Hkv Hs]%andb_true_iff.
  destruct kvs as [|kv' kvs].
  - cbn [urlencode]. rewrite text_split_lacks by by apply field_text_lacks. cbn [form_fields]. by rewrite form_field_text.
  - change (urlencode (kv :: kv' :: kvs)) with (field_text kv ++ 38 :: urlencode (kv' :: kvs)).
    rewrite text_split_app by by apply field_text_lacks. cbn [form_fields]. by rewrite form_field_text, IH.
Qed.

Lemma parse_qsl_urlencode kvs : forallb scalar_field kvs = true -> parse_qsl (urlencode kvs) = Some kvs.
Proof.
  intros Hs. destruct kvs as [|kv kvs]; [done|]. unfold parse_qsl.
  destruct (urlencode (kv :: kvs)) as [|c s] eqn:E; [|rewrite <- E; by apply form_fields_split].
  exfalso. destruct kvs; cbn [urlencode] in E; unfold field_text in E; destruct (quote (fst kv)); discriminate E.
Qed.

(** One pair, when no ["&"] occurs. *)
Lemma parse_qsl_single s : s <> [] -> lacks 38 s = true ->
  parse_qsl s = option_map (fun kv => [kv]) (form_field s).
Proof.
  intros Hne Hs. unfold parse_qsl. destruct s as [|c s]; [done|]. rewrite text_split_lacks by done. cbn [form_fields].
  by destruct (form_field (c :: s)).
Qed.
