(* ===== verification/JsonText.v ===== *)
(** [json.loads] of the Python standard library on a [str].

    The scanner accepts what Python's does: any of the four JSON spaces
    around tokens, [NaN] and the infinities, lone surrogates in escapes, the
    last of several equal keys; control characters inside strings, trailing
    commas and a leading byte order mark are errors. An integer of more than
    4300 digits is a [ValueError]; nesting deeper than the interpreter's
    recursion limit, an argument, is a [RecursionError]. Both are [None], as
    the callers treat them alike. The value of a number with a fraction or an
    exponent is never looked at and not kept. *)

From S2P Require Import Prelude PyText Unicode.

#[warnings="-register-all"]
Inductive Value :=
  | VNull
  | VBool (b : bool)
  | VInt (z : Z)
  | VFloat
  | VStr (s : text)
  | VList (l : list Value)
  | VDict (d : list (text * Value)).

Definition vdict : Type := list (text * Value).

(** [d[k]] where present; keys of a dictionary are unique. *)
Fixpoint vget (k : text) (d : vdict) : option Value :=
  match d with
  | [] => None
  | (k', v) :: d' => if text_eqb k k' then Some v else vget k d'
  end.

(** [d[k] = v]. *)
Fixpoint vset (k : text) (v : Value) (d : vdict) : vdict :=
  match d with
  | [] => [(k, v)]
  | (k', v') :: d' => if text_eqb k k' then (k', v) :: d' else (k', v') :: vset k v d'
  end.

Definition json_space (c : Z) : bool := existsb (Z.eqb c) [32; 9; 10; 13].
Definition skip : text -> text := drop_while json_space.

(** ** Strings *)

Definition simple_escape (c : Z) : option Z :=
  if existsb (Z.eqb c) [34; 92; 47] then Some c
  else if c =? 98 then Some 8 else if c =? 102 then Some 12 else if c =? 110 then Some 10
  else if c =? 114 then Some 13 else if c =? 116 then Some 9 else None.

Definition hex4 (a b c d : Z) : option Z :=
  match hex_digit_value a, hex_digit_value b, hex_digit_value c, hex_digit_value d with
  | Some x, Some y, Some z, Some w => Some (((x * 16 + y) * 16 + z) * 16 + w)
  | _, _, _, _ => None
  end.

(** The code point of the high half [n] and the escape that follows it. *)
Definition surrogate_pair (n b v a1 a2 a3 a4 : Z) : option Z :=
  if (55296 <=? n) && (n <=? 56319) && (b =? 92) && (v =? 117) then
    match hex4 a1 a2 a3 a4 with
    | Some m => if (56320 <=? m) && (m <=? 57343) then Some (65536 + (n - 55296) * 1024 + (m - 56320)) else None
    | None => None
    end
  else None.

Definition push (c : Z) (r : option (text * text)) : option (text * text) :=
  match r with Some (s, rest) => Some (c :: s, rest) | None => None end.

(** The string after its opening quote, and what follows the closing one. *)
Fixpoint scanstring (s : text) : option (text * text) :=
  match s with
  | [] => None
  | c :: s1 =>
      if c =? 34 then Some ([], s1)
      else if c =? 92 then
        match s1 with
        | [] => None
        | e :: s2 =>
            if e =? 117 then
              match s2 with
              | h1 :: h2 :: h3 :: h4 :: s3 =>
                  match hex4 h1 h2 h3 h4 with
                  | None => None
                  | Some n =>
                      match s3 with
                      | b :: v :: a1 :: a2 :: a3 :: a4 :: s4 =>
                          match surrogate_pair n b v a1 a2 a3 a4 with
                          | Some m => push m (scanstring s4)
                          | None => push n (scanstring s3)
                          end
                      | _ => push n (scanstring s3)
                      end
                  end
              | _ => None
              end
            else
              match simple_escape e with
              | Some x => push x (scanstring s2)
              | None => None
              end
        end
      else if c <? 32 then None
      else push c (scanstring s1)
  end.

(** ** Numbers *)

(** The digits after a decimal point, if there are any. *)
Definition fraction (s : text) : option text :=
  match s with
  | p :: d :: s' => if (p =? 46) && ascii_digit d then Some (drop_while ascii_digit s') else None
  | _ => None
  end.

Definition exponent (s : text) : option text :=
  match s with
  | e :: s1 =>
      if (e =? 101) || (e =? 69) then
        let s2 := match s1 with g :: s2 => if (g =? 45) || (g =? 43) then s2 else s1 | [] => s1 end in
        match s2 with d :: s3 => if ascii_digit d then Some (drop_while ascii_digit s3) else None | [] => None end
      else None
  | [] => None
  end.

(** The integer part without its sign. *)
Definition integer_part (s : text) : option (text * text) :=
  match s with
  | c :: s' =>
      if c =? 48 then Some ([c], s')
      else if ascii_digit c then Some (c :: take_while ascii_digit s', drop_while ascii_digit s')
      else None
  | [] => None
  end.

Definition scan_number (s : text) : option (Value * text) :=
  let '(negative, s1) := match s with c :: s' => if c =? 45 then (true, s') else (false, s) | [] => (false, s) end in
  match integer_part s1 with
  | None => None
  | Some (ds, r) =>
      let '(r1, frac) := match fraction r with Some r1 => (r1, true) | None => (r, false) end in
      let '(r2, expo) := match exponent r1 with Some r2 => (r2, true) | None => (r1, false) end in
      if frac || expo then Some (VFloat, r2)
      else match int_of_decimal ds with
           | Some n => Some (VInt (if negative then - n else n), r2)
           | None => None
           end
  end.

Fixpoint after_prefix (p s : text) : option text :=
  match p, s with
  | [], _ => Some s
  | x :: p', y :: s' => if x =? y then after_prefix p' s' else None
  | _ :: _, [] => None
  end.

Fixpoint scan_word (ws : list (text * Value)) (s : text) : option (Value * text) :=
  match ws with
  | [] => None
  | (w, v) :: ws' => match after_prefix w s with Some r => Some (v, r) | None => scan_word ws' s end
  end.

Definition words : list (text * Value) :=
  [(u "null", VNull); (u "true", VBool true); (u "false", VBool false);
   (u "NaN", VFloat); (u "Infinity", VFloat); (u "-Infinity", VFloat)].

(** ** Containers *)

Section Containers.
Variable scan : text -> option (Value * text).

(** The members of an object from a key on; [fuel] bounds their number. *)
Fixpoint members (fuel : nat) (acc : vdict) (s : text) : option (Value * text) :=
  match fuel, s with
  | S fuel', q :: s1 =>
      if negb (q =? 34) then None
      else match scanstring s1 with
      | None => None
      | Some (k, s2) =>
          match skip s2 with
          | colon :: s3 =>
              if negb (colon =? 58) then None
              else match scan (skip s3) with
              | None => None
              | Some (v, s4) =>
                  match skip s4 with
                  | c :: s5 =>
                      if c =? 125 then Some (VDict (vset k v acc), s5)
                      else if c =? 44 then members fuel' (vset k v acc) (skip s5)
                      else None
                  | [] => None
                  end
              end
          | [] => None
          end
      end
  | _, _ => None
  end.

(** The elements of an array from a value on. *)
Fixpoint elements (fuel : nat) (acc : list Value) (s : text) : option (Value * text) :=
  match fuel with
  | O => None
  | S fuel' =>
      match scan s with
      | None => None
      | Some (v, s1) =>
          match skip s1 with
          | c :: s2 =>
              if c =? 93 then Some (VList (acc ++ [v]), s2)
              else if c =? 44 then elements fuel' (acc ++ [v]) (skip s2)
              else None
          | [] => None
          end
      end
  end.

Definition scan_object (s : text) : option (Value * text) :=
  match skip s with
  | [] => None
  | c :: r => if c =? 125 then Some (VDict [], r) else members (length s) [] (c :: r)
  end.

Definition scan_array (s : text) : option (Value * text) :=
  match skip s with
  | [] => None
  | c :: r => if c =? 93 then Some (VList [], r) else elements (length s) [] (c :: r)
  end.
End Containers.

(** [scan_once], with [depth] containers to go before the recursion limit. *)
Fixpoint scan_once (depth : nat) (s : text) : option (Value * text) :=
  match s with
  | [] => None
  | c :: s' =>
      if c =? 34 then match scanstring s' with Some (t, r) => Some (VStr t, r) | None => None end
      else if c =? 123 then match depth with S d => scan_object (scan_once d) s' | O => None end
      else if c =? 91 then match depth with S d => scan_array (scan_once d) s' | O => None end
      else match scan_word words s with Some r => Some r | None => scan_number s end
  end.

Definition BOM : Z := 65279.

Definition json_loads (depth : nat) (s : text) : option Value :=
  if starts_with BOM s then None
  else match scan_once depth (skip s) with
       | Some (v, r) => match skip r with [] => Some v | _ => None end
       | None => None
       end.

(** ** Facts: what a scan consumes *)

(** [r] is what is left of [s] once something was read. *)
Definition consumed (s r : text) : Prop := exists p, p <> [] /\ s = p ++ r.
Definition leaves (s r : text) : Prop := exists p, s = p ++ r.

Lemma leaves_refl s : leaves s s.
Proof. by exists []. Qed.
Lemma leaves_trans a b c : leaves a b -> leaves b c -> leaves a c.
Proof. intros [p ->] [q ->]. exists (p ++ q). by rewrite app_assoc. Qed.
Lemma leaves_cons x s r : leaves s r -> leaves (x :: s) r.
Proof. intros [p ->]. by exists (x :: p). Qed.
Lemma consumed_leaves s r : consumed s r -> leaves s r.
Proof. intros (p & _ & ->). by exists p. Qed.
Lemma consumed_cons x s r : leaves s r -> consumed (x :: s) r.
Proof. intros [p ->]. by exists (x :: p). Qed.
Lemma consumed_trans a b c : consumed a b -> leaves b c -> consumed a c.
Proof.
  intros (p & Hp & ->) [q ->]. exists (p ++ q). rewrite app_assoc. split; [|done]. by destruct p.
Qed.
Lemma leaves_consumed a b c : leaves a b -> consumed b c -> consumed a c.
Proof.
  intros [p ->] (q & Hq & ->). exists (p ++ q). rewrite app_assoc. split; [|done]. intros [_ ?]%app_eq_nil. done.
Qed.
Lemma consumed_length s r : consumed s r -> (length r < length s)%nat.
Proof. intros (p & Hp & ->). rewrite length_app. destruct p; [done|]. cbn. lia. Qed.

Create HintDb json.
#[local] Hint Resolve leaves_refl leaves_cons consumed_leaves consumed_cons : json.

Lemma drop_while_leaves p s : leaves s (drop_while p s).
Proof. induction s as [|c s IH]; cbn; [auto with json|]. destruct (p c); auto with json. Qed.

Lemma drop_while_back p a s r : leaves (drop_while p s) r -> leaves (a :: s) r.
Proof. intros H. apply leaves_cons. eapply leaves_trans; [apply drop_while_leaves|done]. Qed.

Lemma skip_leaves s : leaves s (skip s).
Proof. apply drop_while_leaves. Qed.

(** Reading on after spaces. *)
Lemma skip_cons_leaves s c r : skip s = c :: r -> leaves s (c :: r).
Proof. intros <-. apply skip_leaves. Qed.

Lemma push_Some c r s rest : push c r = Some (s, rest) -> exists s', r = Some (s', rest) /\ s = c :: s'.
Proof. destruct r as [[s' rest']|]; [|done]. cbn. intros [= <- <-]. eauto. Qed.

Lemma scanstring_consumed s t r : scanstring s = Some (t, r) -> consumed s r.
Proof.
  revert t r. induction (well_founded_ltof _ (@length Z) s) as [[|c s] _ IH]; [done|]. unfold ltof in IH.
  intros t r. cbn [scanstring]. repeat case_match; try done; subst;
    try (intros [= <- <-]; auto with json; fail);
    intros (t' & Ht & _)%push_Some; apply IH in Ht; cbn; try lia; apply consumed_leaves in Ht; eauto 20 with json.
Qed.

Lemma integer_part_leaves s ds r : integer_part s = Some (ds, r) -> consumed s r.
Proof.
  unfold integer_part. destruct s as [|c s]; [done|]. destruct (c =? 48); [intros [= <- <-]; auto with json|].
  destruct (ascii_digit c); [|done]. intros [= <- <-]. apply consumed_cons, drop_while_leaves.
Qed.

Lemma fraction_leaves s r : fraction s = Some r -> leaves s r.
Proof.
  unfold fraction. repeat case_match; try done. intros [= <-]. apply leaves_cons, (drop_while_back _ _ _ _ (leaves_refl _)).
Qed.

Lemma exponent_leaves s r : exponent s = Some r -> leaves s r.
Proof.
  unfold exponent. destruct s as [|e s]; [done|]. destruct ((e =? 101) || (e =? 69)); [|done].
  assert (H : forall t, leaves s t -> match t with
    | d :: s3 => if ascii_digit d then Some (drop_while ascii_digit s3) else None | [] => None end = Some r -> leaves (e :: s) r).
  { intros [|d t] Hs; [done|]. destruct (ascii_digit d); [|done]. intros [= <-]. apply leaves_cons.
    eapply leaves_trans; [exact Hs|]. apply leaves_cons, drop_while_leaves. }
  destruct s as [|g s]; [done|]. intros Hr. destruct ((g =? 45) || (g =? 43)); eapply H; try exact Hr; auto with json.
Qed.

Lemma scan_number_consumed s v r : scan_number s = Some (v, r) -> consumed s r /\ forall d, v <> VDict d.
Proof.
  unfold scan_number.
  destruct (match s with c :: s' => if c =? 45 then (true, s') else (false, s) | [] => (false, s) end) as [neg s1] eqn:E1.
  assert (H1 : leaves s s1).
  { destruct s as [|c s]; [injection E1 as <- <-; auto with json|]. destruct (c =? 45); injection E1 as <- <-; auto with json. }
  destruct (integer_part s1) as [[ds r0]|] eqn:E2; [|done]. apply integer_part_leaves in E2.
  destruct (match fraction r0 with Some r1 => (r1, true) | None => (r0, false) end) as [r1 frac] eqn:E3.
  assert (H3 : leaves r0 r1).
  { destruct (fraction r0) eqn:E; injection E3 as <- <-; [by apply fraction_leaves|auto with json]. }
  destruct (match exponent r1 with Some r2 => (r2, true) | None => (r1, false) end) as [r2 expo] eqn:E4.
  assert (H4 : leaves r1 r2).
  { destruct (exponent r1) eqn:E; injection E4 as <- <-; [by apply exponent_leaves|auto with json]. }
  assert (H : consumed s r2).
  { eapply leaves_consumed; [exact H1|]. eapply consumed_trans; [exact E2|]. eapply leaves_trans; eassumption. }
  destruct (frac || expo); [intros [= <- <-]; done|].
  destruct (int_of_decimal ds); [|done]. intros [= <- <-]. done.
Qed.

Lemma after_prefix_eq p s r : after_prefix p s = Some r -> s = p ++ r.
Proof.
  revert s. induction p as [|x p IH]; intros [|y s]; cbn; try done; [by intros [= <-]|by intros [= <-]|].
  destruct (x =? y) eqn:E; [|done]. apply Z.eqb_eq in E as <-. by intros ->%IH.
Qed.

Lemma scan_word_consumed ws s v r : forallb (fun w => negb (text_eqb (fst w) [])) ws = true ->
  scan_word ws s = Some (v, r) -> consumed s r /\ In v (map snd ws).
Proof.
  induction ws as [|[w x] ws IH]; [done|]. cbn. intros [Hw Hws]%andb_true_iff.
  destruct (after_prefix w s) as [r'|] eqn:E.
  - intros [= <- <-]. apply after_prefix_eq in E as ->. split; [|by left]. exists w. split; [|done].
    by intros ->.
  - intros [H1 H2]%IH; [|done]. auto.
Qed.

(** What a scanner of values guarantees; a dictionary ends in a brace. *)
Definition good_scan (scan : text -> option (Value * text)) : Prop :=
  forall s v r, scan s = Some (v, r) -> consumed s r.

Section ContainerFacts.
Context {scan : text -> option (Value * text)} (Hscan : good_scan scan).

(** The object from [s] on is closed by a brace right before [r]. *)
Lemma members_end fuel acc s v r : members scan fuel acc s = Some (v, r) -> exists p, s = p ++ 125 :: r.
Proof.
  revert acc s. induction fuel as [|fuel IH]; intros acc s; [done|]. destruct s as [|q s1]; [done|]. cbn [members].
  destruct (negb (q =? 34)); [done|]. destruct (scanstring s1) as [[k s2]|] eqn:E1; [|done].
  apply scanstring_consumed in E1. destruct (skip s2) as [|colon s3] eqn:E2; [done|]. apply skip_cons_leaves in E2.
  destruct (negb (colon =? 58)); [done|]. destruct (scan (skip s3)) as [[w s4]|] eqn:E3; [|done].
  apply Hscan in E3. destruct (skip s4) as [|c s5] eqn:E4; [done|]. apply skip_cons_leaves in E4.
  assert (H : leaves (q :: s1) (c :: s5)).
  { apply leaves_cons. eapply leaves_trans; [by apply consumed_leaves|]. eapply leaves_trans; [exact E2|].
    apply leaves_cons. eapply leaves_trans; [apply skip_leaves|]. eapply leaves_trans; [by apply consumed_leaves|done]. }
  destruct (c =? 125) eqn:Ec.
  - apply Z.eqb_eq in Ec as ->. by intros [= <- <-].
  - destruct (c =? 44); [|done]. intros [p Hp]%IH. destruct H as [q1 ->], (skip_leaves s5) as [q2 Hq2].
    exists (q1 ++ c :: q2 ++ p). rewrite Hq2, Hp, <- app_assoc. cbn. by rewrite <- app_assoc.
Qed.

Lemma elements_consumed fuel acc s v r : elements scan fuel acc s = Some (v, r) -> consumed s r.
Proof.
  revert acc s. induction fuel as [|fuel IH]; intros acc s; [done|]. cbn [elements].
  destruct (scan s) as [[w s1]|] eqn:E1; [|done]. apply Hscan in E1.
  destruct (skip s1) as [|c s2] eqn:E2; [done|]. apply skip_cons_leaves in E2.
  destruct (c =? 93); [intros [= <- <-]|destruct (c =? 44); [intros H%IH|done]].
  - eapply consumed_trans; [exact E1|]. eapply leaves_trans; [exact E2|]. auto with json.
  - eapply consumed_trans; [exact E1|]. eapply leaves_trans; [exact E2|]. apply leaves_cons.
    eapply leaves_trans; [apply skip_leaves|by apply consumed_leaves].
Qed.

Lemma scan_object_end s v r : scan_object scan s = Some (v, r) -> exists p, s = p ++ 125 :: r.
Proof.
  unfold scan_object. destruct (skip s) as [|c s1] eqn:E; [done|]. apply skip_cons_leaves in E as [q ->].
  destruct (c =? 125) eqn:Ec.
  - apply Z.eqb_eq in Ec as ->. intros [= <- <-]. by exists q.
  - intros [p Hp]%members_end. exists (q ++ p). by rewrite Hp, app_assoc.
Qed.

Lemma scan_array_leaves s v r : scan_array scan s = Some (v, r) -> leaves s r.
Proof.
  unfold scan_array. destruct (skip s) as [|c s1] eqn:E; [done|]. apply skip_cons_leaves in E.
  destruct (c =? 93); [intros [= <- <-]|intros H%elements_consumed]; (eapply leaves_trans; [exact E|auto with json]).
Qed.

(** The fuel of the loops, the length of the text, is enough. *)
Lemma members_enough fuel acc s : (length s <= fuel)%nat ->
  members scan fuel acc s = members scan (length s) acc s.
Proof.
  cut (forall n m acc s, (length s <= n)%nat -> (length s <= m)%nat -> members scan n acc s = members scan m acc s); [eauto|].
  clear fuel acc s. induction n as [|n IH]; intros m acc s Hn Hm; (destruct s as [|q s1]; [by destruct m|]); cbn in Hn; [lia|].
  destruct m as [|m]; cbn in Hm; [lia|]. cbn [members]. destruct (negb (q =? 34)); [done|].
  destruct (scanstring s1) as [[k s2]|] eqn:E1; [|done]. apply scanstring_consumed, consumed_length in E1.
  destruct (skip s2) as [|colon s3] eqn:E2; [done|]. pose proof (skip_leaves s2) as [p2 H2]. rewrite E2 in H2.
  apply (f_equal length) in H2. rewrite length_app in H2. cbn in H2.
  destruct (negb (colon =? 58)); [done|]. pose proof (skip_leaves s3) as [p3 H3].
  apply (f_equal length) in H3. rewrite length_app in H3.
  destruct (scan (skip s3)) as [[w s4]|] eqn:E3; [|done]. apply Hscan, consumed_length in E3.
  pose proof (skip_leaves s4) as [p4 H4]. destruct (skip s4) as [|c s5]; [done|].
  apply (f_equal length) in H4. rewrite length_app in H4. cbn in H4.
  pose proof (skip_leaves s5) as [p5 H5]. apply (f_equal length) in H5. rewrite length_app in H5.
  destruct (c =? 125); [done|]. destruct (c =? 44); [|done]. apply IH; lia.
Qed.

Lemma scan_nothing : scan [] = None.
Proof. destruct (scan []) as [[v r]|] eqn:E; [|done]. apply Hscan, consumed_length in E. cbn in E. lia. Qed.

Lemma elements_enough fuel acc s : (length s <= fuel)%nat ->
  elements scan fuel acc s = elements scan (length s) acc s.
Proof.
  cut (forall n m acc s, (length s <= n)%nat -> (length s <= m)%nat -> elements scan n acc s = elements scan m acc s); [eauto|].
  clear fuel acc s. induction n as [|n IH]; intros m acc s Hn Hm.
  { destruct s; [|cbn in Hn; lia]. destruct m; [done|]. cbn [elements]. by rewrite scan_nothing. }
  destruct m as [|m]; [destruct s; [|cbn in Hm; lia]; cbn [elements]; by rewrite scan_nothing|]. cbn [elements].
  destruct (scan s) as [[w s1]|] eqn:E1; [|done]. apply Hscan, consumed_length in E1.
  pose proof (skip_leaves s1) as [p1 H1]. destruct (skip s1) as [|c s2]; [done|].
  apply (f_equal length) in H1. rewrite length_app in H1. cbn in H1.
  pose proof (skip_leaves s2) as [p2 H2]. apply (f_equal length) in H2. rewrite length_app in H2.
  destruct (c =? 93); [done|]. destruct (c =? 44); [|done]. apply IH; lia.
Qed.
End ContainerFacts.

Lemma scan_once_consumed depth : good_scan (scan_once depth).
Proof.
  induction depth as [|depth IH]; intros [|c s] v r; try done; cbn [scan_once].
  all: destruct (c =? 34);
    [destruct (scanstring s) as [[t r']|] eqn:E; [|done]; intros [= <- <-]; apply scanstring_consumed in E; auto with json|].
  all: destruct (c =? 123); [try done; try (intros [p ->]%(scan_object_end IH); apply consumed_cons; exists (p ++ [125]); by rewrite <- app_assoc)|].
  all: destruct (c =? 91); [try done; try (intros H%(scan_array_leaves IH); auto with json)|].
  all: destruct (scan_word words (c :: s)) as [[v' r']|] eqn:E;
    [intros [= <- <-]; by apply scan_word_consumed in E as [? _]|intros H; by apply scan_number_consumed in H as [? _]].
Qed.


(** ** Facts: objects *)

Lemma skip_spaces s : skip s = [] -> forallb json_space s = true.
Proof.
  induction s as [|c s IH]; [done|]. unfold skip. cbn -[json_space]. by destruct (json_space c).
Qed.

Lemma elements_not_dict scan fuel acc s d r : elements scan fuel acc s <> Some (VDict d, r).
Proof.
  revert acc s. induction fuel as [|fuel IH]; intros acc s; [done|]. cbn [elements].
  destruct (scan s) as [[w s1]|]; [|done]. destruct (skip s1) as [|c s2]; [done|].
  destruct (c =? 93); [done|]. destruct (c =? 44); [apply IH|done].
Qed.

Lemma scan_once_dict depth s d r : scan_once depth s = Some (VDict d, r) ->
  exists t p, s = 123 :: t /\ t = p ++ 125 :: r.
Proof.
  destruct s as [|c s]; [by destruct depth|]. intros H.
  assert (E : c = 123 \/ c <> 123) by lia. destruct E as [->|Hc].
  - destruct depth as [|depth]; [done|]. apply (scan_object_end (scan_once_consumed depth)) in H as [p Hp]. eauto.
  - exfalso. revert H. assert (Hb : (c =? 123) = false) by lia.
    destruct depth as [|depth]; cbn [scan_once]; rewrite Hb.
    all: destruct (c =? 34); [by destruct (scanstring s) as [[]|]|].
    all: destruct (c =? 91).
    all: try done.
    all: try (unfold scan_array; destruct (skip s) as [|x s1]; [done|]; destruct (x =? 93); [done|]; apply elements_not_dict).
    all: destruct (scan_word words (c :: s)) as [[v' r']|] eqn:E;
      [apply scan_word_consumed in E as [_ E]; [|done]; intros [= -> ->]; cbn in E; repeat destruct E as [E|E]; done
      |intros H; apply scan_number_consumed in H as [_ H]; by eapply H].
Qed.

(** A text that is one JSON object: it opens with a brace after JSON spaces
    and closes with one before them. *)
Lemma json_object_shape depth s d : json_loads depth s = Some (VDict d) ->
  (exists t, skip s = 123 :: t) /\ exists p w, s = p ++ 125 :: w /\ forallb json_space w = true.
Proof.
  unfold json_loads. destruct (starts_with BOM s); [done|]. destruct (scan_once depth (skip s)) as [[v r]|] eqn:E; [|done].
  destruct (skip r) eqn:Er; [|done]. intros [= ->]. apply scan_once_dict in E as (t & p & Ht & Hp).
  split; [by exists t|]. destruct (skip_leaves s) as [q Hq]. exists (q ++ 123 :: p), r.
  split; [|by apply skip_spaces]. by rewrite Hq, Ht, Hp, <- app_assoc.
Qed.

Lemma ends_with_app c p s : s <> [] -> ends_with c (p ++ s) = ends_with c s.
Proof.
  intros Hs. unfold ends_with. rewrite rev_app_distr. destruct (rev s) eqn:E; [|done].
  apply (f_equal (@rev Z)) in E. by rewrite rev_involutive in E.
Qed.

Lemma json_object_end depth s d c : json_loads depth s = Some (VDict d) -> c <> 125 -> json_space c = false ->
  ends_with c s = false.
Proof.
  intros [_ (p & w & -> & Hw)]%json_object_shape Hc Hs. rewrite ends_with_app by done.
  induction w as [|x w IH] using rev_ind; [by apply Z.eqb_neq|]. clear IH.
  unfold ends_with. cbn [rev]. rewrite rev_app_distr. cbn. apply Z.eqb_neq. intros ->.
  rewrite forallb_app in Hw. apply andb_true_iff in Hw as [_ Hw]. cbn -[json_space] in Hw. by rewrite Hs in Hw.
Qed.

(** The first character is a brace or a JSON space. *)
Lemma json_object_head depth s d : json_loads depth s = Some (VDict d) ->
  exists c t, s = c :: t /\ (c = 123 \/ json_space c = true).
Proof.
  intros [[t Ht] _]%json_object_shape. destruct s as [|c s]; [done|]. exists c, s. split; [done|].
  unfold skip in Ht. cbn -[json_space] in Ht. destruct (json_space c); [by right|]. left. congruence.
Qed.

Lemma json_space_white c : json_space c = true -> white c = true.
Proof. unfold json_space, white. cbn [existsb]. intros H. bool_to_prop. apply orb_true_iff. left. lia. Qed.

Lemma lstrip_object depth s d : json_loads depth s = Some (VDict d) -> starts_with 123 (text_lstrip s) = true.
Proof.
  intros [[t Ht] _]%json_object_shape. revert Ht. unfold skip, text_lstrip.
  induction s as [|c s IH]; [done|]. cbn -[json_space white]. destruct (json_space c) eqn:E.
  - rewrite (json_space_white _ E). exact IH.
  - intros [= -> ->]. done.
Qed.

(** ** Facts: escapes *)

Definition hex_lower (d : Z) : Z := if d <? 10 then 48 + d else 87 + d.

(** One character in [json.dumps(..., ensure_ascii=False)]. *)
Definition escape_char (c : Z) : text :=
  if c =? 34 then [92; 34] else if c =? 92 then [92; 92] else if c =? 10 then [92; 110]
  else if c =? 13 then [92; 114] else if c =? 9 then [92; 116] else if c =? 12 then [92; 102]
  else if c =? 8 then [92; 98]
  else if c <? 32 then [92; 117; 48; 48; hex_lower (c / 16); hex_lower (c mod 16)]
  else [c].

(** [json.dumps(s, ensure_ascii=False)] of a string. *)
Definition quote_json (s : text) : text := 34 :: flat_map escape_char s ++ [34].

Lemma hex_lower_value d : 0 <= d < 16 -> hex_digit_value (hex_lower d) = Some d.
Proof.
  intros Hd. unfold hex_lower, hex_digit_value. destruct (d <? 10) eqn:E; bool_to_prop; z_tests; f_equal; lia.
Qed.

Lemma hex4_low c : 0 <= c < 32 -> hex4 48 48 (hex_lower (c / 16)) (hex_lower (c mod 16)) = Some c.
Proof.
  intros Hc. pose proof (Z.mod_pos_bound c 16). pose proof (Z.div_mod c 16). unfold hex4.
  assert (0 <= c / 16 < 16) by (split; [apply Z.div_pos|apply Z.div_lt_upper_bound]; lia).
  rewrite !hex_lower_value by lia.
  cbn. f_equal. lia.
Qed.

Lemma scanstring_u n h1 h2 h3 h4 s : hex4 h1 h2 h3 h4 = Some n -> n < 55296 ->
  scanstring (92 :: 117 :: h1 :: h2 :: h3 :: h4 :: s) = push n (scanstring s).
Proof.
  intros Hn Hlt. cbn -[hex4 surrogate_pair]. rewrite Hn.
  destruct s as [|b [|v [|a1 [|a2 [|a3 [|a4 s]]]]]]; try done.
  replace (surrogate_pair n b v a1 a2 a3 a4) with (@None Z); [done|]. unfold surrogate_pair. by z_tests.
Qed.

Lemma scanstring_escape c s : 0 <= c -> scanstring (escape_char c ++ s) = push c (scanstring s).
Proof.
  intros Hc. unfold escape_char.
  repeat match goal with |- context [if c =? ?k then _ else _] =>
    destruct (c =? k) eqn:?; bool_to_prop; [subst; reflexivity|] end.
  destruct (c <? 32) eqn:E; bool_to_prop; cbn [app].
  - apply scanstring_u; [apply hex4_low; lia|lia].
  - cbn [scanstring]. by z_tests.
Qed.

Lemma scanstring_escapes s r : forallb (Z.leb 0) s = true ->
  scanstring (flat_map escape_char s ++ 34 :: r) = Some (s, r).
Proof.
  induction s as [|c s IH]; [done|]. cbn [forallb flat_map]. intros [Hc Hs]%andb_true_iff.
  rewrite <- app_assoc, scanstring_escape, IH by (done || lia). done.
Qed.

Lemma json_string_round_trip depth s : forallb (Z.leb 0) s = true -> json_loads depth (quote_json s) = Some (VStr s).
Proof.
  intros Hs. unfold json_loads, quote_json. change (skip (34 :: ?t)) with (34 :: t). cbn [starts_with].
  assert (E : scan_once depth (34 :: flat_map escape_char s ++ [34]) = Some (VStr s, [])).
  { destruct depth; cbn -[scanstring]; by rewrite scanstring_escapes. }
  replace (34 =? BOM) with false by done. change (skip (34 :: flat_map escape_char s ++ [34])) with (34 :: flat_map escape_char s ++ [34]).
  by rewrite E.
Qed.

Lemma escape_scalar s : forallb scalar s = true -> forallb scalar (quote_json s) = true.
Proof.
  intros Hs. unfold quote_json. cbn [forallb]. rewrite forallb_app. cbn. rewrite andb_true_r.
  induction s as [|c s IH]; [done|]. cbn [forallb flat_map] in *. apply andb_true_iff in Hs as [Hc Hs].
  rewrite forallb_app, IH, andb_true_r by done. unfold escape_char.
  repeat match goal with |- context [if ?b then _ else _] => destruct b eqn:?; [try reflexivity|] end.
  - apply scalar_spec in Hc. bool_to_prop.
    assert (Hh : forall d, 0 <= d < 16 -> scalar (hex_lower d) = true).
    { intros d Hd. apply scalar_spec. unfold hex_lower. destruct (d <? 10) eqn:E; bool_to_prop; lia. }
    cbn [forallb]. rewrite !Hh; [done|apply Z.mod_pos_bound; lia|]. split; [apply Z.div_pos|apply Z.div_lt_upper_bound]; lia.
  - cbn. by rewrite Hc.
Qed.

Lemma scalar_nonneg s : forallb scalar s = true -> forallb (Z.leb 0) s = true.
Proof. rewrite !forallb_forall. intros H c Hc%H%scalar_spec. lia. Qed.

(** Quotation marks written as apostrophes. *)
Definition q (s : string) : text := map (fun c => if c =? 39 then 34 else c) (u s).

Example json_ex : json_loads 3 (q " {'a': [1, -2.5e3, null], 'b': 'x\u00e9\n', 'a': true}") =
  Some (VDict [(u "a", VBool true); (u "b", VStr [120; 233; 10])]).
Proof. vm_compute. reflexivity. Qed.
Example json_bad : map (fun s => json_loads 2 (q s)) ["[1,]"; "{'a':1,}"; "01"; "1."; "[[[1]]]"; "[1] x"; ""] = repeat None 7.
Proof. vm_compute. reflexivity. Qed.
