(* ===== verification/Body.v ===== *)
(** The request decoder of [POST /api/custom-payment]
    ([app/api/payments.py], up to [parse_create_payment_request]).

    A body is bytes in chunks. It is decoded as JSON (with at most one
    extra layer), as a form, or as one of the legacy shapes of either,
    reduced to the three required fields, and validated strictly; the
    optional Telegram id comes from an alias in the body or the query.

    Arguments stand for what is not in the source: [max_depth], how many
    nested containers the interpreter's recursion limit allows;
    [plain_str_ok], which texts the validation library takes as a plain
    [StrictStr]; [query_get], the query parameters. The log records of a
    refusal are part of the result, as a [Rejection]. *)

From S2P Require Import Prelude PyText Identity Unicode JsonText.

(** ** Constants *)

Definition MAX_BODY_BYTES : Z := 64 * 1024.
Definition REQUIRED_FIELDS : list text := map u ["api_key"; "amount"; "order_id"].
Definition ALIAS_FIELDS : list text := map u ["user_id"; "userId"; "uid"; "chat_id"; "telegram_id"].
Definition MAX_FORM_PAIRS : nat := 32.

Definition member (k : text) (l : list text) : bool := existsb (text_eqb k) l.

(** ** Requests and outcomes *)

Record HttpRequest := mkHttpRequest {
  content_type : option text;
  content_length : option text;
  chunks : list (list Z);
  query_get : text -> option text
}.

Record CreatePaymentRequest := mkCreate {
  api_key : text;
  amount : Z;
  order_id : text
}.

Record ParsedPaymentRequest := mkParsed {
  body : CreatePaymentRequest;
  telegram_user_id : option Z
}.

(** A value of a log record. *)
Inductive Detail :=
  | DNull
  | DInt (n : Z)
  | DBool (b : bool)
  | DLabel (s : string)
  | DNames (l : list text)
  | DLabels (l : list string)
  | DTypes (l : list (text * string)).

Definition details : Type := list (string * Detail).

(** The exceptions of the decoder. *)
Inductive Failure :=
  | CompatReject (category : string) (detail : details)
  | UrlencodedSyntaxError
  | Crash (cls : string).

Inductive Attempt (A : Type) :=
  | Done (a : A)
  | Failed (f : Failure).
Arguments Done {A} a.
Arguments Failed {A} f.

(** [custom_payment_body_rejected], logged before the 422. *)
Record Rejection := mkRejection {
  representation : string;
  rejected_content_type : text;
  body_size : option Z;
  detail : details
}.

Inductive Outcome :=
  | Accepted (p : ParsedPaymentRequest)
  | Rejected (r : Rejection)
  | Crashed (cls : string).

(** ** The content type and the size of the body *)

(** [str.lower] on Latin-1, the encoding of header values. *)
Definition lower_latin1 (c : Z) : Z :=
  if ((65 <=? c) && (c <=? 90)) || ((192 <=? c) && (c <=? 222) && negb (c =? 215)) then c + 32 else c.

Definition before (c : Z) (s : text) : text :=
  match text_partition c s with Some (a, _) => a | None => s end.

Definition media_type (r : HttpRequest) : text :=
  map lower_latin1 (text_strip (before 59 (default [] (content_type r)))).

(** [str.isdigit] on Latin-1: the superscripts are digits, and [int] refuses
    them. *)
Definition isdigit (s : text) : bool :=
  negb (text_eqb s []) && forallb (fun c => ascii_digit c || existsb (Z.eqb c) [178; 179; 185]) s.

Definition int_of_isdigit (s : text) : Attempt Z :=
  match (if forallb ascii_digit s then int_of_decimal s else None) with
  | Some n => Done n
  | None => Failed (Crash "ValueError")
  end.

Fixpoint read_chunks (size : Z) (acc : list Z) (l : list (list Z)) : Attempt (list Z) :=
  match l with
  | [] => Done acc
  | chunk :: l' =>
      let size := size + Z.of_nat (length chunk) in
      if MAX_BODY_BYTES <? size then Failed (CompatReject "too_large" [])
      else read_chunks size (acc ++ chunk) l'
  end.

Definition read_bounded_body (r : HttpRequest) : Attempt (list Z) :=
  match content_length r with
  | Some declared =>
      if isdigit declared then
        match int_of_isdigit declared with
        | Failed f => Failed f
        | Done n => if MAX_BODY_BYTES <? n then Failed (CompatReject "too_large" [])
                    else read_chunks 0 [] (chunks r)
        end
      else read_chunks 0 [] (chunks r)
  | None => read_chunks 0 [] (chunks r)
  end.

(** ** The Telegram id *)

Definition coerce_telegram_id (value : Value) : option Z :=
  let number :=
    match value with
    | VInt n => Some n
    | VStr s => if ascii_decimal (text_strip s) then int_of_decimal (text_strip s) else None
    | _ => None
    end in
  match number with
  | Some n => if (1 <=? n) && (n <=? MAX_TELEGRAM_USER_ID) then Some n else None
  | None => None
  end.

Fixpoint first_id (lookup : text -> option Value) (aliases : list text) : option Z :=
  match aliases with
  | [] => None
  | alias :: l =>
      match lookup alias with
      | Some v => match coerce_telegram_id v with Some n => Some n | None => first_id lookup l end
      | None => first_id lookup l
      end
  end.

Definition extract_telegram_user_id (data : vdict) (query : text -> option text) : option Z :=
  match first_id (fun k => vget k data) ALIAS_FIELDS with
  | Some n => Some n
  | None => first_id (fun k => option_map VStr (query k)) ALIAS_FIELDS
  end.

(** ** Decoders *)

Section Decoders.
Variable max_depth : nat.

Abbreviation loads := (json_loads max_depth).

Definition decode_json_layers (object_category string_category : string) (raw : list Z)
    : Attempt (string * vdict) :=
  match utf8_decode true raw with
  | None => Failed (CompatReject object_category [])
  | Some s =>
      match loads s with
      | Some (VDict d) => Done (object_category, d)
      | Some (VStr first) =>
          match loads first with
          | Some (VDict d) => Done (string_category, d)
          | _ => Failed (CompatReject string_category [])
          end
      | _ => Failed (CompatReject object_category [])
      end
  end.

Definition loads_object (s : text) : option vdict :=
  match loads s with Some (VDict d) => Some d | _ => None end.

Definition field_name (k : text) : bool := member k REQUIRED_FIELDS || member k ALIAS_FIELDS.

(** [_try_recover_json_key_form]. *)
Definition recover_json_key_form (pairs : list (text * text)) : option vdict :=
  match pairs with
  | [(key, value)] =>
      if negb (text_eqb value []) || field_name key then None else loads_object key
  | _ => None
  end.

(** [_try_recover_raw_json_key_with_unescaped_equals]. *)
Definition recover_raw_json_key (s : text) (pairs : list (text * text)) : option vdict :=
  match pairs with
  | [(key, value)] =>
      if text_eqb value [] || field_name key then None
      else if (text_count 61 s <=? 1)%nat || negb (ends_with 61 s) then None
      else loads_object (removelast s)
  | _ => None
  end.

(** [_try_recover_raw_json_body]. *)
Definition recover_raw_json_body (s : text) (pairs : list (text * text)) : option vdict :=
  match pairs with
  | [(key, _)] =>
      if field_name key then None
      else if negb (starts_with 123 (text_lstrip s)) then None
      else loads_object s
  | _ => None
  end.

Definition json_shape_label (s : text) : string :=
  match loads s with
  | None => "invalid"
  | Some (VDict _) => "object"
  | Some (VList _) => "array"
  | Some (VStr _) => "string"
  | Some _ => "scalar"
  end.

Definition unrecovered_single_pair_diagnostics (pair : text * text) (raw_text : text) : details :=
  let '(key, value) := pair in
  [("key_length", DInt (Z.of_nat (length key)));
   ("value_length", DInt (Z.of_nat (length value)));
   ("value_empty", DBool (text_eqb value []));
   ("key_json_type", DLabel (json_shape_label key));
   ("value_json_type", DLabel (json_shape_label value));
   ("key_starts_json_object", DBool (starts_with 123 (text_lstrip key)));
   ("key_ends_json_object", DBool (ends_with 125 (text_rstrip key)));
   ("raw_pair_equals_count", DInt (Z.of_nat (text_count 61 raw_text)))].

(** ** Ordinary forms *)

Definition count_field (k : text) (pairs : list (text * text)) : nat :=
  length (List.filter (fun kv => text_eqb k (fst kv)) pairs).

(** The loop over the pairs: the last value of each required field and of
    each alias. *)
Fixpoint collect (wanted : list text) (acc : vdict) (pairs : list (text * text)) : vdict :=
  match pairs with
  | [] => acc
  | (k, v) :: l => collect wanted (if member k wanted then vset k (VStr v) acc else acc) l
  end.

Definition form_values (pairs : list (text * text)) : vdict :=
  let values := collect REQUIRED_FIELDS [] pairs in
  let aliases := collect ALIAS_FIELDS [] pairs in
  let required := flat_map (fun f => match vget f values with Some v => [(f, v)] | None => [] end) REQUIRED_FIELDS in
  fold_left (fun d kv => vset (fst kv) (snd kv) d) aliases required.

Definition decode_fields (s : text) (pairs : list (text * text)) : Attempt (string * vdict) :=
  let total := length pairs in
  let missing := List.filter (fun f => (count_field f pairs =? 0)%nat) REQUIRED_FIELDS in
  let duplicate := List.filter (fun f => (1 <? count_field f pairs)%nat) REQUIRED_FIELDS in
  let counted := fold_left (fun n f => (n + count_field f pairs)%nat) REQUIRED_FIELDS 0%nat in
  match missing, duplicate with
  | [], [] => Done ("urlencoded", form_values pairs)
  | _, _ =>
      Failed (CompatReject "urlencoded"
        ([("total_pair_count", DInt (Z.of_nat total));
          ("extra_field_count", DInt (Z.of_nat total - Z.of_nat counted));
          ("missing_required_fields", DNames missing);
          ("duplicate_required_fields", DNames duplicate)] ++
         match pairs with
         | [one] => if (length missing =? length REQUIRED_FIELDS)%nat
                     then unrecovered_single_pair_diagnostics one s else []
         | _ => []
         end))
  end.

Definition decode_urlencoded (raw : list Z) : Attempt (string * vdict) :=
  match utf8_decode true raw with
  | None => Failed UrlencodedSyntaxError
  | Some s =>
      match parse_qsl s with
      | None => Failed UrlencodedSyntaxError
      | Some pairs =>
          if (MAX_FORM_PAIRS <? length pairs)%nat then
            Failed (CompatReject "urlencoded" [("total_pair_count", DInt (Z.of_nat (length pairs)))])
          else
            match recover_json_key_form pairs with
            | Some d => Done ("urlencoded_json_key", d)
            | None =>
                match recover_raw_json_key s pairs with
                | Some d => Done ("urlencoded_raw_json_key", d)
                | None =>
                    match recover_raw_json_body s pairs with
                    | Some d => Done ("urlencoded_raw_json_body", d)
                    | None => decode_fields s pairs
                    end
                end
            end
      end
  end.

Definition JSON_TYPE : text := u "application/json".
Definition FORM_TYPE : text := u "application/x-www-form-urlencoded".
Definition PLAIN_TYPE : text := u "text/plain".

Definition decode (mt : text) (raw : list Z) : Attempt (string * vdict) :=
  if text_eqb mt JSON_TYPE || text_eqb mt [] then
    decode_json_layers "json_object" "json_string_object" raw
  else if text_eqb mt FORM_TYPE then
    match decode_urlencoded raw with
    | Failed UrlencodedSyntaxError =>
        match decode_json_layers "urlencoded_json_object" "urlencoded_json_string_object" raw with
        | Failed (CompatReject _ _) => Failed (CompatReject "urlencoded_unparseable" [])
        | r => r
        end
    | r => r
    end
  else if text_eqb mt PLAIN_TYPE then decode_json_layers "text_json" "text_json" raw
  else Failed (CompatReject "unsupported" []).

(** ** The strict model *)

Definition API_KEY : text := u "api_key".
Definition AMOUNT : text := u "amount".
Definition ORDER_ID : text := u "order_id".

Definition normalize (data : vdict) : vdict :=
  let normalized := flat_map (fun f => match vget f data with Some v => [(f, v)] | None => [] end) REQUIRED_FIELDS in
  match vget AMOUNT normalized with
  | Some (VStr s) =>
      if ascii_decimal s then
        match int_of_decimal s with Some n => vset AMOUNT (VInt n) normalized | None => normalized end
      else normalized
  | _ => normalized
  end.

Variable plain_str_ok : text -> bool.

Definition ABSOLUTE_MAX_AMOUNT : Z := 1000000000000.

(** The pattern ["^[^\x00-\x1f\x7f]+$"]. *)
Definition printable (s : text) : bool :=
  negb (text_eqb s []) && forallb (fun c => negb (((0 <=? c) && (c <=? 31)) || (c =? 127))) s.

(** The constraint a field violates, by the name the library gives it. *)
Definition api_key_error (v : option Value) : option string :=
  match v with
  | None => Some "missing"
  | Some (VStr s) => if plain_str_ok s then None else Some "string_unicode"
  | Some _ => Some "string_type"
  end.

Definition amount_error (v : option Value) : option string :=
  match v with
  | None => Some "missing"
  | Some (VInt n) =>
      if ABSOLUTE_MAX_AMOUNT <? n then Some "less_than_equal"
      else if n <=? 0 then Some "greater_than" else None
  | Some _ => Some "int_type"
  end.

Definition order_id_error (v : option Value) : option string :=
  match v with
  | None => Some "missing"
  | Some (VStr s) =>
      if negb (forallb scalar s) then Some "string_unicode"
      else if (128 <? length s)%nat then Some "string_too_long"
      else if (length s <? 1)%nat then Some "string_too_short"
      else if negb (printable s) then Some "string_pattern_mismatch" else None
  | Some _ => Some "string_type"
  end.

Definition validation_errors (d : vdict) : list (text * string) :=
  flat_map (fun e => match snd e with Some slug => [(fst e, slug)] | None => [] end)
    [(API_KEY, api_key_error (vget API_KEY d)); (AMOUNT, amount_error (vget AMOUNT d));
     (ORDER_ID, order_id_error (vget ORDER_ID d))].

Definition validate (d : vdict) : list (text * string) + CreatePaymentRequest :=
  match validation_errors d, vget API_KEY d, vget AMOUNT d, vget ORDER_ID d with
  | [], Some (VStr k), Some (VInt n), Some (VStr o) => inr (mkCreate k n o)
  | errors, _, _, _ => inl errors
  end.

Definition json_type_name (v : Value) : string :=
  match v with
  | VBool _ => "boolean" | VInt _ => "integer" | VFloat => "number" | VStr _ => "string"
  | VDict _ => "object" | VList _ => "array" | VNull => "null"
  end.

(** [sorted({...})] of labels. *)
Definition sorted_set (l : list string) : list string := sort_by String.leb (nodup String.string_dec l).

Definition schema_invalid_diagnostics (representation : string) (normalized : vdict)
    (errors : list (text * string)) : details :=
  [("decoded_representation", DLabel representation);
   ("invalid_fields", DNames (List.filter (fun f => member f (map fst errors)) [AMOUNT; API_KEY; ORDER_ID]));
   ("invalid_error_types", DLabels (sorted_set (map snd errors)));
   ("field_types", DTypes (map (fun f => (f, match vget f normalized with
                                             | Some v => json_type_name v | None => "missing" end)) REQUIRED_FIELDS));
   ("amount_is_ascii_decimal_string",
    DBool (match vget AMOUNT normalized with Some (VStr s) => ascii_decimal s | _ => false end));
   ("order_id_length",
    match vget ORDER_ID normalized with Some (VStr s) => DInt (Z.of_nat (length s)) | _ => DNull end)].

(** ** The request *)

Definition declared_size (r : HttpRequest) : Attempt (option Z) :=
  match content_length r with
  | Some declared =>
      if isdigit declared then
        match int_of_isdigit declared with Done n => Done (Some n) | Failed f => Failed f end
      else Done None
  | None => Done None
  end.

Definition parse_body (r : HttpRequest) (raw : list Z) : Outcome :=
  let mt := media_type r in
  let size := Some (Z.of_nat (length raw)) in
  match decode mt raw with
  | Failed (CompatReject category d) => Rejected (mkRejection category mt size d)
  | Failed UrlencodedSyntaxError => Crashed "_UrlencodedSyntaxError"
  | Failed (Crash cls) => Crashed cls
  | Done (representation, data) =>
      let normalized := normalize data in
      match validate normalized with
      | inl errors =>
          Rejected (mkRejection "schema_invalid" mt size
                      (schema_invalid_diagnostics representation normalized errors))
      | inr b => Accepted (mkParsed b (extract_telegram_user_id data (query_get r)))
      end
  end.

Definition parse_create_payment_request (r : HttpRequest) : Outcome :=
  match read_bounded_body r with
  | Failed (CompatReject category d) =>
      match declared_size r with
      | Done size => Rejected (mkRejection category (media_type r) size d)
      | Failed (Crash cls) => Crashed cls
      | Failed _ => Crashed "unreachable"
      end
  | Failed (Crash cls) => Crashed cls
  | Failed UrlencodedSyntaxError => Crashed "unreachable"
  | Done raw => parse_body r raw
  end.
End Decoders.

(** ** Facts: recovery of JSON from forms *)

Lemma text_eqb_true s t : text_eqb s t = true <-> s = t.
Proof. apply bool_decide_eq_true. Qed.

Lemma text_eqb_false s t : text_eqb s t = false <-> s <> t.
Proof. apply bool_decide_eq_false. Qed.

Section Recovery.
Context {max_depth : nat}.

Abbreviation object := (fun s d => json_loads max_depth s = Some (VDict d)).

Lemma loads_object_eq s d : loads_object max_depth s = Some d <-> json_loads max_depth s = Some (VDict d).
Proof. unfold loads_object. destruct (json_loads max_depth s) as [[]|]; split; try done; by intros [= ->]. Qed.

Definition name_start (c : Z) : bool := (97 <=? c) && (c <=? 122).

Lemma field_name_start c s : name_start c = false -> field_name (c :: s) = false.
Proof.
  intros Hc. apply not_true_iff_false. unfold field_name, member.
  rewrite orb_true_iff, !existsb_exists. intros [(k & Hk & E)|(k & Hk & E)]; apply text_eqb_true in E; subst k;
    cbn in Hk; repeat destruct Hk as [[= <- _]|Hk]; try done.
Qed.

Lemma object_start c : c = 123 \/ json_space c = true -> name_start c = false /\ c < 128 /\ c <> 37 /\ c <> 43 /\ c <> 61.
Proof.
  unfold json_space, name_start. cbn [existsb]. intros [->|H]; [done|]. bool_to_prop.
  assert (c = 32 \/ c = 9 \/ c = 10 \/ c = 13) by lia. split; [|lia]. apply andb_false_iff. lia.
Qed.

(** A text that is a JSON object is no field name, encoded or not. *)
Lemma object_not_name s d : object s d -> field_name s = false.
Proof.
  intros (c & t & -> & Hc)%json_object_head. apply field_name_start. by apply object_start.
Qed.

Lemma object_key_not_name s d a b : object s d -> text_partition 61 s = Some (a, b) ->
  field_name (unquote (plus_to_space a)) = false.
Proof.
  intros (c & t & -> & Hc)%json_object_head H. apply object_start in Hc as (Hn & Ha & H37 & H43 & H61).
  apply text_partition_eq in H as [Hs Hl]. destruct a as [|x a]; [by injection Hs as ? _|]. injection Hs as <- _.
  cbn [plus_to_space map]. replace (c =? 43) with false by lia.
  destruct (unquote_head c (plus_to_space a)) as [r Hr]; [done..|]. unfold plus_to_space in Hr. rewrite Hr.
  by apply field_name_start.
Qed.

Lemma object_no_equals_end s d : object s d -> ends_with 61 s = false.
Proof. intros H. exact (json_object_end _ _ _ 61 H ltac:(lia) eq_refl). Qed.

Lemma ends_with_snoc c s : ends_with c (s ++ [c]) = true.
Proof. unfold ends_with. rewrite rev_app_distr. apply Z.eqb_refl. Qed.

Lemma text_split_one c s x : text_split c s = [x] -> x = s.
Proof.
  revert x. induction s as [|y s IH]; intros x; cbn; [congruence|].
  destruct (y =? c); [intros [= _ H]; by apply text_split_some in H|].
  pose proof (text_split_some c s). destruct (text_split c s) as [|p [|p' ps]]; [done| |done].
  intros [= <-]. f_equal. by apply IH.
Qed.

Lemma form_fields_one l kv : form_fields l = Some [kv] -> exists s, l = [s] /\ form_field s = Some kv.
Proof.
  destruct l as [|s l]; cbn; [done|]. destruct (form_field s) as [kv'|] eqn:E; [|done].
  destruct l as [|s' l]; cbn; [intros [= ->]; eauto|].
  destruct (form_field s'), (form_fields l); done.
Qed.

(** A form of one pair. *)
Lemma parse_qsl_one s k v : parse_qsl s = Some [(k, v)] ->
  exists a b, text_partition 61 s = Some (a, b) /\ k = unquote (plus_to_space a) /\ v = unquote (plus_to_space b).
Proof.
  unfold parse_qsl. destruct s as [|c s]; [done|].
  intros (x & Hx & Hf)%form_fields_one. apply text_split_one in Hx as ->. revert Hf. unfold form_field.
  destruct (text_partition 61 (c :: s)) as [[a b]|]; [|done]. intros [= <- <-]. eauto.
Qed.

(** *** The three recoveries *)

Lemma recover_key_form_empty pairs d : recover_json_key_form max_depth pairs = Some d -> exists k, pairs = [(k, [])].
Proof.
  destruct pairs as [|[k v] [|]]; cbn; try done. destruct (text_eqb v []) eqn:E; [|done].
  apply text_eqb_true in E as ->. eauto.
Qed.

Lemma recover_raw_key_ends s pairs d : recover_raw_json_key max_depth s pairs = Some d ->
  ends_with 61 s = true /\ exists k v, pairs = [(k, v)] /\ v <> [].
Proof.
  destruct pairs as [|[k v] [|]]; cbn; try done. destruct (text_eqb v []) eqn:E; [done|]. cbn.
  destruct (field_name k); [done|]. destruct (ends_with 61 s); [|by rewrite orb_true_r].
  intros _. split; [done|]. exists k, v. split; [done|]. by apply text_eqb_false.
Qed.

Lemma recover_raw_body_object s pairs d : recover_raw_json_body max_depth s pairs = Some d -> object s d.
Proof.
  destruct pairs as [|[k v] [|]]; cbn; try done. destruct (field_name k); [done|].
  destruct (negb _); [done|]. by intros ?%loads_object_eq.
Qed.

Lemma key_form_ends s pairs d : parse_qsl s = Some pairs -> recover_json_key_form max_depth pairs = Some d ->
  ends_with 61 s = true.
Proof.
  intros Hp [k ->]%recover_key_form_empty. apply parse_qsl_one in Hp as (a & b & Hab & _ & Hb).
  symmetry in Hb. apply (proj1 (form_value_empty _)) in Hb as ->. apply text_partition_eq in Hab as [-> _]. apply ends_with_snoc.
Qed.

(** A JSON object sent raw as a form of one pair. *)
Lemma recover_raw_object s d k v : object s d -> parse_qsl s = Some [(k, v)] ->
  recover_json_key_form max_depth [(k, v)] = None /\ recover_raw_json_key max_depth s [(k, v)] = None /\
  recover_raw_json_body max_depth s [(k, v)] = Some d.
Proof.
  intros Ho Hp. pose proof (object_no_equals_end s d Ho) as He. split_and!.
  - destruct (recover_json_key_form max_depth [(k, v)]) eqn:E; [|done]. by rewrite (key_form_ends s _ _ Hp E) in He.
  - destruct (recover_raw_json_key max_depth s [(k, v)]) eqn:E; [|done].
    apply recover_raw_key_ends in E as [E _]. by rewrite E in He.
  - apply parse_qsl_one in Hp as (a & b & Hab & -> & _). cbn. rewrite (object_key_not_name s d a b) by done.
    rewrite (lstrip_object _ _ _ Ho). by apply loads_object_eq.
Qed.

(** *** Decoding the representations of an object *)

Definition decodes (mt : text) (raw : list Z) (d : vdict) : Prop :=
  exists label, decode max_depth mt raw = Done (label, d).

Definition json_type (mt : text) : bool := text_eqb mt JSON_TYPE || text_eqb mt [] || text_eqb mt PLAIN_TYPE.

Lemma decode_json_type mt raw : json_type mt = true ->
  exists l1 l2, decode max_depth mt raw = decode_json_layers max_depth l1 l2 raw.
Proof.
  unfold json_type, decode. destruct (text_eqb mt JSON_TYPE || text_eqb mt []) eqn:E; [eauto|]. cbn.
  intros ->%text_eqb_true. eexists _, _. reflexivity.
Qed.

Lemma json_layers_object l1 l2 s d : object s d -> forallb scalar s = true ->
  decode_json_layers max_depth l1 l2 (utf8_bytes s) = Done (l1, d).
Proof. intros Ho Hs. unfold decode_json_layers. by rewrite utf8_round_trip, Ho. Qed.

Lemma json_layers_string l1 l2 s d : object s d -> forallb scalar s = true ->
  decode_json_layers max_depth l1 l2 (utf8_bytes (quote_json s)) = Done (l2, d).
Proof.
  intros Ho Hs. unfold decode_json_layers. rewrite utf8_round_trip by by apply escape_scalar.
  by rewrite json_string_round_trip, Ho by by apply scalar_nonneg.
Qed.

Lemma decode_form raw : decode max_depth FORM_TYPE raw =
  match decode_urlencoded max_depth raw with
  | Failed UrlencodedSyntaxError =>
      match decode_json_layers max_depth "urlencoded_json_object" "urlencoded_json_string_object" raw with
      | Failed (CompatReject _ _) => Failed (CompatReject "urlencoded_unparseable" [])
      | r => r
      end
  | r => r
  end.
Proof. reflexivity. Qed.

(** A single pair that one of the recoveries takes. *)
Lemma decode_form_pair s k v : forallb scalar s = true -> parse_qsl s = Some [(k, v)] ->
  decode_urlencoded max_depth (utf8_bytes s) =
  match recover_json_key_form max_depth [(k, v)] with
  | Some d => Done ("urlencoded_json_key", d)
  | None => match recover_raw_json_key max_depth s [(k, v)] with
            | Some d => Done ("urlencoded_raw_json_key", d)
            | None => match recover_raw_json_body max_depth s [(k, v)] with
                      | Some d => Done ("urlencoded_raw_json_body", d)
                      | None => decode_fields max_depth s [(k, v)]
                      end
            end
  end.
Proof. intros Hs Hp. unfold decode_urlencoded. by rewrite utf8_round_trip, Hp. Qed.

Lemma form_key_pair s t : lacks 38 s = true -> lacks 38 t = true -> lacks 61 s = true ->
  parse_qsl (s ++ 61 :: t) = Some [(unquote (plus_to_space s), unquote (plus_to_space t))].
Proof.
  intros Hs Ht He. rewrite parse_qsl_single; [|by destruct s|by rewrite lacks_app, lacks_cons, Hs, Ht].
  unfold form_field. by rewrite text_partition_app.
Qed.

(** The document percent-encoded as the key of one empty field. *)
Lemma decodes_json_key s d : object s d -> forallb scalar s = true ->
  decodes FORM_TYPE (utf8_bytes (quote s ++ [61])) d.
Proof.
  intros Ho Hs. eexists. rewrite decode_form.
  assert (Hp : parse_qsl (quote s ++ [61]) = Some [(s, [])]).
  { rewrite form_key_pair by (done || by apply quote_lacks). by rewrite unquote_quote. }
  rewrite (decode_form_pair (quote s ++ [61]) s []); [|by rewrite forallb_app, quote_scalar|done].
  cbn [recover_json_key_form]. rewrite (object_not_name s d Ho). cbn.
  by rewrite (proj2 (loads_object_eq s d) Ho).
Qed.

(** The document itself, declared as a form. *)
Lemma decodes_raw_body s d : object s d -> forallb scalar s = true -> lacks 38 s = true ->
  decodes FORM_TYPE (utf8_bytes s) d.
Proof.
  intros Ho Hs Ha. assert (Hne : s <> []) by (intros ->; by destruct max_depth).
  unfold decodes. rewrite decode_form. destruct (form_field s) as [[k v]|] eqn:E.
  - assert (Hp : parse_qsl s = Some [(k, v)]) by (rewrite parse_qsl_single by done; by rewrite E).
    rewrite (decode_form_pair s k v) by done. destruct (recover_raw_object s d k v) as (-> & -> & ->); eauto.
  - unfold decode_urlencoded. rewrite utf8_round_trip, parse_qsl_single, E by done. cbn.
    rewrite (json_layers_object _ _ s d) by done. eauto.
Qed.

(** The document and the separator of an empty value: an equals sign inside
    the document splits it, otherwise the key must survive form decoding. *)
Lemma decodes_raw_key s d : object s d -> forallb scalar s = true -> lacks 38 s = true ->
  lacks 61 s = false \/ (lacks 37 s = true /\ lacks 43 s = true) ->
  decodes FORM_TYPE (utf8_bytes (s ++ [61])) d.
Proof.
  intros Ho Hs Ha Hor. unfold decodes. rewrite decode_form.
  assert (Hse : forallb scalar (s ++ [61]) = true) by (by rewrite forallb_app, Hs).
  destruct (text_partition 61 s) as [[a b]|] eqn:E.
  - pose proof (object_key_not_name s d a b Ho E) as Hn. apply text_partition_eq in E as [-> Hla].
    assert (Hp : parse_qsl ((a ++ 61 :: b) ++ [61]) = Some [(unquote (plus_to_space a), unquote (plus_to_space (b ++ [61])))]).
    { rewrite <- app_assoc. cbn [app]. rewrite lacks_app, lacks_cons in Ha. apply andb_true_iff in Ha as [Ha [_ Hb]%andb_true_iff].
      apply form_key_pair; [done|by rewrite lacks_app, Hb|done]. }
    rewrite (decode_form_pair _ _ _ Hse Hp).
    assert (Hv : text_eqb (unquote (plus_to_space (b ++ [61]))) [] = false).
    { apply text_eqb_false. intros H%(proj1 (form_value_empty _)). by apply app_eq_nil in H as [_ H]. }
    cbn [recover_json_key_form recover_raw_json_key]. rewrite Hv, Hn. cbn [negb orb].
    assert (Hc : (text_count 61%Z ((a ++ 61 :: b) ++ [61])%Z <=? 1)%nat = false).
    { apply Nat.leb_gt. unfold text_count. rewrite !List.filter_app, !length_app. cbn. lia. }
    rewrite Hc, ends_with_snoc. cbn [negb orb]. rewrite removelast_last, (proj2 (loads_object_eq _ d) Ho). eauto.
  - apply text_partition_None in E. destruct Hor as [Hor|[H37 H43]]; [congruence|].
    assert (Hp : parse_qsl (s ++ [61]) = Some [(s, [])]).
    { rewrite form_key_pair by done. rewrite plus_to_space_id by done. unfold unquote at 1.
      unfold lacks in H37. apply negb_true_iff in H37. by rewrite H37. }
    rewrite (decode_form_pair _ _ _ Hse Hp). cbn [recover_json_key_form]. rewrite (object_not_name s d Ho). cbn.
    rewrite (proj2 (loads_object_eq s d) Ho). eauto.
Qed.
End Recovery.

(** ** Facts: dictionaries *)

Lemma text_eqb_refl s : text_eqb s s = true.
Proof. by apply text_eqb_true. Qed.

Lemma vget_vset k k' v d : vget k (vset k' v d) = if text_eqb k k' then Some v else vget k d.
Proof.
  induction d as [|[k0 v0] d IH]; cbn; [done|]. destruct (text_eqb k' k0) eqn:E; cbn.
  - apply text_eqb_true in E as <-. by destruct (text_eqb k k').
  - rewrite IH. destruct (text_eqb k k0) eqn:E0; [|done]. apply text_eqb_true in E0 as ->.
    destruct (text_eqb k0 k') eqn:E1; [|done]. apply text_eqb_true in E1 as ->. by rewrite text_eqb_refl in E.
Qed.

Lemma vget_None k d : vget k d = None <-> ~ In k (map fst d).
Proof.
  induction d as [|[k0 v0] d IH]; cbn; [intuition congruence|]. destruct (text_eqb k k0) eqn:E.
  - apply text_eqb_true in E as ->. intuition congruence.
  - apply text_eqb_false in E. rewrite IH. intuition congruence.
Qed.

Lemma vset_keys k v d x : In x (map fst (vset k v d)) <-> x = k \/ In x (map fst d).
Proof.
  induction d as [|[k0 v0] d IH]; cbn; [intuition congruence|]. destruct (text_eqb k k0) eqn:E; cbn.
  - apply text_eqb_true in E as ->. intuition congruence.
  - rewrite IH. intuition congruence.
Qed.

Lemma vset_NoDup k v d : List.NoDup (map fst d) -> List.NoDup (map fst (vset k v d)).
Proof.
  induction d as [|[k0 v0] d IH]; cbn; [repeat constructor; intuition congruence|]. intros [Hn Hd]%List.NoDup_cons_iff.
  destruct (text_eqb k k0) eqn:E; cbn; constructor; auto. rewrite vset_keys. apply text_eqb_false in E. intuition congruence.
Qed.

(** [d.update(l)]. *)
Lemma vget_update k l d : List.NoDup (map fst l) ->
  vget k (fold_left (fun d kv => vset (fst kv) (snd kv) d) l d) = match vget k l with Some v => Some v | None => vget k d end.
Proof.
  revert d. induction l as [|[k0 v0] l IH]; intros d; cbn; [done|]. intros [Hn Hd]%List.NoDup_cons_iff.
  rewrite IH, vget_vset by done. destruct (text_eqb k k0) eqn:E; [|done]. apply text_eqb_true in E as ->.
  by rewrite (proj2 (vget_None k0 l)).
Qed.

Lemma member_In k l : member k l = true <-> In k l.
Proof.
  unfold member. rewrite existsb_exists. split; [by intros (x & Hx & <-%text_eqb_true)|].
  intros Hk. exists k. split; [done|]. apply text_eqb_refl.
Qed.

(** The entries of some fields, in the order of the fields. *)
Lemma vget_select k fs d :
  vget k (flat_map (fun f => match vget f d with Some v => [(f, v)] | None => [] end) fs) =
  if member k fs then vget k d else None.
Proof.
  induction fs as [|f fs IH]; [done|]. unfold member in *. cbn [flat_map existsb].
  destruct (text_eqb k f) eqn:E; cbn [orb].
  - apply text_eqb_true in E as ->. destruct (vget f d) as [v|] eqn:Ef; cbn; [by rewrite text_eqb_refl|].
    rewrite IH. by destruct (existsb _ fs).
  - destruct (vget f d) as [v|]; cbn; [by rewrite E|]; exact IH.
Qed.

(** ** Facts: the strict model *)

(** The amount after normalization. *)
Definition amount_value (v : option Value) : option Value :=
  match v with
  | Some (VStr s) => if ascii_decimal s then match int_of_decimal s with Some n => Some (VInt n) | None => v end else v
  | _ => v
  end.

Lemma vget_normalize k d : member k REQUIRED_FIELDS = true ->
  vget k (normalize d) = if text_eqb k AMOUNT then amount_value (vget AMOUNT d) else vget k d.
Proof.
  intros Hk. unfold normalize. rewrite (vget_select AMOUNT). change (member AMOUNT REQUIRED_FIELDS) with true. cbn iota.
  assert (H : forall k, member k REQUIRED_FIELDS = true -> vget k (flat_map (fun f =>
    match vget f d with Some v => [(f, v)] | None => [] end) REQUIRED_FIELDS) = vget k d).
  { intros k' Hk'. by rewrite vget_select, Hk'. }
  destruct (text_eqb k AMOUNT) eqn:E; [apply text_eqb_true in E as ->|]; destruct (vget AMOUNT d) as [[]|] eqn:Ea;
    cbn [amount_value]; try (rewrite H by done; done); destruct (ascii_decimal s); try (rewrite H by done; done);
    destruct (int_of_decimal s); try (rewrite H by done; done); rewrite vget_vset, ?E, ?text_eqb_refl, ?H by done; done.
Qed.

Section Parsing.
Context {max_depth : nat} {plain_str_ok : text -> bool}.

Abbreviation parse := (parse_create_payment_request max_depth plain_str_ok).

(** What the code makes of decoded data: only the three fields and the
    aliases matter. *)
Definition interpret (data : vdict) (query : text -> option text) : option ParsedPaymentRequest :=
  match api_key_error plain_str_ok (vget API_KEY data), amount_error (amount_value (vget AMOUNT data)),
        order_id_error (vget ORDER_ID data) with
  | None, None, None =>
      match vget API_KEY data, amount_value (vget AMOUNT data), vget ORDER_ID data with
      | Some (VStr k), Some (VInt n), Some (VStr o) =>
          Some (mkParsed (mkCreate k n o) (extract_telegram_user_id data query))
      | _, _, _ => None
      end
  | _, _, _ => None
  end.

Definition verdict (o : Outcome) : option ParsedPaymentRequest :=
  match o with Accepted p => Some p | _ => None end.

Lemma validate_interpret data query :
  match validate plain_str_ok (normalize data) with
  | inr b => interpret data query = Some (mkParsed b (extract_telegram_user_id data query))
  | inl _ => interpret data query = None
  end.
Proof.
  unfold validate, validation_errors, interpret. rewrite !vget_normalize by done.
  change (text_eqb API_KEY AMOUNT) with false. change (text_eqb AMOUNT AMOUNT) with true.
  change (text_eqb ORDER_ID AMOUNT) with false. cbn iota. cbn [flat_map fst snd app].
  destruct (api_key_error _ _) eqn:E1; [done|]. destruct (amount_error _) eqn:E2; [done|].
  destruct (order_id_error _) eqn:E3; [done|]. cbn [app].
  destruct (vget API_KEY data) as [[]|]; try done. destruct (amount_value _) as [[]|]; try done.
  by destruct (vget ORDER_ID data) as [[]|].
Qed.

Lemma parse_body_verdict r raw label d : decode max_depth (media_type r) raw = Done (label, d) ->
  verdict (parse_body max_depth plain_str_ok r raw) = interpret d (query_get r).
Proof.
  intros E. unfold parse_body. rewrite E. pose proof (validate_interpret d (query_get r)) as H.
  destruct (validate plain_str_ok (normalize d)); by rewrite H.
Qed.

(** ** Facts: reading the body *)

(** The declared length, if [int] is applied to it, is a number within the
    bound. *)
Definition declared_ok (r : HttpRequest) : bool :=
  match declared_size r with Done (Some n) => n <=? MAX_BODY_BYTES | Done None => true | Failed _ => false end.

Lemma read_chunks_spec size acc l : 0 <= size ->
  read_chunks size acc l =
  if size + Z.of_nat (length (concat l)) <=? MAX_BODY_BYTES then Done (acc ++ concat l)
  else match l with [] => Done acc | _ => Failed (CompatReject "too_large" []) end.
Proof.
  revert size acc. induction l as [|c l IH]; intros size acc Hs; cbn [read_chunks concat].
  - rewrite app_nil_r. by destruct (_ <=? _).
  - rewrite length_app, Nat2Z.inj_add, Z.add_assoc. destruct (MAX_BODY_BYTES <? _) eqn:E.
    + destruct (_ <=? MAX_BODY_BYTES) eqn:E2; [bool_to_prop; lia|done].
    + rewrite IH, <- app_assoc by lia. destruct (_ <=? _) eqn:E2; [done|]. destruct l as [|c' l]; [|done].
      cbn in E2. bool_to_prop. lia.
Qed.

Lemma read_bounded_body_fits r : declared_ok r = true -> Z.of_nat (length (concat (chunks r))) <= MAX_BODY_BYTES ->
  read_bounded_body r = Done (concat (chunks r)).
Proof.
  intros Hd Hl. assert (Hc : read_chunks 0 [] (chunks r) = Done (concat (chunks r))).
  { rewrite read_chunks_spec by lia. destruct (_ <=? MAX_BODY_BYTES) eqn:E; [done|bool_to_prop; lia]. }
  unfold read_bounded_body, declared_ok, declared_size in *. destruct (content_length r) as [s|]; [|done].
  destruct (isdigit s); [|done]. destruct (int_of_isdigit s) as [n|]; [|done].
  destruct (MAX_BODY_BYTES <? n) eqn:E; [bool_to_prop; lia|done].
Qed.

Lemma read_bounded_body_cases r :
  match read_bounded_body r with
  | Done raw => raw = concat (chunks r) /\ Z.of_nat (length raw) <= MAX_BODY_BYTES
  | Failed (CompatReject c d) => c = "too_large" /\ exists n, declared_size r = Done n
  | Failed UrlencodedSyntaxError => False
  | Failed (Crash cls) => declared_size r = Failed (Crash cls) /\ cls = "ValueError"
  end.
Proof.
  assert (Hc : match read_chunks 0 [] (chunks r) with
    | Done raw => raw = concat (chunks r) /\ Z.of_nat (length raw) <= MAX_BODY_BYTES
    | Failed (CompatReject c d) => c = "too_large" | _ => False end).
  { rewrite read_chunks_spec by lia. destruct (_ <=? MAX_BODY_BYTES) eqn:E; [split; [done|bool_to_prop; cbn [app]; lia]|].
    by destruct (chunks r). }
  unfold read_bounded_body, declared_size. destruct (content_length r) as [s|].
  - destruct (isdigit s).
    + unfold int_of_isdigit. destruct (if forallb ascii_digit s then int_of_decimal s else None) as [n|]; [|done].
      destruct (MAX_BODY_BYTES <? n); [eauto|]. destruct (read_chunks _ _ _) as [|[]]; eauto; done.
    + destruct (read_chunks _ _ _) as [|[]]; eauto; done.
  - destruct (read_chunks _ _ _) as [|[]]; eauto; done.
Qed.

Lemma parse_decoded r label d : declared_ok r = true -> Z.of_nat (length (concat (chunks r))) <= MAX_BODY_BYTES ->
  decode max_depth (media_type r) (concat (chunks r)) = Done (label, d) ->
  verdict (parse r) = interpret d (query_get r).
Proof.
  intros Hd Hl Hdec. unfold parse_create_payment_request. rewrite read_bounded_body_fits by done.
  by eapply parse_body_verdict.
Qed.

(** ** Facts: ordinary forms *)

Fixpoint last_value (k : text) (pairs : list (text * text)) : option text :=
  match pairs with
  | [] => None
  | (k', v) :: l => match last_value k l with
                    | Some w => Some w
                    | None => if text_eqb k k' then Some v else None
                    end
  end.

Lemma vget_collect k wanted acc pairs :
  vget k (collect wanted acc pairs) =
  match (if member k wanted then last_value k pairs else None) with Some v => Some (VStr v) | None => vget k acc end.
Proof.
  revert acc. induction pairs as [|[k' v] l IH]; intros acc; cbn [collect last_value]; [by destruct (member k wanted)|].
  rewrite IH. destruct (member k wanted) eqn:E.
  - destruct (last_value k l); [done|]. destruct (text_eqb k k') eqn:Ek.
    + apply text_eqb_true in Ek as <-. by rewrite E, vget_vset, text_eqb_refl.
    + destruct (member k' wanted); [by rewrite vget_vset, Ek|done].
  - destruct (member k' wanted) eqn:E'; [|done]. rewrite vget_vset. destruct (text_eqb k k') eqn:Ek; [|done].
    apply text_eqb_true in Ek as ->. congruence.
Qed.

Lemma collect_NoDup wanted acc pairs : List.NoDup (map fst acc) -> List.NoDup (map fst (collect wanted acc pairs)).
Proof.
  revert acc. induction pairs as [|[k v] l IH]; intros acc Ha; cbn; [done|]. apply IH.
  destruct (member k wanted); [by apply vset_NoDup|done].
Qed.

Lemma vget_form_values k pairs :
  vget k (form_values pairs) = if field_name k then option_map VStr (last_value k pairs) else None.
Proof.
  unfold form_values. rewrite vget_update by (apply collect_NoDup; constructor).
  rewrite vget_select, !vget_collect. unfold field_name. cbn [vget].
  assert (Hdis : member k REQUIRED_FIELDS = true -> member k ALIAS_FIELDS = false).
  { intros Hk%member_In. apply not_true_iff_false. intros Ha%member_In. cbn in Hk, Ha.
    repeat destruct Hk as [<-|Hk]; try done; repeat destruct Ha as [Ha|Ha]; done. }
  destruct (member k REQUIRED_FIELDS); [rewrite Hdis by done|]; destruct (last_value k pairs); try done;
    by destruct (member k ALIAS_FIELDS).
Qed.

Lemma last_value_once k v pairs : count_field k pairs = 1%nat -> In (k, v) pairs -> last_value k pairs = Some v.
Proof.
  unfold count_field. induction pairs as [|[k' v'] l IH]; [done|]. cbn.
  assert (Hno : length (List.filter (fun kv : text * text => text_eqb k (fst kv)) l) = 0%nat -> last_value k l = None).
  { clear. induction l as [|[k' v'] l IH]; [done|]. cbn. destruct (text_eqb k k'); [done|]. intros H. by rewrite IH. }
  destruct (text_eqb k k') eqn:E; cbn.
  - intros [= H]. apply text_eqb_true in E as <-. rewrite Hno by done. intros [[= <-]|Hin]; [done|].
    exfalso. assert (Hf : In (k, v) (List.filter (fun kv : text * text => text_eqb k (fst kv)) l)).
    { apply filter_In. split; [done|]. apply text_eqb_refl. }
    by destruct (List.filter _ l).
  - intros Hc [[= -> ->]|Hin]; [by rewrite text_eqb_refl in E|]. by rewrite IH.
Qed.

Lemma decode_fields_ok s pairs : (forall f, In f REQUIRED_FIELDS -> count_field f pairs = 1%nat) ->
  decode_fields max_depth s pairs = Done ("urlencoded", form_values pairs).
Proof.
  intros H. unfold decode_fields.
  assert (H1 : forall p, (forall f, In f REQUIRED_FIELDS -> p f = false) -> List.filter p REQUIRED_FIELDS = []).
  { intros p Hp. cbn [REQUIRED_FIELDS List.filter map]. unfold REQUIRED_FIELDS in Hp. cbn in Hp.
    by rewrite !Hp by auto. }
  rewrite !H1; [done|intros f Hf; by rewrite H..].
Qed.

Lemma decode_ordinary_form pairs : forallb scalar_field pairs = true ->
  (3 <= length pairs <= MAX_FORM_PAIRS)%nat -> (forall f, In f REQUIRED_FIELDS -> count_field f pairs = 1%nat) ->
  decode max_depth FORM_TYPE (utf8_bytes (urlencode pairs)) = Done ("urlencoded", form_values pairs).
Proof.
  intros Hs Hl Hc. rewrite decode_form. unfold decode_urlencoded.
  rewrite utf8_round_trip, parse_qsl_urlencode by (done || by apply urlencode_scalar).
  replace (MAX_FORM_PAIRS <? length pairs)%nat with false by (symmetry; apply Nat.ltb_ge; lia).
  destruct pairs as [|kv1 [|kv2 l]]; cbn in Hl; [lia..|]. cbn [recover_json_key_form recover_raw_json_key recover_raw_json_body].
  destruct kv1. by rewrite decode_fields_ok.
Qed.
End Parsing.

(** ** The contract of the decoder *)

(** The ways in which senders transmit the JSON document [s]: by media type
    and bytes of the body. *)
Inductive representation_of (s : text) : text -> list Z -> Prop :=
  | as_object mt : json_type mt = true -> representation_of s mt (utf8_bytes s)
  | as_string mt : json_type mt = true -> representation_of s mt (utf8_bytes (quote_json s))
  | as_form_key : representation_of s FORM_TYPE (utf8_bytes (quote s ++ [61]))
  | as_form_body : lacks 38 s = true -> representation_of s FORM_TYPE (utf8_bytes s)
  | as_raw_form_key : lacks 38 s = true ->
      lacks 61 s = false \/ (lacks 37 s = true /\ lacks 43 s = true) ->
      representation_of s FORM_TYPE (utf8_bytes (s ++ [61])).

(** What an accepted request guarantees to the rest of the program. *)
Definition well_typed (b : CreatePaymentRequest) (telegram : option Z) : Prop :=
  0 < amount b <= ABSOLUTE_MAX_AMOUNT /\ (1 <= length (order_id b) <= 128)%nat /\
  forallb scalar (order_id b) = true /\ printable (order_id b) = true /\
  (forall t, telegram = Some t -> 1 <= t <= MAX_TELEGRAM_USER_ID).

Definition supported (mt : text) : bool := json_type mt || text_eqb mt FORM_TYPE.

(** The form [pairs] and the dictionary [d] say the same: each required field
    once and equal, the amount in digits, the same aliases. *)
Record same_request (pairs : list (text * text)) (d : vdict) : Prop := {
  sr_once : forall f, In f REQUIRED_FIELDS -> count_field f pairs = 1%nat;
  sr_key : exists k, In (API_KEY, k) pairs /\ vget API_KEY d = Some (VStr k);
  sr_amount : exists a n, In (AMOUNT, a) pairs /\ ascii_decimal a = true /\ int_of_decimal a = Some n /\
    vget AMOUNT d = Some (VInt n);
  sr_order : exists o, In (ORDER_ID, o) pairs /\ vget ORDER_ID d = Some (VStr o);
  sr_aliases : forall k, In k ALIAS_FIELDS -> vget k d = option_map VStr (last_value k pairs)
}.

Section Contract.
Context {max_depth : nat} {plain_str_ok : text -> bool}.

Abbreviation parse := (parse_create_payment_request max_depth plain_str_ok).

Lemma representation_decodes s d mt raw : json_loads max_depth s = Some (VDict d) -> forallb scalar s = true ->
  representation_of s mt raw -> @decodes max_depth mt raw d.
Proof.
  intros Ho Hs [mt' Hm|mt' Hm| |Ha|Ha Hor].
  - destruct (decode_json_type (max_depth := max_depth) mt' (utf8_bytes s) Hm) as (l1 & l2 & E).
    exists l1. rewrite E. by apply json_layers_object.
  - destruct (decode_json_type (max_depth := max_depth) mt' (utf8_bytes (quote_json s)) Hm) as (l1 & l2 & E).
    exists l2. rewrite E. by apply json_layers_string.
  - by apply decodes_json_key.
  - by apply decodes_raw_body.
  - by apply decodes_raw_key.
Qed.

Lemma extract_ext d1 d2 q : (forall k, In k ALIAS_FIELDS -> vget k d1 = vget k d2) ->
  extract_telegram_user_id d1 q = extract_telegram_user_id d2 q.
Proof.
  intros H. unfold extract_telegram_user_id.
  assert (E : forall l, (forall k, In k l -> In k ALIAS_FIELDS) ->
    first_id (fun k => vget k d1) l = first_id (fun k => vget k d2) l).
  { induction l as [|k l IH]; intros Hl; [done|]. cbn. rewrite H by auto using in_eq.
    by rewrite IH by auto using in_cons. }
  by rewrite E.
Qed.

Lemma same_request_interpret pairs d q : same_request pairs d ->
  interpret (plain_str_ok := plain_str_ok) (form_values pairs) q = interpret (plain_str_ok := plain_str_ok) d q.
Proof.
  intros [Honce (k & Hk & Hdk) (a & n & Ha & Had & Han & Hda) (o & Hoo & Hdo) Hal].
  assert (HL : forall f v, In f REQUIRED_FIELDS -> In (f, v) pairs -> vget f (form_values pairs) = Some (VStr v)).
  { intros f v Hf Hv. rewrite vget_form_values, (last_value_once f v) by auto.
    unfold field_name. by rewrite (proj2 (member_In f _) Hf). }
  unfold interpret. rewrite (HL API_KEY k), (HL AMOUNT a), (HL ORDER_ID o), Hdk, Hda, Hdo by (cbn; auto).
  cbn [amount_value]. rewrite Had, Han.
  rewrite (extract_ext (form_values pairs) d); [done|]. intros f Hf. rewrite Hal by done.
  rewrite vget_form_values. unfold field_name. by rewrite (proj2 (member_In f _) Hf), orb_true_r.
Qed.

Lemma coerce_range v t : coerce_telegram_id v = Some t -> 1 <= t <= MAX_TELEGRAM_USER_ID.
Proof.
  unfold coerce_telegram_id. destruct (match v with VInt n => _ | _ => _ end) as [n|]; [|done].
  destruct ((1 <=? n) && (n <=? MAX_TELEGRAM_USER_ID)) eqn:E; [|done]. intros [= <-]. bool_to_prop. lia.
Qed.

Lemma first_id_range lookup l t : first_id lookup l = Some t -> 1 <= t <= MAX_TELEGRAM_USER_ID.
Proof.
  induction l as [|k l IH]; [done|]. cbn. destruct (lookup k) as [v|]; [|exact IH].
  destruct (coerce_telegram_id v) eqn:E; [intros [= <-]; by eapply coerce_range|exact IH].
Qed.

Lemma extract_range d q t : extract_telegram_user_id d q = Some t -> 1 <= t <= MAX_TELEGRAM_USER_ID.
Proof.
  unfold extract_telegram_user_id. destruct (first_id _ _) eqn:E.
  - intros [= <-]. by eapply first_id_range.
  - apply first_id_range.
Qed.

Lemma interpret_typed d q p : interpret (plain_str_ok := plain_str_ok) d q = Some p -> well_typed (body p) (telegram_user_id p).
Proof.
  unfold interpret. destruct (api_key_error _ _); [done|]. destruct (amount_error _) eqn:E2; [done|].
  destruct (order_id_error _) eqn:E3; [done|].
  destruct (vget API_KEY d) as [[]|]; try done. destruct (amount_value _) as [[]|]; try done.
  destruct (vget ORDER_ID d) as [[]|]; try done. intros [= <-]. cbn [amount_error order_id_error] in E2, E3.
  destruct (ABSOLUTE_MAX_AMOUNT <? z) eqn:Ea; [done|]. destruct (z <=? 0) eqn:Eb; [done|].
  destruct (forallb scalar s0) eqn:Ec; [|done]. cbn [negb] in E3. destruct (128 <? length s0)%nat eqn:Ed; [done|].
  destruct (length s0 <? 1)%nat eqn:Ee; [done|]. destruct (printable s0) eqn:Ef; [|done].
  apply Nat.ltb_ge in Ed, Ee. bool_to_prop. split_and!; cbn; try done; try lia. apply extract_range.
Qed.

Lemma decode_cases mt raw :
  match decode max_depth mt raw with
  | Done _ => supported mt = true
  | Failed (CompatReject _ _) => True
  | _ => False
  end.
Proof.
  assert (Hj : forall l1 l2, match decode_json_layers max_depth l1 l2 raw with
    | Done _ | Failed (CompatReject _ _) => True | _ => False end).
  { intros l1 l2. unfold decode_json_layers. repeat case_match; simplify_eq; done. }
  unfold decode, supported, json_type. destruct (text_eqb mt JSON_TYPE || text_eqb mt []) eqn:E1.
  { specialize (Hj "json_object" "json_string_object"). destruct (decode_json_layers _ _ _ _) as [|[]]; cbn; done. }
  destruct (text_eqb mt FORM_TYPE) eqn:E2.
  { assert (Hu : match decode_urlencoded max_depth raw with
      | Done _ | Failed (CompatReject _ _) | Failed UrlencodedSyntaxError => True | _ => False end).
    { unfold decode_urlencoded, decode_fields. repeat case_match; simplify_eq; done. }
    specialize (Hj "urlencoded_json_object" "urlencoded_json_string_object").
    destruct (decode_urlencoded _ _) as [|[]]; try done; [by rewrite orb_true_r|].
    destruct (decode_json_layers _ _ _ _) as [|[]]; try done. by rewrite orb_true_r. }
  destruct (text_eqb mt PLAIN_TYPE) eqn:E3; [|done].
  specialize (Hj "text_json" "text_json"). by destruct (decode_json_layers _ _ _ _) as [|[]].
Qed.

(** The request [q] that the bytes of [r] hold: a body within the bound
    whose decoded data reads as [q]. *)
Record requests (r : HttpRequest) (q : ParsedPaymentRequest) : Prop := {
  rq_declared : declared_ok r = true;
  rq_size : Z.of_nat (length (concat (chunks r))) <= MAX_BODY_BYTES;
  rq_reads : exists label data, decode max_depth (media_type r) (concat (chunks r)) = Done (label, data) /\
    interpret (plain_str_ok := plain_str_ok) data (query_get r) = Some q
}.

(** A [Content-Length] that [isdigit] accepts and [int] refuses. *)
Definition bad_length (r : HttpRequest) : Prop := declared_size r = Failed (Crash "ValueError").

Lemma declared_ok_done r raw : read_bounded_body r = Done raw -> declared_ok r = true.
Proof.
  unfold read_bounded_body, declared_ok, declared_size. destruct (content_length r) as [s|]; [|done].
  destruct (isdigit s); [|done]. destruct (int_of_isdigit s) as [n|]; [|done].
  destruct (MAX_BODY_BYTES <? n) eqn:E; [done|]. intros _. bool_to_prop. lia.
Qed.

Lemma requests_verdict r q : requests r q -> verdict (parse r) = Some q.
Proof. intros [Hd Hl (label & data & Hdec & Hi)]. by rewrite (parse_decoded r label data). Qed.

(** The outcome of the decoder decides which request the bytes hold. *)
Lemma parse_cases r :
  match parse r with
  | Accepted q => requests r q
  | Rejected _ => ~ bad_length r /\ forall q, ~ requests r q
  | Crashed cls => cls = "ValueError" /\ bad_length r
  end.
Proof.
  assert (Hno : verdict (parse r) = None -> forall q, ~ requests r q).
  { intros E q Hq%requests_verdict. congruence. }
  revert Hno. unfold parse_create_payment_request. pose proof (read_bounded_body_cases r) as Hr.
  pose proof (declared_ok_done r) as Hok.
  destruct (read_bounded_body r) as [raw|[c d| |cls]]; try done.
  - destruct Hr as [-> Hl]. specialize (Hok _ eq_refl).
    assert (Hnb : ~ bad_length r) by (unfold bad_length, declared_ok in *; intros E; by rewrite E in Hok).
    pose proof (decode_cases (media_type r) (concat (chunks r))) as Hd.
    pose proof (parse_body_verdict (plain_str_ok := plain_str_ok) (max_depth := max_depth) r (concat (chunks r))) as Hv.
    unfold parse_body in *. destruct (decode max_depth (media_type r) (concat (chunks r))) as [[label data]|[]] eqn:Ed;
      try done; [|by auto].
    specialize (Hv label data eq_refl). destruct (validate _ _); [by auto|]. intros _. cbn in Hv.
    split; [done..|]. exists label, data. by split.
  - destruct Hr as [_ [n Hn]]. rewrite Hn. intros H. split; [unfold bad_length; by rewrite Hn|by apply H].
  - unfold bad_length. by destruct Hr as [-> ->].
Qed.

(** C10: Every accepted request is typed, and no body crashes the decoder. An
    accepted body has at most 64 KiB and a supported media type, its amount
    is between 1 and the schema bound, its order id is 1 to 128 encodable
    characters without control characters, and the Telegram id, if any, is
    in the range that no order-based payer id can reach. Whatever the bytes,
    the outcome is a parsed request or a logged refusal; the one exception
    is a [Content-Length] that [int] refuses. *)
Theorem parse_accepts_only_typed r :
  match parse r with
  | Accepted p => well_typed (body p) (telegram_user_id p) /\ supported (media_type r) = true /\
      Z.of_nat (length (concat (chunks r))) <= MAX_BODY_BYTES
  | Rejected _ => True
  | Crashed cls => cls = "ValueError" /\ declared_size r = Failed (Crash cls)
  end.
Proof.
  pose proof (parse_cases r) as H. destruct (parse r) as [q|rej|cls]; [|done|].
  - destruct H as [_ Hl (label & data & Hd & Hi)]. pose proof (decode_cases (media_type r) (concat (chunks r))) as Hm.
    rewrite Hd in Hm. split_and!; [by eapply interpret_typed|done..].
  - unfold bad_length in H. by destruct H as [-> ?].
Qed.

(** C11: Every representation of a document yields the same request. Whether a
    sender posts the JSON document itself, the document as a JSON string,
    the document percent-encoded as the key of a form, raw under the form
    content type, or raw as a form key, the decoder reads what the document
    says: the same three fields, the same identity, the same verdict. *)
Theorem representations_agree s d r :
  json_loads max_depth s = Some (VDict d) -> forallb scalar s = true ->
  representation_of s (media_type r) (concat (chunks r)) ->
  declared_ok r = true -> Z.of_nat (length (concat (chunks r))) <= MAX_BODY_BYTES ->
  verdict (parse r) = interpret (plain_str_ok := plain_str_ok) d (query_get r).
Proof.
  intros Ho Hs Hrep Hd Hl. destruct (representation_decodes s d _ _ Ho Hs Hrep) as [label Hdec].
  by apply (parse_decoded r label).
Qed.

(** A form and a JSON document that say the same are the same request:
    each required field once, the amount in decimal digits, any extra
    fields, the aliases equal. Percent-encoding, UTF-8 and the conversion of
    the amount are inverted exactly. *)
Theorem form_and_json_agree s d pairs r1 r2 :
  json_loads max_depth s = Some (VDict d) -> forallb scalar s = true -> same_request pairs d ->
  forallb scalar_field pairs = true -> (3 <= length pairs <= MAX_FORM_PAIRS)%nat ->
  media_type r1 = JSON_TYPE -> concat (chunks r1) = utf8_bytes s ->
  media_type r2 = FORM_TYPE -> concat (chunks r2) = utf8_bytes (urlencode pairs) ->
  declared_ok r1 = true -> declared_ok r2 = true ->
  Z.of_nat (length (concat (chunks r1))) <= MAX_BODY_BYTES ->
  Z.of_nat (length (concat (chunks r2))) <= MAX_BODY_BYTES ->
  query_get r1 = query_get r2 ->
  verdict (parse r1) = verdict (parse r2).
Proof.
  intros Ho Hs Hsame Hsc Hn Hm1 Hc1 Hm2 Hc2 Hd1 Hd2 Hl1 Hl2 Hq.
  rewrite (parse_decoded r1 "json_object" d); [|done..|by rewrite Hm1, Hc1; apply json_layers_object].
  rewrite (parse_decoded r2 "urlencoded" (form_values pairs)); [|done..|].
  - rewrite Hq. symmetry. by apply same_request_interpret.
  - rewrite Hm2, Hc2. apply decode_ordinary_form; [done..|]. apply Hsame.
Qed.

(** The three recoveries of JSON from a form are mutually exclusive: no
    form, however malformed, is read in two ways, so their order is
    immaterial. *)
Theorem recoveries_exclusive s pairs : parse_qsl s = Some pairs ->
  let taken := List.filter is_some [recover_json_key_form max_depth pairs; recover_raw_json_key max_depth s pairs;
                                    recover_raw_json_body max_depth s pairs] in
  (length taken <= 1)%nat.
Proof.
  intros Hp taken. subst taken.
  destruct (recover_json_key_form max_depth pairs) as [d1|] eqn:E1.
  - pose proof (key_form_ends s pairs d1 Hp E1) as He. apply recover_key_form_empty in E1 as [k ->].
    destruct (recover_raw_json_key max_depth s [(k, [])]) eqn:E2.
    { apply recover_raw_key_ends in E2 as (_ & k' & v' & [= _ <-] & Hv). done. }
    destruct (recover_raw_json_body max_depth s [(k, [])]) eqn:E3; [|cbn; lia].
    apply recover_raw_body_object, object_no_equals_end in E3. congruence.
  - destruct (recover_raw_json_key max_depth s pairs) eqn:E2; [|by destruct (recover_raw_json_body _ _ _); cbn; lia].
    destruct (recover_raw_json_body max_depth s pairs) eqn:E3; [|cbn; lia].
    apply recover_raw_key_ends in E2 as [E2 _]. apply recover_raw_body_object, object_no_equals_end in E3. congruence.
Qed.
End Contract.

(** ** Concrete requests *)

(** Quotation marks written as apostrophes. *)
Definition doc : text := q "{'api_key': 'k=1', 'amount': '5000', 'order_id': 'o-1', 'uid': 77}".

Definition post (mt : string) (raw : list Z) : HttpRequest :=
  mkHttpRequest (Some (u mt)) None [raw] (fun _ => None).

Definition doc_fields : vdict :=
  [(API_KEY, VStr (u "k=1")); (AMOUNT, VStr (u "5000")); (ORDER_ID, VStr (u "o-1")); (u "uid", VInt 77)].

Definition doc_request : ParsedPaymentRequest := mkParsed (mkCreate (u "k=1") 5000 (u "o-1")) (Some 77).

Lemma representations_agree_witness :
  json_loads 10 doc = Some (VDict doc_fields) /\
  verdict (parse_create_payment_request 10 (forallb scalar)
    (post "application/x-www-form-urlencoded; charset=utf-8" (utf8_bytes doc))) = Some doc_request.
Proof.
  split; [vm_compute; reflexivity|].
  assert (E : interpret (plain_str_ok := forallb scalar) doc_fields (fun _ => None) = Some doc_request)
    by (vm_compute; reflexivity).
  rewrite <- E. apply (representations_agree doc); try (vm_compute; reflexivity).
  - cbn [post chunks concat]. rewrite app_nil_r.
    replace (media_type (post _ _)) with FORM_TYPE by (vm_compute; reflexivity). apply as_form_body. vm_compute. reflexivity.
  - vm_compute. intros [=].
Defined.

Definition doc_pairs : list (text * text) :=
  [(ORDER_ID, [1587; 33]); (u "extra", u "a&b"); (API_KEY, u "k=1+%"); (AMOUNT, u "0005000"); (u "uid", u " 77 ")].

Definition doc_json : text :=
  q "{'api_key': 'k=1+%', 'amount': 5000, 'uid': ' 77 ', 'order_id': '\u0633!'}".

Lemma form_and_json_agree_witness :
  verdict (parse_create_payment_request 10 (forallb scalar) (post "application/json" (utf8_bytes doc_json))) =
  verdict (parse_create_payment_request 10 (forallb scalar)
             (post "application/x-www-form-urlencoded" (utf8_bytes (urlencode doc_pairs)))).
Proof.
  apply (form_and_json_agree doc_json
    [(API_KEY, VStr (u "k=1+%")); (AMOUNT, VInt 5000); (u "uid", VStr (u " 77 ")); (ORDER_ID, VStr [1587; 33])] doc_pairs);
    try (vm_compute; reflexivity); try (vm_compute; intros [=]); try (cbn; rewrite app_nil_r; reflexivity).
  - split.
    + cbn. intros f [<-|[<-|[<-|[]]]]; vm_compute; reflexivity.
    + exists (u "k=1+%"). split; [cbn; auto|vm_compute; reflexivity].
    + exists (u "0005000"), 5000. split_and!; [cbn; auto|vm_compute; reflexivity..].
    + exists [1587; 33]. split; [cbn; auto|vm_compute; reflexivity].
    + cbn. intros k Hk. repeat destruct Hk as [<-|Hk]; [vm_compute; reflexivity..|done].
  - unfold MAX_FORM_PAIRS. cbn. lia.
Defined.

Lemma recoveries_exclusive_witness :
  let s := doc ++ [61] in
  let pairs := default [] (parse_qsl s) in
  length (List.filter is_some [recover_json_key_form 10 pairs; recover_raw_json_key 10 s pairs; recover_raw_json_body 10 s pairs]) = 1%nat /\
  (length (List.filter is_some [recover_json_key_form 10 pairs; recover_raw_json_key 10 s pairs; recover_raw_json_body 10 s pairs]) <= 1)%nat.
Proof.
  intros s pairs. split; [vm_compute; reflexivity|]. apply (recoveries_exclusive s pairs). vm_compute. reflexivity.
Defined.

(** Some refusals, with what is logged of them. *)
Example refused_array : parse_create_payment_request 10 (forallb scalar) (post "" (utf8_bytes (u "[1]"))) =
  Rejected (mkRejection "json_object" [] (Some 3) []).
Proof. vm_compute. reflexivity. Qed.
Example refused_schema :
  parse_create_payment_request 10 (forallb scalar) (post "text/plain" (utf8_bytes (q "{'amount': true, 'order_id': ''}"))) =
  Rejected (mkRejection "schema_invalid" PLAIN_TYPE (Some 32)
    [("decoded_representation", DLabel "text_json"); ("invalid_fields", DNames [AMOUNT; API_KEY; ORDER_ID]);
     ("invalid_error_types", DLabels ["int_type"; "missing"; "string_too_short"]);
     ("field_types", DTypes [(API_KEY, "missing"); (AMOUNT, "boolean"); (ORDER_ID, "string")]);
     ("amount_is_ascii_decimal_string", DBool false); ("order_id_length", DInt 0)]).
Proof. vm_compute. reflexivity. Qed.
Example crashed_length : parse_create_payment_request 10 (forallb scalar)
  (mkHttpRequest None (Some [178]) [] (fun _ => None)) = Crashed "ValueError".
Proof. vm_compute. reflexivity. Qed.
