(* ===== verification/CreateRoute.v ===== *)
(** [POST /api/custom-payment] from the bytes of the request to the response:
    the decoder of [Body], the route of [Api], and the exception handlers of
    [app/main.py].

    The route works on Latin-1 text, as the rest of the development; a
    request whose key or order id is beyond it is outside the model
    ([None]). *)

From S2P Require Import Prelude PyText Exceptions Config Models Identity Session Ledger.
From S2P Require Import Urls Security RateLimit ClientIp PayerIdentity Payments Verification Api.
From S2P Require Import Unicode JsonText Body.

(** ** Responses *)

Record Response := mkResponse {
  response_status : Z;
  response_code : string;      (* [error.code], empty on success *)
  response_message : string;   (* [error.message], or the link *)
  retry_after_header : option string
}.

Definition bridge_error_handler (e : BridgeError) : Response :=
  mkResponse (http_status (error_class e)) (error_code (error_class e)) (message e)
    (option_map str_of_int (retry_after_seconds e)).

Definition validation_error_handler : Response := mkResponse 422 "validation_error" "Invalid request" None.
Definition unhandled_error_handler : Response := mkResponse 500 "internal_error" "Internal server error" None.

(** What the application answers: the handler of the exception's class. *)
Definition respond (r : Res string) : Response :=
  match r with
  | Ret url => mkResponse 200 "" url None
  | Raise (Bridge e) => bridge_error_handler e
  | Raise (Unexpected cls) =>
      if String.eqb cls "RequestValidationError" then validation_error_handler else unhandled_error_handler
  | Raise _ => unhandled_error_handler
  end.

(** ** The route *)

(** A text of the model's alphabet. *)
Fixpoint latin1 (s : text) : option string :=
  match s with
  | [] => Some ""
  | c :: s' =>
      if (0 <=? c) && (c <=? 255) then option_map (String (char c)) (latin1 s') else None
  end.

Definition to_route (p : Body.ParsedPaymentRequest) : option Api.ParsedPaymentRequest :=
  match latin1 (api_key (body p)), latin1 (order_id (body p)) with
  | Some k, Some o => Some (Api.mkParsed k (Body.amount (body p)) o (telegram_user_id p))
  | _, _ => None
  end.

Section Route.
Context `{Host} `{Env} `{UrlLib}.
Variables (max_depth : nat) (plain_str_ok : text -> bool).

(** [constant_time_equals] encodes the submitted key before comparing it. *)
Definition post_custom_payment (settings : Settings) (request : Request) (http : HttpRequest)
    : option (Handler string) :=
  match parse_create_payment_request max_depth plain_str_ok http with
  | Rejected _ => Some (hraise RequestValidationError)
  | Crashed cls => Some (hraise (Unexpected cls))
  | Accepted p =>
      if negb (String.eqb (inbound_api_key settings) "") && negb (forallb scalar (api_key (body p)))
      then Some (hraise (Unexpected "UnicodeEncodeError"))
      else option_map (create_custom_payment settings request) (to_route p)
  end.
End Route.

(** ** Facts *)

Lemma latin1_length s t : latin1 s = Some t -> String.length t = length s.
Proof.
  revert t. induction s as [|c s IH]; intros t; cbn; [by intros [= <-]|].
  destruct ((0 <=? c) && (c <=? 255)); [|done]. destruct (latin1 s) as [t'|]; [|done]. intros [= <-]. cbn.
  by rewrite (IH t').
Qed.

Lemma latin1_codes s t : latin1 s = Some t -> u t = s.
Proof.
  revert t. induction s as [|c s IH]; intros t; cbn; [by intros [= <-]|].
  destruct ((0 <=? c) && (c <=? 255)) eqn:E; [|done]. destruct (latin1 s) as [t'|]; [|done]. intros [= <-]. cbn.
  rewrite (IH t') by done. f_equal. bool_to_prop. unfold code, char.
  rewrite Ascii.N_ascii_embedding by lia. lia.
Qed.

(** What the strict model promises to the route. *)
Record route_typed (parsed : Api.ParsedPaymentRequest) : Prop := {
  rt_amount : 0 < body_amount parsed <= ABSOLUTE_MAX_AMOUNT;
  rt_order_length : (1 <= String.length (body_order_id parsed) <= 128)%nat;
  rt_order_printable : printable (u (body_order_id parsed)) = true;
  rt_telegram : forall t, parsed_telegram_user_id parsed = Some t -> 1 <= t <= MAX_TELEGRAM_USER_ID
}.

Lemma to_route_typed p parsed : well_typed (body p) (telegram_user_id p) -> to_route p = Some parsed -> route_typed parsed.
Proof.
  intros (Ha & Hl & _ & Hp & Ht). unfold to_route. destruct (latin1 (api_key (body p))); [|done].
  destruct (latin1 (order_id (body p))) as [o|] eqn:E; [|done]. intros [= <-]. split; cbn; try done.
  - by rewrite (latin1_length _ _ E).
  - by rewrite (latin1_codes _ _ E).
Qed.

Section RouteFacts.
Context `{HOST : Host} `{ENV : Env} `{URLLIB : UrlLib}.
Context {max_depth : nat} {plain_str_ok : text -> bool}.

(** The route's request is the one the bytes hold: its key, amount, order id
    and identity, character by character. *)
Record carries (q : Body.ParsedPaymentRequest) (parsed : Api.ParsedPaymentRequest) : Prop := {
  cr_key : u (body_api_key parsed) = api_key (body q);
  cr_amount : body_amount parsed = Body.amount (body q);
  cr_order : u (body_order_id parsed) = order_id (body q);
  cr_telegram : parsed_telegram_user_id parsed = telegram_user_id q
}.

Lemma to_route_carries q parsed : to_route q = Some parsed -> carries q parsed.
Proof.
  unfold to_route. destruct (latin1 (api_key (body q))) as [k|] eqn:Ek; [|done].
  destruct (latin1 (order_id (body q))) as [o|] eqn:Eo; [|done]. intros [= <-].
  split; cbn; [by apply latin1_codes|done|by apply latin1_codes|done].
Qed.

Abbreviation holds := (requests (max_depth := max_depth) (plain_str_ok := plain_str_ok)).

(** What becomes of the request [http]. *)
Inductive post_outcome (settings : Settings) (request : Request) (http : HttpRequest) (p : Process)
    (r : Res string) (p' : Process) : Prop :=
  | post_refused : ~ bad_length http -> (forall q, ~ holds http q) ->
      respond r = validation_error_handler -> p' = p ->
      post_outcome settings request http p r p'
  | post_bad_length : bad_length http -> respond r = unhandled_error_handler -> p' = p ->
      post_outcome settings request http p r p'
  | post_unencodable q : holds http q -> inbound_api_key settings <> "" -> forallb scalar (api_key (body q)) = false ->
      respond r = unhandled_error_handler -> p' = p ->
      post_outcome settings request http p r p'
  | post_routed q parsed : holds http q -> carries q parsed -> route_typed parsed ->
      create_outcome settings request parsed p r p' ->
      post_outcome settings request http p r p'.

(** C8: The creation route, from the bytes of a request on. A body that holds
    no request is answered 422 and touches neither the database nor a
    limiter; 500 without a trace is the answer to a [Content-Length] that
    [int] refuses and to a key that UTF-8 cannot encode, and to nothing else
    before the gates. Any other request reaches the gates as the bytes say
    it, typed: without the inbound key it is refused, the database is not
    touched, and the budgets of the customers are not spent; with the key,
    [create_payment] runs at most once, for the order, amount and identity
    of the body, and only if creation is enabled, the payer secret is
    configured, the amount is at least the minimum, and the request is a
    safe replay or was within both its client's and the global budget. *)
Theorem post_route_gates settings request http h p :
  post_custom_payment max_depth plain_str_ok settings request http = Some h ->
  sound (session p) -> committed (session p) = working (session p) -> identity_map (session p) = ∅ ->
  hwp h (post_outcome settings request http p) p.
Proof.
  unfold post_custom_payment. intros Hh Hs Hc Hm.
  pose proof (parse_cases (max_depth := max_depth) (plain_str_ok := plain_str_ok) http) as Ht.
  destruct (parse_create_payment_request max_depth plain_str_ok http) as [q|rej|cls].
  - assert (Hty : well_typed (body q) (telegram_user_id q)).
    { destruct Ht as [_ _ (label & data & _ & Hi)]. by eapply interpret_typed. }
    destruct (negb _ && negb _) eqn:Eb.
    + apply andb_true_iff in Eb as [E1 E2]. apply negb_true_iff in E1, E2. apply String.eqb_neq in E1.
      injection Hh as <-. apply hwp_raise. by apply (post_unencodable _ _ _ _ _ _ q).
    + destruct (to_route q) as [parsed|] eqn:E; [|done]. injection Hh as <-.
      eapply hwp_mono; [by apply hwp_create_custom_payment|]. intros r p' Hr.
      apply (post_routed _ _ _ _ _ _ q parsed); [done|by apply to_route_carries|by eapply to_route_typed|done].
  - destruct Ht as [Hb Hn]. injection Hh as <-. apply hwp_raise. by apply post_refused.
  - destruct Ht as [-> Hb]. injection Hh as <-. apply hwp_raise. by apply post_bad_length.
Qed.

(** A document whose key is a lone surrogate, which JSON can write and UTF-8
    cannot encode. *)
Definition surrogate_request : HttpRequest :=
  post "application/json" (utf8_bytes (q "{'api_key': '\ud800', 'amount': 1, 'order_id': 'x'}")).

(** A key the comparison cannot encode is a server error. If the
    validation library takes a string with a lone surrogate for a plain
    [StrictStr], an unauthenticated request with such a key passes the
    strict model and raises [UnicodeEncodeError] in the comparison: the
    answer is 500 instead of 401, and no limiter counts the attempt. *)
Theorem surrogate_key_unhandled depth settings request p :
  inbound_api_key settings <> "" ->
  exists h, post_custom_payment (S depth) (fun _ => true) settings request surrogate_request = Some h /\
    respond (fst (h p)) = unhandled_error_handler /\ snd (h p) = p.
Proof.
  intros Hk%String.eqb_neq. unfold post_custom_payment.
  assert (E : parse_create_payment_request (S depth) (fun _ => true) surrogate_request =
    Accepted (Body.mkParsed (mkCreate [55296] 1 (u "x")) None)) by (destruct depth; vm_compute; reflexivity).
  rewrite E, Hk. cbn. eauto.
Qed.
End RouteFacts.

(** ** Concrete requests *)

Definition shop_post (s : string) : HttpRequest := post "application/json; charset=utf-8" (utf8_bytes (q s)).

Definition post_call (s : string) : option (Handler string) :=
  @post_custom_payment quiet_host calm_env no_brackets 10 (forallb scalar) default_settings shop_request (shop_post s).

Definition guess : string := "{'api_key': 'guess', 'amount': 250000, 'order_id': 'order-1', 'user_id': 42}".
Definition genuine : string :=
  "{'api_key': 'inbound-api-key-0001', 'amount': '250000', 'order_id': 'order-1', 'user_id': '42'}".

Definition answer (s : string) (a : AppState) : option Response :=
  option_map (fun h => respond (fst (h (linked_process a)))) (post_call s).

Example answers :
  map (fun s => option_map response_status (answer s fresh_app)) ["{'amount': 1}"; guess; genuine]
  = [Some 422; Some 401; Some 200].
Proof. vm_compute. reflexivity. Qed.

Lemma post_route_gates_witness : exists h, post_call guess = Some h /\
  hwp h (@post_outcome quiet_host calm_env no_brackets 10 (forallb scalar) default_settings shop_request
    (shop_post guess) (linked_process fresh_app)) (linked_process fresh_app).
Proof.
  set (h := @create_custom_payment quiet_host calm_env no_brackets default_settings shop_request
    (Api.mkParsed "guess" 250000 "order-1" (Some 42))).
  assert (E : post_call guess = Some h).
  { assert (Hp : parse_create_payment_request 10 (forallb scalar) (shop_post guess) =
      Accepted (Body.mkParsed (mkCreate (u "guess") 250000 (u "order-1")) (Some 42))) by (vm_compute; reflexivity).
    unfold post_call, post_custom_payment. rewrite Hp. reflexivity. }
  exists h. split; [exact E|].
  apply (@post_route_gates quiet_host calm_env no_brackets 10 (forallb scalar) default_settings shop_request
    (shop_post guess) h (linked_process fresh_app)).
  - exact E.
  - exact linked_sound.
  - reflexivity.
  - reflexivity.
Defined.

Lemma surrogate_key_unhandled_witness : exists h : Handler string,
  respond (fst (h (linked_process fresh_app))) = unhandled_error_handler.
Proof.
  destruct (@surrogate_key_unhandled quiet_host calm_env no_brackets 9 default_settings shop_request
    (linked_process fresh_app)) as (h & _ & H & _).
  - vm_compute. discriminate.
  - exists h. exact H.
Defined.
