(* ===== verification/AlertDelivery.v ===== *)
(** Delivery of the alert outbox by the admin bot: the delivery half of
    [app/adminbot/alerts.py], and the classification of Telegram's errors in
    [app/adminbot/telegram.py].

    A pass releases the claims of crashed instances, claims up to ten due
    alerts, sends each to every administrator outside any transaction, and
    records the outcome only while the row still carries the claim. The
    sender and the rendering of an alert are parameters: the class
    [AlertSender]. *)

From S2P Require Import Prelude PyText Exceptions Config Models ServiceTables Session AuditTrail Ledger.
From S2P Require Import Notification Unicode.
From Stdlib Require Import QArith_base.

#[local] Open Scope Z_scope.

(** ** Telegram *)

Record SendOutcome := mkSendOutcome {
  send_ok : bool;
  retryable : bool;
  retry_after_seconds : option Z;
  error_code : option string
}.

(** The classes of [telegram.error] that the classifier asks for. *)
Inductive TelegramClass :=
  | RetryAfter | InvalidToken | Forbidden | BadRequest | TimedOut | NetworkError | TelegramError.

(** [RetryAfter.retry_after]: seconds, or a [timedelta] in microseconds. *)
Inductive RetryAfterValue := RetrySeconds (s : Z) | RetryDelta (us : Z).

(** An exception, as far as the classifier looks at it. *)
Record SendError := mkSendError {
  is_instance : TelegramClass -> bool;
  retry_after_value : RetryAfterValue
}.

(** [int(value)]: towards zero. *)
Definition retry_after_int (v : RetryAfterValue) : Z :=
  match v with RetrySeconds s => s | RetryDelta us => Z.quot us 1000000 end.

Definition classify_send_error (exc : SendError) : SendOutcome :=
  let failure retry code := mkSendOutcome false retry None (Some code) in
  if is_instance exc RetryAfter then
    mkSendOutcome false true (Some (retry_after_int (retry_after_value exc) + 1)) (Some "telegram_429")
  else if is_instance exc InvalidToken then failure false "telegram_invalid_token"
  else if is_instance exc Forbidden then failure false "telegram_forbidden"
  else if is_instance exc BadRequest then failure false "telegram_bad_request"
  else if is_instance exc TimedOut || is_instance exc NetworkError then failure true "telegram_network"
  else if is_instance exc TelegramError then failure true "telegram_error"
  else failure true "telegram_unknown".

(** [TelegramAlertSender.send] around the library's [send_message]. *)
Definition telegram_sender (send_message : nat -> Z -> text -> option SendError)
    (n : nat) (chat_id : Z) (message : text) : SendOutcome :=
  match send_message n chat_id message with
  | Some exc => classify_send_error exc
  | None => mkSendOutcome true false None None
  end.

(** ** Claims *)

Record ClaimedAlert := mkClaimedAlert {
  claimed_alert_id : Z;
  claimed_type : string;
  claimed_severity : string;
  claimed_payment : option Z;
  claimed_payload : option dict;
  claimed_attempts : Z;
  claimed_worker : string
}.

(** [AlertSender.send], and [alert_message] of format.py, which reads the
    database and the time and may raise. *)
Class AlertSender := {
  send : nat -> Z -> text -> SendOutcome;
  alert_message : Db -> Settings -> ClaimedAlert -> Z -> Res (list text)
}.

Definition ALERT_RETRY_DELAYS_SECONDS : list Z := [30; 60; 120; 300; 900; 1800].

Definition alert_retry_delay_seconds (attempts_completed : Z) (retry_after : option Z) (jitter : Q) : Q :=
  let index := Z.min (Z.max attempts_completed 1) (Z.of_nat (length ALERT_RETRY_DELAYS_SECONDS)) - 1 in
  let delay := Qmult (inject_Z (nth (Z.to_nat index) ALERT_RETRY_DELAYS_SECONDS 0)) jitter in
  match retry_after with
  | Some s => if negb (Qle_bool (inject_Z s) delay) then inject_Z s else delay
  | None => delay
  end.

(** The WHERE clauses of [release_stale_alert_claims] and [claim_due_alerts]. *)
Definition stale_alert (cutoff : Z) (a : AdminAlert) : bool :=
  bool_decide (alert_status a = SENDING) && is_some (alert_claimed_at a) &&
  opt_le (alert_claimed_at a) cutoff.

Definition alert_due (now : Z) (a : AdminAlert) : bool :=
  (bool_decide (alert_status a = PENDING) || bool_decide (alert_status a = RETRY_SCHEDULED)) &&
  (is_none (alert_next_retry_at a) || opt_le (alert_next_retry_at a) now) &&
  is_none (alert_claimed_at a).

Definition alert_id_order (a b : AdminAlert) : bool := alert_id a <=? alert_id b.

Definition released_alert (now : Z) (a : AdminAlert) : AdminAlert :=
  a <| alert_status := PENDING |> <| alert_claimed_at := None |> <| alert_claimed_by := None |>
    <| alert_next_retry_at := Some now |>.

Definition claimed_row (worker : string) (now : Z) (a : AdminAlert) : AdminAlert :=
  a <| alert_status := SENDING |> <| alert_claimed_at := Some now |>
    <| alert_claimed_by := Some worker |> <| alert_attempts := alert_attempts a + 1 |>.

(** The claim taken of the row [a], already updated. *)
Definition claim_of (worker : string) (a : AdminAlert) : ClaimedAlert :=
  mkClaimedAlert (alert_id a) (alert_type a) (severity a) (alert_payment_id a) (payload a)
    (alert_attempts a) worker.

(** The row still carries this claim. *)
Definition alert_claim_current (c : ClaimedAlert) (a : AdminAlert) : bool :=
  bool_decide (alert_status a = SENDING) &&
  bool_decide (alert_claimed_by a = Some (claimed_worker c)) &&
  (alert_attempts a =? claimed_attempts c) && is_some (alert_claimed_at a).

(** What sending one alert to all administrators came to. *)
Record Tally := mkTally {
  tally_delivered : Z;
  tally_retryable : bool;
  tally_retry_after : option Z;
  tally_error : option string
}.

(** The assignments of the three branches of [record_delivery_result],
    which reach the row together: the claim is released, the error recorded. *)
Definition answered_alert (error : option string) (a : AdminAlert) : AdminAlert :=
  a <| alert_claimed_at := None |> <| alert_claimed_by := None |> <| alert_last_error_code := error |>.

Definition delivered_alert (error : option string) (now : Z) (a : AdminAlert) : AdminAlert :=
  answered_alert error a <| alert_status := DELIVERED |> <| delivered_at := Some now |>
    <| alert_next_retry_at := None |>.

Definition retried_alert (error : option string) (retry_at : Z) (a : AdminAlert) : AdminAlert :=
  answered_alert error a <| alert_status := RETRY_SCHEDULED |>
    <| alert_next_retry_at := Some retry_at |>.

Definition failed_alert (error : option string) (a : AdminAlert) : AdminAlert :=
  answered_alert error a <| alert_status := FAILED |> <| alert_next_retry_at := None |>.

Section AlertDelivery.
Context `{Env} `{AlertSender}.

(** Assigning attributes of an alert; the row is locked and was read in this
    transaction, so the object and the row agree. *)
Definition upd_alert (a : AdminAlert) (f : AdminAlert -> AdminAlert) : M AdminAlert := fun w =>
  (Ret (f a),
   w <| working := (working w) <| admin_alerts := alter f (alert_id a) (admin_alerts (working w)) |> |>).

Definition release_stale_alert_claims (settings : Settings) (now : Z) : M Z :=
  let cutoff := now - admin_bot_alert_claim_timeout settings in
  let* d := get_db in
  let* locked := tick locked_by_others in
  match List.filter (fun a => stale_alert cutoff a && negb (locked (alert_id a))) (rows (admin_alerts d)) with
  | [] => rollback ;;; ret 0
  | alerts =>
      for_each (fun a => upd_alert a (released_alert now) ;;; ret tt) alerts ;;;
      commit ;;;
      ret (Z.of_nat (length alerts))
  end.

Fixpoint claim_all (worker : string) (now : Z) (alerts : list AdminAlert) : M (list ClaimedAlert) :=
  match alerts with
  | [] => ret []
  | a :: alerts' =>
      let* a := upd_alert a (claimed_row worker now) in
      let* cs := claim_all worker now alerts' in
      ret (claim_of worker a :: cs)
  end.

Definition claim_due_alerts (worker : string) (now : Z) (limit : nat) : M (list ClaimedAlert) :=
  let* d := get_db in
  let* locked := tick locked_by_others in
  match select_batch (fun a => alert_due now a && negb (locked (alert_id a))) alert_id_order limit
          (rows (admin_alerts d)) with
  | [] => rollback ;;; ret []
  | alerts =>
      let* claimed := claim_all worker now alerts in
      commit ;;;
      ret claimed
  end.

(** [record_delivery_result]; the status it returns. *)
Definition record_delivery_result (settings : Settings) (c : ClaimedAlert) (t : Tally)
    (now : Z) (jitter : JitterFn) : M string :=
  let* d := get_db in
  match admin_alerts d !! claimed_alert_id c with
  | None => raise (Unexpected "NoResultFound")
  | Some alert =>
      if negb (alert_claim_current c alert) then
        record_event (alert_payment_id alert) "admin_alert_result_discarded" "warning"
          [("alert_id", JInt (alert_id alert)); ("stale_attempt", JInt (claimed_attempts c));
           ("stale_worker_id", JStr (claimed_worker c));
           ("observed_status", JStr (alert_status_value (alert_status alert)));
           ("observed_attempts", JInt (alert_attempts alert))] ;;;
        commit ;;;
        ret "discarded"
      else
        let* alert :=
          if 0 <? tally_delivered t then
            let* alert := upd_alert alert (delivered_alert (tally_error t) now) in
            record_event (alert_payment_id alert) "admin_alert_delivered" "info"
              [("alert_id", JInt (alert_id alert)); ("alert_type", JStr (alert_type alert));
               ("recipients", JInt (tally_delivered t)); ("attempt", JInt (claimed_attempts c))] ;;;
            ret alert
          else if tally_retryable t && (claimed_attempts c <? admin_bot_alert_max_attempts settings) then
            let* j := tick jitter in
            let delay := alert_retry_delay_seconds (claimed_attempts c) (tally_retry_after t) j in
            upd_alert alert (retried_alert (tally_error t) (now + microseconds delay))
          else
            let* alert := upd_alert alert (failed_alert (tally_error t)) in
            record_event (alert_payment_id alert) "admin_alert_failed" "error"
              [("alert_id", JInt (alert_id alert)); ("alert_type", JStr (alert_type alert));
               ("attempt", JInt (claimed_attempts c)); ("error_code", jstr_opt (tally_error t))] ;;;
            ret alert in
        let st := alert_status alert in
        commit ;;;
        ret (alert_status_value st)
  end.

Definition send_message (chat_id : Z) (chunk : text) : M SendOutcome := fun w =>
  tick (fun n => send n chat_id chunk) (w <| calls := TelegramSend chat_id chunk :: calls w |>).

(** The inner loop: the chunks in order, up to the first that fails. *)
Fixpoint send_chunks (chat_id : Z) (chunks : list text) : M (option SendOutcome) :=
  match chunks with
  | [] => ret None
  | chunk :: chunks' =>
      let* outcome := send_message chat_id chunk in
      if send_ok outcome then send_chunks chat_id chunks' else ret (Some outcome)
  end.

(** The outcome for one recipient, added to the tally. *)
Definition count_recipient (t : Tally) (failed : option SendOutcome) : Tally :=
  match failed with
  | None => mkTally (tally_delivered t + 1) (tally_retryable t) (tally_retry_after t) (tally_error t)
  | Some o =>
      mkTally (tally_delivered t) (tally_retryable t || retryable o)
        (if retryable o then
           match retry_after_seconds o with
           | Some s => Some (Z.max (default 0 (tally_retry_after t)) s)
           | None => tally_retry_after t
           end
         else tally_retry_after t)
        (match tally_error t with
         | Some e => if String.eqb e "" then error_code o else Some e
         | None => error_code o
         end)
  end.

Fixpoint send_to_all (admin_ids : list Z) (chunks : list text) (t : Tally) : M Tally :=
  match admin_ids with
  | [] => ret t
  | chat_id :: admin_ids' =>
      let* failed := send_chunks chat_id chunks in
      send_to_all admin_ids' chunks (count_recipient t failed)
  end.

Definition no_recipient : Tally := mkTally 0 false None None.

(** A delivery with failures is marked partial. *)
Definition conclude_tally (t : Tally) : Tally :=
  match tally_error t with
  | Some e => if 0 <? tally_delivered t
              then mkTally (tally_delivered t) (tally_retryable t) (tally_retry_after t)
                     (Some ("partial:" +:+ e))
              else t
  | None => t
  end.

Definition deliver_claimed_alert (settings : Settings) (admin_ids : list Z) (jitter : JitterFn)
    (c : ClaimedAlert) : M string :=
  new_session ;;;
  let* d := get_db in
  let* t := utcnow in
  let* messages := match alert_message d settings c t with
                   | Ret m => ret m
                   | Raise e => raise e
                   end in
  let* tally := send_to_all admin_ids messages no_recipient in
  new_session ;;;
  let* now := utcnow in
  record_delivery_result settings c (conclude_tally tally) now jitter.

(** [alert_delivery_pass]. *)
Definition alert_delivery_pass (settings : Settings) (admin_ids : list Z) (worker : option string)
    (jitter : JitterFn) : M Z :=
  let* instance := match worker with
                   | Some w => if String.eqb w "" then
                                 let* u := tick token_hex in ret ("adminbot-" +:+ str_take 8 u)
                               else ret w
                   | None => let* u := tick token_hex in ret ("adminbot-" +:+ str_take 8 u)
                   end in
  new_session ;;;
  (let* now := utcnow in release_stale_alert_claims settings now) ;;;
  new_session ;;;
  let* claimed := (let* now := utcnow in claim_due_alerts instance now 10) in
  for_each (fun c => deliver_claimed_alert settings admin_ids jitter c ;;; ret tt) claimed ;;;
  ret (Z.of_nat (length claimed)).
End AlertDelivery.

(** ** Facts: one row *)

(** A step of a row whose status is known. *)
Ltac alert_step Hst :=
  split; [done | unfold alert_final; by rewrite Hst | cbn; lia |];
  unfold alert_ok, alert_final, alert_tried; cbn; rewrite Hst; cbn;
  destruct (alert_claimed_at _), (alert_claimed_by _), (delivered_at _); cbn; try done;
  intros; bool_to_prop; rewrite ?andb_true_iff, ?Z.leb_le; repeat split; first [done | lia].

Lemma released_legal now a : alert_status a = SENDING -> alert_legal a (released_alert now a).
Proof. intros Hst. alert_step Hst. Qed.

Lemma claimed_legal worker now a : alert_status a = PENDING \/ alert_status a = RETRY_SCHEDULED ->
  alert_legal a (claimed_row worker now a).
Proof. intros [Hst|Hst]; alert_step Hst. Qed.

Lemma delivered_legal error now a : alert_status a = SENDING -> alert_legal a (delivered_alert error now a).
Proof. intros Hst. alert_step Hst. Qed.

Lemma retried_legal error retry_at a : alert_status a = SENDING -> alert_legal a (retried_alert error retry_at a).
Proof. intros Hst. alert_step Hst. Qed.

Lemma failed_legal error a : alert_status a = SENDING -> alert_legal a (failed_alert error a).
Proof. intros Hst. alert_step Hst. Qed.

(** ** Facts: steps of a session *)

Section DeliveryFacts.
Context {ENV : Env} {RELY : Rely} {SENDER : AlertSender}.

Definition with_alerts (d : Db) (m : gmap Z AdminAlert) : Db := d <| admin_alerts := m |>.

Lemma alerts_legal d m : outbox_legal (admin_alerts d) m -> service_legal d (with_alerts d m).
Proof. intros H. by split. Qed.

Lemma wp_upd_alert a f (Q : Res AdminAlert -> World -> Prop) w :
  sound w -> admin_alerts (working w) !! alert_id a = Some a -> alert_legal a (f a) ->
  (forall w', wrote (with_alerts (working w) (<[alert_id a := f a]> (admin_alerts (working w)))) w w' ->
     steady w w' -> Q (Ret (f a)) w') ->
  wp (upd_alert a f) Q w.
Proof.
  intros Hs Ha L HQ.
  assert (W : wrote (with_alerts (working w) (<[alert_id a := f a]> (admin_alerts (working w)))) w
                (snd (upd_alert a f w))).
  { split; try done. unfold upd_alert, with_alerts. cbn. by rewrite (alter_insert_of f _ _ a Ha). }
  apply HQ; [exact W|]. eapply steady_wrote; [exact W|done|done|]. apply alerts_legal.
  by apply (table_legal_update _ _ _ _ a).
Qed.

(** *** The result of one delivery *)

(** The row that a current claim's result leaves. *)
Definition alert_result_row (settings : Settings) (c : ClaimedAlert) (t : Tally) (now retry_at : Z)
    (a : AdminAlert) : AdminAlert :=
  if 0 <? tally_delivered t then delivered_alert (tally_error t) now a
  else if tally_retryable t && (claimed_attempts c <? admin_bot_alert_max_attempts settings)
       then retried_alert (tally_error t) retry_at a
       else failed_alert (tally_error t) a.

Definition alert_result_events (settings : Settings) (c : ClaimedAlert) (t : Tally) : list string :=
  if 0 <? tally_delivered t then ["admin_alert_delivered"]
  else if tally_retryable t && (claimed_attempts c <? admin_bot_alert_max_attempts settings)
       then [] else ["admin_alert_failed"].

Definition alert_retry_times (c : ClaimedAlert) (t : Tally) (now : Z) (jitter : JitterFn) (at_ : Z) : Prop :=
  exists n, at_ = now + microseconds
    (alert_retry_delay_seconds (claimed_attempts c) (tally_retry_after t) (jitter n)).

(** The row of alert [k] was set to [a'] and committed with the events [es];
    no other alert changed. *)
Record alert_recorded (k : Z) (a' : AdminAlert) (es : list string) (w w' : World) : Prop := {
  ar_steady : steady w w';
  ar_saved : committed w' = working w';
  ar_alerts : outbox_grew (<[k := a']> (admin_alerts (working w))) (admin_alerts (committed w'));
  ar_payments : payments (committed w') = payments (working w);
  ar_incidents : monitor_incidents (committed w') = monitor_incidents (working w);
  ar_map : identity_map w' = identity_map w;
  ar_calls : calls w' = calls w;
  ar_trail : trail (committed w') = es ++ trail (working w)
}.

Lemma current_sending c a : alert_claim_current c a = true -> alert_status a = SENDING.
Proof. unfold alert_claim_current. intros. by bool_to_prop. Qed.

Lemma recorded_event k a' w w1 w2 w3 e :
  wrote (with_alerts (working w) (<[k := a']> (admin_alerts (working w)))) w w1 -> steady w w1 ->
  audited [e] w1 w2 -> did_commit w2 w3 -> alert_recorded k a' [event_type e] w w3.
Proof.
  intros W S A C. assert (S2 : steady w w2) by (eapply steady_trans; [exact S|]; eapply steady_audited; [exact A|apply S]).
  split.
  - eapply steady_trans; [exact S2|]. eapply steady_commit; [exact C|apply S2].
  - by ws.
  - rewrite (cm_committed _ _ C). pose proof (au_alerts _ _ _ A) as G. by rewrite (wr_working _ _ _ W) in G.
  - by ws.
  - by ws.
  - by ws.
  - by ws.
  - unfold trail. by ws.
Qed.

Lemma recorded_silently k a' w w1 w2 w3 :
  wrote (with_alerts (working w) (<[k := a']> (admin_alerts (working w)))) w1 w2 -> steady w1 w2 ->
  called [] w w1 -> sound w -> did_commit w2 w3 -> alert_recorded k a' [] w w3.
Proof.
  intros W S A Hs C.
  assert (S2 : steady w w2) by (eapply steady_trans; [by eapply steady_called|exact S]).
  split.
  - eapply steady_trans; [exact S2|]. eapply steady_commit; [exact C|apply S2].
  - by ws.
  - ws. reflexivity.
  - by ws.
  - by ws.
  - by ws.
  - by ws.
  - unfold trail. by ws.
Qed.

Lemma business_one w pid etype lvl data : String.eqb etype "admin_alert_created" = false ->
  business_events [event_row w pid etype lvl data] = [event_row w pid etype lvl data].
Proof. intros E. unfold business_events, business_event. cbn. by rewrite E. Qed.

Lemma wp_record_delivery_result settings c t now jitter a (Q : Res string -> World -> Prop) w :
  sound w -> admin_alerts (working w) !! claimed_alert_id c = Some a -> alert_id a = claimed_alert_id c ->
  (forall w', alert_claim_current c a = false ->
     alert_recorded (claimed_alert_id c) a ["admin_alert_result_discarded"] w w' -> Q (Ret "discarded") w') ->
  (forall retry_at w', alert_claim_current c a = true -> alert_retry_times c t now jitter retry_at ->
     let a' := alert_result_row settings c t now retry_at a in
     alert_recorded (claimed_alert_id c) a' (alert_result_events settings c t) w w' ->
     Q (Ret (alert_status_value (alert_status a'))) w') ->
  wp (record_delivery_result settings c t now jitter) Q w.
Proof.
  intros Hs Ha Hid Hstale Hcur. unfold record_delivery_result.
  apply wp_bind, wp_get_db. rewrite Ha. destruct (alert_claim_current c a) eqn:Hc; cbn [negb].
  2:{ clear Hcur. wp_step. apply wp_record_event. intros w1 A. rewrite business_one in A by done.
      wp_step. apply wp_commit. intros w2 C. apply wp_ret, Hstale; [done|].
      refine (recorded_event _ _ w w w1 w2 _ _ (steady_refl w Hs) A C).
      split; try done. unfold with_alerts. rewrite insert_id by done. by destruct w as [? []]. }
  clear Hstale. pose proof (current_sending _ _ Hc) as Hst. rewrite <- Hid in *.
  assert (Hfin : forall retry_at, alert_retry_times c t now jitter retry_at -> forall w',
    let a' := alert_result_row settings c t now retry_at a in
    alert_recorded (alert_id a) a' (alert_result_events settings c t) w w' ->
    Q (Ret (alert_status_value (alert_status a'))) w') by (intros; by apply Hcur).
  clear Hcur. unfold alert_result_row, alert_result_events in Hfin.
  apply wp_bind. destruct (0 <? tally_delivered t).
  - apply wp_bind, wp_upd_alert; [done|done|by apply delivered_legal|]. intros w1 W S.
    wp_step. apply wp_record_event. intros w2 A. rewrite business_one in A by done.
    apply wp_ret. wp_step. apply wp_commit. intros w3 C. apply wp_ret.
    eapply Hfin; [by exists 0%nat|]. exact (recorded_event _ _ w w1 w2 w3 _ W S A C).
  - destruct (tally_retryable t && _).
    + apply wp_bind, wp_tick. intros w1 T.
      assert (Hs1 : sound w1) by (by eapply steady_called).
      apply wp_upd_alert; [done|by ws|by apply retried_legal|]. intros w2 W S.
      rewrite (ca_working _ _ _ T) in W. wp_step. apply wp_commit. intros w3 C. apply wp_ret.
      eapply (Hfin (now + microseconds _)); [by eexists|]. by eapply (recorded_silently _ _ w w1 w2 w3).
    + apply wp_bind, wp_upd_alert; [done|done|by apply failed_legal|]. intros w1 W S.
      wp_step. apply wp_record_event. intros w2 A. rewrite business_one in A by done.
      apply wp_ret. wp_step. apply wp_commit. intros w3 C. apply wp_ret.
      eapply Hfin; [by exists 0%nat|]. exact (recorded_event _ _ w w1 w2 w3 _ W S A C).
Qed.

(** *** Sending *)

Lemma wp_send_message chat chunk (Q : Res SendOutcome -> World -> Prop) w :
  (forall n w', called [TelegramSend chat chunk] w w' -> Q (Ret (send n chat chunk)) w') ->
  wp (send_message chat chunk) Q w.
Proof. intros HQ. apply HQ. done. Qed.

(** The attempts made for one recipient: all chunks in order, or a prefix of
    them whose last was refused. *)
Definition attempted (chat : Z) (chunks sent : list text) (failed : option SendOutcome) : Prop :=
  match failed with
  | None => sent = chunks
  | Some o => send_ok o = false /\ exists init last rest n,
      o = send n chat last /\ sent = init ++ [last] /\ chunks = sent ++ rest
  end.

Lemma wp_send_chunks chat chunks (Q : Res (option SendOutcome) -> World -> Prop) w :
  (forall failed sent w', attempted chat chunks sent failed ->
     called (rev (map (TelegramSend chat) sent)) w w' -> Q (Ret failed) w') ->
  wp (send_chunks chat chunks) Q w.
Proof.
  revert w Q. induction chunks as [|c cs IH]; intros w Q HQ; cbn.
  { apply wp_ret. by apply (HQ None []). }
  wp_step. apply wp_send_message. intros n w1 C1. destruct (send_ok _) eqn:Eo.
  - apply IH. intros failed sent w2 At C2. apply (HQ failed (c :: sent)).
    + destruct failed as [f|]; cbn in *; [|congruence]. destruct At as (? & init & last & rest & k & Ho & -> & ->).
      split; [done|]. by exists (c :: init), last, rest, k.
    + cbn. exact (called_trans _ _ _ _ _ C1 C2).
  - apply wp_ret. apply (HQ (Some _) [c]); [|done]. cbn. split; [done|]. by exists [], c, cs, n.
Qed.

(** Per administrator: what was sent, and how it ended. *)
Definition Delivery : Type := Z * list text * option SendOutcome.

Definition delivery_calls (l : list Delivery) : list ExternalCall :=
  rev (concat (map (fun '(chat, sent, _) => map (TelegramSend chat) sent) l)).

Definition tally_of (t : Tally) (l : list Delivery) : Tally :=
  fold_left (fun t d => count_recipient t (snd d)) l t.

Lemma wp_send_to_all admin_ids chunks t (Q : Res Tally -> World -> Prop) w :
  (forall l w', map (fun d => fst (fst d)) l = admin_ids ->
     Forall (fun d => attempted (fst (fst d)) chunks (snd (fst d)) (snd d)) l ->
     called (delivery_calls l) w w' -> Q (Ret (tally_of t l)) w') ->
  wp (send_to_all admin_ids chunks t) Q w.
Proof.
  revert w t Q. induction admin_ids as [|chat ids IH]; intros w t Q HQ; cbn.
  { apply wp_ret. by apply (HQ []). }
  wp_step. apply wp_send_chunks. intros failed sent w1 At C1. apply IH. intros l w2 Hl F C2.
  apply (HQ ((chat, sent, failed) :: l)); [cbn; by rewrite Hl|by constructor|].
  unfold delivery_calls. cbn. rewrite rev_app_distr. exact (called_trans _ _ _ _ _ C1 C2).
Qed.

Lemma tally_delivered_of t l :
  tally_delivered (tally_of t l)
  = tally_delivered t + Z.of_nat (length (List.filter (fun d : Delivery => is_none (snd d)) l)).
Proof.
  revert t. induction l as [|[[chat sent] failed] l IH]; intros t; cbn; [lia|].
  unfold tally_of in *. cbn. rewrite IH. destruct failed; cbn; lia.
Qed.

Lemma conclude_delivered t : tally_delivered (conclude_tally t) = tally_delivered t.
Proof. unfold conclude_tally. destruct (tally_error t); [|done]. by destruct (0 <? _). Qed.

(** *** Releasing and claiming *)

(** Exactly the rows [alerts] were updated by [f]. *)
Record rows_updated (f : AdminAlert -> AdminAlert) (alerts : list AdminAlert) (m m' : gmap Z AdminAlert)
  : Prop := {
  ru_rows : forall a, In a alerts -> m' !! alert_id a = Some (f a);
  ru_other : forall k, ~ In k (map alert_id alerts) -> m' !! k = m !! k
}.

Lemma wp_upd_each f alerts (Q : Res unit -> World -> Prop) w :
  sound w -> NoDup (map alert_id alerts) ->
  (forall a, In a alerts -> admin_alerts (working w) !! alert_id a = Some a /\ alert_legal a (f a)) ->
  (forall m w', rows_updated f alerts (admin_alerts (working w)) m ->
     wrote (with_alerts (working w) m) w w' -> steady w w' -> Q (Ret tt) w') ->
  wp (for_each (fun a => upd_alert a f ;;; ret tt) alerts) Q w.
Proof.
  revert w Q. induction alerts as [|a l IH]; intros w Q Hs Hnd Hrows HQ; cbn.
  { apply wp_ret. apply (HQ (admin_alerts (working w))); [by split| |by apply steady_refl].
    split; try done. by destruct w as [? []]. }
  cbn in Hnd. apply NoDup_cons in Hnd as [Hni Hnd]. rewrite list_elem_of_In in Hni.
  destruct (Hrows a (or_introl eq_refl)) as [Ha L].
  do 2 apply wp_bind. apply wp_upd_alert; [done..|]. intros w1 W S. apply wp_ret.
  apply IH; [apply S|done| |].
  - intros b Hb. destruct (Hrows b (or_intror Hb)) as [Hb' L']. split; [|done]. rewrite (wr_working _ _ _ W).
    unfold with_alerts. cbn. rewrite lookup_insert_ne; [done|]. intros E. apply Hni. rewrite E.
    by apply in_map.
  - intros m w2 [R O] W2 S2. rewrite (wr_working _ _ _ W) in *. unfold with_alerts in *. cbn in *.
    apply (HQ m); [split|..].
    + intros b [<-|Hb]; [|by apply R]. rewrite (O (alert_id a)) by done. by rewrite lookup_insert_eq.
    + intros k Hk. cbn in Hk. rewrite O by tauto. by rewrite lookup_insert_ne by (intros E; tauto).
    + destruct W as [], W2 as [E]. by split; try congruence.
    + by eapply steady_trans.
Qed.

Lemma selected_rows w (l : list AdminAlert) :
  sound w -> (forall a, In a l -> In a (rows (admin_alerts (working w)))) ->
  forall a, In a l -> admin_alerts (working w) !! alert_id a = Some a.
Proof.
  intros Hs Hl a [k Hk]%Hl%in_rows. destruct (sv_alerts _ (ok_service _ (so_working w Hs)) k a Hk) as [E _].
  by rewrite E.
Qed.

Lemma outbox_rows_NoDup w : sound w -> NoDup (map alert_id (rows (admin_alerts (working w)))).
Proof.
  intros Hs. apply keyed_rows_NoDup. intros k a Ha.
  by destruct (sv_alerts _ (ok_service _ (so_working w Hs)) k a Ha).
Qed.

Lemma NoDup_map_filter {A} (key : A -> Z) flt l : NoDup (map key l) -> NoDup (map key (List.filter flt l)).
Proof.
  induction l as [|a l IH]; cbn; [done|]. intros [Hn Hd]%NoDup_cons. rewrite list_elem_of_In in Hn.
  destruct (flt a); [|auto]. cbn. apply NoDup_cons. split; [|auto]. rewrite list_elem_of_In.
  intros (b & Hb & [Hin _]%filter_In)%in_map_iff. apply Hn, in_map_iff. eauto.
Qed.

(** The claims of stale alerts were released; nothing else changed. *)
Lemma wp_release_stale settings now (Q : Res Z -> World -> Prop) w :
  sound w -> working w = committed w ->
  (forall n alerts w', steady w w' -> committed w' = working w' -> calls w' = calls w ->
     Forall (fun a => stale_alert (now - admin_bot_alert_claim_timeout settings) a = true) alerts ->
     rows_updated (released_alert now) alerts (admin_alerts (committed w)) (admin_alerts (committed w')) ->
     Q (Ret n) w') ->
  wp (release_stale_alert_claims settings now) Q w.
Proof.
  intros Hs Hw HQ. unfold release_stale_alert_claims.
  wp_step. apply wp_get_db. wp_step. apply wp_tick. intros w1 T.
  assert (Hs1 : sound w1) by (by eapply steady_called). set (l := List.filter _ _).
  assert (Hl : forall a, In a l -> In a (rows (admin_alerts (working w1))) /\
    stale_alert (now - admin_bot_alert_claim_timeout settings) a = true).
  { intros a [Hin Hf]%filter_In. bool_to_prop. split; [by rewrite (ca_working _ _ _ T)|done]. }
  assert (Hnd : NoDup (map alert_id l)).
  { apply NoDup_map_filter. by apply outbox_rows_NoDup. }
  clearbody l. destruct l as [|a l].
  - wp_step. apply wp_rollback. intros w2 R. apply wp_ret. apply (HQ 0 []).
    + eapply steady_trans; [by eapply steady_called|]. by eapply steady_rollback.
    + by ws.
    + by ws.
    + done.
    + split; [done|]. intros k _. by rewrite (rb_committed _ _ R), (ca_committed _ _ _ T).
  - wp_step. apply wp_upd_each; [done|done| |].
    + intros b Hb. split.
      * apply (selected_rows w1 (a :: l)); [done|by intros c Hc; apply Hl|done].
      * apply released_legal. destruct (Hl b Hb) as [_ Hst]. unfold stale_alert in Hst. by bool_to_prop.
    + intros m w2 RU W S. wp_step. apply wp_commit. intros w3 C. apply wp_ret.
      apply (HQ _ (a :: l)).
      * eapply steady_trans; [by eapply steady_called|]. eapply steady_trans; [exact S|].
        eapply steady_commit; [exact C|apply S].
      * by ws.
      * by ws.
      * apply List.Forall_forall. intros b Hb. by apply Hl.
      * rewrite (ca_working _ _ _ T) in RU. rewrite <- Hw. ws. exact RU.
Qed.

Lemma claim_all_each worker now alerts w :
  claim_all worker now alerts w
  = (for_each (fun a => upd_alert a (claimed_row worker now) ;;; ret tt) alerts ;;;
     ret (map (fun a => claim_of worker (claimed_row worker now a)) alerts)) w.
Proof.
  revert w. induction alerts as [|a l IH]; intros w; [done|]. cbn.
  unfold bind at 1 2 3 4 5, ret at 1 2, upd_alert at 1 2. unfold bind in IH. cbn.
  rewrite IH. unfold bind. cbn. destruct (for_each _ l _) as [[]]; done.
Qed.

(** *** A pass *)

(** Other sessions take no claim in the name of [worker]: instance names are
    unique. They may release its claims, as stale, and take them over. *)
Definition takes_none (worker : string) : Prop :=
  forall n d k a, db_ok d -> alert_claimed_by a = Some worker ->
    admin_alerts (others n d) !! k = Some a -> admin_alerts d !! k = Some a.

(** Nor do they release one: no claim becomes stale while its delivery is
    under way. *)
Definition exclusive (worker : string) : Prop :=
  forall n d k a, db_ok d -> alert_claimed_by a = Some worker ->
    (admin_alerts (others n d) !! k = Some a <-> admin_alerts d !! k = Some a).

(** The claims [worker] holds are among [cs]; without a release by others
    they are exactly these. *)
Record in_hand (worker : string) (cs : list ClaimedAlert) (m : gmap Z AdminAlert) : Prop := {
  ih_nodup : NoDup (map claimed_alert_id cs);
  ih_rows : forall c, In c cs -> claimed_worker c = worker /\
    exists a, m !! claimed_alert_id c = Some a /\ (exclusive worker -> alert_claim_current c a = true);
  ih_only : forall k a, m !! k = Some a -> alert_claimed_by a = Some worker ->
    exists c, In c cs /\ claimed_alert_id c = k /\ alert_claim_current c a = true
}.

Lemma in_hand_none worker m : in_hand worker [] m <-> forall k a, m !! k = Some a -> alert_claimed_by a <> Some worker.
Proof.
  split.
  - intros H k a Ha Hc. by destruct (ih_only _ _ _ H k a Ha Hc) as (c & [] & _).
  - intros H. split; [constructor|by intros c []|]. intros k a Ha Hc. by destruct (H k a).
Qed.

Lemma current_claimed c a : alert_claim_current c a = true -> alert_claimed_by a = Some (claimed_worker c).
Proof. unfold alert_claim_current. intros. by bool_to_prop. Qed.

Lemma in_hand_others worker cs n d : takes_none worker -> db_ok d ->
  in_hand worker cs (admin_alerts d) -> in_hand worker cs (admin_alerts (others n d)).
Proof.
  intros X Hok [Hn Hr Ho]. split; [done| |].
  - intros c Hc. destruct (Hr c Hc) as (Hw & a & Ha & Hcur). split; [done|].
    destruct (tl_rows _ _ _ _ (sl_alerts _ _ (le_service _ _ (others_legal n d Hok))) _ a Ha) as (a' & Ha' & _).
    exists a'. split; [done|]. intros Hx. specialize (Hcur Hx).
    assert (Hsame : admin_alerts (others n d) !! claimed_alert_id c = Some a).
    { apply (Hx n d); [done| |done]. by rewrite (current_claimed _ _ Hcur), Hw. }
    by simplify_eq.
  - intros k a Ha Hcl. by apply Ho, Hcl; [apply (X n d k a Hok Hcl)].
Qed.

Lemma in_hand_opened worker cs w w' : takes_none worker -> sound w -> opened w w' ->
  in_hand worker cs (admin_alerts (committed w)) -> in_hand worker cs (admin_alerts (committed w')).
Proof.
  intros X Hs O H. destruct (op_committed _ _ O) as [n ->]. apply in_hand_others; [done|apply Hs|done].
Qed.

Lemma in_hand_called worker cs l w w' : called l w w' ->
  in_hand worker cs (admin_alerts (committed w)) -> in_hand worker cs (admin_alerts (committed w')).
Proof. intros C. by rewrite (ca_committed _ _ _ C). Qed.

Lemma in_hand_released worker now alerts m m' : rows_updated (released_alert now) alerts m m' ->
  in_hand worker [] m -> in_hand worker [] m'.
Proof.
  intros [R O] H. rewrite in_hand_none in H |- *. intros k a Ha Hc.
  destruct (in_dec Z.eq_dec k (map alert_id alerts)) as [(b & <- & Hb)%in_map_iff|Hn].
  - rewrite (R b Hb) in Ha. injection Ha as <-. done.
  - rewrite (O k Hn) in Ha. by apply (H k a).
Qed.

Lemma claim_is_current worker now a :
  alert_claim_current (claim_of worker (claimed_row worker now a)) (claimed_row worker now a) = true.
Proof. unfold alert_claim_current. cbn. rewrite (bool_decide_true (Some _ = _)) by done. by rewrite Z.eqb_refl. Qed.

Lemma alert_due_open now a : alert_due now a = true ->
  alert_status a = PENDING \/ alert_status a = RETRY_SCHEDULED.
Proof.
  unfold alert_due. intros H. bool_to_prop.
  match goal with H : _ \/ _ |- _ => destruct H as [?%bool_decide_eq_true|?%bool_decide_eq_true] end; auto.
Qed.

Definition due_batch (now : Z) (n : nat) (limit : nat) (d : Db) : list AdminAlert :=
  select_batch (fun a => alert_due now a && negb (locked_by_others n (alert_id a))) alert_id_order limit
    (rows (admin_alerts d)).

Lemma wp_claim_due worker now limit (Q : Res (list ClaimedAlert) -> World -> Prop) w :
  sound w -> working w = committed w ->
  (forall n w', let batch := due_batch now n limit (committed w) in
     let cs := map (fun a => claim_of worker (claimed_row worker now a)) batch in
     steady w w' -> committed w' = working w' -> calls w' = calls w ->
     (in_hand worker [] (admin_alerts (committed w)) -> in_hand worker cs (admin_alerts (committed w'))) ->
     (forall a, In a batch -> admin_alerts (committed w') !! alert_id a = Some (claimed_row worker now a)) ->
     Q (Ret cs) w') ->
  wp (claim_due_alerts worker now limit) Q w.
Proof.
  intros Hs Hw HQ. unfold claim_due_alerts.
  wp_step. apply wp_get_db. wp_step. apply wp_tick. intros w1 T.
  assert (Hs1 : sound w1) by (by eapply steady_called). specialize (HQ (ticks w)). cbv zeta in HQ.
  unfold due_batch in HQ. rewrite Hw. set (l := select_batch _ _ _ _) in *.
  assert (Hl : forall a, In a l -> In a (rows (admin_alerts (working w1))) /\ alert_due now a = true).
  { intros a [Hr Hf]%select_batch_In. bool_to_prop. by rewrite (ca_working _ _ _ T), Hw. }
  assert (Hnd : NoDup (map alert_id l)).
  { apply select_batch_NoDup. rewrite <- Hw. by apply outbox_rows_NoDup. }
  clearbody l. destruct l as [|a0 l0]; [|set (l := a0 :: l0) in *].
  { wp_step. apply wp_rollback. intros w2 R. apply wp_ret, HQ; [| | | |done].
    - eapply steady_trans; [by eapply steady_called|]. by eapply steady_rollback.
    - by ws.
    - by ws.
    - rewrite (rb_committed _ _ R). intros Hin. by apply (in_hand_called _ _ [] w). }
  apply wp_bind. unfold wp at 1. rewrite claim_all_each. fold (wp (A:=list ClaimedAlert)).
  apply (wp_bind (for_each _ _)), wp_upd_each; [done|done| |].
  { intros b Hb. split; [by apply (selected_rows w1 l); [|intros c Hc; apply Hl|]|].
    by apply claimed_legal, (alert_due_open now), Hl. }
  intros m w2 [R O] W S. apply wp_ret. wp_step. apply wp_commit. intros w3 C. apply wp_ret.
  assert (Em : admin_alerts (committed w3) = m) by (by rewrite (cm_committed _ _ C), (wr_working _ _ _ W)).
  assert (Eids : map claimed_alert_id (map (fun a => claim_of worker (claimed_row worker now a)) l)
                 = map alert_id l) by (rewrite map_map; by apply map_ext).
  apply HQ.
  - eapply steady_trans; [by eapply steady_called|]. eapply steady_trans; [exact S|].
    eapply steady_commit; [exact C|apply S].
  - by ws.
  - by ws.
  - intros Hin. rewrite Em. split; rewrite ?Eids; [done| |].
    + intros c (b & <- & Hb)%in_map_iff. split; [done|]. exists (claimed_row worker now b).
      split; [exact (R b Hb)|]. intros _. apply claim_is_current.
    + intros k a Ha Hc. destruct (in_dec Z.eq_dec k (map alert_id l)) as [(b & <- & Hb)%in_map_iff|Hn].
      * exists (claim_of worker (claimed_row worker now b)). split_and!; [by apply in_map_iff; eauto|done|].
        rewrite (R b Hb) in Ha. injection Ha as <-. apply claim_is_current.
      * rewrite (O k Hn), (ca_working _ _ _ T), Hw in Ha. rewrite in_hand_none in Hin. by destruct (Hin k a Ha Hc).
  - intros a Ha. rewrite Em. by apply R.
Qed.

(** The sender accepts everything. *)
Definition all_sent : Prop := forall n chat m, send_ok (send n chat m) = true.

Lemma result_unclaimed settings c t now retry_at a :
  alert_claimed_by (alert_result_row settings c t now retry_at a) = None.
Proof. unfold alert_result_row. by repeat case_match. Qed.

(** The row of a claim was written and is no longer in the worker's name. *)
Lemma in_hand_recorded worker c cs a' es w w' : working w = committed w ->
  alert_recorded (claimed_alert_id c) a' es w w' -> alert_claimed_by a' <> Some worker ->
  in_hand worker (c :: cs) (admin_alerts (committed w)) -> in_hand worker cs (admin_alerts (committed w')).
Proof.
  intros Hw A Hn [Hnd Hr Ho]. cbn in Hnd. apply NoDup_cons in Hnd as [Hni Hnd].
  rewrite list_elem_of_In in Hni. pose proof (ar_alerts _ _ _ _ _ A) as G. rewrite Hw in G.
  split; [done| |].
  - intros c' Hc'. destruct (Hr c' (or_intror Hc')) as (Hwk & a & Ha & Hcur). split; [done|].
    exists a. split; [|done]. apply (grew_lookup _ _ _ _ G). rewrite lookup_insert_ne; [done|].
    intros E. apply Hni. rewrite E. by apply in_map.
  - intros k a Ha Hc. destruct (decide (claimed_alert_id c = k)) as [<-|Hne].
    + rewrite (grew_lookup _ _ (claimed_alert_id c) a' G) in Ha by (by rewrite lookup_insert_eq). congruence.
    + destruct (admin_alerts (committed w) !! k) as [b|] eqn:Hb.
      * rewrite (grew_lookup _ _ k b G) in Ha by (by rewrite lookup_insert_ne). injection Ha as ->.
        destruct (Ho k a Hb Hc) as (c' & [<-|Hc'] & Ek & Hcur); [done|]. by exists c'.
      * pose proof (tl_new _ _ _ _ G k a) as N. rewrite lookup_insert_ne in N by done.
        specialize (N Hb Ha). apply born_unclaimed in N. congruence.
Qed.

(** A row that does not carry the claim is not in the worker's name. *)
Lemma in_hand_other_row worker c cs m a : in_hand worker (c :: cs) m -> m !! claimed_alert_id c = Some a ->
  alert_claim_current c a = false -> alert_claimed_by a <> Some worker.
Proof.
  intros [Hnd _ Ho] Ha Hcur Hc. cbn in Hnd. apply NoDup_cons in Hnd as [Hni _]. rewrite list_elem_of_In in Hni.
  destruct (Ho _ a Ha Hc) as (c' & [<-|Hc'] & Ek & Hcur'); [congruence|]. apply Hni. rewrite <- Ek. by apply in_map.
Qed.

Definition all_whole (l : list Delivery) : Prop := Forall (fun d => snd d = None) l.

Lemma tally_all_whole l : all_whole l -> tally_delivered (tally_of no_recipient l) = Z.of_nat (length l).
Proof.
  intros F. rewrite tally_delivered_of. cbn [tally_delivered no_recipient]. rewrite Z.add_0_l. f_equal.
  induction F as [|[[? ?] ?] l E F IH]; cbn in *; [done|]. rewrite E. cbn. by rewrite IH.
Qed.

(** What the pass sends: telegrams to administrators. *)
Definition to_admin (admin_ids : list Z) (c : ExternalCall) : Prop :=
  exists chat m, c = TelegramSend chat m /\ In chat admin_ids.

Lemma delivery_calls_to_admins admin_ids (l : list Delivery) : map (fun d => fst (fst d)) l = admin_ids ->
  Forall (to_admin admin_ids) (delivery_calls l).
Proof.
  intros <-. apply List.Forall_forall. intros c Hc. unfold delivery_calls in Hc. apply in_rev in Hc.
  apply in_concat in Hc as (xs & ([[chat sent] o] & <- & Hd)%in_map_iff & (m & <- & _)%in_map_iff).
  exists chat, m. split; [done|]. apply in_map_iff. by exists (chat, sent, o).
Qed.

Record delivered_one (admin_ids : list Z) (worker : string) (cs : list ClaimedAlert)
    (c : ClaimedAlert) (w w' : World) : Prop := {
  d1_steady : steady w w';
  d1_hand : in_hand worker cs (admin_alerts (committed w'));
  d1_calls : exists l, calls w' = l ++ calls w /\ Forall (to_admin admin_ids) l;
  d1_delivered : all_sent -> admin_ids <> [] -> exclusive worker ->
    exists a, admin_alerts (committed w') !! claimed_alert_id c = Some a /\ alert_status a = DELIVERED /\
      alert_attempts a = claimed_attempts c
}.

(** The message of a claim cannot be written from the database [d]. *)
Definition unrendered (settings : Settings) (d : Db) (c : ClaimedAlert) (e : Exn) : Prop :=
  exists t, alert_message d settings c t = Raise e.

(** What a pass that stopped at an exception leaves: claims of its own. *)
Record interrupted (admin_ids : list Z) (worker : string) (settings : Settings) (cs : list ClaimedAlert) (e : Exn)
    (w w' : World) : Prop := {
  it_steady : steady w w';
  it_left : exists c left, In c cs /\ unrendered settings (committed w') c e /\
    (forall c, In c left -> In c cs) /\ in_hand worker left (admin_alerts (committed w'));
  it_calls : exists l, calls w' = l ++ calls w /\ Forall (to_admin admin_ids) l
}.

Lemma whole_tally admin_ids chunks (l : list Delivery) : all_sent -> admin_ids <> [] ->
  map (fun d => fst (fst d)) l = admin_ids ->
  Forall (fun d => attempted (fst (fst d)) chunks (snd (fst d)) (snd d)) l ->
  (0 <? tally_delivered (conclude_tally (tally_of no_recipient l))) = true.
Proof.
  intros Hall Hne Hl Hat. apply Z.ltb_lt. rewrite conclude_delivered, tally_all_whole.
  - destruct l; [by destruct admin_ids|cbn; lia].
  - eapply Forall_impl; [exact Hat|]. intros [[? ?] [o|]] At; cbn in *; [|done].
    destruct At as (Ho & _ & last & _ & n & -> & _). by rewrite Hall in Ho.
Qed.

Lemma wp_deliver settings admin_ids jitter worker c cs w :
  takes_none worker -> sound w ->
  in_hand worker (c :: cs) (admin_alerts (committed w)) ->
  wp (deliver_claimed_alert settings admin_ids jitter c) (fun r w' =>
    match r with
    | Ret _ => delivered_one admin_ids worker cs c w w'
    | Raise e => interrupted admin_ids worker settings (c :: cs) e w w'
    end) w.
Proof.
  intros X Hs Hin. unfold deliver_claimed_alert.
  apply wp_bind, wp_new_session; [done|]. intros w1 O1 S1.
  apply (in_hand_opened _ _ _ _ X Hs O1) in Hin. wp_step. apply wp_get_db.
  wp_step. apply wp_utcnow. intros t w2 T2. apply (in_hand_called _ _ _ _ _ T2) in Hin.
  assert (S2 : steady w w2) by (eapply steady_trans; [exact S1|]; eapply steady_called; [exact T2|apply S1]).
  apply wp_bind. destruct (alert_message (working w1) settings c t) as [m|e] eqn:Em.
  2:{ apply wp_raise. split; [done| |].
      - exists c, (c :: cs). split_and!; [by left| |done|done]. exists t. rewrite <- Em. f_equal. ws. symmetry. apply (op_working _ _ O1).
      - exists []. split; [|done]. ws. by rewrite (op_calls _ _ O1). }
  apply wp_ret. wp_step. apply wp_send_to_all. intros l w3 Hl Hat C3.
  apply (in_hand_called _ _ _ _ _ C3) in Hin.
  assert (S3 : steady w w3) by (eapply steady_trans; [exact S2|]; eapply steady_called; [exact C3|apply S2]).
  apply wp_bind, wp_new_session; [apply S3|]. intros w4 O4 S4.
  apply (in_hand_opened _ _ _ _ X (proj1 S3) O4) in Hin.
  wp_step. apply wp_utcnow. intros now w5 T5. apply (in_hand_called _ _ _ _ _ T5) in Hin.
  assert (S5 : steady w w5).
  { eapply steady_trans; [exact S3|]. eapply steady_trans; [exact S4|]. eapply steady_called; [exact T5|apply S4]. }
  assert (Hw5 : working w5 = committed w5) by (ws; apply (op_working _ _ O4)).
  destruct (ih_rows _ _ _ Hin c (or_introl eq_refl)) as (_ & a & Ha & Hexc).
  assert (Hcalls : exists xs, calls w5 = xs ++ calls w /\ Forall (to_admin admin_ids) xs).
  { exists (delivery_calls l). split; [|by apply delivery_calls_to_admins]. ws.
    rewrite (op_calls _ _ O4). ws. by rewrite (op_calls _ _ O1). }
  destruct Hcalls as (xs & Exs & Fxs).
  apply (wp_record_delivery_result _ _ _ _ _ a); [apply S5|by rewrite Hw5| |intros w6 Hcur R|intros at_ w6 Hcur _ a' R].
  - by destruct (sv_alerts _ (ok_service _ (so_ok _ (proj1 S5))) _ a Ha).
  - split.
    + eapply steady_trans; [exact S5|apply R].
    + eapply in_hand_recorded; [exact Hw5|exact R| |exact Hin]. by eapply in_hand_other_row.
    + exists xs. by rewrite (ar_calls _ _ _ _ _ R).
    + intros _ _ Hx. specialize (Hexc Hx). congruence.
  - split.
    + eapply steady_trans; [exact S5|apply R].
    + eapply in_hand_recorded; [exact Hw5|exact R| |exact Hin]. unfold a'. by rewrite result_unclaimed.
    + exists xs. by rewrite (ar_calls _ _ _ _ _ R).
    + intros Hall Hne _. pose proof (whole_tally _ _ _ Hall Hne Hl Hat) as Hd.
      exists a'. split; [apply (grew_lookup _ _ _ _ (ar_alerts _ _ _ _ _ R)), lookup_insert_eq|].
      unfold a', alert_result_row. rewrite Hd. cbn. split; [done|].
      unfold alert_claim_current in Hcur. by bool_to_prop.
Qed.

(** The claims of a pass, delivered one after the other. *)
Record delivered_all (admin_ids : list Z) (worker : string) (cs : list ClaimedAlert) (w w' : World)
  : Prop := {
  da_steady : steady w w';
  da_hand : in_hand worker [] (admin_alerts (committed w'));
  da_calls : exists l, calls w' = l ++ calls w /\ Forall (to_admin admin_ids) l;
  da_delivered : all_sent -> admin_ids <> [] -> exclusive worker -> forall c, In c cs ->
    exists a, admin_alerts (committed w') !! claimed_alert_id c = Some a /\ alert_status a = DELIVERED /\
      alert_attempts a = claimed_attempts c
}.

Lemma delivered_stays k a w w' : steady w w' -> admin_alerts (committed w) !! k = Some a ->
  alert_status a = DELIVERED -> admin_alerts (committed w') !! k = Some a.
Proof.
  intros [_ L] Ha Hd. destruct (tl_rows _ _ _ _ (sl_alerts _ _ (le_service _ _ L)) k a Ha) as (a' & Ha' & La).
  rewrite Ha'. f_equal. apply (al_final _ _ La). unfold alert_final. by rewrite Hd.
Qed.

Lemma calls_trans admin_ids w w1 w2 :
  (exists l, calls w1 = l ++ calls w /\ Forall (to_admin admin_ids) l) ->
  (exists l, calls w2 = l ++ calls w1 /\ Forall (to_admin admin_ids) l) ->
  exists l, calls w2 = l ++ calls w /\ Forall (to_admin admin_ids) l.
Proof.
  intros (l1 & E1 & F1) (l2 & E2 & F2). exists (l2 ++ l1). split; [by rewrite E2, E1, app_assoc|by apply Forall_app].
Qed.

Lemma wp_deliver_all settings admin_ids jitter worker cs w :
  takes_none worker -> sound w ->
  in_hand worker cs (admin_alerts (committed w)) ->
  wp (for_each (fun c => deliver_claimed_alert settings admin_ids jitter c ;;; ret tt) cs) (fun r w' =>
    match r with
    | Ret _ => delivered_all admin_ids worker cs w w'
    | Raise e => interrupted admin_ids worker settings cs e w w'
    end) w.
Proof.
  intros X. revert w. induction cs as [|c cs IH]; intros w Hs Hin; cbn.
  { split; [by apply steady_refl|done|by exists []|done]. }
  do 2 apply wp_bind. eapply wp_mono; [by apply (wp_deliver settings admin_ids jitter worker c cs)|].
  intros [st|e] w1 D; [|exact D]. apply wp_ret.
  eapply wp_mono; [apply IH; [apply D|apply D]|]. intros [[]|e] w2 A; split.
  - eapply steady_trans; [apply D|apply A].
  - apply A.
  - eapply calls_trans; [apply D|apply A].
  - intros Hall Hne Hx c' [<-|Hc']; [|by apply (da_delivered _ _ _ _ _ A)].
    destruct (d1_delivered _ _ _ _ _ _ D Hall Hne Hx) as (a & Ha & Hd & Hn). exists a.
    split; [|done]. by apply (delivered_stays _ _ w1); [apply A|..].
  - eapply steady_trans; [apply D|apply A].
  - destruct (it_left _ _ _ _ _ _ _ A) as (c' & left & ? & ? & Hl & ?). exists c', left.
    split_and!; [by right|done| |done]. intros c0 Hc0. right. by apply Hl.
  - eapply calls_trans; [apply D|apply A].
Qed.


(** *** Every pass is lawful, even one that fails *)

Lemma deliver_steady settings admin_ids jitter c w : sound w ->
  wp (deliver_claimed_alert settings admin_ids jitter c) (fun _ w' => steady w w') w.
Proof.
  intros Hs. unfold deliver_claimed_alert.
  apply wp_bind, wp_new_session; [done|]. intros w1 O1 S1. wp_step. apply wp_get_db.
  wp_step. apply wp_utcnow. intros t w2 T2.
  assert (S2 : steady w w2) by (eapply steady_trans; [exact S1|]; eapply steady_called; [exact T2|apply S1]).
  apply wp_bind. destruct (alert_message _ _ _ _) as [m|e]; [apply wp_ret|by apply wp_raise].
  wp_step. apply wp_send_to_all. intros l w3 _ _ C3.
  assert (S3 : steady w w3) by (eapply steady_trans; [exact S2|]; eapply steady_called; [exact C3|apply S2]).
  apply wp_bind, wp_new_session; [apply S3|]. intros w4 O4 S4. pose proof (steady_trans _ _ _ S3 S4) as S4'.
  wp_step. apply wp_utcnow. intros now w5 T5.
  assert (S5 : steady w w5) by (eapply steady_trans; [exact S4'|]; eapply steady_called; [exact T5|apply S4']).
  destruct (admin_alerts (working w5) !! claimed_alert_id c) as [a|] eqn:Ha.
  - apply (wp_record_delivery_result _ _ _ _ _ a); [apply S5|done| |..].
    + by destruct (sv_alerts _ (ok_service _ (so_working _ (proj1 S5))) _ a Ha).
    + intros w6 _ R. eapply steady_trans; [exact S5|apply R].
    + intros at_ w6 _ _ a' R. eapply steady_trans; [exact S5|apply R].
  - unfold record_delivery_result. apply wp_bind, wp_get_db. rewrite Ha. by apply wp_raise.
Qed.

Lemma deliver_all_steady settings admin_ids jitter cs w : sound w ->
  wp (for_each (fun c => deliver_claimed_alert settings admin_ids jitter c ;;; ret tt) cs)
    (fun _ w' => steady w w') w.
Proof.
  revert w. induction cs as [|c cs IH]; intros w Hs; cbn; [by apply wp_ret, steady_refl|].
  do 2 apply wp_bind. eapply wp_mono; [by apply deliver_steady|]. intros [st|e] w1 S; [|done].
  apply wp_ret. eapply wp_mono; [apply IH, S|]. intros r w2 S2. by eapply steady_trans.
Qed.

Lemma alert_pass_steady settings admin_ids worker jitter w : sound w ->
  wp (alert_delivery_pass settings admin_ids worker jitter) (fun _ w' => steady w w') w.
Proof.
  intros Hs. unfold alert_delivery_pass.
  assert (Hrest : forall instance w0, steady w w0 ->
    wp (new_session ;;;
        (let* now := utcnow in release_stale_alert_claims settings now) ;;;
        new_session ;;;
        let* claimed := (let* now := utcnow in claim_due_alerts instance now 10) in
        for_each (fun c => deliver_claimed_alert settings admin_ids jitter c ;;; ret tt) claimed ;;;
        ret (Z.of_nat (length claimed))) (fun _ w' => steady w w') w0).
  { intros instance w0 S0. apply wp_bind, wp_new_session; [apply S0|]. intros w1 O1 S1.
    pose proof (steady_trans _ _ _ S0 S1) as S1'. do 2 apply wp_bind. apply wp_utcnow. intros t1 w2 T2.
    assert (S2 : steady w w2) by (eapply steady_trans; [exact S1'|]; eapply steady_called; [exact T2|apply S1']).
    apply wp_release_stale; [apply S2|ws; apply (op_working _ _ O1)|]. intros n0 rel w3 S3 _ _ _ _.
    pose proof (steady_trans _ _ _ S2 S3) as S3'. apply wp_bind, wp_new_session; [apply S3'|].
    intros w4 O4 S4. pose proof (steady_trans _ _ _ S3' S4) as S4'.
    do 2 apply wp_bind. apply wp_utcnow. intros now w5 T5.
    assert (S5 : steady w w5) by (eapply steady_trans; [exact S4'|]; eapply steady_called; [exact T5|apply S4']).
    apply wp_claim_due; [apply S5|ws; apply (op_working _ _ O4)|]. intros n w6. cbv zeta.
    intros S6 _ _ _ _. pose proof (steady_trans _ _ _ S5 S6) as S6'. apply wp_bind.
    eapply wp_mono; [apply deliver_all_steady, S6'|]. intros [[]|e] w7 S7; [apply wp_ret|]; by eapply steady_trans. }
  apply wp_bind. destruct worker as [wk|]; [destruct (String.eqb wk "")|].
  - apply wp_bind, wp_tick. intros w1 T. apply wp_ret, Hrest. by eapply steady_called.
  - apply wp_ret, Hrest. by apply steady_refl.
  - apply wp_bind, wp_tick. intros w1 T. apply wp_ret, Hrest. by eapply steady_called.
Qed.

(** *** Properties of one delivery *)

Lemma alert_delay_range a ra j : jitter_ok j ->
  (inject_Z 25 <= alert_retry_delay_seconds a ra j)%Q /\
  (forall s, ra = Some s -> (inject_Z s <= alert_retry_delay_seconds a ra j)%Q).
Proof.
  intros [Hj _]. unfold alert_retry_delay_seconds. cbn [length ALERT_RETRY_DELAYS_SECONDS].
  set (i := Z.to_nat _). assert (Hi : (i < 6)%nat) by lia. clearbody i.
  assert (Hd : 30 <= nth i ALERT_RETRY_DELAYS_SECONDS 0).
  { do 6 (destruct i as [|i]; [cbn; lia|]). lia. }
  fold ALERT_RETRY_DELAYS_SECONDS. set (d := nth _ _ _) in *. clearbody d.
  assert (Hlow : (inject_Z 25 <= inject_Z d * j)%Q) by (unfold Qle in *; cbn in *; nia).
  destruct ra as [s|]; [|done]. destruct (Qle_bool (inject_Z s) (inject_Z d * j)) eqn:Es; cbn [negb].
  - split; [done|]. intros s' [= <-]. by apply Qle_bool_iff.
  - assert (Hn : ~ (inject_Z s <= inject_Z d * j)%Q) by (rewrite <- Qle_bool_iff; congruence).
    split; [apply Qnot_le_lt, Qlt_le_weak in Hn; by eapply Qle_trans|]. intros s' [= <-]. apply Qle_refl.
Qed.

Lemma microseconds_ge a q : (inject_Z a <= q)%Q -> seconds a <= microseconds q.
Proof.
  intros Ha. unfold microseconds. apply round_half_even_ge. unfold seconds. rewrite inject_Z_mult.
  by apply Qmult_le_compat_r.
Qed.

Lemma alert_retry_times_ge c t now jitter at_ : (forall n, jitter_ok (jitter n)) ->
  alert_retry_times c t now jitter at_ ->
  now + seconds 25 <= at_ /\ forall s, tally_retry_after t = Some s -> now + seconds s <= at_.
Proof.
  intros Hj [n ->]. destruct (alert_delay_range (claimed_attempts c) (tally_retry_after t) (jitter n) (Hj n))
    as [H1 H2]. split; [apply microseconds_ge in H1; lia|]. intros s Hs. apply H2, microseconds_ge in Hs. lia.
Qed.

(** C29: Recording a delivery's outcome. While the row still carries this
    claim (status, worker and attempt), the claim is released with the attempt
    count kept: the alert is delivered exactly when some administrator got the
    whole message; otherwise it is tried again only after a retryable failure
    under the attempt limit, no sooner than 25 seconds and than Telegram asked
    for; otherwise it failed for good. A result that comes after its claim was
    released or taken again changes no alert and leaves one discard event.
    No payment is touched in any case. *)
Theorem delivery_result_exact settings c t now jitter w a :
  sound w -> admin_alerts (working w) !! claimed_alert_id c = Some a ->
  (forall n, jitter_ok (jitter n)) ->
  wp (record_delivery_result settings c t now jitter) (fun r w' =>
    steady w w' /\ calls w' = calls w /\ payments (committed w') = payments (working w) /\
    if alert_claim_current c a then
      exists a', r = Ret (alert_status_value (alert_status a')) /\
        outbox_grew (<[claimed_alert_id c := a']> (admin_alerts (working w))) (admin_alerts (committed w')) /\
        alert_fact a' = alert_fact a /\ alert_attempts a' = alert_attempts a /\
        alert_claimed_at a' = None /\ alert_claimed_by a' = None /\
        match alert_status a' with
        | DELIVERED => 0 < tally_delivered t /\ delivered_at a' = Some now
        | RETRY_SCHEDULED =>
            tally_delivered t <= 0 /\ tally_retryable t = true /\
            alert_attempts a < admin_bot_alert_max_attempts settings /\
            exists at_, alert_next_retry_at a' = Some at_ /\ now + seconds 25 <= at_ /\
              forall s, tally_retry_after t = Some s -> now + seconds s <= at_
        | FAILED =>
            tally_delivered t <= 0 /\ alert_next_retry_at a' = None /\
            (tally_retryable t = false \/ admin_bot_alert_max_attempts settings <= alert_attempts a)
        | _ => False
        end
    else r = Ret "discarded" /\ outbox_grew (admin_alerts (working w)) (admin_alerts (committed w')) /\
         trail (committed w') = "admin_alert_result_discarded" :: trail (working w)) w.
Proof.
  intros Hs Ha Hj. apply (wp_record_delivery_result _ _ _ _ _ a); [done..| | |].
  - by destruct (sv_alerts _ (ok_service _ (so_working _ Hs)) _ a Ha).
  - intros w' Hc R. split_and!; [apply R|apply R|apply R|]. rewrite Hc. split; [done|]. split; [|apply R].
    pose proof (ar_alerts _ _ _ _ _ R) as G. by rewrite insert_id in G.
  - intros at_ w' Hc Hat a' R. split_and!; [apply R|apply R|apply R|]. rewrite Hc. exists a'.
    split; [done|]. split; [apply R|].
    assert (Hn : alert_attempts a = claimed_attempts c) by (unfold alert_claim_current in Hc; by bool_to_prop).
    destruct (alert_retry_times_ge _ _ _ _ _ Hj Hat) as [G1 G2].
    unfold a', alert_result_row. destruct (0 <? tally_delivered t) eqn:Ed; bool_to_prop; [by split_and!|].
    destruct (tally_retryable t && _) eqn:Er; bool_to_prop; cbn; split_and!; try done.
    + lia.
    + by exists at_.
    + destruct Er as [Er|Er]; [by left|right]. bool_to_prop. lia.
Qed.

(** What the administrators get. Every administrator is sent the chunks of
    the message in order, up to the first one Telegram refuses, and a failure
    for one does not keep the message from the others; the number reported as
    delivered is that of the administrators who got all chunks. *)
Theorem recipients_get_prefixes admin_ids chunks w :
  wp (send_to_all admin_ids chunks no_recipient) (fun r w' =>
    exists (l : list Delivery) t, r = Ret t /\
      map (fun d => fst (fst d)) l = admin_ids /\
      Forall (fun d => attempted (fst (fst d)) chunks (snd (fst d)) (snd d)) l /\
      calls w' = delivery_calls l ++ calls w /\ committed w' = committed w /\ working w' = working w /\
      tally_delivered t = Z.of_nat (length (List.filter (fun d => bool_decide (snd (fst d) = chunks) && is_none (snd d)) l))) w.
Proof.
  apply wp_send_to_all. intros l w' Hl F C. exists l, (tally_of no_recipient l).
  split_and!; [done..|apply C|apply C|apply C|]. rewrite tally_delivered_of. cbn [tally_delivered no_recipient].
  rewrite Z.add_0_l. do 2 f_equal. clear Hl C. induction F as [|[[chat sent] [o|]] l At F IH]; cbn in *; [done| |].
  - by rewrite andb_false_r.
  - rewrite bool_decide_true by done. cbn. by rewrite IH.
Qed.
End DeliveryFacts.

(** ** Witnesses *)

(** An instance that renders every alert as two chunks, and Telegram
    accepting or refusing everything. *)
Definition sender_of (o : SendOutcome) : AlertSender := {|
  send := fun _ _ _ => o;
  alert_message := fun _ _ c _ => Ret [u (claimed_type c); u (claimed_severity c)]
|}.

Definition accepting : AlertSender := sender_of (mkSendOutcome true false None None).

Definition due_alert : AdminAlert :=
  mkAdminAlert 1 "manual_review_required" "critical" None None None PENDING 0 (Some 0) None None None None 0.

Definition alert_db : Db := empty_db <| admin_alerts := {[ 1 := due_alert ]} |>.

Lemma alert_db_sound d : payments d = ∅ -> payer_identities d = ∅ -> service_ok d -> sound (world_of d).
Proof.
  intros E1 E2 Hs. apply sound_fresh. split; [..|exact Hs]; rewrite ?E1, ?E2.
  - intros i p. by rewrite lookup_empty.
  - intros i p. by rewrite lookup_empty.
  - apply identities_ok_empty.
  - apply unique_orders_empty.
  - apply unique_col_none.
  - apply unique_col_none.
Qed.

Lemma one_alert_ok k a d : admin_alerts d = {[ k := a ]} -> monitor_incidents d = ∅ -> worker_heartbeats d = ∅ ->
  fresh_alert k a -> service_ok d.
Proof.
  intros E1 E2 E3 Hf. split; rewrite ?E1, ?E2, ?E3.
  - intros j b. rewrite lookup_singleton. case_decide; [|done]. intros [= <-]. by subst.
  - split; [intros j i; by rewrite lookup_empty|apply unique_col_none].
  - apply unique_col_none.
Qed.

Lemma calm_exclusive worker : @exclusive calm_env worker.
Proof. intros n d k a _ _. reflexivity. Qed.

Lemma calm_takes_none worker : @takes_none calm_env worker.
Proof. intros n d k a _ _ H. exact H. Qed.


Definition sending_alert : AdminAlert := claimed_row "w" 0 due_alert.
Definition sending_db : Db := empty_db <| admin_alerts := {[ 1 := sending_alert ]} |>.

Lemma delivery_result_exact_witness :
  alert_claim_current (claim_of "w" sending_alert) sending_alert = true /\
  wp (@record_delivery_result calm_env default_settings (claim_of "w" sending_alert)
        (mkTally 0 true (Some 61) (Some "telegram_429")) (seconds 100) unit_jitter) (fun r w' =>
    r = Ret "retry_scheduled" /\
    exists a', admin_alerts (committed w') !! 1 = Some a' /\ alert_attempts a' = 1) (world_of sending_db).
Proof.
  split; [reflexivity|]. eapply wp_mono; [apply wp_and|].
  - apply (@delivery_result_exact calm_env default_settings (claim_of "w" sending_alert)
      (mkTally 0 true (Some 61) (Some "telegram_429")) (seconds 100) unit_jitter (world_of sending_db)
      sending_alert).
    + apply alert_db_sound; [reflexivity|reflexivity|].
      apply (one_alert_ok 1 sending_alert); try reflexivity. split; reflexivity.
    + reflexivity.
    + apply unit_jitter_ok.
  - instantiate (1 := fun r w' => r = Ret "retry_scheduled"). vm_compute. reflexivity.
  - intros r w' [(_ & _ & _ & H) ->]. split; [reflexivity|].
    change (alert_claim_current _ _) with true in H. destruct H as (a' & _ & G & _ & Ha & _).
    exists a'. split; [|exact Ha]. apply (grew_lookup _ _ 1 a' G). reflexivity.
Defined.
