(* ===== verification/Format.v ===== *)
(** The texts of the admin bot ([app/adminbot/format.py]): escaping, numbers
    and durations, the blocks that describe a payment, the message of an alert
    and of the daily report, and the splitting of long messages.

    Messages are sent in Telegram's HTML mode, so they are also read here the
    way Telegram reads them ([read]): as characters in one of three styles.
    A Persian literal of the source is the UTF-8 text between the quotes,
    decoded by [fa]. *)

From S2P Require Import Prelude PyText Exceptions Config Models ServiceTables Session Ledger CentralPay Fees Stuck.
From S2P Require Import Unicode AlertDelivery.

#[local] Open Scope Z_scope.

(** A literal of the source. *)
Definition fa (s : string) : text := utf8_replace (u s).

Definition NEWLINE : Z := 10.

(** [sep.join(parts)]. *)
Fixpoint text_join (sep : text) (parts : list text) : text :=
  match parts with
  | [] => []
  | [part] => part
  | part :: rest => part ++ sep ++ text_join sep rest
  end.

Definition join_lines (lines : list text) : text := text_join [NEWLINE] lines.

(** [s.replace(c, t)] for one character [c]. *)
Definition text_replace (c : Z) (t s : text) : text := flat_map (fun x => if x =? c then t else [x]) s.

(** [html.escape(s, quote=False)]: the ampersand first. *)
Definition html_escape (s : text) : text :=
  text_replace 62 (u "&gt;") (text_replace 60 (u "&lt;") (text_replace 38 (u "&amp;") s)).

(** [esc]. *)
Definition esc (value : text) : text := html_escape value.

Definition bold (t : text) : text := fa "<b>" ++ t ++ fa "</b>".
Definition code_tag (t : text) : text := fa "<code>" ++ t ++ fa "</code>".

(** ** Numbers *)

Definition int_text (n : Z) : text := u (str_of_int n).

(** The format specification [,]: groups of three digits from the right. *)
Fixpoint group_digits (rev_digits : text) : text :=
  match rev_digits with
  | a :: b :: c :: ((_ :: _) as rest) => a :: b :: c :: 44 :: group_digits rest
  | short => short
  end.

Definition with_commas (n : Z) : text :=
  if n <? 0 then 45 :: rev (group_digits (rev (int_text (- n)))) else rev (group_digits (rev (int_text n))).

Definition DASH : text := fa "—".

Definition fmt_amount (amount : option Z) : text :=
  match amount with None => DASH | Some n => with_commas n end.

(** [f"{n:02d}"]. *)
Definition two_digits (n : Z) : text := u (pad2 n).

Definition rstrip_zeros (s : text) : text := rev (drop_while (Z.eqb 48) (rev s)).

Definition fmt_fee_rate (rate_bps : option Z) : text :=
  match rate_bps with
  | None => DASH
  | Some rate =>
      let whole := rate / 100 in
      let frac := rate mod 100 in
      if frac =? 0 then int_text whole ++ u "%"
      else rstrip_zeros (int_text whole ++ u "." ++ two_digits frac) ++ u "%"
  end.

(** [fmt_duration_fa] of a duration in microseconds: [int] truncates the
    seconds, and a negative duration is shown as none. *)
Definition fmt_duration_fa (duration : Z) : text :=
  let total := Z.max 0 (Z.quot duration 1000000) in
  if total <? 60 then int_text total ++ fa " ثانیه"
  else
    let minutes := total / 60 in
    if minutes <? 60 then int_text minutes ++ fa " دقیقه"
    else
      let hours := minutes / 60 in
      let minutes := minutes mod 60 in
      if hours <? 24 then
        if negb (minutes =? 0) then int_text hours ++ fa " ساعت و " ++ int_text minutes ++ fa " دقیقه"
        else int_text hours ++ fa " ساعت"
      else
        let days := hours / 24 in
        let hours := hours mod 24 in
        if negb (hours =? 0) then int_text days ++ fa " روز و " ++ int_text hours ++ fa " ساعت"
        else int_text days ++ fa " روز".

Definition fmt_duration_ago_fa (value : option Z) (now : Z) : text :=
  match value with
  | None => DASH
  | Some t => fmt_duration_fa (now - t) ++ fa " پیش"
  end.

(** ** Splitting *)

(** The inner loop on a line: hard cuts while it is too long. The fuel is the
    length of the line, which every cut shortens when [max_length] is
    positive. *)
Fixpoint cut_line (fuel : nat) (max_length : nat) (chunks : list text) (current line : text)
    : list text * text * text :=
  match fuel with
  | O => (chunks, current, line)
  | S fuel =>
      if (max_length <? length line)%nat then
        let '(chunks, current) := match current with [] => (chunks, current) | _ => (chunks ++ [current], []) end in
        cut_line fuel max_length (chunks ++ [take max_length line]) current (drop max_length line)
      else (chunks, current, line)
  end.

(** One turn of the outer loop. *)
Definition add_line (max_length : nat) (acc : list text * text) (line : text) : list text * text :=
  let '(chunks, current) := acc in
  let '(chunks, current, line) := cut_line (length line) max_length chunks current line in
  let candidate := match current with [] => line | _ => current ++ [NEWLINE] ++ line end in
  if (max_length <? length candidate)%nat then (chunks ++ [current], line) else (chunks, candidate).

Definition split_message (s : text) (max_length : nat) : list text :=
  if (length s <=? max_length)%nat then [s]
  else
    let '(chunks, current) := fold_left (add_line max_length) (text_split NEWLINE s) ([], []) in
    match current with [] => chunks | _ => chunks ++ [current] end.

(** ** Payments *)

(** What is not in the repository: the rendering of an instant in a time zone
    by [jdatetime] (date and time) and by [strftime] (hour and minute), and
    Python's [str] of a number with a fraction, a list or a dictionary, and
    the former with its digits grouped. *)
Class Rendering := {
  jalali_text : string -> Z -> text;
  hour_minute_text : string -> Z -> text;
  repr_text : Json -> text;
  grouped_text : Json -> text
}.

Definition ICON_OK : text := fa "✅".
Definition WARN : text := fa "⚠️".
Definition FAIL : text := fa "❌".
Definition ICON_PENDING : text := fa "⏳".
Definition REVIEW : text := fa "🛑".

(** A Python dictionary literal: the value of a key. *)
Fixpoint label_of (key : string) (labels : list (string * text)) : option text :=
  match labels with
  | [] => None
  | (k, label) :: rest => if String.eqb key k then Some label else label_of key rest
  end.

Definition _STATUS_FA : list (string * text) :=
  [("created", ICON_PENDING ++ fa " ایجاد شده");
   ("link_created", ICON_PENDING ++ fa " لینک ایجاد شده");
   ("getlink_failed", FAIL ++ fa " خطا در ایجاد لینک");
   ("gateway_verified", ICON_OK ++ fa " تأیید درگاه");
   ("bot_notify_pending", ICON_PENDING ++ fa " در انتظار ارسال به ربات");
   ("bot_notify_accepted", ICON_OK ++ fa " پذیرفته‌شده توسط ربات");
   ("manual_review", REVIEW ++ fa " نیازمند بررسی")].

Definition payment_status_fa (s : string) : text := default (esc (u s)) (label_of s _STATUS_FA).

(** A string column that is neither NULL nor empty. *)
Definition filled (o : option string) : option string :=
  match o with Some s => if String.eqb s "" then None else Some s | None => None end.

(** An optional line. *)
Definition line_if {A} (o : option A) (f : A -> text) : list text :=
  match o with Some a => [f a] | None => [] end.

(** An integer column that is neither NULL nor zero. *)
Definition nonzero (o : option Z) : option Z :=
  match o with Some n => if n =? 0 then None else Some n | None => None end.

Definition NL2 : text := [NEWLINE; NEWLINE].

Section Blocks.
Context `{Rendering}.

Definition fmt_time (value : option Z) (tz_name : string) : text :=
  match value with None => DASH | Some t => jalali_text tz_name t end.

Definition fmt_time_only_fa (value : Z) (tz_name : string) : text := hour_minute_text tz_name value.

Definition payment_block (payment : Payment) (tz_name : string) : text :=
  text_join NL2
    ([fa "شماره سفارش:
" ++ bold (esc (u (bot_order_id payment)));
      fa "شماره درگاه:
" ++ int_text (gateway_order_id payment);
      fa "فاکتور اصلی ربات:
" ++ bold (fmt_amount (Some (amount payment))) ++ fa " تومان";
      fa "نرخ کارمزد:
" ++ fmt_fee_rate (Some (fee_rate_bps payment));
      fa "مبلغ کارمزد:
" ++ fmt_amount (Some (fee_amount payment)) ++ fa " تومان";
      fa "پرداختی از درگاه:
" ++ fmt_amount (Some (payable_amount payment)) ++ fa " تومان";
      fa "وضعیت:
" ++ payment_status_fa (status_value (status payment));
      fa "وضعیت درگاه:
" ++ (if is_some (gateway_verified_at payment) then ICON_OK ++ fa " تأیید شده" else ICON_PENDING ++ fa " تأیید نشده")]
     ++ line_if (filled (bot_notify_reason payment)) (fun reason => fa "دلیل:
" ++ code_tag (esc (u reason)))
     ++ line_if (nonzero (Some (bot_notify_attempts payment))) (fun n => fa "تعداد تلاش:
" ++ int_text n)
     ++ line_if (filled (reference_id payment)) (fun reference => fa "کد پیگیری:
" ++ esc (u reference))
     ++ [fa "زمان ایجاد:
" ++ fmt_time (Some (created_at payment)) tz_name]).

(** [_delivery_reason]: what follows the first colon of the category, or the
    category. *)
Definition delivery_reason (entry : QueryEntry) : text :=
  match text_partition 58 (u (qe_category entry)) with
  | Some (_, c :: reason) => c :: reason
  | _ => u (qe_category entry)
  end.

Definition bot_delivery_entry_block (index : Z) (entry : QueryEntry) (now : Z) : text :=
  let payment := qe_payment entry in
  let wait_since := if bool_decide (status payment = MANUAL_REVIEW)
                    then default (created_at payment) (manual_review_at payment) else created_at payment in
  join_lines
    ([two_digits index ++ fa ". " ++ esc (u (bot_order_id payment));
      fa "    ⛔ تحویل به ربات ناموفق";
      fa "    دلیل: " ++ code_tag (esc (delivery_reason entry))]
     ++ line_if (nonzero (Some (bot_notify_attempts payment))) (fun n => fa "    تلاش‌ها: " ++ int_text n)
     ++ line_if (nonzero (bot_last_http_status payment)) (fun n => fa "    آخرین HTTP: " ++ int_text n)
     ++ [fa "    زمان انتظار: " ++ fmt_duration_fa (now - wait_since)]).

(** [_link_age_entry_block]. *)
Definition link_age_entry_block (index : Z) (entry : StuckEntry) (now : Z) (age_label : text) : text :=
  let payment := se_payment entry in
  let anchor := default (created_at payment) (callback_token_issued_at payment) in
  join_lines
    [two_digits index ++ fa ". " ++ esc (u (bot_order_id payment));
     fa "    مبلغ: " ++ fmt_amount (Some (amount payment)) ++ fa " تومان";
     fa "    " ++ age_label ++ fa ": " ++ fmt_duration_fa (now - anchor);
     fa "    آخرین بررسی: " ++ fmt_duration_ago_fa (reconciliation_last_at payment) now;
     fa "    تعداد بررسی: " ++ int_text (reconciliation_attempts payment)].

Definition waiting_entry_block (index : Z) (entry : StuckEntry) (now : Z) : text :=
  link_age_entry_block index entry now (fa "زمان انتظار").

Definition expired_entry_block (index : Z) (entry : StuckEntry) (now : Z) : text :=
  link_age_entry_block index entry now (fa "قدمت").

(** ** Alerts *)

(** [str(value)] of a payload value. *)
Definition str_value (v : Json) : text :=
  match v with
  | JNull => u "None"
  | JBool b => if b then u "True" else u "False"
  | JInt n => int_text n
  | JStr s => u s
  | _ => repr_text v
  end.

(** [fmt_amount] of a payload value: only numbers can be grouped. *)
Definition amount_text (v : Json) : Res text :=
  match v with
  | JNull => Ret DASH
  | JBool b => Ret (with_commas (if b then 1 else 0))
  | JInt n => Ret (with_commas n)
  | JFloat _ => Ret (grouped_text v)
  | JStr _ => Raise (ValueError "Cannot specify ',' with 's'.")
  | _ => Raise (Unexpected "TypeError")
  end.

(** [payload.get(key, default)], shown. *)
Definition value_or (payload : dict) (key : string) (other : text) : text :=
  match dict_get key payload with Some v => str_value v | None => other end.

Definition counted (payload : dict) (key : string) (label unit_text : text) : Res text :=
  match amount_text (dict_getN key payload) with
  | Ret t => Ret (label ++ t ++ unit_text)
  | Raise e => Raise e
  end.

Fixpoint all_lines (lines : list (Res text)) : Res (list text) :=
  match lines with
  | [] => Ret []
  | Raise e :: _ => Raise e
  | Ret l :: rest => match all_lines rest with Ret ls => Ret (l :: ls) | Raise e => Raise e end
  end.

Definition daily_report_text (payload : dict) : Res text :=
  match all_lines
    [Ret (fa "تاریخ گزارش: " ++ esc (value_or payload "report_date" (fa "—")));
     Ret [];
     counted payload "links_created" (fa "لینک‌های پرداخت ایجادشده: ") [];
     counted payload "gateway_verified" (fa "تأیید شده توسط درگاه: ") [];
     counted payload "bot_accepted" (fa "پذیرفته‌شده توسط ربات: ") [];
     counted payload "total_verified_toman" (fa "مبلغ کل تأییدشده: ") (fa " تومان");
     Ret [];
     counted payload "manual_review" (REVIEW ++ fa " بررسی دستی: ") [];
     counted payload "pending_retry" (ICON_PENDING ++ fa " در صف ارسال: ") [];
     counted payload "getlink_failures" (FAIL ++ fa " خطای ایجاد لینک: ") [];
     counted payload "verify_failures" (FAIL ++ fa " خطای تأیید: ") [];
     counted payload "bot_delivery_failures" (FAIL ++ fa " خطای تحویل به ربات: ") [];
     Ret [];
     Ret (fa "وضعیت پشتیبان‌گیری: " ++ esc (value_or payload "backup_status" (fa "نامشخص")));
     Ret (fa "سلامت سامانه: " ++ esc (value_or payload "health_summary" (fa "نامشخص")));
     Ret [];
     Ret (fa "توجه: «پذیرفته‌شده توسط ربات» یعنی API ربات پاسخ 2xx داده است؛ " ++
          fa "قرارداد API ربات واریز قطعی اعتبار را تضمین نمی‌کند.")]
  with
  | Ret lines => Ret (join_lines lines)
  | Raise e => Raise e
  end.

Definition ALERT_ICON : list (string * text) :=
  [("info", fa "ℹ️"); ("warning", fa "⚠️"); ("error", fa "❌"); ("critical", fa "🚨")].

Definition _ALERT_TITLES_FA : list (string * text) :=
  [("gateway_payment_verified", fa "پرداخت تأیید شد");
   ("bot_notify_accepted", fa "سفارش توسط ربات پذیرفته شد");
   ("manual_review_required", fa "پرداخت نیازمند بررسی");
   ("bot_timeout_ambiguous", fa "تحویل مبهم به ربات — نیازمند بررسی");
   ("retry_limit_reached", fa "پایان تلاش‌های ارسال — نیازمند بررسی");
   ("verify_payable_amount_mismatch", fa "مغایرت مبلغ در تأیید پرداخت");
   ("verify_user_id_mismatch", fa "مغایرت شناسهٔ کاربر در تأیید پرداخت");
   ("verify_missing_reference_id", fa "نبود کد پیگیری در تأیید پرداخت");
   ("verify_invalid_reference_id", fa "کد پیگیری نامعتبر در تأیید پرداخت");
   ("centralpay_getlink_failed", fa "خطا در ایجاد لینک پرداخت");
   ("centralpay_verify_failed", fa "خطا در تأیید پرداخت");
   ("reconciliation_exhausted", fa "اتمام تلاش‌های تطبیق — نیازمند بررسی");
   ("callback_signature_failures", fa "امضاهای نامعتبر مکرر در کال‌بک");
   ("notification_recovered_after_restart", fa "بازیابی اعلان پس از راه‌اندازی مجدد");
   ("backup_succeeded", fa "پشتیبان‌گیری موفق");
   ("backup_failed", fa "خطا در پشتیبان‌گیری");
   ("service_unhealthy", fa "اختلال در سرویس");
   ("service_recovered", fa "سرویس به حالت عادی بازگشت");
   ("monitor_incident_opened", fa "هشدار پایش: شروع اختلال");
   ("monitor_incident_escalated", fa "هشدار پایش: تشدید اختلال");
   ("monitor_incident_resolved", fa "پایش: رفع اختلال");
   ("admin_test_alert", fa "پیام آزمایشی");
   ("daily_report", fa "گزارش روزانه")].

Definition detail_keys : list (string * text) :=
  [("reason", fa "دلیل"); ("action", fa "اقدام"); ("attempt", fa "تعداد تلاش");
   ("expected_amount", fa "مبلغ مورد انتظار"); ("reported_amount", fa "مبلغ اعلام‌شده");
   ("check", fa "بررسی"); ("detail", fa "توضیح"); ("count", fa "تعداد"); ("size", fa "حجم");
   ("file_name", fa "فایل"); ("error_code", fa "کد خطا")].

(** The details an alert shows: the listed keys whose value is not [None]. *)
Definition alert_details (payload : dict) : list text :=
  flat_map (fun kl => match dict_getN (fst kl) payload with
                      | JNull => []
                      | v => [snd kl ++ fa ":
" ++ code_tag (esc (str_value v))]
                      end) detail_keys.

(** The text of [alert_message], before it is split. *)
Definition alert_text (d : Db) (settings : Settings) (claimed : ClaimedAlert) (now : Z) : Res text :=
  let tz := admin_bot_timezone settings in
  let icon := default (fa "ℹ️") (label_of (claimed_severity claimed) ALERT_ICON) in
  let title := default (u (claimed_type claimed)) (label_of (claimed_type claimed) _ALERT_TITLES_FA) in
  let payload := default [] (claimed_payload claimed) in
  let heading := icon ++ fa " " ++ bold (esc title) in
  let footer := fa "زمان:
" ++ fmt_time (Some now) tz in
  if String.eqb (claimed_type claimed) "daily_report" then
    match daily_report_text payload with
    | Ret report => Ret (text_join NL2 [heading; report; footer])
    | Raise e => Raise e
    end
  else
    let block := match claimed_payment claimed with
                 | None => []
                 | Some pid => line_if (payments d !! pid) (fun payment => payment_block payment tz)
                 end in
    Ret (text_join NL2 (heading :: block ++ alert_details payload ++ [footer])).

Definition alert_messages (d : Db) (settings : Settings) (claimed : ClaimedAlert) (now : Z) : Res (list text) :=
  match alert_text d settings claimed now with
  | Ret s => Ret (split_message s (Z.to_nat (admin_bot_max_message_length settings)))
  | Raise e => Raise e
  end.
(** The sender of [AlertDelivery], over a transport. *)
Definition bridge_sender (transport : nat -> Z -> text -> SendOutcome) : AlertSender :=
  {| send := transport; alert_message := alert_messages |}.
End Blocks.

(** ** Reading the markup *)

(** The styles of the subset of HTML the messages are written in. *)
Inductive Style := Normal | Bold | Code.

Inductive Reader :=
| Body (style : Style)
| InTag (style : Style) (name : text)
| InEntity (style : Style) (name : text).

(** Tags do not nest. *)
Definition read_tag (style : Style) (name : text) : option Style :=
  match style with
  | Normal => if text_eqb name (u "b") then Some Bold else if text_eqb name (u "code") then Some Code else None
  | Bold => if text_eqb name (u "/b") then Some Normal else None
  | Code => if text_eqb name (u "/code") then Some Normal else None
  end.

Definition read_entity (name : text) : option Z :=
  if text_eqb name (u "amp") then Some 38 else if text_eqb name (u "lt") then Some 60
  else if text_eqb name (u "gt") then Some 62 else None.

(** One character: what it shows, and the state after it; [None] when the
    markup is malformed. *)
Definition read_char (r : Reader) (c : Z) : option (list (Style * Z) * Reader) :=
  match r with
  | Body style =>
      if c =? 60 then Some ([], InTag style []) else if c =? 38 then Some ([], InEntity style [])
      else if c =? 62 then None else Some ([(style, c)], Body style)
  | InTag style name =>
      if c =? 62 then option_map (fun style' => ([], Body style')) (read_tag style name)
      else Some ([], InTag style (name ++ [c]))
  | InEntity style name =>
      if c =? 59 then option_map (fun shown => ([(style, shown)], Body style)) (read_entity name)
      else Some ([], InEntity style (name ++ [c]))
  end.

Fixpoint read_from (r : Reader) (s : text) : option (list (Style * Z) * Reader) :=
  match s with
  | [] => Some ([], r)
  | c :: s' =>
      match read_char r c with
      | None => None
      | Some (shown, r') => option_map (fun out => (shown ++ fst out, snd out)) (read_from r' s')
      end
  end.

(** What a message shows; [None] when it is malformed or ends inside a tag,
    an entity or a style. *)
Definition read (s : text) : option (list (Style * Z)) :=
  match read_from (Body Normal) s with
  | Some (shown, Body Normal) => Some shown
  | _ => None
  end.

Definition well_formed (s : text) : Prop := is_Some (read s).

Example read_ex : read (u "a <b>x&lt;</b>") = Some (map (pair Normal) (u "a ") ++ map (pair Bold) (u "x<")).
Proof. vm_compute. reflexivity. Qed.
Example read_bad : map read [u "<b>x"; u "x</b>"; u "<i>x</i>"; u "a & b"; u "a > b"; u "<b><code>x</code></b>"] = repeat None 6.
Proof. vm_compute. reflexivity. Qed.

Example esc_ex : esc (u "a<b>&lt;") = u "a&lt;b&gt;&amp;lt;". Proof. vm_compute. reflexivity. Qed.
Example amount_ex : map fmt_amount [Some 1234567; Some 100; Some (-1000); None] = [u "1,234,567"; u "100"; u "-1,000"; [8212]].
Proof. vm_compute. reflexivity. Qed.
Example fee_rate_ex : map fmt_fee_rate [Some 1000; Some 225; Some 750; Some 5] = [u "10%"; u "2.25%"; u "7.5%"; u "0.05%"].
Proof. vm_compute. reflexivity. Qed.
Example duration_ex : fmt_duration_fa 8280999999 = u "2" ++ fa " ساعت و " ++ u "18" ++ fa " دقیقه".
Proof. vm_compute. reflexivity. Qed.
Example split_ex : split_message (u "ab
cdefgh

x
yz") 4 = map u ["ab"; "cdef"; "gh
"; "x
yz"].
Proof. vm_compute. reflexivity. Qed.

(** ** Facts: splitting *)

Lemma join_split_lines s : join_lines (text_split NEWLINE s) = s.
Proof.
  unfold join_lines. induction s as [|x s IH]; [done|]. cbn [text_split].
  pose proof (text_split_some NEWLINE s) as Hne. destruct (text_split NEWLINE s) as [|p ps] eqn:E; [done|].
  destruct (x =? NEWLINE) eqn:Ex.
  - apply Z.eqb_eq in Ex as ->. change (NEWLINE :: text_join [NEWLINE] (p :: ps) = NEWLINE :: s). by rewrite IH.
  - rewrite <- IH. by destruct ps.
Qed.

(** [s] is the chunks in order, with only newlines before, between and after
    them. *)
Inductive stitched : list text -> text -> Prop :=
| stitched_nil n : stitched [] (repeat NEWLINE n)
| stitched_snoc chunks s chunk n :
    stitched chunks s -> stitched (chunks ++ [chunk]) (s ++ chunk ++ repeat NEWLINE n).

Lemma stitched_newlines chunks s n : stitched chunks s -> stitched chunks (s ++ repeat NEWLINE n).
Proof.
  intros [m|cs t c m H]; [|rewrite <- !app_assoc]; rewrite <- repeat_app; by constructor.
Qed.

Lemma stitched_add chunks s chunk : stitched chunks s -> stitched (chunks ++ [chunk]) (s ++ chunk).
Proof. intros H. pose proof (stitched_snoc _ _ chunk 0 H) as G. cbn in G. by rewrite app_nil_r in G. Qed.

Definition within (max_length : nat) (c : text) : Prop := (0 < length c <= max_length)%nat.

(** What the loops keep: chunks within bounds, and what was read is what they
    hold, the current chunk and newlines. *)
Record splitting (max_length : nat) (chunks : list text) (current : text) (read : text) : Prop := {
  sp_chunks : Forall (within max_length) chunks;
  sp_current : (length current <= max_length)%nat;
  sp_read : exists s, stitched chunks s /\ read = s ++ current
}.

Lemma splitting_flush max_length chunks current s n : current <> [] ->
  splitting max_length chunks current s ->
  splitting max_length (chunks ++ [current]) [] (s ++ repeat NEWLINE n).
Proof.
  intros Hne [Hc Hl (t & Ht & ->)]. split.
  - apply Forall_app. split; [done|]. constructor; [|done]. split; [|done]. by destruct current; cbn; [|lia].
  - cbn. lia.
  - exists (t ++ current ++ repeat NEWLINE n). split; [by constructor|]. by rewrite app_nil_r, <- app_assoc.
Qed.

Lemma splitting_skip max_length chunks s n : splitting max_length chunks [] s ->
  splitting max_length chunks [] (s ++ repeat NEWLINE n).
Proof.
  intros [Hc Hl (t & Ht & ->)]. split; [done|done|]. exists (t ++ repeat NEWLINE n).
  rewrite !app_nil_r. split; [by apply stitched_newlines|done].
Qed.

Lemma splitting_cut max_length chunks s piece : within max_length piece -> splitting max_length chunks [] s ->
  splitting max_length (chunks ++ [piece]) [] (s ++ piece).
Proof.
  intros Hw [Hc Hl (t & Ht & ->)]. split; [apply Forall_app; split; [done|by constructor]|done|].
  rewrite app_nil_r. exists (t ++ piece). rewrite app_nil_r. split; [by apply stitched_add|done].
Qed.

Lemma splitting_line max_length chunks s line : (length line <= max_length)%nat ->
  splitting max_length chunks [] s -> splitting max_length chunks line (s ++ line).
Proof. intros Hl [Hc _ (t & Ht & ->)]. rewrite app_nil_r. split; [done|done|]. by exists t. Qed.

(** After the current chunk was put away, the cuts of a line leave a rest
    that fits. *)
Lemma cut_line_fresh max_length fuel : (0 < max_length)%nat -> forall chunks line s,
  (length line <= fuel)%nat -> splitting max_length chunks [] s ->
  exists chunks' rest s', cut_line fuel max_length chunks [] line = (chunks', [], rest) /\
    (length rest <= max_length)%nat /\ splitting max_length chunks' [] s' /\ s ++ line = s' ++ rest.
Proof.
  intros Hmax. induction fuel as [|fuel IH]; intros chunks line s Hf Hs.
  { destruct line; [|cbn in Hf; lia]. exists chunks, [], s. split_and!; [done|cbn; lia|done..]. }
  cbn [cut_line]. destruct (Nat.ltb_spec max_length (length line)) as [Hlt|Hle].
  2:{ exists chunks, line, s. by split_and!. }
  assert (Hw : within max_length (take max_length line)) by (unfold within; rewrite length_take; lia).
  destruct (IH (chunks ++ [take max_length line]) (drop max_length line) (s ++ take max_length line))
    as (cs & rest & s' & E & Hr & Hsp & Heq); [rewrite length_drop; lia|by apply splitting_cut|].
  exists cs, rest, s'. split_and!; [done..|]. by rewrite <- Heq, <- app_assoc, take_drop.
Qed.

Lemma cut_line_short fuel max_length chunks current line : (length line <= max_length)%nat ->
  cut_line fuel max_length chunks current line = (chunks, current, line).
Proof.
  intros Hl. destruct fuel as [|fuel]; [done|]. cbn [cut_line].
  by replace (max_length <? length line)%nat with false by (symmetry; apply Nat.ltb_ge; lia).
Qed.

Lemma add_line_splitting max_length chunks current line s n : (0 < max_length)%nat ->
  splitting max_length chunks current s -> n = 1%nat \/ n = O /\ current = [] ->
  let '(chunks', current') := add_line max_length (chunks, current) line in
  splitting max_length chunks' current' (s ++ repeat NEWLINE n ++ line).
Proof.
  intros Hmax Hs Hn. unfold add_line. destruct (Nat.ltb_spec max_length (length line)) as [Hlt|Hle].
  - assert (H0 : exists c0, cut_line (length line) max_length chunks current line = cut_line (length line) max_length c0 [] line /\
        splitting max_length c0 [] (s ++ repeat NEWLINE n)).
    { destruct current as [|x current].
      - exists chunks. split; [done|]. by apply splitting_skip.
      - exists (chunks ++ [x :: current]). split; [|by apply splitting_flush].
        destruct line as [|y line]; [cbn in Hlt; lia|]. cbn [length cut_line].
        by replace (max_length <? S (length line))%nat with true by (symmetry; apply Nat.ltb_lt; cbn in Hlt; lia). }
    destruct H0 as (c0 & -> & H0).
    destruct (cut_line_fresh max_length (length line) Hmax c0 line _ (le_n _) H0) as (cs & rest & s' & -> & Hr & Hsp & E).
    replace (max_length <? length rest)%nat with false by (symmetry; apply Nat.ltb_ge; lia).
    rewrite app_assoc, E. by apply splitting_line.
  - rewrite cut_line_short by done. destruct current as [|x current].
    + replace (max_length <? length line)%nat with false by (symmetry; apply Nat.ltb_ge; lia).
      rewrite app_assoc. by apply splitting_line, splitting_skip.
    + destruct Hn as [->|[-> ?]]; [|done].
      destruct (Nat.ltb_spec max_length (length ((x :: current) ++ [NEWLINE] ++ line))) as [Hlt|Hfit].
      * rewrite app_assoc. apply splitting_line, splitting_flush; done.
      * destruct Hs as [Hc _ (t & Ht & ->)]. split; [done|done|]. exists t. by rewrite <- app_assoc.
Qed.

Lemma fold_splitting max_length lines : (0 < max_length)%nat -> forall chunks current s,
  splitting max_length chunks current s ->
  let '(chunks', current') := fold_left (add_line max_length) lines (chunks, current) in
  splitting max_length chunks' current' (s ++ flat_map (cons NEWLINE) lines).
Proof.
  intros Hmax. induction lines as [|line lines IH]; intros chunks current s Hs; cbn [fold_left flat_map].
  { by rewrite app_nil_r. }
  pose proof (add_line_splitting max_length chunks current line s 1 Hmax Hs (or_introl eq_refl)) as H1.
  destruct (add_line max_length (chunks, current) line) as [c1 cur1]. specialize (IH _ _ _ H1).
  cbn [repeat app] in IH. by rewrite <- app_assoc in IH.
Qed.

Lemma split_read line lines : join_lines (line :: lines) = line ++ flat_map (cons NEWLINE) lines.
Proof.
  unfold join_lines. revert line. induction lines as [|l ls IH]; intros line; [by rewrite app_nil_r|].
  change (text_join [NEWLINE] (line :: l :: ls)) with (line ++ [NEWLINE] ++ text_join [NEWLINE] (l :: ls)).
  by rewrite IH.
Qed.

Lemma split_message_splitting s max_length : (0 < max_length < length s)%nat ->
  Forall (within max_length) (split_message s max_length) /\ stitched (split_message s max_length) s.
Proof.
  intros Hmax. unfold split_message. replace (length s <=? max_length)%nat with false by (symmetry; apply Nat.leb_gt; lia).
  pose proof (join_split_lines s) as Hj. pose proof (text_split_some NEWLINE s) as Hne.
  destruct (text_split NEWLINE s) as [|line lines]; [done|]. rewrite split_read in Hj. cbn [fold_left].
  set (start := add_line max_length _ line).
  assert (H0 : splitting max_length [] [] []).
  { split; [done|cbn; lia|]. exists []. split; [exact (stitched_nil 0)|done]. }
  pose proof (add_line_splitting max_length [] [] line [] 0 (proj1 Hmax) H0 (or_intror (conj eq_refl eq_refl))) as H1.
  change (add_line max_length ([], []) line) with start in H1. destruct start as [c1 cur1].
  pose proof (fold_splitting max_length lines (proj1 Hmax) _ _ _ H1) as H2. cbn [repeat app] in H2. rewrite Hj in H2.
  destruct (fold_left _ _ _) as [chunks current]. destruct H2 as [Hc Hl (t & Ht & ->)].
  destruct current as [|x current]; [by rewrite app_nil_r|]. split.
  - apply Forall_app. split; [done|]. constructor; [|done]. split; [cbn; lia|done].
  - by apply stitched_add.
Qed.

(** When no line is too long, chunks are whole lines: whatever holds of the
    lines, and is kept by joining, holds of the chunks. *)
Lemma split_message_lines (P : text -> Prop) s max_length :
  (forall a b, P a -> P b -> P (a ++ [NEWLINE] ++ b)) ->
  Forall (fun line => (length line <= max_length)%nat /\ P line) (text_split NEWLINE s) ->
  Forall P (split_message s max_length).
Proof.
  intros HP Hl. unfold split_message. destruct (length s <=? max_length)%nat.
  { constructor; [|done]. rewrite <- (join_split_lines s). pose proof (text_split_some NEWLINE s) as Hne.
    revert Hl Hne. induction (text_split NEWLINE s) as [|l [|l' ls] IH]; intros Hl Hne; [done| |].
    - inversion_clear Hl as [|? ? [_ ?]]. done.
    - inversion_clear Hl as [|? ? [_ ?] Hls]. apply HP; [done|]. by apply IH. }
  assert (H : forall lines chunks current, Forall (fun line => (length line <= max_length)%nat /\ P line) lines ->
    Forall P chunks -> (current <> [] -> P current) ->
    let '(chunks', current') := fold_left (add_line max_length) lines (chunks, current) in
    Forall P chunks' /\ (current' <> [] -> P current')).
  { clear s Hl. induction lines as [|line lines IH]; intros chunks current Hl Hc Hcur; [done|].
    inversion_clear Hl as [|? ? [Hlen Hline] Hls]. cbn [fold_left]. unfold add_line at 2.
    rewrite cut_line_short by done. destruct current as [|c0 current].
    - replace (max_length <? length line)%nat with false by (symmetry; apply Nat.ltb_ge; lia). by apply IH.
    - destruct (max_length <? length _)%nat; apply IH; try done.
      + apply Forall_app. split; [done|]. constructor; [|done]. by apply Hcur.
      + intros _. apply HP; [by apply Hcur|done]. }
  pose proof (H _ [] [] Hl ltac:(done) ltac:(done)) as Hf. destruct (fold_left _ _ _) as [chunks current].
  destruct Hf as [Hc Hcur]. destruct current; [done|]. apply Forall_app. split; [done|]. constructor; [|done]. by apply Hcur.
Qed.

(** ** Facts: markup *)

Definition safe_char (c : Z) : bool := negb ((c =? 60) || (c =? 38) || (c =? 62)).

Definition ENTITIES : list (Z * text) := [(38, u "&amp;"); (60, u "&lt;"); (62, u "&gt;")].

(** Text without tags, and what it shows. *)
Inductive plain : text -> text -> Prop :=
| plain_nil : plain [] []
| plain_char c v s : safe_char c = true -> plain v s -> plain (c :: v) (c :: s)
| plain_entity c e v s : In (c, e) ENTITIES -> plain v s -> plain (c :: v) (e ++ s).

Lemma plain_app v1 s1 v2 s2 : plain v1 s1 -> plain v2 s2 -> plain (v1 ++ v2) (s1 ++ s2).
Proof.
  intros H1 H2. induction H1; [done|by constructor|]. rewrite <- app_assoc. by apply plain_entity.
Qed.

Lemma plain_safe s : forallb safe_char s = true -> plain s s.
Proof. induction s as [|c s IH]; cbn; [constructor|]. intros [Hc Hs]%andb_true_iff. constructor; auto. Qed.

Lemma text_replace_app c t s1 s2 : text_replace c t (s1 ++ s2) = text_replace c t s1 ++ text_replace c t s2.
Proof. apply flat_map_app. Qed.

Lemma html_escape_app s1 s2 : html_escape (s1 ++ s2) = html_escape s1 ++ html_escape s2.
Proof. unfold html_escape. by rewrite !text_replace_app. Qed.

Lemma html_escape_safe c : safe_char c = true -> html_escape [c] = [c].
Proof.
  unfold safe_char, html_escape, text_replace. rewrite negb_true_iff, !orb_false_iff. intros [[E1 E2] E3].
  cbn. rewrite E2. cbn. rewrite E1. cbn. by rewrite E3.
Qed.

Lemma esc_plain v : plain v (esc v).
Proof.
  unfold esc. induction v as [|c v IH]; [constructor|].
  change (c :: v) with ([c] ++ v). rewrite html_escape_app. apply plain_app; [|done].
  destruct (safe_char c) eqn:E; [rewrite html_escape_safe by done; by repeat constructor|].
  unfold safe_char in E. apply negb_false_iff in E. rewrite !orb_true_iff, !Z.eqb_eq in E.
  rewrite <- (app_nil_r (html_escape [c])). apply plain_entity; [|constructor].
  destruct E as [[->| ->]| ->]; vm_compute; auto.
Qed.

Lemma read_from_app r s t : read_from r (s ++ t) =
  match read_from r s with
  | None => None
  | Some (shown, r') => option_map (fun out => (shown ++ fst out, snd out)) (read_from r' t)
  end.
Proof.
  revert r. induction s as [|c s IH]; intros r; cbn [read_from app].
  - by destruct (read_from r t) as [[]|].
  - destruct (read_char r c) as [[shown r']|]; [|done]. rewrite IH.
    destruct (read_from r' s) as [[more r'']|]; [|done]. cbn. destruct (read_from r'' t) as [[]|]; [|done].
    cbn. by rewrite app_assoc.
Qed.

Lemma read_plain style v s : plain v s -> read_from (Body style) s = Some (map (pair style) v, Body style).
Proof.
  induction 1 as [|c v s Hc _ IH|c e v s He _ IH]; [done| |].
  - unfold safe_char in Hc. rewrite negb_true_iff, !orb_false_iff in Hc. destruct Hc as [[E1 E2] E3].
    cbn. by rewrite E1, E2, E3, IH.
  - rewrite read_from_app.
    replace (read_from (Body style) e) with (Some ([(style, c)], Body style)); [by rewrite IH|].
    cbn in He. destruct He as [[= <- <-]|[[= <- <-]|[[= <- <-]|[]]]]; reflexivity.
Qed.

(** Markup that can stand anywhere outside a tag: it shows [shown]. *)
Definition shows (s : text) (shown : list (Style * Z)) : Prop :=
  read_from (Body Normal) s = Some (shown, Body Normal).

Lemma shows_read s shown : shows s shown -> read s = Some shown.
Proof. unfold shows, read. by intros ->. Qed.

Lemma shows_app s1 o1 s2 o2 : shows s1 o1 -> shows s2 o2 -> shows (s1 ++ s2) (o1 ++ o2).
Proof. unfold shows. intros H1 H2. by rewrite read_from_app, H1, H2. Qed.

Lemma shows_plain v s : plain v s -> shows s (map (pair Normal) v).
Proof. apply read_plain. Qed.

Lemma shows_bold v s : plain v s -> shows (bold s) (map (pair Bold) v).
Proof.
  intros H. unfold shows, bold. rewrite read_from_app.
  replace (read_from (Body Normal) (fa "<b>")) with (Some (@nil (Style * Z), Body Bold)) by reflexivity.
  cbv beta iota. rewrite read_from_app, (read_plain _ _ _ H). cbv beta iota.
  replace (read_from (Body Bold) (fa "</b>")) with (Some (@nil (Style * Z), Body Normal)) by reflexivity.
  cbn [option_map fst snd app]. by rewrite app_nil_r.
Qed.

Lemma shows_code v s : plain v s -> shows (code_tag s) (map (pair Code) v).
Proof.
  intros H. unfold shows, code_tag. rewrite read_from_app.
  replace (read_from (Body Normal) (fa "<code>")) with (Some (@nil (Style * Z), Body Code)) by reflexivity.
  cbv beta iota. rewrite read_from_app, (read_plain _ _ _ H). cbv beta iota.
  replace (read_from (Body Code) (fa "</code>")) with (Some (@nil (Style * Z), Body Normal)) by reflexivity.
  cbn [option_map fst snd app]. by rewrite app_nil_r.
Qed.

(** Text whose every line is complete markup. *)
Definition marked (s : text) : Prop := exists shown, shows s shown.
Definition tidy (s : text) : Prop := Forall marked (text_split NEWLINE s).

Lemma marked_app s1 s2 : marked s1 -> marked s2 -> marked (s1 ++ s2).
Proof. intros [o1 H1] [o2 H2]. eexists. by apply shows_app. Qed.

Lemma marked_well_formed s : marked s -> well_formed s.
Proof. intros [o H]. exists o. by apply shows_read. Qed.

(** Splitting a concatenation joins the lines in the middle. *)
Lemma text_split_concat c s t : exists before last first after,
  text_split c s = before ++ [last] /\ text_split c t = first :: after /\
  text_split c (s ++ t) = before ++ (last ++ first) :: after.
Proof.
  pose proof (text_split_some c t) as Hne. destruct (text_split c t) as [|first after] eqn:Et; [done|].
  induction s as [|x s IH]; [by exists [], [], first, after|].
  destruct IH as (before & last & first' & after' & E1 & [= <- <-] & E3). cbn [app text_split].
  rewrite E3, E1. destruct (x =? c).
  - by exists ([] :: before), last, first, after.
  - destruct before as [|b before]; [by exists [], (x :: last), first, after|].
    by exists ((x :: b) :: before), last, first, after.
Qed.

Lemma tidy_app s t : tidy s -> tidy t -> tidy (s ++ t).
Proof.
  unfold tidy. destruct (text_split_concat NEWLINE s t) as (before & last & first & after & -> & -> & ->).
  rewrite !Forall_app, !Forall_cons. intros [Hb [Hl _]] [Hf Ha]. split_and!; [done|by apply marked_app|done].
Qed.

Lemma tidy_marked s : tidy s -> marked s.
Proof.
  unfold tidy. rewrite <- (join_split_lines s) at 2. pose proof (text_split_some NEWLINE s) as Hne.
  destruct (text_split NEWLINE s) as [|l ls]; [done|]. rewrite Forall_cons, split_read. intros [Hl Hls].
  apply marked_app; [done|]. clear Hne. induction Hls as [|l' ls Hl' _ IH]; [by exists []|].
  change (flat_map (cons NEWLINE) (l' :: ls)) with ([NEWLINE] ++ l' ++ flat_map (cons NEWLINE) ls).
  apply marked_app; [by exists [(Normal, NEWLINE)]|]. by apply marked_app.
Qed.

Lemma tidy_line s : lacks NEWLINE s = true -> marked s -> tidy s.
Proof. intros Hl Hm. unfold tidy. rewrite text_split_lacks by done. by constructor. Qed.

Lemma tidy_newline : tidy [NEWLINE].
Proof. repeat constructor; by exists []. Qed.

Lemma tidy_plain v s : plain v s -> tidy s.
Proof.
  induction 1 as [|c v s Hc _ IH|c e v s He _ IH].
  - repeat constructor. by exists [].
  - change (c :: s) with ([c] ++ s). apply tidy_app; [|done]. destruct (Z.eq_dec c NEWLINE) as [->|Hn]; [exact tidy_newline|].
    apply tidy_line; [|eexists; apply shows_plain; by repeat constructor].
    rewrite lacks_cons. apply andb_true_iff. split; [|done]. apply negb_true_iff, Z.eqb_neq. congruence.
  - apply tidy_app; [|done]. cbn in He.
    destruct He as [[= <- <-]|[[= <- <-]|[[= <- <-]|[]]]]; (apply tidy_line; [done|]); eexists; reflexivity.
Qed.

(** A value that goes between tags: escaped, on one line. *)
Definition one_line (s : text) : Prop := (exists v, plain v s) /\ lacks NEWLINE s = true.

Lemma one_line_app s t : one_line s -> one_line t -> one_line (s ++ t).
Proof.
  intros [[v Hv] Hs] [[v' Hv'] Ht]. split; [eexists; by apply plain_app|]. by rewrite lacks_app, Hs, Ht.
Qed.

Lemma lacks_plain v s : plain v s -> lacks NEWLINE v = true -> lacks NEWLINE s = true.
Proof.
  induction 1 as [|c v s Hc _ IH|c e v s He _ IH]; [done| |]; rewrite lacks_cons; intros [H1 H2]%andb_true_iff.
  - by rewrite lacks_cons, H1, IH.
  - rewrite lacks_app, IH by done. cbn in He. by destruct He as [[= <- <-]|[[= <- <-]|[[= <- <-]|[]]]].
Qed.

Lemma one_line_esc v : lacks NEWLINE v = true -> one_line (esc v).
Proof. intros H. split; [eexists; apply esc_plain|by eapply lacks_plain; [apply esc_plain|]]. Qed.

Lemma tidy_bold s : one_line s -> tidy (bold s).
Proof.
  intros [[v Hv] Hs]. apply tidy_line; [|eexists; by apply shows_bold].
  unfold bold. rewrite !lacks_app, Hs. reflexivity.
Qed.

Lemma tidy_code s : one_line s -> tidy (code_tag s).
Proof.
  intros [[v Hv] Hs]. apply tidy_line; [|eexists; by apply shows_code].
  unfold code_tag. rewrite !lacks_app, Hs. reflexivity.
Qed.

Lemma marked_esc v : marked (esc v).
Proof. eexists. apply shows_plain, esc_plain. Qed.
Lemma marked_bold v : marked (bold (esc v)).
Proof. eexists. apply shows_bold, esc_plain. Qed.
Lemma marked_code v : marked (code_tag (esc v)).
Proof. eexists. apply shows_code, esc_plain. Qed.

(** ** Facts: the pieces of a message *)

(** Characters that need no escape and do not end a line. *)
Definition visible_char (c : Z) : bool := safe_char c && negb (c =? NEWLINE).
Definition visible (s : text) : Prop := forallb visible_char s = true.

Lemma visible_app s t : visible s -> visible t -> visible (s ++ t).
Proof. unfold visible. rewrite forallb_app. by intros -> ->. Qed.

Lemma visible_one_line s : visible s -> one_line s.
Proof.
  unfold visible. induction s as [|c s IH]; [intros _; by repeat split; exists []; constructor|].
  cbn [forallb]. intros [Hc Hs]%andb_true_iff. destruct (IH Hs) as [[v Hv] Hl].
  unfold visible_char in Hc. apply andb_true_iff in Hc as [Hc Hn]. split; [exists (c :: v); by constructor|].
  rewrite lacks_cons, Hl, andb_true_r. rewrite Z.eqb_sym. exact Hn.
Qed.

Lemma tidy_one_line s : one_line s -> tidy s.
Proof. intros [[v Hv] _]. by eapply tidy_plain. Qed.

Lemma tidy_literal s : forallb safe_char s = true -> tidy s.
Proof. intros H. eapply tidy_plain. by apply plain_safe. Qed.

(** Whether every line of a literal is complete markup. *)
Definition tidyb (s : text) : bool :=
  forallb (fun line => match read_from (Body Normal) line with Some (_, Body Normal) => true | _ => false end)
    (text_split NEWLINE s).

Lemma tidyb_tidy s : tidyb s = true -> tidy s.
Proof.
  unfold tidyb. rewrite forallb_forall. intros H. apply List.Forall_forall. intros line Hl. specialize (H line Hl).
  unfold marked, shows. destruct (read_from (Body Normal) line) as [[shown [[]| |]]|]; try discriminate. by exists shown.
Qed.

Lemma tidy_nil : tidy [].
Proof. by apply tidy_literal. Qed.

Lemma tidy_esc v : tidy (esc v).
Proof. eapply tidy_plain, esc_plain. Qed.

Lemma tidy_join sep parts : tidy sep -> Forall tidy parts -> tidy (text_join sep parts).
Proof.
  intros Hsep. induction 1 as [|p ps Hp Hps IH]; [apply tidy_nil|]. destruct ps as [|q ps]; [done|].
  change (text_join sep (p :: q :: ps)) with (p ++ sep ++ text_join sep (q :: ps)). by repeat apply tidy_app.
Qed.

Lemma tidy_lines lines : Forall tidy lines -> tidy (join_lines lines).
Proof. apply tidy_join, tidy_newline. Qed.

Lemma tidy_line_if {A} (o : option A) (f : A -> text) : (forall a, o = Some a -> tidy (f a)) -> Forall tidy (line_if o f).
Proof. intros H. destruct o; [constructor; [by apply H|done]|done]. Qed.

Lemma visible_u s : str_forallb (fun c => is_ascii_digit c || (code c =? 45)) s = true -> visible (u s).
Proof.
  unfold visible. induction s as [|c s IH]; [done|]. cbn [str_forallb u forallb]. intros [Hc Hs]%andb_true_iff.
  rewrite (IH Hs), andb_true_r. unfold is_ascii_digit in Hc. unfold visible_char, safe_char, NEWLINE.
  rewrite orb_true_iff, andb_true_iff, !Z.leb_le, Z.eqb_eq in Hc. by z_tests.
Qed.

Lemma visible_int n : visible (int_text n).
Proof. apply visible_u, str_of_int_chars. Qed.

Lemma visible_two_digits n : visible (two_digits n).
Proof.
  unfold two_digits, pad2. destruct (n <? 10); [|apply visible_int].
  change (visible (48 :: int_text n)). pose proof (visible_int n) as H. exact H.
Qed.

Lemma forallb_rev {A} (p : A -> bool) l : forallb p (rev l) = forallb p l.
Proof. induction l as [|a l IH]; [done|]. cbn. rewrite forallb_app, IH. cbn. destruct (p a), (forallb p l); reflexivity. Qed.

Lemma visible_group n s : (length s <= n)%nat -> visible s -> visible (group_digits s).
Proof.
  revert s. induction n as [|n IH]; intros s Hn Hs; [by destruct s; [|cbn in Hn; lia]|].
  destruct s as [|a [|b [|c [|d rest]]]]; try done.
  change (group_digits (a :: b :: c :: d :: rest)) with (a :: b :: c :: 44 :: group_digits (d :: rest)).
  unfold visible in *. cbn [forallb] in *. rewrite !andb_true_iff in Hs |- *. destruct Hs as (Ha & Hb & Hc & Hr).
  split_and!; [done..|]. apply IH; [cbn in *; lia|]. cbn. by apply andb_true_iff.
Qed.

Lemma visible_commas n : visible (with_commas n).
Proof.
  assert (H : forall m, visible (rev (group_digits (rev (int_text m))))).
  { intros m. unfold visible. rewrite forallb_rev. eapply visible_group; [done|].
    unfold visible. rewrite forallb_rev. apply visible_int. }
  unfold with_commas. destruct (n <? 0); [|apply H]. exact (H (- n)).
Qed.

Lemma visible_amount a : visible (fmt_amount a).
Proof. destruct a; [apply visible_commas|reflexivity]. Qed.

Lemma visible_rstrip s : visible s -> visible (rstrip_zeros s).
Proof.
  unfold visible, rstrip_zeros. rewrite forallb_rev, <- (forallb_rev _ s). generalize (rev s). clear s.
  induction l as [|c l IH]; [done|]. cbn [forallb drop_while]. intros H. pose proof H as [_ Hl]%andb_true_iff.
  destruct (48 =? c); auto.
Qed.

Lemma visible_fee_rate r : visible (fmt_fee_rate r).
Proof.
  destruct r as [r|]; [|reflexivity]. unfold fmt_fee_rate.
  destruct (r mod 100 =? 0); apply visible_app; try reflexivity; [apply visible_int|].
  apply visible_rstrip. repeat apply visible_app; [apply visible_int|reflexivity|apply visible_two_digits].
Qed.

Lemma visible_duration t : visible (fmt_duration_fa t).
Proof.
  unfold fmt_duration_fa. repeat case_match; repeat apply visible_app; first [apply visible_int | reflexivity].
Qed.

Lemma visible_ago v now : visible (fmt_duration_ago_fa v now).
Proof. destruct v; [apply visible_app; [apply visible_duration|reflexivity]|reflexivity]. Qed.

Create HintDb tidy discriminated.
#[export] Hint Resolve one_line_esc one_line_app visible_int visible_two_digits visible_amount visible_commas
  visible_fee_rate visible_duration visible_ago visible_one_line tidy_one_line : tidy.

Lemma tidy_map {A} (f : A -> text) l : (forall a, In a l -> tidy (f a)) -> Forall tidy (map f l).
Proof. intros H. apply List.Forall_forall. intros t (a & <- & Ha)%in_map_iff. auto. Qed.

(** A message, piece by piece; what is left depends on stored text. *)
Ltac tidy :=
  lazymatch goal with
  | |- Forall tidy (_ ++ _) => apply Forall_app; split; tidy
  | |- Forall tidy (_ :: _) => apply Forall_cons; split; tidy
  | |- Forall tidy [] => apply Forall_nil_2
  | |- Forall tidy (line_if _ _) => apply tidy_line_if; intros; tidy
  | |- Forall tidy (map _ _) => apply tidy_map; intros; tidy
  | |- tidy (text_join _ _) => apply tidy_join; tidy
  | |- tidy (join_lines _) => apply tidy_lines; tidy
  | |- tidy (_ ++ _) => apply tidy_app; tidy
  | |- tidy (bold _) => apply tidy_bold; tidy
  | |- tidy (code_tag _) => apply tidy_code; tidy
  | |- tidy (esc _) => apply tidy_esc
  | |- tidy [] => apply tidy_nil
  | |- tidy (fa _) => first [apply tidy_literal; reflexivity | apply tidyb_tidy; vm_compute; reflexivity]
  | |- one_line (_ ++ _) => apply one_line_app; tidy
  | |- one_line (fa _) => apply visible_one_line; reflexivity
  | |- context [match _ with _ => _ end] => case_match; tidy
  | |- one_line _ => first [solve [eauto with tidy] | solve [apply visible_one_line; reflexivity] | idtac]
  | |- tidy ?s => first [solve [apply tidy_literal; reflexivity] | solve [eauto with tidy] | idtac]
  | |- _ => try solve [eauto with tidy]
  end.

Lemma marked_join sep parts : marked sep -> Forall marked parts -> marked (text_join sep parts).
Proof.
  intros Hsep. induction 1 as [|p ps Hp Hps IH]; [by exists []|]. destruct ps as [|q ps]; [done|].
  change (text_join sep (p :: q :: ps)) with (p ++ sep ++ text_join sep (q :: ps)). by repeat apply marked_app.
Qed.

Lemma marked_map {A} (f : A -> text) l : (forall a, In a l -> marked (f a)) -> Forall marked (map f l).
Proof. intros H. apply List.Forall_forall. intros t (a & <- & Ha)%in_map_iff. auto. Qed.

Ltac marked :=
  lazymatch goal with
  | |- Forall marked (_ ++ _) => apply Forall_app; split; marked
  | |- Forall marked (_ :: _) => apply Forall_cons; split; marked
  | |- Forall marked [] => apply Forall_nil_2
  | |- Forall marked (line_if ?o _) => destruct o; cbn [line_if]; marked
  | |- Forall marked (map _ _) => apply marked_map; intros; marked
  | |- marked (join_lines _) => apply marked_join; marked
  | |- marked (text_join _ _) => apply marked_join; marked
  | |- marked (_ ++ _) => apply marked_app; marked
  | |- marked (bold (esc _)) => apply marked_bold
  | |- marked (code_tag (esc _)) => apply marked_code
  | |- marked (fa _) => apply tidy_marked; tidy
  | |- context [match _ with _ => _ end] => case_match; marked
  | |- marked _ => try solve [apply tidy_marked; tidy]
  | |- _ => idtac
  end.

(** ** Facts: blocks and alerts *)

(** What the outside renders: instants and grouped numbers hold neither
    markup nor a line break; an hour and a minute take five characters. *)
Class RenderingLaws `{Rendering} := {
  jalali_visible : forall tz t, visible (jalali_text tz t);
  hour_minute_visible : forall tz t, visible (hour_minute_text tz t);
  grouped_visible : forall v, visible (grouped_text v);
  hour_minute_short : forall tz t, (length (hour_minute_text tz t) <= 5)%nat
}.

(** A stored text without a line break. *)
Definition single_line (s : string) : Prop := lacks NEWLINE (u s) = true.
Definition single_line_opt (o : option string) : Prop := forall s, o = Some s -> single_line s.

(** The columns that are shown between tags. *)
Definition shown_on_lines (p : Payment) : Prop :=
  single_line (bot_order_id p) /\ single_line_opt (bot_notify_reason p).

Section MessageFacts.
Context {RENDERING : Rendering} {LAWS : RenderingLaws}.

Lemma visible_time t tz : visible (fmt_time t tz).
Proof. destruct t; [apply jalali_visible|reflexivity]. Qed.

Hint Resolve visible_time : tidy.

Lemma label_of_tidy key labels : forallb (fun kl => forallb safe_char (snd kl)) labels = true ->
  forall t, label_of key labels = Some t -> tidy t.
Proof.
  induction labels as [|[k l] labels IH]; [done|]. cbn [forallb snd label_of]. intros [Hl Hr]%andb_true_iff t.
  destruct (String.eqb key k); [intros [= <-]; by apply tidy_literal|by apply IH].
Qed.

Lemma tidy_status s : tidy (payment_status_fa s).
Proof.
  unfold payment_status_fa. destruct (label_of s _STATUS_FA) as [t|] eqn:E; [|apply tidy_esc].
  eapply label_of_tidy; [|exact E]. reflexivity.
Qed.

Hint Resolve tidy_status : tidy.

Lemma single_line_filled o s : single_line_opt o -> filled o = Some s -> single_line s.
Proof. intros H. destruct o as [r|]; [|done]. cbn. destruct (String.eqb r ""); [done|]. intros [= <-]. by apply H. Qed.

Lemma tidy_payment_block p tz : shown_on_lines p -> tidy (payment_block p tz).
Proof.
  intros [Ho Hr]. unfold payment_block, NL2. tidy. apply one_line_esc. by eapply single_line_filled.
Qed.

(** [s] is markup that shows [o] somewhere. *)
Definition displays (s : text) (o : list (Style * Z)) : Prop :=
  exists before after, shows s (before ++ o ++ after).

Lemma displays_marked s o : displays s o -> marked s.
Proof. intros (b & a & H). by eexists. Qed.

Lemma displays_app_l s t o : displays s o -> marked t -> displays (s ++ t) o.
Proof.
  intros (b & a & H) [o' Ht]. exists b, (a ++ o'). pose proof (shows_app _ _ _ _ H Ht) as G. by rewrite <- !app_assoc in G.
Qed.

Lemma displays_app_r s t o : marked s -> displays t o -> displays (s ++ t) o.
Proof.
  intros [o' Hs] (b & a & H). exists (o' ++ b), a. pose proof (shows_app _ _ _ _ Hs H) as G. by rewrite <- app_assoc.
Qed.

Lemma displays_shows s o : shows s o -> displays s o.
Proof. intros H. exists [], []. cbn. by rewrite app_nil_r. Qed.

Lemma displays_join sep parts part o : marked sep -> Forall marked parts -> In part parts -> displays part o ->
  displays (text_join sep parts) o.
Proof.
  intros Hsep. induction 1 as [|p ps Hp Hps IH]; [done|]. intros Hin Hd.
  destruct ps as [|q ps]; [by destruct Hin as [->|[]]|].
  change (text_join sep (p :: q :: ps)) with (p ++ sep ++ text_join sep (q :: ps)).
  pose proof (marked_join sep (q :: ps) Hsep Hps) as Hm. destruct Hin as [->|Hin].
  - apply displays_app_l; [done|by apply marked_app].
  - apply displays_app_r; [done|]. apply displays_app_r; [done|by apply IH].
Qed.

Lemma marked_payment_block p tz : marked (payment_block p tz).
Proof. unfold payment_block, NL2. marked. Qed.

Lemma payment_block_order p tz : displays (payment_block p tz) (map (pair Bold) (u (bot_order_id p))).
Proof.
  unfold payment_block. eapply displays_join; [by exists [(Normal, NEWLINE); (Normal, NEWLINE)]|marked|by left|].
  apply displays_app_r; [marked|]. apply displays_shows, shows_bold, esc_plain.
Qed.

Lemma all_lines_Forall (P : text -> Prop) lines ls : (forall l, In (Ret l) lines -> P l) ->
  all_lines lines = Ret ls -> Forall P ls.
Proof.
  revert ls. induction lines as [|[l|e] rest IH]; intros ls HP; cbn [all_lines]; [intros [= <-]; done| |done].
  destruct (all_lines rest) as [ls'|e] eqn:E; [|done]. intros [= <-]. constructor; [by apply HP; left|].
  apply IH; [|done]. intros. apply HP. by right.
Qed.

Lemma visible_amount_text v t : amount_text v = Ret t -> visible t.
Proof.
  destruct v; cbn; intros [= <-]; first [reflexivity | apply visible_commas | apply grouped_visible].
Qed.

Lemma tidy_counted payload key label unit_text l : tidy label -> tidy unit_text ->
  counted payload key label unit_text = Ret l -> tidy l.
Proof.
  intros Hl Hu. unfold counted. destruct (amount_text _) as [t|] eqn:E; [|done]. intros [= <-].
  apply visible_amount_text in E. tidy.
Qed.

Lemma Ret_inj {A} (a b : A) : Ret a = Ret b -> a = b.
Proof. congruence. Qed.

Lemma tidy_daily_report payload s : daily_report_text payload = Ret s -> tidy s.
Proof.
  unfold daily_report_text. destruct (all_lines _) as [ls|] eqn:E; [|done]. intros [= <-]. apply tidy_lines.
  eapply all_lines_Forall; [|exact E]. clear E. intros l. cbn [In].
  intros H; repeat (destruct H as [H|H];
    [first [apply Ret_inj in H as <-; tidy | eapply tidy_counted; [..|exact H]; tidy]|]).
  destruct H.
Qed.

Lemma tidy_heading icon title : tidy icon -> one_line title -> tidy (icon ++ fa " " ++ bold title).
Proof. intros. tidy. Qed.
(** No line is longer than a message may be. *)
Definition fits (max_length : nat) (s : text) : Prop :=
  Forall (fun line => (length line <= max_length)%nat) (text_split NEWLINE s).

Lemma split_message_exact s max_length : (0 < max_length)%nat -> s <> [] ->
  Forall (within max_length) (split_message s max_length) /\ stitched (split_message s max_length) s.
Proof.
  intros Hm Hs. destruct (Nat.ltb_spec max_length (length s)) as [Hlt|Hle]; [by apply split_message_splitting|].
  unfold split_message. rewrite (proj2 (Nat.leb_le _ _) Hle). split.
  - constructor; [|done]. split; [|done]. destruct s; [done|cbn; lia].
  - pose proof (stitched_add [] [] s (stitched_nil 0)) as H. exact H.
Qed.

Lemma split_message_tidy s max_length : tidy s -> fits max_length s -> Forall well_formed (split_message s max_length).
Proof.
  intros Ht Hf. eapply Forall_impl; [|apply marked_well_formed]. apply split_message_lines.
  - intros a b Ha Hb. apply marked_app; [done|]. apply marked_app; [by exists [(Normal, NEWLINE)]|done].
  - apply Forall_and. split; [exact Hf|exact Ht].
Qed.

(** The stored texts an alert shows between tags have no line breaks. *)
Record alert_on_lines (d : Db) (claimed : ClaimedAlert) : Prop := {
  al_type : single_line (claimed_type claimed);
  al_values : forall k v, dict_get k (default [] (claimed_payload claimed)) = Some v -> lacks NEWLINE (str_value v) = true;
  al_payment : forall pid p, claimed_payment claimed = Some pid -> payments d !! pid = Some p -> shown_on_lines p
}.

Definition alert_parts (d : Db) (settings : Settings) (claimed : ClaimedAlert) : list text :=
  match claimed_payment claimed with
  | None => []
  | Some pid => line_if (payments d !! pid) (fun payment => payment_block payment (admin_bot_timezone settings))
  end.

Definition alert_heading (claimed : ClaimedAlert) : text :=
  default (fa "ℹ️") (label_of (claimed_severity claimed) ALERT_ICON) ++ fa " " ++
  bold (esc (default (u (claimed_type claimed)) (label_of (claimed_type claimed) _ALERT_TITLES_FA))).

Definition alert_footer (settings : Settings) (now : Z) : text :=
  fa "زمان:
" ++ fmt_time (Some now) (admin_bot_timezone settings).

Lemma alert_text_parts d settings claimed now s : alert_text d settings claimed now = Ret s ->
  if String.eqb (claimed_type claimed) "daily_report"
  then exists report, daily_report_text (default [] (claimed_payload claimed)) = Ret report /\
         s = text_join NL2 [alert_heading claimed; report; alert_footer settings now]
  else s = text_join NL2 (alert_heading claimed :: alert_parts d settings claimed ++
             alert_details (default [] (claimed_payload claimed)) ++ [alert_footer settings now]).
Proof.
  unfold alert_text. destruct (String.eqb _ _).
  - destruct (daily_report_text _) as [report|]; [|done]. intros H. apply Ret_inj in H as <-. by exists report.
  - intros H. by apply Ret_inj in H as <-.
Qed.

Lemma tidy_icon severity : tidy (default (fa "ℹ️") (label_of severity ALERT_ICON)).
Proof.
  destruct (label_of severity ALERT_ICON) as [t|] eqn:E; [|by apply tidy_literal].
  eapply label_of_tidy; [|exact E]. reflexivity.
Qed.

Lemma marked_heading claimed : marked (alert_heading claimed).
Proof. apply marked_app; [apply tidy_marked, tidy_icon|]. marked. Qed.

Lemma label_of_lacks key labels t : forallb (fun kl => lacks NEWLINE (snd kl)) labels = true ->
  label_of key labels = Some t -> lacks NEWLINE t = true.
Proof.
  induction labels as [|[k l] labels IH]; [done|]. cbn [forallb snd label_of]. intros [Hl Hr]%andb_true_iff.
  destruct (String.eqb key k); [by intros [= <-]|by apply IH].
Qed.

Lemma tidy_alert_heading claimed : single_line (claimed_type claimed) -> tidy (alert_heading claimed).
Proof.
  intros H. apply tidy_heading; [apply tidy_icon|]. apply one_line_esc.
  destruct (label_of (claimed_type claimed) _ALERT_TITLES_FA) as [t|] eqn:E; [|exact H].
  eapply label_of_lacks; [|exact E]. vm_compute. reflexivity.
Qed.

Lemma marked_parts d settings claimed : Forall marked (alert_parts d settings claimed).
Proof.
  unfold alert_parts. destruct (claimed_payment claimed); [|done].
  destruct (_ !! _); cbn [line_if]; [|done]. apply Forall_cons. split; [apply marked_payment_block|done].
Qed.

Lemma alert_detail_in payload part : In part (alert_details payload) <->
  exists kl v, In kl detail_keys /\ dict_getN (fst kl) payload = v /\ v <> JNull /\
    part = snd kl ++ fa ":
" ++ code_tag (esc (str_value v)).
Proof.
  unfold alert_details. rewrite in_flat_map. split.
  - intros (kl & Hkl & Hp). exists kl. destruct (dict_getN (fst kl) payload) eqn:E; [done|..];
      (cbn [In] in Hp; destruct Hp as [<-|[]]; by eauto 6).
  - intros ([k label] & v & Hkl & <- & Hv & ->). exists (k, label). split; [done|].
    revert Hv. cbn [fst snd]. generalize (dict_getN k payload). intros v Hv. destruct v; [done|by left..].
Qed.

Lemma detail_label kl : In kl detail_keys -> tidy (snd kl).
Proof.
  intros H. assert (Hall : forallb (fun kl => forallb safe_char (snd kl)) detail_keys = true) by reflexivity.
  rewrite forallb_forall in Hall. by apply tidy_literal, Hall.
Qed.

Lemma marked_details payload : Forall marked (alert_details payload).
Proof.
  apply List.Forall_forall. intros part Hp. apply alert_detail_in in Hp as (kl & v & Hkl & _ & _ & ->).
  apply marked_app; [by apply tidy_marked, detail_label|]. marked.
Qed.

Lemma tidy_details payload : (forall k v, dict_get k payload = Some v -> lacks NEWLINE (str_value v) = true) ->
  Forall tidy (alert_details payload).
Proof.
  intros Hv. apply List.Forall_forall. intros part Hp. apply alert_detail_in in Hp as (kl & v & Hkl & E & Hn & ->).
  apply tidy_app; [by apply detail_label|]. tidy. apply one_line_esc.
  unfold dict_getN in E. destruct (dict_get (fst kl) payload) eqn:Ed; [|congruence]. subst. by eapply Hv.
Qed.

Lemma marked_alert d settings claimed now s : alert_text d settings claimed now = Ret s -> marked s.
Proof.
  intros H%alert_text_parts. destruct (String.eqb _ _).
  - destruct H as (report & Hr & ->). apply tidy_daily_report, tidy_marked in Hr.
    apply marked_join; [marked|]. apply Forall_cons. split; [apply marked_heading|].
    apply Forall_cons. split; [done|]. unfold alert_footer. marked.
  - subst. apply marked_join; [marked|]. apply Forall_cons. split; [apply marked_heading|].
    apply Forall_app. split; [apply marked_parts|]. apply Forall_app. split; [apply marked_details|].
    unfold alert_footer. marked.
Qed.

Lemma tidy_alert d settings claimed now s : alert_on_lines d claimed ->
  alert_text d settings claimed now = Ret s -> tidy s.
Proof.
  intros [Ht Hv Hp] H%alert_text_parts. destruct (String.eqb _ _).
  - destruct H as (report & Hr & ->). apply tidy_daily_report in Hr.
    apply tidy_join; [tidy|]. apply Forall_cons. split; [by apply tidy_alert_heading|].
    apply Forall_cons. split; [done|]. unfold alert_footer. tidy.
  - subst. apply tidy_join; [tidy|]. apply Forall_cons. split; [by apply tidy_alert_heading|].
    apply Forall_app. split; [|apply Forall_app; split; [by apply tidy_details|unfold alert_footer; tidy]].
    unfold alert_parts. destruct (claimed_payment claimed) as [pid|]; [|done]. apply tidy_line_if.
    intros p E. apply tidy_payment_block. by eapply Hp.
Qed.

Lemma alert_nonempty d settings claimed now s : alert_text d settings claimed now = Ret s -> s <> [].
Proof.
  intros H%alert_text_parts.
  assert (Hh : forall rest, text_join NL2 (alert_heading claimed :: rest) <> []).
  { intros rest E. assert (Hnil : alert_heading claimed = []) by (destruct rest; [done|by apply app_eq_nil in E as [? _]]).
    unfold alert_heading in Hnil. apply app_eq_nil in Hnil as [_ Hnil]. discriminate Hnil. }
  destruct (String.eqb _ _); [destruct H as (report & _ & ->)|subst]; apply Hh.
Qed.

(** What an alert says of its payload and its payment is in its text, as it
    was stored. *)
Lemma alert_displays d settings claimed now s part o : alert_text d settings claimed now = Ret s ->
  claimed_type claimed <> "daily_report" -> displays part o ->
  In part (alert_parts d settings claimed ++ alert_details (default [] (claimed_payload claimed))) ->
  exists before after, read s = Some (before ++ o ++ after).
Proof.
  intros H Hne%String.eqb_neq Hd Hin. apply alert_text_parts in H. rewrite Hne in H. subst s.
  assert (D : displays (text_join NL2 (alert_heading claimed :: alert_parts d settings claimed ++
      alert_details (default [] (claimed_payload claimed)) ++ [alert_footer settings now])) o).
  { eapply displays_join; [marked| |right; rewrite app_assoc; apply in_or_app; by left|done].
    apply Forall_cons. split; [apply marked_heading|]. apply Forall_app. split; [apply marked_parts|].
    apply Forall_app. split; [apply marked_details|]. unfold alert_footer. marked. }
  destruct D as (before & after & D). exists before, after. by apply shows_read.
Qed.

(** C34: An alert's message is well-formed markup whatever the database and the
    payload contain: a stored text cannot open or close a tag, it is shown
    character by character, the order number in bold and every listed detail
    of the payload as code. Its chunks are never empty and never longer than
    the configured limit, and hold the whole message but for newlines between
    chunks; when no line is longer than the limit and the stored texts have no
    line breaks, every chunk is well-formed markup by itself. *)
Theorem alert_messages_well_formed d settings claimed now s :
  500 <= admin_bot_max_message_length settings -> alert_text d settings claimed now = Ret s ->
  exists chunks, alert_messages d settings claimed now = Ret chunks /\ well_formed s /\
  (forall kl v, claimed_type claimed <> "daily_report" -> In kl detail_keys ->
     dict_getN (fst kl) (default [] (claimed_payload claimed)) = v -> v <> JNull ->
     exists before after, read s = Some (before ++ map (pair Code) (str_value v) ++ after)) /\
  (forall pid p, claimed_type claimed <> "daily_report" -> claimed_payment claimed = Some pid ->
     payments d !! pid = Some p ->
     exists before after, read s = Some (before ++ map (pair Bold) (u (bot_order_id p)) ++ after)) /\
  Forall (fun c => 0 < Z.of_nat (length c) <= admin_bot_max_message_length settings) chunks /\ stitched chunks s /\
  (alert_on_lines d claimed -> fits (Z.to_nat (admin_bot_max_message_length settings)) s -> Forall well_formed chunks).
Proof.
  intros Hm H. exists (split_message s (Z.to_nat (admin_bot_max_message_length settings))).
  destruct (split_message_exact s (Z.to_nat (admin_bot_max_message_length settings))) as [Hw Hst];
    [lia|by eapply alert_nonempty|]. split_and!.
  - unfold alert_messages. by rewrite H.
  - apply marked_well_formed. by eapply marked_alert.
  - intros kl v Hne Hkl Hv Hn. eapply alert_displays; [done..| |apply in_or_app; right; apply alert_detail_in; by eauto 6].
    apply displays_app_r; [by apply tidy_marked, detail_label|]. apply displays_app_r; [marked|].
    apply displays_shows, shows_code, esc_plain.
  - intros pid p Hne Hpid Hp. eapply alert_displays; [done..|apply payment_block_order|]. apply in_or_app. left.
    unfold alert_parts. rewrite Hpid, Hp. by left.
  - eapply Forall_impl; [exact Hw|]. unfold within. cbn. lia.
  - done.
  - intros Hl Hf. apply split_message_tidy; [by eapply tidy_alert|done].
Qed.
End MessageFacts.

#[export] Hint Resolve visible_time tidy_status : tidy.


(** ** Numbers, read back *)

Lemma group_digits_filter n s : (length s <= n)%nat -> lacks 44 s = true ->
  List.filter (fun c => negb (c =? 44)) (group_digits s) = s.
Proof.
  revert s. induction n as [|n IH]; intros s Hn Hs; [by destruct s; [|cbn in Hn; lia]|].
  assert (Hid : forall t, lacks 44 t = true -> List.filter (fun c => negb (c =? 44)) t = t).
  { induction t as [|x t IHt]; [done|]. rewrite lacks_cons. intros [Hx Ht]%andb_true_iff. cbn.
    rewrite Z.eqb_sym, Hx, IHt; done. }
  destruct s as [|a [|b [|c [|d rest]]]]; try by apply Hid.
  change (group_digits (a :: b :: c :: d :: rest)) with ([a; b; c] ++ [44] ++ group_digits (d :: rest)).
  change (a :: b :: c :: d :: rest) with ([a; b; c] ++ d :: rest) in Hs |- *.
  rewrite lacks_app in Hs. apply andb_true_iff in Hs as [H3 Hr].
  rewrite !List.filter_app, Hid, IH by (done || (cbn in *; lia)). done.
Qed.

Lemma filter_rev {A} (p : A -> bool) l : List.filter p (rev l) = rev (List.filter p l).
Proof.
  induction l as [|a l IH]; [done|]. cbn. rewrite List.filter_app, IH. cbn. destruct (p a); [done|]. by rewrite app_nil_r.
Qed.

Lemma lacks_rev c s : lacks c (rev s) = lacks c s.
Proof.
  induction s as [|x s IH]; [done|]. cbn [rev]. rewrite lacks_app, IH, !lacks_cons. cbn. rewrite andb_true_r. apply andb_comm.
Qed.

Lemma u_lacks c s : str_forallb (fun a => negb (code a =? c)) s = true -> lacks c (u s) = true.
Proof.
  induction s as [|a s IH]; [done|]. cbn [str_forallb u]. intros [Ha Hs]%andb_true_iff. rewrite lacks_cons, (IH Hs), andb_true_r.
  by rewrite Z.eqb_sym.
Qed.

Lemma int_text_commas n : lacks 44 (int_text n) = true.
Proof.
  apply u_lacks. eapply str_forallb_impl; [|apply str_of_int_chars]. intros c Hc. unfold is_ascii_digit in Hc.
  apply negb_true_iff, Z.eqb_neq. rewrite orb_true_iff, andb_true_iff, !Z.leb_le, Z.eqb_eq in Hc. lia.
Qed.

(** Without its commas, an amount reads as the number. *)
Lemma with_commas_exact n : List.filter (fun c => negb (c =? 44)) (with_commas n) = int_text n.
Proof.
  assert (H : forall m, List.filter (fun c => negb (c =? 44)) (rev (group_digits (rev (int_text m)))) = int_text m).
  { intros m. rewrite filter_rev, (group_digits_filter _ _ (le_n _)), rev_involutive; [done|].
    rewrite lacks_rev. apply int_text_commas. }
  unfold with_commas. destruct (Z.ltb_spec n 0); [|apply H]. cbn [List.filter]. change (negb (45 =? 44)) with true. cbn iota.
  rewrite H. destruct n as [|p|p]; try lia. reflexivity.
Qed.

Lemma u_app s t : u (s +:+ t) = u s ++ u t.
Proof. induction s as [|c s IH]; [done|]. change (String c s +:+ t) with (String c (s +:+ t)). cbn [u app]. by rewrite IH. Qed.

Lemma drop_while_snoc p l (a : Z) : drop_while p (l ++ [a]) =
  match drop_while p l with [] => drop_while p [a] | r => r ++ [a] end.
Proof.
  induction l as [|b l IH]; [done|]. cbn [app drop_while]. destruct (p b); [apply IH|done].
Qed.

Lemma u_rstrip s : u (rstrip (fun c => Ascii.eqb c (char 48)) s) = rstrip_zeros (u s).
Proof.
  unfold rstrip_zeros. induction s as [|c s IH]; [done|]. cbn [rstrip u rev]. rewrite drop_while_snoc.
  assert (Hc : Ascii.eqb c (char 48) = (48 =? code c)).
  { destruct (Ascii.eqb_spec c (char 48)) as [->|Hn]; [done|]. symmetry. apply Z.eqb_neq. intros E. apply Hn.
    unfold code, char in *. rewrite <- (Ascii.ascii_N_embedding c). f_equal. lia. }
  destruct (drop_while (Z.eqb 48) (rev (u s))) as [|d l].
  - assert (Hnil : rstrip (fun c => Ascii.eqb c (char 48)) s = "") by (destruct (rstrip _ s); [done|discriminate IH]).
    rewrite Hnil, Hc. cbn [drop_while]. destruct (48 =? code c); reflexivity.
  - assert (Hne : String.eqb (rstrip (fun c => Ascii.eqb c (char 48)) s) "" = false).
    { destruct (rstrip _ s); [|done]. cbn in IH. by destruct (rev l). }
    rewrite Hne, andb_false_r. cbn [u]. rewrite IH. by rewrite rev_unit.
Qed.

(** The admin bot prints a fee rate exactly as the command line does. *)
Lemma fmt_fee_rate_agrees rate : fmt_fee_rate (Some rate) = u (format_rate_percent rate).
Proof.
  unfold fmt_fee_rate, format_rate_percent. destruct (rate mod 100 =? 0); rewrite !u_app; [done|]. f_equal.
  by rewrite u_rstrip, !u_app.
Qed.

(** ** Witnesses *)

#[local] Instance plain_rendering : Rendering := {|
  jalali_text := fun _ t => int_text t; hour_minute_text := fun _ _ => u "12:30";
  repr_text := fun _ => u "..."; grouped_text := fun _ => u "0" |}.

#[local] Instance plain_rendering_laws : @RenderingLaws plain_rendering.
Proof. split; intros; [apply visible_int|reflexivity..|cbn; lia]. Qed.

Definition hostile_payment : Payment := example_payment <| bot_order_id := "</b><b>&amp;" |>.

Definition hostile_alert : ClaimedAlert :=
  mkClaimedAlert 1 "manual_review_required" "warning" (Some (id hostile_payment))
    (Some [("reason", JStr "<code>x"); ("attempt", JInt 3); ("detail", JNull)]) 1 "w".

Lemma alert_messages_well_formed_witness :
  exists s chunks, alert_text (db_of [hostile_payment]) default_settings hostile_alert 5 = Ret s /\
  alert_messages (db_of [hostile_payment]) default_settings hostile_alert 5 = Ret chunks /\ Forall well_formed chunks /\
  exists before after, read s = Some (before ++ map (pair Code) (u "<code>x") ++ after).
Proof.
  destruct (alert_text (db_of [hostile_payment]) default_settings hostile_alert 5) as [s|e] eqn:E; [|vm_compute in E; discriminate E].
  destruct (alert_messages_well_formed (db_of [hostile_payment]) default_settings hostile_alert 5 s)
    as (chunks & Hc & _ & Hv & _ & _ & _ & Hw); [vm_compute; discriminate|exact E|].
  exists s, chunks. split; [reflexivity|]. split; [exact Hc|]. split.
  - apply Hw.
    + split; [reflexivity| |].
      * intros k v. cbn. repeat (destruct (String.eqb _ _); [intros [= <-]; reflexivity|]). discriminate.
      * intros pid p [= <-] Hp. vm_compute in Hp. injection Hp as <-. split; [reflexivity|].
        intros r Hr. vm_compute in Hr. discriminate Hr.
    + assert (Hf : forallb (fun line => (length line <=? 3500)%nat) (text_split NEWLINE s) = true).
      { assert (Es : match alert_text (db_of [hostile_payment]) default_settings hostile_alert 5 with
                     | Ret t => forallb (fun line => (length line <=? 3500)%nat) (text_split NEWLINE t) | Raise _ => false end = true)
          by (vm_compute; reflexivity).
        rewrite E in Es. exact Es. }
      rewrite forallb_forall in Hf. apply List.Forall_forall. intros line Hl. apply Nat.leb_le. exact (Hf line Hl).
  - apply (Hv ("reason", fa "دلیل") (JStr "<code>x")); [discriminate|left; reflexivity|reflexivity|discriminate].
Defined.

(** At the smallest limit an order number of 128 ampersands makes a line too
    long, and the cut leaves chunks that are not markup. *)
Example oversized_line_is_cut :
  existsb (fun c => is_none (read c))
    (split_message (payment_block (example_payment <| bot_order_id := Stdlib.Strings.String.string_of_list_ascii (repeat (char 38) 128) |>) "UTC") 500) = true.
Proof. vm_compute. reflexivity. Qed.
