(* ===== verification/Logging.v ===== *)
(** Log lines and request ids ([app/logging_setup.py], [app/middleware.py]):
    the two formatters with the redaction of secrets, the id of a request and
    what the middleware adds to a response.

    The password in the database URL, a time stamp, Python's text of a float
    and of a traceback are arguments; installing the handler is left out. *)

From S2P Require Import Prelude PyText Config Session Unicode Format.

#[local] Open Scope Z_scope.

(** ** Substrings *)

(** [s.startswith(needle)]. *)
Fixpoint is_prefix (needle s : text) : bool :=
  match needle, s with
  | [], _ => true
  | x :: needle', y :: s' => (x =? y) && is_prefix needle' s'
  | _ :: _, [] => false
  end.

(** [needle in s]. *)
Fixpoint contains (needle s : text) : bool :=
  is_prefix needle s || match s with [] => false | _ :: s' => contains needle s' end.

(** [s.replace(needle, other)] for a needle that is not empty: from the left,
    going on after each occurrence. [skip] characters of one remain. *)
Fixpoint replace_from (needle other : text) (skip : nat) (s : text) : text :=
  match s with
  | [] => []
  | c :: s' =>
      match skip with
      | S skip' => replace_from needle other skip' s'
      | O => if is_prefix needle s then other ++ replace_from needle other (length needle - 1) s'
             else c :: replace_from needle other O s'
      end
  end.

Definition replace_all (needle other s : text) : text := replace_from needle other 0 s.

(** ** Redaction *)

Definition MIN_REDACTABLE_LENGTH : nat := 6.
Definition REDACTED : text := u "[REDACTED]".

(** The set of the secrets, without repetition. *)
Fixpoint distinct (l : list text) : list text :=
  match l with
  | [] => []
  | s :: l' => if existsb (text_eqb s) l' then distinct l' else s :: distinct l'
  end.

(** [SecretRedactor.__init__]: the longest first. (The order of secrets of one
    length is a Python set's; here it is the list's.) *)
Definition redactor_secrets (secrets : list text) : list text :=
  sort_by (fun a b => (length b <=? length a)%nat)
    (List.filter (fun s => (MIN_REDACTABLE_LENGTH <=? length s)%nat) (distinct secrets)).

(** [SecretRedactor.redact]. *)
Definition redact (secrets : list text) (line : text) : text :=
  fold_left (fun line secret => if contains secret line then replace_all secret REDACTED line else line)
    (redactor_secrets secrets) line.

(** [collect_secret_values]; the password is [None] when the URL does not
    parse or has none. *)
Definition collect_secret_values (settings : Settings) (password : option string) : list text :=
  map u (List.filter (fun s => negb (String.eqb s ""))
    ([inbound_api_key settings; callback_hmac_secret settings; centralpay_getlink_api_key settings;
      centralpay_verify_api_key settings; centralpay_payer_id_secret settings; bot_notify_token settings;
      admin_bot_token settings] ++ match password with Some p => [p] | None => [] end)).

(** ** [json.dumps] *)

(** What the outside renders: a time stamp in the two formats, and Python's
    text of a float in JSON. *)
Class LogRendering := {
  iso_text : Z -> text;
  clock_text : Z -> text;
  json_float : Json -> text
}.

Definition hex_digit (n : Z) : Z := if n <? 10 then 48 + n else 87 + n.

(** One character of a JSON string, with [ensure_ascii=False]. *)
Definition json_char (c : Z) : text :=
  if c =? 34 then u "\" ++ [34] else if c =? 92 then u "\\"
  else if c =? 8 then u "\b" else if c =? 9 then u "\t" else if c =? 10 then u "\n"
  else if c =? 12 then u "\f" else if c =? 13 then u "\r"
  else if (0 <=? c) && (c <=? 31) then u "\u00" ++ [hex_digit (c / 16); hex_digit (c mod 16)]
  else [c].

Definition json_string (s : text) : text := [34] ++ flat_map json_char s ++ [34].

Section Lines.
Context `{Rendering} `{LogRendering}.

Fixpoint dumps (v : Json) : text :=
  match v with
  | JNull => u "null"
  | JBool b => if b then u "true" else u "false"
  | JInt n => int_text n
  | JFloat _ => json_float v
  | JStr s => json_string (u s)
  | JList l =>
      u "[" ++ (fix items (first : bool) (l : list Json) : text :=
                  match l with
                  | [] => []
                  | x :: l' => (if first then [] else u ", ") ++ dumps x ++ items false l'
                  end) true l ++ u "]"
  | JObj o =>
      u "{" ++ (fix items (first : bool) (o : list (string * Json)) : text :=
                  match o with
                  | [] => []
                  | (k, x) :: o' => (if first then [] else u ", ") ++ json_string (u k) ++ u ": " ++ dumps x ++ items false o'
                  end) true o ++ u "}"
  end.

(** ** Log lines *)

(** A [LogRecord]: its attributes are those of its [__dict__], in order. *)
Record LogRecord := mkLogRecord {
  created : Z;
  levelname : string;
  logger_name : string;
  message : string;
  attributes : dict;
  exc_text : option string
}.

Definition _STANDARD_ATTRS : list string :=
  ["name"; "msg"; "args"; "levelname"; "levelno"; "pathname"; "filename"; "module"; "exc_info"; "exc_text"; "stack_info";
   "lineno"; "funcName"; "created"; "msecs"; "relativeCreated"; "thread"; "threadName"; "processName"; "process";
   "message"; "asctime"; "taskName"].

Definition extra_attribute (kv : string * Json) : bool :=
  negb (existsb (String.eqb (fst kv)) _STANDARD_ATTRS) && negb (String.prefix "_" (fst kv)).

(** A text the record does not hold as one of its strings. *)
Inductive Field := Text (t : text) | Value (v : Json).

Definition field_dumps (f : Field) : text := match f with Text t => json_string t | Value v => dumps v end.

(** [payload[key] = value]. *)
Fixpoint put_field (k : string) (f : Field) (d : list (string * Field)) : list (string * Field) :=
  match d with
  | [] => [(k, f)]
  | (k', f') :: d' => if String.eqb k' k then (k, f) :: d' else (k', f') :: put_field k f d'
  end.

Definition payload_of (request_id : option string) (record : LogRecord) : list (string * Field) :=
  let payload := [("ts", Text (iso_text (created record))); ("level", Value (JStr (lower (levelname record))));
                  ("logger", Value (JStr (logger_name record))); ("event", Value (JStr (message record)))] in
  let payload := match request_id with Some i => put_field "request_id" (Value (JStr i)) payload | None => payload end in
  let payload := fold_left (fun d kv => put_field (fst kv) (Value (snd kv)) d)
                   (List.filter extra_attribute (attributes record)) payload in
  match exc_text record with Some t => put_field "exc_info" (Value (JStr t)) payload | None => payload end.

Definition dumps_fields (d : list (string * Field)) : text :=
  u "{" ++ text_join (u ", ") (map (fun kf => json_string (u (fst kf)) ++ u ": " ++ field_dumps (snd kf)) d) ++ u "}".

(** [JsonFormatter.format] and [TextFormatter.format]; a redactor is the list
    of its secrets. *)
Definition redact_line (redactor : option (list text)) (line : text) : text :=
  match redactor with Some secrets => redact secrets line | None => line end.

Definition json_format (redactor : option (list text)) (request_id : option string) (record : LogRecord) : text :=
  redact_line redactor (dumps_fields (payload_of request_id record)).

Definition text_format (redactor : option (list text)) (request_id : option string) (record : LogRecord) : text :=
  let parts :=
    [clock_text (created record); u (levelname record); u (logger_name record); u (message record)]
    ++ line_if request_id (fun i => u "request_id=" ++ u i)
    ++ map (fun kv => u (fst kv) ++ u "=" ++ str_value (snd kv)) (List.filter extra_attribute (attributes record))
    ++ line_if (exc_text record) u in
  redact_line redactor (text_join (u " ") parts).
End Lines.

(** ** The request-id middleware *)

Definition request_id_char (c : Ascii.ascii) : bool :=
  let z := code c in
  ((65 <=? z) && (z <=? 90)) || ((97 <=? z) && (z <=? 122)) || is_ascii_digit c || (z =? 46) || (z =? 95) || (z =? 45).

(** [_REQUEST_ID_PATTERN.fullmatch]. *)
Definition request_id_match (s : string) : bool :=
  str_forallb request_id_char s && (1 <=? String.length s)%nat && (String.length s <=? 64)%nat.

(** [Headers.get]: the first header of the name. *)
Fixpoint header (name : string) (headers : list (string * string)) : option string :=
  match headers with
  | [] => None
  | (k, v) :: rest => if String.eqb k name then Some v else header name rest
  end.

Definition incoming_request_id (headers : list (string * string)) : option string :=
  match header "x-request-id" headers with
  | Some v => if request_id_match v then Some v else None
  | None => None
  end.

(** [headers[name] = value] of [MutableHeaders]: the first is replaced, the
    others are removed; a new one comes last. *)
Definition set_header (name v : string) (headers : list (string * string)) : list (string * string) :=
  let others := List.filter (fun kv : string * string => negb (String.eqb (fst kv) name)) in
  (fix go (before headers : list (string * string)) : list (string * string) :=
     match headers with
     | [] => before ++ [(name, v)]
     | (k, w) :: rest => if String.eqb k name then before ++ (name, v) :: others rest else go (before ++ [(k, w)]) rest
     end) [] headers.

Inductive AsgiMessage :=
| ResponseStart (status : Z) (headers : list (string * string))
| OtherMessage (kind : string).

Definition send_wrapper (request_id : string) (m : AsgiMessage) : AsgiMessage :=
  match m with
  | ResponseStart status headers => ResponseStart status (set_header "x-request-id" request_id headers)
  | OtherMessage kind => OtherMessage kind
  end.

(** The status the record reports: of the last response that started. *)
Definition last_status (messages : list AsgiMessage) : option Z :=
  fold_left (fun s m => match m with ResponseStart status _ => Some status | OtherMessage _ => s end) messages None.

(** A request as the middleware sees it, and what it does with it: the id the
    application runs under, what goes out, how the call ends, and the record
    that is logged either way. *)
Record Scope := mkScope {
  scope_type : string;
  method : option string;
  path : option string;
  query_string : string;
  request_headers : list (string * string)
}.

Record Handled := mkHandled {
  context_id : option string;
  sent : list AsgiMessage;
  outcome : Res unit;
  logged : list dict
}.

(** [app] sends messages and then returns or raises; [duration] is the
    measured time. *)
Definition request_context (app : option string -> list AsgiMessage * Res unit) (uuid : string) (duration : Json) (scope : Scope)
  : Handled :=
  if negb (String.eqb (scope_type scope) "http") then
    let '(messages, result) := app None in mkHandled None messages result []
  else
    let request_id := default uuid (incoming_request_id (request_headers scope)) in
    let '(messages, result) := app (Some request_id) in
    mkHandled (Some request_id) (map (send_wrapper request_id) messages) result
      [[("method", json_of_option JStr (method scope)); ("path", json_of_option JStr (path scope));
        ("status_code", json_of_option JInt (last_status messages)); ("duration_ms", duration)]].


(** ** Facts: redaction *)

Lemma is_prefix_spec needle s : is_prefix needle s = true <-> exists b, s = needle ++ b.
Proof.
  revert s. induction needle as [|x needle IH]; intros s; [split; [by exists s|done]|].
  destruct s as [|y s]; cbn; [split; [done|intros (b & [=])]|]. rewrite andb_true_iff, Z.eqb_eq, IH. split.
  - intros (-> & b & ->). by exists b.
  - intros (b & [= -> ->]). eauto.
Qed.

Lemma contains_spec needle s : contains needle s = true <-> exists a b, s = a ++ needle ++ b.
Proof.
  induction s as [|c s IH]; cbn [contains]; rewrite orb_true_iff, is_prefix_spec.
  - split; [intros [(b & E)|]; [by exists [], b|done]|]. intros ([|? a] & b & E); [left; by exists b|done].
  - rewrite IH. split.
    + intros [(b & E)|(a & b & ->)]; [by exists [], b|by exists (c :: a), b].
    + intros ([|x a] & b & E); [left; by exists b|]. injection E as -> ->. right. eauto.
Qed.

Lemma contains_widen needle a s b : contains needle s = true -> contains needle (a ++ s ++ b) = true.
Proof.
  rewrite !contains_spec. intros (x & y & ->). exists (a ++ x), (y ++ b). by rewrite <- !app_assoc.
Qed.

(** A needle without the character [x] occurs on one side of it. *)
Lemma contains_apart x needle a b : lacks x needle = true -> needle <> [] ->
  contains needle (a ++ x :: b) = contains needle a || contains needle b.
Proof.
  intros Hx Hne. apply eq_true_iff_eq. rewrite orb_true_iff. split.
  2:{ intros [H|H].
      - exact (contains_widen needle [] a (x :: b) H).
      - pose proof (contains_widen needle (a ++ [x]) b [] H) as G. by rewrite app_nil_r, <- app_assoc in G. }
  rewrite !contains_spec. intros (p & q & E). apply app_eq_app in E as (l & [[-> E]|[-> E]]).
  - apply app_eq_app in E as (l' & [[-> E]|[-> E]]); [|left; by exists p, l'].
    destruct l' as [|y l']; [left; exists p, []; by rewrite !app_nil_r|].
    exfalso. injection E as -> _. rewrite lacks_app, lacks_cons, Z.eqb_refl, andb_false_r in Hx. discriminate Hx.
  - destruct l as [|y l]; [|injection E as -> ->; right; eauto].
    destruct needle as [|z needle]; [done|]. injection E as -> _. rewrite lacks_cons, Z.eqb_refl in Hx. discriminate Hx.
Qed.

(** [out] is [s] with the occurrences of [needle] redacted, between pieces
    that hold none. *)
Inductive redacted (needle : text) : text -> text -> Prop :=
| redacted_end piece : contains needle piece = false -> redacted needle piece piece
| redacted_step piece s out : contains needle piece = false -> redacted needle s out ->
    redacted needle (piece ++ needle ++ s) (piece ++ REDACTED ++ out).

Lemma replace_skip needle other n s : replace_from needle other n s = replace_from needle other 0 (drop n s).
Proof.
  revert n. induction s as [|c s IH]; intros n; [by destruct n|]. destruct n as [|n]; [done|]. cbn. apply IH.
Qed.

Lemma is_prefix_widen needle s t : is_prefix needle s = true -> is_prefix needle (s ++ t) = true.
Proof. rewrite !is_prefix_spec. intros (b & ->). exists (b ++ t). by rewrite app_assoc. Qed.

Lemma redacted_cons needle c s out : is_prefix needle (c :: s) = false -> redacted needle s out ->
  redacted needle (c :: s) (c :: out).
Proof.
  intros Hp H. revert Hp. destruct H as [piece Hc|piece s' out' Hc Hr]; intros Hp.
  - apply redacted_end. cbn [contains]. by rewrite Hp.
  - apply (redacted_step needle (c :: piece)); [|done]. cbn [contains]. rewrite Hc, orb_false_r.
    destruct (is_prefix needle (c :: piece)) eqn:E; [|done].
    pose proof (is_prefix_widen _ _ (needle ++ s') E) as G. cbn [app] in G. congruence.
Qed.

Lemma replace_redacted needle s : needle <> [] -> redacted needle s (replace_all needle REDACTED s).
Proof.
  intros Hne. unfold replace_all. induction (well_founded_ltof _ (@length Z) s) as [s _ IH]. unfold ltof in IH.
  destruct s as [|c s]; [apply redacted_end; by destruct needle|]. cbn [replace_from].
  destruct (is_prefix needle (c :: s)) eqn:E.
  - apply is_prefix_spec in E as (b & E). rewrite replace_skip. destruct needle as [|x needle]; [done|].
    injection E as <- ->. cbn [length]. rewrite Nat.sub_succ, Nat.sub_0_r, drop_app_length.
    apply (redacted_step (c :: needle) []); [done|]. apply IH. cbn. rewrite length_app. lia.
  - apply redacted_cons; [done|]. apply IH. cbn. lia.
Qed.

(** A secret that the placeholder can neither hold nor help to form. *)
Definition separable (secret : text) : Prop :=
  secret <> [] /\ lacks 91 secret = true /\ lacks 93 secret = true /\ contains secret REDACTED = false.

Lemma contains_redacted secret piece out : separable secret ->
  contains secret (piece ++ REDACTED ++ out) = contains secret piece || contains secret out.
Proof.
  intros (Hne & H1 & H2 & Hr).
  change (piece ++ REDACTED ++ out) with (piece ++ 91 :: u "REDACTED" ++ 93 :: out).
  rewrite !contains_apart by done. change REDACTED with ([] ++ 91 :: u "REDACTED" ++ 93 :: []) in Hr.
  rewrite !contains_apart in Hr by done. apply orb_false_iff in Hr as [_ [Hr _]%orb_false_iff]. by rewrite Hr.
Qed.

(** Redacting a secret removes it and brings no other. *)
Lemma redacted_removes needle s out : separable needle -> redacted needle s out -> contains needle out = false.
Proof.
  intros Hs. induction 1 as [|piece s out Hc _ IH]; [done|]. by rewrite contains_redacted, Hc, IH.
Qed.

Lemma redacted_keeps needle secret s out : separable secret -> redacted needle s out ->
  contains secret s = false -> contains secret out = false.
Proof.
  intros Hs. induction 1 as [|piece s out Hc _ IH]; [done|]. intros Hno.
  rewrite contains_redacted by done. apply orb_false_iff. split.
  - destruct (contains secret piece) eqn:E; [|done]. pose proof (contains_widen _ [] _ (needle ++ s) E) as G. cbn in G. congruence.
  - apply IH. destruct (contains secret s) eqn:E; [|done].
    pose proof (contains_widen _ (piece ++ needle) _ [] E) as G. rewrite app_nil_r, <- app_assoc in G. congruence.
Qed.

Definition redact_one (line secret : text) : text :=
  if contains secret line then replace_all secret REDACTED line else line.

Lemma redact_one_removes line secret : separable secret -> contains secret (redact_one line secret) = false.
Proof.
  intros Hs. unfold redact_one. destruct (contains secret line) eqn:E; [|done].
  eapply redacted_removes; [done|]. apply replace_redacted, Hs.
Qed.

Lemma redact_one_keeps line secret other : secret <> [] -> separable other -> contains other line = false ->
  contains other (redact_one line secret) = false.
Proof.
  intros Hne Ho Hno. unfold redact_one. destruct (contains secret line); [|done].
  eapply redacted_keeps; [done|by apply replace_redacted|done].
Qed.

Lemma redact_all_removes secrets line secret : Forall (fun s => s <> []) secrets -> separable secret ->
  In secret secrets \/ contains secret line = false -> contains secret (fold_left redact_one secrets line) = false.
Proof.
  intros Hne Hs. revert line. induction Hne as [|s l Hne _ IH]; intros line Hor; cbn [fold_left].
  - by destruct Hor.
  - apply IH. destruct Hor as [[->|Hin]|Hno]; [right; by apply redact_one_removes|by left|].
    right. by apply redact_one_keeps.
Qed.

Lemma distinct_In s l : In s (distinct l) <-> In s l.
Proof.
  induction l as [|t l IH]; [done|]. cbn [distinct]. destruct (existsb (text_eqb t) l) eqn:E.
  - rewrite IH. split; [by right|]. intros [->|H]; [|done].
    apply existsb_exists in E as (t' & Ht & Et). unfold text_eqb in Et. apply bool_decide_eq_true in Et. by subst.
  - cbn. by rewrite IH.
Qed.

Lemma redactor_secrets_In s l : In s (redactor_secrets l) <-> In s l /\ (MIN_REDACTABLE_LENGTH <= length s)%nat.
Proof.
  unfold redactor_secrets. rewrite <- list_elem_of_In, sort_by_Permutation, list_elem_of_In.
  by rewrite filter_In, distinct_In, Nat.leb_le.
Qed.

(** No secret of at least six characters is left in a redacted line. *)
Lemma redact_hides secrets line secret : In secret secrets -> (MIN_REDACTABLE_LENGTH <= length secret)%nat ->
  separable secret -> contains secret (redact secrets line) = false.
Proof.
  intros Hin Hl Hs. apply redact_all_removes; [|done|left; by apply redactor_secrets_In].
  apply List.Forall_forall. intros s [_ Hs']%redactor_secrets_In ->. cbn in Hs'. unfold MIN_REDACTABLE_LENGTH in Hs'. lia.
Qed.

Lemma redact_unchanged secrets line : (forall s, In s (redactor_secrets secrets) -> contains s line = false) ->
  redact secrets line = line.
Proof.
  unfold redact. induction (redactor_secrets secrets) as [|s l IH]; intros H; [done|]. cbn [fold_left].
  rewrite (H s) by (by left). apply IH. intros t Ht. apply H. by right.
Qed.

Lemma collected_secret settings password s : In s
    [inbound_api_key settings; callback_hmac_secret settings; centralpay_getlink_api_key settings;
     centralpay_verify_api_key settings; centralpay_payer_id_secret settings; bot_notify_token settings;
     admin_bot_token settings] \/ password = Some s -> s <> "" -> In (u s) (collect_secret_values settings password).
Proof.
  intros Hin Hne. unfold collect_secret_values. apply in_map, filter_In. split; [|by apply negb_true_iff, String.eqb_neq].
  apply in_or_app. destruct Hin as [Hin| ->]; [by left|right; by left].
Qed.

(** C31: No configured secret of at least six characters appears in a log
    line, in either format, whatever is logged (message, attributes,
    traceback, request id), provided it cannot be confused with the
    placeholder: it holds no bracket and is not part of it. A line in which no
    secret occurs is not changed. *)
Theorem log_line_hides_secrets `{Rendering} `{LogRendering} settings password request_id record secret :
  In secret [inbound_api_key settings; callback_hmac_secret settings; centralpay_getlink_api_key settings;
             centralpay_verify_api_key settings; centralpay_payer_id_secret settings; bot_notify_token settings;
             admin_bot_token settings] \/ password = Some secret ->
  (6 <= String.length secret)%nat -> separable (u secret) ->
  let redactor := Some (collect_secret_values settings password) in
  contains (u secret) (json_format redactor request_id record) = false /\
  contains (u secret) (text_format redactor request_id record) = false /\
  forall line, (forall s, In s (collect_secret_values settings password) -> contains s line = false) ->
    redact_line redactor line = line.
Proof.
  intros Hin Hl Hs redactor.
  assert (Hc : In (u secret) (collect_secret_values settings password)).
  { apply collected_secret; [done|]. intros ->. cbn in Hl. lia. }
  assert (Hr : forall line, contains (u secret) (redact_line redactor line) = false).
  { intros line. apply redact_hides; [done| |done]. unfold MIN_REDACTABLE_LENGTH.
    assert (E : forall s, length (u s) = String.length s) by (induction s as [|c s IH]; cbn; [done|by rewrite IH]).
    by rewrite E. }
  split; [apply Hr|]. split; [apply Hr|]. intros line Hno. apply redact_unchanged.
  intros s [Hs' _]%redactor_secrets_In. by apply Hno.
Qed.

(** ** Facts: request ids *)

Lemma header_app name before after : header name before = None -> header name (before ++ after) = header name after.
Proof. induction before as [|[k v] l IH]; [done|]. cbn. by destruct (String.eqb k name). Qed.

Lemma header_filter name headers :
  header name (List.filter (fun kv : string * string => negb (String.eqb (fst kv) name)) headers) = None.
Proof.
  induction headers as [|[k v] l IH]; [done|]. cbn [List.filter fst]. destruct (String.eqb k name) eqn:E; cbn; [done|].
  by rewrite E.
Qed.

(** The values of a header. *)
Definition values_of (name : string) (headers : list (string * string)) : list string :=
  map snd (List.filter (fun kv : string * string => String.eqb (fst kv) name) headers).

Lemma set_header_exact name v headers :
  values_of name (set_header name v headers) = [v] /\
  List.filter (fun kv : string * string => negb (String.eqb (fst kv) name)) (set_header name v headers) =
  List.filter (fun kv : string * string => negb (String.eqb (fst kv) name)) headers.
Proof.
  unfold set_header, values_of. set (others := List.filter (fun kv : string * string => negb (String.eqb (fst kv) name))).
  set (named := List.filter (fun kv : string * string => String.eqb (fst kv) name)).
  assert (Ho : forall l, named (others l) = [] /\ others (others l) = others l).
  { intros l. subst named others. induction l as [|[k w] l [IH1 IH2]]; [done|]. cbn.
    destruct (String.eqb k name) eqn:E; cbn; rewrite ?E; cbn; by rewrite ?IH1, ?IH2. }
  assert (Hv : named [(name, v)] = [(name, v)] /\ others [(name, v)] = []).
  { subst named others. cbn. by rewrite String.eqb_refl. }
  assert (G : forall rest before, named before = [] ->
    let r := (fix go (before headers : list (string * string)) : list (string * string) :=
       match headers with
       | [] => before ++ [(name, v)]
       | (k, w) :: rest => if String.eqb k name then before ++ (name, v) :: others rest else go (before ++ [(k, w)]) rest
       end) before rest in
    map snd (named r) = [v] /\ others r = others before ++ others rest).
  { induction rest as [|[k w] rest IH]; intros before Hb; cbn zeta.
    - subst named others. rewrite !List.filter_app.
      rewrite Hb. cbn. rewrite String.eqb_refl. cbn. by rewrite !app_nil_r.
    - destruct (String.eqb k name) eqn:E.
      + change ((name, v) :: others rest) with ([(name, v)] ++ others rest). destruct (Ho rest) as [Ho1 Ho2].
        subst named others. rewrite !List.filter_app, Hb, Ho1, Ho2. cbn. rewrite String.eqb_refl, E. by cbn.
      + destruct (IH (before ++ [(k, w)])) as [I1 I2].
        { subst named. rewrite List.filter_app, Hb. cbn. by rewrite E. }
        split; [exact I1|]. rewrite I2. subst others. rewrite List.filter_app. cbn. rewrite E. cbn. by rewrite <- app_assoc. }
  destruct (G headers [] eq_refl) as [G1 G2]. by split.
Qed.

(** Every HTTP request runs under an id of one to 64 letters, digits, dots,
    underscores and hyphens, the caller's if it is one; every response carries
    exactly this id and is otherwise unchanged; one record is logged, however
    the application ends. *)
Theorem request_context_exact app uuid duration scope : request_id_match uuid = true -> scope_type scope = "http" ->
  let h := request_context app uuid duration scope in
  exists request_id, context_id h = Some request_id /\ request_id_match request_id = true /\
  (forall v, header "x-request-id" (request_headers scope) = Some v -> request_id_match v = true -> request_id = v) /\
  outcome h = snd (app (Some request_id)) /\ length (logged h) = 1%nat /\
  Forall2 (fun m m' => match m, m' with
           | ResponseStart status hs, ResponseStart status' hs' => status' = status /\
               values_of "x-request-id" hs' = [request_id] /\
               List.filter (fun kv : string * string => negb (String.eqb (fst kv) "x-request-id")) hs' =
               List.filter (fun kv : string * string => negb (String.eqb (fst kv) "x-request-id")) hs
           | OtherMessage k, OtherMessage k' => k' = k
           | _, _ => False
           end) (fst (app (Some request_id))) (sent h).
Proof.
  intros Hu Hs. unfold request_context. rewrite Hs. cbn [negb String.eqb Ascii.eqb Bool.eqb].
  set (i := default uuid (incoming_request_id (request_headers scope))). exists i.
  assert (Hi : request_id_match i = true /\
    (forall v, header "x-request-id" (request_headers scope) = Some v -> request_id_match v = true -> i = v)).
  { subst i. unfold incoming_request_id. destruct (header "x-request-id" (request_headers scope)) as [v|]; [|done].
    destruct (request_id_match v) eqn:E; cbn; (split; [done|]); intros v' [= <-] Hv; [done|congruence]. }
  destruct Hi as [Hi1 Hi2]. change (negb (String.eqb "http" "http")) with false. cbn iota.
  destruct (app (Some i)) as [messages result]. cbn [context_id outcome logged sent fst snd]. split_and!; try done.
  clear. induction messages as [|[status hs|k] ms IH]; [constructor|..]; constructor; try done.
  cbn [send_wrapper]. split; [done|]. apply set_header_exact.
Qed.

(** ** Witnesses *)

#[local] Instance plain_log_rendering : LogRendering := {|
  iso_text := fun _ => u "2026-01-01T00:00:00+00:00"; clock_text := fun _ => u "00:00:00"; json_float := fun _ => u "0.5" |}.

#[local] Definition keyed : Settings := default_settings <| inbound_api_key := "s3cret-key" |>.

#[local] Definition leaky_record : LogRecord :=
  mkLogRecord 0 "INFO" "app" "key s3cret-keys3cret-key" [("name", JStr "x"); ("url", JStr "/?k=s3cret-key"); ("n", JInt 3)] None.

Example json_line_ex : @json_format plain_log_rendering (Some (collect_secret_values keyed None)) (Some "id1") leaky_record
  = flat_map (fun c => if c =? 39 then [34] else [c])
      (u "{'ts': '2026-01-01T00:00:00+00:00', 'level': 'info', 'logger': 'app', 'event': 'key [REDACTED][REDACTED]', 'request_id': 'id1', 'url': '/?k=[REDACTED]', 'n': 3}").
Proof. vm_compute. reflexivity. Qed.

Lemma log_line_hides_secrets_witness :
  contains (u "s3cret-key") (@json_format plain_log_rendering (Some (collect_secret_values keyed None)) None leaky_record) = false /\
  contains (u "s3cret-key") (@text_format plain_rendering plain_log_rendering (Some (collect_secret_values keyed None)) None leaky_record) = false.
Proof.
  destruct (@log_line_hides_secrets plain_rendering plain_log_rendering keyed None None leaky_record "s3cret-key") as (H1 & H2 & _).
  - left. left. reflexivity.
  - apply Nat.leb_le. reflexivity.
  - split; [discriminate|]. split; [reflexivity|]. split; reflexivity.
  - split; [exact H1|exact H2].
Defined.

(** The line is redacted after it was serialised: a secret with a quotation
    mark inside is escaped by then, and stays. *)
Example escaped_secret_stays :
  let secret := ("s3cret" ++ String (char 34) "key")%string in
  contains (json_string (u secret)) (@json_format plain_log_rendering
    (Some (collect_secret_values (default_settings <| inbound_api_key := secret |>) None)) None
    (mkLogRecord 0 "INFO" "app" secret [] None)) = true.
Proof. vm_compute. reflexivity. Qed.
