(* ===== verification/ReplyDelivery.v ===== *)
(** Delivery of the replies to an administrator's command
    ([app/adminbot/reply_delivery.py]): the chunks of a reply go out in order,
    each with at most three attempts, and all the waiting of one reply shares
    one budget.

    Sending is a parameter: the [n]-th call of [send] either succeeds or
    raises. A run is its trace of sends, sleeps and log records. Every
    duration of the module is a whole number of seconds. *)

From S2P Require Import Prelude PyText Unicode AlertDelivery.

#[local] Open Scope Z_scope.

(** ** Data *)

(** An exception of [send]: what [classify_send_error] sees of it, and the
    name of its class. *)
Record SendFailure := mkSendFailure {
  failure_error : SendError;
  failure_class : string
}.

Definition RETRY_DELAYS_SECONDS : list Z := [1; 3].
Definition ATTEMPTS_PER_CHUNK : nat := S (length RETRY_DELAYS_SECONDS).
Definition REPLY_TIME_BUDGET_SECONDS : Z := 15.

Record ChunkResult := mkChunkResult {
  chunk_delivered : bool;
  abandoned_due_to_retry_after : bool
}.

(** What a run does, in order. *)
Inductive ReplyEvent :=
  | Sent (message : text) (answer : option SendFailure)
  | Slept (duration : Z)
  | Logged (record : string) (extra : dict).

(** The events so far, newest first, and the number of sends. *)
Record ReplyRun := mkReplyRun { sends : nat; events : list ReplyEvent }.

Definition R (A : Type) : Type := ReplyRun -> A * ReplyRun.
Definition rret {A} (a : A) : R A := fun r => (a, r).
Definition rbind {A B} (m : R A) (f : A -> R B) : R B := fun r => let '(a, r) := m r in f a r.

Declare Scope reply_scope.
#[local] Notation "'let+' x := m 'in' k" := (rbind m (fun x => k))
  (at level 100, x pattern, k at level 200) : reply_scope.
#[local] Notation "m ;;+ k" := (rbind m (fun _ => k)) (at level 100, k at level 200) : reply_scope.
#[local] Open Scope reply_scope.

Definition put_event (e : ReplyEvent) : R unit := fun r => (tt, mkReplyRun (sends r) (e :: events r)).
Definition log (record : string) (extra : dict) : R unit := put_event (Logged record extra).
Definition sleep (duration : Z) : R unit := put_event (Slept duration).

(** ** Log records *)

(** A key that is only there with a value. *)
Definition optional (k : string) (v : option Json) : dict :=
  match v with Some v => [(k, v)] | None => [] end.

Definition chunk_extra (command : string) (chunk_index chunk_count attempt : nat) (error_code : option string)
  : dict :=
  [("command", JStr command); ("chunk_index", JInt (Z.of_nat chunk_index));
   ("chunk_count", JInt (Z.of_nat chunk_count)); ("attempt", JInt (Z.of_nat attempt));
   ("error_code", json_of_option JStr error_code)].

Definition log_retry_scheduled (command : string) (chunk_index chunk_count attempt : nat)
    (error_code : option string) (delay_seconds : Z) (exception_type : option string) : R unit :=
  log "admin_reply_retry_scheduled"
    (chunk_extra command chunk_index chunk_count attempt error_code ++ [("delay_seconds", JInt delay_seconds)] ++
     optional "exception_type" (option_map JStr exception_type)).

Definition log_failed (command : string) (chunk_index chunk_count attempt : nat) (error_code : option string)
    (retry_after time_budget_remaining : option Z) (exception_type : option string) : R unit :=
  log "admin_reply_failed"
    (chunk_extra command chunk_index chunk_count attempt error_code ++
     optional "exception_type" (option_map JStr exception_type) ++
     optional "retry_after_seconds" (option_map JInt retry_after) ++
     optional "reply_time_budget_remaining_seconds" (option_map JInt time_budget_remaining)).

Definition log_warning_skipped (command : string) : R unit :=
  log "admin_reply_incomplete_warning_skipped"
    [("command", JStr command); ("reason", JStr "retry_after_active")].

Definition diagnostic_exception_type (exc : SendFailure) (code : option string) : option string :=
  if bool_decide (code = Some "telegram_unknown") then Some (failure_class exc) else None.

(** ** Delivery *)

(** The text sent when a reply stays incomplete, in Persian in the source. *)
Class ReplyTexts := { INCOMPLETE_DELIVERY_WARNING : text }.

Section Delivery.
Context `{ReplyTexts}.
Variable transport : nat -> text -> option SendFailure.

(** [await send(message)]: [Some] exception, or success. *)
Definition send (message : text) : R (option SendFailure) := fun r =>
  let answer := transport (sends r) message in
  (answer, mkReplyRun (S (sends r)) (Sent message answer :: events r)).

Section Chunk.
Variables (command : string) (chunk_index chunk_count : nat) (chunk : text).

(** The attempts from number [attempt] on, [remaining] of them. *)
Fixpoint chunk_attempts (remaining attempt : nat) (time_budget : Z) : R (ChunkResult * Z) :=
  match remaining with
  | O => rret (mkChunkResult false false, time_budget)
  | S remaining =>
      let+ failed := send chunk in
      match failed with
      | None => rret (mkChunkResult true false, time_budget)
      | Some exc =>
          let outcome := classify_send_error (failure_error exc) in
          let exception_type := diagnostic_exception_type exc (error_code outcome) in
          let is_last_attempt := (ATTEMPTS_PER_CHUNK <=? attempt)%nat in
          let failed_log retry_after budget exception_type :=
            log_failed command chunk_index chunk_count attempt (error_code outcome) retry_after budget
              exception_type in
          let retry_log delay exception_type :=
            log_retry_scheduled command chunk_index chunk_count attempt (error_code outcome) delay exception_type in
          let undelivered := mkChunkResult false false in
          match (if retryable outcome then retry_after_seconds outcome else None) with
          | Some retry_after =>
              if time_budget <? retry_after then
                failed_log (Some retry_after) (Some time_budget) None ;;+
                rret (mkChunkResult false true, time_budget)
              else if is_last_attempt then
                failed_log (Some retry_after) None None ;;+
                rret (mkChunkResult false true, time_budget)
              else
                retry_log retry_after None ;;+
                sleep retry_after ;;+
                chunk_attempts remaining (S attempt) (time_budget - retry_after)
          | None =>
              if retryable outcome && negb is_last_attempt then
                let delay := nth (attempt - 1) RETRY_DELAYS_SECONDS 0 in
                if time_budget <? delay then
                  failed_log None (Some time_budget) exception_type ;;+
                  rret (undelivered, time_budget)
                else
                  retry_log delay exception_type ;;+
                  sleep delay ;;+
                  chunk_attempts remaining (S attempt) (time_budget - delay)
              else
                failed_log None None exception_type ;;+
                rret (undelivered, time_budget)
          end
      end
  end.

Definition deliver_one_chunk (time_budget : Z) : R (ChunkResult * Z) :=
  chunk_attempts ATTEMPTS_PER_CHUNK 1 time_budget.
End Chunk.

Definition send_incomplete_warning (command : string) : R unit :=
  let+ failed := send INCOMPLETE_DELIVERY_WARNING in
  match failed with
  | None => rret tt
  | Some exc =>
      let code := error_code (classify_send_error (failure_error exc)) in
      log "admin_reply_incomplete_warning_failed"
        ([("command", JStr command); ("error_code", json_of_option JStr code)] ++
         optional "exception_type" (option_map JStr (diagnostic_exception_type exc code)))
  end.

(** The loop over [enumerate(chunks)], from [index] on. *)
Fixpoint deliver_from (command : string) (chunk_count index : nat) (chunks : list text) (time_budget : Z)
  : R unit :=
  match chunks with
  | [] => rret tt
  | chunk :: chunks' =>
      let+ res := deliver_one_chunk command index chunk_count chunk time_budget in
      let '(result, time_budget) := res in
      if chunk_delivered result then deliver_from command chunk_count (S index) chunks' time_budget
      else if abandoned_due_to_retry_after result then log_warning_skipped command
      else send_incomplete_warning command
  end.

Definition deliver_reply_chunks (chunks : list text) (command : string) : R unit :=
  deliver_from command (length chunks) 0 chunks REPLY_TIME_BUDGET_SECONDS.

(** The events of a run from the start, oldest first. *)
Definition reply_trace (chunks : list text) (command : string) : list ReplyEvent :=
  rev (events (snd (deliver_reply_chunks chunks command (mkReplyRun 0 [])))).
End Delivery.

(** ** Observations of a trace *)

Definition sent_text (e : ReplyEvent) : option text :=
  match e with Sent m _ => Some m | _ => None end.
Definition delivered_text (e : ReplyEvent) : option text :=
  match e with Sent m None => Some m | _ => None end.
Definition sleep_of (e : ReplyEvent) : option Z :=
  match e with Slept d => Some d | _ => None end.

(** Everything handed to [send], and what of it was accepted. *)
Definition messages (tr : list ReplyEvent) : list text := omap sent_text tr.
Definition delivered (tr : list ReplyEvent) : list text := omap delivered_text tr.
Definition sleeps (tr : list ReplyEvent) : list Z := omap sleep_of tr.
Definition total_slept (tr : list ReplyEvent) : Z := foldr Z.add 0 (sleeps tr).

(** The wait that a failed send asks for. *)
Definition flood_wait (answer : option SendFailure) : option Z :=
  match answer with
  | Some exc =>
      let outcome := classify_send_error (failure_error exc) in
      if retryable outcome then retry_after_seconds outcome else None
  | None => None
  end.

(** The observer of Telegram's flood control: the state is the wait that is
    still owed; [None] is a violation, a send while a wait is owed. *)
Definition flood_step (owed : option Z) (e : ReplyEvent) : option (option Z) :=
  match e, owed with
  | Logged _ _, _ => Some owed
  | Sent _ answer, None => Some (flood_wait answer)
  | Sent _ _, Some _ => None
  | Slept d, Some s => Some (if s <=? d then None else owed)
  | Slept _, None => Some None
  end.

Fixpoint flood_run (owed : option Z) (tr : list ReplyEvent) : option (option Z) :=
  match tr with
  | [] => Some owed
  | e :: tr' => match flood_step owed e with Some owed => flood_run owed tr' | None => None end
  end.

Lemma flood_run_app owed tr1 tr2 :
  flood_run owed (tr1 ++ tr2) = match flood_run owed tr1 with Some owed => flood_run owed tr2 | None => None end.
Proof. revert owed. induction tr1 as [|e tr1 IH]; intros owed; cbn; [done|]. by destruct (flood_step owed e). Qed.

Lemma messages_app tr1 tr2 : messages (tr1 ++ tr2) = messages tr1 ++ messages tr2.
Proof. apply omap_app. Qed.
Lemma delivered_app tr1 tr2 : delivered (tr1 ++ tr2) = delivered tr1 ++ delivered tr2.
Proof. apply omap_app. Qed.
Lemma sleeps_app tr1 tr2 : sleeps (tr1 ++ tr2) = sleeps tr1 ++ sleeps tr2.
Proof. apply omap_app. Qed.

Lemma total_slept_app tr1 tr2 : total_slept (tr1 ++ tr2) = total_slept tr1 + total_slept tr2.
Proof.
  unfold total_slept. rewrite sleeps_app.
  induction (sleeps tr1) as [|d l IH]; [done|]. change (d + foldr Z.add 0 (l ++ sleeps tr2) = d + foldr Z.add 0 l + foldr Z.add 0 (sleeps tr2)). lia.
Qed.

(** ** Reasoning about runs *)

(** From the run [r], [m] returns [a] and appends the events [es]. *)
Definition emits {A} (m : R A) (Q : A -> list ReplyEvent -> Prop) (r : ReplyRun) : Prop :=
  exists a es k, m r = (a, mkReplyRun k (rev es ++ events r)) /\ Q a es.

Lemma emits_ret {A} (a : A) (Q : A -> list ReplyEvent -> Prop) r : Q a [] -> emits (rret a) Q r.
Proof. intros HQ. exists a, [], (sends r). by destruct r. Qed.

Lemma emits_bind {A B} (m : R A) (f : A -> R B) (Q : B -> list ReplyEvent -> Prop) r :
  emits m (fun a es => forall r, emits (f a) (fun b es' => Q b (es ++ es')) r) r -> emits (rbind m f) Q r.
Proof.
  intros (a & es & k & E & H). destruct (H (mkReplyRun k (rev es ++ events r))) as (b & es' & k' & E' & HQ).
  exists b, (es ++ es'), k'. split; [|done]. unfold rbind. rewrite E, E'. cbn. by rewrite rev_app_distr, app_assoc.
Qed.

Lemma emits_event (Q : unit -> list ReplyEvent -> Prop) e r : Q tt [e] -> emits (put_event e) Q r.
Proof. intros HQ. by exists tt, [e], (sends r). Qed.

Lemma emits_mono {A} (m : R A) (P Q : A -> list ReplyEvent -> Prop) r :
  emits m P r -> (forall a es, P a es -> Q a es) -> emits m Q r.
Proof. intros (a & es & k & E & H) HPQ. exists a, es, k. eauto. Qed.

Section DeliveryFacts.
Context `{ReplyTexts}.
Variable transport : nat -> text -> option SendFailure.

Lemma emits_send (Q : option SendFailure -> list ReplyEvent -> Prop) m r :
  (forall answer, (exists n, transport n m = answer) -> Q answer [Sent m answer]) ->
  emits (send transport m) Q r.
Proof. intros HQ. eexists _, [_], _. split; [done|]. apply HQ. by exists (sends r). Qed.

(** *** One chunk *)

(** A wait of the module: a fixed delay, or what Telegram asked for. *)
Definition legal_wait (d : Z) : Prop :=
  In d RETRY_DELAYS_SECONDS \/ exists n m exc, transport n m = Some exc /\ flood_wait (Some exc) = Some d.

(** What the attempts at one chunk amount to. *)
Record chunk_spec (chunk : text) (attempts : nat) (budget : Z) (res : ChunkResult * Z) (es : list ReplyEvent)
  : Prop := {
  cs_budget : snd res = budget - total_slept es;
  cs_left : 0 <= budget -> 0 <= snd res;
  cs_messages : exists n, messages es = repeat chunk n /\ (n <= attempts)%nat /\ (attempts <> 0 -> n <> 0)%nat;
  cs_delivered : delivered es = if chunk_delivered (fst res) then [chunk] else [];
  cs_flood : exists owed, flood_run None es = Some owed /\
    (is_some owed = abandoned_due_to_retry_after (fst res) && negb (chunk_delivered (fst res)));
  cs_sleeps : Forall legal_wait (sleeps es)
}.

Lemma chunk_spec_done chunk k budget answer n :
  transport n chunk = answer -> answer = None ->
  chunk_spec chunk (S k) budget (mkChunkResult true false, budget) [Sent chunk answer].
Proof.
  intros _ ->. split; cbn; [unfold total_slept; cbn; lia|done| |done|by exists None|constructor].
  exists 1%nat. split_and!; [done|lia|done].
Qed.

Lemma chunk_spec_stop chunk k budget exc abandoned record extra :
  is_some (flood_wait (Some exc)) = abandoned ->
  chunk_spec chunk (S k) budget (mkChunkResult false abandoned, budget)
    [Sent chunk (Some exc); Logged record extra].
Proof.
  intros Hf. split; cbn; [unfold total_slept; cbn; lia|done| |done| |constructor].
  - exists 1%nat. split_and!; [done|lia|done].
  - exists (flood_wait (Some exc)). split; [done|]. cbn in *. by rewrite andb_true_r.
Qed.

Lemma chunk_spec_retry chunk k budget exc record extra d res es n :
  transport n chunk = Some exc -> d <= budget ->
  (flood_wait (Some exc) = Some d \/ flood_wait (Some exc) = None /\ In d RETRY_DELAYS_SECONDS) ->
  chunk_spec chunk k (budget - d) res es ->
  chunk_spec chunk (S k) budget res ([Sent chunk (Some exc)] ++ [Logged record extra] ++ [Slept d] ++ es).
Proof.
  intros Ht Hd Hw [Hb Hl (j & Hm & Hj & _) Hdel (owed & Hfl & Ho) Hsl]. split.
  - change (total_slept _) with (d + total_slept es). lia.
  - intros _. apply Hl. lia.
  - exists (S j). cbn. rewrite <- Hm. split_and!; [done|lia|lia].
  - done.
  - exists owed. split; [|done]. cbn [flood_run flood_step app]. destruct Hw as [->|[-> _]]; [by rewrite Z.leb_refl|done].
  - constructor; [|done]. unfold legal_wait. destruct Hw as [Hw|[_ Hw]]; [right; by exists n, chunk, exc|by left].
Qed.

Lemma flood_wait_retryable exc s : flood_wait (Some exc) = Some s ->
  retryable (classify_send_error (failure_error exc)) = true.
Proof. unfold flood_wait. by destruct (retryable _). Qed.

Lemma chunk_attempts_spec command index count chunk k : forall attempt budget r,
  (attempt + k = S ATTEMPTS_PER_CHUNK)%nat -> (1 <= attempt)%nat ->
  emits (chunk_attempts transport command index count chunk k attempt budget) (chunk_spec chunk k budget) r.
Proof.
  induction k as [|k IH]; intros attempt budget r Hk Ha; cbn [chunk_attempts].
  { apply emits_ret. split; cbn; [unfold total_slept; cbn; lia|done|by exists 0%nat|done|by exists None|constructor]. }
  apply emits_bind, emits_send. intros [exc|] [n Hn]; intros r1.
  2:{ apply emits_ret. by eapply chunk_spec_done. }
  cbv zeta. set (outcome := classify_send_error (failure_error exc)).
  change (if retryable outcome then retry_after_seconds outcome else None) with (flood_wait (Some exc)).
  destruct (flood_wait (Some exc)) as [s|] eqn:Hs.
  - destruct (Z.ltb_spec budget s); [|destruct (Nat.leb_spec ATTEMPTS_PER_CHUNK attempt)].
    + apply emits_bind, emits_event. intros r2. apply emits_ret, chunk_spec_stop. by rewrite Hs.
    + apply emits_bind, emits_event. intros r2. apply emits_ret, chunk_spec_stop. by rewrite Hs.
    + apply emits_bind, emits_event. intros r2. apply emits_bind, emits_event. intros r3.
      eapply emits_mono; [apply IH; lia|]. intros res es Hes.
      by eapply chunk_spec_retry; [..|exact Hes]; [|lia|left].
  - assert (Hstop : forall record extra, chunk_spec chunk (S k) budget (mkChunkResult false false, budget)
        [Sent chunk (Some exc); Logged record extra]) by (intros; apply chunk_spec_stop; by rewrite Hs).
    destruct (retryable outcome && negb (ATTEMPTS_PER_CHUNK <=? attempt)%nat) eqn:Hr.
    2:{ apply emits_bind, emits_event. intros r2. apply emits_ret, Hstop. }
    apply andb_true_iff in Hr as [_ Hr%negb_true_iff%Nat.leb_gt].
    destruct (Z.ltb_spec budget (nth (attempt - 1) RETRY_DELAYS_SECONDS 0)).
    { apply emits_bind, emits_event. intros r2. apply emits_ret, Hstop. }
    apply emits_bind, emits_event. intros r2. apply emits_bind, emits_event. intros r3.
    eapply emits_mono; [apply IH; lia|]. intros res es Hes.
    eapply chunk_spec_retry; [..|exact Hes]; [done|lia|right; split; [done|]].
    apply nth_In. unfold ATTEMPTS_PER_CHUNK, RETRY_DELAYS_SECONDS in *. cbn in *. lia.
Qed.

(** *** A whole reply *)

(** The texts handed to [send] when the [i]-th chunk takes [ns !! i] attempts. *)
Definition attempts_of (chunks : list text) (ns : list nat) : list text :=
  flat_map (fun cn => repeat (fst cn) (snd cn)) (zip chunks ns).

(** The trace of a reply: the sends of the chunks up to the first that is
    abandoned, and what follows it. *)
Record reply_spec (chunks : list text) (budget : Z) (tr : list ReplyEvent) (k : nat) (ns : list nat)
    (body tail : list ReplyEvent) : Prop := {
  rs_trace : tr = body ++ tail;
  rs_k : (k <= length chunks)%nat;
  rs_delivered : delivered body = take k chunks;
  rs_messages : messages body = attempts_of chunks ns;
  rs_attempts : length ns = Nat.min (S k) (length chunks) /\ Forall (fun n => 1 <= n <= ATTEMPTS_PER_CHUNK)%nat ns;
  rs_tail : exists owed, flood_run None body = Some owed /\
    messages tail = (if (k <? length chunks)%nat && is_none owed then [INCOMPLETE_DELIVERY_WARNING] else []);
  rs_no_sleep : sleeps tail = [];
  rs_flood : is_some (flood_run None tr) = true;
  rs_budget : 0 <= budget -> total_slept tr <= budget;
  rs_waits : Forall legal_wait (sleeps tr)
}.

Lemma reply_spec_nil budget : reply_spec [] budget [] 0 [] [] [].
Proof. split; first [done|by split|by exists None|constructor]. Qed.

(** A chunk that was delivered, before the rest of the reply. *)
Lemma reply_spec_cons chunk chunks budget budget' es tr k ns body tail :
  chunk_spec chunk ATTEMPTS_PER_CHUNK budget (mkChunkResult true false, budget') es ->
  reply_spec chunks budget' tr k ns body tail ->
  exists n, reply_spec (chunk :: chunks) budget (es ++ tr) (S k) (n :: ns) (es ++ body) tail.
Proof.
  intros [Hb Hl (n & Hm & Hn1 & Hn2) Hdel (owed & Hfl & Ho) Hsl] [? ? ? ? [? ?] (owed' & Hf' & ?) ? ? Hbt ?].
  cbn [fst snd chunk_delivered abandoned_due_to_retry_after andb] in *. assert (owed = None) as -> by (by destruct owed).
  exists n. split.
  - subst tr. by rewrite app_assoc.
  - cbn. lia.
  - rewrite delivered_app, Hdel. cbn. by f_equal.
  - rewrite messages_app, Hm. cbn. by f_equal.
  - cbn [length]. split; [lia|]. constructor; [|done]. split; [|done]. specialize (Hn2 ltac:(done)). lia.
  - exists owed'. by rewrite flood_run_app, Hfl.
  - done.
  - by rewrite flood_run_app, Hfl.
  - intros Hz. rewrite total_slept_app. specialize (Hl Hz). specialize (Hbt Hl). lia.
  - rewrite sleeps_app. by apply Forall_app.
Qed.

(** A chunk that was abandoned, before the end of the reply. *)
Lemma reply_spec_stop chunk chunks budget res es tail :
  chunk_spec chunk ATTEMPTS_PER_CHUNK budget res es -> chunk_delivered (fst res) = false ->
  messages tail = (if abandoned_due_to_retry_after (fst res) then [] else [INCOMPLETE_DELIVERY_WARNING]) ->
  sleeps tail = [] -> (forall owed, messages tail = [] \/ owed = None -> is_some (flood_run owed tail) = true) ->
  exists n, reply_spec (chunk :: chunks) budget (es ++ tail) 0 [n] es tail.
Proof.
  intros [Hb Hl (n & Hm & Hn1 & Hn2) Hdel (owed & Hfl & Ho) Hsl] Hc Hmt Hst Hft. rewrite Hc in *. rewrite andb_true_r in Ho.
  exists n. split; try done.
  - cbn. lia.
  - rewrite Hm. unfold attempts_of. by destruct chunks; cbn; rewrite ?app_nil_r.
  - cbn [length]. split; [lia|]. constructor; [|done]. specialize (Hn2 ltac:(done)). lia.
  - exists owed. split; [done|]. rewrite Hmt, <- Ho. by destruct owed.
  - rewrite flood_run_app, Hfl. apply Hft. rewrite Hmt, <- Ho. destruct owed; [by left|by right].
  - intros Hz. rewrite total_slept_app. unfold total_slept at 2. rewrite Hst. cbn. specialize (Hl Hz). lia.
  - rewrite sleeps_app, Hst, app_nil_r. done.
Qed.

Lemma emits_warning command r :
  emits (send_incomplete_warning transport command) (fun _ es => exists answer logs,
    es = Sent INCOMPLETE_DELIVERY_WARNING answer :: logs /\ messages logs = [] /\ sleeps logs = [] /\
    forall owed, flood_run owed logs = Some owed) r.
Proof.
  apply emits_bind, emits_send. intros [exc|] _ r1.
  - apply emits_event. eexists _, [_]. done.
  - apply emits_ret. by exists None, [].
Qed.

Lemma deliver_from_spec command count chunks : forall index budget r,
  emits (deliver_from transport command count index chunks budget)
    (fun _ es => exists k ns body tail, reply_spec chunks budget es k ns body tail) r.
Proof.
  induction chunks as [|chunk chunks IH]; intros index budget r; cbn [deliver_from].
  { apply emits_ret. exists 0%nat, [], [], []. apply reply_spec_nil. }
  apply emits_bind. eapply emits_mono; [by apply chunk_attempts_spec|]. intros [[del ab] budget'] es Hes r1. cbn.
  destruct del.
  - eapply emits_mono; [apply IH|]. intros _ tr (k & ns & body & tail & Htr).
    assert (Hes' : chunk_spec chunk ATTEMPTS_PER_CHUNK budget (mkChunkResult true false, budget') es).
    { destruct Hes as [? ? ? ? (owed & ? & Ho) ?]. split; try done. exists owed. cbn in *. by rewrite Ho, andb_false_r. }
    destruct (reply_spec_cons _ _ _ _ _ _ _ _ _ _ Hes' Htr) as [n Hn]. by exists (S k), (n :: ns), (es ++ body), tail.
  - destruct ab.
    + apply emits_event. destruct (reply_spec_stop chunk chunks budget _ es
        [Logged "admin_reply_incomplete_warning_skipped" [("command", JStr command); ("reason", JStr "retry_after_active")]]
        Hes) as [n Hn]; [done..|]. by eexists _, _, _, _.
    + eapply emits_mono; [apply emits_warning|]. intros _ tail (answer & logs & -> & Hm & Hs & Hf).
      destruct (reply_spec_stop chunk chunks budget _ es (Sent INCOMPLETE_DELIVERY_WARNING answer :: logs) Hes) as [n Hn];
        [done|..|by eexists _, _, _, _].
      * cbn. by f_equal.
      * done.
      * intros owed [Hd| ->]; [done|]. cbn. by rewrite Hf.
Qed.

Lemma reply_trace_spec chunks command : exists k ns body tail,
  reply_spec chunks REPLY_TIME_BUDGET_SECONDS (reply_trace transport chunks command) k ns body tail.
Proof.
  destruct (deliver_from_spec command (length chunks) chunks 0 REPLY_TIME_BUDGET_SECONDS (mkReplyRun 0 []))
    as (a & es & n & E & H').
  unfold reply_trace, deliver_reply_chunks. rewrite E. cbn. by rewrite app_nil_r, rev_involutive.
Qed.

(** C35: Delivery of a reply. The chunks are tried in order, each between one
    and three times, and nothing else is sent before the end: the accepted
    texts are exactly the chunks before the first abandoned one, number [k].
    A complete reply sends nothing more. After an abandoned chunk the warning
    is sent once, except when Telegram still asks for a wait: then nothing
    is. *)
Theorem reply_delivery_exact chunks command : exists k ns body tail owed,
  reply_trace transport chunks command = body ++ tail /\ (k <= length chunks)%nat /\
  delivered body = take k chunks /\
  messages body = attempts_of chunks ns /\ length ns = Nat.min (S k) (length chunks) /\
  Forall (fun n => 1 <= n <= 3)%nat ns /\
  flood_run None body = Some owed /\
  messages tail = (if (k <? length chunks)%nat && is_none owed then [INCOMPLETE_DELIVERY_WARNING] else []).
Proof.
  destruct (reply_trace_spec chunks command) as (k & ns & body & tail & [? ? ? ? [? ?] (owed & ? & ?) _ _ _ _]).
  by exists k, ns, body, tail, owed.
Qed.

Lemma legal_wait_positive d :
  (forall n m exc, transport n m = Some exc -> 0 <= retry_after_int (retry_after_value (failure_error exc))) ->
  legal_wait d -> 0 < d.
Proof.
  intros Hpos [[<-|[<-|[]]]|(n & m & exc & Ht & Hd)]; [done..|].
  specialize (Hpos n m exc Ht). unfold flood_wait, classify_send_error in Hd.
  destruct (is_instance _ RetryAfter); cbn in Hd; [injection Hd as <-; lia|]. repeat case_match; discriminate.
Qed.

(** C36: Waiting within one reply. When Telegram never asks for a negative
    wait, every sleep is positive and all sleeps of the reply together stay
    within the fifteen seconds of its budget; and no send ever happens while a
    wait that Telegram asked for is still owed, the closing warning
    included. *)
Theorem reply_waits_within_budget chunks command :
  (forall n m exc, transport n m = Some exc -> 0 <= retry_after_int (retry_after_value (failure_error exc))) ->
  let tr := reply_trace transport chunks command in
  Forall (fun d => 0 < d) (sleeps tr) /\ total_slept tr <= REPLY_TIME_BUDGET_SECONDS /\
  is_some (flood_run None tr) = true.
Proof.
  intros Hpos tr. destruct (reply_trace_spec chunks command) as (k & ns & body & tail & [_ _ _ _ _ _ _ Hf Hb Hw]).
  split_and!; [|by apply Hb|done]. eapply Forall_impl; [exact Hw|]. intros d. by apply legal_wait_positive.
Qed.
End DeliveryFacts.

(** ** Witnesses *)

#[local] Instance plain_warning : ReplyTexts := { INCOMPLETE_DELIVERY_WARNING := u "incomplete" }.

Definition network_failure : SendFailure :=
  mkSendFailure (mkSendError (fun c => match c with NetworkError | TelegramError => true | _ => false end) (RetrySeconds 0))
    "NetworkError".

Definition flood_failure (s : Z) : SendFailure :=
  mkSendFailure (mkSendError (fun c => match c with RetryAfter | TelegramError => true | _ => false end) (RetrySeconds s))
    "RetryAfter".

(** The second chunk meets a network failure and a flood control of four
    seconds; from then on Telegram asks for ten. *)
Definition shaky (n : nat) (m : text) : option SendFailure :=
  match n with
  | 1%nat => Some network_failure
  | 2%nat => Some (flood_failure 4)
  | S (S (S (S _))) => Some (flood_failure 10)
  | _ => None
  end.

Example shaky_reply :
  let tr := reply_trace shaky [u "a"; u "b"; u "c"] "status" in
  messages tr = [u "a"; u "b"; u "b"; u "b"; u "c"] /\ delivered tr = [u "a"; u "b"] /\ sleeps tr = [1; 5].
Proof. by vm_compute. Qed.

Theorem reply_waits_within_budget_witness :
  total_slept (reply_trace shaky [u "a"; u "b"; u "c"] "status") <= REPLY_TIME_BUDGET_SECONDS.
Proof.
  apply (reply_waits_within_budget shaky [u "a"; u "b"; u "c"] "status").
  intros n m exc. do 5 (destruct n as [|n]; cbn; [intros [= <-]; cbn; lia || done|]). by intros [= <-].
Defined.
