(* ===== verification/AdminAccess.v ===== *)
(** The admin bot's commands: authorization ([app/adminbot/auth.py]), the
    parsing of a message ([parse_command] in [app/adminbot/runner.py]), the
    dispatch of [CommandHandlers.handle] with its audit events, the lookup of a
    payment and the bulk resend ([app/adminbot/commands.py]).

    The other commands only read the database and render what they read: they
    and the texts shown to the administrator are an interface here
    ([CommandViews]), which [Views] implements. *)

From S2P Require Import Prelude PyText Exceptions Config Models ServiceTables Identity Session AuditTrail Ledger.
From S2P Require Import Urls Security Bot Notification Resend Verification Inspect Attention Stuck.
From S2P Require Import Ops ClientIp Unicode AlertDelivery ReplyDelivery.

#[local] Open Scope Z_scope.

(** ** Updates *)

Record UpdateContext := mkUpdateContext {
  user_id : option Z;
  chat_id : option Z;
  chat_type : option string;
  username : option string
}.

Definition is_authorized (admin_ids : list Z) (ctx : UpdateContext) : bool :=
  match user_id ctx with
  | None => false
  | Some user =>
      if bool_decide (chat_type ctx = Some "private") then existsb (Z.eqb user) admin_ids else false
  end.

(** What [build_update_context] and [on_message] read of an update: the text
    of the message, if there is one, the user and the chat. *)
Record Update := mkUpdate {
  effective_message : option (option string);
  effective_user : option (Z * option string);
  effective_chat : option (Z * string)
}.

Definition build_update_context (update : Update) : option UpdateContext :=
  match effective_message update with
  | None => None
  | Some _ =>
      Some (mkUpdateContext (option_map fst (effective_user update)) (option_map fst (effective_chat update))
              (option_map snd (effective_chat update))
              (match effective_user update with Some (_, name) => name | None => None end))
  end.

(** ** Commands *)

(** [s.split()]. *)
Fixpoint split_spaces (s : string) : list string :=
  match s with
  | "" => [""]
  | String c s' =>
      if is_space c then "" :: split_spaces s'
      else match split_spaces s' with
           | part :: parts => String c part :: parts
           | [] => [String c ""]
           end
  end.

Definition words (s : string) : list string :=
  List.filter (fun part => negb (String.eqb part "")) (split_spaces s).

Definition parse_command (message : string) : option (string * list string) :=
  let stripped := strip message in
  if negb (String.prefix "/" stripped) then None
  else match words stripped with
       | [] => None
       | first :: args =>
           let name := str_drop 1 first in
           let name := match partition AT name with Some (a, _) => a | None => name end in
           Some (lower name, args)
       end.

(** The commands that only read. *)
Definition view_commands : list string :=
  ["start"; "help"; "status"; "health"; "recent"; "stuck"; "waiting"; "expired"; "manual_review";
   "resolved_reviews"; "errors"; "retry_queue"; "backup_status"; "version"; "fee"; "monitor"].

(** The texts of the replies. A view may raise; besides the database it reads
    the time and, for some, the API; [view_gets] are the URLs it fetches over
    the internet. *)
Class CommandViews := {
  GENERIC_DENIAL : text;
  UNKNOWN_COMMAND : text;
  COMMAND_FAILED : text;
  PAYMENT_USAGE : text;
  PAYMENT_AMBIGUOUS : text;
  PAYMENT_NOT_FOUND : text;
  view : string -> list string -> Db -> nat -> Res (list text);
  view_gets : string -> list string;
  payment_view : Payment -> Db -> Res (list text);
  resend_view : ResendReply -> list text
}.

Definition of_res {A} (r : Res A) : M A := match r with Ret a => ret a | Raise e => raise e end.

Section Handlers.
Context `{Env} `{CommandViews}.
Variables (settings : Settings) (admin_ids : list Z) (fuel : nat).

Definition fetch (urls : list string) : M unit := fun w =>
  (Ret tt, w <| calls := rev (map HttpGet urls) ++ calls w |>).

Definition cmd_view (command : string) (args : list string) : M (list text) :=
  let* d := get_db in
  fetch (view_gets command) ;;;
  let* shown := tick (view command args d) in
  of_res shown.

Definition cmd_payment (args : list string) : M (list text) :=
  match args with
  | [] => ret [PAYMENT_USAGE]
  | identifier :: _ =>
      let* found := try_catch (let* p := find_payment (str_take 128 identifier) in ret (inl p))
                      (fun e => if is_ambiguous e then ret (inr tt) else raise e) in
      match found with
      | inr tt =>
          record_event None "admin_command_received" "info"
            [("command", JStr "payment_lookup"); ("ambiguous", JBool true)] ;;;
          commit ;;;
          ret [PAYMENT_AMBIGUOUS]
      | inl payment =>
          record_event (option_map id payment) "admin_command_received" "info" [("command", JStr "payment_lookup")] ;;;
          commit ;;;
          match payment with
          | None => ret [PAYMENT_NOT_FOUND]
          | Some p => let* d := get_db in of_res (payment_view p d)
          end
      end
  end.

Definition registry (ctx : UpdateContext) (command : string) : option (list string -> M (list text)) :=
  if String.eqb command "resend_failed" then
    Some (fun args => let* reply := cmd_resend_failed settings (user_id ctx) args fuel in ret (resend_view reply))
  else if String.eqb command "payment" then Some cmd_payment
  else if existsb (String.eqb command) view_commands then Some (cmd_view command)
  else None.

(** One audit event in a session of its own. *)
Definition audit_alone (etype lvl : string) (data : dict) : M unit :=
  new_session ;;;
  record_event None etype lvl data ;;;
  commit ;;;
  rollback.

(** [CommandHandlers.handle]. *)
Definition handle (ctx : UpdateContext) (command : string) (args : list string) : M (list text) :=
  let who := [("telegram_user_id", jint_opt (user_id ctx)); ("command", JStr command)] in
  if negb (is_authorized admin_ids ctx) then
    audit_alone "admin_bot_unauthorized_access" "warning"
      [("telegram_user_id", jint_opt (user_id ctx)); ("chat_id", jint_opt (chat_id ctx)); ("command", JStr command)] ;;;
    ret [GENERIC_DENIAL]
  else
    let handler := registry ctx command in
    audit_alone "admin_command_received" "info" who ;;;
    match handler with
    | None => ret [UNKNOWN_COMMAND]
    | Some handler =>
        try_catch
          (new_session ;;;
           let* messages := handler args in
           record_event None "admin_command_succeeded" "info" who ;;;
           commit ;;;
           rollback ;;;
           ret messages)
          (fun _ => audit_alone "admin_command_failed" "error" who ;;; ret [COMMAND_FAILED])
    end.
End Handlers.

(** [on_message]: the replies to be delivered, if the message is a command. *)
Definition on_message `{Env} `{CommandViews} (settings : Settings) (admin_ids : list Z) (fuel : nat)
    (update : Update) : M (option (list text * string)) :=
  match effective_message update, build_update_context update with
  | Some (Some message), Some ctx =>
      if String.eqb message "" then ret None
      else match parse_command message with
           | None => ret None
           | Some (command, args) =>
               let* replies := handle settings admin_ids fuel ctx command args in
               ret (Some (replies, command))
           end
  | _, _ => ret None
  end.

Example parse_command_ex : map parse_command ["/Status@CentralPayBot"; "  /recent  20 x"; "status"; "/"; "/@bot a"]
  = [Some ("status", []); Some ("recent", ["20"; "x"]); None; Some ("", []); Some ("", ["a"])].
Proof. vm_compute. reflexivity. Qed.

(** ** Facts *)

Section HandlerFacts.
Context {ENV : Env} {RELY : Rely} {VIEWS : CommandViews}.

(** No other session commits anything meanwhile. *)
Definition alone : Prop := forall n d, others n d = d.

(** From [w] to [w'] the audit trail gained events of the types [es], newest
    first, and nothing else changed: no alert was queued either. Of the outside
    only the URLs [gets] were fetched, the last one first. *)
Record audited_only (gets es : list string) (w w' : World) : Prop := {
  ao_steady : steady w w';
  ao_saved : working w' = committed w';
  ao_payments : payments (committed w') = payments (committed w);
  ao_identities : payer_identities (committed w') = payer_identities (committed w);
  ao_policies : fee_policies (committed w') = fee_policies (committed w);
  ao_incidents : monitor_incidents (committed w') = monitor_incidents (committed w);
  ao_heartbeats : worker_heartbeats (committed w') = worker_heartbeats (committed w);
  ao_alerts : admin_alerts (committed w') = admin_alerts (committed w);
  ao_calls : calls w' = map HttpGet gets ++ calls w;
  ao_events : map event_type (payment_events (committed w')) = es ++ map event_type (payment_events (committed w));
  ao_trail : trail (committed w') = es ++ trail (committed w)
}.

Lemma audited_only_trans gets1 gets2 es1 es2 w1 w2 w3 :
  audited_only gets1 es1 w1 w2 -> audited_only gets2 es2 w2 w3 ->
  audited_only (gets2 ++ gets1) (es2 ++ es1) w1 w3.
Proof.
  intros [] []. split; try congruence.
  - by eapply steady_trans.
  - rewrite map_app, <- app_assoc. congruence.
  - rewrite <- app_assoc. congruence.
  - rewrite <- app_assoc. congruence.
Qed.

Lemma audited_only_same w w' : steady w w' -> working w' = committed w' -> committed w' = committed w ->
  calls w' = calls w -> audited_only [] [] w w'.
Proof. intros S W C E. split; try done; try congruence; unfold trail; rewrite C; reflexivity. Qed.

Lemma wp_opened (Q : Res unit -> World -> Prop) w : alone -> sound w ->
  (forall w', audited_only [] [] w w' -> identity_map w' = ∅ -> Q (Ret tt) w') -> wp new_session Q w.
Proof.
  intros Ha Hs HQ. apply wp_new_session; [done|]. intros w' O S. apply HQ; [|apply O].
  destruct (op_committed _ _ O) as [n E]. rewrite Ha in E. apply audited_only_same; [done|apply O|done|apply O].
Qed.

Lemma audited_only_rolled w w' : sound w -> did_rollback w w' -> audited_only [] [] w w'.
Proof.
  intros Hs B. apply audited_only_same; [by eapply steady_rollback|..];
    rewrite ?(rb_working _ _ B), ?(rb_committed _ _ B); [done..|apply B].
Qed.

(** The events of the commands, none of which becomes an alert. *)
Definition command_event (etype : string) : bool :=
  existsb (String.eqb etype)
    ["admin_bot_unauthorized_access"; "admin_command_received"; "admin_command_succeeded"; "admin_command_failed"].

Lemma command_event_silent etype : command_event etype = true ->
  silent etype /\ String.eqb etype "admin_alert_created" = false.
Proof.
  unfold command_event. rewrite existsb_exists. intros (e & He & <-%String.eqb_eq). cbn in He.
  repeat (destruct He as [<-|He]; [split; [intros record policy pid data; by destruct policy as [? ? ? ? [] ?]|done]|]).
  done.
Qed.

(** An event that is recorded and committed at once. *)
Lemma wp_recorded pid etype lvl data (Q : Res unit -> World -> Prop) w :
  sound w -> working w = committed w -> command_event etype = true ->
  (forall w', audited_only [] [etype] w w' -> Q (Ret tt) w') ->
  wp (record_event pid etype lvl data ;;; commit) Q w.
Proof.
  intros Hs Hw [Hsi He]%command_event_silent HQ. apply wp_bind, wp_record_silent; [done|]. intros w1 A Sv Ev.
  rewrite business_one in A by done. apply wp_commit. intros w2 C. apply HQ.
  assert (S1 : steady w w1) by (by eapply steady_audited).
  assert (S2 : steady w w2) by (eapply steady_trans; [exact S1|]; eapply steady_commit; [exact C|apply S1]).
  injection Sv as Sa _ _. split; try (by ws; rewrite ?Hw).
  - by rewrite (cm_committed _ _ C), <- Hw.
  - by rewrite (cm_committed _ _ C), <- Hw, Ev.
  - unfold trail. ws. by rewrite Hw.
Qed.

Lemma wp_reassoc {A} (m1 m2 : M unit) (m3 : M A) (Q : Res A -> World -> Prop) w :
  wp ((m1 ;;; m2) ;;; m3) Q w -> wp (m1 ;;; m2 ;;; m3) Q w.
Proof. unfold wp, bind. by destruct (m1 w) as [[]]. Qed.

Lemma wp_audit_alone etype lvl data (Q : Res unit -> World -> Prop) w : alone -> sound w ->
  command_event etype = true ->
  (forall w', audited_only [] [etype] w w' -> Q (Ret tt) w') -> wp (audit_alone etype lvl data) Q w.
Proof.
  intros Ha Hs He HQ. unfold audit_alone. apply wp_bind, wp_opened; [done..|]. intros w1 O _.
  apply wp_reassoc, wp_bind, wp_recorded; [apply O|apply O|done|]. intros w2 R.
  apply wp_rollback. intros w3 B. apply HQ.
  assert (B3 : audited_only [] [] w2 w3) by (apply audited_only_rolled; [apply R|done]).
  exact (audited_only_trans [] [] _ [] _ _ _ (audited_only_trans [] [] [] _ _ _ _ O R) B3).
Qed.

Lemma wp_find_payment_looks identifier w : sound w -> working w = committed w -> identity_map w = ∅ ->
  wp (find_payment identifier) (fun _ w' => audited_only [] [] w w') w.
Proof.
  intros Hs Hf Hm. pose proof (so_working w Hs) as Hok.
  assert (Hend : forall w', looked w w' -> audited_only [] [] w w').
  { intros w' L. apply audited_only_same; [by apply steady_looked|destruct L; congruence|apply L..]. }
  unfold find_payment. apply wp_bind. eapply wp_mono.
  { apply wp_find_payment; [apply Hok|apply Hok|apply Hok|by apply clean_empty]. }
  intros [[p|]|e] w1 [L _]; [by apply wp_ret, Hend| |by apply Hend].
  apply wp_bind, wp_get_db, wp_bind, (wp_attach_all w); [by apply steady_looked|..].
  - rewrite <- firstn_map. eapply sublist_NoDup; [|apply sublist_take]. apply where_NoDup. rewrite (lk_working _ _ L). apply Hok.
  - intros row Hr. apply where_rows with (fun p => bool_decide (reference_id p = Some identifier)).
    + rewrite (lk_working _ _ L). apply Hok.
    + apply list_elem_of_In in Hr. apply list_elem_of_In. eapply elem_of_sublist; [exact Hr|apply sublist_take].
  - intros w2 S Ew Ec Eq.
    assert (A : audited_only [] [] w w2).
    { destruct L. apply audited_only_same; [done|congruence..]. }
    by destruct (map (object_of w1 false) _) as [|p [|]]; apply wp_ret.
Qed.

(** What a command leaves behind: who is refused, what is unknown, and how a
    handler ended, with the events it added to the trail, newest first. *)
Definition administrator (admin_ids : list Z) (ctx : UpdateContext) : Prop :=
  exists user, user_id ctx = Some user /\ In user admin_ids /\ chat_type ctx = Some "private".

Definition reading_command (command : string) : option bool :=
  if String.eqb command "payment" then Some true
  else if existsb (String.eqb command) view_commands then Some false else None.

Definition looked_up (lookup : bool) (more : list string) : Prop :=
  more = [] \/ lookup = true /\ more = ["admin_command_received"].

(** The URLs of a view, if it was not a lookup and came so far. *)
Definition fetched (command : string) (lookup : bool) (gets : list string) : Prop :=
  gets = [] \/ lookup = false /\ gets = rev (view_gets command).

Inductive command_left (admin_ids : list Z) (ctx : UpdateContext) (command : string) :
    list text -> list string -> list string -> Prop :=
| left_denied : ~ administrator admin_ids ctx ->
    command_left admin_ids ctx command [GENERIC_DENIAL] [] ["admin_bot_unauthorized_access"]
| left_unknown : administrator admin_ids ctx -> reading_command command = None ->
    command_left admin_ids ctx command [UNKNOWN_COMMAND] [] ["admin_command_received"]
| left_succeeded messages lookup gets more : administrator admin_ids ctx ->
    reading_command command = Some lookup -> fetched command lookup gets -> looked_up lookup more ->
    command_left admin_ids ctx command messages gets
      ("admin_command_succeeded" :: more ++ ["admin_command_received"])
| left_failed lookup gets more : administrator admin_ids ctx ->
    reading_command command = Some lookup -> fetched command lookup gets -> looked_up lookup more ->
    command_left admin_ids ctx command [COMMAND_FAILED] gets
      ("admin_command_failed" :: more ++ ["admin_command_received"]).

(** A handler that only looks, or looks a payment up and says so. *)
Definition reads_only (command : string) (lookup : bool) (m : M (list text)) : Prop :=
  forall w, sound w -> working w = committed w -> identity_map w = ∅ ->
  wp m (fun _ w' => exists gets more, fetched command lookup gets /\ looked_up lookup more /\
          audited_only gets more w w') w.

Lemma cmd_view_reads command args : reads_only command false (cmd_view command args).
Proof.
  intros w Hs Hf Hm. unfold cmd_view. apply wp_bind, wp_get_db, wp_bind. unfold wp at 1, fetch. cbn [fst snd].
  set (w0 := w <| calls := _ |>). assert (Hs0 : sound w0) by (destruct Hs; by split).
  apply wp_bind, wp_tick. intros w1 T.
  assert (A : exists gets more, fetched command false gets /\ looked_up false more /\ audited_only gets more w w1).
  { exists (rev (view_gets command)), []. split; [by right|]. split; [by left|].
    pose proof (steady_called _ _ _ T Hs0) as [S1 L1]. split; try done; [by ws|..];
      rewrite ?(ca_committed _ _ _ T), ?(ca_calls _ _ _ T); try done. cbn. by rewrite map_rev. }
  by destruct (view _ _ _ _); [apply wp_ret|apply wp_raise].
Qed.

Lemma cmd_payment_reads args : reads_only "payment" true (cmd_payment args).
Proof.
  intros w Hs Hf Hm. assert (Hnil : forall w', audited_only [] [] w w' ->
    exists gets more, fetched "payment" true gets /\ looked_up true more /\ audited_only gets more w w').
  { intros w' A. exists [], []. split; [by left|]. split; [by left|done]. }
  destruct args as [|identifier args]; [apply wp_ret, Hnil, audited_only_same; [by apply steady_refl|done..]|].
  cbn [cmd_payment]. apply wp_bind, wp_try, wp_bind. eapply wp_mono; [by apply wp_find_payment_looks|].
  assert (Hsaid : forall w1 pid data (k : M (list text)), audited_only [] [] w w1 ->
    (forall w2, wp k (fun _ w' => w' = w2) w2) ->
    wp (record_event pid "admin_command_received" "info" data ;;; commit ;;; k) (fun _ w' =>
      exists gets more, fetched "payment" true gets /\ looked_up true more /\ audited_only gets more w w') w1).
  { intros w1 pid data k A Hk. apply wp_reassoc, wp_bind, wp_recorded; [apply A..|done|]. intros w2 R.
    eapply wp_mono; [apply Hk|]. intros _ w' ->. exists [], ["admin_command_received"]. split; [by left|].
    split; [by right|]. exact (audited_only_trans [] [] [] _ _ _ _ A R). }
  intros [p|e] w1 A.
  - apply wp_ret. apply Hsaid; [done|]. intros w2. destruct p as [p|]; [|done].
    apply wp_bind, wp_get_db. by destruct (payment_view _ _).
  - destruct (is_ambiguous e); [|by apply wp_raise, Hnil]. apply wp_ret. by apply Hsaid.
Qed.

Lemma wp_handler_run command lookup m etype data w : alone -> sound w -> reads_only command lookup m ->
  command_event etype = true ->
  wp (new_session ;;; let* messages := m in
      record_event None etype "info" data ;;; commit ;;; rollback ;;; ret messages)
    (fun r w' => exists gets more, fetched command lookup gets /\ looked_up lookup more /\
       match r with Ret _ => audited_only gets (etype :: more) w w' | Raise _ => audited_only gets more w w' end) w.
Proof.
  intros Ha Hs Hm He. apply wp_bind, wp_opened; [done..|]. intros w1 O Hi. apply wp_bind.
  eapply wp_mono; [apply Hm; [apply O|apply O|done]|]. intros [messages|e] w2 (gets & more & Hgets & Hmore & R).
  - apply wp_reassoc, wp_bind, wp_recorded; [apply R|apply R|done|]. intros w3 R3.
    apply wp_bind, wp_rollback. intros w4 B. apply wp_ret. exists gets, more. split_and!; [done..|].
    assert (B4 : audited_only [] [] w3 w4) by (apply audited_only_rolled; [apply R3|done]).
    pose proof (audited_only_trans _ [] _ [] _ _ _
             (audited_only_trans _ [] _ _ _ _ _ (audited_only_trans [] _ [] _ _ _ _ O R) R3) B4) as A.
    by rewrite !app_nil_r in A.
  - exists gets, more. split_and!; [done..|]. pose proof (audited_only_trans [] _ [] _ _ _ _ O R) as A.
    by rewrite !app_nil_r in A.
Qed.

Lemma is_authorized_spec admin_ids ctx : is_authorized admin_ids ctx = true <-> administrator admin_ids ctx.
Proof.
  unfold is_authorized, administrator. destruct (user_id ctx) as [u|]; [|split; [done|by intros (? & ? & _)]].
  destruct (bool_decide_reflect (chat_type ctx = Some "private")) as [E|E].
  - rewrite existsb_exists. split.
    + intros (x & Hx & <-%Z.eqb_eq). eauto.
    + intros (x & [= <-] & Hx & _). exists u. by rewrite Z.eqb_refl.
  - split; [done|]. by intros (? & _ & _ & ?).
Qed.

Lemma registry_reads settings fuel ctx command : command <> "resend_failed" ->
  match registry settings fuel ctx command with
  | None => reading_command command = None
  | Some handler => exists lookup, reading_command command = Some lookup /\
      forall args, reads_only command lookup (handler args)
  end.
Proof.
  intros Hne%String.eqb_neq. unfold registry, reading_command. rewrite Hne.
  destruct (String.eqb_spec command "payment") as [->|_]; [exists true; split; [done|exact cmd_payment_reads]|].
  destruct (existsb _ _); [|done]. exists false. split; [done|]. apply cmd_view_reads.
Qed.

(** Any command, whoever else commits, leaves the session sound. *)
Lemma audit_alone_steady etype lvl data w : sound w ->
  wp (audit_alone etype lvl data) (fun r w' => r = Ret tt /\ steady w w') w.
Proof.
  intros Hs. unfold audit_alone. apply wp_bind, wp_new_session; [done|]. intros w1 _ S1.
  apply wp_bind, wp_record_event. intros w2 A.
  assert (S2 : steady w1 w2) by (by eapply steady_audited; [exact A|apply S1]).
  apply wp_bind, wp_commit. intros w3 C. apply wp_rollback. intros w4 R. split; [done|].
  assert (S3 : steady w2 w3) by (by eapply steady_commit; [exact C|apply S2]).
  eapply steady_trans; [exact S1|]. eapply steady_trans; [exact S2|]. eapply steady_trans; [exact S3|].
  by eapply steady_rollback; [|apply S3].
Qed.

Lemma reads_steady command lookup m w : reads_only command lookup m -> sound w -> working w = committed w ->
  identity_map w = ∅ -> wp m (fun _ w' => steady w w') w.
Proof.
  intros Hm Hs Hf Hi. eapply wp_mono; [by apply Hm|]. intros r w' (gets & more & _ & _ & A). apply A.
Qed.

Lemma registry_steady settings fuel ctx command handler args w :
  registry settings fuel ctx command = Some handler -> sound w -> working w = committed w ->
  identity_map w = ∅ -> wp (handler args) (fun _ w' => steady w w') w.
Proof.
  intros Hr Hs Hf Hi. destruct (String.eqb_spec command "resend_failed") as [->|Hne].
  - injection Hr as <-. apply wp_bind. eapply wp_mono; [by apply resend_failed_steady|].
    intros [reply|e] w1 S; [by apply wp_ret|done].
  - pose proof (registry_reads settings fuel ctx command Hne) as Hreg. rewrite Hr in Hreg.
    destruct Hreg as (lookup & _ & Hreads). by eapply reads_steady.
Qed.

Lemma handle_steady settings admin_ids fuel ctx command args w : sound w ->
  wp (handle settings admin_ids fuel ctx command args) (fun _ w' => steady w w') w.
Proof.
  intros Hs. unfold handle. destruct (negb _).
  { apply wp_bind. eapply wp_mono; [by apply audit_alone_steady|]. intros r w' [-> S]. by apply wp_ret. }
  apply wp_bind. eapply wp_mono; [by apply audit_alone_steady|]. intros r w1 [-> S1].
  destruct (registry settings fuel ctx command) as [handler|] eqn:Er; [|by apply wp_ret].
  apply wp_try, wp_bind, wp_new_session; [apply S1|]. intros w2 O S2. pose proof (steady_trans _ _ _ S1 S2) as S12.
  apply wp_bind. eapply wp_mono; [eapply registry_steady; [exact Er|apply S12|apply O..]|].
  intros [messages|e] w3 S3; pose proof (steady_trans _ _ _ S12 S3) as S13.
  - apply wp_bind, wp_record_event. intros w4 A. pose proof (steady_audited _ _ _ A (proj1 S13)) as S4.
    apply wp_bind, wp_commit. intros w5 C. pose proof (steady_commit _ _ C (proj1 S4)) as S5.
    apply wp_bind, wp_rollback. intros w6 R. apply wp_ret.
    pose proof (steady_rollback _ _ R (proj1 S5)) as S6. by do 3 (eapply steady_trans; [eassumption|]).
  - apply wp_bind. eapply wp_mono; [apply audit_alone_steady, S13|]. intros r' w4 [-> S4].
    apply wp_ret. by eapply steady_trans.
Qed.

Lemma on_message_steady settings admin_ids fuel update w : sound w ->
  wp (on_message settings admin_ids fuel update) (fun _ w' => steady w w') w.
Proof.
  intros Hs. pose proof (steady_refl w Hs) as S. unfold on_message.
  destruct (effective_message update) as [[message|]|]; [|by apply wp_ret..].
  destruct (build_update_context update) as [ctx|]; [|by apply wp_ret].
  destruct (String.eqb message ""); [by apply wp_ret|].
  destruct (parse_command message) as [[command args]|]; [|by apply wp_ret].
  apply wp_bind. eapply wp_mono; [by apply handle_steady|]. intros [replies|e] w1 S1; [by apply wp_ret|done].
Qed.

(** C32: The admin bot answers strangers with a fixed denial and changes nothing
    for them. While no other session writes (what it commits is its own), this
    is exact. A command is obeyed only for a user whose numeric identifier is
    configured and who writes in a private chat; for anyone else, and for any
    command other than the bulk resend, nothing is sent to the gateway or the
    bot, and nothing in the database changes but the audit trail, not even the
    outbox of alerts, so that strangers cannot make the bot talk. The only
    requests a command can cause are the GETs of its view, and those of a
    stranger or an unknown command cause none. The new events are exactly what
    happened: an unauthorized access, or a command received, a payment looked
    up, and how the handler ended. (The views are functions of the database;
    what is proved of them here is that the dispatch, the audit and the error
    path around them do no more.) Every message gets an answer: a handler
    that raises is answered with a fixed text. *)
Theorem admin_command_reads_only settings admin_ids fuel ctx command args w : alone -> sound w ->
  (administrator admin_ids ctx -> command <> "resend_failed") ->
  wp (handle settings admin_ids fuel ctx command args) (fun r w' => exists replies gets es,
    r = Ret replies /\ command_left admin_ids ctx command replies gets es /\ audited_only gets es w w') w.
Proof.
  intros Ha Hs Hne. unfold handle. destruct (is_authorized admin_ids ctx) eqn:Eauth; cbn [negb].
  2:{ apply wp_bind, wp_audit_alone; [done..|]. intros w1 A. apply wp_ret. do 3 eexists. split_and!; [done| |exact A].
      constructor. rewrite <- is_authorized_spec. congruence. }
  apply is_authorized_spec in Eauth. specialize (Hne Eauth).
  pose proof (registry_reads settings fuel ctx command Hne) as Hreg.
  apply wp_bind, wp_audit_alone; [done..|]. intros w1 A.
  destruct (registry settings fuel ctx command) as [handler|].
  2:{ apply wp_ret. do 3 eexists. split_and!; [done| |exact A]. by constructor. }
  destruct Hreg as (lookup & Hl & Hreads). apply wp_try. eapply wp_mono.
  { apply (wp_handler_run command lookup); [done|apply A|apply Hreads|done]. }
  intros [messages|e] w2 (gets & more & Hgets & Hmore & R).
  - pose proof (audited_only_trans _ _ _ _ _ _ _ A R) as A2. rewrite app_nil_r in A2.
    do 3 eexists. split_and!; [done| |exact A2]. by eapply left_succeeded.
  - apply wp_bind, wp_audit_alone; [done|apply R|done|]. intros w3 F. apply wp_ret.
    pose proof (audited_only_trans _ _ _ _ _ _ _ (audited_only_trans _ _ _ _ _ _ _ A R) F) as A3.
    rewrite app_nil_r in A3. do 3 eexists. split_and!; [done| |exact A3]. by eapply left_failed.
Qed.
End HandlerFacts.

(** ** Witnesses *)

#[local] Definition plain_views : CommandViews := {|
  GENERIC_DENIAL := [1]; UNKNOWN_COMMAND := [2]; COMMAND_FAILED := [3]; PAYMENT_USAGE := [4];
  PAYMENT_AMBIGUOUS := [5]; PAYMENT_NOT_FOUND := [6];
  view := fun _ _ _ _ => Ret [[7]]; view_gets := fun _ => []; payment_view := fun _ _ => Ret [[8]]; resend_view := fun _ => [[9]]
|}.

(** An administrator writing from a group is a stranger, even to the bulk
    resend; in private the same administrator is answered. *)
Lemma admin_command_reads_only_witness :
  wp (@handle calm_env plain_views default_settings [42] 5
        (mkUpdateContext (Some 42) (Some (-7)) (Some "group") None) "resend_failed" ["confirm"])
     (fun r w' => r = Ret [[1]] /\ trail (committed w') = "admin_bot_unauthorized_access" :: trail (committed spin_world) /\
        payments (committed w') = payments (committed spin_world)) spin_world /\
  wp (@handle calm_env plain_views default_settings [42] 5
        (mkUpdateContext (Some 42) (Some 42) (Some "private") None) "reboot" [])
     (fun r w' => r = Ret [[2]] /\ trail (committed w') = "admin_command_received" :: trail (committed spin_world)) spin_world.
Proof.
  assert (S : sound spin_world) by (apply sound_example; vm_compute; reflexivity). split.
  - eapply wp_mono; [apply (@admin_command_reads_only calm_env calm_rely plain_views default_settings [42] 5
      (mkUpdateContext (Some 42) (Some (-7)) (Some "group") None) "resend_failed" ["confirm"] spin_world)|].
    + intros n d. reflexivity.
    + exact S.
    + intros (u & _ & _ & [=]).
    + intros r w' (replies & gets & es & -> & L & A).
      assert (Hno : ~ administrator [42] (mkUpdateContext (Some 42) (Some (-7)) (Some "group") None))
        by (intros (u & _ & _ & [=])).
      inversion L; try contradiction. subst. split; [reflexivity|]. split; apply A.
  - eapply wp_mono; [apply (@admin_command_reads_only calm_env calm_rely plain_views default_settings [42] 5
      (mkUpdateContext (Some 42) (Some 42) (Some "private") None) "reboot" [] spin_world)|].
    + intros n d. reflexivity.
    + exact S.
    + intros _ [=].
    + assert (Hyes : administrator [42] (mkUpdateContext (Some 42) (Some 42) (Some "private") None))
        by (exists 42; split; [reflexivity|split; [left; reflexivity|reflexivity]]).
      intros r w' (replies & gets & es & -> & L & A). inversion L; try contradiction; try discriminate. subst.
      split; [reflexivity|apply A].
Defined.
