(* ===== verification/Incidents.v ===== *)
(** The incidents of the monitor ([app/services/monitor_incidents.py]): how
    the result of a check opens, escalates, reminds of and closes an
    incident, and when an administrator is alerted.

    Opening is an optimistic INSERT under a partial unique index; losing the
    race against another monitor falls back to that monitor's row. Each
    incident is read at most once per session, so the session's identity map
    cannot be observed here and rows are used as objects. *)

From S2P Require Import Prelude PyText Exceptions Config Models ServiceTables Session AuditTrail Ledger.

(** [CheckResult] of monitor_checks.py. *)
Record CheckResult := mkCheckResult {
  key : string;
  check_status : Severity;
  reason : string;
  details : dict
}.

Inductive Transition :=
  | OPENED | CLOSED | ESCALATED | UNCHANGED_UNHEALTHY | UNCHANGED_HEALTHY | ALERT_CAUGHT_UP.

#[export] Instance Transition_eq_dec : EqDecision Transition.
Proof. solve_decision. Defined.

Record IncidentTransition := mkIncidentTransition {
  transition_key : string;
  transition : Transition;
  transition_incident : option Z
}.

(** [_SEVERITY_RANK]: [ok] is not a key. *)
Definition severity_rank (s : Severity) : option Z :=
  match s with OK => None | WARNING => Some 1 | CRITICAL => Some 2 end.

Inductive AlertCategory := CategoryBackup | CategoryManualReview | CategoryError | CategoryHealth.

Definition alert_category (check : string) : AlertCategory :=
  let same k := String.eqb check k in
  if same "backup" then CategoryBackup
  else if same "manual_review" then CategoryManualReview
  else if same "notification_backlog" || same "gateway_failure_burst" || same "bot_failure_burst"
       then CategoryError
  else CategoryHealth.

(** [_alerts_enabled]. *)
Definition incident_alerts_enabled (settings : Settings) (check : string) : bool :=
  if negb (admin_bot_enabled settings && admin_bot_alerts_enabled settings) then false
  else match alert_category check with
       | CategoryBackup => admin_bot_backup_alerts settings
       | CategoryManualReview => admin_bot_manual_review_alerts settings
       | CategoryError => admin_bot_error_alerts settings
       | CategoryHealth => admin_bot_health_alerts settings
       end.

(** [_needs_catchup]. *)
Definition needs_catchup (d : Db) (i : MonitorIncident) : bool :=
  match last_alerted_at i, last_alert_id i with
  | None, _ => true
  | Some _, None => false
  | Some _, Some k =>
      match admin_alerts d !! k with
      | Some a => bool_decide (alert_status a = FAILED)
      | None => false
      end
  end.

(** [_alert_payload]. *)
Definition incident_payload (r : CheckResult) : dict :=
  [("check", JStr (key r)); ("detail", JStr (reason r))] ++
  match dict_get "count" (details r) with Some c => [("count", c)] | None => [] end.

(** ** [datetime.isoformat()] of a UTC time in microseconds *)

(** [str(n)] padded with zeros to [width] digits. *)
Definition zero_padded (width : nat) (n : Z) : string :=
  let s := str_of_int n in
  String.concat "" (repeat "0" (width - String.length s)) +:+ s.

(** The proleptic Gregorian date of a day counted from 1970-01-01: eras of
    400 years starting on the first of March of year 0. *)
Definition civil_of_days (days : Z) : Z * Z * Z :=
  let z := days + 719468 in
  let era := z / 146097 in
  let doe := z mod 146097 in
  let yoe := (doe - doe / 1460 + doe / 36524 - doe / 146096) / 365 in
  let doy := doe - (365 * yoe + yoe / 4 - yoe / 100) in
  let mp := (5 * doy + 2) / 153 in
  let d := doy - (153 * mp + 2) / 5 + 1 in
  let m := if mp <? 10 then mp + 3 else mp - 9 in
  (yoe + era * 400 + (if m <=? 2 then 1 else 0), m, d).

Definition isoformat (t : Z) : string :=
  let secs := t / 1000000 in
  let us := t mod 1000000 in
  let '(y, m, d) := civil_of_days (secs / 86400) in
  let s := secs mod 86400 in
  zero_padded 4 y +:+ "-" +:+ zero_padded 2 m +:+ "-" +:+ zero_padded 2 d +:+ "T" +:+
  zero_padded 2 (s / 3600) +:+ ":" +:+ zero_padded 2 (s / 60 mod 60) +:+ ":" +:+ zero_padded 2 (s mod 60) +:+
  (if us =? 0 then "" else "." +:+ zero_padded 6 us) +:+ "+00:00".

Example isoformat_leap_day : isoformat (seconds 1709209805 + 70) = "2024-02-29T12:30:05.000070+00:00".
Proof. reflexivity. Qed.

(** ** The handler *)

Definition is_open (check : string) (i : MonitorIncident) : bool :=
  String.eqb (check_key i) check && bool_decide (incident_status i = OPEN).

Section Incidents.
Context `{Env}.

(** [_open_incident]: the row of the open incident of a check, locked. *)
Definition open_incident (check : string) : M (option MonitorIncident) :=
  let* d := get_db in
  ret (match List.filter (is_open check) (rows (monitor_incidents d)) with
       | [] => None
       | i :: _ => Some i
       end).

Definition upd_incident (i : MonitorIncident) (f : MonitorIncident -> MonitorIncident)
  : M MonitorIncident := fun w =>
  (Ret (f i),
   w <| working := (working w)
          <| monitor_incidents := alter f (incident_id i) (monitor_incidents (working w)) |> |>).

(** [db.add(candidate); db.flush()], under the partial unique index; other
    sessions may have committed since the query. *)
Definition insert_incident (mk : Z -> MonitorIncident) : M MonitorIncident :=
  begin_tx ;;;
  let* d := get_db in
  let i := mk (next_id (monitor_incidents d)) in
  if existsb (is_open (check_key i)) (rows (monitor_incidents d)) then raise IntegrityError
  else
    put_db (d <| monitor_incidents := <[incident_id i := i]> (monitor_incidents d) |>) ;;;
    ret i.

(** Queueing an alert for the incident, [now] becoming its alert time. *)
Definition alert_incident (atype sev : string) (dkey : string -> string) (data : dict) (now : Z)
    (i : MonitorIncident) : M MonitorIncident :=
  let* i := upd_incident i (fun r => r <| last_alerted_at := Some now |>) in
  let* alert := create_alert atype sev None
    (Some (dkey ("monitor:" +:+ check_key i +:+ ":" +:+ str_of_int (incident_id i))))
    (Some data) None (Some now) in
  upd_incident i (fun r => r <| last_alert_id := Some (alert_id alert) |>).

(** [_handle_healthy]. *)
Definition handle_healthy (settings : Settings) (r : CheckResult) (now : Z) : M IncidentTransition :=
  let* found := open_incident (key r) in
  match found with
  | None => rollback ;;; ret (mkIncidentTransition (key r) UNCHANGED_HEALTHY None)
  | Some i =>
      let* i := upd_incident i (fun x =>
        x <| incident_status := RESOLVED |> <| resolved_at := Some now |> <| last_seen_at := now |>) in
      let* i :=
        if incident_alerts_enabled settings (key r) then
          let duration_seconds := Z.quot (now - opened_at i) 1000000 in
          alert_incident "monitor_incident_resolved" "info" (fun k => k +:+ ":resolved")
            [("check", JStr (key r));
             ("detail", JStr ("recovered after " +:+ str_of_int (Z.max duration_seconds 0) +:+ "s"))]
            now i
        else ret i in
      commit ;;;
      ret (mkIncidentTransition (key r) CLOSED (Some (incident_id i)))
  end.

(** The second half of [_handle_unhealthy]: an incident is open. *)
Definition update_open_incident (settings : Settings) (r : CheckResult) (now : Z) (i : MonitorIncident)
  : M IncidentTransition :=
  let done t (i : MonitorIncident) :=
    commit ;;; ret (mkIncidentTransition (key r) t (Some (incident_id i))) in
  let* i := upd_incident i (fun x => x <| last_seen_at := now |> <| incident_details := details r |>) in
  let* worse :=
    if bool_decide (check_status r = incident_severity i) then ret false
    else match severity_rank (check_status r), severity_rank (incident_severity i) with
         | Some a, Some b => ret (b <? a)
         | _, _ => raise (Unexpected "KeyError")
         end in
  if (worse : bool) then
    let* i := upd_incident i (fun x => x <| incident_severity := check_status r |>) in
    let* i :=
      if incident_alerts_enabled settings (key r) then
        alert_incident "monitor_incident_escalated" (severity_value (check_status r))
          (fun k => k +:+ ":escalated:" +:+ severity_value (check_status r) +:+ ":" +:+ isoformat now)
          (incident_payload r) now i
      else upd_incident i (fun x => x <| last_alerted_at := None |>) in
    done ESCALATED i
  else
    let* i :=
      if bool_decide (check_status r = incident_severity i) then ret i
      else upd_incident i (fun x => x <| incident_severity := check_status r |>) in
    let* d := get_db in
    if needs_catchup d i && incident_alerts_enabled settings (key r) then
      let* i := alert_incident "monitor_incident_opened" (severity_value (incident_severity i))
        (fun k => k +:+ ":catchup:" +:+ severity_value (incident_severity i) +:+ ":" +:+ isoformat now)
        (incident_payload r) now i in
      done ALERT_CAUGHT_UP i
    else done UNCHANGED_UNHEALTHY i.

(** [_handle_unhealthy]. *)
Definition handle_unhealthy (settings : Settings) (r : CheckResult) (now : Z) : M IncidentTransition :=
  let* found := open_incident (key r) in
  match found with
  | Some i => update_open_incident settings r now i
  | None =>
      let* candidate := try_catch
        (let* i := insert_incident (fun k =>
           mkMonitorIncident k (key r) (check_status r) OPEN now now None None None (details r)) in
         ret (Some i))
        (fun e => match e with IntegrityError => ret None | _ => raise e end) in
      match candidate with
      | Some i =>
          let* i :=
            if incident_alerts_enabled settings (key r) then
              alert_incident "monitor_incident_opened" (severity_value (check_status r)) (fun k => k)
                (incident_payload r) now i
            else ret i in
          commit ;;;
          ret (mkIncidentTransition (key r) OPENED (Some (incident_id i)))
      | None =>
          rollback ;;;
          begin_tx ;;;
          let* winner := open_incident (key r) in
          match winner with
          | None => ret (mkIncidentTransition (key r) UNCHANGED_UNHEALTHY None)
          | Some i => update_open_incident settings r now i
          end
      end
  end.

(** [record_check_result]. *)
Definition record_check_result (settings : Settings) (r : CheckResult) (now : Z) : M IncidentTransition :=
  begin_tx ;;;
  if bool_decide (check_status r = OK) then handle_healthy settings r now
  else handle_unhealthy settings r now.

(** [list_incidents]: the newest first. *)
Definition list_incidents (include_resolved : bool) (limit : nat) (d : Db) : list MonitorIncident :=
  select_batch (fun i => include_resolved || bool_decide (incident_status i = OPEN))
    (fun a b => opened_at b <=? opened_at a) limit (rows (monitor_incidents d)).
End Incidents.

(** ** The transition as a function

    What the handler makes of an open incident, given whether its last alert
    failed or was never sent, as a function of the row alone. *)

Definition worse_than (a b : Severity) : bool :=
  match severity_rank a, severity_rank b with Some x, Some y => y <? x | _, _ => false end.

Definition transition_of (settings : Settings) (r : CheckResult) (catchup : bool) (i : MonitorIncident)
  : Transition :=
  if bool_decide (check_status r = OK) then CLOSED
  else if worse_than (check_status r) (incident_severity i) then ESCALATED
  else if catchup && incident_alerts_enabled settings (key r) then ALERT_CAUGHT_UP
  else UNCHANGED_UNHEALTHY.

(** Whether the transition queues an alert. *)
Definition queues_alert (settings : Settings) (r : CheckResult) (t : Transition) : bool :=
  match t with
  | OPENED | CLOSED | ESCALATED => incident_alerts_enabled settings (key r)
  | ALERT_CAUGHT_UP => true
  | UNCHANGED_UNHEALTHY | UNCHANGED_HEALTHY => false
  end.

Definition alert_type_of (t : Transition) : string :=
  match t with
  | CLOSED => "monitor_incident_resolved"
  | ESCALATED => "monitor_incident_escalated"
  | _ => "monitor_incident_opened"
  end.

(** The row, before an alert is linked to it. *)
Definition moved (settings : Settings) (r : CheckResult) (now : Z) (t : Transition) (i : MonitorIncident)
  : MonitorIncident :=
  match t with
  | CLOSED => i <| incident_status := RESOLVED |> <| resolved_at := Some now |> <| last_seen_at := now |>
  | _ =>
      let i' := i <| last_seen_at := now |> <| incident_details := details r |>
                  <| incident_severity := check_status r |> in
      if bool_decide (t = ESCALATED) && negb (incident_alerts_enabled settings (key r))
      then i' <| last_alerted_at := None |> else i'
  end.

Definition linked (now : Z) (queued : option AdminAlert) (i : MonitorIncident) : MonitorIncident :=
  match queued with
  | Some a => i <| last_alerted_at := Some now |> <| last_alert_id := Some (alert_id a) |>
  | None => i
  end.

Definition opened_incident (r : CheckResult) (now k : Z) : MonitorIncident :=
  mkMonitorIncident k (key r) (check_status r) OPEN now now None None None (details r).

(** ** Facts *)

Section IncidentFacts.
Context {ENV : Env} {RELY : Rely}.

Definition with_incidents (d : Db) (m : gmap Z MonitorIncident) : Db := d <| monitor_incidents := m |>.

(** The alert as [create_alert] makes it. *)
Definition new_alert (k : Z) (atype sev : string) (pid : option Z) (dkey : option string) (data : option dict)
    (now : Z) (st : AlertStatus) : AdminAlert :=
  mkAdminAlert k atype sev pid dkey data st 0 (if bool_decide (st = PENDING) then Some now else None)
    None None None None now.

(** Pending, or suppressed because another alert of that key was not. *)
Definition fresh_status (m : gmap Z AdminAlert) (dkey : option string) (st : AlertStatus) : Prop :=
  st = PENDING \/
  st = SUPPRESSED /\ exists k b, m !! k = Some b /\ alert_status b <> SUPPRESSED /\
    is_some dkey = true /\ deduplication_key b = dkey.

Lemma wp_create_alert atype sev pid dkey data m now (Q : Res AdminAlert -> World -> Prop) w :
  (forall w', called [] w w' -> Q (Raise (Unexpected "DBAPIError")) w') ->
  (forall st w', fresh_status (admin_alerts (working w)) dkey st ->
     let a := new_alert (next_id (admin_alerts (working w))) atype sev pid dkey data now st in
     audited [] w w' -> admin_alerts (working w') = <[alert_id a := a]> (admin_alerts (working w)) ->
     Q (Ret a) w') ->
  wp (create_alert atype sev pid dkey data m (Some now)) Q w.
Proof.
  intros Hno Hyes. unfold create_alert, create_alert_with.
  apply wp_bind, wp_ret, wp_bind. change (wp get_alert_policy ?P w) with (P (Ret (alert_policy w)) w). cbv beta.
  apply wp_bind, wp_get_db. set (st := match dkey with Some _ => _ | None => _ end).
  assert (Hst : fresh_status (admin_alerts (working w)) dkey st).
  { subst st. destruct dkey as [dk|]; [|by left]. destruct (existsb _ _) eqn:Ex; [right|by left].
    split; [done|]. apply existsb_exists in Ex as (b & [k Hb]%in_rows & Hd). bool_to_prop. exists k, b.
    split_and!; try done. destruct (deduplication_key b); [|done]. bool_to_prop. by subst. }
  clearbody st. unfold insert_alert. do 2 apply wp_bind. apply wp_tick. intros w1 T.
  destruct (alert_insert_fails _); [by apply wp_raise, Hno|].
  specialize (Hyes st). apply wp_bind, wp_get_db.
  set (a := new_alert (next_id (admin_alerts (working w))) atype sev pid dkey data now st) in *.
  apply wp_bind, wp_put_db. intros w2 W. apply wp_ret, wp_bind, wp_record_alert_created.
  intros w3 A Et. apply wp_ret. rewrite (ca_working _ _ _ T) in *.
  fold (new_alert (next_id (admin_alerts (working w))) atype sev pid dkey data now st) in W |- *. fold a in W |- *.
  unfold service_tables in Et. injection Et as E1 E2 E3. rewrite (wr_working _ _ _ W) in E1.
  apply (Hyes w3 Hst); [|exact E1].
  apply (audited_trans [] [] w w2 w3); [|exact A]. split; try by (ws; reflexivity).
  - rewrite (wr_working _ _ _ W). apply (table_legal_insert _ _ _ (alert_id a)); [apply next_id_fresh|].
    split; [split; [done|]|]; unfold alert_ok, alert_tried, alert_final; cbn; by destruct Hst as [-> | [-> _]].
  - by rewrite (wr_policy _ _ _ W), (ca_policy _ _ _ T).
  - exists []. by rewrite (wr_working _ _ _ W).
Qed.

(** An alert dated by the clock. *)
Lemma audited_called w w' : called [] w w' -> audited [] w w'.
Proof. intros [E1 E2 E3 E4 E5 E6]. split; rewrite ?E2; try done. by exists []. Qed.

Lemma wp_create_alert_now atype sev pid dkey data m (Q : Res AdminAlert -> World -> Prop) w :
  (forall w', called [] w w' -> Q (Raise (Unexpected "DBAPIError")) w') ->
  (forall now st w', fresh_status (admin_alerts (working w)) dkey st ->
     let a := new_alert (next_id (admin_alerts (working w))) atype sev pid dkey data now st in
     audited [] w w' -> admin_alerts (working w') = <[alert_id a := a]> (admin_alerts (working w)) ->
     Q (Ret a) w') ->
  wp (create_alert atype sev pid dkey data m None) Q w.
Proof.
  intros Hno Hyes.
  change (wp (let* now := utcnow in create_alert atype sev pid dkey data m (Some now)) Q w).
  apply wp_bind, wp_utcnow. intros now w1 T. apply wp_create_alert.
  - intros w2 T2. apply Hno. exact (called_trans [] [] _ _ _ T T2).
  - intros st w2. rewrite (ca_working _ _ _ T). intros Hst a A Ea. apply (Hyes now st); [done| |done].
    exact (audited_trans [] [] _ _ _ (audited_called _ _ T) A).
Qed.

(** *** Working on one incident *)

Definition queued_alerts (d : Db) (queued : option AdminAlert) : gmap Z AdminAlert :=
  match queued with
  | None => admin_alerts d
  | Some a => <[alert_id a := a]> (admin_alerts d)
  end.

(** From the database [d] the transaction has made the row of the incident
    [i], queued at most one alert, and done nothing else. *)
Record incident_held (d : Db) (i : MonitorIncident) (queued : option AdminAlert) (w0 w : World) : Prop := {
  ich_steady : steady w0 w;
  ich_committed : committed w = d;
  ich_incidents : monitor_incidents (working w) = <[incident_id i := i]> (monitor_incidents d);
  ich_alerts : admin_alerts (working w) = queued_alerts d queued;
  ich_payments : payments (working w) = payments d;
  ich_heartbeats : worker_heartbeats (working w) = worker_heartbeats d;
  ich_trail : trail (working w) = trail d;
  ich_calls : calls w = calls w0;
  (* the row: well formed, open or new in [d], the only open one of its check *)
  ich_ok : incident_ok i = true;
  ich_origin : forall i0, monitor_incidents d !! incident_id i = Some i0 ->
    incident_status i0 = OPEN /\ incident_fact i = incident_fact i0;
  ich_unique : forall j b, monitor_incidents d !! j = Some b -> j <> incident_id i ->
    open_key b <> Some (check_key i)
}.

Lemma open_key_spec i k : open_key i = Some k <-> incident_status i = OPEN /\ check_key i = k.
Proof.
  unfold open_key. destruct (bool_decide_reflect (incident_status i = OPEN)); intuition congruence.
Qed.

Lemma held_legal (d : Db) i : incident_ok i = true ->
  (forall i0, monitor_incidents d !! incident_id i = Some i0 ->
    incident_status i0 = OPEN /\ incident_fact i = incident_fact i0) ->
  (forall j b, monitor_incidents d !! j = Some b -> j <> incident_id i -> open_key b <> Some (check_key i)) ->
  incidents_legal (monitor_incidents d) (<[incident_id i := i]> (monitor_incidents d)).
Proof.
  intros Hok Ho Hu. split.
  - destruct (monitor_incidents d !! incident_id i) as [i0|] eqn:E.
    + destruct (Ho i0 eq_refl) as [Hs F]. apply (table_legal_update _ _ _ _ i0); [done|].
      split; [done|congruence|done].
    + by apply table_legal_insert.
  - intros U j k x y v. rewrite !lookup_insert. repeat case_decide; subst; try done; intros Hx Hy Ex Ey; simplify_eq.
    + apply open_key_spec in Ex as [_ <-]. by destruct (Hu k y Hy).
    + apply open_key_spec in Ey as [_ <-]. by destruct (Hu j x Hx).
    + by apply (U j k x y v).
Qed.

Lemma wp_held_upd d i q f w0 w (Q : Res MonitorIncident -> World -> Prop) :
  incident_held d i q w0 w -> incident_fact (f i) = incident_fact i -> incident_ok (f i) = true ->
  (forall w', incident_held d (f i) q w0 w' -> Q (Ret (f i)) w') ->
  wp (upd_incident i f) Q w.
Proof.
  intros H F Hok HQ.
  assert (Hi : monitor_incidents (working w) !! incident_id i = Some i).
  { rewrite (ich_incidents _ _ _ _ _ H). apply lookup_insert_eq. }
  assert (Eid : incident_id (f i) = incident_id i) by (unfold incident_fact in F; congruence).
  assert (Ek : check_key (f i) = check_key i) by (unfold incident_fact in F; congruence).
  set (m := <[incident_id i := f i]> (monitor_incidents (working w))).
  assert (W : wrote (with_incidents (working w) m) w (snd (upd_incident i f w))).
  { split; try done. unfold upd_incident, with_incidents, m. cbn. by rewrite (alter_insert_of f _ _ i Hi). }
  apply HQ. revert W. generalize (snd (upd_incident i f w)). intros w' W.
  assert (Em : m = <[incident_id (f i) := f i]> (monitor_incidents d)).
  { unfold m. rewrite (ich_incidents _ _ _ _ _ H), Eid. apply insert_insert_eq. }
  assert (Hc : committed w = d) by apply H.
  assert (Ho : forall i0, monitor_incidents d !! incident_id (f i) = Some i0 ->
            incident_status i0 = OPEN /\ incident_fact (f i) = incident_fact i0).
  { rewrite Eid, F. apply H. }
  assert (Hu : forall j b, monitor_incidents d !! j = Some b -> j <> incident_id (f i) ->
            open_key b <> Some (check_key (f i))).
  { rewrite Eid, Ek. apply H. }
  assert (S : steady w w').
  { pose proof (proj1 (ich_steady _ _ _ _ _ H)) as Hs. pose proof (le_service _ _ (so_legal w Hs)) as L.
    eapply steady_wrote_committed; [exact W|done|done|]. rewrite Hc in *. split; [apply L| |apply L].
    cbn. rewrite Em. by apply held_legal. }
  split; rewrite ?(wr_committed _ _ _ W), ?(wr_working _ _ _ W), ?(wr_calls _ _ _ W); try done; try apply H.
  eapply steady_trans; [apply H|exact S].
Qed.

(** The alert a transition queues. *)
Record queued_for (d : Db) (atype sev : string) (data : dict) (now : Z) (a : AdminAlert) : Prop := {
  qf_id : alert_id a = next_id (admin_alerts d);
  qf_new : exists st dkey, fresh_status (admin_alerts d) (Some dkey) st /\
    a = new_alert (alert_id a) atype sev None (Some dkey) (Some data) now st
}.

(** Nothing but the caller's part of the transaction is lost when the alert
    cannot be stored. *)
Lemma wp_held_alert d i atype sev dkey data now w0 w (Q : Res MonitorIncident -> World -> Prop) :
  incident_held d i None w0 w ->
  (forall w', steady w0 w' -> committed w' = d -> calls w' = calls w0 -> Q (Raise (Unexpected "DBAPIError")) w') ->
  (forall a w', queued_for d atype sev data now a -> incident_held d (linked now (Some a) i) (Some a) w0 w' ->
     Q (Ret (linked now (Some a) i)) w') ->
  wp (alert_incident atype sev dkey data now i) Q w.
Proof.
  intros H Hno Hyes. unfold alert_incident.
  apply wp_bind, (wp_held_upd _ _ _ _ _ _ _ H); [done|by apply H|]. clear w H. intros w H.
  apply wp_bind, wp_create_alert.
  - intros w' C. apply Hno.
    + eapply steady_trans; [apply H|]. eapply steady_called; [exact C|apply H].
    + rewrite (ca_committed _ _ _ C). apply H.
    + rewrite (ca_calls _ _ _ C). apply H.
  - intros st w'. rewrite (ich_alerts _ _ _ _ _ H). change (queued_alerts d None) with (admin_alerts d).
    intros Hst a A Ea.
    assert (H' : incident_held d (i <| last_alerted_at := Some now |>) (Some a) w0 w').
    { split; try (apply H).
      - eapply steady_trans; [apply H|]. eapply steady_audited; [exact A|apply H].
      - ws. apply H.
      - ws. apply H.
      - exact Ea.
      - ws. apply H.
      - ws. apply H.
      - unfold trail. ws. apply (ich_trail _ _ _ _ _ H).
      - ws. apply H. }
    apply (wp_held_upd _ _ _ _ _ _ _ H'); [done|by apply H|]. intros w2 H2.
    apply (Hyes a); [|exact H2]. split; [done|]. exists st. by eexists.
Qed.

(** The row of the open incident of a check. *)
Definition found_open (d : Db) (check : string) (i : MonitorIncident) : Prop :=
  monitor_incidents d !! incident_id i = Some i /\ incident_status i = OPEN /\ check_key i = check.

Definition none_open (d : Db) (check : string) : Prop :=
  forall k i, monitor_incidents d !! k = Some i -> open_key i <> Some check.

Lemma is_open_spec check i : is_open check i = true <-> open_key i = Some check.
Proof.
  unfold is_open, open_key. rewrite andb_true_iff, String.eqb_eq, bool_decide_eq_true.
  destruct (bool_decide_reflect (incident_status i = OPEN)); intuition congruence.
Qed.

Lemma none_open_rows d check :
  List.filter (is_open check) (rows (monitor_incidents d)) = [] <-> none_open d check.
Proof.
  split.
  - intros E k i Hi Hk. assert (Hin : In i (List.filter (is_open check) (rows (monitor_incidents d)))).
    { apply filter_In. split; [apply in_rows; eauto|by apply is_open_spec]. }
    by rewrite E in Hin.
  - intros H. destruct (List.filter _ _) as [|i l] eqn:E; [done|].
    assert (Hin : In i (List.filter (is_open check) (rows (monitor_incidents d)))) by (rewrite E; by left).
    apply filter_In in Hin as [[k Hi]%in_rows Hk%is_open_spec]. by destruct (H k i Hi).
Qed.

Lemma wp_open_incident check (Q : Res (option MonitorIncident) -> World -> Prop) w :
  sound w -> (none_open (working w) check -> Q (Ret None) w) ->
  (forall i, found_open (working w) check i -> Q (Ret (Some i)) w) -> wp (open_incident check) Q w.
Proof.
  intros Hs Hnone Hsome. unfold open_incident. apply wp_bind, wp_get_db, wp_ret.
  destruct (List.filter _ _) as [|i l] eqn:E; [by apply Hnone, none_open_rows|]. apply Hsome.
  assert (Hin : In i (List.filter (is_open check) (rows (monitor_incidents (working w))))) by (rewrite E; by left).
  apply filter_In in Hin as [[k Hi]%in_rows Hk%is_open_spec]. apply open_key_spec in Hk as [Ho Hc].
  destruct (sv_incidents _ (ok_service _ (so_working w Hs))) as [F _].
  destruct (F k i Hi) as [Eid _]. unfold found_open. by rewrite Eid.
Qed.

Lemma held_start w0 w check i : steady w0 w -> working w = committed w -> calls w = calls w0 ->
  found_open (committed w) check i -> incident_held (committed w) i None w0 w.
Proof.
  intros S Hw Hc (Hi & Ho & Hk). destruct (sv_incidents _ (ok_service _ (so_ok _ (proj1 S)))) as [F U].
  split; rewrite ?Hw; try done.
  - by rewrite insert_id.
  - apply (F _ _ Hi).
  - intros i0 Hi0. simplify_eq. done.
  - intros j b Hb Hne Hkey. apply Hne. apply (U j (incident_id i) b i (check_key i)); try done.
    by apply open_key_spec.
Qed.

(** The transaction was committed. *)
Record incident_done (d : Db) (i : MonitorIncident) (queued : option AdminAlert) (w0 w' : World) : Prop := {
  icd_steady : steady w0 w';
  icd_saved : working w' = committed w';
  icd_incidents : monitor_incidents (committed w') = <[incident_id i := i]> (monitor_incidents d);
  icd_alerts : admin_alerts (committed w') = queued_alerts d queued;
  icd_payments : payments (committed w') = payments d;
  icd_heartbeats : worker_heartbeats (committed w') = worker_heartbeats d;
  icd_trail : trail (committed w') = trail d;
  icd_calls : calls w' = calls w0
}.

Lemma held_commit d i q w0 w w' : incident_held d i q w0 w -> did_commit w w' -> incident_done d i q w0 w'.
Proof.
  intros H C. split; rewrite ?(cm_committed _ _ C), ?(cm_working _ _ C), ?(cm_calls _ _ C); try done; try apply H.
  eapply steady_trans; [apply H|]. eapply steady_commit; [exact C|apply H].
Qed.

(** *** The handlers *)

(** The alert, if any, of the transition [t]. *)
Definition alert_for (settings : Settings) (r : CheckResult) (now : Z) (d : Db) (t : Transition)
    (queued : option AdminAlert) : Prop :=
  match queued with
  | None => queues_alert settings r t = false
  | Some a => queues_alert settings r t = true /\
      exists data, queued_for d (alert_type_of t)
        (match t with CLOSED => "info" | _ => severity_value (check_status r) end) data now a
  end.

(** How a handler ends that found or made the row [i] of the database [d],
    by the transition [t]. *)
Definition concludes (settings : Settings) (r : CheckResult) (now : Z) (d : Db) (i : MonitorIncident)
    (t : Transition) (w0 : World) (res : Res IncidentTransition) (w' : World) : Prop :=
  match res with
  | Ret tr => tr = mkIncidentTransition (key r) t (Some (incident_id i)) /\
      exists queued, alert_for settings r now d t queued /\ incident_done d (linked now queued i) queued w0 w'
  | Raise e => e = Unexpected "DBAPIError" /\ steady w0 w' /\ committed w' = d /\ calls w' = calls w0
  end.

Lemma linked_id now q i : incident_id (linked now q i) = incident_id i.
Proof. by destruct q. Qed.

Lemma wp_conclude settings r now d i t w0 w :
  incident_held d i None w0 w -> queues_alert settings r t = false ->
  wp (commit ;;; ret (mkIncidentTransition (key r) t (Some (incident_id i))))
    (concludes settings r now d i t w0) w.
Proof.
  intros H Hq. wp_step. apply wp_commit. intros w' C. apply wp_ret. split; [done|].
  exists None. split; [done|]. by eapply held_commit.
Qed.

Lemma wp_conclude_alert settings r now d i t atype sev dkey data (k : MonitorIncident -> M IncidentTransition) w0 w :
  incident_held d i None w0 w -> queues_alert settings r t = true -> atype = alert_type_of t ->
  sev = (match t with CLOSED => "info" | _ => severity_value (check_status r) end) ->
  (forall i', incident_id i' = incident_id i ->
     k i' = (commit ;;; ret (mkIncidentTransition (key r) t (Some (incident_id i))))) ->
  wp (let* i' := alert_incident atype sev dkey data now i in k i') (concludes settings r now d i t w0) w.
Proof.
  intros H Hq -> -> Hk. apply wp_bind, (wp_held_alert d i _ _ _ _ now w0); [done| |].
  - by intros w' S C E.
  - intros a w' F H'. rewrite Hk by done. wp_step. apply wp_commit. intros w2 C. apply wp_ret.
    split; [done|]. exists (Some a). split; [by split; [|eexists]|]. by eapply held_commit.
Qed.

(** The comparison of the ranks: the [KeyError] cannot happen. *)
Lemma wp_worse s sev (Q : Res bool -> World -> Prop) w : s <> OK -> sev <> OK ->
  Q (Ret (worse_than s sev)) w ->
  wp (if bool_decide (s = sev) then ret false
      else match severity_rank s, severity_rank sev with
           | Some a, Some b => ret (b <? a)
           | _, _ => raise (Unexpected "KeyError")
           end) Q w.
Proof. by destruct s, sev. Qed.

(** An unhealthy check leaves the severity of its incident well formed. *)
Lemma unhealthy_ok i x s : incident_ok i = true -> s <> OK ->
  incident_ok (i <| incident_severity := s |> <| last_alerted_at := x |>) = true.
Proof.
  unfold incident_ok. cbn. intros Hok Hs. bool_to_prop. rewrite andb_true_iff. split; [done|].
  by rewrite bool_decide_false.
Qed.

Lemma wp_update_open settings r now d i w0 w :
  incident_held d i None w0 w -> incident_status i = OPEN -> check_status r <> OK ->
  let t := transition_of settings r (needs_catchup d i) i in
  wp (update_open_incident settings r now i) (concludes settings r now d (moved settings r now t i) t w0) w.
Proof.
  intros H Ho Hr. cbv zeta.
  assert (Hsev : incident_severity i <> OK).
  { pose proof (ich_ok _ _ _ _ _ H) as Hok. unfold incident_ok in Hok. by bool_to_prop. }
  assert (Hok : incident_ok i = true) by apply H.
  unfold update_open_incident, transition_of. rewrite (bool_decide_false (check_status r = OK)) by done.
  apply wp_bind, (wp_held_upd _ _ _ _ _ _ _ H); [done|done|]. clear w H. intros w H.
  set (i1 := i <| last_seen_at := now |> <| incident_details := details r |>) in *.
  pose proof (fun x => unhealthy_ok i1 x (check_status r) Hok Hr) as Hlater.
  apply wp_bind, wp_worse; [done|done|]. change (incident_severity i1) with (incident_severity i).
  destruct (worse_than (check_status r) (incident_severity i)) eqn:Ew.
  - apply wp_bind, (wp_held_upd _ _ _ _ _ _ _ H); [done|exact (Hlater (last_alerted_at i))|]. clear w H. intros w H.
    unfold moved. cbn [bool_decide]. rewrite (bool_decide_true (ESCALATED = ESCALATED)) by done. cbn [andb].
    destruct (incident_alerts_enabled settings (key r)) eqn:En; cbn [negb].
    + apply (wp_conclude_alert settings r now d _ ESCALATED); try done. by intros i' ->.
    + apply wp_bind, (wp_held_upd _ _ _ _ _ _ _ H); [done|apply Hlater|]. clear w H. intros w H.
      by apply wp_conclude.
  - assert (Hmoved : forall t, t <> CLOSED -> t <> ESCALATED ->
      moved settings r now t i = i1 <| incident_severity := check_status r |>).
    { intros t H1 H2. unfold moved. rewrite (bool_decide_false (t = ESCALATED)) by done. cbn [andb]. by destruct t. }
    assert (Hstep : forall (k : MonitorIncident -> M IncidentTransition) P,
      (forall w, incident_held d (i1 <| incident_severity := check_status r |>) None w0 w ->
         wp (k (i1 <| incident_severity := check_status r |>)) P w) ->
      wp (let* i := if bool_decide (check_status r = incident_severity i1) then ret i1
                    else upd_incident i1 (fun x => x <| incident_severity := check_status r |>) in k i) P w).
    { intros k P HP. apply wp_bind. case_bool_decide as E.
      - apply wp_ret. replace i1 with (i1 <| incident_severity := check_status r |>) in H |- *;
          [by apply HP|]. clear -E. unfold i1 in *. destruct i. cbn in *. by subst.
      - apply (wp_held_upd _ _ _ _ _ _ _ H); [done|exact (Hlater (last_alerted_at i))|]. intros w' H'. by apply HP. }
    apply Hstep. clear w H Hstep. intros w H. apply wp_bind, wp_get_db.
    assert (Ec : needs_catchup (working w) (i1 <| incident_severity := check_status r |>) = needs_catchup d i).
    { unfold needs_catchup. cbn. by rewrite (ich_alerts _ _ _ _ _ H). }
    rewrite Ec. destruct (needs_catchup d i && incident_alerts_enabled settings (key r)) eqn:En.
    + rewrite Hmoved by done. apply (wp_conclude_alert settings r now d _ ALERT_CAUGHT_UP); try done.
      by intros i' ->.
    + rewrite Hmoved by done. by apply wp_conclude.
Qed.

Lemma wp_handle_healthy settings r now w0 w :
  steady w0 w -> working w = committed w -> calls w = calls w0 ->
  wp (handle_healthy settings r now) (fun res w' =>
    (none_open (committed w) (key r) /\ res = Ret (mkIncidentTransition (key r) UNCHANGED_HEALTHY None) /\
     steady w0 w' /\ committed w' = committed w /\ calls w' = calls w0 /\ working w' = committed w') \/
    (exists i, found_open (committed w) (key r) i /\
       concludes settings r now (committed w) (moved settings r now CLOSED i) CLOSED w0 res w')) w.
Proof.
  intros S Hw Hc. unfold handle_healthy. apply wp_bind, wp_open_incident; [apply S| |].
  - rewrite Hw. intros Hn. wp_step. apply wp_rollback. intros w' R. apply wp_ret. left.
    split_and!; [done|done| |by ws|by ws|by ws]. eapply steady_trans; [exact S|]. eapply steady_rollback; [exact R|apply S].
  - rewrite Hw. intros i Hi. pose proof (held_start w0 w _ i S Hw Hc Hi) as H.
    assert (Hok : incident_ok i = true) by apply H.
    apply wp_bind, (wp_held_upd _ _ _ _ _ _ _ H); [done| |].
    { unfold incident_ok in *. cbn. by apply andb_true_iff in Hok as [_ ->]. }
    clear H. intros w1 H.
    eapply wp_mono; [|intros res w' HQ; right; exists i; split; [done|exact HQ]].
    change (i <| incident_status := RESOLVED |> <| resolved_at := Some now |> <| last_seen_at := now |>)
      with (moved settings r now CLOSED i) in H |- *.
    destruct (incident_alerts_enabled settings (key r)) eqn:En.
    + apply (wp_conclude_alert settings r now _ _ CLOSED); try done. by intros i' ->.
    + apply wp_bind, wp_ret. by apply wp_conclude.
Qed.

(** What the other sessions made of the database. *)
Definition evolved : Db -> Db -> Prop := rtc (fun d d' => exists n, d' = others n d).

Lemma evolved_began w w' : began w w' -> evolved (committed w) (committed w').
Proof. intros B. apply rtc_once, B. Qed.

Lemma evolved_legal d d' : db_ok d -> evolved d d' -> db_legal d d'.
Proof.
  intros Hd H. revert Hd. induction H as [d|d d1 d' [n ->] _ IH]; intros Hd; [reflexivity|].
  pose proof (others_legal n d Hd) as L. transitivity (others n d); [done|]. apply IH. by eapply db_legal_ok.
Qed.

(** How recording a check's result ends, [d] being the database its last
    decision saw. *)
Inductive recorded (settings : Settings) (r : CheckResult) (now : Z) (w0 : World)
  : Res IncidentTransition -> World -> Prop :=
  | rec_healthy w' : check_status r = OK -> none_open (committed w') (key r) -> steady w0 w' ->
      evolved (committed w0) (committed w') -> calls w' = calls w0 -> working w' = committed w' ->
      recorded settings r now w0 (Ret (mkIncidentTransition (key r) UNCHANGED_HEALTHY None)) w'
  | rec_lost d w' : check_status r <> OK -> none_open (committed w') (key r) -> steady w0 w' ->
      evolved (committed w0) d -> ~ none_open d (key r) -> evolved d (committed w') ->
      calls w' = calls w0 -> working w' = committed w' ->
      recorded settings r now w0 (Ret (mkIncidentTransition (key r) UNCHANGED_UNHEALTHY None)) w'
  | rec_opened d res w' : check_status r <> OK -> none_open d (key r) -> evolved (committed w0) d ->
      concludes settings r now d (opened_incident r now (next_id (monitor_incidents d))) OPENED w0 res w' ->
      recorded settings r now w0 res w'
  | rec_moved d i res w' : found_open d (key r) i -> evolved (committed w0) d ->
      let t := transition_of settings r (needs_catchup d i) i in
      concludes settings r now d (moved settings r now t i) t w0 res w' ->
      recorded settings r now w0 res w'.

Lemma wp_unhealthy_found settings r now i w0 w :
  steady w0 w -> evolved (committed w0) (committed w) -> working w = committed w -> calls w = calls w0 -> check_status r <> OK ->
  found_open (committed w) (key r) i ->
  wp (update_open_incident settings r now i) (recorded settings r now w0) w.
Proof.
  intros S L Hw Hc Hr Hi. pose proof (held_start w0 w _ i S Hw Hc Hi) as H.
  eapply wp_mono; [apply (wp_update_open _ _ _ (committed w) i w0); [exact H|apply Hi|exact Hr]|].
  intros res w' HQ. by apply (rec_moved _ _ _ _ (committed w) i).
Qed.

Lemma existsb_none_open d check :
  existsb (is_open check) (rows (monitor_incidents d)) = false <-> none_open d check.
Proof.
  rewrite <- none_open_rows, <- not_true_iff_false, existsb_exists. split.
  - intros H. destruct (List.filter _ _) as [|i l] eqn:E; [done|]. destruct H. exists i.
    apply filter_In. rewrite E. by left.
  - intros E (i & Hi). apply filter_In in Hi. by rewrite E in Hi.
Qed.

(** The optimistic insert: a new row, or the loss of the race. *)
Lemma wp_insert_incident r now (Q : Res MonitorIncident -> World -> Prop) w :
  sound w -> working w = committed w ->
  (forall w' d, evolved (committed w) d -> none_open d (key r) ->
     let i := opened_incident r now (next_id (monitor_incidents d)) in
     check_status r <> OK -> incident_held d i None w w' -> Q (Ret i) w') ->
  (forall w', steady w w' -> evolved (committed w) (committed w') -> ~ none_open (committed w') (key r) ->
     calls w' = calls w -> Q (Raise IntegrityError) w') ->
  check_status r <> OK ->
  wp (insert_incident (fun k =>
        mkMonitorIncident k (key r) (check_status r) OPEN now now None None None (details r))) Q w.
Proof.
  intros Hs Hw Hyes Hno Hr. unfold insert_incident. apply wp_bind, wp_begin_tx. intros w1 B.
  assert (S1 : steady w w1) by (by eapply steady_began).
  apply wp_bind, wp_get_db. cbv zeta. cbn [check_key].
  destruct (existsb _ _) eqn:Ex.
  { apply wp_raise, Hno; [done|by apply evolved_began| |apply B]. rewrite <- (bg_working _ _ B), <- existsb_none_open.
    cbn [check_key] in Ex. congruence. }
  apply existsb_none_open in Ex. rewrite (bg_working _ _ B) in *. set (d := committed w1) in *.
  set (i := opened_incident r now (next_id (monitor_incidents d))).
  assert (Hok : incident_ok i = true) by (unfold incident_ok; cbn; by rewrite (bool_decide_false (check_status r = OK))).
  assert (Ho : forall i0, monitor_incidents d !! incident_id i = Some i0 ->
            incident_status i0 = OPEN /\ incident_fact i = incident_fact i0).
  { intros i0 Hi0. cbn in Hi0. by rewrite next_id_fresh in Hi0. }
  assert (Hu : forall j b, monitor_incidents d !! j = Some b -> j <> incident_id i ->
            open_key b <> Some (check_key i)) by (intros j b Hb _; by apply (Ex j b)).
  apply wp_bind, wp_put_db. intros w2 W. apply wp_ret, (Hyes w2 d); [by apply evolved_began|done|done|].
  change (wrote (with_incidents d (<[incident_id i := i]> (monitor_incidents d))) w1 w2) in W.
  split; rewrite ?(wr_committed _ _ _ W), ?(wr_working _ _ _ W), ?(wr_calls _ _ _ W); try done; [|apply B].
  eapply steady_trans; [exact S1|]. eapply steady_wrote; [exact W|apply S1| |].
  - by rewrite (bg_working _ _ B).
  - rewrite (bg_working _ _ B). split; [reflexivity| |reflexivity]. by apply held_legal.
Qed.

Lemma wp_handle_unhealthy settings r now w0 w :
  steady w0 w -> evolved (committed w0) (committed w) -> working w = committed w -> calls w = calls w0 -> check_status r <> OK ->
  wp (handle_unhealthy settings r now) (recorded settings r now w0) w.
Proof.
  intros S L0 Hw Hc Hr. unfold handle_unhealthy. apply wp_bind, wp_open_incident; [apply S| |].
  2:{ rewrite Hw. intros i Hi. by apply wp_unhealthy_found. }
  intros _. apply wp_bind, wp_try, wp_bind, wp_insert_incident; [apply S|done| |..|done].
  - intros w' d L Hn i _ H. apply wp_ret.
    assert (H0 : incident_held d i None w0 w').
    { destruct H. split; try done; [exact (steady_trans _ _ _ S ich_steady0)|congruence]. }
    eapply wp_mono; [|intros res w2 HQ; apply (rec_opened _ _ _ _ d); [done|done| |exact HQ]].
    + change (next_id (monitor_incidents d)) with (incident_id i). fold i.
      destruct (incident_alerts_enabled settings (key r)) eqn:En.
      * apply (wp_conclude_alert settings r now d i OPENED); try done. by intros i' ->.
      * apply wp_bind, wp_ret. by apply wp_conclude.
    + by transitivity (committed w).
  - intros w' S1 L1 Hopen C1. apply wp_ret. apply wp_bind, wp_rollback. intros w1 R.
    assert (S2 : steady w0 w1).
    { eapply steady_trans; [exact S|]. eapply steady_trans; [exact S1|]. eapply steady_rollback; [exact R|apply S1]. }
    apply wp_bind, wp_begin_tx. intros w2 B.
    assert (S3 : steady w0 w2).
    { eapply steady_trans; [exact S2|]. eapply steady_began; [exact B|by ws|apply S2]. }
    assert (E3 : calls w2 = calls w0) by (ws; congruence).
    assert (L2 : evolved (committed w0) (committed w')) by (by transitivity (committed w)).
    assert (L3 : evolved (committed w') (committed w2)).
    { rewrite <- (rb_committed _ _ R). by apply evolved_began. }
    apply wp_bind, wp_open_incident; [apply S3| |]; rewrite (bg_working _ _ B).
    + intros Hn. apply wp_ret. apply (rec_lost _ _ _ _ (committed w')); try done. apply B.
    + intros i Hi. apply wp_unhealthy_found; try done; [by transitivity (committed w')|apply B].
Qed.

Lemma wp_record_check_result settings r now w :
  sound w -> working w = committed w ->
  wp (record_check_result settings r now) (recorded settings r now w) w.
Proof.
  intros Hs Hw. unfold record_check_result. apply wp_bind, wp_begin_tx. intros w1 B.
  assert (S1 : steady w w1) by (by eapply steady_began). case_bool_decide as Hr.
  - eapply wp_mono; [apply (wp_handle_healthy settings r now w); [done|apply B|apply B]|].
    intros res w' [(Hn & -> & S & E & C & Hw')|(i & Hi & HQ)].
    + apply rec_healthy; try done; rewrite E; [done|by apply evolved_began].
    + apply (rec_moved _ _ _ _ (committed w1) i); [done|by apply evolved_began|]. unfold transition_of.
      by rewrite (bool_decide_true (check_status r = OK)).
  - apply wp_handle_unhealthy; [done|by apply evolved_began|apply B|apply B|done].
Qed.

(** C27: The lifecycle of an incident. Whatever other sessions commit
    meanwhile, recording a check's result either changes nothing (the check
    is healthy and nothing is open, or the race for opening was lost twice),
    or opens exactly one incident where none was open, or moves the open
    incident of the check by the transition function: an unhealthy result
    escalates, reminds or only refreshes, a healthy one closes. At most one
    alert is queued, linked to the row in the same transaction; if the alert
    cannot be stored, nothing of the transition is committed. *)
Theorem incident_transition_exact settings r now w :
  sound w -> working w = committed w ->
  wp (record_check_result settings r now) (recorded settings r now w) w.
Proof. exact (wp_record_check_result settings r now w). Qed.

(** No spam. A result queues exactly one new alert when its transition
    opens, escalates or closes an incident (with alerts enabled for the
    check) or catches up on one that reached nobody, and none otherwise; in
    particular a check that stays as bad as it was reported is silent. *)
Theorem alerts_only_on_transitions settings r now w :
  sound w -> working w = committed w ->
  wp (record_check_result settings r now) (fun res w' =>
    match res with
    | Raise e => e = Unexpected "DBAPIError"
    | Ret tr => exists d, db_legal (committed w) d /\
        (if queues_alert settings r (transition tr) then
           exists a, admin_alerts d !! alert_id a = None /\ alert_tried a = false /\
             admin_alerts (committed w') = <[alert_id a := a]> (admin_alerts d)
         else admin_alerts (committed w') = admin_alerts d) /\
        (forall i, found_open d (key r) i -> incident_severity i = check_status r -> needs_catchup d i = false ->
           check_status r <> OK -> queues_alert settings r (transition tr) = false)
    end) w.
Proof.
  intros Hs Hw. eapply wp_mono; [by apply wp_record_check_result|].
  assert (Hq : forall d i t w', db_legal (committed w) d -> forall res, concludes settings r now d i t w res w' ->
    match res with
    | Raise e => e = Unexpected "DBAPIError"
    | Ret tr => transition tr = t /\
        (if queues_alert settings r t then
           exists a, admin_alerts d !! alert_id a = None /\ alert_tried a = false /\
             admin_alerts (committed w') = <[alert_id a := a]> (admin_alerts d)
         else admin_alerts (committed w') = admin_alerts d)
    end).
  { intros d i t w' L [tr|e]; [|by intros [-> _]]. intros [-> (q & F & D)]. split; [done|].
    rewrite (icd_alerts _ _ _ _ _ D). destruct q as [a|]; cbn in F.
    - destruct F as [-> (data & Fid & st & dkey & Hst & ->)]. eexists. split; [|split; [|done]].
      + rewrite Fid. apply next_id_fresh.
      + unfold alert_tried. cbn. by destruct Hst as [-> | [-> _]].
    - by rewrite F. }
  intros res w' O. destruct O as [w' Hr Hn S _ _ _|? w' Hr Hn S _ _ _ _ _|d res w' Hr Hn L C|d i res w' Hi L t C];
    try apply (evolved_legal _ _ (so_ok _ Hs)) in L.
  - exists (committed w'). by split; [apply S|].
  - exists (committed w'). by split; [apply S|].
  - specialize (Hq _ _ _ _ L _ C). destruct res as [tr|e]; [|done]. destruct Hq as [-> Hq]. exists d.
    split_and!; [done|done|]. intros i (H1 & H2 & H3). destruct (Hn _ _ H1). by apply open_key_spec.
  - specialize (Hq _ _ _ _ L _ C). destruct res as [tr|e]; [|done]. destruct Hq as [-> Hq]. exists d.
    split_and!; [done|done|]. intros j Hj Esev Ecat Hok.
    assert (j = i) as ->.
    { destruct (sv_incidents _ (ok_service _ (db_legal_ok _ _ L (so_ok _ Hs)))) as [_ U].
      destruct Hi as (H1 & H2 & H3), Hj as (H4 & H5 & H6).
      assert (E : incident_id j = incident_id i).
      { apply (U _ _ j i (key r)); try done; by apply open_key_spec. }
      rewrite E in H4. congruence. }
    unfold t, transition_of. rewrite Ecat, Esev, (bool_decide_false (check_status r = OK)) by done.
    unfold worse_than. destruct (severity_rank _); [rewrite Z.ltb_irrefl|]; done.
Qed.

Lemma linked_reported settings r now t i d q : alert_for settings r now d t q ->
  incident_alerts_enabled settings (key r) = true ->
  (t = UNCHANGED_UNHEALTHY -> needs_catchup d i = false /\ outbox_ok (admin_alerts d)) ->
  t = OPENED \/ t = ESCALATED \/ t = ALERT_CAUGHT_UP \/ t = UNCHANGED_UNHEALTHY ->
  forall i', last_alerted_at i' = last_alerted_at i -> last_alert_id i' = last_alert_id i ->
  is_some (last_alerted_at (linked now q i')) = true /\
  forall k a, last_alert_id (linked now q i') = Some k -> queued_alerts d q !! k = Some a ->
    alert_status a <> FAILED.
Proof.
  intros F En Hun Ht i' E1 E2. destruct q as [a|]; cbn in *.
  - split; [done|]. intros k b [= <-]. rewrite lookup_insert_eq. intros [= <-].
    destruct F as [_ (data & _ & st & dkey & [-> | [-> _]] & ->)]; done.
  - destruct Ht as [-> |[-> |[-> | ->]]]; cbn in F; try congruence.
    destruct (Hun eq_refl) as [Hc Hok]. rewrite E1, E2. unfold needs_catchup in Hc.
    destruct (last_alerted_at i); [|done]. split; [done|]. intros k b Hk Hb. rewrite Hk, Hb in Hc.
    by bool_to_prop.
Qed.

(** An ongoing problem never stays unreported. Once an unhealthy result
    is recorded with alerts enabled for its check, the open incident has the
    check's current severity, and an alert was queued for it that has not
    failed for good. *)
Theorem ongoing_incident_is_reported settings r now w :
  sound w -> working w = committed w -> check_status r <> OK ->
  incident_alerts_enabled settings (key r) = true ->
  wp (record_check_result settings r now) (fun res w' =>
    forall tr k, res = Ret tr -> transition_incident tr = Some k ->
    exists i, monitor_incidents (committed w') !! k = Some i /\ open_key i = Some (key r) /\
      incident_severity i = check_status r /\ is_some (last_alerted_at i) = true /\
      forall j a, last_alert_id i = Some j -> admin_alerts (committed w') !! j = Some a ->
        alert_status a <> FAILED) w.
Proof.
  intros Hs Hw Hr En. eapply wp_mono; [by apply wp_record_check_result|].
  intros res w' O tr k -> Hk. remember (Ret tr) as res eqn:Eres.
  destruct O as [w' ? Hn S _ _ _|? w' ? Hn S _ _ _ _ _|d res w' _ Hn L C|d i res w' Hi L t C];
    try apply (evolved_legal _ _ (so_ok _ Hs)) in L; subst; simplify_eq/=.
  - destruct C as [-> (q & F & D)]. injection Hk as <-. set (i := opened_incident _ _ _) in *.
    exists (linked now q i). rewrite (icd_incidents _ _ _ _ _ D), (icd_alerts _ _ _ _ _ D).
    rewrite linked_id, lookup_insert_eq. split_and!; [done|by destruct q|by destruct q|..];
      apply (linked_reported settings r now OPENED i d q F En); try done; by left.
  - destruct C as [-> (q & F & D)]. injection Hk as <-.
    assert (Ht : t = ESCALATED \/ t = ALERT_CAUGHT_UP \/ t = UNCHANGED_UNHEALTHY /\ needs_catchup d i = false).
    { unfold t, transition_of. rewrite (bool_decide_false (check_status r = OK)), En, andb_true_r by done.
      destruct (worse_than _ _); [auto|]. destruct (needs_catchup d i); auto. }
    assert (Em : moved settings r now t i = i <| last_seen_at := now |> <| incident_details := details r |>
                   <| incident_severity := check_status r |>).
    { unfold moved. rewrite En. cbn [negb]. rewrite andb_false_r. by destruct Ht as [-> |[-> |[-> _]]]. }
    rewrite Em in *. set (i' := _ <| incident_severity := _ |>) in *.
    exists (linked now q i'). rewrite (icd_incidents _ _ _ _ _ D), (icd_alerts _ _ _ _ _ D).
    rewrite linked_id, lookup_insert_eq. split_and!; [done| |by destruct q|..].
    + destruct Hi as (_ & Ho & Hkey). by destruct q; apply open_key_spec.
    + apply (linked_reported settings r now t i d q F En); [|tauto|done|done].
      intros E. rewrite E in Ht. split; [by destruct Ht as [?|[?|[_ ?]]]|].
      apply (sv_alerts _ (ok_service _ (db_legal_ok _ _ L (so_ok _ Hs)))).
    + apply (linked_reported settings r now t i d q F En); [|tauto|done|done].
      intros E. rewrite E in Ht. split; [by destruct Ht as [?|[?|[_ ?]]]|].
      apply (sv_alerts _ (ok_service _ (db_legal_ok _ _ L (so_ok _ Hs)))).
Qed.
End IncidentFacts.

(** ** Witnesses *)

Definition alerting_settings : Settings := default_settings <| admin_bot_enabled := true |>.

(** The disk check opened a warning at second 10, whose alert failed for good. *)
Definition disk_incident : MonitorIncident :=
  mkMonitorIncident 1 "disk_space" WARNING OPEN (seconds 10) (seconds 10) None (Some (seconds 10)) (Some 1) [].

Definition failed_disk_alert : AdminAlert :=
  mkAdminAlert 1 "monitor_incident_opened" "warning" None (Some "monitor:disk_space:1") None FAILED 8 None None
    None None (Some "telegram_forbidden") (seconds 10).

Definition disk_db : Db :=
  empty_db <| admin_alerts := {[ 1 := failed_disk_alert ]} |> <| monitor_incidents := {[ 1 := disk_incident ]} |>.

Definition disk_result (s : Severity) : CheckResult := mkCheckResult "disk_space" s "low_disk_space" [].

Lemma disk_sound : sound (world_of disk_db).
Proof.
  apply sound_fresh. split.
  - intros i p. change (payments disk_db) with (∅ : gmap Z Payment). by rewrite lookup_empty.
  - intros i p. change (payments disk_db) with (∅ : gmap Z Payment). by rewrite lookup_empty.
  - apply identities_ok_empty.
  - apply unique_orders_empty.
  - apply unique_col_none.
  - apply unique_col_none.
  - split; [|split|apply unique_col_none].
    + intros k a Ha. change (({[ 1 := failed_disk_alert ]} : gmap Z AdminAlert) !! k = Some a) in Ha.
      apply lookup_singleton_Some in Ha as [<- <-]. by split.
    + intros k i Hi. change (({[ 1 := disk_incident ]} : gmap Z MonitorIncident) !! k = Some i) in Hi.
      apply lookup_singleton_Some in Hi as [<- <-]. by split.
    + intros i j x y v Hx Hy _ _.
      change (({[ 1 := disk_incident ]} : gmap Z MonitorIncident) !! i = Some x) in Hx.
      change (({[ 1 := disk_incident ]} : gmap Z MonitorIncident) !! j = Some y) in Hy. apply lookup_singleton_Some in Hx as [<- _], Hy as [<- _]. done.
Qed.

Definition recorded_transition (s : Severity) : option Transition :=
  match fst (@record_check_result calm_env alerting_settings (disk_result s) (seconds 70) (world_of disk_db)) with
  | Ret tr => Some (transition tr)
  | Raise _ => None
  end.

Example disk_transitions :
  map recorded_transition [OK; WARNING; CRITICAL] = [Some CLOSED; Some ALERT_CAUGHT_UP; Some ESCALATED].
Proof. vm_compute. reflexivity. Qed.

Lemma incident_transition_exact_witness :
  wp (@record_check_result calm_env alerting_settings (disk_result CRITICAL) (seconds 70)) (fun res w' =>
    recorded alerting_settings (disk_result CRITICAL) (seconds 70) (world_of disk_db) res w' /\
    match res with Ret tr => transition tr = ESCALATED | Raise _ => False end) (world_of disk_db).
Proof.
  apply wp_and.
  - apply (@incident_transition_exact calm_env calm_rely alerting_settings (disk_result CRITICAL) (seconds 70)
      (world_of disk_db)); [apply disk_sound|reflexivity].
  - vm_compute. reflexivity.
Defined.

Lemma alerts_only_on_transitions_witness :
  wp (@record_check_result calm_env alerting_settings (disk_result OK) (seconds 70)) (fun res w' =>
    match res with
    | Ret tr => transition tr = CLOSED /\ queues_alert alerting_settings (disk_result OK) (transition tr) = true /\
        exists a d, admin_alerts (committed w') = <[alert_id a := a]> (admin_alerts d)
    | Raise _ => False
    end) (world_of disk_db).
Proof.
  eapply wp_mono; [apply wp_and|].
  - apply (@alerts_only_on_transitions calm_env calm_rely alerting_settings (disk_result OK) (seconds 70)
      (world_of disk_db)); [apply disk_sound|reflexivity].
  - instantiate (1 := fun res _ => match res with Ret tr => transition tr = CLOSED | Raise _ => False end).
    vm_compute. reflexivity.
  - intros [tr|e] w' [H Ht]; [|exact Ht]. split; [exact Ht|]. rewrite Ht in H. destruct H as (d & _ & H & _).
    rewrite Ht. split; [reflexivity|].
    change (queues_alert alerting_settings (disk_result OK) CLOSED) with true in H.
    destruct H as (a & _ & _ & E). by exists a, d.
Defined.

Lemma ongoing_incident_is_reported_witness :
  needs_catchup disk_db disk_incident = true /\
  wp (@record_check_result calm_env alerting_settings (disk_result WARNING) (seconds 70)) (fun res w' =>
    exists i, monitor_incidents (committed w') !! 1 = Some i /\ is_some (last_alerted_at i) = true /\
      forall j a, last_alert_id i = Some j -> admin_alerts (committed w') !! j = Some a ->
        alert_status a <> FAILED) (world_of disk_db).
Proof.
  split; [reflexivity|]. eapply wp_mono; [apply wp_and|].
  - apply (@ongoing_incident_is_reported calm_env calm_rely alerting_settings (disk_result WARNING) (seconds 70)
      (world_of disk_db)); [apply disk_sound|reflexivity|discriminate|reflexivity].
  - instantiate (1 := fun res _ => match res with Ret tr => transition_incident tr = Some 1 | Raise _ => False end).
    vm_compute. reflexivity.
  - intros [tr|e] w' [H Ht]; [|done]. destruct (H tr 1 eq_refl Ht) as (i & Hi & _ & _ & Hl & Hf). by exists i.
Defined.
