(* ===== verification/Heartbeat.v ===== *)
(** The heartbeat rows of the workers ([app/services/heartbeat.py]).

    An instance id is the name of one running process, so nobody else inserts
    its row between the query and the commit. *)

From S2P Require Import Prelude PyText Exceptions Models ServiceTables Session AuditTrail Ledger.

(** [APP_VERSION] of app/version.py. *)
Definition APP_VERSION : string := "0.6.0-rc4".

Section Heartbeat.
Context `{Env}.

(** The row of an instance, with its key. *)
Definition select_heartbeat (iid : string) (d : Db) : option (Z * WorkerHeartbeat) :=
  match List.filter (fun kh => String.eqb (instance_id (snd kh)) iid) (map_to_list (worker_heartbeats d)) with
  | [] => None
  | kh :: _ => Some kh
  end.

(** The assignments at the end. *)
Definition beat (now : Z) (cycle_completed : bool) (error_code : option string) (h : WorkerHeartbeat)
  : WorkerHeartbeat :=
  let h := h <| last_heartbeat_at := now |> in
  let h := if cycle_completed then h <| last_cycle_at := Some now |> <| heartbeat_error_code := None |> else h in
  let h := match error_code with
           | Some e => h <| heartbeat_error_code := Some (str_take 64 e) |>
           | None => h
           end in
  h <| heartbeat_version := Some APP_VERSION |>.

Definition record_worker_heartbeat (wname iid : string) (now : Z) (cycle_completed : bool)
    (error_code : option string) : M unit :=
  begin_tx ;;;
  let* d := get_db in
  let save k h :=
    put_db (d <| worker_heartbeats := <[k := beat now cycle_completed error_code h]> (worker_heartbeats d) |>) ;;;
    commit in
  match select_heartbeat iid d with
  | Some (k, h) => if negb (String.eqb (worker_name h) wname) then rollback else save k h
  | None => save (next_id (worker_heartbeats d)) (mkWorkerHeartbeat wname iid now None None (Some APP_VERSION))
  end.

(** The heartbeat at the end of a turn of a background loop: in a session of
    its own, its failures ignored. *)
Definition loop_heartbeat (wname iid : string) (cycle_completed : bool) (error_code : option string) : M unit :=
  rollback ;;;
  let* now := utcnow in
  try_catch (record_worker_heartbeat wname iid now cycle_completed error_code) (fun _ => ret tt) ;;;
  rollback.
End Heartbeat.

(** ** Facts *)

Lemma beat_fields now ok e h :
  worker_name (beat now ok e h) = worker_name h /\ instance_id (beat now ok e h) = instance_id h /\
  last_heartbeat_at (beat now ok e h) = now /\
  last_cycle_at (beat now ok e h) = (if ok then Some now else last_cycle_at h) /\
  heartbeat_error_code (beat now ok e h) =
    match e with Some e => Some (str_take 64 e) | None => if ok then None else heartbeat_error_code h end.
Proof. unfold beat. by destruct ok, e. Qed.

Lemma select_heartbeat_spec iid d :
  match select_heartbeat iid d with
  | Some (k, h) => worker_heartbeats d !! k = Some h /\ instance_id h = iid
  | None => forall k h, worker_heartbeats d !! k = Some h -> instance_id h <> iid
  end.
Proof.
  unfold select_heartbeat. destruct (List.filter _ _) as [|[k h] l] eqn:E.
  - intros k h Hk Hi.
    assert (Hin : In (k, h) (List.filter (fun kh => String.eqb (instance_id (snd kh)) iid) (map_to_list (worker_heartbeats d)))).
    { apply filter_In. split; [by apply list_elem_of_In, elem_of_map_to_list|by apply String.eqb_eq]. }
    by rewrite E in Hin.
  - assert (Hin : In (k, h) (List.filter (fun kh => String.eqb (instance_id (snd kh)) iid) (map_to_list (worker_heartbeats d))))
      by (rewrite E; by left).
    apply filter_In in Hin as [H1 H2]. split; [by apply elem_of_map_to_list, list_elem_of_In|by apply String.eqb_eq].
Qed.

Definition with_heartbeats (d : Db) (m : gmap Z WorkerHeartbeat) : Db := d <| worker_heartbeats := m |>.

Section HeartbeatFacts.
Context {ENV : Env} {RELY : Rely}.

(** Saving one row: an existing one of that worker and instance, or a new one. *)
Lemma heartbeat_saved_legal (d : Db) k h h0 :
  worker_name h = worker_name h0 -> instance_id h = instance_id h0 ->
  (worker_heartbeats d !! k = Some h0 \/
   worker_heartbeats d !! k = None /\ forall j b, worker_heartbeats d !! j = Some b -> instance_id b <> instance_id h0) ->
  heartbeats_legal (worker_heartbeats d) (<[k := h]> (worker_heartbeats d)).
Proof.
  intros En Ei Hk. split.
  - destruct Hk as [Hk|[Hk _]]; [apply (table_legal_update _ _ _ _ h0); [done|by split]|by apply table_legal_insert].
  - intros U. assert (Hother : forall j b, worker_heartbeats d !! j = Some b -> instance_id b = instance_id h -> j = k).
    { intros j b Hj Hi. destruct Hk as [Hk|[_ Hk]].
      - apply (U j k b h0 (instance_id h)); cbn; try done; by f_equal.
      - destruct (Hk j b Hj). congruence. }
    intros i j x y v. rewrite !lookup_insert. repeat case_decide; subst; try done; cbn; intros Hx Hy [= Ex] [= Ey]; simplify_eq.
    + symmetry. by apply (Hother j y).
    + by apply (Hother i x).
    + by apply (U i j x y (instance_id y)); cbn; f_equal.
Qed.

(** How recording a heartbeat ends, [d] being the database it acted on. *)
Record heartbeat_recorded (wname iid : string) (now : Z) (ok : bool) (e : option string) (d : Db)
    (w w' : World) : Prop := {
  hr_steady : steady w w';
  hr_legal : db_legal (committed w) d;
  hr_calls : calls w' = calls w;
  hr_saved : working w' = committed w';
  hr_result :
    (exists k h, worker_heartbeats d !! k = Some h /\ instance_id h = iid /\ worker_name h <> wname /\
       committed w' = d) \/
    (exists k h, (worker_heartbeats d !! k = Some h \/ worker_heartbeats d !! k = None /\
        h = mkWorkerHeartbeat wname iid now None None (Some APP_VERSION)) /\
       worker_name h = wname /\ instance_id h = iid /\
       committed w' = with_heartbeats d (<[k := beat now ok e h]> (worker_heartbeats d)))
}.

Lemma wp_save_heartbeat wname iid now ok e k h w0 w :
  steady w0 w -> working w = committed w -> calls w = calls w0 ->
  (worker_heartbeats (committed w) !! k = Some h \/
   worker_heartbeats (committed w) !! k = None /\
   (forall j b, worker_heartbeats (committed w) !! j = Some b -> instance_id b <> iid) /\
   h = mkWorkerHeartbeat wname iid now None None (Some APP_VERSION)) ->
  worker_name h = wname -> instance_id h = iid ->
  wp (put_db (with_heartbeats (committed w) (<[k := beat now ok e h]> (worker_heartbeats (committed w)))) ;;; commit)
    (fun res w' => res = Ret tt /\ exists d, heartbeat_recorded wname iid now ok e d w0 w') w.
Proof.
  intros S Hw Hc Hk En Ei. destruct (beat_fields now ok e h) as (B1 & B2 & _).
  apply wp_bind, wp_put_db. intros w1 W.
  assert (S1 : steady w w1).
  { eapply steady_wrote; [exact W|apply S| |]; rewrite Hw; [done|]. split; [reflexivity..|].
    apply (heartbeat_saved_legal _ _ _ h); [done..|]. rewrite Ei. tauto. }
  apply wp_commit. intros w2 C. split; [done|]. exists (committed w).
  split; rewrite ?(cm_committed _ _ C), ?(cm_working _ _ C), ?(wr_working _ _ _ W); try done.
  - eapply steady_trans; [exact S|]. eapply steady_trans; [exact S1|]. eapply steady_commit; [exact C|apply S1].
  - apply S.
  - by rewrite (cm_calls _ _ C), (wr_calls _ _ _ W).
  - right. exists k, h. tauto.
Qed.

Lemma wp_record_worker_heartbeat wname iid now ok e w : sound w -> working w = committed w ->
  wp (record_worker_heartbeat wname iid now ok e)
    (fun res w' => res = Ret tt /\ exists d, heartbeat_recorded wname iid now ok e d w w') w.
Proof.
  intros Hs Hw. unfold record_worker_heartbeat. apply wp_bind, wp_begin_tx. intros w1 B.
  assert (S : steady w w1) by (by eapply steady_began).
  apply wp_bind, wp_get_db. cbv zeta. rewrite (bg_working _ _ B).
  pose proof (select_heartbeat_spec iid (committed w1)) as Hsel.
  destruct (select_heartbeat iid (committed w1)) as [[k h]|].
  - destruct Hsel as [Hk Hi]. destruct (String.eqb (worker_name h) wname) eqn:En; cbn [negb].
    + apply String.eqb_eq in En. apply wp_save_heartbeat; try done; [apply B|apply B|by left].
    + apply String.eqb_neq in En. apply wp_rollback. intros w2 R. split; [done|]. exists (committed w1).
      split; [| |by ws|by ws|].
      * eapply steady_trans; [exact S|]. eapply steady_rollback; [exact R|apply S].
      * apply S.
      * left. exists k, h. by rewrite (rb_committed _ _ R).
  - apply wp_save_heartbeat; try done; [apply B|apply B|]. right. split_and!; [apply next_id_fresh|done|done].
Qed.

(** The heartbeat of a turn never stops its loop, and is recorded. *)
Lemma wp_loop_heartbeat wname iid ok e w : sound w ->
  wp (loop_heartbeat wname iid ok e) (fun res w' => res = Ret tt /\ exists now d, db_legal (committed w) d /\
    heartbeat_recorded wname iid now ok e d w w') w.
Proof.
  intros Hs. unfold loop_heartbeat. apply wp_bind, wp_rollback. intros w2 R2.
  pose proof (steady_rollback _ _ R2 Hs) as S2. apply wp_bind, wp_utcnow. intros now w3 T3.
  pose proof (steady_called _ _ _ T3 (proj1 S2)) as S3. apply wp_bind, wp_try.
  eapply wp_mono; [apply wp_record_worker_heartbeat; [apply S3|by ws]|].
  intros res' w4 (-> & d & HB). apply wp_rollback. intros w5 R5. split; [done|]. exists now, d.
  assert (E : committed w3 = committed w) by (by ws). pose proof (hr_legal _ _ _ _ _ _ _ _ HB) as L. rewrite E in L.
  split; [done|]. split; rewrite ?(rb_committed _ _ R5), ?(rb_working _ _ R5); try done; [| |apply HB].
  - eapply steady_trans; [exact S2|]. eapply steady_trans; [exact S3|]. eapply steady_trans; [apply HB|].
    eapply steady_rollback; [exact R5|apply HB].
  - rewrite (rb_calls _ _ R5), (hr_calls _ _ _ _ _ _ _ _ HB). by ws.
Qed.

(** A heartbeat keeps exactly its own worker alive. Recording one never
    raises; rows of other workers are untouched, whatever instance id is
    passed. Unless the instance belongs to another worker, which changes
    nothing, afterwards the latest heartbeat of the worker is not older than
    [now], and a completed cycle leaves no error code on the row. *)
Theorem heartbeat_refreshes_its_worker wname iid now ok e w : sound w -> working w = committed w ->
  wp (record_worker_heartbeat wname iid now ok e) (fun res w' => res = Ret tt /\
    exists d, db_legal (committed w) d /\
      (forall k h, worker_name h <> wname ->
         (worker_heartbeats (committed w') !! k = Some h <-> worker_heartbeats d !! k = Some h)) /\
      ((exists k h, worker_heartbeats d !! k = Some h /\ instance_id h = iid /\ worker_name h <> wname /\
          committed w' = d) \/
       (exists k h, worker_heartbeats (committed w') !! k = Some h /\ worker_name h = wname /\
          instance_id h = iid /\ last_heartbeat_at h = now /\
          (ok = true -> last_cycle_at h = Some now /\ (e = None -> heartbeat_error_code h = None)) /\
          (forall err, e = Some err -> heartbeat_error_code h = Some (str_take 64 err))))) w.
Proof.
  intros Hs Hw. eapply wp_mono; [by apply wp_record_worker_heartbeat|].
  intros res w' [-> [d R]]. split; [done|]. exists d. split; [apply R|].
  destruct (hr_result _ _ _ _ _ _ _ _ R) as [(k & h & Hk & Hi & Hn & E)|(k & h & Hk & Hn & Hi & E)].
  - split; [by rewrite E|]. left. eauto 6.
  - rewrite E. cbn. destruct (beat_fields now ok e h) as (B1 & B2 & B3 & B4 & B5). split.
    + intros j b Hb. rewrite lookup_insert. case_decide as Hj; [|done]. subst j. split.
      * intros [= <-]. by rewrite B1, Hn in Hb.
      * intros Hb'. destruct Hk as [Hk|[Hk _]]; congruence.
    + right. exists k, (beat now ok e h). rewrite lookup_insert_eq, B1, B2, B3, B4, B5. split_and!; try done.
      * intros ->. split; [done|]. by intros ->.
      * by intros err ->.
Qed.
End HeartbeatFacts.

(** ** Witness *)

Definition failing_heartbeat : WorkerHeartbeat :=
  mkWorkerHeartbeat "notification-worker" "host-1" (seconds 10) None (Some "OperationalError") None.

Definition beating_db : Db := empty_db <| worker_heartbeats := {[ 1 := failing_heartbeat ]} |>.

Lemma beating_sound : sound (world_of beating_db).
Proof.
  apply sound_fresh. split.
  - intros i p. change (payments beating_db) with (∅ : gmap Z Payment). by rewrite lookup_empty.
  - intros i p. change (payments beating_db) with (∅ : gmap Z Payment). by rewrite lookup_empty.
  - apply identities_ok_empty.
  - apply unique_orders_empty.
  - apply unique_col_none.
  - apply unique_col_none.
  - split.
    + intros k a. change (admin_alerts beating_db) with (∅ : gmap Z AdminAlert). by rewrite lookup_empty.
    + split; [|apply unique_col_none]. intros k i. change (monitor_incidents beating_db) with (∅ : gmap Z MonitorIncident).
      by rewrite lookup_empty.
    + intros i j x y v Hx Hy _ _.
      change (({[ 1 := failing_heartbeat ]} : gmap Z WorkerHeartbeat) !! i = Some x) in Hx.
      change (({[ 1 := failing_heartbeat ]} : gmap Z WorkerHeartbeat) !! j = Some y) in Hy.
      apply lookup_singleton_Some in Hx as [<- _], Hy as [<- _]. done.
Qed.

Lemma heartbeat_refreshes_its_worker_witness :
  wp (record_worker_heartbeat "notification-worker" "host-1" (seconds 70) true None) (fun res w' =>
    exists k h, worker_heartbeats (committed w') !! k = Some h /\ last_heartbeat_at h = seconds 70 /\
      heartbeat_error_code h = None) (world_of beating_db).
Proof.
  eapply wp_mono; [apply wp_and|].
  - apply (@heartbeat_refreshes_its_worker calm_env calm_rely "notification-worker" "host-1" (seconds 70) true None);
      [apply beating_sound|reflexivity].
  - instantiate (1 := fun _ w' => worker_heartbeats (committed w') = {[ 1 := beat (seconds 70) true None failing_heartbeat ]}).
    vm_compute. reflexivity.
  - cbv beta. intros res w' [(_ & d & _ & _ & H) Em].
    destruct H as [(k & h & Hk & _ & Hn & E)|(k & h & Hk & _ & _ & Ht & Ho & _)].
    + exfalso. rewrite <- E, Em in Hk. apply lookup_singleton_Some in Hk as [_ <-]. by apply Hn.
    + exists k, h. destruct (Ho eq_refl) as [_ He]. auto.
Defined.
