(* ===== verification/ReconStatus.v ===== *)
(** The read-only status of reconciliation
    ([app/services/reconciliation_status.py]): how many payments reconciliation
    could still consider, how many are due, exhausted or waiting, and whether
    its worker is alive.

    Every predicate is the one [Reconciliation] selects with. The time an
    event was recorded is a parameter ([EventTimes]). *)

From S2P Require Import Prelude PyText Exceptions Config Models ServiceTables Session AuditTrail Ledger.
From S2P Require Import Urls CentralPay Security PayerIdentity Payments Bot Notification Verification.
From S2P Require Import Reconciliation Attention Stuck.

Definition RECONCILIATION_WORKER_NAME : string := "reconciliation-worker".

(** [payment_events.created_at], of the event of an id. *)
Class EventTimes := event_created_at : Z -> Z.

(** The events with their ids, newest first. *)
Fixpoint numbered (l : list PaymentEvent) : list (Z * PaymentEvent) :=
  match l with [] => [] | e :: l' => (Z.of_nat (length l), e) :: numbered l' end.

(** [latest_worker_heartbeat] of queries.py. *)
Definition later_heartbeat (a b : WorkerHeartbeat) : bool := last_heartbeat_at b <=? last_heartbeat_at a.

Definition latest_worker_heartbeat (d : Db) (name : string) : option WorkerHeartbeat :=
  pick_min later_heartbeat
    (List.filter (fun h => String.eqb (worker_name h) name) (rows (worker_heartbeats d))).

Definition age_seconds (value : option Z) (now : Z) : option Z := option_map (fun t => now - t) value.

(** [_oldest_age]: the larger of the ages present. *)
Definition oldest_age (a b : option Z) : option Z :=
  match a, b with
  | Some x, Some y => Some (Z.max x y)
  | Some x, None => Some x
  | None, _ => b
  end.

Record ReconciliationRuntime := mkRuntime {
  runtime_enabled : bool;
  config_source : string;
  heartbeat_present : bool;
  heartbeat_age_seconds : option Z;
  heartbeat_fresh : option bool;
  last_successful_cycle_at : option Z;
  last_successful_cycle_age : option Z;
  runtime_error_code : option string
}.

Record PaymentBuckets := mkBuckets {
  total_unverified : Z;
  bucket_active : Z;
  bucket_expiring : Z;
  bucket_aged_out : Z
}.

Record QueueHealth := mkQueueHealth {
  active_due : Z;
  expiring_due : Z;
  exhausted_not_aged_out : Z;
  oldest_active_due_age : option Z;
  oldest_expiring_due_age : option Z;
  oldest_due_age : option Z;
  oldest_overdue : option Z;
  exhausted_recent : Z;
  exhausted_actionable_total : Z;
  exhausted_historical_total : Z
}.

Record RecentStats := mkRecentStats {
  window_hours : Z;
  recent_verified : Z;
  recent_retry_scheduled : Z;
  recent_gateway_not_paid : Z;
  recent_transport_failed : Z;
  recent_exhausted : Z
}.

Record StatusSnapshot := mkSnapshot {
  generated_at : Z;
  snapshot_runtime : ReconciliationRuntime;
  snapshot_buckets : PaymentBuckets;
  snapshot_queue : QueueHealth;
  snapshot_recent : RecentStats
}.

(** [_detect_config_source], from the modification time of the worker's
    liveness file ([None] when it cannot be read) and the time. *)
Definition detect_config_source (mtime : option Z) (time : Z) : string :=
  match mtime with
  | Some t => if time - t <? seconds 120 then "worker_container_process_env" else "process_environment"
  | None => "process_environment"
  end.

Section Snapshot.
Context `{EventTimes}.
Variables (settings : Settings) (now : Z).

(** [_runtime]. *)
Definition status_runtime (mtime : option Z) (time : Z) (d : Db) : ReconciliationRuntime :=
  let heartbeat := latest_worker_heartbeat d RECONCILIATION_WORKER_NAME in
  let age := age_seconds (option_map last_heartbeat_at heartbeat) now in
  let fresh :=
    if negb (reconciliation_enabled settings) then None
    else match heartbeat with
         | Some _ =>
             let threshold := Z.max (reconciliation_interval settings * 6) (seconds 120) in
             Some (match age with Some a => a <? threshold | None => false end)
         | None => Some false
         end in
  let last_cycle := match heartbeat with Some h => last_cycle_at h | None => None end in
  mkRuntime (reconciliation_enabled settings) (detect_config_source mtime time) (is_some heartbeat) age fresh
    last_cycle (age_seconds last_cycle now)
    (match heartbeat with Some h => heartbeat_error_code h | None => None end).

(** [_buckets]. *)
Definition status_buckets (d : Db) : PaymentBuckets :=
  let active := count_where (active_tier_age_conditions settings now) d in
  let expiring := count_where (expiring_tier_age_conditions settings now) d in
  let aged_out := count_where (aged_out_conditions settings now) d in
  mkBuckets (active + expiring + aged_out) active expiring aged_out.

(** [oldest_by]. *)
Definition oldest_by (anchor : Payment -> Z) (flt : Payment -> bool) (d : Db) : option Z :=
  age_seconds (column_min (map (fun p => Some (anchor p)) (payments_where flt d))) now.

(** [_queue]. *)
Definition status_queue (d : Db) : QueueHealth :=
  let window := monitor_reconciliation_exhausted_recent_window_seconds settings in
  let active := active_tier_due_conditions settings now in
  let expiring := expiring_tier_due_conditions settings now in
  let oldest_active := oldest_by link_age_anchor active d in
  let oldest_expiring := oldest_by link_age_anchor expiring d in
  mkQueueHealth
    (count_where active d) (count_where expiring d)
    (count_where (reconciliation_exhausted_conditions settings now) d)
    oldest_active oldest_expiring (oldest_age oldest_active oldest_expiring)
    (oldest_age (oldest_by due_since active d) (oldest_by due_since expiring d))
    (count_where (reconciliation_recently_exhausted_conditions settings now window) d)
    (count_where (reconciliation_actionable_exhausted_conditions settings now window) d)
    (count_where (reconciliation_exhausted_ever_conditions settings) d).

(** [_recent_stats]: [GROUP BY event_type] over the window, read per type. *)
Definition recent_events (hours : Z) (d : Db) : list PaymentEvent :=
  map snd (List.filter (fun ne : Z * PaymentEvent => now - seconds (hours * 3600) <=? event_created_at (fst ne))
             (numbered (payment_events d))).

Definition status_recent_stats (hours : Z) (d : Db) : RecentStats :=
  let n etype := Z.of_nat (length (List.filter (fun e => String.eqb (event_type e) etype) (recent_events hours d))) in
  mkRecentStats hours (n "reconciliation_verified") (n "reconciliation_retry_scheduled")
    (n "reconciliation_gateway_not_paid") (n "reconciliation_transport_failed") (n "reconciliation_exhausted").

(** [build_reconciliation_status_snapshot]; its echo of the settings is left
    out. *)
Definition build_reconciliation_status_snapshot (mtime : option Z) (time hours : Z) (d : Db) : StatusSnapshot :=
  mkSnapshot now (status_runtime mtime time d) (status_buckets d) (status_queue d) (status_recent_stats hours d).
End Snapshot.

(** ** Facts *)

Lemma count_where_union f g d :
  count_where f d + count_where g d
  = count_where (fun p => f p || g p) d + count_where (fun p => f p && g p) d.
Proof.
  unfold count_where, payments_where. induction (rows (payments d)) as [|p l IH]; cbn; [done|].
  destruct (f p), (g p); cbn; lia.
Qed.

Lemma count_where_and f g d :
  0 <= count_where (fun p => f p && g p) d <= Z.min (count_where f d) (count_where g d).
Proof.
  unfold count_where, payments_where. induction (rows (payments d)) as [|p l IH]; cbn; [done|].
  destruct (f p), (g p); cbn; lia.
Qed.

Lemma count_where_none f d : (forall p, f p = false) -> count_where f d = 0.
Proof.
  intros E. unfold count_where, payments_where. induction (rows (payments d)) as [|p l IH]; cbn; [done|].
  by rewrite E.
Qed.

Lemma count_where_disjoint f g d : (forall p, f p && g p = false) ->
  count_where f d + count_where g d = count_where (fun p => f p || g p) d.
Proof. intros E. rewrite count_where_union, (count_where_none (fun p => f p && g p)) by done. lia. Qed.

(** The oldest age: the largest, taken by some row. *)
Lemma column_min_spec l :
  match column_min (map Some l) with
  | None => l = []
  | Some m => In m l /\ forall x, In x l -> m <= x
  end.
Proof.
  induction l as [|a l IH]; [done|]. cbn. unfold column_min in *. cbn.
  destruct (fold_right _ None (map Some l)) as [m|].
  - destruct IH as [Hin Hle]. split.
    + destruct (Z.min_spec a m) as [[_ ->]|[_ ->]]; auto.
    + intros x [->|Hx]; [lia|]. specialize (Hle x Hx). lia.
  - subst. cbn. split; [by left|]. intros x [->|[]]. lia.
Qed.

Definition oldest_of (now : Z) (anchor : Payment -> Z) (flt : Payment -> bool) (d : Db) (o : option Z) : Prop :=
  match o with
  | None => forall i p, payments d !! i = Some p -> flt p = false
  | Some a => (exists i p, payments d !! i = Some p /\ flt p = true /\ now - anchor p = a) /\
              forall i p, payments d !! i = Some p -> flt p = true -> now - anchor p <= a
  end.

Lemma oldest_by_spec now anchor flt d : oldest_of now anchor flt d (oldest_by now anchor flt d).
Proof.
  unfold oldest_by, age_seconds. rewrite <- (map_map anchor Some).
  pose proof (column_min_spec (map anchor (payments_where flt d))) as H.
  assert (Hrows : forall i p, payments d !! i = Some p -> flt p = true -> In p (payments_where flt d)).
  { intros i p Hp Hf. apply filter_In. split; [apply in_rows; eauto|done]. }
  destruct (column_min _) as [m|]; cbn.
  - destruct H as [(p & <- & Hin)%in_map_iff Hle]. split.
    + apply filter_In in Hin as [[i Hi]%in_rows Hf]. by exists i, p.
    + intros i q Hq Hf. specialize (Hle (anchor q) (in_map anchor _ _ (Hrows i q Hq Hf))). lia.
  - apply map_eq_nil in H. intros i p Hp. apply not_true_iff_false. intros Hf.
    specialize (Hrows i p Hp Hf). by rewrite H in Hrows.
Qed.

Lemma oldest_of_or now anchor f g d a b : oldest_of now anchor f d a -> oldest_of now anchor g d b ->
  oldest_of now anchor (fun p => f p || g p) d (oldest_age a b).
Proof.
  destruct a as [a|], b as [b|]; cbn.
  - intros [(i & p & Hp & Hf & Ha) Hle] [(j & q & Hq & Hg & Hb) Hle']. split.
    + destruct (Z.max_spec a b) as [[_ ->]|[_ ->]]; [exists j, q|exists i, p]; rewrite ?Hf, ?Hg, ?orb_true_r; done.
    + intros k r Hr [Hfr|Hgr]%orb_true_iff; [specialize (Hle k r Hr Hfr)|specialize (Hle' k r Hr Hgr)]; lia.
  - intros [(i & p & Hp & Hf & Ha) Hle] Hn. split.
    + exists i, p. by rewrite Hf.
    + intros k r Hr. rewrite (Hn k r Hr), orb_false_r. by apply Hle with k.
  - intros Hn [(i & p & Hp & Hf & Ha) Hle]. split.
    + exists i, p. by rewrite Hf, orb_true_r.
    + intros k r Hr. rewrite (Hn k r Hr). by apply Hle with k.
  - intros H1 H2 i p Hp. by rewrite (H1 i p Hp), (H2 i p Hp).
Qed.

(** The payments reconciliation could ever consider. *)
Definition unverified_link (p : Payment) : bool :=
  bool_decide (status p = LINK_CREATED) && is_none (gateway_verified_at p).

(** Ages against the bounds of the tiers, case by case. *)
Ltac tier_cases :=
  unfold active_tier_due_conditions, expiring_tier_due_conditions, tier_due_conditions,
    active_tier_age_conditions, expiring_tier_age_conditions, tier_age_conditions, aged_out_conditions,
    aged_out_age_condition, unverified_link, seconds;
  destruct (bool_decide _), (is_none _); cbn; try done;
  repeat match goal with
         | |- context [?a <=? ?b] => destruct (Z.leb_spec a b)
         | |- context [?a <? ?b] => destruct (Z.ltb_spec a b)
         end; cbn; rewrite ?andb_false_r; try done; lia.

Section SnapshotFacts.
Context {TIMES : EventTimes}.
Variables (settings : Settings) (now : Z).
Hypothesis Hvalid : settings_valid settings = true.

Lemma window_below_age : reconciliation_fast_window_seconds settings < reconciliation_max_age_seconds settings.
Proof. unfold settings_valid, validate_bot_settings in Hvalid. by bool_to_prop. Qed.

Lemma buckets_partition d :
  total_unverified (status_buckets settings now d) = count_where unverified_link d.
Proof.
  pose proof window_below_age as Hw. cbn.
  rewrite count_where_disjoint, count_where_disjoint.
  - apply count_where_ext. intros p. tier_cases.
  - intros p. tier_cases.
  - intros p. tier_cases.
Qed.

Lemma due_tiers_disjoint p :
  active_tier_due_conditions settings now p && expiring_tier_due_conditions settings now p = false.
Proof. pose proof window_below_age as Hw. tier_cases. Qed.

(** The status report is the worker's own view. Its unverified total is
    every payment with an unverified link, each in one age bucket; its due
    counts add up to the payments the worker may claim now; the actionable
    exhausted count is the exact union of the exhausted payments within the
    lifetime and of those that gave up recently, each counted once, so it lies
    between the larger of the two counts and their sum; and the longest wait
    is the largest time some claimable payment has been due. *)
Theorem snapshot_agrees_with_worker mtime time hours d :
  let s := build_reconciliation_status_snapshot settings now mtime time hours d in
  let q := snapshot_queue s in
  let window := monitor_reconciliation_exhausted_recent_window_seconds settings in
  total_unverified (snapshot_buckets s) = count_where unverified_link d /\
  active_due q + expiring_due q = count_where (due settings now) d /\
  exhausted_actionable_total q
    = count_where (fun p => reconciliation_exhausted_conditions settings now p
                            || reconciliation_recently_exhausted_conditions settings now window p) d /\
  Z.max (exhausted_not_aged_out q) (exhausted_recent q) <= exhausted_actionable_total q
    <= exhausted_not_aged_out q + exhausted_recent q /\
  oldest_of now due_since (due settings now) d (oldest_overdue q).
Proof.
  unfold build_reconciliation_status_snapshot. cbv zeta. cbn [snapshot_queue snapshot_buckets]. set (window := monitor_reconciliation_exhausted_recent_window_seconds settings).
  assert (E : exhausted_actionable_total (status_queue settings now d)
    = count_where (fun p => reconciliation_exhausted_conditions settings now p
                            || reconciliation_recently_exhausted_conditions settings now window p) d).
  { apply count_where_ext. intros p. unfold reconciliation_actionable_exhausted_conditions,
      reconciliation_exhausted_conditions, reconciliation_recently_exhausted_conditions,
      reconciliation_exhausted_ever_conditions.
    destruct (bool_decide _), (is_none (gateway_verified_at p)), (is_none (reconciliation_next_at p)),
      (reconciliation_max_attempts settings <=? _), (aged_out_age_condition settings now p); done. }
  split_and!.
  - apply buckets_partition.
  - cbn. rewrite count_where_disjoint; [done|apply due_tiers_disjoint].
  - exact E.
  - rewrite E. cbn. fold window.
    pose proof (count_where_union (reconciliation_exhausted_conditions settings now)
                  (reconciliation_recently_exhausted_conditions settings now window) d) as U.
    pose proof (count_where_and (reconciliation_exhausted_conditions settings now)
                  (reconciliation_recently_exhausted_conditions settings now window) d). lia.
  - rewrite E. cbn. fold window.
    pose proof (count_where_union (reconciliation_exhausted_conditions settings now)
                  (reconciliation_recently_exhausted_conditions settings now window) d) as U.
    pose proof (count_where_and (reconciliation_exhausted_conditions settings now)
                  (reconciliation_recently_exhausted_conditions settings now window) d). lia.
  - apply (oldest_of_or now due_since (active_tier_due_conditions settings now)
             (expiring_tier_due_conditions settings now)); apply oldest_by_spec.
Qed.
End SnapshotFacts.

(** ** Witness *)

(** One payment a minute old and due, one exhausted ten minutes ago. *)
Definition watched_db : Db := db_of
  [example_payment <| callback_token_issued_at := Some (seconds 940) |>;
   example_payment <| id := 2 |> <| bot_order_id := "order-2" |> <| gateway_order_id := 700002 |>
     <| callback_token_issued_at := Some (seconds 100) |> <| reconciliation_attempts := 1000 |>
     <| reconciliation_last_at := Some (seconds 400) |>].

Lemma snapshot_agrees_with_worker_witness :
  settings_valid default_settings = true /\
  let q := snapshot_queue (@build_reconciliation_status_snapshot (fun _ => 0) default_settings (seconds 1000) None 0 24
             watched_db) in
  active_due q = 1 /\ exhausted_not_aged_out q = 1 /\ exhausted_recent q = 1 /\
  1 <= exhausted_actionable_total q <= 2.
Proof.
  split; [reflexivity|]. split_and!; [vm_compute; reflexivity..| |].
  - pose proof (@snapshot_agrees_with_worker (fun _ => 0) default_settings (seconds 1000) eq_refl None 0 24 watched_db)
      as (_ & _ & _ & [H _] & _).
    eapply Z.le_trans; [|exact H]. vm_compute. discriminate.
  - pose proof (@snapshot_agrees_with_worker (fun _ => 0) default_settings (seconds 1000) eq_refl None 0 24 watched_db)
      as (_ & _ & _ & [_ H] & _).
    eapply Z.le_trans; [exact H|]. vm_compute. discriminate.
Defined.
