(* ===== verification/BackupCheck.v ===== *)
(** The freshness of the backups as the monitor sees it: [check_backup] and
    the manifest reader of [app/services/monitor_checks.py].

    What the file system holds is data: the listing of the backup directory
    and, per file, what [stat] and the sidecars answer. File names are
    Latin-1; the contents of a manifest are bytes. *)

From S2P Require Import Prelude PyText Exceptions Config Models Session Security Unicode Incidents.

Definition BACKUP_MANIFEST_MAX_BYTES : nat := Z.to_nat 4096.

Definition BACKUP_MANIFEST_REQUIRED_KEYS : list text :=
  map u ["backup_file"; "sha256"; "size_bytes"; "validation"].

(** What is found at the path of the manifest. *)
Inductive Manifest :=
  | ManifestAbsent                       (* nothing, or not a regular file *)
  | ManifestSymlink
  | ManifestStatError (cls : string)     (* [is_symlink] or [is_file] raises [OSError] *)
  | ManifestUnreadable                   (* opening or reading raises [OSError] *)
  | ManifestBytes (content : list Z).

(** [stat]: modification time and size, or an [OSError]. *)
Inductive Stat := StatOk (mtime size : Z) | StatError (cls : string).

(** An entry of the directory. [stat] is asked twice, once for the newest
    file and once more of that file. *)
Record BackupEntry := mkBackupEntry {
  entry_name : string;
  entry_is_file : bool;
  entry_has_ok : bool;
  entry_stat : Stat;
  entry_restat : Stat;
  entry_manifest : Manifest
}.

Inductive BackupDir := DirError (cls : string) | DirEntries (l : list BackupEntry).

(** [int(s)]: digits, single underscores between them, a sign, and white
    space around. [wide_digit] is the value of the decimal digits beyond
    ASCII. *)
Section PythonInt.
Variable wide_digit : Z -> option Z.

Definition digit_value (c : Z) : option Z :=
  if ascii_digit c then Some (c - 48) else if c <? 128 then None else wide_digit c.

Fixpoint int_digits (value : Z) (after_digit : bool) (s : text) : option Z :=
  match s with
  | [] => if after_digit then Some value else None
  | c :: s' =>
      if c =? 95 then if after_digit then int_digits value false s' else None
      else match digit_value c with
           | Some d => int_digits (value * 10 + d) true s'
           | None => None
           end
  end.

Definition python_int (s : text) : option Z :=
  match text_strip s with
  | c :: s' =>
      if c =? 45 then option_map Z.opp (int_digits 0 false s')
      else if c =? 43 then int_digits 0 false s'
      else int_digits 0 false (c :: s')
  | [] => None
  end.
End PythonInt.

(** [fields.get(key)]; the lines of a manifest, first to last. *)
Fixpoint field (k : text) (fields : list (text * text)) : option text :=
  match fields with
  | [] => None
  | (k', v) :: fields' => if text_eqb k k' then Some v else field k fields'
  end.

(** The loop over the lines. *)
Fixpoint manifest_lines (lines : list text) (fields : list (text * text)) : option (list (text * text)) :=
  match lines with
  | [] => Some fields
  | line :: lines' =>
      if text_eqb (text_strip line) [] then manifest_lines lines' fields
      else match text_partition 61 line with
           | Some (k, v) =>
               if is_some (field k fields) then None else manifest_lines lines' (fields ++ [(k, v)])
           | None => None
           end
  end.

(** [_parse_backup_manifest]. *)
Definition parse_backup_manifest (m : Manifest) : option (list (text * text)) :=
  match m with
  | ManifestBytes raw =>
      if (BACKUP_MANIFEST_MAX_BYTES <? length raw)%nat then None
      else match utf8_decode true raw with
           | Some content => manifest_lines (text_split 10 content) []
           | None => None
           end
  | _ => None
  end.

Definition lower_hex (c : Z) : bool := ascii_digit c || ((97 <=? c) && (c <=? 102)).

(** [^[0-9a-f]{64}$]: [$] also matches before a final newline, which a value
    cannot hold. *)
Definition sha256_shape (s : text) : bool :=
  let s' := match rev s with c :: r => if c =? 10 then rev r else s | [] => s end in
  (length s' =? 64)%nat && forallb lower_hex s'.

Section Backup.
Variable wide_digit : Z -> option Z.

(** [_backup_manifest_issue]; an [OSError] of the path tests escapes it. *)
Definition backup_manifest_issue (name : string) (dump_size : Z) (m : Manifest) : string + option string :=
  match m with
  | ManifestStatError cls => inl cls
  | ManifestSymlink | ManifestAbsent => inr (Some "manifest_missing")
  | _ =>
      inr (match parse_backup_manifest m with
           | None => Some "manifest_malformed"
           | Some fields =>
               if existsb (fun k => is_none (field k fields)) BACKUP_MANIFEST_REQUIRED_KEYS
               then Some "manifest_malformed"
               else
                 let get k := default [] (field (u k) fields) in
                 if negb (text_eqb (get "backup_file") (u name)) then Some "manifest_filename_mismatch"
                 else if negb (sha256_shape (get "sha256")) then Some "manifest_checksum_shape_invalid"
                 else match python_int wide_digit (get "size_bytes") with
                      | None => Some "manifest_malformed"
                      | Some n =>
                          if negb (n =? dump_size) then Some "manifest_size_mismatch"
                          else if negb (text_eqb (get "validation") (u "passed"))
                               then Some "manifest_malformed" else None
                      end
           end)
  end.

(** [glob("centralpay-*.dump")]. *)
Definition backup_glob (name : string) : bool :=
  String.prefix "centralpay-" name &&
  String.eqb (str_drop (String.length name - 5) name) ".dump" &&
  (16 <=? String.length name)%nat.

Definition candidate (e : BackupEntry) : bool :=
  backup_glob (entry_name e) && entry_is_file e && entry_has_ok e.

(** [max(candidates, key=mtime)]: the first of the newest, or the first
    [OSError]. *)
Fixpoint newest_entry (best : BackupEntry) (best_mtime : Z) (l : list BackupEntry)
  : string + BackupEntry :=
  match l with
  | [] => inr best
  | e :: l' =>
      match entry_stat e with
      | StatError cls => inl cls
      | StatOk t _ => if best_mtime <? t then newest_entry e t l' else newest_entry best best_mtime l'
      end
  end.

Definition newest (l : list BackupEntry) : string + BackupEntry :=
  match l with
  | [] => inl "ValueError"
  | e :: l' => match entry_stat e with StatError cls => inl cls | StatOk t _ => newest_entry e t l' end
  end.

(** [check_backup]; ages in the details stay in microseconds. *)
Definition check_backup (settings : Settings) (dir : BackupDir) (now : Z) : CheckResult :=
  let here := JStr (centralpay_backup_dir settings) in
  let unreadable cls :=
    mkCheckResult "backup" CRITICAL "backup_dir_unreadable" [("backup_dir", here); ("error", JStr cls)] in
  match dir with
  | DirError cls => unreadable cls
  | DirEntries l =>
      match List.filter candidate l with
      | [] => mkCheckResult "backup" CRITICAL "no_valid_backup_found" [("backup_dir", here)]
      | candidates =>
          match newest candidates with
          | inl cls => unreadable cls
          | inr e =>
              match entry_restat e with
              | StatError cls => unreadable cls
              | StatOk mtime size =>
                  match backup_manifest_issue (entry_name e) size (entry_manifest e) with
                  | inl cls => unreadable cls
                  | inr (Some issue) =>
                      mkCheckResult "backup" CRITICAL "backup_manifest_invalid"
                        [("newest_backup", JStr (entry_name e)); ("manifest_issue", JStr issue)]
                  | inr None =>
                      let age := now - mtime in
                      let details := [("newest_backup", JStr (entry_name e)); ("age_seconds", JInt age)] in
                      if seconds (monitor_backup_critical_age_seconds settings) <=? age
                      then mkCheckResult "backup" CRITICAL "backup_stale" details
                      else if seconds (monitor_backup_warning_age_seconds settings) <=? age
                      then mkCheckResult "backup" WARNING "backup_aging" details
                      else mkCheckResult "backup" OK "healthy" details
                  end
              end
          end
      end
  end.
End Backup.

(** ** Manifests as they are written *)

Definition manifest_line (kv : text * text) : text := fst kv ++ 61 :: snd kv.

Definition manifest_text (fields : list (text * text)) : text :=
  flat_map (fun kv => manifest_line kv ++ [10]) fields.

(** [write_manifest] of scripts/backup.sh: one line per [echo]. *)
Definition write_manifest (name sha : string) (size : Z) (created app_version postgres revision : text)
  : list (text * text) :=
  [(u "backup_file", u name); (u "sha256", u sha); (u "size_bytes", u (str_of_int size));
   (u "created_at", created); (u "app_version", app_version); (u "postgres_version", postgres);
   (u "alembic_revision", revision); (u "validation", u "passed")].

(** A key without [=], and neither part with a line end. *)
Definition plain_field (kv : text * text) : bool :=
  lacks 61 (fst kv) && lacks 10 (fst kv) && lacks 10 (snd kv).

(** ** Facts *)

Lemma drop_while_keeps p c s : In c s -> p c = false -> In c (drop_while p s).
Proof.
  intros Hin Hc. induction s as [|x s IH]; [done|]. cbn. destruct (p x) eqn:E; [|done].
  destruct Hin as [->|Hin]; [congruence|auto].
Qed.

Lemma text_strip_nonblank c s : In c s -> white c = false -> text_strip s <> [].
Proof.
  intros Hin Hc E.
  assert (H : In c (rev (drop_while white (rev (drop_while white s))))).
  { apply in_rev. rewrite rev_involutive. apply drop_while_keeps; [|done]. apply in_rev.
    rewrite rev_involutive. by apply drop_while_keeps. }
  change (In c (text_strip s)) in H. by rewrite E in H.
Qed.

Lemma drop_while_id p s : forallb (fun c => negb (p c)) s = true -> drop_while p s = s.
Proof. destruct s as [|c s]; [done|]. cbn. by destruct (p c). Qed.

Lemma text_strip_id s : forallb (fun c => negb (white c)) s = true -> text_strip s = s.
Proof.
  intros H. change (text_strip s) with (rev (drop_while white (rev (drop_while white s)))).
  rewrite (drop_while_id white s H), drop_while_id, rev_involutive; [done|].
  rewrite forallb_forall in *. intros c Hc%in_rev. auto.
Qed.

Lemma manifest_lines_field kv lines fields : lacks 61 (fst kv) = true ->
  manifest_lines (manifest_line kv :: lines) fields
  = if is_some (field (fst kv) fields) then None else manifest_lines lines (fields ++ [kv]).
Proof.
  intros Hk. cbn [manifest_lines]. unfold text_eqb at 1. rewrite bool_decide_false.
  - unfold manifest_line. rewrite text_partition_app by done. by destruct kv.
  - apply (text_strip_nonblank 61); [|done]. unfold manifest_line. apply in_app_iff. right. by left.
Qed.

Lemma field_absent k fields : ~ In k (map fst fields) -> field k fields = None.
Proof.
  induction fields as [|[k' v] fields IH]; [done|]. cbn. unfold text_eqb. case_bool_decide; [subst; tauto|tauto].
Qed.

Lemma field_found k v fields : field k fields = Some v -> In (k, v) fields.
Proof.
  induction fields as [|[k' v'] fields IH]; [done|]. cbn. unfold text_eqb. case_bool_decide; [|by right; auto].
  intros [= <-]. subst. by left.
Qed.

(** Complete lines, each of a new key, are read back in order. *)
Lemma manifest_lines_complete kvs lines fields :
  forallb plain_field kvs = true -> NoDup (map fst (fields ++ kvs)) ->
  manifest_lines (map manifest_line kvs ++ lines) fields = manifest_lines lines (fields ++ kvs).
Proof.
  revert fields. induction kvs as [|kv kvs IH]; intros fields; cbn [map app forallb]; [by rewrite app_nil_r|].
  intros [Hkv Hkvs]%andb_true_iff Hnd. unfold plain_field in Hkv. bool_to_prop.
  rewrite manifest_lines_field by done. rewrite field_absent.
  - cbn [is_some]. rewrite IH; rewrite <- ?app_assoc; done.
  - rewrite map_app in Hnd. cbn in Hnd. apply NoDup_app in Hnd as (_ & Hd & _). intros Hin.
    rewrite <- list_elem_of_In in Hin. apply (Hd _ Hin). by left.
Qed.

Lemma lacks_line kv : plain_field kv = true -> lacks 10 (manifest_line kv) = true.
Proof.
  unfold plain_field, manifest_line. intros H. bool_to_prop. rewrite lacks_app, lacks_cons. by rewrite !andb_true_iff.
Qed.

Lemma text_split_manifest kvs s : forallb plain_field kvs = true -> lacks 10 s = true ->
  text_split 10 (manifest_text kvs ++ s) = map manifest_line kvs ++ [s].
Proof.
  intros Hk Hs. induction kvs as [|kv kvs IH]; [by apply text_split_lacks|].
  cbn [forallb manifest_text flat_map map app] in *. apply andb_true_iff in Hk as [Hkv Hk].
  rewrite <- !app_assoc. cbn [app]. rewrite text_split_app by (by apply lacks_line). f_equal. by apply IH.
Qed.

(** A prefix of a manifest: complete lines, and a part of the next one. *)
Lemma manifest_prefix kvs n : (n < length (manifest_text kvs))%nat ->
  exists pre kv post m, kvs = pre ++ kv :: post /\ (m <= length (manifest_line kv))%nat /\
    firstn n (manifest_text kvs) = manifest_text pre ++ firstn m (manifest_line kv) /\
    n = (length (manifest_text pre) + m)%nat.
Proof.
  revert n. induction kvs as [|kv kvs IH]; intros n; cbn [manifest_text flat_map length]; [lia|]. intros Hn.
  change (flat_map _ kvs) with (manifest_text kvs) in *. rewrite !length_app in Hn. cbn in Hn.
  destruct (decide (n <= length (manifest_line kv))%nat) as [H|H].
  - exists [], kv, kvs, n. split_and!; try done. rewrite <- app_assoc. rewrite firstn_app.
    replace (n - length (manifest_line kv))%nat with 0%nat by lia. by rewrite firstn_O, app_nil_r.
  - destruct (IH (n - length (manifest_line kv) - 1)%nat ltac:(lia)) as (pre & kv' & post & m & -> & Hm & E & En).
    exists (kv :: pre), kv', post, m. split_and!; [done|done| |].
    + rewrite firstn_app, firstn_all2 by (rewrite length_app; cbn; lia). rewrite length_app. cbn [length].
      replace (n - (length (manifest_line kv) + 1))%nat with (n - length (manifest_line kv) - 1)%nat by lia.
      rewrite E. cbn [manifest_text flat_map]. by rewrite <- !app_assoc.
    + cbn [manifest_text flat_map]. change (flat_map _ pre) with (manifest_text pre). rewrite !length_app. cbn. lia.
Qed.

Lemma lacks_firstn c n s : lacks c s = true -> lacks c (firstn n s) = true.
Proof.
  intros H. rewrite <- (firstn_skipn n s), lacks_app in H. by apply andb_true_iff in H as [H _].
Qed.

(** What is read from a part of one line: nothing, a malformed manifest, or
    the line's key with the part of its value that is left. *)
Lemma partial_line kv fields m : plain_field kv = true -> ~ In (fst kv) (map fst fields) ->
  let line := firstn m (manifest_line kv) in
  manifest_lines [line] fields = None \/ manifest_lines [line] fields = Some fields \/
  (length (fst kv) < m)%nat /\
  manifest_lines [line] fields = Some (fields ++ [(fst kv, firstn (m - length (fst kv) - 1) (snd kv))]).
Proof.
  intros Hkv Hn. unfold plain_field in Hkv. bool_to_prop. cbv zeta.
  destruct (decide (m <= length (fst kv))%nat) as [Hm|Hm].
  - unfold manifest_line. rewrite firstn_app. replace (m - length (fst kv))%nat with 0%nat by lia.
    rewrite firstn_O, app_nil_r. cbn [manifest_lines]. destruct (text_eqb _ _); [by right; left|].
    assert (E : text_partition 61 (firstn m (fst kv)) = None) by (apply text_partition_None; by apply lacks_firstn).
    rewrite E. by left.
  - right; right. split; [lia|].
    assert (E : firstn m (manifest_line kv) = manifest_line (fst kv, firstn (m - length (fst kv) - 1) (snd kv))).
    { unfold manifest_line. cbn [fst snd]. rewrite firstn_app, firstn_all2 by lia.
      destruct (m - length (fst kv))%nat as [|j] eqn:Ej; [lia|]. cbn. by rewrite Nat.sub_0_r. }
    rewrite E, manifest_lines_field by done. cbn [fst]. by rewrite field_absent.
Qed.

(** [int] of the text of a size. *)
Section PythonIntFacts.
Variable wide_digit : Z -> option Z.

Lemma int_digits_value s acc b : str_forallb is_ascii_digit s = true ->
  (b = true \/ s <> ""%string) -> int_digits wide_digit acc b (u s) = Some (digits_value acc s).
Proof.
  revert acc b. induction s as [|c s IH]; intros acc b Hs Hb; cbn [u int_digits digits_value].
  - by destruct Hb as [->|Hb].
  - cbn [str_forallb] in Hs. apply andb_true_iff in Hs as [Hc Hs].
    assert (Hd : ascii_digit (code c) = true) by exact Hc.
    unfold ascii_digit in Hd. assert (H95 : (code c =? 95) = false) by (apply Z.eqb_neq; bool_to_prop; lia).
    rewrite H95. unfold digit_value. change (ascii_digit (code c)) with (is_ascii_digit c). rewrite Hc.
    rewrite IH by (done || by left). do 2 f_equal. lia.
Qed.

Lemma python_int_of_int n : 0 <= n -> python_int wide_digit (u (str_of_int n)) = Some n.
Proof.
  intros Hn. assert (E : str_of_int n = pretty (Z.to_N n)).
  { unfold str_of_int, pretty, pretty_Z. destruct n; [done..|lia]. }
  rewrite E. destruct (pretty_N_value (Z.to_N n)) as [Hd Hv].
  apply andb_true_iff in Hd as [Hne%negb_true_iff%String.eqb_neq Hs].
  assert (Estrip : text_strip (u (pretty (Z.to_N n))) = u (pretty (Z.to_N n))).
  { apply text_strip_id. revert Hs. generalize (pretty (Z.to_N n)). induction s as [|c s IH]; [done|].
    cbn. intros [Hc Hs]%andb_true_iff. rewrite (IH Hs), andb_true_r. apply negb_true_iff.
    change (ascii_digit (code c) = true) in Hc. unfold ascii_digit in Hc. unfold white. cbn. bool_to_prop.
    repeat rewrite orb_false_iff. rewrite !andb_false_iff, !Z.eqb_neq, !Z.leb_gt. lia. }
  unfold python_int. rewrite Estrip. pose proof (int_digits_value (pretty (Z.to_N n)) 0 false Hs (or_intror Hne)) as Ei.
  rewrite Hv, Z2N.id in Ei by done. destruct (pretty (Z.to_N n)) as [|c s]; [done|]. cbn [u] in *.
  cbn [str_forallb] in Hs. apply andb_true_iff in Hs as [Hc _].
  change (ascii_digit (code c) = true) in Hc. unfold ascii_digit in Hc. bool_to_prop.
  rewrite (proj2 (Z.eqb_neq (code c) 45)), (proj2 (Z.eqb_neq (code c) 43)) by lia. exact Ei.
Qed.
End PythonIntFacts.

Lemma u_inj s t : u s = u t -> s = t.
Proof.
  revert t. induction s as [|c s IH]; intros [|c' t]; try done. cbn. intros [= Hc Hs].
  by rewrite (code_inj _ _ Hc), (IH t Hs).
Qed.

Lemma utf8_decode_ascii_text strict s : forallb ascii s = true -> utf8_decode strict s = Some s.
Proof.
  induction s as [|c s IH]; [done|]. cbn [forallb]. intros [Hc Hs]%andb_true_iff. unfold ascii in Hc. bool_to_prop.
  by rewrite utf8_decode_ascii, IH.
Qed.

Section ManifestFacts.
Variable wide_digit : Z -> option Z.

(** What a manifest of the fields read must say for the dump. *)
Record vouches (name : string) (size : Z) (fields : list (text * text)) : Prop := {
  vo_name : field (u "backup_file") fields = Some (u name);
  vo_sha : exists sha, field (u "sha256") fields = Some sha /\ sha256_shape sha = true;
  vo_size : exists s, field (u "size_bytes") fields = Some s /\ python_int wide_digit s = Some size;
  vo_validation : field (u "validation") fields = Some (u "passed")
}.

Lemma manifest_issue_none name size raw :
  backup_manifest_issue wide_digit name size (ManifestBytes raw) = inr None <->
  exists fields, parse_backup_manifest (ManifestBytes raw) = Some fields /\ vouches name size fields.
Proof.
  unfold backup_manifest_issue. destruct (parse_backup_manifest (ManifestBytes raw)) as [fields|].
  2:{ split; [done|]. by intros (? & ? & _). }
  transitivity (vouches name size fields); [|split; [eauto|by intros (? & [= <-] & ?)]].
  cbn [existsb BACKUP_MANIFEST_REQUIRED_KEYS map]. set (fld := field) in *.
  split.
  - destruct (fld (u "backup_file") fields) as [f|] eqn:E1; [|done]. destruct (fld (u "sha256") fields) as [sha|] eqn:E2; [|done].
    destruct (fld (u "size_bytes") fields) as [sz|] eqn:E3; [|done].
    destruct (fld (u "validation") fields) as [v|] eqn:E4; [|done]. cbn [is_none orb default].
    unfold Datatypes.id, text_eqb. case_bool_decide; [|done]. cbn [negb]. destruct (sha256_shape sha) eqn:E5; [|done]. cbn [negb].
    destruct (python_int wide_digit sz) as [n|] eqn:E6; [|done]. destruct (n =? size) eqn:E7; [|done]. cbn [negb].
    case_bool_decide; [|done]. intros _. apply Z.eqb_eq in E7. subst. by split; eauto.
  - intros [E (sha & Es & Hs) (sz & Ez & Hz) Ev]. fold fld in E, Es, Ez, Ev. rewrite E, Es, Ez, Ev. cbn [is_none orb default]. unfold Datatypes.id, text_eqb.
    rewrite bool_decide_true, Hs, Hz, Z.eqb_refl by done. cbn. done.
Qed.

Lemma parse_ascii raw : forallb ascii raw = true -> (length raw <= BACKUP_MANIFEST_MAX_BYTES)%nat ->
  parse_backup_manifest (ManifestBytes raw) = manifest_lines (text_split 10 raw) [].
Proof.
  intros Ha Hl. unfold parse_backup_manifest. rewrite (proj2 (Nat.ltb_ge _ _)) by done.
  by rewrite utf8_decode_ascii_text.
Qed.

Lemma forallb_firstn {A} (p : A -> bool) n l : forallb p l = true -> forallb p (firstn n l) = true.
Proof. intros H. rewrite <- (firstn_skipn n l), forallb_app in H. by apply andb_true_iff in H as [H _]. Qed.

(** Reading what is left of a manifest cut off inside a line. *)
Lemma parse_cut pre kv m :
  let cut := manifest_text pre ++ firstn m (manifest_line kv) in
  forallb plain_field (pre ++ [kv]) = true -> NoDup (map fst (pre ++ [kv])) ->
  forallb ascii cut = true -> (length cut <= BACKUP_MANIFEST_MAX_BYTES)%nat ->
  parse_backup_manifest (ManifestBytes cut) = None \/ parse_backup_manifest (ManifestBytes cut) = Some pre \/
  (length (fst kv) < m)%nat /\
  parse_backup_manifest (ManifestBytes cut) = Some (pre ++ [(fst kv, firstn (m - length (fst kv) - 1) (snd kv))]).
Proof.
  cbv zeta. intros Hp Hnd Ha Hl. rewrite forallb_app in Hp. apply andb_true_iff in Hp as [Hp Hkv].
  cbn in Hkv. rewrite andb_true_r in Hkv. rewrite parse_ascii, text_split_manifest by (done || apply lacks_firstn, lacks_line, Hkv).
  rewrite map_app in Hnd. apply NoDup_app in Hnd as (Hpre & Hdis & _).
  rewrite (manifest_lines_complete _ _ []) by done. cbn [app].
  apply partial_line; [done|]. intros Hin%list_elem_of_In. apply (Hdis _ Hin). by left.
Qed.

(** A manifest that only lost its last line end, and a whole one. *)
Lemma parse_whole pre kv :
  let whole := manifest_text pre ++ manifest_line kv in
  forallb plain_field (pre ++ [kv]) = true -> NoDup (map fst (pre ++ [kv])) ->
  forallb ascii whole = true -> (length whole <= BACKUP_MANIFEST_MAX_BYTES)%nat ->
  parse_backup_manifest (ManifestBytes whole) = Some (pre ++ [kv]).
Proof.
  cbv zeta. intros Hp Hnd Ha Hl. pose proof Hp as Hp'. rewrite forallb_app in Hp'.
  apply andb_true_iff in Hp' as [Hpre Hkv]. cbn in Hkv. rewrite andb_true_r in Hkv.
  rewrite parse_ascii, text_split_manifest by (done || by apply lacks_line).
  replace (map manifest_line pre ++ [manifest_line kv]) with (map manifest_line (pre ++ [kv]) ++ []).
  - by rewrite (manifest_lines_complete _ _ []).
  - by rewrite app_nil_r, map_app.
Qed.

Lemma parse_manifest_text kvs :
  forallb plain_field kvs = true -> NoDup (map fst kvs) ->
  forallb ascii (manifest_text kvs) = true -> (length (manifest_text kvs) <= BACKUP_MANIFEST_MAX_BYTES)%nat ->
  parse_backup_manifest (ManifestBytes (manifest_text kvs)) = Some kvs.
Proof.
  intros Hp Hnd Ha Hl. rewrite parse_ascii by done. rewrite <- (app_nil_r (manifest_text kvs)).
  rewrite text_split_manifest by done. by rewrite (manifest_lines_complete _ _ []).
Qed.
End ManifestFacts.

Section Written.
Variable wide_digit : Z -> option Z.
Variables (name sha : string) (size : Z) (created app_version postgres revision : text).

Definition written : list (text * text) := write_manifest name sha size created app_version postgres revision.

(** All its fields but the last. *)
Definition written_before : list (text * text) := removelast written.

Lemma written_split : written = written_before ++ [(u "validation", u "passed")].
Proof. done. Qed.

Lemma written_keys : NoDup (map fst written).
Proof. apply NoDup_ListNoDup. repeat constructor; cbn; intuition discriminate. Qed.

Hypotheses (Hfields : forallb plain_field written = true) (Hascii : forallb ascii (manifest_text written) = true).
Hypotheses (Hsha : sha256_shape (u sha) = true) (Hsize : 0 <= size).
Hypothesis Hlength : (length (manifest_text written) <= BACKUP_MANIFEST_MAX_BYTES)%nat.

Lemma written_vouches name' size' : vouches wide_digit name' size' written <-> name' = name /\ size' = size.
Proof.
  split.
  - intros [E _ (s & Es & Ez) _]. cbn in E. split.
    + injection E as E. symmetry. by apply u_inj.
    + change (field (u "size_bytes") written) with (Some (u (str_of_int size))) in *.
      injection Es as <-. rewrite python_int_of_int in Ez by done. congruence.
  - intros [-> ->]. split; try done; [by exists (u sha)|]. exists (u (str_of_int size)). split; [done|].
    by apply python_int_of_int.
Qed.

(** Without the last field, or with only a part of its value, nothing is
    vouched for. *)
Lemma incomplete_refused name' size' fields :
  (exists post, map fst written_before = map fst fields ++ post) \/
  (exists v, (length v < 6)%nat /\ fields = written_before ++ [(u "validation", v)]) ->
  ~ vouches wide_digit name' size' fields.
Proof.
  intros H [_ _ _ E]. apply field_found in E. destruct H as [[post H]|(v & Hv & ->)].
  - assert (Hin : In (u "validation") (map fst written_before)).
    { rewrite H, in_app_iff. left. by apply (in_map fst _ _ E). }
    cbn in Hin. intuition discriminate.
  - apply in_app_iff in E as [E|[[= ->]|[]]]; [|cbn in Hv; lia].
    apply (in_map fst) in E. cbn in E. intuition discriminate.
Qed.

Lemma written_length : length (manifest_text written) = (length (manifest_text written_before) + 18)%nat.
Proof. unfold manifest_text. rewrite written_split at 1. rewrite flat_map_app, length_app. cbn. lia. Qed.

(** Cut off before the end of the last field, the manifest vouches for no dump. *)
Lemma cut_off_refused n name' size' : (n < length (manifest_text written) - 1)%nat ->
  backup_manifest_issue wide_digit name' size' (ManifestBytes (firstn n (manifest_text written))) <> inr None.
Proof.
  intros Hn (fields & Ep & V)%manifest_issue_none.
  destruct (manifest_prefix written n ltac:(lia)) as (pre & kv & post & m & E & Hm & Et & En).
  assert (E' : written = (pre ++ [kv]) ++ post) by (by rewrite <- app_assoc).
  assert (Hpre : forallb plain_field (pre ++ [kv]) = true /\ NoDup (map fst (pre ++ [kv]))).
  { pose proof Hfields as H1. pose proof written_keys as H2. rewrite E', forallb_app in H1. rewrite E', map_app in H2.
    apply andb_true_iff in H1 as [H1 _]. by apply NoDup_app in H2 as (H2 & _ & _). }
  pose proof (parse_cut pre kv m (proj1 Hpre) (proj2 Hpre)) as Hparse. rewrite <- Et, Ep in Hparse.
  specialize (Hparse (forallb_firstn _ _ _ Hascii)
    ltac:(etransitivity; [rewrite length_firstn; apply Nat.le_min_r|exact Hlength])).
  revert V. apply incomplete_refused. destruct post as [|kv' post].
  - pose proof E as Elast. rewrite written_split in Elast. apply app_inj_tail in Elast as [<- <-].
    rewrite written_length in Hn. destruct Hparse as [H|[H|[Hk H]]]; [done|left; exists []|right].
    + injection H as ->. by rewrite app_nil_r.
    + injection H as ->. eexists. split; [|done]. cbn [fst snd]. rewrite length_firstn. cbn [length u] in *. lia.
  - left. assert (Eb : map fst written_before = (map fst pre ++ [fst kv]) ++ map fst (removelast (kv' :: post))).
    { transitivity (map fst (removelast written)); [done|]. rewrite E', removelast_app by done. by rewrite !map_app. }
    rewrite Eb. destruct Hparse as [H|[H|[Hk H]]]; [done| |]; injection H as ->.
    + eexists. by rewrite <- app_assoc.
    + eexists. by rewrite map_app.
Qed.

(** A truncated backup manifest is never accepted. The monitor finds no
    issue with what is left of a manifest of [write_manifest] after any
    number of bytes exactly when nothing but the final line end is missing
    and the dump has the recorded name and size. *)
Theorem manifest_accepted_exactly n name' size' :
  backup_manifest_issue wide_digit name' size' (ManifestBytes (firstn n (manifest_text written))) = inr None <->
  name' = name /\ size' = size /\ (length (manifest_text written) - 1 <= n)%nat.
Proof.
  destruct (decide (n < length (manifest_text written) - 1)%nat) as [Hn|Hn].
  { split; [|lia]. intros H. by destruct (cut_off_refused n name' size' Hn). }
  enough (E : parse_backup_manifest (ManifestBytes (firstn n (manifest_text written))) = Some written).
  { rewrite manifest_issue_none. split.
    - intros (fields & Ep & V). rewrite Ep in E. injection E as ->. apply written_vouches in V as [-> ->].
      split_and!; [done..|lia].
    - intros (-> & -> & _). exists written. split; [done|]. by apply written_vouches. }
  destruct (decide (n < length (manifest_text written))%nat) as [Hn'|Hn'].
  2:{ rewrite firstn_all2 by lia. apply parse_manifest_text; try done. apply written_keys. }
  assert (Et : firstn n (manifest_text written) = manifest_text written_before ++ manifest_line (u "validation", u "passed")).
  { pose proof written_length as L. assert (En : n = (length (manifest_text written_before) + 17)%nat) by lia.
    unfold manifest_text at 1. rewrite written_split, flat_map_app. fold (manifest_text written_before).
    rewrite En, firstn_app_2. done. }
  rewrite Et, parse_whole, written_split; [done|exact Hfields|apply written_keys|rewrite <- Et..].
  - by apply forallb_firstn.
  - etransitivity; [rewrite length_firstn; apply Nat.le_min_r|exact Hlength].
Qed.
End Written.

(** ** The verdict on the directory *)

Section Verdict.
Variable wide_digit : Z -> option Z.

(** [e] is the newest of [l], and every modification time could be read. *)
Definition newest_of (l : list BackupEntry) (e : BackupEntry) : Prop :=
  In e l /\ exists t s, entry_stat e = StatOk t s /\
    forall e', In e' l -> exists t' s', entry_stat e' = StatOk t' s' /\ t' <= t.

Lemma newest_entry_spec best t s l e : entry_stat best = StatOk t s ->
  newest_entry best t l = inr e -> newest_of (best :: l) e.
Proof.
  revert best t s. induction l as [|e1 l IH]; intros best t s Hb; cbn [newest_entry].
  - intros [= <-]. split; [by left|]. exists t, s. split; [done|]. intros e' [<-|[]]. by exists t, s.
  - destruct (entry_stat e1) as [t1 s1|] eqn:E1; [|done]. destruct (t <? t1) eqn:Et; intros H.
    + destruct (IH _ _ _ E1 H) as (Hin & t' & s' & Hs & Hall). split; [by right|]. exists t', s'. split; [done|].
      intros e' [<-|He']; [|auto]. exists t, s. split; [done|].
      destruct (Hall e1 ltac:(by left)) as (? & ? & E & Hle). rewrite E1 in E. injection E as <- <-. bool_to_prop. lia.
    + destruct (IH _ _ _ Hb H) as (Hin & t' & s' & Hs & Hall). split; [destruct Hin; [by left|by right; right]|].
      exists t', s'. split; [done|]. intros e' [<-|[<-|He']]; [apply Hall; by left| |apply Hall; by right].
      exists t1, s1. split; [done|]. destruct (Hall best ltac:(by left)) as (? & ? & E & Hle). rewrite Hb in E.
      injection E as <- <-. bool_to_prop. lia.
Qed.

Lemma newest_spec l e : newest l = inr e -> newest_of l e.
Proof.
  destruct l as [|e1 l]; [done|]. cbn. destruct (entry_stat e1) as [t s|] eqn:E; [|done]. by eapply newest_entry_spec.
Qed.

(** The backup check is critical unless the newest backup is
    recoverable: of the dumps with an [.ok] sidecar the newest has a complete
    manifest that agrees with the dump, and is younger than the critical
    age. It is a warning exactly between the two ages, and no error of the
    file system escapes it. *)
Theorem backup_check_exact settings dir now :
  let r := check_backup wide_digit settings dir now in
  (check_status r <> CRITICAL <->
   exists l e mtime size, dir = DirEntries l /\ newest (List.filter candidate l) = inr e /\
     entry_restat e = StatOk mtime size /\
     backup_manifest_issue wide_digit (entry_name e) size (entry_manifest e) = inr None /\
     now - mtime < seconds (monitor_backup_critical_age_seconds settings) /\
     (check_status r = WARNING <-> seconds (monitor_backup_warning_age_seconds settings) <= now - mtime)) /\
  forall l e, newest (List.filter candidate l) = inr e ->
    candidate e = true /\ newest_of (List.filter candidate l) e.
Proof.
  cbv zeta. split.
  - unfold check_backup. cbv zeta.
    destruct dir as [cls|l]; [split; [by intros []|by intros (? & ? & ? & ? & ? & _)]|].
    destruct (List.filter candidate l) as [|c cs] eqn:Ef.
    { split; [by intros []|]. intros (l' & e & ? & ? & [= <-] & H & _). by rewrite Ef in H. }
    destruct (newest (c :: cs)) as [cls|e] eqn:En.
    { split; [by intros []|]. intros (l' & e & ? & ? & [= <-] & H & _). rewrite Ef in H. congruence. }
    destruct (entry_restat e) as [mtime size|cls] eqn:Es.
    2:{ split; [by intros []|]. intros (l' & e' & ? & ? & [= <-] & H & H' & _). rewrite Ef in H. congruence. }
    destruct (backup_manifest_issue wide_digit (entry_name e) size (entry_manifest e)) as [cls|[issue|]] eqn:Ei.
    1,2: split; [intros Hx; by destruct Hx|]; intros (l' & e' & mt & sz & [= <-] & H & H' & H'' & _); rewrite Ef in H; congruence.
    destruct (seconds (monitor_backup_critical_age_seconds settings) <=? now - mtime) eqn:Ec.
    { split; [by intros []|]. intros (l' & e' & mt & sz & [= <-] & H & H' & _ & Hc & _). rewrite Ef in H.
      assert (mt = mtime) as -> by congruence. bool_to_prop. lia. }
    assert (Hw : forall mt, entry_restat e = StatOk mt size -> mt = mtime) by congruence.
    split; [intros _|by destruct (seconds (monitor_backup_warning_age_seconds settings) <=? now - mtime)]. exists l, e, mtime, size. rewrite Ef. do 4 (split; [done|]). split; [bool_to_prop; lia|].
    destruct (seconds (monitor_backup_warning_age_seconds settings) <=? now - mtime) eqn:E2; cbn [check_status]; [apply Z.leb_le in E2; by split|apply Z.leb_gt in E2; split; intros Hx; [discriminate Hx|exfalso; lia]].
  - intros l e H%newest_spec. split; [|done]. destruct H as [Hin _]. by apply filter_In in Hin as [_ H].
Qed.
End Verdict.

(** ** Witnesses *)

Definition example_sha : string := "0123456789abcdef0123456789abcdef0123456789abcdef0123456789abcdef".

Definition example_manifest : text :=
  manifest_text (written "centralpay-1.dump" example_sha 2048 (u "2026-01-02T03:04:05Z") (u "1.0.0") (u "16.4") (u "0012")).

Lemma manifest_accepted_exactly_witness :
  length example_manifest = 230%nat /\
  (forall wide_digit, backup_manifest_issue wide_digit "centralpay-1.dump" 2048 (ManifestBytes (firstn 228 example_manifest)) <> inr None) /\
  forall wide_digit, backup_manifest_issue wide_digit "centralpay-1.dump" 2048 (ManifestBytes (firstn 229 example_manifest)) = inr None.
Proof.
  split; [reflexivity|].
  pose proof (fun wide_digit => manifest_accepted_exactly wide_digit "centralpay-1.dump" example_sha 2048
    (u "2026-01-02T03:04:05Z") (u "1.0.0") (u "16.4") (u "0012") eq_refl eq_refl eq_refl ltac:(lia)
    ltac:(vm_compute; lia)) as H.
  split; intros wide_digit.
  - intros E. apply (H wide_digit 228%nat) in E as (_ & _ & E). revert E. vm_compute. lia.
  - apply (H wide_digit 229%nat). split; [reflexivity|split; [reflexivity|vm_compute; lia]].
Defined.

(** The size is read with [int], which ignores white space around it, a sign
    and underscores, although the documentation of the parser says that a
    value's white space is never stripped. *)
Example size_with_carriage_return :
  backup_manifest_issue (fun _ => None) "centralpay-1.dump" 2048 (ManifestBytes (manifest_text
    [(u "backup_file", u "centralpay-1.dump"); (u "sha256", u example_sha); (u "size_bytes", u " +2_048" ++ [13]);
     (u "validation", u "passed")])) = inr None.
Proof. vm_compute. reflexivity. Qed.
