(* ===== verification/Monitor.v ===== *)
(** The checks of the monitor and their composition
    ([app/services/monitor_checks.py]), and the daemon that runs them
    ([app/monitor.py]).

    What a check asks of the world outside the database is data
    ([MonitorEnv]): the answer of the public health endpoint, the backup
    directory, the file system, and whether PostgreSQL answers. The GET of
    the public endpoint is the one request that leaves the host; it is
    recorded among the session's external calls. A query that
    fails does so in one of the two ways the code tells apart: the
    connection was lost, or anything else. Ages and latencies in the details
    stay in microseconds, unrounded. *)

From Stdlib Require Import QArith.
From S2P Require Import Prelude PyText Exceptions Config Models ServiceTables Session AuditTrail Ledger.
From S2P Require Import Urls CentralPay Security PayerIdentity Payments Bot Notification Verification.
From S2P Require Import Reconciliation Attention Stuck Integrity Unicode Incidents Heartbeat ReconStatus BackupCheck.

#[local] Open Scope Z_scope.

(** ** The outside world of a pass *)

(** [client.get(url)]: a response with its status, its body as JSON (or not)
    and its latency; a timeout; any other transport error. *)
Inductive PublicReply :=
  | PublicTimeout
  | PublicTransportError (cls : string)
  | PublicResponse (status_code : Z) (body : option Json) (latency : Z).

(** [shutil.disk_usage]. *)
Inductive DiskUsage := DiskError (cls : string) | DiskSpace (free total : Z).

(** What a query of a check meets. *)
Inductive QueryOutcome :=
  | QueryRuns
  | ConnectionLost            (* a [DBAPIError] that invalidated the connection *)
  | QueryRaises (e : Exn).    (* any other exception *)

Record MonitorEnv := mkMonitorEnv {
  public_reply : PublicReply;
  backup_listing : BackupDir;
  backup_disk : DiskUsage;
  database_answers : bool;                  (* [queries.database_ok] *)
  query_outcome : string -> QueryOutcome;   (* per check *)
  event_times : Z -> Z;
  migration_revision : option string;
  server_sequences : Sequences;
  wide_digits : Z -> option Z
}.

(** ** Severities *)

(** [_SEVERITY_RANK] of the checks. *)
Definition status_rank (s : Severity) : Z := match s with OK => 0 | WARNING => 1 | CRITICAL => 2 end.

Definition worse (a b : Severity) : Severity := if status_rank b <=? status_rank a then a else b.

Definition overall_status (results : list CheckResult) : Severity :=
  fold_left (fun s r => worse s (check_status r)) results OK.

(** ** The checks *)

Definition opt_int (o : option Z) : Json := match o with Some z => JInt z | None => JNull end.
Definition opt_str (o : option string) : Json := match o with Some s => JStr s | None => JNull end.

(** [body.get(k) == v] of a JSON body. *)
Definition body_says (k v : string) (o : dict) : bool :=
  match dict_get k o with Some (JStr s) => String.eqb s v | _ => false end.

Definition public_ready_url (settings : Settings) : string := public_base_url settings +:+ "/health/ready".

(** [with httpx.Client(...) as client: response = client.get(url)]. *)
Definition get_public_ready (settings : Settings) (reply : PublicReply) : M PublicReply := fun w =>
  (Ret reply, w <| calls := HttpGet (public_ready_url settings) :: calls w |>).

(** What [check_public_ready] makes of the reply. *)
Definition check_public_ready (settings : Settings) (reply : PublicReply) : CheckResult :=
  let url := ("url", JStr (public_ready_url settings)) in
  match reply with
  | PublicTimeout => mkCheckResult "public_ready" CRITICAL "timeout" [url]
  | PublicTransportError cls =>
      mkCheckResult "public_ready" CRITICAL "connection_failed" [url; ("error", JStr cls)]
  | PublicResponse code body latency =>
      let latency := ("latency_ms", JInt latency) in
      if negb (code =? 200)
      then mkCheckResult "public_ready" CRITICAL "unexpected_status" [url; ("status_code", JInt code); latency]
      else match body with
           | None => mkCheckResult "public_ready" CRITICAL "malformed_response" [url; latency]
           | Some (JObj o) =>
               if body_says "status" "ready" o && body_says "database" "ok" o
               then mkCheckResult "public_ready" OK "healthy" [url; latency]
               else mkCheckResult "public_ready" CRITICAL "unhealthy_response" [url; latency]
           | Some _ => mkCheckResult "public_ready" CRITICAL "unhealthy_response" [url; latency]
           end
  end.

Definition check_database (answers : bool) : CheckResult :=
  if answers then mkCheckResult "database" OK "healthy" []
  else mkCheckResult "database" CRITICAL "query_failed" [].

(** [poll_interval] in microseconds. *)
Definition check_worker_heartbeat (settings : Settings) (wname : string) (poll_interval now : Z) (d : Db)
  : CheckResult :=
  let key := "worker_heartbeat:" +:+ wname in
  match latest_worker_heartbeat d wname with
  | None => mkCheckResult key CRITICAL "no_heartbeat_recorded" [("worker_name", JStr wname)]
  | Some heartbeat =>
      let age_seconds := now - last_heartbeat_at heartbeat in
      let details :=
        [("worker_name", JStr wname); ("age_seconds", JInt age_seconds);
         ("last_error_code", opt_str (heartbeat_error_code heartbeat))] in
      let warning_cutoff := Z.max (seconds (monitor_worker_heartbeat_warning_seconds settings)) (poll_interval * 6) in
      let critical_cutoff := Z.max (seconds (monitor_worker_heartbeat_critical_seconds settings)) (warning_cutoff * 3) in
      if critical_cutoff <=? age_seconds then mkCheckResult key CRITICAL "heartbeat_stale" details
      else if warning_cutoff <=? age_seconds then mkCheckResult key WARNING "heartbeat_aging" details
      else if is_some (heartbeat_error_code heartbeat) then mkCheckResult key WARNING "last_cycle_failed" details
      else mkCheckResult key OK "healthy" details
  end.

(** [oldest_age is not None and oldest_age >= limit]. *)
Definition aged (oldest : option Z) (limit : Z) : bool :=
  match oldest with Some a => seconds limit <=? a | None => false end.

(** The common end of the two backlog checks. *)
Definition backlog_result (key : string) (count warning critical : Z) (oldest : option Z) (max_age : Z)
    (details : dict) : CheckResult :=
  if critical <=? count then mkCheckResult key CRITICAL "backlog_critical" details
  else if (warning <=? count) || aged oldest max_age then mkCheckResult key WARNING "backlog_warning" details
  else mkCheckResult key OK "healthy" details.

(** [_NOTIFICATION_ENTRY_EVENT_TYPES], and the latest of a payment's events of
    these types ([_notification_age_anchor]). *)
Definition notification_entry_event_types : list string :=
  ["bot_notification_queued"; "manual_review_resend_requested"; "admin_bulk_resend_requested"].

Definition latest_entry_event (times : EventTimes) (d : Db) (p : Payment) : option Z :=
  let entry (ne : Z * PaymentEvent) :=
    bool_decide (event_payment_id (snd ne) = Some (id p)) &&
    existsb (String.eqb (event_type (snd ne))) notification_entry_event_types in
  pick_min (fun a b => b <=? a)
    (map (fun ne => times (fst ne)) (List.filter entry (numbered (payment_events d)))).

Definition check_notification_backlog (times : EventTimes) (settings : Settings) (now : Z) (d : Db) : CheckResult :=
  let count := count_where (fun p => bool_decide (status p = BOT_NOTIFY_PENDING)) d in
  let oldest_age := oldest_pending_notification_age_seconds (latest_entry_event times d) d now in
  backlog_result "notification_backlog" count (monitor_notification_warning_count settings)
    (monitor_notification_critical_count settings) oldest_age (monitor_notification_max_age_seconds settings)
    [("count", JInt count); ("oldest_age_seconds", opt_int oldest_age)].

(** [buckets[k] = v]. *)
Fixpoint dict_set (k : string) (v : Json) (o : dict) : dict :=
  match o with
  | [] => [(k, v)]
  | (k', v') :: o' => if String.eqb k' k then (k, v) :: o' else (k', v') :: dict_set k v o'
  end.

(** [open_manual_review_reason_buckets]: one group per reason, [NULL] being
    one; the order of the groups is SQL's. *)
Definition open_manual_review_reason_buckets (d : Db) : dict :=
  let reasons := remove_dups (map bot_notify_reason (payments_where open_manual_review_conditions d)) in
  let label (r : option string) := match r with Some s => if String.eqb s "" then "financial_or_verification" else s
                                              | None => "financial_or_verification" end in
  fold_left (fun buckets r =>
      dict_set (label r)
        (JInt (count_where (fun p => open_manual_review_conditions p && bool_decide (bot_notify_reason p = r)) d)) buckets)
    reasons [].

Definition check_manual_review (settings : Settings) (now : Z) (d : Db) : CheckResult :=
  let count := count_open_manual_reviews d in
  let oldest_age := oldest_open_manual_review_age_seconds d now in
  backlog_result "manual_review" count (monitor_manual_review_warning_count settings)
    (monitor_manual_review_critical_count settings) oldest_age (monitor_manual_review_max_age_seconds settings)
    [("count", JInt count); ("oldest_age_seconds", opt_int oldest_age);
     ("reasons", JObj (open_manual_review_reason_buckets d))].

(** The snapshot is taken at [now]; of its runtime part, which depends on the
    worker's liveness file, nothing is used. *)
Definition check_reconciliation (times : EventTimes) (settings : Settings) (now : Z) (d : Db) : CheckResult :=
  if negb (reconciliation_enabled settings)
  then mkCheckResult "reconciliation" OK "disabled" [("enabled", JBool false)]
  else
    let queue := snapshot_queue (@build_reconciliation_status_snapshot times settings now None 0 24 d) in
    let details :=
      [("exhausted_not_aged_out", JInt (exhausted_not_aged_out queue));
       ("exhausted_recent", JInt (exhausted_recent queue));
       ("exhausted_actionable_total", JInt (exhausted_actionable_total queue));
       ("exhausted_historical_total", JInt (exhausted_historical_total queue));
       ("oldest_overdue_seconds", opt_int (oldest_overdue queue))] in
    if 0 <? exhausted_actionable_total queue
    then mkCheckResult "reconciliation" CRITICAL "reconciliation_exhausted" details
    else if aged (oldest_overdue queue) (Z.max (reconciliation_slow_interval_seconds settings * 5) 300)
    then mkCheckResult "reconciliation" WARNING "backlog_aging" details
    else mkCheckResult "reconciliation" OK "healthy" details.

(** The percentage is exact here. *)
Definition check_disk (settings : Settings) (usage : DiskUsage) : CheckResult :=
  let path := ("path", JStr (centralpay_backup_dir settings)) in
  match usage with
  | DiskError cls => mkCheckResult "disk_space" CRITICAL "path_unreadable" [path; ("error", JStr cls)]
  | DiskSpace free total =>
      let free_percent : Q := (if total =? 0 then 0 else inject_Z (free * 100) / inject_Z total)%Q in
      let details := [path; ("free_bytes", JInt free); ("total_bytes", JInt total)] in
      if (free <=? monitor_disk_min_free_bytes settings) ||
         Qle_bool free_percent (monitor_disk_critical_percent settings)
      then mkCheckResult "disk_space" CRITICAL "low_disk_space" details
      else if Qle_bool free_percent (monitor_disk_warning_percent settings)
      then mkCheckResult "disk_space" WARNING "low_disk_space" details
      else mkCheckResult "disk_space" OK "healthy" details
  end.

Definition check_db_integrity (revision : option string) (seqs : Sequences) (d : Db) : CheckResult :=
  let report := fst (run_db_checks revision seqs false d) in
  let details := [("failures", JList (map JStr (report_failures report)))] in
  if report_ok report then mkCheckResult "db_integrity" OK "healthy" details
  else mkCheckResult "db_integrity" CRITICAL "integrity_failures_found" details.

(** ** The failure bursts *)

Definition event_says (k v : string) (e : PaymentEvent) : bool :=
  match event_data e with Some o => body_says k v o | None => false end.

Definition ambiguous_gateway_reasons : list string :=
  ["gateway_error_field"; "gateway_response_invalid"; "gateway_missing_data"].

(** [_GATEWAY_FAILURE_RELIABLE_PREDICATE]. *)
Definition reliable_gateway_failure (e : PaymentEvent) : bool :=
  String.eqb (event_type e) "centralpay_getlink_failed" ||
  (String.eqb (event_type e) "centralpay_verify_failed" &&
   (event_says "stage" "transport" e ||
    (event_says "stage" "gateway" e && existsb (fun r => event_says "reason" r e) ambiguous_gateway_reasons))).

(** [_affected_payments_in_window]. *)
Definition affected_payments_in_window (times : EventTimes) (predicate : PaymentEvent -> bool)
    (window_seconds now : Z) (d : Db) : Z :=
  let cutoff := now - seconds window_seconds in
  let matching := List.filter (fun ne : Z * PaymentEvent =>
    predicate (snd ne) && (cutoff <=? times (fst ne))) (numbered (payment_events d)) in
  Z.of_nat (length (remove_dups (flat_map (fun ne =>
    match event_payment_id (snd ne) with Some i => [i] | None => [] end) matching))).

Definition burst_result (key : string) (window affected warning critical : Z) : CheckResult :=
  let details := [("window_seconds", JInt window); ("affected_payments", JInt affected)] in
  if critical <=? affected then mkCheckResult key CRITICAL key details
  else if warning <=? affected then mkCheckResult key WARNING key details
  else mkCheckResult key OK "healthy" details.

Definition check_gateway_failure_burst (times : EventTimes) (settings : Settings) (now : Z) (d : Db) : CheckResult :=
  let window := monitor_gateway_failure_window_seconds settings in
  burst_result "gateway_failure_burst" window
    (affected_payments_in_window times reliable_gateway_failure window now d)
    (monitor_gateway_failure_warning_count settings) (monitor_gateway_failure_critical_count settings).

Definition check_bot_failure_burst (times : EventTimes) (settings : Settings) (now : Z) (d : Db) : CheckResult :=
  let window := monitor_bot_failure_window_seconds settings in
  burst_result "bot_failure_burst" window
    (affected_payments_in_window times (fun e => String.eqb (event_type e) "bot_notification_failed") window now d)
    (monitor_bot_failure_warning_count settings) (monitor_bot_failure_critical_count settings).

(** ** Running them all *)

Definition DB_INTEGRITY_CHECK_KEY : string := "db_integrity".
Definition DB_UNAVAILABLE_REASON : string := "database_unavailable".

(** [_db_unavailable_result]. *)
Definition db_unavailable_result (check : string) : CheckResult :=
  mkCheckResult check CRITICAL DB_UNAVAILABLE_REASON [("dependency", JStr "database")].

Section Pass.
Context `{Env}.
Variables (settings : Settings) (world : MonitorEnv).

(** [_build_db_dependent_checks]: a check by its key and its verdict on the
    database. *)
Definition build_db_dependent_checks (now : Z) (include_db_integrity : bool) : list (string * (Db -> CheckResult)) :=
  [("worker_heartbeat:notification-worker",
      check_worker_heartbeat settings "notification-worker" (bot_notify_worker_interval settings) now);
   ("notification_backlog", check_notification_backlog (event_times world) settings now);
   ("manual_review", check_manual_review settings now);
   ("gateway_failure_burst", check_gateway_failure_burst (event_times world) settings now);
   ("bot_failure_burst", check_bot_failure_burst (event_times world) settings now)] ++
  (if reconciliation_enabled settings then
     [("reconciliation", check_reconciliation (event_times world) settings now);
      ("worker_heartbeat:reconciliation-worker",
         check_worker_heartbeat settings "reconciliation-worker" (reconciliation_interval settings) now)]
   else []) ++
  (if admin_bot_enabled settings then
     [("worker_heartbeat:admin-bot-delivery",
         check_worker_heartbeat settings "admin-bot-delivery" (admin_bot_alert_poll_interval settings) now)]
   else []) ++
  (if include_db_integrity then
     [(DB_INTEGRITY_CHECK_KEY, check_db_integrity (migration_revision world) (server_sequences world))]
   else []).

Definition placeholders (checks : list (string * (Db -> CheckResult))) : list CheckResult :=
  map (fun c => db_unavailable_result (fst c)) checks.

(** The loop over the database checks. [_rollback_after_db_failure] swallows
    an error of its own. *)
Fixpoint run_dependent (checks : list (string * (Db -> CheckResult))) : M (list CheckResult) :=
  match checks with
  | [] => ret []
  | (check, verdict) :: rest =>
      match query_outcome world check with
      | QueryRuns =>
          let* d := get_db in
          let* results := run_dependent rest in
          ret (verdict d :: results)
      | ConnectionLost => rollback ;;; ret (placeholders checks)
      | QueryRaises e => raise e
      end
  end.

Definition run_all_checks (now : Z) (include_db_integrity : bool) : M (list CheckResult) :=
  let* reply := get_public_ready settings (public_reply world) in
  let* d := get_db in
  let independent :=
    [check_public_ready settings reply;
     check_backup (wide_digits world) settings (backup_listing world) now;
     check_disk settings (backup_disk world)] ++
    (if reconciliation_enabled settings then [] else [check_reconciliation (event_times world) settings now d]) in
  begin_tx ;;;
  let db_result := check_database (database_answers world) in
  let results := independent ++ [db_result] in
  let db_dependent := build_db_dependent_checks now include_db_integrity in
  if negb (bool_decide (check_status db_result = OK))
  then rollback ;;; ret (results ++ placeholders db_dependent)
  else
    let* dependent := run_dependent db_dependent in
    ret (results ++ dependent).

(** ** One pass of the daemon *)

Fixpoint record_results (results : list CheckResult) (now : Z) : M unit :=
  match results with
  | [] => ret tt
  | r :: rest => record_check_result settings r now ;;; record_results rest now
  end.

Definition integrity_placeholder (r : CheckResult) : bool :=
  String.eqb (key r) DB_INTEGRITY_CHECK_KEY && String.eqb (reason r) DB_UNAVAILABLE_REASON.

(** [run_one_pass]; [with session_factory() as db] closes the session, which
    rolls back what is not committed. *)
Definition run_one_pass (include_db_integrity : bool) : M bool :=
  let* now := utcnow in
  rollback ;;;
  let body :=
    let* results := run_all_checks now include_db_integrity in
    record_results results now ;;;
    ret (if negb include_db_integrity then false else negb (existsb integrity_placeholder results)) in
  let* done := try_catch body (fun e => rollback ;;; raise e) in
  rollback ;;;
  ret done.
End Pass.

(** ** The loop *)

Definition db_integrity_every (settings : Settings) : Z :=
  Z.max 1 (round_half_even (inject_Z (monitor_db_integrity_interval settings) / inject_Z (monitor_interval settings))%Q).

(** One turn of the loop of [run_forever]: the pass, the heartbeat row in a
    session of its own, and the counter. [worlds n] is the outside world of
    the turn [n]. The result is the new counter, and whether the integrity
    check was due and ran. *)
Section Loop.
Context `{Env}.
Variables (settings : Settings) (worlds : nat -> MonitorEnv) (iid : string).

Definition monitor_heartbeat (cycle_completed : bool) (error_code : option string) : M unit :=
  loop_heartbeat "monitor" iid cycle_completed error_code.

Definition monitor_turn (n : nat) (cycles_since_integrity : Z) : M (Z * (bool * bool)) :=
  let include_db_integrity := db_integrity_every settings <=? cycles_since_integrity in
  let* pass := try_catch
    (let* db_integrity_completed := run_one_pass settings (worlds n) include_db_integrity in
     ret (true, db_integrity_completed, None))
    (fun e => ret (false, false, Some (exception_name e))) in
  let '(cycle_completed, db_integrity_completed, error_code) := pass in
  monitor_heartbeat cycle_completed error_code ;;;
  ret (if db_integrity_completed then 0 else cycles_since_integrity + 1,
       (include_db_integrity, db_integrity_completed)).

(** [n] turns, from the turn [k]. *)
Fixpoint monitor_turns (n k : nat) (cycles : Z) : M (list (bool * bool)) :=
  match n with
  | O => ret []
  | S n =>
      let* turn := monitor_turn k cycles in
      let* turns := monitor_turns n (S k) (fst turn) in
      ret (snd turn :: turns)
  end.

(** [run_forever], for [n] turns before it is stopped. *)
Definition run_forever (n : nat) : M (list (bool * bool)) :=
  monitor_turns n 0 (db_integrity_every settings).
End Loop.

(** ** Facts: severities *)

Lemma status_rank_inj a b : status_rank a = status_rank b -> a = b.
Proof. by destruct a, b. Qed.

Lemma worse_rank a b : status_rank (worse a b) = Z.max (status_rank a) (status_rank b).
Proof. by destruct a, b. Qed.

Lemma overall_at_least results r : In r results -> status_rank (check_status r) <= status_rank (overall_status results).
Proof.
  unfold overall_status. assert (Hfold : forall l s, status_rank s <= status_rank (fold_left (fun s r => worse s (check_status r)) l s)).
  { induction l as [|x l IH]; intros s; cbn; [lia|]. etransitivity; [|apply IH]. rewrite worse_rank. lia. }
  generalize OK. induction results as [|x l IH]; intros s; [done|]. intros [->|Hin]; [|by apply IH].
  cbn. etransitivity; [|apply Hfold]. rewrite worse_rank. lia.
Qed.

Lemma overall_critical results r : In r results -> check_status r = CRITICAL -> overall_status results = CRITICAL.
Proof.
  intros Hin Hr. pose proof (overall_at_least results r Hin) as H. rewrite Hr in H. cbn in H.
  by destruct (overall_status results).
Qed.

(** ** Facts: the set of checks *)

Definition check_keys (settings : Settings) (include_db_integrity : bool) : list string :=
  ["public_ready"; "backup"; "disk_space"] ++ (if reconciliation_enabled settings then [] else ["reconciliation"]) ++
  ["database"; "worker_heartbeat:notification-worker"; "notification_backlog"; "manual_review";
   "gateway_failure_burst"; "bot_failure_burst"] ++
  (if reconciliation_enabled settings then ["reconciliation"; "worker_heartbeat:reconciliation-worker"] else []) ++
  (if admin_bot_enabled settings then ["worker_heartbeat:admin-bot-delivery"] else []) ++
  (if include_db_integrity then ["db_integrity"] else []).

Lemma check_keys_distinct settings inc : NoDup (check_keys settings inc).
Proof.
  apply (bool_decide_unpack (NoDup (check_keys settings inc))). unfold check_keys.
  by destruct (reconciliation_enabled settings), (admin_bot_enabled settings), inc.
Qed.

Lemma key_public settings reply : key (check_public_ready settings reply) = "public_ready".
Proof. destruct reply as [|?|code [[]|] ?]; try done; cbn; repeat case_match; done. Qed.

Lemma key_backup wd settings dir now : key (check_backup wd settings dir now) = "backup".
Proof. unfold check_backup. repeat case_match; done. Qed.

Lemma key_disk settings usage : key (check_disk settings usage) = "disk_space".
Proof. unfold check_disk. repeat case_match; done. Qed.

Lemma key_reconciliation times settings now d : key (check_reconciliation times settings now d) = "reconciliation".
Proof. unfold check_reconciliation. repeat case_match; done. Qed.

Lemma key_heartbeat settings wname poll now d :
  key (check_worker_heartbeat settings wname poll now d) = "worker_heartbeat:" +:+ wname.
Proof. unfold check_worker_heartbeat. repeat case_match; done. Qed.

Lemma key_backlog k n a b o m de : key (backlog_result k n a b o m de) = k.
Proof. unfold backlog_result. repeat case_match; done. Qed.

Lemma key_burst k w n a b : key (burst_result k w n a b) = k.
Proof. unfold burst_result. repeat case_match; done. Qed.

Lemma key_integrity revision seqs d : key (check_db_integrity revision seqs d) = DB_INTEGRITY_CHECK_KEY.
Proof. unfold check_db_integrity. by case_match. Qed.

Lemma key_database answers : key (check_database answers) = "database".
Proof. by destruct answers. Qed.

(** Every database check reports under the key it is listed with. *)
Lemma dependent_key settings world now inc d c :
  In c (build_db_dependent_checks settings world now inc) -> key (snd c d) = fst c.
Proof.
  unfold build_db_dependent_checks. rewrite !in_app_iff. intros [H|[H|[H|H]]].
  - destruct H as [<-|[<-|[<-|[<-|[<-|[]]]]]];
      [apply key_heartbeat|apply key_backlog|apply key_backlog|apply key_burst|apply key_burst].
  - destruct (reconciliation_enabled settings); [|done].
    destruct H as [<-|[<-|[]]]; [apply key_reconciliation|apply key_heartbeat].
  - destruct (admin_bot_enabled settings); [|done]. destruct H as [<-|[]]. apply key_heartbeat.
  - destruct inc; [|done]. destruct H as [<-|[]]. apply key_integrity.
Qed.

(** What the checks that need the database gave: the first [n] ran on [d],
    the others are placeholders. *)
Definition dependent_results (checks : list (string * (Db -> CheckResult))) (n : nat) (d : Db) : list CheckResult :=
  map (fun c => snd c d) (take n checks) ++ placeholders (drop n checks).

Lemma dependent_results_keys checks n d : (forall c, In c checks -> key (snd c d) = fst c) ->
  map key (dependent_results checks n d) = map fst checks.
Proof.
  intros H. unfold dependent_results, placeholders. rewrite map_app, !map_map.
  change (fun x => key (db_unavailable_result (fst x))) with (fun x : string * (Db -> CheckResult) => fst x).
  rewrite <- (firstn_skipn n checks) at 3. rewrite map_app. f_equal.
  apply map_ext_in. intros c Hc. apply H. rewrite <- (firstn_skipn n checks). apply in_app_iff. by left.
Qed.

Section MonitorFacts.
Context {ENV : Env} {RELY : Rely}.
Variables (settings : Settings) (world : MonitorEnv).

Definition independent_results (now : Z) (d : Db) : list CheckResult :=
  [check_public_ready settings (public_reply world);
   check_backup (wide_digits world) settings (backup_listing world) now;
   check_disk settings (backup_disk world)] ++
  (if reconciliation_enabled settings then [] else [check_reconciliation (event_times world) settings now d]) ++
  [check_database (database_answers world)].

(** Where the run over the database checks stopped. *)
Definition stopped_at (checks : list (string * (Db -> CheckResult))) (n : nat) : Prop :=
  (forall c, In c (take n checks) -> query_outcome world (fst c) = QueryRuns) /\
  match drop n checks with [] => True | c :: _ => query_outcome world (fst c) = ConnectionLost end.

(** Reading commits nothing; [cs] are the requests it sent. *)
Record read_only (cs : list ExternalCall) (w w' : World) : Prop := {
  lk_steady : steady w w';
  lk_evolved : evolved (committed w) (committed w');
  lk_working : working w' = committed w';
  lk_map : identity_map w = ∅ -> identity_map w' = ∅;
  lk_calls : calls w' = cs ++ calls w
}.

Lemma read_only_refl w : sound w -> working w = committed w -> read_only [] w w.
Proof. intros Hs Hw. by split. Qed.

Lemma read_only_trans cs w1 w2 w3 : read_only cs w1 w2 -> read_only [] w2 w3 -> read_only cs w1 w3.
Proof. intros [] []. split; [by eapply steady_trans|by etransitivity|done|auto|]. cbn in *. congruence. Qed.

Lemma read_only_rollback w w' : sound w -> did_rollback w w' -> read_only [] w w'.
Proof.
  intros Hs R. split; [by eapply steady_rollback| |by ws|by ws|by ws].
  rewrite (rb_committed _ _ R). reflexivity.
Qed.

Lemma read_only_began w w' : sound w -> working w = committed w -> began w w' -> read_only [] w w'.
Proof.
  intros Hs Hw B. split; [by eapply steady_began|by apply evolved_began|apply B| |apply B].
  intros E. by rewrite (bg_map _ _ B).
Qed.

Lemma wp_get_public_ready (Q : Res PublicReply -> World -> Prop) w : sound w -> working w = committed w ->
  (forall w', read_only [HttpGet (public_ready_url settings)] w w' -> committed w' = committed w ->
     working w' = committed w' -> Q (Ret (public_reply world)) w') ->
  wp (get_public_ready settings (public_reply world)) Q w.
Proof.
  intros Hs Hw HQ. apply HQ; [|done..]. destruct Hs as [Ho Hm]. by split.
Qed.

Lemma wp_run_dependent checks w : sound w -> working w = committed w ->
  wp (run_dependent world checks) (fun res w' => read_only [] w w' /\ committed w' = committed w /\
    match res with
    | Ret rs => exists n, stopped_at checks n /\ rs = dependent_results checks n (committed w)
    | Raise e => exists c, In c checks /\ query_outcome world (fst c) = QueryRaises e
    end) w.
Proof.
  intros Hs Hw. induction checks as [|[check verdict] checks IH]; cbn [run_dependent].
  - apply wp_ret. split_and!; [by apply read_only_refl|done|]. by exists 0%nat.
  - destruct (query_outcome world check) as [| |e] eqn:Eq.
    + apply wp_bind, wp_get_db, wp_bind. rewrite Hw. eapply wp_mono; [exact IH|].
      intros [rs|e] w' (L & E & H).
      * apply wp_ret. split_and!; [done..|]. destruct H as (n & [Hr Hd] & ->). exists (S n). split; [|done].
        split; [|done]. intros c [<-|Hc]; [done|auto].
      * split_and!; [done..|]. destruct H as (c & Hc & H). exists c. split; [by right|done].
    + wp_step. apply wp_rollback. intros w' R. apply wp_ret. split_and!; [by apply read_only_rollback|by ws|].
      exists 0%nat. split; [|done]. by split.
    + apply wp_raise. split_and!; [by apply read_only_refl|done|]. eexists. split; [by left|done].
Qed.

(** How the checks of a pass end: [d] is the database they saw. *)
Definition checked (now : Z) (inc : bool) (d0 d : Db) (res : Res (list CheckResult)) : Prop :=
  let checks := build_db_dependent_checks settings world now inc in
  match res with
  | Ret rs => exists n, rs = independent_results now d0 ++ dependent_results checks n d /\
      (if database_answers world then stopped_at checks n else n = 0%nat)
  | Raise e => database_answers world = true /\ exists c, In c checks /\ query_outcome world (fst c) = QueryRaises e
  end.

Lemma wp_run_all_checks now inc w : sound w -> working w = committed w ->
  wp (run_all_checks settings world now inc)
    (fun res w' => read_only [HttpGet (public_ready_url settings)] w w' /\ checked now inc (committed w) (committed w') res) w.
Proof.
  intros Hs Hw. unfold run_all_checks. apply wp_bind, wp_get_public_ready; [done..|].
  intros w0 L0 E0 Hw0. apply wp_bind, wp_get_db. cbv zeta. rewrite Hw0, E0.
  apply wp_bind, wp_begin_tx. intros w1 B.
  pose proof (read_only_trans _ _ _ _ L0 (read_only_began _ _ (proj1 (lk_steady _ _ _ L0)) Hw0 B)) as L1.
  assert (Hs1 : sound w1) by apply L1.
  assert (Eind : forall rest, (([check_public_ready settings (public_reply world);
      check_backup (wide_digits world) settings (backup_listing world) now;
      check_disk settings (backup_disk world)] ++
     (if reconciliation_enabled settings then [] else [check_reconciliation (event_times world) settings now (committed w)])) ++
     [check_database (database_answers world)]) ++ rest = independent_results now (committed w) ++ rest).
  { intros rest. unfold independent_results. by rewrite <- !app_assoc. }
  unfold checked. destruct (database_answers world) eqn:Ed; cbn [check_database check_status negb].
  - rewrite (bool_decide_true (OK = OK)) by done. cbn [negb]. apply wp_bind.
    eapply wp_mono; [apply wp_run_dependent; [done|apply B]|]. intros [rs|e] w' (L & E & H).
    + apply wp_ret. split; [by eapply read_only_trans|]. destruct H as (n & Hn & ->). exists n. split; [|done].
      rewrite E. apply Eind.
    + by split; [eapply read_only_trans|].
  - rewrite (bool_decide_false (CRITICAL = OK)) by done. cbn [negb]. wp_step. apply wp_rollback. intros w' R. apply wp_ret.
    split; [eapply read_only_trans; [done|by apply read_only_rollback]|]. exists 0%nat. split; [|done].
    apply Eind.
Qed.

Lemma results_keys now inc d0 n d :
  map key (independent_results now d0 ++ dependent_results (build_db_dependent_checks settings world now inc) n d)
  = check_keys settings inc.
Proof.
  unfold independent_results. rewrite !map_app, dependent_results_keys by apply dependent_key.
  unfold build_db_dependent_checks, check_keys.
  destruct (reconciliation_enabled settings), (admin_bot_enabled settings), inc; cbn [map app fst];
    by rewrite key_public, key_backup, key_disk, key_database, ?key_reconciliation.
Qed.

Lemma checked_keys now inc d0 d rs : checked now inc d0 d (Ret rs) -> map key rs = check_keys settings inc.
Proof. intros (n & -> & _). apply results_keys. Qed.

Lemma checked_raise now inc d0 d e : checked now inc d0 d (Raise e) ->
  exists check, In check (check_keys settings inc) /\ query_outcome world check = QueryRaises e.
Proof.
  intros (_ & c & Hc & He). exists (fst c). split; [|done]. apply (in_map fst) in Hc.
  unfold build_db_dependent_checks, check_keys in *.
  revert Hc. destruct (reconciliation_enabled settings), (admin_bot_enabled settings), inc; cbn; tauto.
Qed.

(** The monitor always answers completely. Whatever the outage, a run of
    all checks gives exactly one result per check of the configuration, in a
    fixed order, reads only, and stops querying at the first lost
    connection: the checks before it have their verdict on one database, the
    others are critical placeholders, which make the overall status
    critical. Only an error that is not a lost connection propagates. *)
Theorem all_checks_complete now inc w : sound w -> working w = committed w ->
  wp (run_all_checks settings world now inc) (fun res w' =>
    read_only [HttpGet (public_ready_url settings)] w w' /\
    match res with
    | Ret rs => map key rs = check_keys settings inc /\ NoDup (map key rs) /\
        exists n, let checks := build_db_dependent_checks settings world now inc in
          rs = independent_results now (committed w) ++ dependent_results checks n (committed w') /\
          (database_answers world = false -> n = 0%nat) /\
          (forall c, In c (take n checks) -> query_outcome world (fst c) = QueryRuns) /\
          (drop n checks <> [] -> overall_status rs = CRITICAL)
    | Raise e => database_answers world = true /\
        exists check, In check (check_keys settings inc) /\ query_outcome world check = QueryRaises e
    end) w.
Proof.
  intros Hs Hw. eapply wp_mono; [by apply wp_run_all_checks|]. intros res w' [L C]. split; [done|].
  destruct res as [rs|e].
  - pose proof (checked_keys _ _ _ _ _ C) as Ek. split_and!; [done|rewrite Ek; apply check_keys_distinct|].
    destruct C as (n & -> & Hn). exists n. cbv zeta. split_and!; [done| | |].
    + intros E. by rewrite E in Hn.
    + destruct (database_answers world); [apply Hn|by subst].
    + destruct (drop n _) as [|c l] eqn:Ed; [done|]. intros _.
      apply (overall_critical _ (db_unavailable_result (fst c))); [|done].
      apply in_app_iff. right. unfold dependent_results. apply in_app_iff. right. rewrite Ed. by left.
  - split; [apply C|]. by apply checked_raise in C.
Qed.

(** *** Recording the results *)

(** No other session writes incidents during the pass (they may commit
    anything else). *)
Definition undisturbed : Prop := forall n d, monitor_incidents (others n d) = monitor_incidents d.

Lemma undisturbed_evolved d d' : undisturbed -> evolved d d' -> monitor_incidents d' = monitor_incidents d.
Proof. intros U H. induction H as [|d d1 d2 [n E] _ IH]; [done|]. rewrite IH, E. apply U. Qed.

Lemma none_open_same d d' k : monitor_incidents d' = monitor_incidents d -> none_open d k <-> none_open d' k.
Proof. unfold none_open. by intros ->. Qed.

(** The open incidents of [d'] are those the results call for; the incidents
    of other checks are as in [d]. *)
Record synchronised (results : list CheckResult) (d d' : Db) : Prop := {
  sy_healthy : forall r, In r results -> check_status r = OK -> none_open d' (key r);
  sy_unhealthy : forall r, In r results -> check_status r <> OK ->
    exists i, found_open d' (key r) i /\ incident_severity i = check_status r;
  sy_others : forall k i, ~ In (check_key i) (map key results) ->
    (monitor_incidents d' !! k = Some i <-> monitor_incidents d !! k = Some i)
}.

(** Moving one row, of the check [r]. *)
Lemma moved_sync r d i : incidents_ok (monitor_incidents d) -> check_key i = key r ->
  (forall i0, monitor_incidents d !! incident_id i = Some i0 -> check_key i0 = key r) ->
  (forall j b, monitor_incidents d !! j = Some b -> open_key b = Some (key r) -> j = incident_id i) ->
  incident_severity i = check_status r /\ incident_status i = OPEN /\ check_status r <> OK \/
  incident_status i = RESOLVED /\ check_status r = OK ->
  forall d', monitor_incidents d' = <[incident_id i := i]> (monitor_incidents d) -> synchronised [r] d d'.
Proof.
  intros _ Ek E0 Hu Hi d' Ed. split; rewrite ?Ed.
  - intros x [<-|[]] Hok k b Hb Ho. rewrite Ed, lookup_insert in Hb. case_decide as Hj.
    + injection Hb as <-. apply open_key_spec in Ho as [Ho _]. by destruct Hi as [(_ & _ & ?)|[Hr _]]; [|congruence].
    + apply Hj. symmetry. by apply (Hu k b).
  - intros x [<-|[]] Hok. exists i. unfold found_open. rewrite Ed, lookup_insert_eq.
    by destruct Hi as [(? & ? & _)|[_ ?]].
  - intros k b Hb. rewrite lookup_insert. case_decide as Hj; [|done]. subst k. split.
    + intros [= <-]. destruct Hb. rewrite Ek. by left.
    + intros H. destruct Hb. rewrite (E0 _ H). by left.
Qed.

Lemma none_open_sync r d : check_status r = OK -> none_open d (key r) -> synchronised [r] d d.
Proof. intros Hr Hn. split; [by intros x [<-|[]]|by intros x [<-|[]]|done]. Qed.

Lemma moved_severity settings' r now t i : t <> CLOSED ->
  incident_severity (moved settings' r now t i) = check_status r /\
  incident_status (moved settings' r now t i) = incident_status i.
Proof. intros Ht. unfold moved. destruct t; try done; by case_match. Qed.

Lemma moved_fact settings' r now t i : incident_fact (moved settings' r now t i) = incident_fact i.
Proof. unfold moved. destruct t; try done; by case_match. Qed.

Lemma linked_fields now q i : incident_fact (linked now q i) = incident_fact i /\
  incident_status (linked now q i) = incident_status i /\ incident_severity (linked now q i) = incident_severity i.
Proof. by destruct q. Qed.

Lemma synchronised_same rs d1 d1' d2 : monitor_incidents d1' = monitor_incidents d1 ->
  synchronised rs d1 d2 -> synchronised rs d1' d2.
Proof. intros E [H1 H2 H3]. split; [done..|]. by rewrite E. Qed.

Lemma recorded_sync r now w res w' : undisturbed -> sound w -> recorded settings r now w res w' ->
  match res with
  | Ret _ => synchronised [r] (committed w) (committed w')
  | Raise e => e = Unexpected "DBAPIError"
  end.
Proof.
  intros U Hs O. assert (Hi : incidents_ok (monitor_incidents (committed w))) by apply (ok_service _ (so_ok _ Hs)).
  destruct O as [w' Hr Hn _ L _ _|d w' Hr Hn _ L1 Hd L2 _ _|d res w' Hr Hn L C|d i res w' Hf L t C].
  - apply (undisturbed_evolved _ _ U) in L. eapply synchronised_same; [symmetry; exact L|]. by apply none_open_sync.
  - apply (undisturbed_evolved _ _ U) in L2. destruct Hd. by apply (none_open_same _ _ _ L2).
  - apply (undisturbed_evolved _ _ U) in L. rewrite <- L in Hi.
    destruct res as [tr|e]; [|apply C]. apply (synchronised_same _ d); [done|].
    destruct C as (_ & q & _ & D). set (i := opened_incident r now _) in *.
    destruct (linked_fields now q i) as (F & Es & Ev).
    assert (Eid : incident_id (linked now q i) = incident_id i) by (unfold incident_fact in F; congruence).
    apply (moved_sync r _ (linked now q i)); [done| | | | |].
    + unfold incident_fact in F. change (key r) with (check_key i). congruence.
    + rewrite Eid. cbn. intros i0 H. by rewrite next_id_fresh in H.
    + intros j b Hj Ho. by destruct (Hn j b Hj).
    + left. by rewrite Ev, Es.
    + exact (icd_incidents _ _ _ _ _ D).
  - apply (undisturbed_evolved _ _ U) in L. rewrite <- L in Hi.
    destruct res as [tr|e]; [|apply C]. apply (synchronised_same _ d); [done|].
    destruct C as (_ & q & _ & D). set (i' := moved settings r now t i) in *.
    destruct (linked_fields now q i') as (F & Es & Ev). destruct Hf as (H1 & H2 & H3).
    pose proof (moved_fact settings r now t i : incident_fact i' = incident_fact i) as F'.
    assert (Eid : incident_id (linked now q i') = incident_id i) by (unfold incident_fact in F, F'; congruence).
    apply (moved_sync r _ (linked now q i')); [done| | | | |].
    + unfold incident_fact in F, F'. congruence.
    + rewrite Eid. intros i0 H. congruence.
    + rewrite Eid. intros j b Hj Ho. apply (proj2 Hi j (incident_id i) b i (key r)); try done. by apply open_key_spec.
    + rewrite Es, Ev. destruct (bool_decide_reflect (check_status r = OK)) as [Hr|Hr].
      * right. unfold i', t, transition_of. by rewrite (bool_decide_true (check_status r = OK)).
      * left. assert (Ht : t <> CLOSED).
        { unfold t, transition_of. rewrite (bool_decide_false (check_status r = OK)) by done. by repeat case_match. }
        destruct (moved_severity settings r now t i Ht) as [M1 M2]. by rewrite <- H2, <- M2.
    + exact (icd_incidents _ _ _ _ _ D).
Qed.

Lemma recorded_frame r now w res w' : recorded settings r now w res w' ->
  steady w w' /\ calls w' = calls w /\
  match res with Ret _ => working w' = committed w' | Raise e => e = Unexpected "DBAPIError" end.
Proof.
  intros O. destruct O as [w' _ _ S _ C W|d w' _ _ S _ _ _ C W|d res w' _ _ _ C|d i res w' _ _ t C]; [done|done|..];
    (destruct res as [tr|e]; [destruct C as (_ & q & _ & D); split_and!; apply D|by destruct C as (-> & S & _ & E)]).
Qed.

Lemma synchronised_cons r rs d d1 d2 : ~ In (key r) (map key rs) ->
  synchronised [r] d d1 -> synchronised rs d1 d2 -> synchronised (r :: rs) d d2.
Proof.
  intros Hn [H1 U1 O1] [H2 U2 O2]. split.
  - intros x [<-|Hx] Hok; [|by apply H2]. intros k i Hi Ho.
    assert (Ek : check_key i = key r) by (by apply open_key_spec in Ho as [_ ?]).
    apply (H1 r ltac:(by left) Hok k i); [|done]. apply (proj1 (O2 k i ltac:(by rewrite Ek)) Hi).
  - intros x [<-|Hx] Hok; [|by apply U2]. destruct (U1 r ltac:(by left) Hok) as (i & (F1 & F2 & F3) & Hs).
    exists i. split; [|done]. split_and!; try done. apply O2; [by rewrite F3|done].
  - intros k i Hi. cbn in Hi. rewrite (O2 k i) by tauto. apply O1. cbn. tauto.
Qed.

Lemma wp_record_results rs now w : sound w -> working w = committed w -> NoDup (map key rs) ->
  wp (record_results settings rs now) (fun res w' => steady w w' /\ calls w' = calls w /\
    match res with
    | Ret _ => working w' = committed w' /\ (undisturbed -> synchronised rs (committed w) (committed w'))
    | Raise e => e = Unexpected "DBAPIError"
    end) w.
Proof.
  revert w. induction rs as [|r rs IH]; intros w Hs Hw Hnd; cbn [record_results].
  - apply wp_ret. split_and!; [by split|done|done|]. intros _. by split.
  - cbn [map] in Hnd. apply NoDup_cons in Hnd as [Hn Hnd]. rewrite list_elem_of_In in Hn.
    apply wp_bind. eapply wp_mono; [by apply wp_record_check_result|]. intros res w1 O.
    destruct (recorded_frame _ _ _ _ _ O) as (S & C & H). destruct res as [tr|e]; [|done].
    eapply wp_mono; [apply IH; [apply S|done|done]|]. intros res w' (S' & C' & H').
    split_and!; [by eapply steady_trans|congruence|]. destruct res as [[]|e]; [|done].
    destruct H' as [W' Sy]. split; [done|]. intros U. eapply synchronised_cons; [done| |by apply Sy].
    apply (recorded_sync _ _ _ _ _ U Hs O).
Qed.

Lemma nodup_same {A B} (f : A -> B) l x y : NoDup (map f l) -> In x l -> In y l -> f x = f y -> x = y.
Proof.
  induction l as [|a l IH]; [done|]. cbn. intros [Hn Hnd]%NoDup_cons. rewrite list_elem_of_In in Hn.
  intros [->|Hx] [->|Hy] E; [done|..|by apply IH]; destruct Hn; [rewrite E|rewrite <- E]; by apply in_map.
Qed.

(** The integrity check ran exactly when no placeholder stands for it. *)
Lemma integrity_ran now d0 d n : let checks := build_db_dependent_checks settings world now true in
  let rs := independent_results now d0 ++ dependent_results checks n d in
  existsb integrity_placeholder rs = false <->
  In (check_db_integrity (migration_revision world) (server_sequences world) d) rs.
Proof.
  cbv zeta. set (checks := build_db_dependent_checks settings world now true).
  assert (Elast : exists l, checks = l ++ [("db_integrity", check_db_integrity (migration_revision world) (server_sequences world))]).
  { unfold checks, build_db_dependent_checks. rewrite !app_assoc. by eexists. }
  assert (Hreal : integrity_placeholder (check_db_integrity (migration_revision world) (server_sequences world) d) = false).
  { unfold check_db_integrity. by case_match. }
  destruct Elast as [l El]. split.
  - intros E. apply in_app_iff. right. unfold dependent_results. apply in_app_iff. left.
    destruct (decide (n <= length l)%nat) as [Hn|Hn].
    + exfalso. apply not_true_iff_false in E. apply E, existsb_exists. exists (db_unavailable_result "db_integrity").
      split; [|done]. apply in_app_iff. right. apply in_app_iff. right. unfold placeholders. apply in_map_iff.
      exists ("db_integrity", check_db_integrity (migration_revision world) (server_sequences world)). split; [done|].
      rewrite El, drop_app_le by done. apply in_app_iff. right. by left.
    + rewrite firstn_all2, El, map_app by (rewrite El, length_app; cbn; lia). apply in_app_iff. right. by left.
  - intros Hin. apply not_true_iff_false. intros (r & Hr & Hp)%existsb_exists.
    assert (Hnd := check_keys_distinct settings true). rewrite <- (results_keys now true d0 n d) in Hnd.
    apply andb_true_iff in Hp as Hk. destruct Hk as [Hk _]. apply String.eqb_eq in Hk.
    rewrite (nodup_same key _ _ _ Hnd Hr Hin) in Hp by (by rewrite key_integrity). congruence.
Qed.

(** How one pass ends: its results and the database the checks saw. *)
Definition pass_done (inc : bool) (w : World) (ran : bool) (w' : World) : Prop :=
  exists now d rs, checked now inc (committed w) d (Ret rs) /\ evolved (committed w) d /\
    (ran = true <-> inc = true /\ In (check_db_integrity (migration_revision world) (server_sequences world) d) rs) /\
    (undisturbed -> synchronised rs (committed w) (committed w')).

Lemma wp_run_one_pass inc w : sound w ->
  wp (run_one_pass settings world inc) (fun res w' => steady w w' /\ working w' = committed w' /\
    calls w' = HttpGet (public_ready_url settings) :: calls w /\
    match res with
    | Ret ran => pass_done inc w ran w'
    | Raise e => e = Unexpected "DBAPIError" \/
        exists check, In check (check_keys settings inc) /\ query_outcome world check = QueryRaises e
    end) w.
Proof.
  intros Hs. unfold run_one_pass. apply wp_bind, wp_utcnow. intros now w1 T.
  assert (S1 : steady w w1) by (by eapply steady_called).
  wp_step. apply wp_rollback. intros w2 R. assert (S2 : steady w w2).
  { eapply steady_trans; [exact S1|]. eapply steady_rollback; [exact R|apply S1]. }
  assert (E2 : committed w2 = committed w) by (by ws). assert (C2 : calls w2 = calls w) by (by ws).
  clear S1. apply wp_bind, wp_try.
  enough (wp (let* results := run_all_checks settings world now inc in
       record_results settings results now ;;;
       ret (if negb inc then false else negb (existsb integrity_placeholder results)))
    (fun res w' => steady w w' /\ calls w' = HttpGet (public_ready_url settings) :: calls w /\
       match res with
       | Ret ran => working w' = committed w' /\ pass_done inc w ran w'
       | Raise e => e = Unexpected "DBAPIError" \/
           exists check, In check (check_keys settings inc) /\ query_outcome world check = QueryRaises e
       end) w2) as H.
  { eapply wp_mono; [exact H|]. intros [ran|e] w' (S & C & H').
    - wp_step. apply wp_rollback. intros w3 R3. apply wp_ret. split_and!; [|by ws|by ws|].
      + eapply steady_trans; [exact S|]. eapply steady_rollback; [exact R3|apply S].
      + destruct H' as (_ & nw & d & rs & H1 & H2 & H3 & H4). exists nw, d, rs. rewrite (rb_committed _ _ R3). done.
    - wp_step. apply wp_rollback. intros w3 R3. apply wp_raise. split_and!; [|by ws|by ws|done].
      eapply steady_trans; [exact S|]. eapply steady_rollback; [exact R3|apply S]. }
  apply wp_bind. eapply wp_mono; [apply wp_run_all_checks; [apply S2|by ws]|]. intros res w3 [L C]. rewrite E2 in C.
  assert (S3 : steady w w3) by (eapply steady_trans; [exact S2|apply L]).
  assert (C3 : calls w3 = HttpGet (public_ready_url settings) :: calls w) by (rewrite (lk_calls _ _ _ L); cbn; congruence).
  destruct res as [rs|e].
  2:{ split_and!; [done|done|right]. by apply checked_raise in C. }
  apply wp_bind. eapply wp_mono; [apply wp_record_results; [apply S3|apply L|]|].
  { rewrite (checked_keys _ _ _ _ _ C). apply check_keys_distinct. }
  intros res w4 (S4 & C4 & H). assert (S : steady w w4) by (by eapply steady_trans).
  destruct res as [[]|e]; [|split_and!; [done|congruence|by left]].
  apply wp_ret. split_and!; [done|congruence|apply H|]. exists now, (committed w3), rs. split_and!; [done| | |].
  - rewrite <- E2. apply L.
  - destruct inc; cbn [negb]; [|by split; [|intros [? _]]].
    destruct C as (n & -> & _). rewrite negb_true_iff, integrity_ran. by intuition.
  - intros U. rewrite <- E2. apply (synchronised_same _ (committed w3)); [|by apply H].
    symmetry. apply (undisturbed_evolved _ _ U), L.
Qed.

(** C26: A pass makes the open incidents those its results call for. Unless it
    raises (an alert could not be stored, or a query failed otherwise than by
    a lost connection), and provided no other session writes incidents during
    the pass (whatever else they commit), after it every unhealthy check has
    exactly its open incident at the current severity, no healthy check has
    one, and incidents of checks that are not part of the configuration are
    untouched, open ones included. In any case, raising or not, it commits
    legal changes only, sends exactly one request to the outside, the GET of
    the public readiness endpoint, and reports the integrity check as run
    exactly when its verdict is among the results. *)
Theorem monitor_pass_synchronises inc w : sound w ->
  wp (run_one_pass settings world inc) (fun res w' => steady w w' /\ working w' = committed w' /\
    calls w' = HttpGet (public_ready_url settings) :: calls w /\
    match res with
    | Ret ran => exists now d rs,
        map key rs = check_keys settings inc /\ checked now inc (committed w) d (Ret rs) /\
        (ran = true <-> inc = true /\ In (check_db_integrity (migration_revision world) (server_sequences world) d) rs) /\
        (undisturbed -> synchronised rs (committed w) (committed w'))
    | Raise e => e = Unexpected "DBAPIError" \/
        exists check, In check (check_keys settings inc) /\ query_outcome world check = QueryRaises e
    end) w.
Proof.
  intros Hs. eapply wp_mono; [by apply wp_run_one_pass|]. intros [ran|e] w' (S & W & C & H); [|done].
  split_and!; [done..|]. destruct H as (now & d & rs & H1 & _ & H3 & H4). exists now, d, rs.
  split; [by apply (checked_keys now inc (committed w) d)|done].
Qed.
End MonitorFacts.

(** ** The cadence of the integrity check *)

(** The turns from a counter of [c] on: due when the counter reached
    [every], run only when due, and reset by a run. *)
Fixpoint cadence (every c : Z) (turns : list (bool * bool)) : Prop :=
  match turns with
  | [] => True
  | (due, ran) :: rest =>
      due = (every <=? c) /\ (ran = true -> due = true) /\ cadence every (if ran then 0 else c + 1) rest
  end.

Definition ran_at (turns : list (bool * bool)) (j : nat) : Prop := exists due, turns !! j = Some (due, true).

Lemma cadence_due every c turns i due ran : 1 <= every -> cadence every c turns -> turns !! i = Some (due, ran) ->
  due = true <->
  (forall j, (j < i)%nat -> ran_at turns j -> Z.of_nat j + every < Z.of_nat i) /\
  ((exists j, (j < i)%nat /\ ran_at turns j) \/ every <= c + Z.of_nat i).
Proof.
  intros He. revert c i. induction turns as [|[due0 ran0] turns IH]; intros c i; [done|].
  intros (Ed & Er & Hc). destruct i as [|i].
  - intros [= <- <-]. rewrite Ed, Z.leb_le. split.
    + intros H. split; [lia|]. right. lia.
    + intros [_ [(j & Hj & _)|H]]; lia.
  - change ((_ :: turns) !! S i) with (turns !! i). intros Hi. rewrite (IH _ _ Hc Hi).
    assert (Hs : forall j, ran_at ((due0, ran0) :: turns) (S j) <-> ran_at turns j) by done.
    assert (H0 : ran_at ((due0, ran0) :: turns) 0 <-> ran0 = true).
    { split; [intros (d & [= _ ?]); done|]. intros ->. by exists due0. }
    split.
    + intros [H1 H2]. split.
      * intros [|j] Hj Hr; [|apply Hs in Hr; specialize (H1 j ltac:(lia) Hr); lia].
        apply H0 in Hr. subst ran0. destruct H2 as [(j & Hj' & Hr)|H2]; [|lia].
        specialize (H1 j Hj' Hr). lia.
      * destruct H2 as [(j & Hj & Hr)|H2]; [left; exists (S j); by rewrite Hs; split; [lia|]|].
        destruct ran0; [left; exists 0%nat; rewrite H0; by split; [lia|]|right; lia].
    + intros [H1 H2]. split.
      * intros j Hj Hr. apply Hs in Hr. specialize (H1 (S j) ltac:(lia) Hr). lia.
      * destruct ran0.
        -- right. specialize (H1 0%nat ltac:(lia) (proj2 H0 eq_refl)). lia.
        -- destruct H2 as [([|j] & Hj & Hr)|H2]; [by apply H0 in Hr| |right; lia].
           left. exists j. rewrite <- Hs. split; [lia|done].
Qed.

Lemma cadence_ran every c turns i due ran : cadence every c turns -> turns !! i = Some (due, ran) ->
  ran = true -> due = true.
Proof.
  revert c i. induction turns as [|[d0 r0] l IH]; intros c i; [done|]. intros (_ & Er & Hc).
  destruct i as [|i]; [by intros [= <- <-]|]. by apply (IH _ _ Hc).
Qed.

Lemma db_integrity_every_pos settings : 1 <= db_integrity_every settings.
Proof. unfold db_integrity_every. lia. Qed.

Section LoopFacts.
Context {ENV : Env} {RELY : Rely}.
Variables (settings : Settings) (worlds : nat -> MonitorEnv) (iid : string).

Lemma steady_rolled w w' : sound w -> did_rollback w w' -> steady w w' /\ working w' = committed w'.
Proof. intros Hs R. split; [by eapply steady_rollback|by ws]. Qed.

Lemma wp_monitor_heartbeat ok err w : sound w ->
  wp (monitor_heartbeat iid ok err) (fun res w' => res = Ret tt /\ steady w w' /\ working w' = committed w' /\
    calls w' = calls w) w.
Proof.
  intros Hs. eapply wp_mono; [by apply wp_loop_heartbeat|]. intros res w' (-> & now & d & _ & H).
  split_and!; [done|apply H..].
Qed.

Lemma wp_monitor_turn n c w : sound w ->
  wp (monitor_turn settings worlds iid n c) (fun res w' => steady w w' /\ working w' = committed w' /\
    calls w' = HttpGet (public_ready_url settings) :: calls w /\
    exists ran : bool, res = Ret (if ran then 0 else c + 1, (db_integrity_every settings <=? c, ran)) /\
      (ran = true -> (db_integrity_every settings <=? c) = true)) w.
Proof.
  intros Hs. unfold monitor_turn. cbv zeta. set (inc := db_integrity_every settings <=? c).
  apply wp_bind, wp_try, wp_bind. eapply wp_mono; [by apply wp_run_one_pass|].
  intros res w1 (S1 & W1 & C1 & H).
  assert (Hbeat : forall ok err ran, (ran = true -> inc = true) ->
    wp (bind (monitor_heartbeat iid ok err) (fun _ => ret (if (ran : bool) then 0 else c + 1, (inc, ran))))
      (fun res w' => steady w w' /\ working w' = committed w' /\
         calls w' = HttpGet (public_ready_url settings) :: calls w /\
         exists ran : bool, res = Ret (if ran then 0 else c + 1, (inc, ran)) /\ (ran = true -> inc = true)) w1).
  { intros ok err ran Hran. apply wp_bind. eapply wp_mono; [apply wp_monitor_heartbeat, S1|].
    intros res' w2 (-> & S2 & W2 & C2). apply wp_ret. split_and!; [by eapply steady_trans|done|congruence|by exists ran]. }
  destruct res as [ran|e].
  - apply wp_ret, Hbeat. intros ->. destruct H as (? & ? & ? & _ & _ & [H _] & _). by apply H.
  - by apply wp_ret, (Hbeat false (Some (exception_name e)) false).
Qed.

Lemma wp_monitor_turns n k c w : sound w ->
  wp (monitor_turns settings worlds iid n k c) (fun res w' => steady w w' /\
    exists turns, res = Ret turns /\ length turns = n /\ cadence (db_integrity_every settings) c turns) w.
Proof.
  revert k c w. induction n as [|n IH]; intros k c w Hs; cbn [monitor_turns].
  - apply wp_ret. split; [by split|]. by exists [].
  - apply wp_bind. eapply wp_mono; [by apply wp_monitor_turn|]. intros res w1 (S1 & _ & _ & ran & -> & Hran).
    apply wp_bind. eapply wp_mono; [apply IH, S1|]. intros res w2 (S2 & turns & -> & El & Hc).
    apply wp_ret. split; [by eapply steady_trans|]. eexists. split; [done|]. cbn. by rewrite El.
Qed.

(** The cadence of the integrity check. The daemon survives every
    failing pass; the check is due at the first turn and at every turn until
    it has really run, an outage or an exception notwithstanding; after a
    run it is due again exactly when more than [db_integrity_every] turns
    have gone by, so that two runs are at least [db_integrity_every + 1]
    turns apart. *)
Theorem integrity_cadence n w : sound w ->
  wp (run_forever settings worlds iid n) (fun res w' => steady w w' /\
    exists turns, res = Ret turns /\ length turns = n /\
      forall i due ran, turns !! i = Some (due, ran) ->
        (ran = true -> due = true) /\
        (due = true <-> forall j, (j < i)%nat -> ran_at turns j ->
           Z.of_nat j + db_integrity_every settings < Z.of_nat i)) w.
Proof.
  intros Hs. eapply wp_mono; [by apply wp_monitor_turns|]. intros res w' (S & turns & -> & El & Hc).
  split; [done|]. exists turns. split_and!; [done..|]. intros i due ran Hi. split.
  - by eapply cadence_ran.
  - rewrite (cadence_due _ _ _ _ _ _ (db_integrity_every_pos settings) Hc Hi).
    split; [tauto|]. intros H. split; [done|]. right. lia.
Qed.
End LoopFacts.

(** ** Witnesses *)

(** Everything outside the database is fine, and no query fails. *)
Definition calm_world : MonitorEnv :=
  mkMonitorEnv (PublicResponse 200 (Some (JObj [("status", JStr "ready"); ("database", JStr "ok")])) 12000)
    (DirEntries []) (DiskSpace 50000000000 100000000000) true (fun _ => QueryRuns) (fun _ => 0) (Some "0012") ∅
    (fun _ => None).

(** The connection is lost while the manual reviews are counted. *)
Definition cut_world : MonitorEnv :=
  mkMonitorEnv (public_reply calm_world) (backup_listing calm_world) (backup_disk calm_world) true
    (fun check => if String.eqb check "manual_review" then ConnectionLost else QueryRuns) (fun _ => 0) (Some "0012") ∅
    (fun _ => None).

Definition watching_settings : Settings := alerting_settings <| reconciliation_enabled := false |>.

Definition reasons_of (world : MonitorEnv) (d : Db) : list (string * string) :=
  match fst (@run_all_checks calm_env watching_settings world (seconds 100) true (world_of d)) with
  | Ret rs => map (fun r => (key r, reason r)) rs
  | Raise _ => []
  end.

Example outage_reasons : reasons_of cut_world empty_db =
  [("public_ready", "healthy"); ("backup", "no_valid_backup_found"); ("disk_space", "healthy");
   ("reconciliation", "disabled"); ("database", "healthy");
   ("worker_heartbeat:notification-worker", "no_heartbeat_recorded"); ("notification_backlog", "healthy");
   ("manual_review", "database_unavailable"); ("gateway_failure_burst", "database_unavailable");
   ("bot_failure_burst", "database_unavailable"); ("worker_heartbeat:admin-bot-delivery", "database_unavailable");
   ("db_integrity", "database_unavailable")].
Proof. vm_compute. reflexivity. Qed.

Lemma all_checks_complete_witness :
  wp (@run_all_checks calm_env watching_settings cut_world (seconds 100) true) (fun res _ =>
    exists rs, res = Ret rs /\ map key rs = check_keys watching_settings true /\ overall_status rs = CRITICAL)
    (world_of disk_db).
Proof.
  eapply wp_mono; [apply (@all_checks_complete calm_env calm_rely watching_settings cut_world (seconds 100) true
    (world_of disk_db)); [apply disk_sound|reflexivity]|].
  intros [rs|e] w' (_ & H).
  - destruct H as (Ek & _ & n & _ & _ & Hr & Ho). exists rs. split; [reflexivity|]. split; [exact Ek|]. apply Ho.
    intros En. specialize (Hr ("manual_review", check_manual_review watching_settings (seconds 100))).
    rewrite <- (app_nil_r (take n _)), <- En, take_drop in Hr. discriminate (Hr ltac:(do 2 right; left; reflexivity)).
  - destruct H as (_ & check & _ & Hq). exfalso. revert Hq. unfold cut_world, query_outcome.
    destruct (String.eqb check "manual_review"); discriminate.
Defined.

(** Reconciliation was switched off while its worker was reported dead. *)
Definition retired_incident : MonitorIncident :=
  mkMonitorIncident 2 "worker_heartbeat:reconciliation-worker" CRITICAL OPEN (seconds 20) (seconds 20) None None None [].

Definition retired_db : Db := disk_db <| monitor_incidents := {[ 1 := disk_incident; 2 := retired_incident ]} |>.

Lemma retired_sound : sound (world_of retired_db).
Proof.
  apply sound_fresh. destruct (so_ok _ disk_sound) as [O1 O2 O3 O4 O5 O6 O7]. split; try assumption.
  destruct O7 as [A _ H]. split; [exact A| |exact H].
  assert (Hrow : forall k i, monitor_incidents retired_db !! k = Some i ->
    k = 1 /\ i = disk_incident \/ k = 2 /\ i = retired_incident).
  { intros k i Hi. change (({[ 1 := disk_incident; 2 := retired_incident ]} : gmap Z MonitorIncident) !! k = Some i) in Hi.
    apply lookup_insert_Some in Hi as [[<- <-]|[_ Hi]]; [by left|]. apply lookup_singleton_Some in Hi as [<- <-]. by right. }
  split.
  - intros k i Hi. by destruct (Hrow k i Hi) as [[-> ->]|[-> ->]].
  - intros i j x y v Hx Hy Ex Ey. destruct (Hrow i x Hx) as [[-> ->]|[-> ->]], (Hrow j y Hy) as [[-> ->]|[-> ->]]; try done;
      cbv in Ex, Ey; congruence.
Qed.

(** The disk recovered, and its incident is closed; the incident of the
    reconciliation worker, whose check no longer runs, stays open. *)
Lemma monitor_pass_synchronises_witness :
  wp (@run_one_pass calm_env watching_settings calm_world true) (fun res w' =>
    res = Ret true /\ none_open (committed w') "disk_space" /\
    monitor_incidents (committed w') !! 2 = Some retired_incident) (world_of retired_db).
Proof.
  eapply wp_mono; [apply wp_and|].
  - apply (@monitor_pass_synchronises calm_env calm_rely watching_settings calm_world true (world_of retired_db)).
    apply retired_sound.
  - instantiate (1 := fun res _ => res = Ret true). vm_compute. reflexivity.
  - cbv beta. intros res w' [(_ & _ & _ & H) ->]. destruct H as (now & d & rs & Ek & C & _ & Hsync).
    destruct (Hsync (fun _ _ => eq_refl)) as [Hh _ Ho]. split; [reflexivity|]. split.
    + destruct C as (n & -> & _).
      apply (Hh (check_disk watching_settings (backup_disk calm_world))); [|reflexivity].
      apply in_app_iff. left. do 2 right. left. reflexivity.
    + apply Ho; [|reflexivity]. rewrite Ek. cbn. intuition discriminate.
Defined.

(** Twice the interval of the passes between two integrity checks: every
    third pass runs one, not every second. *)
Definition frequent_settings : Settings := default_settings <| monitor_db_integrity_interval := seconds 120 |>.

Lemma integrity_cadence_witness :
  db_integrity_every frequent_settings = 2 /\
  wp (@run_forever calm_env frequent_settings (fun _ => calm_world) "host-1" 7) (fun res _ =>
    res = Ret [(true, true); (false, false); (false, false); (true, true); (false, false); (false, false); (true, true)] /\
    exists turns, res = Ret turns /\ length turns = 7%nat) (world_of disk_db).
Proof.
  split; [reflexivity|]. eapply wp_mono; [apply wp_and|].
  - apply (@integrity_cadence calm_env calm_rely frequent_settings (fun _ => calm_world) "host-1" 7 (world_of disk_db)).
    apply disk_sound.
  - instantiate (1 := fun res _ => res = Ret [(true, true); (false, false); (false, false); (true, true); (false, false);
      (false, false); (true, true)]). vm_compute. reflexivity.
  - intros res w' [(_ & turns & E & El & _) Hr]. split; [exact Hr|]. exists turns. auto.
Defined.
