(* ===== verification/HealthWatch.v ===== *)
(** The admin bot's health watch ([app/adminbot/health.py]): six checks per
    pass, counters of consecutive failures and successes kept in memory, and
    an alert when a check turns unhealthy or recovers.

    The probe of the API and what a query meets are parameters of a pass. The
    counters are threaded through a pass explicitly, because they survive a
    pass that raises. *)

From S2P Require Import Prelude PyText Exceptions Config Models ServiceTables Session AuditTrail Ledger.
From S2P Require Import Notification Integrity Incidents Heartbeat ReconStatus.

#[local] Open Scope Z_scope.

(** [CheckResult] of health.py. *)
Record HealthResult := mkHealthResult {
  check : string;
  health_ok : bool;
  health_detail : string
}.

(** The world of one pass: [api_probe] raises or says whether the API is
    ready, [select_one] is [queries.database_ok], and [health_query] says
    whether the query of a check raises. *)
Record HealthWorld := mkHealthWorld {
  api_probe : option bool;
  select_one : bool;
  health_query : string -> option Exn
}.

(** ** The checks *)

Definition latest_backup_at (atype : string) (d : Db) : option Z :=
  column_max (map alert_created_at (List.filter (fun a => String.eqb (alert_type a) atype) (rows (admin_alerts d)))).

Definition retry_stalled (cutoff : Z) (p : Payment) : bool :=
  bool_decide (status p = BOT_NOTIFY_PENDING) && is_none (notification_claimed_at p) &&
  match next_retry_at p with Some t => t <=? cutoff | None => false end.

Definition alert_stalled (cutoff : Z) (a : AdminAlert) : bool :=
  bool_decide (alert_status a = PENDING) && (alert_created_at a <=? cutoff).

Definition count_detail (name : string) (n : nat) : string := (name ++ "=" ++ str_of_int (Z.of_nat n))%string.

Section Checks.
Context `{Env}.
Variables (settings : Settings) (world : HealthWorld).

Definition health_read {A} (name : string) (f : Db -> A) : M A :=
  match health_query world name with
  | Some e => raise e
  | None => let* d := get_db in ret (f d)
  end.

Definition worker_heartbeat_age : M (option Z) :=
  let* heartbeat := health_read "worker_heartbeat" (fun d => latest_worker_heartbeat d "notification-worker") in
  match heartbeat with
  | None => ret None
  | Some h => let* now := utcnow in ret (Some (now - last_heartbeat_at h))
  end.

Definition run_health_checks : M (list HealthResult) :=
  let* now := utcnow in
  let ready := match api_probe world with Some ready => ready | None => false end in
  let* age := worker_heartbeat_age in
  let worker_ok := match age with
                   | Some a => a <? Z.max (bot_notify_worker_interval settings * 6) (seconds 120)
                   | None => false
                   end in
  let worker_detail := match age with
                       | Some a => ("age=" ++ str_of_int (Z.quot a (seconds 1)) ++ "s")%string
                       | None => "no heartbeat"
                       end in
  let* stalled := health_read "retry_queue" (fun d => length (payments_where (retry_stalled (now - minutes 10)) d)) in
  let* backup := health_read "backup" (latest_backup_at "backup_succeeded") in
  let backup_ok := match backup with Some created => now - created <? minutes (26 * 60) | None => false end in
  let* stuck := health_read "alert_queue"
    (fun d => length (List.filter (alert_stalled (now - minutes 15)) (rows (admin_alerts d)))) in
  ret [mkHealthResult "api_ready" ready "readiness probe";
       mkHealthResult "database" (select_one world) "SELECT 1";
       mkHealthResult "worker_heartbeat" worker_ok worker_detail;
       mkHealthResult "retry_queue" (Nat.eqb stalled 0) (count_detail "stalled" stalled);
       mkHealthResult "backup" backup_ok (if backup_ok then "recent backup found" else "overdue");
       mkHealthResult "alert_queue" (Nat.eqb stuck 0) (count_detail "stalled" stuck)].
End Checks.

(** ** The monitor *)

Record HealthMonitor := mkHealthMonitor {
  failure_counts : gmap string Z;
  success_counts : gmap string Z;
  alerted : gset string
}.

#[export] Instance eta_HealthMonitor : Eta HealthMonitor := fun m =>
  mkHealthMonitor (failure_counts m) (success_counts m) (alerted m).

Definition new_monitor : HealthMonitor := mkHealthMonitor ∅ ∅ ∅.

Definition count_of (counts : gmap string Z) (name : string) : Z := default 0 (counts !! name).

Inductive Announcement := ServiceRecovered | ServiceUnhealthy.

(** [_process], up to the alert: the counters and whether to announce. *)
Definition observe (settings : Settings) (m : HealthMonitor) (r : HealthResult) : HealthMonitor * option Announcement :=
  let name := check r in
  if health_ok r then
    let successes := count_of (success_counts m) name + 1 in
    let m' := m <| failure_counts := <[name := 0]> (failure_counts m) |>
               <| success_counts := <[name := successes]> (success_counts m) |> in
    if bool_decide (name ∈ alerted m) && (admin_bot_health_recovery_threshold settings <=? successes)
    then (m' <| alerted := alerted m ∖ {[name]} |>, Some ServiceRecovered)
    else (m', None)
  else
    let failures := count_of (failure_counts m) name + 1 in
    let m' := m <| success_counts := <[name := 0]> (success_counts m) |>
               <| failure_counts := <[name := failures]> (failure_counts m) |> in
    if negb (bool_decide (name ∈ alerted m)) && (admin_bot_health_failure_threshold settings <=? failures)
    then (m' <| alerted := alerted m ∪ {[name]} |>, Some ServiceUnhealthy)
    else (m', None).

Definition health_payload (r : HealthResult) : dict := [("check", JStr (check r)); ("detail", JStr (health_detail r))].

Record Turn := mkTurn { turn_results : list HealthResult; turn_error : option Exn }.

Section Passes.
Context `{Env}.
Variable settings : Settings.

Definition announce (r : HealthResult) (a : Announcement) : M unit :=
  if admin_bot_health_alerts settings then
    (match a with
     | ServiceRecovered => create_alert "service_recovered" "info" None None (Some (health_payload r)) None None
     | ServiceUnhealthy => create_alert "service_unhealthy" "error" None
         (Some ("service_unhealthy:" ++ check r)%string) (Some (health_payload r)) None None
     end) ;;;
    ret tt
  else ret tt.

(** The loop over the results: those processed, and the exception that
    stopped it. *)
Fixpoint process_all (m : HealthMonitor) (results : list HealthResult) : M (HealthMonitor * Turn) :=
  match results with
  | [] => ret (m, mkTurn [] None)
  | r :: results =>
      let '(m, change) := observe settings m r in
      let* failed := match change with
                     | Some a => try_catch (announce r a ;;; ret None) (fun e => ret (Some e))
                     | None => ret None
                     end in
      match failed with
      | Some e => ret (m, mkTurn [r] (Some e))
      | None =>
          let* rest := process_all m results in
          ret (fst rest, mkTurn (r :: turn_results (snd rest)) (turn_error (snd rest)))
      end
  end.

(** [run_once]. *)
Definition run_once (world : HealthWorld) (m : HealthMonitor) : M (HealthMonitor * Turn) :=
  new_session ;;;
  let* results := try_catch (let* results := run_health_checks settings world in ret (inl results))
                    (fun e => ret (inr e)) in
  match results with
  | inr e => rollback ;;; ret (m, mkTurn [] (Some e))
  | inl results =>
      let* done := process_all m results in
      match turn_error (snd done) with
      | Some _ => rollback ;;; ret done
      | None => commit ;;; rollback ;;; ret done
      end
  end.

(** [n] passes of one process, the [k]-th in the world [worlds k]: an exception
    ends its pass only. *)
Fixpoint watch (worlds : nat -> HealthWorld) (n k : nat) (m : HealthMonitor) : M (HealthMonitor * list Turn) :=
  match n with
  | O => ret (m, [])
  | S n =>
      let* turn := run_once (worlds k) m in
      let* rest := watch worlds n (S k) (fst turn) in
      ret (fst rest, snd turn :: snd rest)
  end.
End Passes.

(** ** Specification: when a check is unhealthy *)

(** The history ends with [n] results [b]. *)
Definition ends (b : bool) (n : nat) (h : list bool) : Prop := exists pre, h = pre ++ repeat b n.

(** A run of [n] results [b] occurs in the history. *)
Definition occurs (b : bool) (n : nat) (h : list bool) : Prop := exists pre post, h = pre ++ repeat b n ++ post.

(** Some [n] consecutive failures were not followed by [m] consecutive
    successes since. The history is in the order of time. *)
Definition unhealthy (n m : nat) (h : list bool) : Prop :=
  exists pre post, h = pre ++ repeat false n ++ post /\ ~ occurs true m post.

Definition outcomes (name : string) (seen : list HealthResult) : list bool :=
  map health_ok (List.filter (fun r => String.eqb (check r) name) seen).

(** ** Facts *)

Lemma list_snoc_inv {A} (l : list A) : l = [] \/ exists l' x, l = l' ++ [x].
Proof. destruct l using rev_ind; [by left|right; eauto]. Qed.

Lemma repeat_snoc {A} (x : A) n : repeat x (S n) = repeat x n ++ [x].
Proof. apply repeat_cons. Qed.

Lemma ends_snoc_same b n h : ends b (S n) (h ++ [b]) <-> ends b n h.
Proof.
  unfold ends. split; intros [pre E].
  - rewrite repeat_snoc, app_assoc in E. apply app_inj_tail in E as [-> _]. eauto.
  - exists pre. by rewrite repeat_snoc, app_assoc, E.
Qed.

Lemma ends_snoc_other b n h : ends b n (h ++ [negb b]) <-> n = O.
Proof.
  unfold ends. split; [|intros ->; exists (h ++ [negb b]); by rewrite app_nil_r].
  destruct n as [|n]; [done|]. intros [pre E]. rewrite repeat_snoc, app_assoc in E.
  apply app_inj_tail in E as [_ E]. by destruct b.
Qed.

Lemma ends_0 b h : ends b 0 h.
Proof. exists h. by rewrite app_nil_r. Qed.

Lemma ends_after m a p : ends true m (a ++ [false] ++ p) -> ends true m p.
Proof.
  revert p. induction m as [|m IH]; intros p H; [apply ends_0|].
  destruct (list_snoc_inv p) as [->|(p' & x & ->)].
  { rewrite app_nil_r in H. by apply (ends_snoc_other true) in H. }
  rewrite !app_assoc in H. destruct x.
  - rewrite ends_snoc_same, <- app_assoc in *. by apply IH.
  - by apply (ends_snoc_other true) in H.
Qed.

Lemma occurs_snoc b m h x : (0 < m)%nat ->
  occurs b m (h ++ [x]) <-> occurs b m h \/ ends b m (h ++ [x]).
Proof.
  intros Hm. split.
  - intros (pre & post & E). destruct (list_snoc_inv post) as [->|(post' & y & ->)].
    + right. exists pre. by rewrite E, app_nil_r.
    + left. exists pre, post'. rewrite !app_assoc in E. apply app_inj_tail in E as [-> _]. by rewrite !app_assoc.
  - intros [(pre & post & ->)|[pre E]].
    + exists pre, (post ++ [x]). by rewrite <- !app_assoc.
    + exists pre, []. by rewrite app_nil_r.
Qed.

Lemma column_max_in l t : column_max l = Some t -> In t l.
Proof.
  revert t. induction l as [|a l IH]; intros t; [done|]. cbn. fold (column_max l).
  destruct (column_max l) as [b|]; intros [= <-]; [|by left].
  destruct (Z.max_spec a b) as [[_ ->]|[_ ->]]; [right; by apply IH|by left].
Qed.

Lemma column_max_above l a : In a l -> exists t, column_max l = Some t /\ a <= t.
Proof.
  induction l as [|b l IH]; [done|]. cbn. fold (column_max l). intros [->|Hin].
  - destruct (column_max l); eexists; (split; [done|lia]).
  - destruct (IH Hin) as (t & -> & ?). eexists. split; [done|lia].
Qed.

Section Unhealthy.
Context (n m : nat) (Hn : (0 < n)%nat) (Hm : (0 < m)%nat).

Lemma unhealthy_nil : ~ unhealthy n m [].
Proof. intros (pre & post & E & _). destruct n; [lia|]. by destruct pre. Qed.

Lemma occurs_nil b : ~ occurs b m [].
Proof. intros (pre & post & E). destruct m; [lia|]. by destruct pre. Qed.

Lemma unhealthy_fails h : unhealthy n m (h ++ [false]) <-> unhealthy n m h \/ ends false n (h ++ [false]).
Proof.
  split.
  - intros (pre & post & E & Ho). destruct (list_snoc_inv post) as [->|(post' & y & ->)].
    + right. exists pre. by rewrite E, app_nil_r.
    + left. exists pre, post'. rewrite !app_assoc in E. apply app_inj_tail in E as [-> _].
      rewrite !app_assoc. split; [done|]. intros Hc. by apply Ho, occurs_snoc; [|left].
  - intros [(pre & post & -> & Ho)|[pre E]].
    + exists pre, (post ++ [false]). rewrite <- !app_assoc. split; [done|].
      intros [Hc|Hc]%occurs_snoc; [done| |done]. apply (ends_snoc_other true) in Hc. lia.
    + exists pre, []. rewrite app_nil_r. split; [done|]. apply occurs_nil.
Qed.

Lemma unhealthy_succeeds h : unhealthy n m (h ++ [true]) <-> unhealthy n m h /\ ~ ends true m (h ++ [true]).
Proof.
  split.
  - intros (pre & post & E & Ho). destruct (list_snoc_inv post) as [->|(post' & y & ->)].
    { exfalso. assert (Hc : ends false n (h ++ [true])) by (exists pre; by rewrite E, app_nil_r).
      apply (ends_snoc_other false) in Hc. lia. }
    assert (E' := E). rewrite !app_assoc in E'. apply app_inj_tail in E' as [-> <-]. split.
    { exists pre, post'. rewrite !app_assoc. split; [done|]. intros Hc. by apply Ho, occurs_snoc; [|left]. }
    intros Hc. apply Ho. rewrite E in Hc. destruct n as [|n0]; [lia|]. rewrite repeat_snoc, <- app_assoc, app_assoc in Hc.
    apply ends_after in Hc. destruct Hc as [q ->]. exists q, []. by rewrite app_nil_r.
  - intros [(pre & post & -> & Ho) Hne]. exists pre, (post ++ [true]). rewrite <- !app_assoc. split; [done|].
    intros [Hc|[q E]]%occurs_snoc; [done| |done]. apply Hne. exists (pre ++ repeat false n ++ q).
    by rewrite <- !app_assoc, E.
Qed.
End Unhealthy.

(** The counters of a monitor reflect what it has seen. *)
Section Monitors.
Variable settings : Settings.
Hypothesis failures_positive : 0 < admin_bot_health_failure_threshold settings.
Hypothesis recoveries_positive : 0 < admin_bot_health_recovery_threshold settings.

Definition check_unhealthy (h : list bool) : Prop :=
  unhealthy (Z.to_nat (admin_bot_health_failure_threshold settings))
    (Z.to_nat (admin_bot_health_recovery_threshold settings)) h.

Record reflects (seen : list HealthResult) (m : HealthMonitor) : Prop := {
  rf_failures name k : ends false k (outcomes name seen) <-> Z.of_nat k <= count_of (failure_counts m) name;
  rf_successes name k : ends true k (outcomes name seen) <-> Z.of_nat k <= count_of (success_counts m) name;
  rf_alerted name : name ∈ alerted m <-> check_unhealthy (outcomes name seen)
}.

Definition changes (before after : Prop) (change : option Announcement) : Prop :=
  match change with
  | None => before <-> after
  | Some ServiceUnhealthy => ~ before /\ after
  | Some ServiceRecovered => before /\ ~ after
  end.

Lemma outcomes_same seen r : outcomes (check r) (seen ++ [r]) = outcomes (check r) seen ++ [health_ok r].
Proof. unfold outcomes. rewrite List.filter_app, map_app. cbn. by rewrite String.eqb_refl. Qed.

Lemma outcomes_other name seen r : name <> check r -> outcomes name (seen ++ [r]) = outcomes name seen.
Proof.
  intros Hne. unfold outcomes. rewrite List.filter_app, map_app. cbn.
  rewrite (proj2 (String.eqb_neq (check r) name)) by done. apply app_nil_r.
Qed.

Lemma count_same counts name v : count_of (<[name := v]> counts) name = v.
Proof. unfold count_of. by rewrite lookup_insert_eq. Qed.

Lemma count_other counts name name' v : name' <> name -> count_of (<[name := v]> counts) name' = count_of counts name'.
Proof. intros Hne. unfold count_of. by rewrite lookup_insert_ne. Qed.

(** A count that is one larger after a result of its kind. *)
Lemma count_grows b h c : (forall k, ends b k h <-> Z.of_nat k <= c) ->
  forall k, ends b k (h ++ [b]) <-> Z.of_nat k <= c + 1.
Proof.
  intros Hc [|k].
  - split; [|intros _; apply ends_0]. intros _. pose proof (proj1 (Hc 0%nat) (ends_0 b h)). lia.
  - rewrite ends_snoc_same, Hc. lia.
Qed.

Lemma count_resets b h k : ends b k (h ++ [negb b]) <-> Z.of_nat k <= 0.
Proof. rewrite ends_snoc_other. lia. Qed.

Lemma reflects_new : reflects [] new_monitor.
Proof.
  assert (E : forall b k, ends b k [] <-> Z.of_nat k <= 0).
  { intros b k. split; [intros [pre E]|intros ?; assert (k = O) as -> by lia; apply ends_0].
    destruct k; [done|]. by destruct pre. }
  split; intros name; [exact (E false)|exact (E true)|].
  cbn. rewrite elem_of_empty. split; [done|]. intros Hu. by apply unhealthy_nil in Hu; [|lia..].
Qed.

Lemma reflects_success seen m r : reflects seen m -> health_ok r = true ->
  let name := check r in let c := count_of (success_counts m) name + 1 in
  let m' := m <| failure_counts := <[name := 0]> (failure_counts m) |>
              <| success_counts := <[name := c]> (success_counts m) |> in
  forall s, (forall other, other <> name -> other ∈ s <-> other ∈ alerted m) ->
    (name ∈ s <-> name ∈ alerted m /\ c < admin_bot_health_recovery_threshold settings) ->
    reflects (seen ++ [r]) (m' <| alerted := s |>).
Proof.
  intros R Hok name c m' s Hother Hname. split; intros x; destruct (decide (x = name)) as [->|Hne]; cbn.
  - intros k. unfold name. rewrite outcomes_same, Hok, count_same. apply (count_resets false).
  - intros k. rewrite outcomes_other, count_other by done. apply R.
  - intros k. unfold name. rewrite outcomes_same, Hok, count_same. apply count_grows. intros j. apply R.
  - intros k. rewrite outcomes_other, count_other by done. apply R.
  - rewrite Hname. unfold name. rewrite outcomes_same, Hok. unfold check_unhealthy.
    rewrite unhealthy_succeeds by lia.
    rewrite (count_grows true _ _ (fun k => rf_successes _ _ R (check r) k)), (rf_alerted _ _ R).
    fold name c. unfold check_unhealthy. split; intros [? ?]; (split; [done|lia]).
  - rewrite Hother, outcomes_other by done. apply R.
Qed.

Lemma reflects_failure seen m r : reflects seen m -> health_ok r = false ->
  let name := check r in let c := count_of (failure_counts m) name + 1 in
  let m' := m <| success_counts := <[name := 0]> (success_counts m) |>
              <| failure_counts := <[name := c]> (failure_counts m) |> in
  forall s, (forall other, other <> name -> other ∈ s <-> other ∈ alerted m) ->
    (name ∈ s <-> name ∈ alerted m \/ admin_bot_health_failure_threshold settings <= c) ->
    reflects (seen ++ [r]) (m' <| alerted := s |>).
Proof.
  intros R Hok name c m' s Hother Hname. split; intros x; destruct (decide (x = name)) as [->|Hne]; cbn.
  - intros k. unfold name. rewrite outcomes_same, Hok, count_same. apply count_grows. intros j. apply R.
  - intros k. rewrite outcomes_other, count_other by done. apply R.
  - intros k. unfold name. rewrite outcomes_same, Hok, count_same. apply (count_resets true).
  - intros k. rewrite outcomes_other, count_other by done. apply R.
  - rewrite Hname. unfold name. rewrite outcomes_same, Hok. unfold check_unhealthy.
    rewrite unhealthy_fails by lia.
    rewrite (count_grows false _ _ (fun k => rf_failures _ _ R (check r) k)), (rf_alerted _ _ R).
    fold name c. unfold check_unhealthy. split; (intros [?|?]; [by left|right; lia]).
  - rewrite Hother, outcomes_other by done. apply R.
Qed.

Lemma observe_reflects seen m r : reflects seen m ->
  reflects (seen ++ [r]) (fst (observe settings m r)) /\
  changes (check_unhealthy (outcomes (check r) seen)) (check_unhealthy (outcomes (check r) (seen ++ [r])))
    (snd (observe settings m r)).
Proof.
  intros R. assert (Hch : forall m' c, reflects (seen ++ [r]) m' ->
    changes (check r ∈ alerted m) (check r ∈ alerted m') c ->
    reflects (seen ++ [r]) m' /\
    changes (check_unhealthy (outcomes (check r) seen)) (check_unhealthy (outcomes (check r) (seen ++ [r]))) c).
  { intros m' c R' Hc. split; [done|]. unfold changes in *.
    destruct c as [[]|]; by rewrite <- (rf_alerted _ _ R), <- (rf_alerted _ _ R'). }
  unfold observe. destruct (health_ok r) eqn:Hok.
  - destruct (bool_decide_reflect (check r ∈ alerted m)) as [Ha|Ha]; cbn [andb].
    + destruct (Z.leb_spec (admin_bot_health_recovery_threshold settings) (count_of (success_counts m) (check r) + 1));
        (apply Hch; cbn; [|rewrite ?elem_of_difference, ?elem_of_singleton; tauto]).
      * apply reflects_success; [done|done|intros x Hx|]; rewrite elem_of_difference, elem_of_singleton; [tauto|].
        split; [tauto|lia].
      * apply (reflects_success _ _ _ R Hok (alerted m)); [done|]. split; [|tauto]. intros _. split; [done|lia].
    + apply Hch; [|done]. apply (reflects_success _ _ _ R Hok (alerted m)); [done|tauto].
  - destruct (bool_decide_reflect (check r ∈ alerted m)) as [Ha|Ha]; cbn [andb negb].
    + apply Hch; [|done]. apply (reflects_failure _ _ _ R Hok (alerted m)); [done|tauto].
    + destruct (Z.leb_spec (admin_bot_health_failure_threshold settings) (count_of (failure_counts m) (check r) + 1));
        (apply Hch; cbn; [|rewrite ?elem_of_union, ?elem_of_singleton; tauto]).
      * apply reflects_failure; [done|done|intros x Hx|]; rewrite elem_of_union, elem_of_singleton; [tauto|].
        split; [by right|by right].
      * apply (reflects_failure _ _ _ R Hok (alerted m)); [done|]. split; [by left|intros [?|?]; [done|lia]].
Qed.

(** What the results of a pass announce, after what was seen before: the
    alerts are inserted in the order of the results, and only for changes. *)
Inductive announced : list HealthResult -> list HealthResult -> gmap Z AdminAlert -> gmap Z AdminAlert -> Prop :=
| announced_nothing seen d : announced seen [] d d
| announced_unchanged seen r rs d d' :
    (check_unhealthy (outcomes (check r) seen) <-> check_unhealthy (outcomes (check r) (seen ++ [r]))) ->
    announced (seen ++ [r]) rs d d' -> announced seen (r :: rs) d d'
| announced_silently seen r rs d d' : admin_bot_health_alerts settings = false ->
    announced (seen ++ [r]) rs d d' -> announced seen (r :: rs) d d'
| announced_unhealthy seen r rs d d' now st : admin_bot_health_alerts settings = true ->
    ~ check_unhealthy (outcomes (check r) seen) -> check_unhealthy (outcomes (check r) (seen ++ [r])) ->
    let dkey := Some ("service_unhealthy:" ++ check r)%string in fresh_status d dkey st ->
    announced (seen ++ [r]) rs
      (<[next_id d := new_alert (next_id d) "service_unhealthy" "error" None dkey (Some (health_payload r)) now st]> d) d' ->
    announced seen (r :: rs) d d'
| announced_recovered seen r rs d d' now : admin_bot_health_alerts settings = true ->
    check_unhealthy (outcomes (check r) seen) -> ~ check_unhealthy (outcomes (check r) (seen ++ [r])) ->
    announced (seen ++ [r]) rs
      (<[next_id d := new_alert (next_id d) "service_recovered" "info" None None (Some (health_payload r)) now PENDING]> d) d' ->
    announced seen (r :: rs) d d'.

Context {ENV : Env} {RELY : Rely}.

(** What a change leads to. *)
Definition announcement_made (r : HealthResult) (c : Announcement) (d d' : gmap Z AdminAlert) : Prop :=
  if admin_bot_health_alerts settings then
    exists now st,
      match c with
      | ServiceUnhealthy =>
          let dkey := Some ("service_unhealthy:" ++ check r)%string in fresh_status d dkey st /\
          d' = <[next_id d := new_alert (next_id d) "service_unhealthy" "error" None dkey (Some (health_payload r)) now st]> d
      | ServiceRecovered =>
          st = PENDING /\
          d' = <[next_id d := new_alert (next_id d) "service_recovered" "info" None None (Some (health_payload r)) now st]> d
      end
  else d' = d.

Lemma announced_change seen r rs c d1 d2 d3 :
  changes (check_unhealthy (outcomes (check r) seen)) (check_unhealthy (outcomes (check r) (seen ++ [r]))) (Some c) ->
  announcement_made r c d1 d2 -> announced (seen ++ [r]) rs d2 d3 -> announced seen (r :: rs) d1 d3.
Proof.
  unfold announcement_made. destruct (admin_bot_health_alerts settings) eqn:E.
  - intros Hc (now & st & Hd). destruct c, Hc as [Hb Ha], Hd as [Hst ->]; intros Hrest.
    + subst st. by eapply announced_recovered.
    + by eapply announced_unhealthy.
  - intros _ ->. by apply announced_silently.
Qed.

Lemma wp_announce r c w :
  wp (announce settings r c) (fun res w' => audited [] w w' /\
    (res = Ret tt -> announcement_made r c (admin_alerts (working w)) (admin_alerts (working w')))) w.
Proof.
  unfold announce, announcement_made. destruct (admin_bot_health_alerts settings).
  2:{ apply wp_ret. split; [apply audited_refl|done]. }
  apply wp_bind. destruct c; apply wp_create_alert_now;
    try (intros w' C; split; [by apply audited_called|done]).
  - intros now st w' [->|(_ & k & b & _ & _ & [=] & _)] a A Ea. apply wp_ret. split; [done|]. intros _.
    exists now, PENDING. by rewrite Ea.
  - intros now st w' Hst a A Ea. apply wp_ret. split; [done|]. intros _. exists now, st. by rewrite Ea.
Qed.

(** A pass over the results: how far it came, and what the monitor and the
    outbox have become. *)
Record processed (seen rs : list HealthResult) (d d' : gmap Z AdminAlert) (m : HealthMonitor) (t : Turn) : Prop := {
  pr_prefix : turn_results t `prefix_of` rs;
  pr_reflects : reflects (seen ++ turn_results t) m;
  pr_complete : turn_error t = None -> turn_results t = rs /\ announced seen rs d d'
}.

Lemma processed_cons seen r rs c d1 d2 d3 m t :
  changes (check_unhealthy (outcomes (check r) seen)) (check_unhealthy (outcomes (check r) (seen ++ [r]))) c ->
  match c with None => d1 = d2 | Some c => announcement_made r c d1 d2 end ->
  processed (seen ++ [r]) rs d2 d3 m t ->
  processed seen (r :: rs) d1 d3 m (mkTurn (r :: turn_results t) (turn_error t)).
Proof.
  intros Hc Hd [Hp Hr Hcomp]. split; cbn.
  - by apply prefix_cons.
  - by rewrite <- app_assoc in Hr.
  - intros [-> Ha]%Hcomp. split; [done|]. destruct c as [c|]; [by eapply announced_change|].
    subst. by apply announced_unchanged.
Qed.

Lemma wp_process_all rs seen m w : reflects seen m ->
  wp (process_all settings m rs) (fun res w' => exists m' t, res = Ret (m', t) /\ audited [] w w' /\
    processed seen rs (admin_alerts (working w)) (admin_alerts (working w')) m' t) w.
Proof.
  revert seen m w. induction rs as [|r rs IH]; intros seen m w R.
  { apply wp_ret. exists m, (mkTurn [] None). split_and!; [done|apply audited_refl|].
    split; cbn; [done|by rewrite app_nil_r|]. intros _. split; [done|constructor]. }
  cbn [process_all]. destruct (observe_reflects seen m r R) as [R' Hc].
  destruct (observe settings m r) as [m1 c]. cbn [fst snd] in R', Hc.
  assert (Hgo : forall w1, audited [] w w1 ->
    match c with None => admin_alerts (working w) = admin_alerts (working w1)
               | Some c => announcement_made r c (admin_alerts (working w)) (admin_alerts (working w1)) end ->
    wp (let* rest := process_all settings m1 rs in
        ret (fst rest, mkTurn (r :: turn_results (snd rest)) (turn_error (snd rest))))
      (fun res w' => exists m' t, res = Ret (m', t) /\ audited [] w w' /\
         processed seen (r :: rs) (admin_alerts (working w)) (admin_alerts (working w')) m' t) w1).
  { intros w1 A1 Hd. apply wp_bind. eapply wp_mono; [by apply (IH (seen ++ [r]))|].
    intros res w2 (m2 & t & -> & A2 & P). apply wp_ret. cbn [fst snd]. do 2 eexists. split_and!; [done| |].
    - exact (audited_trans [] [] _ _ _ A1 A2).
    - by eapply processed_cons. }
  apply wp_bind. destruct c as [c|]; [|apply wp_ret, Hgo; [apply audited_refl|done]].
  apply wp_try, wp_bind. eapply wp_mono; [apply wp_announce|]. intros [[]|e] w1 [A1 Hd].
  - apply wp_ret. apply Hgo; [done|by apply Hd].
  - do 2 apply wp_ret. do 2 eexists. split_and!; [done|done|].
    split; cbn; [by apply prefix_cons, prefix_nil|done|done].
Qed.


End Monitors.

(** What the six checks promise, of the database [d] of their session. *)
Section Verdicts.
Context {ENV : Env} (settings : Settings) (world : HealthWorld).

Definition beats_recently (d : Db) (now : Z) : Prop :=
  exists k h, worker_heartbeats d !! k = Some h /\ worker_name h = "notification-worker" /\
    now - last_heartbeat_at h < Z.max (6 * bot_notify_worker_interval settings) (seconds 120).

Definition no_retry_stalled (d : Db) (now : Z) : Prop :=
  forall k p t, payments d !! k = Some p -> status p = BOT_NOTIFY_PENDING -> notification_claimed_at p = None ->
    next_retry_at p = Some t -> now - minutes 10 < t.

Definition backed_up (d : Db) (now : Z) : Prop :=
  exists k a, admin_alerts d !! k = Some a /\ alert_type a = "backup_succeeded" /\
    now < alert_created_at a + minutes (26 * 60).

Definition no_alert_stalled (d : Db) (now : Z) : Prop :=
  forall k a, admin_alerts d !! k = Some a -> alert_status a = PENDING -> now - minutes 15 < alert_created_at a.

Definition verdicts (d : Db) (now later : Z) : list (string * Prop) :=
  [("api_ready", api_probe world = Some true); ("database", select_one world = true);
   ("worker_heartbeat", beats_recently d later); ("retry_queue", no_retry_stalled d now);
   ("backup", backed_up d now); ("alert_queue", no_alert_stalled d now)].

Definition answers (r : HealthResult) (v : string * Prop) : Prop := check r = fst v /\ (health_ok r = true <-> snd v).

Lemma latest_backup_spec d now :
  match latest_backup_at "backup_succeeded" d with Some t => now - t <? minutes (26 * 60) | None => false end = true
  <-> backed_up d now.
Proof.
  unfold latest_backup_at, backed_up. set (l := map _ _).
  assert (Hl : forall t, In t l <-> exists k a, admin_alerts d !! k = Some a /\ alert_type a = "backup_succeeded" /\
                 alert_created_at a = t).
  { intros t. unfold l. rewrite in_map_iff. split.
    - intros (a & <- & [[k Hk]%in_rows Ht%String.eqb_eq]%filter_In). eauto.
    - intros (k & a & Ha & Ht & <-). exists a. split; [done|]. apply filter_In. rewrite Ht. split; [|done].
      apply in_rows. eauto. }
  clearbody l. split.
  - destruct (column_max l) as [t|] eqn:Em; [|done]. intros Hlt%Z.ltb_lt.
    destruct (proj1 (Hl t) (column_max_in _ _ Em)) as (k & a & ? & ? & <-). exists k, a. split_and!; [done..|lia].
  - intros (k & a & Ha & Ht & Hlt). assert (Hin : In (alert_created_at a) l) by (apply Hl; eauto).
    destruct (column_max_above _ _ Hin) as (t & -> & Hle). apply Z.ltb_lt. lia.
Qed.

Lemma count_zero {A} (f : A -> bool) (m : gmap Z A) (P : A -> Prop) : (forall x, f x = false <-> P x) ->
  Nat.eqb (length (List.filter f (rows m))) 0 = true <-> forall k x, m !! k = Some x -> P x.
Proof.
  intros Hf. rewrite Nat.eqb_eq, length_zero_iff_nil. split.
  - intros E k x Hx. apply Hf. destruct (f x) eqn:Ef; [|done].
    assert (Hin : In x (List.filter f (rows m))) by (apply filter_In; split; [apply in_rows; eauto|done]).
    by rewrite E in Hin.
  - intros HP. destruct (List.filter f (rows m)) as [|x l] eqn:E; [done|].
    assert (Hin : In x (List.filter f (rows m))) by (rewrite E; by left).
    apply filter_In in Hin as [[k Hk]%in_rows Hx]. apply HP, Hf in Hk. congruence.
Qed.

Lemma retry_queue_spec d now :
  Nat.eqb (length (payments_where (retry_stalled (now - minutes 10)) d)) 0 = true <-> no_retry_stalled d now.
Proof.
  unfold payments_where. rewrite (count_zero _ _ (fun p => forall t, status p = BOT_NOTIFY_PENDING ->
    notification_claimed_at p = None -> next_retry_at p = Some t -> now - minutes 10 < t)).
  - unfold no_retry_stalled. split; eauto.
  - intros p. unfold retry_stalled. rewrite !andb_false_iff, bool_decide_eq_false.
    destruct (notification_claimed_at p), (next_retry_at p) as [t|]; cbn [is_none]; rewrite ?Z.leb_gt.
    all: split; [intros [[?|?]|?] t' ? ? [= <-]; congruence|].
    1-2: intros _; left; by right.
    + intros Hp. destruct (decide (status p = BOT_NOTIFY_PENDING)); [right; by apply Hp|left; by left].
    + intros _. by right.
Qed.

Lemma alert_queue_spec d now :
  Nat.eqb (length (List.filter (alert_stalled (now - minutes 15)) (rows (admin_alerts d)))) 0 = true <->
  no_alert_stalled d now.
Proof.
  rewrite (count_zero _ _ (fun a => alert_status a = PENDING -> now - minutes 15 < alert_created_at a)); [done|].
  intros a. unfold alert_stalled. rewrite andb_false_iff, bool_decide_eq_false, Z.leb_gt.
  destruct (decide (alert_status a = PENDING)); tauto.
Qed.

Lemma heartbeat_spec d now :
  match latest_worker_heartbeat d "notification-worker" with
  | Some h => now - last_heartbeat_at h <? Z.max (bot_notify_worker_interval settings * 6) (seconds 120)
  | None => false
  end = true <-> beats_recently d now.
Proof.
  unfold latest_worker_heartbeat, beats_recently. set (l := List.filter _ _).
  assert (Hl : forall h, In h l <-> exists k, worker_heartbeats d !! k = Some h /\ worker_name h = "notification-worker").
  { intros h. unfold l. rewrite filter_In, in_rows, String.eqb_eq. split; [intros [[k Hk] Hn]|intros (k & Hk & Hn)]; eauto. }
  clearbody l. destruct (pick_min later_heartbeat l) as [h|] eqn:Eh.
  - rewrite Z.ltb_lt, (Z.mul_comm (bot_notify_worker_interval settings)). split.
    + intros Hlt. destruct (proj1 (Hl h) (pick_min_In _ _ _ Eh)) as (k & Hk & Hn). eauto.
    + intros (k & h' & Hk & Hn & Hlt). assert (Hin : In h' l) by (apply Hl; eauto).
      apply (pick_min_least later_heartbeat) with (a := h) in Hin; [|unfold later_heartbeat; lia..|done].
      unfold later_heartbeat in Hin. lia.
  - apply pick_min_None in Eh as ->. split; [done|]. intros (k & h & Hk & Hn & _). exfalso. by apply (Hl h); eauto.
Qed.

Lemma read_known {A} name (f : Db -> A) w :
  wp (health_read world name f) (fun r w' => w' = w /\ match r with
    | Ret a => a = f (working w)
    | Raise e => health_query world name = Some e
    end) w.
Proof. unfold health_read. destruct (health_query world name); [by apply wp_raise|]. by apply wp_bind, wp_get_db, wp_ret. Qed.

Lemma wp_heartbeat_age w :
  wp (worker_heartbeat_age world) (fun r w' => called [] w w' /\ match r with
    | Ret age => exists later, age = option_map (fun h => later - last_heartbeat_at h)
                                (latest_worker_heartbeat (working w) "notification-worker")
    | Raise e => exists name, health_query world name = Some e
    end) w.
Proof.
  unfold worker_heartbeat_age. apply wp_bind. eapply wp_mono; [apply read_known|]. intros [h|e] w1 [-> Hh].
  2:{ split; [apply called_refl|eauto]. }
  destruct h as [h|].
  - apply wp_bind, wp_utcnow. intros now w1 C. apply wp_ret. split; [done|]. exists now. by rewrite <- Hh.
  - apply wp_ret. split; [apply called_refl|]. exists 0. by rewrite <- Hh.
Qed.

(** The checks only read, and each verdict is what the check promises. *)
Lemma wp_run_health_checks w :
  wp (run_health_checks settings world) (fun r w' => called [] w w' /\ match r with
    | Ret results => exists now later, Forall2 answers results (verdicts (working w) now later)
    | Raise e => exists name, health_query world name = Some e
    end) w.
Proof.
  unfold run_health_checks. apply wp_bind, wp_utcnow. intros now w1 C1. apply wp_bind.
  eapply wp_mono; [apply wp_heartbeat_age|]. intros [age|e] w2 [C2 Hage];
    pose proof (called_trans [] [] _ _ _ C1 C2) as C; [|done].
  destruct Hage as [later ->]. rewrite (ca_working _ _ _ C1).
  do 3 (apply wp_bind; eapply wp_mono; [apply read_known|]; intros [?|?] ? [-> Hread]; [subst|split; [done|eauto]]).
  apply wp_ret. split; [done|]. exists now, later. rewrite (ca_working _ _ _ C).
  repeat constructor; cbn; try done.
  - by destruct (api_probe world) as [[]|].
  - intros Ha. by rewrite Ha.
  - intros Hh. apply heartbeat_spec. by destruct (latest_worker_heartbeat _ _).
  - intros Hh. apply heartbeat_spec in Hh. by destruct (latest_worker_heartbeat _ _).
  - apply retry_queue_spec.
  - apply retry_queue_spec.
  - apply latest_backup_spec.
  - apply latest_backup_spec.
  - apply alert_queue_spec.
  - apply alert_queue_spec.
Qed.
End Verdicts.

(** ** Passes *)

Section PassFacts.
Context {ENV : Env} {RELY : Rely} (settings : Settings).
Hypothesis failures_positive : 0 < admin_bot_health_failure_threshold settings.
Hypothesis recoveries_positive : 0 < admin_bot_health_recovery_threshold settings.

(** Nothing changed but the outbox, and the audit of its alerts. *)
Record only_alerts (d d' : Db) : Prop := {
  oa_payments : payments d' = payments d;
  oa_identities : payer_identities d' = payer_identities d;
  oa_policies : fee_policies d' = fee_policies d;
  oa_incidents : monitor_incidents d' = monitor_incidents d;
  oa_heartbeats : worker_heartbeats d' = worker_heartbeats d;
  oa_trail : trail d' = trail d
}.

(** One pass, after [seen], over the database [d] of its session. *)
Record pass_done (world : HealthWorld) (seen : list HealthResult) (d : Db) (t : Turn) (d' : Db) : Prop := {
  pd_verdicts : exists now later,
    Forall2 answers (turn_results t) (take (length (turn_results t)) (verdicts settings world d now later)) /\
    (turn_error t = None -> length (turn_results t) = 6%nat);
  pd_outbox : match turn_error t with
              | Some _ => d' = d
              | None => only_alerts d d' /\
                        announced settings seen (turn_results t) (admin_alerts d) (admin_alerts d')
              end
}.

Lemma Forall2_prefix {A B} (R : A -> B -> Prop) l l' k : Forall2 R l k -> l' `prefix_of` l ->
  Forall2 R l' (take (length l') k).
Proof. intros HF [tl ->]. apply Forall2_app_inv_l in HF as (k1 & k2 & H1 & H2 & ->). by rewrite (Forall2_length _ _ _ H1), take_app_length. Qed.

Lemma quiet_only_alerts w w' : audited [] w w' -> only_alerts (working w) (working w').
Proof.
  intros A. split; try by ws. unfold trail. by rewrite (au_events _ _ _ A).
Qed.

Lemma verdicts_prefix world d now later results rs t m' d1 d2 seen :
  Forall2 answers results (verdicts settings world d now later) -> processed settings seen results d1 d2 m' t ->
  rs = turn_results t ->
  Forall2 answers rs (take (length rs) (verdicts settings world d now later)) /\
  (turn_error t = None -> length rs = 6%nat).
Proof.
  intros Hv P ->. split; [by eapply Forall2_prefix, P|]. intros Hn.
  destruct (pr_complete _ _ _ _ _ _ _ P Hn) as [-> _]. by rewrite (Forall2_length _ _ _ Hv).
Qed.

(** After the checks have been read. *)
Lemma wp_finish_pass world seen m results now later w0 w1 w : reflects settings seen m ->
  steady w0 w1 -> working w1 = committed w1 -> called [] w1 w ->
  Forall2 answers results (verdicts settings world (committed w1) now later) ->
  wp (let* done := process_all settings m results in
      match turn_error (snd done) with
      | Some _ => rollback ;;; ret done
      | None => commit ;;; rollback ;;; ret done
      end) (fun r w' => exists m' t, r = Ret (m', t) /\ steady w0 w' /\ calls w' = calls w1 /\
    reflects settings (seen ++ turn_results t) m' /\ pass_done world seen (committed w1) t (committed w')) w.
Proof.
  intros R S1 Hf C Hv. pose proof (steady_called _ _ _ C (proj1 S1)) as S2. apply wp_bind.
  eapply wp_mono; [by apply (wp_process_all settings failures_positive recoveries_positive results seen m)|].
  intros res w3 (m' & t & -> & A & P). cbn [snd].
  pose proof (steady_audited _ _ _ A (proj1 S2)) as S3. pose proof (verdicts_prefix _ _ _ _ _ _ _ _ _ _ _ Hv P eq_refl) as V.
  assert (S13 : steady w0 w3) by (by do 2 (eapply steady_trans; [eassumption|])).
  destruct (turn_error t) as [e|] eqn:Et.
  - apply wp_bind, wp_rollback. intros w4 B. apply wp_ret. exists m', t. split_and!; [done| |by ws|apply P|].
    + eapply steady_trans; [exact S13|]. by eapply steady_rollback; [|apply S3].
    + split; [by exists now, later; rewrite Et|]. rewrite Et. by ws.
  - apply wp_bind, wp_commit. intros w4 K. apply wp_bind, wp_rollback. intros w5 B. apply wp_ret.
    exists m', t. split_and!; [done| |by ws|apply P|].
    + pose proof (steady_commit _ _ K (proj1 S3)) as S4. eapply steady_trans; [exact S13|].
      eapply steady_trans; [exact S4|]. by eapply steady_rollback; [|apply S4].
    + rewrite (rb_committed _ _ B), (cm_committed _ _ K).
      assert (E : working w = committed w1) by (by rewrite (ca_working _ _ _ C)).
      split; [by exists now, later; rewrite Et|]. rewrite Et, <- E. split; [by apply quiet_only_alerts|].
      destruct (pr_complete _ _ _ _ _ _ _ P Et) as [-> Ha]. exact Ha.
Qed.

Lemma wp_run_once world seen m w : sound w -> reflects settings seen m ->
  wp (run_once settings world m) (fun r w' => exists m' t n, r = Ret (m', t) /\ steady w w' /\ calls w' = calls w /\
    reflects settings (seen ++ turn_results t) m' /\
    pass_done world seen (others n (committed w)) t (committed w')) w.
Proof.
  intros Hs R. unfold run_once. apply wp_bind, wp_new_session; [done|]. intros w1 O S1.
  destruct (op_committed _ _ O) as [n En]. pose proof (op_working _ _ O) as Hf.
  apply wp_bind, wp_try, wp_bind. eapply wp_mono; [apply wp_run_health_checks|]. intros [results|e] w2 [C H].
  - apply wp_ret. destruct H as (now & later & Hv). rewrite Hf in Hv.
    eapply wp_mono; [by eapply (wp_finish_pass world seen m results now later w w1)|].
    intros r w3 (m' & t & -> & S & Ec & R' & P). exists m', t, n. rewrite <- En. split_and!; try done.
    rewrite Ec. apply O.
  - apply wp_ret. apply wp_bind, wp_rollback. intros w3 B. apply wp_ret. exists m, (mkTurn [] (Some e)), n.
    pose proof (steady_called _ _ _ C (proj1 S1)) as S2. pose proof (steady_rollback _ _ B (proj1 S2)) as S3.
    rewrite <- En, app_nil_r. split_and!; [done| | |done|].
    + by do 2 (eapply steady_trans; [eassumption|]).
    + rewrite (rb_calls _ _ B), (ca_calls _ _ _ C). apply O.
    + split; [exists 0, 0; by split; [constructor|]|]. cbn. by rewrite (rb_committed _ _ B), (ca_committed _ _ _ C).
Qed.

Lemma process_all_quiet rs m w : wp (process_all settings m rs) (fun _ w' => audited [] w w') w.
Proof.
  revert m w. induction rs as [|r rs IH]; intros m w; [by apply wp_ret, audited_refl|]. cbn [process_all].
  destruct (observe settings m r) as [m1 c]. apply wp_bind.
  assert (Hgo : forall w1, audited [] w w1 ->
    wp (let* rest := process_all settings m1 rs in
        ret (fst rest, mkTurn (r :: turn_results (snd rest)) (turn_error (snd rest)))) (fun _ w' => audited [] w w') w1).
  { intros w1 A. apply wp_bind. eapply wp_mono; [apply IH|]. intros [rest|e] w2 A2; [apply wp_ret|];
      exact (audited_trans [] [] _ _ _ A A2). }
  destruct c as [c|]; [|by apply wp_ret, Hgo, audited_refl].
  apply wp_try, wp_bind. eapply wp_mono; [apply wp_announce|]. intros [[]|e] w1 [A _]; apply wp_ret; [by apply Hgo|].
  by apply wp_ret.
Qed.

Lemma run_once_steady world m w : sound w -> wp (run_once settings world m) (fun _ w' => steady w w') w.
Proof.
  intros Hs. unfold run_once. apply wp_bind, wp_new_session; [done|]. intros w1 O S1.
  apply wp_bind, wp_try, wp_bind. eapply wp_mono; [apply wp_run_health_checks|]. intros [results|e] w2 [C _];
    pose proof (steady_trans _ _ _ S1 (steady_called _ _ _ C (proj1 S1))) as S2; apply wp_ret.
  2:{ apply wp_bind, wp_rollback. intros w3 B. apply wp_ret. eapply steady_trans; [exact S2|].
      by eapply steady_rollback; [|apply S2]. }
  apply wp_bind. eapply wp_mono; [apply process_all_quiet|]. intros [turn|e] w3 A;
    pose proof (steady_trans _ _ _ S2 (steady_audited _ _ _ A (proj1 S2))) as S3; [|done].
  destruct (turn_error (snd turn)).
  - apply wp_bind, wp_rollback. intros w4 B. apply wp_ret. eapply steady_trans; [exact S3|].
    by eapply steady_rollback; [|apply S3].
  - apply wp_bind, wp_commit. intros w4 K. apply wp_bind, wp_rollback. intros w5 B. apply wp_ret.
    pose proof (steady_trans _ _ _ S3 (steady_commit _ _ K (proj1 S3))) as S4. eapply steady_trans; [exact S4|].
    by eapply steady_rollback; [|apply S4].
Qed.

(** The passes of a process, with what other sessions commit before each. *)
Inductive watched (worlds : nat -> HealthWorld) : nat -> list HealthResult -> World -> list Turn -> World -> Prop :=
| watched_none k seen w : watched worlds k seen w [] w
| watched_pass k seen w w1 w2 n t ts : steady w w1 -> calls w1 = calls w ->
    pass_done (worlds k) seen (others n (committed w)) t (committed w1) ->
    watched worlds (S k) (seen ++ turn_results t) w1 ts w2 -> watched worlds k seen w (t :: ts) w2.

Lemma wp_watch worlds n k seen m w : sound w -> reflects settings seen m ->
  wp (watch settings worlds n k m) (fun r w' => exists m' ts, r = Ret (m', ts) /\ length ts = n /\
    watched worlds k seen w ts w' /\ reflects settings (seen ++ flat_map turn_results ts) m') w.
Proof.
  revert k seen m w. induction n as [|n IH]; intros k seen m w Hs R; cbn [watch].
  { apply wp_ret. exists m, []. split_and!; [done..|constructor|by rewrite app_nil_r]. }
  apply wp_bind. eapply wp_mono; [by apply wp_run_once|]. intros r w1 (m1 & t & j & -> & S & Ec & R1 & P).
  apply wp_bind. cbn [fst]. eapply wp_mono; [apply IH; [apply S|exact R1]|].
  intros r w2 (m2 & ts & -> & Hl & Hw & R2). apply wp_ret. cbn. exists m2, (t :: ts). split_and!; [done|by rewrite <- Hl| |].
  - by econstructor.
  - by rewrite <- app_assoc in R2.
Qed.
End PassFacts.

(** ** Properties *)

(** C37: The health watch alerts exactly on changes of health. Every pass
    returns, whatever raises in it. A check counts as unhealthy exactly when
    some [failure_threshold] consecutive failures were not followed by
    [recovery_threshold] consecutive successes since; this, over all the
    results of the process, is what the monitor's memory says, across passes
    that raised. A pass that completes announces, in the same transaction, a
    check that became unhealthy and one that recovered, each once, and
    nothing else; every verdict says what the check promises of the database;
    a pass that raises commits nothing. Payments, incidents and heartbeats are
    not touched and nothing is sent. *)
Theorem health_watch_exact `{Rely} settings worlds n w :
  0 < admin_bot_health_failure_threshold settings -> 0 < admin_bot_health_recovery_threshold settings -> sound w ->
  wp (watch settings worlds n 0 new_monitor) (fun r w' => exists m ts, r = Ret (m, ts) /\ length ts = n /\
    watched settings worlds 0 [] w ts w' /\
    forall name, name ∈ alerted m <-> check_unhealthy settings (outcomes name (flat_map turn_results ts))) w.
Proof.
  intros Hf Hr Hs. eapply wp_mono; [apply (wp_watch settings Hf Hr worlds n 0 []); [done|by apply reflects_new]|].
  intros r w' (m & ts & -> & Hl & Hw & R). exists m, ts. split_and!; [done..|]. apply R.
Qed.

(** The memory of a pass survives the failure of its transaction: when the
    last alert of the third pass cannot be stored, the two before it are
    rolled back with it, but all three checks count as alerted, and no later
    pass announces any of them. *)
Definition api_down : HealthWorld := mkHealthWorld (Some false) true (fun _ => None).

#[local] Definition refusing_once : Env := {|
  clock := clock; randbelow := randbelow; token_hex := token_hex;
  locked_by_others := locked_by_others; others := others;
  alert_insert_fails := fun n => Nat.eqb n 11;
  gateway_post := gateway_post; bot_post := bot_post
|}.

Definition lost_alerts (n : nat) : bool :=
  match @watch refusing_once default_settings (fun _ => api_down) n 0 new_monitor (world_of empty_db) with
  | (Ret (m, _), w) =>
      bool_decide (alerted m = {["api_ready"; "worker_heartbeat"; "backup"]}) &&
      bool_decide (length (rows (admin_alerts (committed w))) = 0%nat)
  | _ => false
  end.

Lemma failed_pass_loses_alerts : lost_alerts 8 = true.
Proof. vm_compute. reflexivity. Qed.

(** ** Witnesses *)

Lemma health_watch_exact_witness :
  sound (world_of (db_of [example_due 1])) /\
  wp (@watch calm_env default_settings (fun _ => api_down) 4 0 new_monitor) (fun r w' => exists m ts,
    r = Ret (m, ts) /\ length ts = 4%nat /\ forall name, name ∈ alerted m <->
      check_unhealthy default_settings (outcomes name (flat_map turn_results ts))) (world_of (db_of [example_due 1])).
Proof.
  assert (S : sound (world_of (db_of [example_due 1]))) by (apply sound_example; vm_compute; reflexivity).
  split; [exact S|]. eapply wp_mono.
  - apply (@health_watch_exact calm_env calm_rely default_settings (fun _ => api_down) 4
      (world_of (db_of [example_due 1]))); [reflexivity|reflexivity|exact S].
  - intros r w' (m & ts & -> & Hl & _ & Ha). exists m, ts. split; [reflexivity|]. split; [exact Hl|exact Ha].
Defined.
