(* ===== verification/DailyReport.v ===== *)
(** The daily report of the admin bot ([app/adminbot/reports.py], with the
    figures of [daily_report_payload] in [app/adminbot/queries.py]): when it
    is due, what it says, and that it is queued once a day.

    The zone database ([TimeZones]), the time an event was recorded
    ([EventTimes]) and the texts of the report are parameters. *)

From S2P Require Import Prelude PyText Exceptions Config Models ServiceTables Session AuditTrail Ledger.
From S2P Require Import Notification Stuck ReconStatus Startup Incidents HealthWatch.

#[local] Open Scope Z_scope.

Inductive BackupStatus := BackupUnknown | BackupSucceeded | BackupFailed.

(** The texts in the report. *)
Class ReportTexts := {
  backup_text : BackupStatus -> string;
  health_summary : string
}.

(** ** The figures *)

(** The sums over the payments verified since [cutoff]: of the amounts, the
    fees and what the payers were charged. *)
Definition verified_since (cutoff : Z) (p : Payment) : bool :=
  match gateway_verified_at p with Some t => cutoff <=? t | None => false end.

Definition sum_of (f : Payment -> Z) (l : list Payment) : Z := fold_right Z.add 0 (map f l).

(** [latest_backup_alert] of both kinds, compared. *)
Definition backup_status (d : Db) : BackupStatus :=
  match latest_backup_at "backup_succeeded" d, latest_backup_at "backup_failed" d with
  | None, None => BackupUnknown
  | Some _, None => BackupSucceeded
  | Some ok_at, Some failed_at => if failed_at <=? ok_at then BackupSucceeded else BackupFailed
  | None, Some _ => BackupFailed
  end.

Section Figures.
Context `{Env} `{EventTimes} `{ReportTexts}.

Definition event_count_since (etype : string) (hours : Z) : M Z :=
  let* now := utcnow in
  let* d := get_db in
  ret (Z.of_nat (length (List.filter (fun e => String.eqb (event_type e) etype) (recent_events now hours d)))).

Definition daily_report_payload (report_date : string) (hours : Z) : M dict :=
  let* now := utcnow in
  let* d := get_db in
  let verified := payments_where (verified_since (now - seconds (hours * 3600))) d in
  let* links := event_count_since "payment_link_created" hours in
  let* gateway_verified := event_count_since "gateway_payment_verified" hours in
  let* accepted := event_count_since "bot_notification_accepted" hours in
  let* d_reviews := get_db in
  let* getlink_failures := event_count_since "centralpay_getlink_failed" hours in
  let* verify_failures := event_count_since "centralpay_verify_failed" hours in
  let* delivery_failures := event_count_since "bot_notification_failed" hours in
  ret [("report_date", JStr report_date); ("backup_status", JStr (backup_text (backup_status d)));
       ("links_created", JInt links); ("gateway_verified", JInt gateway_verified); ("bot_accepted", JInt accepted);
       ("total_verified_toman", JInt (sum_of amount verified));
       ("total_original_invoices_toman", JInt (sum_of amount verified));
       ("total_fees_toman", JInt (sum_of fee_amount verified));
       ("total_collected_via_gateway_toman", JInt (sum_of payable_amount verified));
       ("manual_review", JInt (count_open_manual_reviews d_reviews));
       ("pending_retry", JInt (count_by_status d_reviews BOT_NOTIFY_PENDING));
       ("getlink_failures", JInt getlink_failures); ("verify_failures", JInt verify_failures);
       ("bot_delivery_failures", JInt delivery_failures)].
End Figures.

(** ** The report *)

Definition report_due `{TimeZones} (settings : Settings) (now_utc : Z) : Res (option string) :=
  if negb (admin_bot_daily_report_enabled settings) then Ret None
  else match zone_info (admin_bot_timezone settings) with
       | None => Raise (Unexpected "ZoneInfoNotFoundError")
       | Some local =>
           let local_now := local now_utc in
           match report_time (admin_bot_daily_report_time settings) with
           | None => Raise (Unexpected "ValueError")
           | Some (hour, minute) =>
               if (hour <? local_hour local_now) ||
                  (hour =? local_hour local_now) && (minute <=? local_minute local_now)
               then Ret (Some (local_date local_now))
               else Ret None
           end
       end.

Definition report_key (report_date : string) : string := ("daily_report:" ++ report_date)%string.

Definition has_key (dedup_key : string) (a : AdminAlert) : bool :=
  match deduplication_key a with Some k => String.eqb k dedup_key | None => false end.

Section Report.
Context `{Env} `{EventTimes} `{ReportTexts} `{TimeZones}.
Variable settings : Settings.

Definition maybe_queue_daily_report (now_arg : option Z) : M bool :=
  let* now_utc := match now_arg with Some t => ret t | None => utcnow end in
  let* due := match report_due settings now_utc with Ret due => ret due | Raise e => raise e end in
  match due with
  | None => ret false
  | Some report_date =>
      let dedup_key := report_key report_date in
      let* d := get_db in
      if existsb (has_key dedup_key) (rows (admin_alerts d)) then ret false
      else
        let* payload := daily_report_payload report_date 24 in
        create_alert "daily_report" "info" None (Some dedup_key)
          (Some (payload ++ [("health_summary", JStr health_summary)])) (Some (60 * 48)) None ;;;
        record_event None "daily_report_delivered" "info"
          [("report_date", JStr report_date); ("queued", JBool true)] ;;;
        commit ;;;
        ret true
  end.

(** [_report] of [background_loop]: one attempt, in a session of its own. *)
Definition report_pass : M bool :=
  new_session ;;;
  let* queued := try_catch (maybe_queue_daily_report None) (fun e => rollback ;;; raise e) in
  rollback ;;;
  ret queued.

(** [n] attempts of a process, failures included. *)
Fixpoint report_passes (n : nat) : M (list (Res bool)) :=
  match n with
  | O => ret []
  | S n =>
      let* first := try_catch (let* queued := report_pass in ret (Ret queued)) (fun e => ret (Raise e)) in
      let* rest := report_passes n in
      ret (first :: rest)
  end.
End Report.

(** ** Facts *)

Section ReportFacts.
Context {ENV : Env} {RELY : Rely} {TIMES : EventTimes} {TEXTS : ReportTexts} {ZONES : TimeZones}.
Variable settings : Settings.

(** A report of that day was queued. *)
Definition reported (report_date : string) (d : Db) : Prop :=
  exists k a, admin_alerts d !! k = Some a /\ deduplication_key a = Some (report_key report_date).

Lemma has_key_spec dedup_key a : has_key dedup_key a = true <-> deduplication_key a = Some dedup_key.
Proof.
  unfold has_key. destruct (deduplication_key a) as [k|]; [|done]. rewrite String.eqb_eq. split; congruence.
Qed.

Lemma reported_spec report_date d :
  existsb (has_key (report_key report_date)) (rows (admin_alerts d)) = true <-> reported report_date d.
Proof.
  rewrite existsb_exists. unfold reported. split.
  - intros (a & [k Hk]%in_rows & Ha%has_key_spec). eauto.
  - intros (k & a & Hk & Ha). exists a. rewrite has_key_spec, in_rows. eauto.
Qed.

(** Alerts are never lost, and keep their key. *)
Lemma reported_kept report_date d d' : db_legal d d' -> reported report_date d -> reported report_date d'.
Proof.
  intros L (k & a & Hk & Ha). destruct (sl_alerts _ _ (le_service _ _ L)) as [Hkeep _].
  destruct (Hkeep k a Hk) as (a' & Hk' & F). exists k, a'. split; [done|].
  pose proof (al_fact _ _ F) as E. unfold alert_fact in E. congruence.
Qed.

(** The figures of a report add up: what was collected is the invoices and
    the fees. *)
Record figures (now : Z) (d : Db) (report_date : string) (p : dict) : Prop := {
  fg_date : dict_get "report_date" p = Some (JStr report_date);
  fg_sums : exists invoices fees, dict_get "total_original_invoices_toman" p = Some (JInt invoices) /\
    dict_get "total_fees_toman" p = Some (JInt fees) /\
    dict_get "total_collected_via_gateway_toman" p = Some (JInt (invoices + fees)) /\
    invoices = sum_of amount (payments_where (verified_since (now - seconds (24 * 3600))) d) /\
    fees = sum_of fee_amount (payments_where (verified_since (now - seconds (24 * 3600))) d)
}.

Lemma sums_add_up d flt : (forall i p, payments d !! i = Some p -> row_ok p = true) ->
  sum_of payable_amount (payments_where flt d) = sum_of amount (payments_where flt d) + sum_of fee_amount (payments_where flt d).
Proof.
  intros Hok. unfold sum_of, payments_where.
  assert (Hall : Forall (fun p => payable_amount p = amount p + fee_amount p) (rows (payments d))).
  { apply List.Forall_forall. intros p [i Hi]%in_rows. by apply Hok, row_ok_spec in Hi as (_ & _ & _ & (_ & _ & ?) & _). }
  induction Hall as [|p l Hp _ IH]; [done|]. cbn. destruct (flt p); cbn; lia.
Qed.

Lemma wp_event_count etype hours w :
  wp (event_count_since etype hours) (fun r w' => called [] w w' /\ exists n, r = Ret n) w.
Proof. apply wp_bind, wp_utcnow. intros now w1 C. apply wp_bind, wp_get_db, wp_ret. eauto. Qed.

Lemma wp_daily_report_payload report_date w : db_ok (working w) ->
  wp (daily_report_payload report_date 24) (fun r w' => called [] w w' /\ exists p, r = Ret p /\
    figures (clock (ticks w)) (working w) report_date (p ++ [("health_summary", JStr health_summary)])) w.
Proof.
  intros Hok. unfold daily_report_payload. apply wp_bind, wp_tick. intros w1 C.
  apply wp_bind, wp_get_db. rewrite (ca_working _ _ _ C).
  do 3 (apply wp_bind; eapply wp_mono; [apply wp_event_count|]; intros ? ? (Cn & ? & ->);
        apply (called_trans [] [] _ _ _ C) in Cn; clear C; rename Cn into C).
  apply wp_bind, wp_get_db.
  do 3 (apply wp_bind; eapply wp_mono; [apply wp_event_count|]; intros ? ? (Cn & ? & ->);
        apply (called_trans [] [] _ _ _ C) in Cn; clear C; rename Cn into C).
  apply wp_ret. split; [exact C|]. eexists. split; [reflexivity|]. split; [reflexivity|].
  do 2 eexists. split_and!; try reflexivity. cbn [dict_get app String.eqb].
  rewrite <- sums_add_up by apply Hok. reflexivity.
Qed.

(** From [d] to [d'] exactly one report was queued, for the day it was due by
    the clock reading [k] of the attempt, with the figures of the next
    reading, to be sent. *)
Record report_queued (k : nat) (report_date : string) (d d' : Db) : Prop := {
  rq_due : report_due settings (clock k) = Ret (Some report_date);
  rq_new : ~ reported report_date d;
  rq_alert : exists a p, admin_alerts d !! alert_id a = None /\ admin_alerts d' !! alert_id a = Some a /\
    alert_type a = "daily_report" /\ alert_status a = PENDING /\
    deduplication_key a = Some (report_key report_date) /\ payload a = Some p /\ figures (clock (S k)) d report_date p;
  rq_outbox : outbox_grew (admin_alerts d) (admin_alerts d');
  rq_trail : trail d' = "daily_report_delivered" :: trail d;
  rq_rest : payments d' = payments d /\ payer_identities d' = payer_identities d /\ fee_policies d' = fee_policies d /\
    monitor_incidents d' = monitor_incidents d /\ worker_heartbeats d' = worker_heartbeats d
}.

Lemma queued_reported k report_date d d' : report_queued k report_date d d' -> reported report_date d'.
Proof. intros Q. destruct (rq_alert _ _ _ _ Q) as (a & _ & _ & Ha & _ & _ & Hk & _). by exists (alert_id a), a. Qed.

(** What an attempt that first reads the clock at [k] may leave. *)
Definition attempted_report (k : nat) (d : Db) (r : Res bool) (d' : Db) : Prop :=
  match r with
  | Ret true => exists report_date, report_queued k report_date d d'
  | _ => d' = d
  end.

Lemma wp_queue_report k report_date w : sound w -> working w = committed w -> ticks w = S k ->
  report_due settings (clock k) = Ret (Some report_date) -> ~ reported report_date (working w) ->
  wp (let* payload := daily_report_payload report_date 24 in
      create_alert "daily_report" "info" None (Some (report_key report_date))
        (Some (payload ++ [("health_summary", JStr health_summary)])) (Some (60 * 48)) None ;;;
      record_event None "daily_report_delivered" "info" [("report_date", JStr report_date); ("queued", JBool true)] ;;;
      commit ;;; ret true)
    (fun r w' => steady w w' /\ calls w' = calls w /\ attempted_report k (committed w) r (committed w')) w.
Proof.
  intros Hs Hf Hk Hdue Hnew. apply wp_bind. eapply wp_mono; [apply wp_daily_report_payload, (so_working w Hs)|].
  intros r w1 (C & p & -> & F). pose proof (steady_called _ _ _ C Hs) as S1.
  apply wp_bind, wp_create_alert_now.
  { intros w2 C2. split_and!; [|by ws|by cbn; ws]. eapply steady_trans; [exact S1|]. eapply steady_called; [exact C2|apply S1]. }
  intros t2 st w2. rewrite (ca_working _ _ _ C). intros Hst a A Ea.
  assert (Hp : st = PENDING).
  { destruct Hst as [->|(_ & i & b & Hb & _ & _ & Hi)]; [done|]. exfalso. apply Hnew. by exists i, b. }
  pose proof (steady_audited _ _ _ A (proj1 S1)) as S2.
  apply wp_bind, wp_record_event. intros w3 A3. pose proof (steady_audited _ _ _ A3 (proj1 S2)) as S3.
  apply wp_bind, wp_commit. intros w4 K. apply wp_ret. split_and!.
  - eapply steady_trans; [exact S1|]. eapply steady_trans; [exact S2|]. eapply steady_trans; [exact S3|].
    by eapply steady_commit; [|apply S3].
  - by ws.
  - exists report_date. rewrite (cm_committed _ _ K), <- Hf. rewrite Hk in F. split; [done|done| | | |].
    + exists a, (p ++ [("health_summary", JStr health_summary)]). split_and!; try done.
      * apply next_id_fresh.
      * apply (grew_lookup (admin_alerts (working w2))); [apply A3|]. by rewrite Ea, lookup_insert_eq.
    + etransitivity; [|apply A3]. rewrite <- (ca_working _ _ _ C). apply A.
    + unfold trail. by ws.
    + by ws.
Qed.

Lemma wp_maybe_queue w : sound w -> working w = committed w ->
  wp (maybe_queue_daily_report settings None) (fun r w' => steady w w' /\ calls w' = calls w /\
    attempted_report (ticks w) (committed w) r (committed w')) w.
Proof.
  intros Hs Hf. unfold maybe_queue_daily_report. apply wp_bind, wp_tick_at. intros w1 C Ht.
  pose proof (steady_called _ _ _ C Hs) as S1. apply wp_bind.
  assert (Hend : forall r, r <> Ret true -> steady w w1 /\ calls w1 = calls w /\ attempted_report (ticks w) (committed w) r (committed w1)).
  { intros r Hr. split_and!; [done|apply C|]. assert (E : committed w1 = committed w) by apply C.
    by destruct r as [[]|]. }
  destruct (report_due settings _) as [[report_date|]|e] eqn:Hdue; [| |by apply wp_raise, Hend].
  2:{ apply wp_ret. by apply wp_ret, Hend. }
  apply wp_ret, wp_bind, wp_get_db. destruct (existsb _ _) eqn:Ex; [by apply wp_ret, Hend|].
  eapply wp_mono; [eapply wp_queue_report; [apply S1| |exact Ht|exact Hdue|]|].
  - rewrite (ca_working _ _ _ C), (ca_committed _ _ _ C). exact Hf.
  - intros Hr%reported_spec. congruence.
  - intros r w2 (S2 & E2 & H). rewrite (ca_committed _ _ _ C) in H. split_and!; [|by rewrite E2, (ca_calls _ _ _ C)|done].
    by eapply steady_trans.
Qed.

Lemma wp_report_pass w : sound w ->
  wp (report_pass settings) (fun r w' => steady w w' /\ calls w' = calls w /\
    attempted_report (S (ticks w)) (others (ticks w) (committed w)) r (committed w')) w.
Proof.
  intros Hs. unfold report_pass. apply wp_bind, wp_new_session_at; [done|]. intros w1 O S1 En Et. apply wp_bind, wp_try.
  eapply wp_mono; [apply wp_maybe_queue; [apply S1|apply O]|]. intros r w2 (S2 & E2 & H).
  rewrite En, Et in H. assert (Ec : calls w2 = calls w) by (rewrite E2; apply O).
  assert (Hroll : forall w3, did_rollback w2 w3 -> steady w w3 /\ calls w3 = calls w /\ committed w3 = committed w2).
  { intros w3 B. split_and!; [|by ws|apply B]. eapply steady_trans; [exact S1|]. eapply steady_trans; [exact S2|].
    by eapply steady_rollback; [|apply S2]. }
  destruct r as [queued|e]; [apply wp_bind|apply wp_bind]; apply wp_rollback; intros w3 (S3 & E3 & C3)%Hroll.
  - apply wp_ret. split_and!; [done..|]. by rewrite C3.
  - apply wp_raise. split_and!; [done..|]. by rewrite C3.
Qed.

(** The days reported by a sequence of attempts, with what other sessions
    commit before each: every attempt opens its session at the world the one
    before it left, and reads the clock there. *)
Inductive report_history : World -> list (Res bool) -> list string -> World -> Prop :=
| history_end w : report_history w [] [] w
| history_queued w w1 w2 report_date rs dates :
    report_queued (S (ticks w)) report_date (others (ticks w) (committed w)) (committed w1) ->
    report_history w1 rs dates w2 -> report_history w (Ret true :: rs) (report_date :: dates) w2
| history_idle w w1 w2 r rs dates : r <> Ret true -> committed w1 = others (ticks w) (committed w) ->
    report_history w1 rs dates w2 -> report_history w (r :: rs) dates w2.

Lemma others_reported report_date n w : sound w -> reported report_date (committed w) ->
  reported report_date (others n (committed w)).
Proof. intros Hs. apply reported_kept, RELY, (so_ok w Hs). Qed.

Lemma wp_report_passes n (known : string -> Prop) w : sound w ->
  (forall date, known date -> reported date (committed w)) ->
  wp (report_passes settings n) (fun r w' => exists rs dates, r = Ret rs /\ length rs = n /\
    calls w' = calls w /\ report_history w rs dates w' /\ NoDup dates /\
    (forall date, In date dates -> ~ known date) /\
    (forall date, In date dates \/ known date -> reported date (committed w'))) w.
Proof.
  revert known w. induction n as [|n IH]; intros known w Hs Hknown; cbn [report_passes].
  { apply wp_ret. exists [], []. split_and!; [done..|constructor|constructor|done|]. intros date [[]|Hd]; auto. }
  apply wp_bind, wp_try, wp_bind. eapply wp_mono; [by apply wp_report_pass|]. intros r w1 (S1 & E1 & H).
  assert (Hgo : forall r, attempted_report (S (ticks w)) (others (ticks w) (committed w)) r (committed w1) ->
    wp (let* rest := report_passes settings n in ret (r :: rest)) (fun r w' => exists rs dates, r = Ret rs /\
      length rs = S n /\ calls w' = calls w /\ report_history w rs dates w' /\ NoDup dates /\
      (forall date, In date dates -> ~ known date) /\
      (forall date, In date dates \/ known date -> reported date (committed w'))) w1).
  2:{ destruct r; apply wp_ret, Hgo, H. }
  clear r H. intros r H. apply wp_bind.
  assert (Hkeep : forall date, known date -> reported date (others (ticks w) (committed w)))
    by (intros date Hd; by apply others_reported, Hknown).
  assert (Hd : r = Ret true \/ r <> Ret true) by (destruct r as [[]|]; first [by left|by right]).
  destruct Hd as [->|Hr].
  - destruct H as [day Q]. eapply wp_mono; [apply (IH (fun date => date = day \/ known date)); [apply S1|]|].
    + intros date [->|Hd]; [by eapply queued_reported|].
      destruct (Hkeep date Hd) as (k & a & Hk & Ha). exists k, a. split; [|done]. by eapply grew_lookup; [apply Q|].
    + intros r2 w2 (rs & dates & -> & Hl & E2 & Hh & Hnd & Hnew & Hall). apply wp_ret.
      exists (Ret true :: rs), (day :: dates). split_and!; [done|by rewrite <- Hl|congruence|by eapply history_queued| | |].
      * constructor; [|done]. intros Hd%list_elem_of_In%Hnew. apply Hd. by left.
      * intros date [<-|Hd]; [intros Hd%Hkeep; by apply (rq_new _ _ _ _ Q)|]. intros Hk. apply (Hnew date Hd). by right.
      * intros date Hd. apply Hall. cbn in Hd. destruct Hd as [[<-|Hd]|Hd]; tauto.
  - assert (E : committed w1 = others (ticks w) (committed w)) by (destruct r as [[]|]; [done|exact H..]).
    eapply wp_mono; [apply (IH known); [apply S1|by rewrite E]|].
    intros r2 w2 (rs & dates & -> & Hl & E2 & Hh & Hnd & Hnew & Hall). apply wp_ret.
    exists (r :: rs), dates. split_and!; [done|by rewrite <- Hl|congruence|by eapply history_idle|done..].
Qed.

(** ** Properties *)

(** C38: The daily report is queued at most once a day, and only when it is
    due by the clock the attempt reads. Over any number of attempts of one process, failing ones included
    and whatever other sessions commit between them, no day is reported
    twice, and no day an earlier process reported. An attempt that queues
    adds one alert, pending and keyed by the day, in the same transaction as
    its audit event; its collected total is the sum of the invoices and the
    fees of the payments verified in the last day. Every other attempt commits
    nothing, and nothing is sent. *)
Theorem daily_report_once n w : sound w ->
  wp (report_passes settings n) (fun r w' => exists rs dates, r = Ret rs /\ length rs = n /\
    calls w' = calls w /\ report_history w rs dates w' /\ NoDup dates /\
    (forall date, In date dates -> ~ reported date (committed w)) /\
    (forall date, In date dates \/ reported date (committed w) -> reported date (committed w'))) w.
Proof. intros Hs. by apply (wp_report_passes n (fun date => reported date (committed w))). Qed.

Lemma report_pass_steady w : sound w -> wp (report_pass settings) (fun _ w' => steady w w') w.
Proof. intros Hs. eapply wp_mono; [by apply wp_report_pass|]. by intros r w' [S _]. Qed.
End ReportFacts.

(** ** Witnesses *)

(** A zone whose day is the number of whole days, at the hour of the clock. *)
#[local] Definition utc_zone : TimeZones := {| zone_info := fun _ => Some (fun t =>
  mkLocalTime (str_of_int (t / seconds 86400)) (t / seconds 3600 mod 24) (t / seconds 60 mod 60)) |}.

#[local] Definition plain_report : ReportTexts := {|
  backup_text := fun b => match b with BackupUnknown => "?" | BackupSucceeded => "ok" | BackupFailed => "failed" end;
  health_summary := "see /status"
|}.

#[local] Definition at_midnight : EventTimes := fun _ => 0.

(** At 03:46 of the day 1, with the report set for 03:00, three attempts
    queue one report. *)
Lemma daily_report_once_witness :
  let settings := default_settings <| admin_bot_daily_report_time := "03:00" |> in
  let w := world_of (db_of [example_due 1]) in
  fst (@report_passes calm_env at_midnight plain_report utc_zone settings 3 w) = Ret [Ret true; Ret false; Ret false] /\
  wp (@report_passes calm_env at_midnight plain_report utc_zone settings 3) (fun r w' => exists rs dates,
    r = Ret rs /\ length rs = 3%nat /\ NoDup dates /\ forall date, In date dates -> reported date (committed w')) w.
Proof.
  intros settings w. split; [vm_compute; reflexivity|].
  assert (S : sound w) by (apply sound_example; vm_compute; reflexivity).
  eapply wp_mono.
  - apply (@daily_report_once calm_env calm_rely at_midnight plain_report utc_zone settings 3 w S).
  - intros r w' (rs & dates & -> & Hl & _ & _ & Hnd & _ & Hall). exists rs, dates. split; [reflexivity|].
    split; [exact Hl|]. split; [exact Hnd|]. intros date Hd. apply Hall. left. exact Hd.
Defined.
