(* ===== verification/Views.v ===== *)
(** The replies of the admin bot's commands ([app/adminbot/commands.py], with
    the queries of [app/adminbot/queries.py] they show): every view, and the
    texts [handle] answers with.

    A view reads the database, the clock and, for two commands, the API; all
    of them end in one message or in [_split] of one. What the outside
    supplies is the class [ViewWorld]. The instance [bridge_views] at the end
    closes the interface [CommandViews] of [AdminAccess]. *)

From S2P Require Import Prelude PyText Unicode Exceptions Config Models ServiceTables Identity Session AuditTrail Ledger.
From S2P Require Import Ops.
From S2P Require Import ConfigUrls Fees Bot Notification Resend Verification Inspect Attention Stuck Heartbeat AlertDelivery Format.
From S2P Require Import ReplyDelivery AdminAccess Incidents ReconStatus Monitor.

#[local] Open Scope Z_scope.

(** ** What the outside supplies *)

(** At the moment [n] of a command: the successive readings of the clock, the
    probe of the API ([live] and [ready]; [None] when it raises), whether the
    database answers, the revision of the schema, the results of the
    monitor's checks; and the settings and columns that nothing else reads.
    [round_tenths a b] is Python's [round(a / b, 1)], in tenths. *)
Class ViewWorld := {
  reading : nat -> nat -> Z;
  probe : nat -> option (bool * bool);
  select_one_ok : nat -> bool;
  revision : nat -> string;
  check_results : nat -> list CheckResult;
  environment : string;
  git_commit_sha : string;
  updated_at : Payment -> Z;
  round_tenths : Z -> Z -> Z
}.

(** ** The probe of the API *)

(** [client.get(url)]: the status, an [httpx.HTTPError], or another
    exception. *)
Inductive GetOutcome := GotStatus (code : Z) | GotHttpError | GotException.

Definition probe_one (o : GetOutcome) : option bool :=
  match o with GotStatus c => Some (c =? 200) | GotHttpError => Some false | GotException => None end.

(** [default_api_probe], with a base URL and the client it opens. *)
Definition default_api_probe (base_url : string) (get : string -> GetOutcome) : option (bool * bool) :=
  let base := rstrip (fun c => Ascii.eqb c (char 47)) base_url in
  match probe_one (get (base ++ "/health/live")%string) with
  | None => None
  | Some live =>
      match probe_one (get (base ++ "/health/ready")%string) with
      | None => None
      | Some ready => Some (live, ready)
      end
  end.

(** [_probe_api]: an exception counts as down. *)
Definition probe_api (o : option (bool * bool)) : bool * bool := default (false, false) o.

(** ** Arguments *)

Definition RECENT_DEFAULT : nat := 10.
Definition RECENT_MAX : Z := 50.
Definition LIST_DEFAULT : nat := 10.
Definition LIST_MAX : Z := 50.
Definition STUCK_DETAIL_MAX : nat := 10.

(** [_parse_list_count]. *)
Definition parse_list_count (args : list string) : Res (option nat) :=
  match args with
  | [] => Ret (Some LIST_DEFAULT)
  | [token] =>
      if negb (ascii_decimal (u token)) then Ret None
      else match int_of_decimal (u token) with
           | None => Raise (ValueError "Exceeds the limit for integer string conversion")
           | Some value => if (1 <=? value) && (value <=? LIST_MAX) then Ret (Some (Z.to_nat value)) else Ret None
           end
  | _ => Ret None
  end.

(** The limit of [/recent] and [/resolved_reviews]: an argument that is not a
    number is ignored, and [int] refuses the superscript digits that
    [isdigit] takes for digits. *)
Definition parse_limit (args : list string) : Res nat :=
  match args with
  | token :: _ =>
      if isdigit token then
        match (if all_digits token then int_of_digits token else None) with
        | Some n => Ret (Z.to_nat (Z.min n RECENT_MAX))
        | None => Raise (ValueError "invalid literal for int() with base 10")
        end
      else Ret RECENT_DEFAULT
  | [] => Ret RECENT_DEFAULT
  end.

(** ** Queries *)

Section Queries.
Context `{EventTimes}.

(** [event_count_since], at the time of its own reading of the clock. *)
Definition count_events (now : Z) (etype : string) (hours : Z) (d : Db) : Z :=
  Z.of_nat (length (List.filter (fun e => String.eqb (event_type e) etype) (recent_events now hours d))).

Definition recent_payments (d : Db) (limit : nat) : list Payment :=
  select_batch (fun _ => true) (by_key (fun p => [- created_at p])) limit (rows (payments d)).

(** [payment_events]: the latest first, with their ids. *)
Definition events_of_payment (d : Db) (pid : Z) (limit : nat) : list (Z * PaymentEvent) :=
  take limit (List.filter (fun ne : Z * PaymentEvent => bool_decide (event_payment_id (snd ne) = Some pid))
                (numbered (payment_events d))).

Definition error_event_types : list string :=
  ["centralpay_getlink_failed"; "centralpay_verify_failed"; "verify_payable_amount_mismatch";
   "verify_user_id_mismatch"; "verify_missing_reference_id"; "verify_invalid_reference_id";
   "bot_notification_failed"; "bot_timeout_ambiguous"; "notification_recovered_after_restart";
   "backup_failed"; "reconciliation_exhausted"].

(** [errors_summary]: SQL leaves the order of the groups open, here it is the
    order of the list; groups without an event do not occur. *)
Definition errors_summary (now : Z) (d : Db) : list (string * Z) :=
  List.filter (fun kv => negb (snd kv =? 0))
    (map (fun etype => (etype, count_events now etype 24 d)) error_event_types ++
     [("callback_signature_failures",
       Z.of_nat (length (List.filter (fun a => String.eqb (alert_type a) "callback_signature_failures" &&
                           (now - seconds (24 * 3600) <=? alert_created_at a)) (rows (admin_alerts d)))))]).

(** [latest_backup_alert]. *)
Definition latest_backup_alert (d : Db) (atype : string) : option AdminAlert :=
  pick_min (fun a b => alert_created_at b <=? alert_created_at a)
    (List.filter (fun a => String.eqb (alert_type a) atype) (rows (admin_alerts d))).
End Queries.

(** ** The views *)

Section Views.
Context `{Rendering} `{EventTimes} `{ViewWorld}.
Variable settings : Settings.

Definition max_length : nat := Z.to_nat (admin_bot_max_message_length settings).

(** [_split]. *)
Definition split (s : text) : list text := split_message s max_length.

Definition tz : string := admin_bot_timezone settings.

Definition mark (ok : bool) : text := if ok then ICON_OK else FAIL.

Definition count_text (n : Z) : text := fmt_amount (Some n).

Definition length_text {A} (l : list A) : text := int_text (Z.of_nat (length l)).

Definition cmd_start : text :=
  join_lines
    [fa "🤖 <b>CentralPay Bridge — ربات مدیریتی</b>";
     [];
     fa "محیط: " ++ esc (u environment);
     fa "نسخه: " ++ esc (u APP_VERSION);
     [];
     fa "دستورها: /status /health /monitor /recent /stuck /waiting /expired";
     fa "/manual_review /resolved_reviews /errors /payment /retry_queue";
     fa "/resend_failed /backup_status /version /fee /help";
     [];
     WARN ++ fa " این ربات فقط برای دیدبانی عملیاتی است. " ++
     fa "پاسخ 2xx ربات فروش به معنی واریز قطعی اعتبار مشتری نیست."].

Definition cmd_help : text :=
  join_lines
    [fa "<b>راهنمای دستورها</b>";
     [];
     fa "/status — وضعیت کلی سرویس‌ها و صف‌ها";
     fa "/health — جزئیات سلامت اجزا";
     fa "/monitor — گزارش کامل پایش سیستم";
     fa "/recent [n] — آخرین پرداخت‌ها (حداکثر ۵۰)";
     fa "/stuck — خطاهای تحویل به ربات فروش";
     fa "/waiting [n] — پرداخت‌های در انتظار تأیید درگاه (حداکثر ۵۰)";
     fa "/expired [n] — لینک‌های منقضی‌شده (حداکثر ۵۰)";
     fa "/manual_review — بررسی‌های دستی باز (تعیین‌تکلیف‌نشده)";
     fa "/resolved_reviews [n] — بررسی‌های تعیین‌تکلیف‌شده (حداکثر ۵۰)";
     fa "/errors — خلاصهٔ خطاهای ۲۴ ساعت اخیر";
     fa "/payment ORDER_ID — جزئیات یک پرداخت";
     fa "/retry_queue — صف ارسال به ربات فروش";
     fa "/resend_failed — پیش‌نمایش ارسال مجدد موارد تحویل‌نشده";
     fa "/resend_failed confirm — بازگرداندن گروهی به صف، فقط در حالت idempotent";
     fa "/backup_status — وضعیت پشتیبان‌گیری";
     fa "/version — نسخهٔ برنامه و مهاجرت";
     fa "/fee — کارمزد فعلی (فقط‌خواندنی؛ تغییر فقط از CLI سرور)"].

(** The two policies are selected at readings of the clock of their own. *)
Definition cmd_fee (n : nat) (d : Db) : text :=
  let active := effective_policy (reading n 0) (fee_policies d) in
  let scheduled := pick_min older (List.filter (scheduled_after (reading n 1)) (rows (fee_policies d))) in
  join_lines
    ([fa "<b>کارمزد خدمات</b>"; []]
     ++ match active with
        | None => [fa "کارمزد فعلی: 0% (هیچ سیاستی ثبت نشده)"]
        | Some policy =>
            [fa "کارمزد فعلی: " ++ bold (fmt_fee_rate (Some (rate_bps policy)));
             fa "شناسهٔ سیاست: " ++ int_text (policy_id policy);
             fa "اجرا از: " ++ fmt_time (Some (effective_at policy)) tz]
        end
     ++ line_if scheduled (fun policy =>
          fa "سیاست بعدی: " ++ fmt_fee_rate (Some (rate_bps policy)) ++ fa " از " ++
          fmt_time (Some (effective_at policy)) tz ++ fa " (شناسه " ++ int_text (policy_id policy) ++ fa ")")
     ++ [[];
         fa "تغییر کارمزد فقط روی سفارش‌های جدید اثر دارد؛ سفارش‌های موجود";
         fa "با همان کارمزد ثبت‌شدهٔ خود می‌مانند. تغییر فقط از طریق";
         fa "<code>centralpay fee</code> روی سرور ممکن است."]).

(** [worker_heartbeat_age_seconds], in microseconds. *)
Definition worker_heartbeat_age_seconds (now : Z) (d : Db) : option Z :=
  option_map (fun h => now - last_heartbeat_at h) (latest_worker_heartbeat d "notification-worker").

Definition worker_ok (age : option Z) : bool :=
  match age with Some a => a <? seconds 120 | None => false end.

(** [int(age)] of an age in microseconds. *)
Definition whole_seconds (age : Z) : text := int_text (Z.quot age 1000000).

Definition commit_line : list text :=
  line_if (filled (Some git_commit_sha)) (fun sha => fa "کامیت: " ++ code_tag (esc (u (str_take 12 sha)))).

Definition stuck_snapshot (now : Z) (limit : nat) (d : Db) : list QueryEntry * Z :=
  bot_delivery_snapshot (latest_entry_event event_created_at d) d now 30 (bot_notify_claim_timeout settings) limit.

Definition cmd_status (n : nat) (d : Db) : text :=
  let now := reading n 0 in
  let api := probe_api (probe n) in
  let db_ok := select_one_ok n in
  let heartbeat_age := worker_heartbeat_age_seconds (reading n 1) d in
  let pending := count_by_status d BOT_NOTIFY_PENDING in
  let review := count_open_manual_reviews d in
  let getlink_failures := count_events (reading n 2) "centralpay_getlink_failed" 24 d in
  let verify_failures := count_events (reading n 3) "centralpay_verify_failed" 24 d in
  let bot_delivery_total := snd (stuck_snapshot now 1 d) in
  let waiting_total := count_waiting settings now d in
  let expired_total := count_expired settings now d in
  let other_total := count_other_attention settings now d in
  let needs_attention_total := bot_delivery_total + other_total in
  join_lines
    ([fa "<b>وضعیت CentralPay Bridge</b>";
      [];
      fa "API: " ++ mark (snd api);
      fa "پایگاه‌داده: " ++ mark db_ok;
      fa "ورکر اعلان: " ++ mark (worker_ok heartbeat_age) ++
        match heartbeat_age with
        | Some age => fa " (آخرین فعالیت " ++ whole_seconds age ++ fa " ثانیه پیش)"
        | None => fa " (بدون ضربان ثبت‌شده)"
        end;
      fa "ربات مدیریتی: " ++ ICON_OK ++ fa " فعال";
      fa "پروکسی معکوس: از داخل کانتینر قابل مشاهده نیست";
      [];
      fa "نسخه: " ++ esc (u APP_VERSION) ++ fa " — محیط: " ++ esc (u environment)]
     ++ commit_line
     ++ [[];
         ICON_PENDING ++ fa " در صف ارسال: " ++ count_text pending;
         REVIEW ++ fa " بررسی دستی: " ++ count_text review;
         (if negb (needs_attention_total =? 0) then WARN else ICON_OK) ++ fa " نیازمند بررسی: " ++
           count_text needs_attention_total;
         fa "🟡 در انتظار تأیید درگاه: " ++ count_text waiting_total;
         fa "⚪ لینک‌های منقضی‌شده: " ++ count_text expired_total;
         FAIL ++ fa " خطای ایجاد لینک (۲۴س): " ++ count_text getlink_failures;
         FAIL ++ fa " خطای تأیید (۲۴س): " ++ count_text verify_failures;
         [];
         fa "آخرین پشتیبان موفق: " ++
           match latest_backup_alert d "backup_succeeded" with
           | Some backup => fmt_time (Some (alert_created_at backup)) tz ++ fa " (" ++
                            fmt_duration_ago_fa (Some (alert_created_at backup)) now ++ fa ")"
           | None => fa "ثبت نشده"
           end;
         fa "زمان کنونی: " ++ fmt_time (Some now) tz]).

Definition cmd_health (n : nat) (d : Db) : text :=
  let api := probe_api (probe n) in
  let heartbeat_age := worker_heartbeat_age_seconds (reading n 0) d in
  let snapshot := retry_queue_snapshot d (reading n 1) 30 in
  join_lines
    [fa "<b>سلامت اجزا</b>";
     [];
     fa "live: " ++ mark (fst api);
     fa "ready: " ++ mark (snd api);
     fa "اتصال پایگاه‌داده: " ++ mark (select_one_ok n);
     fa "ضربان ورکر: " ++
       match heartbeat_age with
       | Some age => mark (worker_ok heartbeat_age) ++ fa " (" ++ whole_seconds age ++ fa " ثانیه پیش)"
       | None => FAIL ++ fa " ثبت نشده"
       end;
     fa "آخرین چرخهٔ ورکر: " ++
       match latest_worker_heartbeat d "notification-worker" with
       | Some heartbeat => fmt_time (last_cycle_at heartbeat) tz
       | None => fa "—"
       end;
     fa "صف ارسال: " ++ length_text (rq_due snapshot) ++ fa " سررسید، " ++
       length_text (rq_scheduled snapshot) ++ fa " زمان‌بندی‌شده، " ++
       length_text (rq_claimed snapshot) ++ fa " در حال ارسال"].

Definition recent_block (payment : Payment) : text :=
  let reason := match filled (bot_notify_reason payment) with
                | Some r => fa " — " ++ code_tag (esc (u r)) | None => [] end in
  let reference := match filled (reference_id payment) with
                   | Some r => fa " — پیگیری " ++ esc (u r) | None => [] end in
  join_lines
    [fa "• " ++ bold (esc (u (bot_order_id payment))) ++ fa " (" ++ int_text (gateway_order_id payment) ++ fa ")";
     fa "  " ++ fmt_amount (Some (amount payment)) ++ fa " تومان — " ++
       payment_status_fa (status_value (status payment)) ++ reason ++ reference;
     fa "  " ++ fmt_time (Some (created_at payment)) tz].

Definition cmd_recent (args : list string) (d : Db) : Res (list text) :=
  match parse_limit args with
  | Raise e => Raise e
  | Ret limit =>
      match recent_payments d limit with
      | [] => Ret [fa "هنوز پرداختی ثبت نشده است."]
      | ps => Ret (split (join_lines (bold (fa "آخرین " ++ length_text ps ++ fa " پرداخت") :: map recent_block ps)))
      end
  end.
(** [_stuck_header]. *)
Definition stuck_header (bot_delivery_total waiting_total expired_total other_total : Z) : list text :=
  let needs_operator_attention := (0 <? bot_delivery_total) || (0 <? other_total) in
  [fa "⚠️ گزارش پرداخت‌های نیازمند بررسی";
   [];
   (if needs_operator_attention then fa "🟠 وضعیت کلی: نیازمند توجه" else ICON_OK ++ fa " وضعیت کلی: سالم");
   [];
   fa "📊 خلاصه";
   fa "• خطای ارسال به ربات: " ++ count_text bot_delivery_total;
   fa "• در انتظار تأیید درگاه: " ++ count_text waiting_total;
   fa "• لینک‌های منقضی‌شده: " ++ count_text expired_total]
  ++ (if 0 <? other_total then [fa "• سایر موارد نیازمند بررسی: " ++ count_text other_total] else []).

(** [enumerate(entries, start=1)]. *)
Definition numbered_blocks {A} (block : Z -> A -> text) (entries : list A) : list text :=
  concat (imap (fun i entry => [[]; block (Z.of_nat i + 1) entry]) entries).

(** [_assemble_stuck_message]. *)
Definition assemble_stuck_message (header : list text) (shown_entries : list QueryEntry) (total now : Z) : text :=
  join_lines
    (header ++ [[]]
     ++ (if total =? 0 then [ICON_OK ++ fa " خطایی در تحویل به ربات وجود ندارد."]
         else fa "🔥 خطاهای ارسال به ربات" ::
              numbered_blocks (fun index entry => bot_delivery_entry_block index entry now) shown_entries)
     ++ [[]; fa "━━━━━━━━━━━━━━"]
     ++ (if 0 <? total then
           [fa "نمایش " ++ count_text (Z.of_nat (length shown_entries)) ++ fa " مورد از " ++ count_text total ++ fa " مورد"]
           ++ (let remaining := total - Z.of_nat (length shown_entries) in
               if 0 <? remaining then [fa "+ " ++ count_text remaining ++ fa " مورد دیگر نمایش داده نشد"] else [])
           ++ [[]]
         else [])
     ++ [fa "برای مشاهده:";
         fa "🟡 /waiting — در انتظار درگاه";
         fa "⚪ /expired — لینک‌های منقضی‌شده";
         [];
         fa "🕒 به‌روزرسانی: " ++ fmt_time_only_fa now tz]).

(** The loop of [/stuck]: one row fewer until the message fits. *)
Fixpoint shrink_stuck (header : list text) (entries : list QueryEntry) (total now : Z) (shown_count : nat) : text :=
  let message := assemble_stuck_message header (take shown_count entries) total now in
  if (max_length <? length message)%nat then
    match shown_count with
    | O => message
    | S fewer => shrink_stuck header entries total now fewer
    end
  else message.

Definition STUCK_USAGE_ERROR : text := fa "فرمت صحیح:
/stuck".

Definition cmd_stuck (args : list string) (n : nat) (d : Db) : list text :=
  match args with
  | _ :: _ => [STUCK_USAGE_ERROR]
  | [] =>
      let now := reading n 0 in
      let '(entries, total) := stuck_snapshot now STUCK_DETAIL_MAX d in
      let header := stuck_header total (count_waiting settings now d) (count_expired settings now d)
                      (count_other_attention settings now d) in
      [shrink_stuck header entries total now (length entries)]
  end.

(** The common shape of [/waiting] and [/expired]. *)
Definition list_view (title empty_text command : text) (block : Z -> StuckEntry -> text)
    (entries : list StuckEntry) (total : Z) : text :=
  join_lines
    ([title; []; fa "تعداد کل: " ++ count_text total]
     ++ match entries with
        | [] => [[]; empty_text]
        | _ =>
            numbered_blocks block entries
            ++ [[]; fa "━━━━━━━━━━━━━━";
                fa "نمایش " ++ count_text (Z.of_nat (length entries)) ++ fa " مورد از " ++ count_text total ++ fa " مورد"]
            ++ (if Z.of_nat (length entries) <? total then
                  let suggested := int_text (Z.min total LIST_MAX) in
                  [[]; command ++ fa " " ++ suggested ++ fa " — نمایش " ++ suggested ++ fa " مورد"]
                else [])
        end).

Definition WAITING_USAGE_ERROR : text := fa "فرمت صحیح:
/waiting [1-50]".
Definition EXPIRED_USAGE_ERROR : text := fa "فرمت صحیح:
/expired [1-50]".

Definition cmd_waiting (args : list string) (n : nat) (d : Db) : Res (list text) :=
  match parse_list_count args with
  | Raise e => Raise e
  | Ret None => Ret [WAITING_USAGE_ERROR]
  | Ret (Some limit) =>
      let now := reading n 0 in
      let '(entries, total) := waiting_snapshot settings now d limit in
      Ret (split (list_view (fa "🟡 <b>پرداخت‌های در انتظار تأیید درگاه</b>")
                    (ICON_OK ++ fa " در حال حاضر پرداختی در انتظار تأیید درگاه نیست.") (fa "/waiting")
                    (fun index entry => waiting_entry_block index entry now) entries total))
  end.

Definition cmd_expired (args : list string) (n : nat) (d : Db) : Res (list text) :=
  match parse_list_count args with
  | Raise e => Raise e
  | Ret None => Ret [EXPIRED_USAGE_ERROR]
  | Ret (Some limit) =>
      let now := reading n 0 in
      let '(entries, total) := expired_snapshot settings now d limit in
      Ret (split (list_view (fa "⚪ <b>لینک‌های منقضی‌شده</b>")
                    (ICON_OK ++ fa " در حال حاضر لینک منقضی‌شده‌ای وجود ندارد.") (fa "/expired")
                    (fun index entry => expired_entry_block index entry now) entries total))
  end.

(** [str] of a float with one decimal, from its tenths. *)
Definition tenths_text (t : Z) : text :=
  (if t <? 0 then u "-" else []) ++ int_text (Z.abs t / 10) ++ u "." ++ int_text (Z.abs t mod 10).

Definition or_dash (o : option string) : text := match filled o with Some s => u s | None => fa "—" end.

Definition review_block (payment : Payment) (now : Z) : text :=
  let age_hours := option_map (fun t => round_tenths (now - t) 3600000000) (manual_review_at payment) in
  let reason := default (fa "—") (option_map u (or_text (bot_notify_reason payment) (filled (last_error payment)))) in
  join_lines
    [fa "• " ++ bold (esc (u (bot_order_id payment))) ++ fa " (" ++ int_text (gateway_order_id payment) ++ fa ")";
     fa "  مبلغ: " ++ fmt_amount (Some (amount payment)) ++ fa " تومان — درگاه: " ++
       (if is_some (gateway_verified_at payment) then ICON_OK else FAIL);
     fa "  دلیل: " ++ code_tag (esc reason);
     fa "  تلاش‌ها: " ++ int_text (bot_notify_attempts payment) ++ fa " — " ++ fa "آخرین HTTP: " ++
       match nonzero (bot_last_http_status payment) with Some c => int_text c | None => fa "—" end;
     fa "  پیگیری: " ++ esc (or_dash (reference_id payment)) ++ fa " — " ++
       match age_hours with
       | Some t => fa "قدمت: " ++ tenths_text t ++ fa " ساعت"
       | None => fa "قدمت: —"
       end].

Definition cmd_manual_review (n : nat) (d : Db) : list text :=
  match manual_review_payments d 20 with
  | [] => [ICON_OK ++ fa " هیچ پرداختی در بررسی دستی نیست."]
  | ps =>
      split (join_lines (bold (REVIEW ++ fa " بررسی دستی (" ++ length_text ps ++ fa ")") ::
                         map (fun payment => review_block payment (reading n 0)) ps))
  end.

Definition resolved_block (payment : Payment) : text :=
  join_lines
    [fa "• " ++ bold (esc (u (bot_order_id payment))) ++ fa " (" ++ int_text (gateway_order_id payment) ++ fa ")";
     fa "  مبلغ: " ++ fmt_amount (Some (amount payment)) ++ fa " تومان";
     fa "  دلیل ارجاع: " ++ code_tag (esc (or_dash (bot_notify_reason payment)));
     fa "  نتیجه: " ++ code_tag (esc (or_dash (review_resolution payment)));
     fa "  زمان تعیین‌تکلیف: " ++ fmt_time (review_resolved_at payment) tz].

Definition cmd_resolved_reviews (args : list string) (d : Db) : Res (list text) :=
  match parse_limit args with
  | Raise e => Raise e
  | Ret limit =>
      match resolved_review_payments d limit with
      | [] => Ret [fa "هنوز هیچ بررسی دستی تعیین‌تکلیف‌شده‌ای ثبت نشده است."]
      | ps => Ret (split (join_lines (bold (ICON_OK ++ fa " بررسی‌های تعیین‌تکلیف‌شده (" ++ length_text ps ++ fa ")") ::
                                      map resolved_block ps)))
      end
  end.

Definition error_labels : list (string * text) :=
  [("centralpay_getlink_failed", fa "خطای ایجاد لینک");
   ("centralpay_verify_failed", fa "خطای تأیید");
   ("verify_payable_amount_mismatch", fa "مغایرت مبلغ");
   ("verify_user_id_mismatch", fa "مغایرت شناسهٔ کاربر");
   ("verify_missing_reference_id", fa "نبود کد پیگیری");
   ("verify_invalid_reference_id", fa "کد پیگیری نامعتبر از درگاه");
   ("bot_notification_failed", fa "خطای تحویل به ربات");
   ("bot_timeout_ambiguous", fa "تایم‌اوت مبهم");
   ("notification_recovered_after_restart", fa "بازیابی ورکر");
   ("backup_failed", fa "خطای پشتیبان‌گیری");
   ("callback_signature_failures", fa "امضای نامعتبر کال‌بک");
   ("reconciliation_exhausted", fa "اتمام تلاش‌های تطبیق")].

(** Most frequent first. *)
Definition cmd_errors (n : nat) (d : Db) : list text :=
  match errors_summary (reading n 0) d with
  | [] => [ICON_OK ++ fa " در ۲۴ ساعت اخیر خطایی ثبت نشده است."]
  | summary =>
      split (join_lines ([fa "<b>خطاهای ۲۴ ساعت اخیر</b>"; []] ++
        map (fun kv : string * Z =>
               FAIL ++ fa " " ++ default (u (fst kv)) (label_of (fst kv) error_labels) ++ fa ": " ++
               int_text (snd kv) ++ fa " — " ++ code_tag (esc (u (fst kv))))
          (sort_by (fun a b => snd b <=? snd a) summary)))
  end.

(** The text of [/payment], once the payment is found. *)
Definition cmd_payment_view (payment : Payment) (d : Db) : list text :=
  let events := events_of_payment d (id payment) 10 in
  split (text_join NL2
    ([bold (fa "جزئیات پرداخت #" ++ int_text (id payment)); []; payment_block payment tz]
     ++ line_if (filled (card_last4 payment)) (fun c => fa "چهار رقم آخر کارت:
" ++ esc (u c))
     ++ line_if (gateway_verified_at payment) (fun t => fa "زمان تأیید درگاه:
" ++ fmt_time (Some t) tz)
     ++ line_if (nonzero (bot_last_http_status payment)) (fun c => fa "آخرین وضعیت HTTP:
" ++ int_text c)
     ++ line_if (filled (bot_last_error_code payment)) (fun e => fa "کد خطای آخرین ارسال:
" ++ code_tag (esc (u e)))
     ++ line_if (next_retry_at payment) (fun t => fa "تلاش بعدی:
" ++ fmt_time (Some t) tz)
     ++ line_if (manual_review_at payment) (fun t => fa "زمان ارجاع به بررسی:
" ++ fmt_time (Some t) tz)
     ++ line_if (review_resolved_at payment) (fun t => fa "تعیین‌تکلیف بررسی:
" ++ fmt_time (Some t) tz ++ fa "
نتیجه: " ++ code_tag (esc (or_dash (review_resolution payment))))
     ++ [fa "به‌روزرسانی:
" ++ fmt_time (Some (updated_at payment)) tz]
     ++ match events with
        | [] => []
        | _ =>
            [[]; bold (fa "آخرین " ++ length_text events ++ fa " رویداد")]
            ++ map (fun ne : Z * PaymentEvent =>
                      fa "• " ++ fmt_time (Some (event_created_at (fst ne))) tz ++ fa " — " ++
                      code_tag (esc (u (event_type (snd ne))))) (rev events)
        end)).

Definition queue_row (payment : Payment) : text :=
  let retry := fmt_time (next_retry_at payment) tz in
  let detail_bits :=
    [fa "تلاش‌ها: " ++ int_text (bot_notify_attempts payment)]
    ++ line_if (nonzero (bot_last_http_status payment)) (fun c => fa "HTTP: " ++ int_text c)
    ++ line_if (filled (bot_last_error_code payment)) (fun e => fa "خطا: " ++ esc (u e)) in
  fa "• " ++ esc (u (bot_order_id payment)) ++ fa " — " ++
  code_tag (esc (u (default "queued" (filled (bot_notify_reason payment))))) ++ fa " — " ++ retry ++ fa "
  " ++ text_join (fa " — ") detail_bits.

Definition queue_section (title icon : text) (ps : list Payment) : list text :=
  (icon ++ fa " " ++ bold (title ++ fa " (" ++ length_text ps ++ fa ")")) :: map queue_row (take 10 ps) ++ [[]].

Definition cmd_retry_queue (n : nat) (d : Db) : text :=
  let snapshot := retry_queue_snapshot d (reading n 0) 30 in
  join_lines
    ([fa "<b>صف ارسال به ربات فروش</b>"; []]
     ++ queue_section (fa "سررسید") ICON_PENDING (rq_due snapshot)
     ++ queue_section (fa "زمان‌بندی‌شده") (fa "🕐") (rq_scheduled snapshot)
     ++ queue_section (fa "در حال ارسال") (fa "📤") (rq_claimed snapshot)
     ++ queue_section (fa "پایان تلاش‌ها") REVIEW (rq_retry_limit snapshot)).

(** [payload.get(key)], if truthy. *)
Definition truthy_value (key : string) (p : dict) : option Json :=
  if truthy (dict_getN key p) then Some (dict_getN key p) else None.

Definition cmd_backup_status (d : Db) : text :=
  join_lines
    ([fa "<b>وضعیت پشتیبان‌گیری</b>"; []]
     ++ match latest_backup_alert d "backup_succeeded" with
        | Some ok =>
            let p := default [] (payload ok) in
            [ICON_OK ++ fa " آخرین موفق: " ++ fmt_time (Some (alert_created_at ok)) tz]
            ++ line_if (truthy_value "size" p) (fun v => fa "حجم: " ++ esc (str_value v))
            ++ [fa "اعتبارسنجی: انجام‌شده (pg_restore --list)"]
            ++ line_if (truthy_value "retention_days" p) (fun v => fa "نگه‌داری: " ++ esc (str_value v) ++ fa " روز")
        | None => [WARN ++ fa " هنوز پشتیبان موفقی ثبت نشده است."]
        end
     ++ line_if (latest_backup_alert d "backup_failed") (fun failed =>
          FAIL ++ fa " آخرین خطا: " ++ fmt_time (Some (alert_created_at failed)) tz)
     ++ [fa "زمان‌بندی: هر شب ساعت ۰۳:۱۵ به وقت سرور"]).

Definition _MONITOR_LABELS_FA : list (string * text) :=
  [("public_ready", fa "API عمومی"); ("database", fa "پایگاه‌داده");
   ("worker_heartbeat:notification-worker", fa "ورکر اعلان");
   ("worker_heartbeat:reconciliation-worker", fa "ورکر تطبیق");
   ("notification_backlog", fa "صف اعلان"); ("manual_review", fa "بررسی دستی");
   ("reconciliation", fa "تطبیق"); ("backup", fa "پشتیبان‌گیری"); ("disk_space", fa "فضای دیسک");
   ("gateway_failure_burst", fa "خطای درگاه"); ("bot_failure_burst", fa "خطای تحویل به ربات");
   ("db_integrity", fa "یکپارچگی پایگاه‌داده")].

Definition _MONITOR_ICON (s : Severity) : text :=
  match s with OK => ICON_OK | WARNING => WARN | CRITICAL => FAIL end.

(** An integer among the details of a check. *)
Definition detail_int (k : string) (r : CheckResult) : option Z :=
  match dict_get k (details r) with Some (JInt n) => Some n | _ => None end.

(** [_monitor_detail_fa]. The details hold microseconds, free and total bytes,
    which the checks of the source round to a tenth of a millisecond, of a
    second and of a percent. *)
Definition monitor_detail_fa (r : CheckResult) : text :=
  let k := key r in
  let counted key suffix := match detail_int key r with
                            | Some n => Some (fa " — " ++ int_text n ++ suffix) | None => None end in
  let age := detail_int "age_seconds" r in
  if String.eqb k "public_ready" then
    match detail_int "latency_ms" r with
    | Some latency => fa " — " ++ tenths_text (round_tenths latency 1000) ++ fa " ms" | None => [] end
  else if String.prefix "worker_heartbeat:" k then
    match age with
    | Some a => fa " — " ++ int_text (Z.quot (round_tenths a 1000000) 10) ++ fa " ثانیه پیش" | None => [] end
  else if existsb (String.eqb k) ["notification_backlog"; "manual_review"] then default [] (counted "count" [])
  else if String.eqb k "reconciliation" then
    match detail_int "exhausted_actionable_total" r with
    | Some n => fa " — اتمام‌یافته: " ++ int_text n | None => [] end
  else if String.eqb k "backup" then
    match age with
    | Some a => fa " — " ++ int_text (round_tenths a 1000000 / 36000) ++ fa " ساعت پیش" | None => [] end
  else if String.eqb k "disk_space" then
    match detail_int "free_bytes" r, detail_int "total_bytes" r with
    | Some free, Some total =>
        fa " — " ++ tenths_text (if total =? 0 then 0 else round_tenths (free * 100) total) ++ fa "% آزاد"
    | _, _ => []
    end
  else if existsb (String.eqb k) ["gateway_failure_burst"; "bot_failure_burst"] then
    default [] (counted "affected_payments" (fa " پرداخت"))
  else [].

Definition upper_severity (s : Severity) : text :=
  match s with OK => u "OK" | WARNING => u "WARNING" | CRITICAL => u "CRITICAL" end.

Definition cmd_monitor (results : list CheckResult) : text :=
  let status := overall_status results in
  join_lines
    ([_MONITOR_ICON status ++ fa " <b>پایش CentralPay</b>"; []]
     ++ map (fun r => _MONITOR_ICON (check_status r) ++ fa " " ++
               default (u (key r)) (label_of (key r) _MONITOR_LABELS_FA) ++ monitor_detail_fa r) results
     ++ [[]; fa "وضعیت کلی: " ++ bold (upper_severity status)]).

Definition cmd_version (n : nat) : text :=
  join_lines
    ([fa "نسخهٔ برنامه: " ++ code_tag (esc (u APP_VERSION));
      fa "محیط: " ++ esc (u environment);
      fa "نسخهٔ مهاجرت: " ++ code_tag (esc (u (revision n)))]
     ++ commit_line).

(** ** The bulk resend *)

Definition BULK_RESEND_SAFE_MODE_MESSAGE : text :=
  fa "ارسال مجدد گروهی غیرفعال است؛ ربات فروش باید دریافت تکراری order_id را " ++
  fa "idempotent تضمین کند و BOT_NOTIFY_RETRY_MODE=idempotent باشد.".

Definition render_resend_preview (preview : BulkResendPreview) : text :=
  join_lines
    ([fa "<b>پیش‌نمایش ارسال مجدد گروهی</b>";
      [];
      fa "پرداخت‌های واجد شرایط: " ++ count_text (preview_count preview);
      fa "مبلغ اصلی مجموع: " ++ count_text (preview_total_amount preview) ++ fa " تومان";
      [];
      WARN ++ fa " هنوز هیچ ارسال شبکه‌ای انجام نشده است."]
     ++ match preview_order_ids preview with
        | [] => [[]; fa "هیچ پرداخت واجد شرایطی برای ارسال مجدد وجود ندارد."]
        | ids =>
            [[]; fa "شناسه‌ها (حداکثر " ++ int_text (Z.of_nat PREVIEW_ORDER_LIMIT) ++ fa "):"]
            ++ map (fun order_id => fa "• " ++ code_tag (esc (u order_id))) ids
        end
     ++ [[]; fa "برای اجرا این دستور را بفرستید:"; fa "/resend_failed confirm"]).

Definition render_resend_result (result : BulkResendResult) : text :=
  join_lines
    ([ICON_OK ++ fa " " ++ count_text (requeued_count result) ++ fa " پرداخت دوباره وارد صف ارسال شد.";
      [];
      fa "مبلغ اصلی مجموع: " ++ count_text (total_amount result) ++ fa " تومان";
      fa "ارسال واقعی توسط Worker انجام می‌شود.";
      fa "شمارنده تلاش‌ها بازنشانی نشد."]
     ++ (if 0 <? skipped_count result then
           [WARN ++ fa " " ++ count_text (skipped_count result) ++ fa " مورد به‌دلیل پردازش " ++
            fa "همزمان توسط اجرای دیگری رد شد."]
         else [])
     ++ [[]; fa "برای مشاهده صف:"; fa "/retry_queue"]).

(** The reply to [/resend_failed]; the loop that has not ended has none. *)
Definition resend_reply (reply : ResendReply) : list text :=
  match reply with
  | ResendSafeMode => split BULK_RESEND_SAFE_MODE_MESSAGE
  | ResendPreview preview => split (render_resend_preview preview)
  | ResendDone (Some result) => split (render_resend_result result)
  | ResendDone None => []
  end.

(** ** Dispatch *)

(** The views of [_registry]. *)
Definition bridge_view (command : string) (args : list string) (d : Db) (n : nat) : Res (list text) :=
  if String.eqb command "start" then Ret (split cmd_start)
  else if String.eqb command "help" then Ret (split cmd_help)
  else if String.eqb command "status" then Ret (split (cmd_status n d))
  else if String.eqb command "health" then Ret (split (cmd_health n d))
  else if String.eqb command "recent" then cmd_recent args d
  else if String.eqb command "stuck" then Ret (cmd_stuck args n d)
  else if String.eqb command "waiting" then cmd_waiting args n d
  else if String.eqb command "expired" then cmd_expired args n d
  else if String.eqb command "manual_review" then Ret (cmd_manual_review n d)
  else if String.eqb command "resolved_reviews" then cmd_resolved_reviews args d
  else if String.eqb command "errors" then Ret (cmd_errors n d)
  else if String.eqb command "retry_queue" then Ret (split (cmd_retry_queue n d))
  else if String.eqb command "backup_status" then Ret (split (cmd_backup_status d))
  else if String.eqb command "version" then Ret (split (cmd_version n))
  else if String.eqb command "fee" then Ret (split (cmd_fee n d))
  else if String.eqb command "monitor" then Ret (split (cmd_monitor (check_results n)))
  else Raise (Unexpected "KeyError").

(** What a view fetches over the internet: [/monitor] runs the checks, the
    first of which is the GET of the public endpoint. *)
Definition bridge_gets (command : string) : list string :=
  if String.eqb command "monitor" then [public_ready_url settings] else [].

Definition bridge_views : CommandViews := {|
  GENERIC_DENIAL := fa "دسترسی مجاز نیست.";
  UNKNOWN_COMMAND := fa "دستور ناشناخته است. راهنما: /help";
  COMMAND_FAILED := fa "خطای داخلی در اجرای دستور. جزئیات در لاگ سرویس ثبت شد.";
  PAYMENT_USAGE := fa "استفاده: /payment ORDER_ID";
  PAYMENT_AMBIGUOUS := fa "این شناسه بین چند پرداخت مشترک است؛ شناسهٔ دقیق‌تری وارد کنید.";
  PAYMENT_NOT_FOUND := fa "پرداختی با این شناسه پیدا نشد.";
  view := bridge_view;
  view_gets := bridge_gets;
  payment_view := fun payment d => Ret (cmd_payment_view payment d);
  resend_view := resend_reply
|}.
End Views.

(** ** Facts: every reply is markup *)

(** [msgs] is one message, split where it is too long: well-formed markup,
    line by line under the hypothesis [lines]. *)
Definition reply_of (settings : Settings) (lines : Prop) (msgs : list text) : Prop :=
  exists s, s <> [] /\ marked s /\ (lines -> tidy s) /\ msgs = split settings s.

Section ReplyFacts.
Context {RENDERING : Rendering} {LAWS : RenderingLaws} {TIMES : EventTimes} {VIEWS : ViewWorld}.
Context (settings : Settings).

Lemma reply_split (lines : Prop) s : marked s -> (lines -> tidy s) -> s <> [] -> reply_of settings lines (split settings s).
Proof. intros Hm Ht Hs. by exists s. Qed.

(** A message that is short enough is sent whole. *)
Lemma split_short s : (length s <= max_length settings)%nat -> split settings s = [s].
Proof. intros H. unfold split, split_message. by rewrite (proj2 (Nat.leb_le _ _) H). Qed.

Lemma joined_nonempty sep (part : text) (rest : list text) : part <> [] -> text_join sep (part :: rest) <> [].
Proof. intros Hp. destruct rest; [done|]. cbn [text_join]. by destruct part. Qed.

Lemma marked_numbered {A} (block : Z -> A -> text) entries : (forall i e, In e entries -> marked (block i e)) ->
  Forall marked (numbered_blocks block entries).
Proof.
  intros H. unfold numbered_blocks. apply List.Forall_forall. intros t (l & Hl & Ht)%in_concat.
  apply list_elem_of_In, elem_of_lookup_imap in Hl as (i & e & -> & He%list_elem_of_lookup_2).
  apply list_elem_of_In in He. destruct Ht as [<-|[<-|[]]]; [by exists []|by apply H].
Qed.

Lemma visible_tenths t : visible (tenths_text t).
Proof. unfold tenths_text. repeat apply visible_app; try apply visible_int; [|reflexivity]. by destruct (t <? 0). Qed.

Lemma visible_time_only t z : visible (fmt_time_only_fa t z).
Proof. apply hour_minute_visible. Qed.

Lemma visible_count n : visible (count_text n).
Proof. apply visible_amount. Qed.

Lemma visible_length {A} (l : list A) : visible (length_text l).
Proof. apply visible_int. Qed.

Lemma visible_whole_seconds a : visible (whole_seconds a).
Proof. apply visible_int. Qed.

Hint Resolve visible_tenths visible_time_only visible_count visible_length visible_whole_seconds : tidy.

Lemma tidy_mark ok : tidy (mark ok).
Proof. destruct ok; by apply tidy_literal. Qed.

Hint Resolve tidy_mark : tidy.

Lemma tidy_label key labels other : forallb (fun kl => forallb safe_char (snd kl)) labels = true -> tidy other ->
  tidy (default other (label_of key labels)).
Proof.
  intros Hl Ho. destruct (label_of key labels) as [t|] eqn:E; [|done]. by eapply label_of_tidy.
Qed.

Lemma marked_bot_delivery i e now : marked (bot_delivery_entry_block i e now).
Proof. unfold bot_delivery_entry_block. marked. Qed.

Lemma marked_link_age i e now label : tidy label -> marked (link_age_entry_block i e now label).
Proof. intros Hl. unfold link_age_entry_block. marked. all: apply tidy_marked; tidy. Qed.

Lemma marked_start : marked cmd_start.
Proof. unfold cmd_start. marked. Qed.

Lemma marked_help : marked cmd_help.
Proof. unfold cmd_help. marked. Qed.

Lemma marked_fee n d : marked (cmd_fee settings n d).
Proof. unfold cmd_fee. marked. Qed.

Lemma marked_commit : Forall marked commit_line.
Proof. unfold commit_line. marked. Qed.

Lemma marked_status n d : marked (cmd_status settings n d).
Proof.
  unfold cmd_status. apply marked_join; [apply tidy_marked, tidy_newline|].
  repeat (apply Forall_app; split); [|apply marked_commit|]; marked.
Qed.

Lemma marked_health n d : marked (cmd_health settings n d).
Proof. unfold cmd_health. marked. Qed.

Lemma marked_recent p : marked (recent_block settings p).
Proof. unfold recent_block. marked. Qed.

Lemma marked_review p now : marked (review_block p now).
Proof. unfold review_block. marked. Qed.

Lemma marked_resolved p : marked (resolved_block settings p).
Proof. unfold resolved_block. marked. Qed.

Lemma marked_stuck_header a b c e : Forall marked (stuck_header a b c e).
Proof. unfold stuck_header. marked. Qed.

Lemma marked_stuck header entries total now : Forall marked header ->
  marked (assemble_stuck_message settings header entries total now).
Proof.
  intros Hh. unfold assemble_stuck_message. apply marked_join; [apply tidy_marked, tidy_newline|].
  apply Forall_app. split; [done|]. marked. apply marked_numbered. intros. apply marked_bot_delivery.
Qed.

Lemma marked_shrink header entries total now n : Forall marked header ->
  marked (shrink_stuck settings header entries total now n).
Proof.
  intros Hh. induction n as [|n IH]; cbn [shrink_stuck]; destruct (_ <? _)%nat; auto using marked_stuck.
Qed.

Lemma marked_list_view title empty_text command block entries total : tidy title -> tidy empty_text -> tidy command ->
  (forall i e, marked (block i e)) -> marked (list_view title empty_text command block entries total).
Proof.
  intros Ht He Hc Hb. unfold list_view. apply marked_join; [apply tidy_marked, tidy_newline|].
  apply Forall_app. split; [marked|]. destruct entries as [|e entries]; [marked|].
  apply Forall_app. split; [apply marked_numbered; auto|]. marked.
Qed.

Lemma marked_errors n d : Forall marked (map (fun kv : string * Z =>
    FAIL ++ fa " " ++ default (u (fst kv)) (label_of (fst kv) error_labels) ++ fa ": " ++
    int_text (snd kv) ++ fa " — " ++ code_tag (esc (u (fst kv))))
  (sort_by (fun a b => snd b <=? snd a) (errors_summary n d))).
Proof.
  apply marked_map. intros [k c] Hin. cbn [fst snd]. marked. apply tidy_marked, tidy_label; [reflexivity|].
  apply (Permutation_in _ (sort_by_Permutation _ _)) in Hin. unfold errors_summary in Hin.
  apply filter_In in Hin as [Hin _]. apply in_app_or in Hin as [Hin|[[= <- _]|[]]]; [|by apply tidy_literal].
  apply in_map_iff in Hin as (e & [= <- _] & He). apply tidy_literal.
  assert (H : forallb (fun e => forallb safe_char (u e)) error_event_types = true) by reflexivity.
  rewrite forallb_forall in H. by apply H.
Qed.

Lemma marked_queue_section title icon ps : tidy icon -> visible title -> Forall marked (queue_section settings title icon ps).
Proof.
  intros Hi Ht. unfold queue_section. marked. unfold queue_row. marked.
Qed.

Lemma marked_retry_queue n d : marked (cmd_retry_queue settings n d).
Proof.
  unfold cmd_retry_queue. apply marked_join; [apply tidy_marked, tidy_newline|].
  apply Forall_app. split; [marked|].
  repeat (apply Forall_app; split); apply marked_queue_section; first [reflexivity | by apply tidy_literal].
Qed.

Lemma marked_backup d : marked (cmd_backup_status settings d).
Proof. unfold cmd_backup_status. marked. Qed.

Lemma marked_version n : marked (cmd_version n).
Proof.
  unfold cmd_version. apply marked_join; [apply tidy_marked, tidy_newline|].
  apply Forall_app. split; [marked|apply marked_commit].
Qed.

Lemma marked_payment_view p d : exists s, s <> [] /\ marked s /\ cmd_payment_view settings p d = split settings s.
Proof.
  eexists. split; [|split; [|reflexivity]].
  - apply joined_nonempty. discriminate.
  - marked. apply marked_payment_block.
Qed.

(** *** Line by line *)

(** The stored texts that are shown between tags have no line breaks. *)
Record row_on_lines (p : Payment) : Prop := {
  rl_shown : shown_on_lines p;
  rl_error : single_line_opt (last_error p);
  rl_code : single_line_opt (bot_last_error_code p);
  rl_resolution : single_line_opt (review_resolution p)
}.

Record db_on_lines (d : Db) : Prop := {
  dl_rows : forall p, In p (rows (payments d)) -> row_on_lines p;
  dl_events : forall e, In e (payment_events d) -> single_line (event_type e);
  dl_revision : forall n, single_line (revision n);
  dl_commit : single_line git_commit_sha
}.

Lemma lacks_str_take c n s : lacks c (u s) = true -> lacks c (u (str_take n s)) = true.
Proof.
  revert s. induction n as [|n IH]; intros [|a s]; try done. cbn [str_take u]. rewrite !lacks_cons.
  intros [Ha Hs]%andb_true_iff. by rewrite Ha, IH.
Qed.

Lemma one_line_opt o s : single_line_opt o -> filled o = Some s -> one_line (esc (u s)).
Proof. intros Ho Hs. by apply one_line_esc, (single_line_filled o). Qed.

Lemma one_line_or_dash o : single_line_opt o -> one_line (esc (or_dash o)).
Proof.
  intros Ho. unfold or_dash. destruct (filled o) as [s|] eqn:E; [by eapply one_line_opt|].
  by apply one_line_esc.
Qed.

Lemma one_line_order p : row_on_lines p -> one_line (esc (u (bot_order_id p))).
Proof. intros [[H _] _ _ _]. by apply one_line_esc. Qed.

Hint Resolve one_line_order : tidy.

Lemma tidy_commit : single_line git_commit_sha -> Forall tidy commit_line.
Proof.
  intros H. unfold commit_line. tidy. apply one_line_esc, lacks_str_take.
  match goal with E : filled _ = Some _ |- _ => revert E end. cbn. destruct (String.eqb _ _); [done|]. by intros [= <-].
Qed.

Lemma tidy_status_view n d : single_line git_commit_sha -> tidy (cmd_status settings n d).
Proof.
  intros H. unfold cmd_status. apply tidy_lines.
  repeat (apply Forall_app; split); [|by apply tidy_commit|]; tidy.
Qed.

Lemma tidy_numbered {A} (block : Z -> A -> text) entries : (forall i e, In e entries -> tidy (block i e)) ->
  Forall tidy (numbered_blocks block entries).
Proof.
  intros H. unfold numbered_blocks. apply List.Forall_forall. intros t (l & Hl & Ht)%in_concat.
  apply list_elem_of_In, elem_of_lookup_imap in Hl as (i & e & -> & He%list_elem_of_lookup_2).
  apply list_elem_of_In in He. destruct Ht as [<-|[<-|[]]]; [apply tidy_nil|by apply H].
Qed.

Lemma tidy_recent p : row_on_lines p -> tidy (recent_block settings p).
Proof. intros H. unfold recent_block. tidy. eapply one_line_opt; [apply H|done]. Qed.

Lemma tidy_resolved p : row_on_lines p -> tidy (resolved_block settings p).
Proof. intros H. unfold resolved_block. tidy; apply one_line_or_dash, H. Qed.

Lemma single_line_or a b s : single_line_opt a -> single_line_opt b -> or_text a (filled b) = Some s -> single_line s.
Proof.
  intros Ha Hb. unfold or_text. destruct a as [r|]; [destruct (String.eqb r "")|]; intros H.
  - by eapply single_line_filled.
  - by apply Ha.
  - by eapply single_line_filled.
Qed.

Lemma tidy_review p now : row_on_lines p -> tidy (review_block p now).
Proof.
  intros H. unfold review_block. tidy. apply one_line_esc.
  destruct (or_text _ _) as [s|] eqn:E; [|done]. eapply single_line_or; [| |exact E]; apply H.
Qed.

Lemma lacks_partition c x s a b : text_partition x s = Some (a, b) -> lacks c s = true -> lacks c b = true.
Proof.
  revert a b. induction s as [|y s IH]; intros a b; [done|]. cbn [text_partition]. rewrite lacks_cons.
  destruct (y =? x); [intros [= <- <-] [_ H]%andb_true_iff; done|].
  destruct (text_partition x s) as [[a' b']|]; [|done]. intros [= <- <-] [_ H]%andb_true_iff. by eapply IH.
Qed.

Lemma tidy_bot_delivery i e now : row_on_lines (qe_payment e) -> single_line (qe_category e) ->
  tidy (bot_delivery_entry_block i e now).
Proof.
  intros H Hc. unfold bot_delivery_entry_block. tidy. apply one_line_esc. unfold delivery_reason.
  destruct (text_partition 58 (u (qe_category e))) as [[a [|c b]]|] eqn:E; [exact Hc| |exact Hc].
  by eapply lacks_partition.
Qed.

Lemma tidy_link_age i e now label : tidy label -> tidy (link_age_entry_block i e now label).
Proof. intros Hl. unfold link_age_entry_block. tidy. Qed.

Lemma tidy_list_view title empty_text command block entries total : tidy title -> tidy empty_text -> tidy command ->
  (forall i e, tidy (block i e)) -> tidy (list_view title empty_text command block entries total).
Proof.
  intros Ht He Hc Hb. unfold list_view. apply tidy_lines. apply Forall_app. split; [tidy|].
  destruct entries as [|e entries]; [tidy|]. apply Forall_app. split; [apply tidy_numbered; auto|]. tidy.
Qed.

Lemma tidy_stuck header entries total now : Forall tidy header ->
  (forall e, In e entries -> row_on_lines (qe_payment e) /\ single_line (qe_category e)) ->
  tidy (assemble_stuck_message settings header entries total now).
Proof.
  intros Hh He. unfold assemble_stuck_message. apply tidy_lines. apply Forall_app. split; [done|].
  tidy. apply tidy_numbered. intros i e Hin. by apply tidy_bot_delivery; apply He.
Qed.

Lemma tidy_errors now d : Forall tidy (map (fun kv : string * Z =>
    FAIL ++ fa " " ++ default (u (fst kv)) (label_of (fst kv) error_labels) ++ fa ": " ++
    int_text (snd kv) ++ fa " — " ++ code_tag (esc (u (fst kv))))
  (sort_by (fun a b => snd b <=? snd a) (errors_summary now d))).
Proof.
  apply tidy_map. intros [k c] Hin. cbn [fst snd].
  apply (Permutation_in _ (sort_by_Permutation _ _)), filter_In, proj1, in_app_or in Hin.
  assert (Hk : existsb (String.eqb k) ("callback_signature_failures" :: error_event_types) = true).
  { apply existsb_exists. exists k. split; [|apply String.eqb_refl].
    destruct Hin as [(e & [= <- _] & He)%in_map_iff|[[= <- _]|[]]]; [by right|by left]. }
  assert (Hv : visible (u k)).
  { assert (H : forallb (fun e => forallb visible_char (u e)) ("callback_signature_failures" :: error_event_types) = true)
      by reflexivity.
    apply existsb_exists in Hk as (e & He & ->%String.eqb_eq). rewrite forallb_forall in H. by apply H. }
  tidy; [apply tidy_label; [reflexivity|by apply tidy_one_line, visible_one_line]|].
  apply one_line_esc. by apply visible_one_line.
Qed.

Lemma tidy_queue_section title icon ps : tidy icon -> visible title -> (forall p, In p ps -> row_on_lines p) ->
  Forall tidy (queue_section settings title icon ps).
Proof.
  intros Hi Ht Hp. unfold queue_section. tidy. unfold queue_row. tidy. apply one_line_esc.
  match goal with Hin : In ?a _ |- _ => rename a into p; apply list_elem_of_In, elem_of_take in Hin as (i & Hin%list_elem_of_lookup_2 & _);
    apply list_elem_of_In, Hp in Hin; destruct Hin as [[_ Hr] _ _ _] end.
  destruct (filled (bot_notify_reason p)) as [s|] eqn:E; [by eapply single_line_filled|done].
Qed.

(** *** Lengths *)

Lemma group_digits_length n s : (length s <= n)%nat ->
  (3 * length (group_digits s) <= 4 * length s)%nat.
Proof.
  revert s. induction n as [|n IH]; intros s Hn; [by destruct s; [|cbn in Hn; lia]|].
  destruct s as [|a [|b [|c [|d rest]]]]; try (cbn; lia).
  change (group_digits (a :: b :: c :: d :: rest)) with (a :: b :: c :: 44 :: group_digits (d :: rest)).
  specialize (IH (d :: rest)). cbn [length] in *. lia.
Qed.

Lemma u_length s : length (u s) = String.length s.
Proof. induction s as [|c s IH]; [done|]. cbn. by rewrite IH. Qed.

Lemma int_text_length n : 0 <= n < 10 ^ 15 -> (length (int_text n) <= 15)%nat.
Proof.
  intros Hn. unfold int_text. rewrite u_length. destruct n as [|p|p]; [cbn; lia| |lia].
  change (str_of_int (Z.pos p)) with (pretty (N.pos p)). unfold pretty, pretty_N. rewrite decide_False by done.
  pose proof (pretty_N_go_length 15 (N.pos p) "") as H. cbn [String.length] in H. rewrite Nat.add_0_r in H. apply H.
  apply N2Z.inj_lt. change (Z.of_N (10 ^ N.of_nat 15)) with (10 ^ 15). cbn. lia.
Qed.

Lemma count_text_length n : 0 <= n < 10 ^ 15 -> (length (count_text n) <= 20)%nat.
Proof.
  intros Hn. unfold count_text, fmt_amount, with_commas. rewrite (proj2 (Z.ltb_ge n 0)) by lia. rewrite length_rev.
  pose proof (group_digits_length _ (rev (int_text n)) (le_n _)) as H. rewrite length_rev in H.
  pose proof (int_text_length n Hn). lia.
Qed.

(** Bounds the length of a message from the lengths of its literals. *)
Ltac literal_lengths :=
  repeat match goal with |- context [length (fa ?s)] =>
    let k := eval vm_compute in (length (fa s)) in change (length (fa s)) with k end.

Lemma stuck_header_length a b c e now :
  0 <= a < 10 ^ 15 -> 0 <= b < 10 ^ 15 -> 0 <= c < 10 ^ 15 -> 0 <= e < 10 ^ 15 ->
  (length (assemble_stuck_message settings (stuck_header a b c e) [] a now) <= 500)%nat.
Proof.
  intros Ha Hb Hc He.
  pose proof (count_text_length a Ha). pose proof (count_text_length b Hb). pose proof (count_text_length c Hc).
  pose proof (count_text_length e He). pose proof (hour_minute_short (tz settings) now) as Ht.
  unfold assemble_stuck_message, stuck_header, numbered_blocks. cbn [imap concat length Z.of_nat].
  change (Z.of_nat 0) with 0. rewrite Z.sub_0_r. change (count_text 0) with [48]. unfold ICON_OK, fmt_time_only_fa.
  destruct (0 <? a) eqn:E1, (0 <? e) eqn:E2, (a =? 0) eqn:E3; try (bool_to_prop; lia);
    cbn [orb app]; rewrite !split_read; cbn [flat_map];
    repeat (rewrite !length_app || cbn [length]); literal_lengths; cbn [length]; lia.
Qed.


(** *** Replies *)

Hypothesis limit : 500 <= admin_bot_max_message_length settings.

Lemma limit_nat : (500 <= max_length settings)%nat.
Proof. unfold max_length. lia. Qed.

(** A fixed text. *)
Lemma reply_fixed lines s : tidyb s && negb (text_eqb s []) && (length s <=? 500)%nat = true ->
  reply_of settings lines [s].
Proof.
  rewrite !andb_true_iff, Nat.leb_le. intros [[Ht Hs] Hl]. exists s. apply tidyb_tidy in Ht.
  split_and!; [by intros ->|by apply tidy_marked|done|]. rewrite split_short; [done|]. pose proof limit_nat. lia.
Qed.

Lemma joined_line (part : text) (rest : list text) : part <> [] -> join_lines (part :: rest) <> [].
Proof. apply joined_nonempty. Qed.

Lemma batch_rows {A} (flt : A -> bool) le n l a : In a (select_batch flt le n l) -> In a l.
Proof. by intros [? _]%select_batch_In. Qed.

Lemma snapshot_on_lines now limit' d e : db_on_lines d -> In e (fst (stuck_snapshot settings now limit' d)) ->
  row_on_lines (qe_payment e) /\ single_line (qe_category e).
Proof.
  intros Hd. unfold stuck_snapshot, bot_delivery_snapshot, attention_snapshot, rows_with_exact_total. cbn [fst].
  intros (p & <- & Hp%batch_rows)%in_map_iff. cbn [qe_payment qe_category]. pose proof (dl_rows _ Hd p Hp) as Hr.
  split; [done|]. destruct Hr as [[_ Hr] _ _ _].
  assert (Hl : single_line_opt (or_text (bot_notify_reason p) (Some "bot_notify_pending_old"))).
  { unfold or_text. destruct (bot_notify_reason p) as [r|]; [destruct (String.eqb r "")|]; intros s [= <-]; [done|by apply Hr|done]. }
  assert (Hd' : single_line (default "" (or_text (bot_notify_reason p) (Some "bot_notify_pending_old")))).
  { destruct (or_text _ _) as [s|] eqn:E; [by apply Hl|done]. }
  destruct (bot_delivery_manual_review_conditions p).
  - unfold single_line in *. rewrite u_app, lacks_app. apply andb_true_iff. split; [done|].
    destruct (bot_notify_reason p) as [r|] eqn:E; [by apply (Hr r)|done].
  - unfold pending_label. repeat case_match; done.
Qed.

Lemma count_bounded flt d : Z.of_nat (length (rows (payments d))) < 10 ^ 15 -> 0 <= count_where flt d < 10 ^ 15.
Proof.
  intros H. unfold count_where, payments_where. pose proof (List.filter_length_le flt (rows (payments d))). lia.
Qed.

Lemma shrink_fits a b c e entries now n :
  0 <= a < 10 ^ 15 -> 0 <= b < 10 ^ 15 -> 0 <= c < 10 ^ 15 -> 0 <= e < 10 ^ 15 ->
  (length (shrink_stuck settings (stuck_header a b c e) entries a now n) <= max_length settings)%nat.
Proof.
  intros Ha Hb Hc He. pose proof (stuck_header_length a b c e now Ha Hb Hc He) as H. pose proof limit_nat.
  induction n as [|n IH]; cbn [shrink_stuck].
  - change (take 0 entries) with (@nil QueryEntry).
    destruct (_ <? _)%nat eqn:E; [apply Nat.ltb_lt in E; lia|by apply Nat.ltb_ge in E].
  - destruct (_ <? _)%nat eqn:E; [exact IH|by apply Nat.ltb_ge in E].
Qed.

Lemma shrink_shape (P : text -> Prop) header entries total now n :
  (forall k, P (assemble_stuck_message settings header (take k entries) total now)) ->
  P (shrink_stuck settings header entries total now n).
Proof. intros HP. induction n as [|n IH]; cbn [shrink_stuck]; destruct (_ <? _)%nat; auto. Qed.

Lemma assemble_nonempty header entries total now : [] <> header -> hd [] header <> [] ->
  assemble_stuck_message settings header entries total now <> [].
Proof. intros Hn Hh. destruct header as [|h header]; [done|]. apply joined_line. exact Hh. Qed.

(** [/stuck] always sends one message. *)
Lemma stuck_reply args n d : Z.of_nat (length (rows (payments d))) < 10 ^ 15 ->
  reply_of settings (db_on_lines d) (cmd_stuck settings args n d).
Proof.
  intros Hrows. destruct args as [|arg args]; [|by apply reply_fixed; vm_compute]. cbn [cmd_stuck].
  destruct (stuck_snapshot settings (reading n 0) STUCK_DETAIL_MAX d) as [entries total] eqn:Es.
  assert (Ht : 0 <= total < 10 ^ 15).
  { change total with (snd (entries, total)). rewrite <- Es.
    unfold stuck_snapshot, bot_delivery_snapshot, attention_snapshot, rows_with_exact_total. cbn [snd].
    destruct (select_batch _ _ _ _); [lia|by apply count_bounded]. }
  set (header := stuck_header _ _ _ _). exists (shrink_stuck settings header entries total (reading n 0) (length entries)).
  split_and!.
  - apply shrink_shape. intros k. by apply assemble_nonempty.
  - apply marked_shrink, marked_stuck_header.
  - intros Hd. apply shrink_shape. intros k. apply tidy_stuck.
    + subst header. unfold stuck_header. tidy.
    + intros e He. eapply snapshot_on_lines; [done|]. rewrite Es. cbn [fst].
      apply list_elem_of_In, elem_of_take in He as (i & He%list_elem_of_lookup_2 & _). by apply list_elem_of_In.
  - rewrite split_short; [done|]. subst header. by apply shrink_fits; try apply count_bounded.
Qed.


Lemma visible_monitor_detail r : visible (monitor_detail_fa r).
Proof.
  unfold monitor_detail_fa. repeat case_match; cbv beta iota delta [from_option Datatypes.id]; simplify_eq;
    repeat apply visible_app; first [reflexivity | apply visible_int | case_match; reflexivity].
Qed.

Lemma tidy_monitor results : Forall (fun r => visible (u (key r))) results ->
  tidy (cmd_monitor results).
Proof.
  intros Hk. unfold cmd_monitor. apply tidy_lines. apply Forall_app. split.
  { apply Forall_cons. split; [|tidy]. apply tidy_app; [destruct (overall_status results); by apply tidy_literal|tidy]. }
  apply Forall_app. split.
  - apply tidy_map. intros r Hr. rewrite List.Forall_forall in Hk. specialize (Hk r Hr).
    apply tidy_app; [destruct (check_status r); by apply tidy_literal|]. apply tidy_app; [tidy|].
    apply tidy_app; [apply tidy_label; [reflexivity|by apply tidy_one_line, visible_one_line]|].
    apply tidy_one_line, visible_one_line, visible_monitor_detail.
  - tidy. apply visible_one_line. by destruct (overall_status results).
Qed.

(** A check has one of the monitor's keys. *)
Hypothesis known_checks : forall n, map key (check_results n) = check_keys settings true.

Lemma check_keys_visible : Forall (fun k => visible (u k)) (check_keys settings true).
Proof.
  unfold check_keys. destruct (reconciliation_enabled settings), (admin_bot_enabled settings); repeat (apply Forall_cons; split);
    first [reflexivity | apply Forall_nil_2].
Qed.

Lemma checks_visible n : Forall (fun r => visible (u (key r))) (check_results n).
Proof.
  pose proof check_keys_visible as H. rewrite <- (known_checks n), List.Forall_forall in H.
  apply List.Forall_forall. intros r Hr. by apply H, in_map.
Qed.

Lemma reply_recent args d msgs : cmd_recent settings args d = Ret msgs -> reply_of settings (db_on_lines d) msgs.
Proof.
  unfold cmd_recent. destruct (parse_limit args) as [k|]; [|done].
  destruct (recent_payments d k) as [|p ps] eqn:E; intros H; apply Ret_inj in H as <-; [by apply reply_fixed; vm_compute|].
  apply reply_split; [| |apply joined_line; discriminate].
  - marked. apply marked_recent.
  - intros Hd. tidy. apply tidy_recent, (dl_rows _ Hd), (batch_rows (fun _ => true) (by_key (fun p => [- created_at p])) k).
    unfold recent_payments in E. by rewrite E.
Qed.

Lemma reply_resolved args d msgs : cmd_resolved_reviews settings args d = Ret msgs -> reply_of settings (db_on_lines d) msgs.
Proof.
  unfold cmd_resolved_reviews. destruct (parse_limit args) as [k|]; [|done].
  destruct (resolved_review_payments d k) as [|p ps] eqn:E; intros H; apply Ret_inj in H as <-; [by apply reply_fixed; vm_compute|].
  apply reply_split; [| |apply joined_line; discriminate].
  - marked. apply marked_resolved.
  - intros Hd. tidy. apply tidy_resolved, (dl_rows _ Hd).
    match goal with Hin : In ?a _ |- _ => rewrite <- E in Hin; by apply batch_rows in Hin end.
Qed.

Lemma reply_reviews n d : reply_of settings (db_on_lines d) (cmd_manual_review settings n d).
Proof.
  unfold cmd_manual_review. destruct (manual_review_payments d 20) as [|p ps] eqn:E; [by apply reply_fixed; vm_compute|].
  apply reply_split; [| |apply joined_line; discriminate].
  - marked. apply marked_review.
  - intros Hd. tidy. apply tidy_review, (dl_rows _ Hd).
    match goal with Hin : In ?a _ |- _ => rewrite <- E in Hin; by apply batch_rows in Hin end.
Qed.

Lemma reply_errors n d : reply_of settings (db_on_lines d) (cmd_errors settings n d).
Proof.
  unfold cmd_errors. pose proof (marked_errors (reading n 0) d) as Hm. pose proof (tidy_errors (reading n 0) d) as Ht.
  destruct (errors_summary (reading n 0) d) as [|kv summary]; [by apply reply_fixed; vm_compute|].
  apply reply_split; [| |apply joined_line; discriminate].
  - apply marked_join; [apply tidy_marked, tidy_newline|]. apply Forall_app. split; [marked|done].
  - intros _. apply tidy_lines, Forall_app. split; [tidy|done].
Qed.

Lemma reply_waiting args n d msgs : cmd_waiting settings args n d = Ret msgs -> reply_of settings (db_on_lines d) msgs.
Proof.
  unfold cmd_waiting. destruct (parse_list_count args) as [[k|]|]; [| |done].
  - destruct (waiting_snapshot _ _ _ _) as [entries total]. intros H. apply Ret_inj in H as <-.
    apply reply_split; [| |apply joined_line; discriminate].
    + apply marked_list_view; [tidy..|]. intros. by apply marked_link_age; tidy.
    + intros _. apply tidy_list_view; [tidy..|]. intros. by apply tidy_link_age; tidy.
  - intros H. apply Ret_inj in H as <-. by apply reply_fixed; vm_compute.
Qed.

Lemma reply_expired args n d msgs : cmd_expired settings args n d = Ret msgs -> reply_of settings (db_on_lines d) msgs.
Proof.
  unfold cmd_expired. destruct (parse_list_count args) as [[k|]|]; [| |done].
  - destruct (expired_snapshot _ _ _ _) as [entries total]. intros H. apply Ret_inj in H as <-.
    apply reply_split; [| |apply joined_line; discriminate].
    + apply marked_list_view; [tidy..|]. intros. by apply marked_link_age; tidy.
    + intros _. apply tidy_list_view; [tidy..|]. intros. by apply tidy_link_age; tidy.
  - intros H. apply Ret_inj in H as <-. by apply reply_fixed; vm_compute.
Qed.

Lemma tidy_retry_queue n d : db_on_lines d -> tidy (cmd_retry_queue settings n d).
Proof.
  intros Hd. unfold cmd_retry_queue. apply tidy_lines, Forall_app. split; [tidy|].
  repeat (apply Forall_app; split); apply tidy_queue_section; try reflexivity; try (by apply tidy_literal);
    intros p Hp; apply (dl_rows _ Hd); unfold retry_queue_snapshot in Hp; cbn in Hp;
    repeat match type of Hp with In _ (List.filter _ _) => apply filter_In in Hp as [Hp _] end;
    by eapply batch_rows.
Qed.

Lemma tidy_version n d : db_on_lines d -> tidy (cmd_version n).
Proof.
  intros Hd. unfold cmd_version. apply tidy_lines, Forall_app. split; [|apply tidy_commit, Hd].
  tidy. apply one_line_esc, Hd.
Qed.

Lemma in_numbered k e l : In (k, e) (numbered l) -> In e l.
Proof. induction l as [|e' l IH]; [done|]. cbn. intros [[= _ <-]|H]; [by left|right; auto]. Qed.

Lemma reply_payment p d : reply_of settings (db_on_lines d /\ row_on_lines p) (cmd_payment_view settings p d).
Proof.
  unfold cmd_payment_view. apply reply_split; [| |apply joined_nonempty; discriminate].
  - marked. apply marked_payment_block.
  - intros [Hd Hp]. tidy; try (eapply one_line_opt; [|eassumption]; apply Hp); try apply one_line_or_dash, Hp.
    + apply tidy_payment_block, Hp.
    + match goal with Hin : In _ (rev _) |- _ => rewrite <- in_rev in Hin; revert Hin end.
      match goal with E : events_of_payment _ _ _ = _ |- _ => rewrite <- E end. unfold events_of_payment.
      intros (i & Hin%list_elem_of_lookup_2 & _)%list_elem_of_In%elem_of_take.
      apply list_elem_of_In, filter_In, proj1 in Hin. apply one_line_esc, (dl_events _ Hd).
      match goal with ne : Z * PaymentEvent |- _ => destruct ne as [k e] end. by eapply in_numbered.
Qed.

Lemma reply_resend r (lines : Prop) : (forall s, In s match r with ResendPreview p => preview_order_ids p | _ => [] end ->
    lines -> single_line s) -> r <> ResendDone None -> reply_of settings lines (resend_reply settings r).
Proof.
  intros Hids Hr. destruct r as [|preview|[result|]]; [| | |done]; cbn [resend_reply].
  - apply reply_split; [| |discriminate].
    + unfold BULK_RESEND_SAFE_MODE_MESSAGE. marked.
    + intros _. unfold BULK_RESEND_SAFE_MODE_MESSAGE. tidy.
  - apply reply_split; [| |apply joined_line; discriminate].
    + unfold render_resend_preview. marked.
    + intros Hl. unfold render_resend_preview. tidy. by apply one_line_esc, Hids.
  - apply reply_split; [| |apply joined_line; discriminate].
    + unfold render_resend_result. marked.
    + intros _. unfold render_resend_result. tidy.
Qed.


Lemma view_reply command args d n msgs : Z.of_nat (length (rows (payments d))) < 10 ^ 15 ->
  bridge_view settings command args d n = Ret msgs -> reply_of settings (db_on_lines d) msgs.
Proof.
  intros Hrows. unfold bridge_view.
  assert (Hs : forall s, marked s -> (db_on_lines d -> tidy s) -> s <> [] -> Ret (split settings s) = Ret msgs ->
    reply_of settings (db_on_lines d) msgs).
  { intros s Hm Ht Hn H. apply Ret_inj in H as <-. by apply reply_split. }
  repeat (destruct (String.eqb command _);
    [intros H; try (eapply Hs; [| | |exact H]; [| |apply joined_line; discriminate])|]); [..|done].
  - apply marked_start.
  - intros _. unfold cmd_start. tidy.
  - apply marked_help.
  - intros _. unfold cmd_help. tidy.
  - apply marked_status.
  - intros Hd. apply tidy_status_view, Hd.
  - apply marked_health.
  - intros _. unfold cmd_health. tidy.
  - by eapply reply_recent.
  - apply Ret_inj in H as <-. by apply stuck_reply.
  - by eapply reply_waiting.
  - by eapply reply_expired.
  - apply Ret_inj in H as <-. apply reply_reviews.
  - by eapply reply_resolved.
  - apply Ret_inj in H as <-. apply reply_errors.
  - apply marked_retry_queue.
  - apply tidy_retry_queue.
  - apply marked_backup.
  - intros _. unfold cmd_backup_status. tidy.
  - apply marked_version.
  - apply tidy_version.
  - apply marked_fee.
  - intros _. unfold cmd_fee. tidy.
  - eapply Hs; [apply tidy_marked, tidy_monitor, checks_visible|intros _; apply tidy_monitor, checks_visible| |exact H].
    apply joined_line. by destruct (overall_status (check_results n)).
Qed.


(** *** The answers of [handle] *)

Context {ENV : Env} {RELY : Rely}.

(** Fewer than 10^15 payments. *)
Definition small (d : Db) : Prop := Z.of_nat (length (rows (payments d))) < 10 ^ 15.

(** [msgs] answers [command] from the database [d]. The bulk resend that does
    not end is the one command without an answer. *)
Definition shown (command : string) (d : Db) (msgs : list text) : Prop :=
  command = "resend_failed" /\ msgs = [] \/
  (small d -> reply_of settings (db_on_lines d) msgs) /\ (command = "stuck" -> length msgs = 1%nat).

Definition fixed_texts : list text :=
  let V := bridge_views settings in
  [GENERIC_DENIAL; UNKNOWN_COMMAND; COMMAND_FAILED; PAYMENT_USAGE; PAYMENT_AMBIGUOUS; PAYMENT_NOT_FOUND].

Lemma shown_fixed command d t : In t fixed_texts -> shown command d [t].
Proof.
  intros Ht. right. split; [|done]. intros _.
  destruct Ht as [<-|[<-|[<-|[<-|[<-|[<-|[]]]]]]]; apply reply_fixed; vm_compute; reflexivity.
Qed.

(** The fixed text number [k]. *)
Tactic Notation "fixed_text" integer(k) :=
  apply shown_fixed; unfold fixed_texts; do k (apply or_intror); apply or_introl; reflexivity.

Lemma shown_view command args d n msgs : bridge_view settings command args d n = Ret msgs -> shown command d msgs.
Proof.
  intros H. right. split; [intros Hs; by eapply view_reply|]. intros ->. apply Ret_inj in H as <-.
  unfold cmd_stuck. destruct args; [|done]. by destruct (stuck_snapshot _ _ _ _).
Qed.

Lemma db_on_lines_audited gets es w w' : audited_only gets es w w' -> (forall e, In e es -> single_line e) ->
  db_on_lines (committed w) -> db_on_lines (committed w').
Proof.
  intros A Hes [H1 H2 H3 H4]. split; [by rewrite (ao_payments _ _ _ _ A)| |done..].
  intros e He. apply (in_map event_type) in He. rewrite (ao_events _ _ _ _ A) in He.
  apply in_app_or in He as [He|(e' & <- & He')%in_map_iff]; auto.
Qed.

(** A payment found by the lookup is the row. *)
Lemma find_payment_row identifier w : sound w -> working w = committed w -> identity_map w = ∅ ->
  wp (find_payment identifier) (fun r w' => audited_only [] [] w w' /\
    match r with Ret (Some p) => payments (committed w) !! id p = Some p | _ => True end) w.
Proof.
  intros Hs Hf Hm. apply (wp_and _ (fun _ w' => audited_only [] [] w w')
    (fun r _ => match r with Ret (Some p) => payments (committed w) !! id p = Some p | _ => True end));
    [by apply wp_find_payment_looks|].
  pose proof (so_working w Hs) as Hok. unfold find_payment. apply wp_bind. eapply wp_mono.
  { apply wp_find_payment; [apply Hok|apply Hok|apply Hok|by apply clean_empty]. }
  intros [[p|]|e] w1 [L LA]; [| |done].
  - apply wp_ret. rewrite <- Hf. by inversion LA.
  - set (found := take 2 (payments_where (fun p => bool_decide (reference_id p = Some identifier)) (working w1))).
    assert (Hrows : forall row, In row found -> payments (working w1) !! id row = Some row).
    { intros row Hr. apply where_rows with (fun p => bool_decide (reference_id p = Some identifier)).
      - rewrite (Inspect.lk_working _ _ L). apply Hok.
      - apply list_elem_of_In in Hr. apply list_elem_of_In. eapply elem_of_sublist; [exact Hr|apply sublist_take]. }
    apply wp_bind, wp_get_db, wp_bind, (wp_attach_all w); [by apply steady_looked| |exact Hrows|].
    + rewrite <- firstn_map. eapply sublist_NoDup; [|apply sublist_take]. apply where_NoDup. rewrite (Inspect.lk_working _ _ L). apply Hok.
    + intros w2 _ _ _ _. fold found. destruct found as [|row [|? ?]]; cbn [map]; try by apply wp_ret.
      apply wp_ret. unfold object_of. specialize (Hrows row ltac:(by left)).
      rewrite (Inspect.lk_working _ _ L), Hf in Hrows. destruct (identity_map w1 !! id row) as [o|] eqn:Eo; [|done].
      pose proof (Inspect.lk_clean _ _ L _ _ Eo) as Ho. rewrite (Inspect.lk_working _ _ L), Hf in Ho. by simplify_eq.
Qed.

Lemma wp_payment_shown args w : sound w -> working w = committed w -> identity_map w = ∅ ->
  wp (@cmd_payment _ (bridge_views settings) args) (fun r _ => match r with Ret msgs => shown "payment" (committed w) msgs | Raise _ => True end) w.
Proof.
  intros Hs Hf Hm. destruct args as [|identifier args]; [apply wp_ret; fixed_text 3|].
  cbn [cmd_payment]. apply wp_bind, wp_try, wp_bind. eapply wp_mono; [by apply find_payment_row|].
  intros [p|e] w1 [A Hp]; [|destruct (is_ambiguous e); [|done]].
  - apply wp_ret, wp_reassoc, wp_bind, wp_recorded; [apply A..|done|]. intros w2 R.
    destruct p as [p|]; [|apply wp_ret; fixed_text 5].
    apply wp_bind, wp_get_db. right. split; [|done]. intros _.
    destruct (reply_payment p (working w2)) as (s & H1 & H2 & H3 & ->). exists s. split_and!; [done..| |done].
    intros Hd. apply H3. rewrite (ao_saved _ _ _ _ R). split.
    + eapply db_on_lines_audited; [exact (audited_only_trans _ _ _ _ _ _ _ A R)| |exact Hd].
      by intros e [<-|[]].
    + apply (dl_rows _ Hd), in_rows. eauto.
  - apply wp_ret, wp_reassoc, wp_bind, wp_recorded; [apply A..|done|]. intros w2 R.
    apply wp_ret. fixed_text 4.
Qed.

(** The order ids of a preview are those of payments. *)
Lemma resend_ids user args fuel w : wp (cmd_resend_failed settings user args fuel) (fun r _ =>
  match r with
  | Ret (ResendPreview preview) =>
      forall s, In s (preview_order_ids preview) -> exists p, In p (rows (payments (working w))) /\ bot_order_id p = s
  | _ => True
  end) w.
Proof.
  unfold cmd_resend_failed. destruct (negb (bool_decide _)); [done|]. destruct (negb _).
  - apply wp_bind. unfold preview_bulk_resend. apply wp_bind, wp_get_db, wp_bind, wp_rollback. intros w1 _.
    do 2 apply wp_ret. cbn [preview_order_ids]. intros s Hs.
    apply list_elem_of_In, elem_of_take in Hs as (i & Hs%list_elem_of_lookup_2 & _).
    apply list_elem_of_In, in_map_iff in Hs as (p & <- & Hp). exists p. split; [|done].
    apply (Permutation_in _ (sort_by_Permutation _ _)) in Hp. by apply filter_In in Hp as [Hp _].
  - apply wp_bind, wp_utcnow. intros now w1 _. apply wp_bind. by apply wp_intro; intros [r|e] w2 _.
Qed.

(** A handler answers from the database its session finds. *)
Lemma wp_handler_shown fuel ctx command handler args w : @registry _ (bridge_views settings) settings fuel ctx command = Some handler ->
  sound w -> working w = committed w -> identity_map w = ∅ ->
  wp (handler args) (fun r w' => steady w w' /\
    match r with Ret msgs => shown command (committed w) msgs | Raise _ => True end) w.
Proof.
  intros Hr Hs Hf Hm. apply (wp_and _ (fun _ w' => steady w w')
    (fun r _ => match r with Ret msgs => shown command (committed w) msgs | Raise _ => True end));
    [by eapply registry_steady|]. revert Hr. unfold registry.
  destruct (String.eqb_spec command "resend_failed") as [->|_].
  { intros [= <-]. apply wp_bind. eapply wp_mono; [apply resend_ids|]. intros [r|e] w1 Hids; [|done].
    apply wp_ret. destruct r as [|preview|[result|]]; [..|by left]; right; (split; [intros _|done]);
      (apply reply_resend; [|discriminate]); [by intros t []| |by intros t []].
    intros t Ht Hd. destruct (Hids t Ht) as (p & Hp & <-). rewrite Hf in Hp.
    by destruct (dl_rows _ Hd p Hp) as [[H _] _ _ _]. }
  destruct (String.eqb_spec command "payment") as [->|_]; [intros [= <-]; by apply wp_payment_shown|].
  destruct (existsb _ _); [|done]. intros [= <-]. unfold cmd_view. apply wp_bind, wp_get_db. rewrite Hf.
  apply wp_bind. unfold wp at 1, fetch. cbn [fst snd]. apply wp_bind, wp_tick. intros w1 _.
  destruct (view _ _ _ _) as [msgs|e] eqn:E; [|done]. apply wp_ret. exact (shown_view _ _ _ _ _ E).
Qed.

(** The database an answer is made from, in a command that runs from [w] to
    [w']: on the way from one to the other, and, if no other session commits,
    the committed one up to the audit trail. *)
Record read_between (w w' : World) (d : Db) : Prop := {
  rd_before : db_legal (committed w) d;
  rd_after : db_legal d (committed w');
  rd_alone : alone -> payments d = payments (committed w) /\ (db_on_lines (committed w) -> db_on_lines d)
}.

Lemma read_before w w' : steady w w' -> read_between w w' (committed w).
Proof. intros [_ L]. by split; [reflexivity| |]. Qed.

(** An audit event of its own, with what [alone] adds. *)
Lemma wp_audited etype lvl data w : sound w -> command_event etype = true ->
  wp (audit_alone etype lvl data) (fun r w' => r = Ret tt /\ steady w w' /\
    (alone -> audited_only [] [etype] w w')) w.
Proof.
  intros Hs He. apply wp_intro. intros r w' Erun.
  pose proof (wp_run _ _ _ _ _ Erun (audit_alone_steady etype lvl data w Hs)) as [-> S]. split_and!; [done..|].
  intros Ha. apply (wp_run _ (fun _ w' => audited_only [] [etype] w w') _ _ _ Erun). by apply wp_audit_alone.
Qed.

Lemma wp_handle_shown admin_ids fuel ctx command args w : sound w ->
  wp (@handle _ (bridge_views settings) settings admin_ids fuel ctx command args) (fun r w' =>
    match r with
    | Ret replies => exists d, read_between w w' d /\ shown command d replies
    | Raise _ => True
    end) w.
Proof.
  intros Hs. unfold handle. destruct (negb _).
  { apply wp_bind. eapply wp_mono; [by apply wp_audited|]. intros r w1 (-> & S & _). apply wp_ret.
    exists (committed w). split; [by apply read_before|]. fixed_text 0. }
  apply wp_bind. eapply wp_mono; [by apply wp_audited|]. intros r w1 (-> & S1 & A1).
  destruct (registry _ _ _ _) as [handler|] eqn:Er.
  2:{ apply wp_ret. exists (committed w). split; [by apply read_before|]. fixed_text 1. }
  apply wp_try, wp_bind, wp_new_session; [apply S1|]. intros w2 O S2. pose proof (steady_trans _ _ _ S1 S2) as S12.
  assert (Hd : forall w', steady w2 w' -> read_between w w' (committed w2)).
  { intros w' [_ L]. split; [apply S12|done|]. intros Ha. specialize (A1 Ha). destruct (op_committed _ _ O) as [n E].
    rewrite Ha in E. rewrite E. split; [apply A1|]. eapply db_on_lines_audited; [exact A1|]. by intros e [<-|[]]. }
  apply wp_bind. eapply wp_mono; [eapply wp_handler_shown; [exact Er|apply S12|apply O..]|].
  intros [messages|e] w3 [S3 Hshown].
  - apply wp_bind, wp_record_event. intros w4 A. pose proof (steady_audited _ _ _ A (proj1 S3)) as S4.
    apply wp_bind, wp_commit. intros w5 C. pose proof (steady_commit _ _ C (proj1 S4)) as S5.
    apply wp_bind, wp_rollback. intros w6 R. pose proof (steady_rollback _ _ R (proj1 S5)) as S6.
    apply wp_ret. exists (committed w2). split; [|exact Hshown]. apply Hd.
    eapply steady_trans; [exact S3|]. eapply steady_trans; [exact S4|]. by eapply steady_trans.
  - apply wp_bind. eapply wp_mono; [apply audit_alone_steady, S3|]. intros r' w4 [-> S4].
    apply wp_ret. exists (committed w). split; [|fixed_text 2].
    apply read_before. eapply steady_trans; [exact S12|]. by eapply steady_trans.
Qed.

Lemma small_legal d d' : db_legal d d' -> small d' -> small d.
Proof.
  intros L. unfold small, rows. rewrite !length_map, !length_map_to_list. intros Hs.
  assert (Hsize : (size (payments d) <= size (payments d'))%nat); [|lia].
  rewrite <- !size_dom. apply subseteq_size. intros i [p Hp]%elem_of_dom.
  destruct (le_rows _ _ L i p Hp) as (p' & Hp' & _). apply elem_of_dom. eauto.
Qed.

(** C33: Whatever an administrator (or a stranger) sends, and whatever the
    database contains, the reply is well-formed markup: no stored text can
    open or close a tag. Every answer of [handle] is one message cut only
    between lines, unless a line is longer than the limit; no chunk is empty
    or longer than the configured limit, and nothing but newlines is lost;
    [/stuck] always fits one message. The answer is made from the database
    [d] the command's session finds; when its stored texts have no line
    breaks and no line is too long, every chunk is well-formed by itself. Only
    a bulk resend that has not ended has no answer. The tables are assumed to
    hold fewer than 10^15 payments in the end. *)
Theorem admin_replies_well_formed admin_ids fuel ctx command args w replies w' :
  sound w -> small (committed w') ->
  @handle _ (bridge_views settings) settings admin_ids fuel ctx command args w = (Ret replies, w') ->
  command = "resend_failed" /\ replies = [] \/
  exists d s, read_between w w' d /\
    well_formed s /\ stitched replies s /\
    Forall (fun c => 0 < Z.of_nat (length c) <= admin_bot_max_message_length settings) replies /\
    (command = "stuck" -> length replies = 1%nat) /\
    (db_on_lines d -> fits (max_length settings) s -> Forall well_formed replies).
Proof.
  intros Hs Hsmall Hrun.
  destruct (wp_run _ _ _ _ _ Hrun (wp_handle_shown admin_ids fuel ctx command args w Hs)) as (d & Hd & [?|[Hr Hone]]);
    [by left|right].
  destruct (Hr (small_legal _ _ (rd_after _ _ _ Hd) Hsmall)) as (s & Hn & Hm & Ht & E). pose proof limit_nat as Hl.
  destruct (split_message_exact s (max_length settings)) as [Hw Hst]; [lia|done|]. exists d, s. rewrite E in Hone |- *.
  split_and!.
  - done.
  - by apply marked_well_formed.
  - done.
  - eapply Forall_impl; [exact Hw|]. unfold within, max_length. cbn. lia.
  - exact Hone.
  - intros Hlines Hf. apply split_message_tidy; auto.
Qed.
End ReplyFacts.

(** ** Witnesses *)

Example list_count_ex : map parse_list_count [[]; ["7"]; ["50"]; ["51"]; ["0"]; ["5"; "6"]; ["-1"]; ["x"]]
  = map (fun o => Ret o) [Some 10%nat; Some 7%nat; Some 50%nat; None; None; None; None; None].
Proof. vm_compute. reflexivity. Qed.

(** A superscript two is a digit to [isdigit] but not to [int]. *)
Example limit_ex : map parse_limit [[]; ["3"]; ["500"]; ["x"]; [String (char 178) ""]]
  = [Ret 10%nat; Ret 3%nat; Ret 50%nat; Ret 10%nat; Raise (ValueError "invalid literal for int() with base 10")].
Proof. vm_compute. reflexivity. Qed.

Example probe_ex :
  default_api_probe "http://api:8000/" (fun url => if String.eqb url "http://api:8000/health/live" then GotStatus 200 else GotHttpError)
  = Some (true, false).
Proof. vm_compute. reflexivity. Qed.

#[local] Instance plain_view_world : ViewWorld := {|
  reading := fun _ _ => seconds 100000; probe := fun _ => Some (true, true); select_one_ok := fun _ => true;
  revision := fun _ => "0042"; check_results := fun _ => map (fun k => mkCheckResult k OK "healthy" []) (check_keys default_settings true);
  environment := "production"; git_commit_sha := "0123456789abcdef"; updated_at := fun _ => 0;
  round_tenths := fun a b => (20 * a + b) / (2 * b) |}.

#[local] Definition plain_times : EventTimes := fun _ => 0.

#[local] Definition said (command : string) (args : list string) : Res (list text) * World :=
  @handle calm_env (@bridge_views plain_rendering plain_times plain_view_world default_settings) default_settings [42] 5
    (mkUpdateContext (Some 42) (Some 42) (Some "private") None) command args (world_of busy_db).

(** One of two waiting payments, and the hint at the other. *)
Example waiting_counts :
  match fst (said "waiting" ["1"]) with Ret [s] => (List.length (text_split NEWLINE s) =? 14)%nat | _ => false end = true.
Proof. vm_compute. reflexivity. Qed.

#[local] Definition due_db : Db := db_of [example_due 5].

#[local] Abbreviation answers_of command := (@handle calm_env
  (@bridge_views plain_rendering plain_times plain_view_world default_settings) default_settings [42] 5
  (mkUpdateContext (Some 42) (Some 42) (Some "private") None) command [] (world_of due_db)).

Lemma due_on_lines : @db_on_lines plain_view_world due_db.
Proof.
  split; [| |reflexivity|reflexivity].
  - apply List.Forall_forall. vm_compute rows. repeat (apply Forall_cons; split); try apply Forall_nil_2;
      (split; [split; [reflexivity|]|..]; intros s [=]).
  - intros e [].
Qed.

(** [/stuck] in one message, and the database it shows. *)
Lemma admin_replies_well_formed_witness :
  match answers_of "stuck" with
  | (Ret replies, w') => exists d s one, replies = [one] /\ 0 < Z.of_nat (length one) <= 3500 /\ well_formed s /\ stitched [one] s /\
      payments d = payments due_db /\ @db_on_lines plain_view_world d
  | _ => False
  end.
Proof.
  assert (Hret : match fst (answers_of "stuck") with Ret _ => true | Raise _ => false end = true) by (vm_compute; reflexivity).
  assert (Hsmall : small (committed (snd (answers_of "stuck")))) by (vm_compute; reflexivity).
  destruct (answers_of "stuck") as [[replies|e] w'] eqn:E; cbn [fst snd] in *; [|discriminate Hret].
  destruct (@admin_replies_well_formed plain_rendering plain_rendering_laws plain_times plain_view_world default_settings
    ltac:(vm_compute; discriminate) ltac:(intros n; vm_compute; reflexivity) calm_env calm_rely [42] 5
    (mkUpdateContext (Some 42) (Some 42) (Some "private") None) "stuck" [] (world_of due_db) replies w')
    as [[[=] _]|(d & s & R & Hw & Hst & Hb & Hone & _)].
  - apply sound_example. vm_compute. reflexivity.
  - exact Hsmall.
  - exact E.
  - specialize (Hone eq_refl). destruct (rd_alone _ _ _ R (fun _ _ => eq_refl)) as [Hp Hl].
    destruct replies as [|one [|two rest]]; [discriminate Hone| |discriminate Hone].
    exists d, s, one. split; [reflexivity|]. split; [inversion Hb as [|? ? H1 _]; exact H1|].
    split; [exact Hw|]. split; [exact Hst|]. split; [exact Hp|exact (Hl due_on_lines)].
Defined.

(** The check of the admin bot's own heartbeat has no label. *)
Example unlabelled_check :
  (label_of "worker_heartbeat:admin-bot-delivery" _MONITOR_LABELS_FA = None) /\
  In "worker_heartbeat:admin-bot-delivery" (check_keys (default_settings <| admin_bot_enabled := true |>) true).
Proof. split; [reflexivity|]. vm_compute. auto 20. Qed.
