(* ===== verification/HealthRoutes.v ===== *)
(** The health routes ([app/api/health.py]): liveness, readiness and the
    operational details, with the queries they make.

    What a statement meets is a parameter ([HealthStatements]); the revision
    of the schema is the value its query returns. The routes answer with a
    status code and a JSON object. *)

From S2P Require Import Prelude PyText Exceptions Config Models ServiceTables Session AuditTrail Ledger.
From S2P Require Import Incidents Heartbeat ReconStatus Stuck Views Fees Payments Api.

#[local] Open Scope Z_scope.

(** [select_one] is the exception that [SELECT 1] raises, [statement name]
    the one of the named query; [version_num] is what the query of the schema's
    revision returns, [None] when it raises. *)
Record HealthStatements := mkHealthStatements {
  select_one : option Exn;
  statement : string -> option Exn;
  version_num : option (option string)
}.

Definition Reply : Type := Z * dict.

(** ** Queries *)

(** [migration_revision]. *)
Definition migration_revision (v : option (option string)) : string :=
  match v with
  | Some (Some revision) => if String.eqb revision "" then "unknown" else revision
  | _ => "unknown"
  end.

(** [alert_queue_stats]: the groups of [GROUP BY status], whose order SQL
    leaves open; statuses without an alert do not occur. *)
Definition with_status (s : AlertStatus) (a : AdminAlert) : bool := bool_decide (alert_status a = s).

Definition alert_queue_stats (d : Db) : dict :=
  flat_map (fun s =>
    match length (List.filter (with_status s) (rows (admin_alerts d))) with
    | O => []
    | n => [(alert_status_value s, JInt (Z.of_nat n))]
    end) [PENDING; SENDING; DELIVERED; RETRY_SCHEDULED; FAILED; SUPPRESSED].

Section Routes.
Context `{Env}.
Variables (settings : Settings) (environment git_commit_sha : string).
Variable statements : HealthStatements.

Definition query {A} (name : string) (f : Db -> A) : M A :=
  match statement statements name with
  | Some e => raise e
  | None => let* d := get_db in ret (f d)
  end.

(** [queries.database_ok]. *)
Definition database_ok : M bool :=
  try_catch (match select_one statements with Some e => raise e | None => ret true end) (fun _ => ret false).

(** [x if db_ok else None]. *)
Definition if_ok {A} (db_ok : bool) (m : M A) : M (option A) :=
  if db_ok then let* a := m in ret (Some a) else ret None.

Definition heartbeat_age : M (option Z) :=
  let* heartbeat := query "worker_heartbeat" (fun d => latest_worker_heartbeat d "notification-worker") in
  match heartbeat with
  | None => ret None
  | Some h => let* now := utcnow in ret (Some (now - last_heartbeat_at h))
  end.

Definition health_live : Reply := (200, [("status", JStr "alive"); ("version", JStr APP_VERSION)]).

(** The state of the payer-identity guard. *)
Definition payment_creation : string :=
  if negb (payment_creation_enabled settings) then "disabled"
  else if String.eqb (centralpay_payer_id_secret settings) "" then "misconfigured"
  else "active".

Definition details_body : M Reply :=
  let* db_ok := database_ok in
  let* age := if db_ok then heartbeat_age else ret None in
  let* backup := if db_ok then query "backup" (fun d => latest_backup_alert d "backup_succeeded") else ret None in
  let* pending := if_ok db_ok (query "pending" (fun d => count_by_status d BOT_NOTIFY_PENDING)) in
  let* review := if_ok db_ok (query "manual_review" (fun d => count_by_status d MANUAL_REVIEW)) in
  let* alerts := if_ok db_ok (query "alert_queue" alert_queue_stats) in
  ret (if db_ok then 200 else 503,
    [("status", JStr (if db_ok then "ready" else "degraded"));
     ("version", JStr APP_VERSION);
     ("build_sha", if String.eqb git_commit_sha "" then JNull else JStr git_commit_sha);
     ("environment", JStr environment);
     ("database", JStr (if db_ok then "ok" else "error"));
     ("payment_creation", JStr payment_creation);
     ("migration_revision", if db_ok then JStr (migration_revision (version_num statements)) else JNull);
     ("worker_heartbeat_age_seconds", json_of_option (fun a => JInt (Z.quot a 1000000)) age);
     ("pending_notifications", json_of_option JInt pending);
     ("manual_review", json_of_option JInt review);
     ("alert_queue", json_of_option JObj alerts);
     ("last_backup_at", json_of_option (fun a => JStr (isoformat (alert_created_at a))) backup)]).

Definition health_details : M Reply :=
  new_session ;;;
  let* reply := try_catch details_body (fun _ => ret (503, [("status", JStr "error"); ("version", JStr APP_VERSION)])) in
  rollback ;;;
  ret reply.

Definition health_ready : M Reply :=
  new_session ;;;
  let* reply :=
    try_catch
      (match select_one statements with
       | Some e => raise e
       | None => ret (200, [("status", JStr "ready"); ("database", JStr "ok")])
       end)
      (fun _ => ret (503, [("status", JStr "unavailable"); ("database", JStr "error")])) in
  rollback ;;;
  ret reply.
End Routes.

(** ** Facts *)

(** The queries of the details. *)
Definition detail_queries : list string := ["worker_heartbeat"; "backup"; "pending"; "manual_review"; "alert_queue"].

(** The details of a database that answers every query. *)
Definition details_say (d : Db) (later : Z) (body : dict) : Prop :=
  dict_get "status" body = Some (JStr "ready") /\
  dict_get "worker_heartbeat_age_seconds" body =
    Some (json_of_option (fun h => JInt (Z.quot (later - last_heartbeat_at h) 1000000)) (latest_worker_heartbeat d "notification-worker")) /\
  dict_get "pending_notifications" body = Some (JInt (count_by_status d BOT_NOTIFY_PENDING)) /\
  dict_get "manual_review" body = Some (JInt (count_by_status d MANUAL_REVIEW)) /\
  dict_get "alert_queue" body = Some (JObj (alert_queue_stats d)) /\
  dict_get "last_backup_at" body =
    Some (json_of_option (fun a => JStr (isoformat (alert_created_at a))) (latest_backup_alert d "backup_succeeded")).

(** The counts of the alert queue are right, and every alert is counted. *)
Lemma alert_queue_count d s : dict_get (alert_status_value s) (alert_queue_stats d) =
  match length (List.filter (with_status s) (rows (admin_alerts d))) with O => None | n => Some (JInt (Z.of_nat n)) end.
Proof.
  unfold alert_queue_stats. cbn [flat_map].
  destruct s; repeat (destruct (length (List.filter (with_status _) _))); reflexivity.
Qed.

Definition counted_alerts (stats : dict) : nat :=
  sum_list_with (fun kv => match snd kv with JInt n => Z.to_nat n | _ => O end) stats.

Lemma counted_group k n (rest : dict) :
  counted_alerts (match n with O => [] | S m => [(k, JInt (Z.of_nat (S m)))] end ++ rest) = (n + counted_alerts rest)%nat.
Proof. unfold counted_alerts. rewrite sum_list_with_app. destruct n; cbn [sum_list_with snd]; lia. Qed.

Lemma alert_queue_total d : counted_alerts (alert_queue_stats d) = length (rows (admin_alerts d)).
Proof.
  unfold alert_queue_stats. cbn [flat_map]. rewrite !counted_group. cbn [counted_alerts sum_list_with].
  induction (rows (admin_alerts d)) as [|a l IH]; [reflexivity|]. cbn [length List.filter]. rewrite <- IH.
  assert (E : forall s, with_status s a = bool_decide (alert_status a = s)) by done. rewrite !E. clear E.
  destruct (alert_status a); repeat (case_bool_decide; [|try done]); try discriminate; cbn [length]; lia.
Qed.

(** The guard the details report is the one that payment creation applies. *)
Lemma payment_creation_reports `{Env, Urls.UrlLib} settings parsed :
  guarded_creation settings parsed =
  if String.eqb (payment_creation settings) "disabled" then hraise (Bridge (bridge_error PaymentCreationDisabledError None))
  else if String.eqb (payment_creation settings) "misconfigured" then hraise (Bridge (bridge_error PayerIdentityMisconfiguredError None))
  else if body_amount parsed <? min_payment_amount_toman settings then guarded_creation settings parsed
  else in_session (create_payment settings (body_order_id parsed) (body_amount parsed) (parsed_telegram_user_id parsed)).
Proof.
  unfold guarded_creation, payment_creation. destruct (payment_creation_enabled settings); [|reflexivity].
  cbn [negb]. destruct (String.eqb (centralpay_payer_id_secret settings) ""); [reflexivity|]. cbn.
  by destruct (_ <? _).
Qed.

Lemma json_of_option_map {A B} (f : B -> Json) (g : A -> B) o :
  json_of_option f (option_map g o) = json_of_option (fun x => f (g x)) o.
Proof. by destruct o. Qed.

Section Facts.
Context `{Rely} (settings : Settings) (environment sha : string) (statements : HealthStatements).

Lemma wp_query {A} name (f : Db -> A) w (Q : Res A -> World -> Prop) :
  (statement statements name = None -> Q (Ret (f (working w))) w) ->
  (forall e, statement statements name = Some e -> Q (Raise e) w) -> wp (query statements name f) Q w.
Proof.
  intros Hok Hno. unfold query. destruct (statement statements name) as [e|]; [by apply wp_raise, Hno|].
  by apply wp_bind, wp_get_db, wp_ret, Hok.
Qed.

Definition queries_answer : Prop := Forall (fun name => statement statements name = None) detail_queries.

Lemma queries_fail name e : In name detail_queries -> statement statements name = Some e -> ~ queries_answer.
Proof. intros Hin E Hall. pose proof (proj1 (List.Forall_forall _ _) Hall _ Hin) as G. cbn in G. congruence. Qed.

Lemma wp_details w : wp (details_body settings environment sha statements) (fun r w' => called [] w w' /\
  match r with
  | Raise _ => select_one statements = None /\ ~ queries_answer
  | Ret (code, body) =>
      dict_get "payment_creation" body = Some (JStr (payment_creation settings)) /\
      match select_one statements with
      | Some _ => code = 503 /\ dict_get "status" body = Some (JStr "degraded")
      | None => code = 200 /\ queries_answer /\ exists later, details_say (working w) later body
      end
  end) w.
Proof.
  unfold details_body, database_ok. apply wp_bind, wp_try. destruct (select_one statements) as [e0|].
  { apply wp_raise, wp_ret. do 5 apply wp_bind, wp_ret. apply wp_ret. by split. }
  apply wp_ret. unfold heartbeat_age, if_ok. apply wp_bind, wp_bind.
  apply wp_query; [intros E1|intros e E; split; [done|split; [done|]; eapply queries_fail, E; cbn; tauto]].
  assert (Hage : wp (match latest_worker_heartbeat (working w) "notification-worker" with
      | None => ret None
      | Some h => let* now := utcnow in ret (Some (now - last_heartbeat_at h))
      end) (fun r w' => called [] w w' /\ exists later, r = Ret (option_map (fun h => later - last_heartbeat_at h)
        (latest_worker_heartbeat (working w) "notification-worker"))) w).
  { destruct (latest_worker_heartbeat _ _) as [h|]; [|apply wp_ret; split; [done|by exists 0]].
    apply wp_bind, wp_utcnow. intros now w1 C. apply wp_ret. split; [done|]. by exists now. }
  eapply wp_mono; [exact Hage|]. intros r w1 [C [later ->]]. rewrite <- (ca_working _ _ _ C).
  apply wp_bind, wp_query; [intros E2|intros e E; split; [done|split; [done|]; eapply queries_fail, E; cbn; tauto]].
  do 3 (apply wp_bind, wp_bind, wp_query; [intros ?; apply wp_ret|intros e E; split; [done|split; [done|]; eapply queries_fail, E; cbn; tauto]]).
  apply wp_ret. split; [done|]. split; [reflexivity|]. split; [reflexivity|]. split; [by repeat constructor|].
  exists later. unfold details_say. split_and!; try reflexivity. cbn.
  exact (f_equal Some (json_of_option_map (fun a => JInt (Z.quot a 1000000)) (fun h => later - last_heartbeat_at h) _)).
Qed.

(** An answer of the details route, for the database [d]. *)
Definition details_answer (d : Db) (code : Z) (body : dict) : Prop :=
  (code = 200 \/ code = 503) /\
  (code = 200 <-> select_one statements = None /\ queries_answer) /\
  (code = 200 -> exists later, details_say d later body) /\
  (dict_get "status" body <> Some (JStr "error") ->
     dict_get "payment_creation" body = Some (JStr (payment_creation settings))).

(** The details route always answers, changes nothing and calls nobody. It
    answers 200 exactly when the database answers, every query included; the
    figures are then those of the database, and in every answer but the bare
    error the guard of payment creation is the one in force. *)
Theorem health_details_exact w : sound w ->
  wp (health_details settings environment sha statements) (fun r w' => steady w w' /\ calls w' = calls w /\
    exists code body, r = Ret (code, body) /\ details_answer (committed w') code body) w.
Proof.
  intros Hs. unfold health_details. apply wp_bind, wp_new_session; [done|]. intros w1 O S1.
  assert (Hend : forall code body w2, called [] w1 w2 -> details_answer (working w1) code body ->
    wp (rollback ;;; ret (code, body)) (fun r w' => steady w w' /\ calls w' = calls w /\
      exists code body, r = Ret (code, body) /\ details_answer (committed w') code body) w2).
  { intros code body w2 C A. apply wp_bind, wp_rollback. intros w3 R. apply wp_ret. split; [|split].
    - pose proof (steady_trans _ _ _ S1 (steady_called _ _ _ C (proj1 S1))) as S2.
      eapply steady_trans; [exact S2|]. by eapply steady_rollback; [|apply S2].
    - rewrite (rb_calls _ _ R), (ca_calls _ _ _ C). apply O.
    - exists code, body. split; [done|]. by rewrite (rb_committed _ _ R), (ca_committed _ _ _ C), <- (op_working _ _ O). }
  apply wp_bind, wp_try. eapply wp_mono; [apply wp_details|]. intros [[code body]|e] w2 [C Hd].
  - destruct Hd as [Hg Hd]. destruct (select_one statements) as [e|] eqn:E.
    + destruct Hd as [-> Hst]. apply Hend; [done|]. split_and!; [by right|split; [done|intros [E2 _]; congruence]|done|done].
    + destruct Hd as (-> & Hq & Hsay). apply Hend; [done|]. split_and!; [by left|done|done|done].
  - destruct Hd as [_ Hq]. apply wp_ret, Hend; [done|]. split_and!; [by right|split; [done|by intros []]|done|]. intros Hne. by destruct Hne.
Qed.

(** Readiness is the answer to [SELECT 1], and liveness needs no database. *)
Theorem health_ready_exact w : sound w ->
  wp (health_ready statements) (fun r w' => steady w w' /\ calls w' = calls w /\
    exists code body, r = Ret (code, body) /\ code = if is_none (select_one statements) then 200 else 503) w.
Proof.
  intros Hs. unfold health_ready. apply wp_bind, wp_new_session; [done|]. intros w1 O S1.
  apply wp_bind, wp_try. destruct (select_one statements); [apply wp_raise|]; apply wp_ret, wp_bind, wp_rollback;
    intros w2 R; apply wp_ret; (split; [by eapply steady_trans, steady_rollback, S1|]);
    (split; [rewrite (rb_calls _ _ R); apply O|by do 2 eexists]).
Qed.
End Facts.

(** ** Witness *)

#[local] Definition answering : HealthStatements := mkHealthStatements None (fun _ => None) (Some (Some "0007")).

Example details_ex :
  fst (@health_details calm_env default_settings "production" "" answering (world_of busy_db)) =
  Ret (200, [("status", JStr "ready"); ("version", JStr APP_VERSION); ("build_sha", JNull); ("environment", JStr "production");
             ("database", JStr "ok"); ("payment_creation", JStr "active"); ("migration_revision", JStr "0007");
             ("worker_heartbeat_age_seconds", JNull); ("pending_notifications", JInt 1); ("manual_review", JInt 1);
             ("alert_queue", JObj []); ("last_backup_at", JNull)]).
Proof. vm_compute. reflexivity. Qed.
