(* ===== verification/Loops.v ===== *)
(** The background loops of the processes: the notification loop and the
    reconciliation thread of the worker ([app/worker.py]) and the background
    loop of the admin bot ([app/adminbot/runner.py] and [__main__.py]). A turn
    is a pass, whatever it raises, and a heartbeat; the in-memory state of the
    health watch is carried from turn to turn.

    Waiting between turns, the liveness files and the signal handlers are left
    out; a loop is run for a given number of turns. *)

From S2P Require Import Prelude PyText Exceptions Config Models ServiceTables Identity Session AuditTrail Ledger.
From S2P Require Import Urls Bot Notification Reconciliation ReconStatus Startup Security.
From S2P Require Import AlertDelivery AdminAccess Incidents Heartbeat HealthWatch DailyReport.

#[local] Open Scope Z_scope.

(** ** The loops of the worker *)

Definition heartbeat_instance_id (worker_id loop : string) : string := (worker_id ++ "-" ++ loop)%string.

Section Worker.
Context `{Env}.

(** One turn: the pass in a session of its own, then the heartbeat. The
    result is what the pass returned, and the class of what it raised. *)
Definition loop_turn {A} (wname iid : string) (pass : M A) : M (option A * option string) :=
  rollback ;;;
  let* done := try_catch (let* result := pass in ret (Some result, None))
                 (fun e => ret (None, Some (exception_name e))) in
  rollback ;;;
  loop_heartbeat wname iid (is_some (fst done)) (snd done) ;;;
  ret done.

Fixpoint loop_turns {A} (wname iid : string) (pass : M A) (n : nat) : M (list (option A * option string)) :=
  match n with
  | O => ret []
  | S n =>
      let* turn := loop_turn wname iid pass in
      let* turns := loop_turns wname iid pass n in
      ret (turn :: turns)
  end.

Definition notification_turn (settings : Settings) (worker_id : string) (jitter : JitterFn) :=
  loop_turn "notification-worker" (heartbeat_instance_id worker_id "notification")
    (run_worker_pass true settings worker_id jitter DEFAULT_BATCH_SIZE).

Definition reconciliation_turn (settings : Settings) (worker_id : string) :=
  loop_turn "reconciliation-worker" (heartbeat_instance_id worker_id "reconciliation")
    (run_reconciliation_pass settings worker_id None None).

(** [reconciliation_loop], for [n] turns. *)
Definition reconciliation_loop (settings : Settings) (worker_id : string) (n : nat) : M (list (option Stats * option string)) :=
  loop_turns "reconciliation-worker" (heartbeat_instance_id worker_id "reconciliation")
    (run_reconciliation_pass settings worker_id None None) n.

(** [main] of the worker: its exit code, after [n] turns of the notification
    loop. The reconciliation thread is a process of its own here. *)
Definition worker_main (settings : Settings) (worker_id : string) (jitter : JitterFn) (n : nat)
    : M (Z * list (option (Z * Z) * option string)) :=
  match validate_bot_notification_settings settings with
  | inr _ => ret (2, [])
  | inl _ =>
      configure_alert_creation settings ;;;
      let* turns := loop_turns "notification-worker" (heartbeat_instance_id worker_id "notification")
                      (run_worker_pass true settings worker_id jitter DEFAULT_BATCH_SIZE) n in
      ret (0, turns)
  end.
End Worker.

(** ** The background loop of the admin bot *)

Definition DELIVERY_WORKER_NAME : string := "admin-bot-delivery".

(** [max(1, int(health_check_interval // poll_interval))], of the exact
    values. *)
Definition health_every (settings : Settings) : Z :=
  Z.max 1 (admin_bot_health_check_interval settings / admin_bot_alert_poll_interval settings).

(** What one turn did: the delivery pass, the health pass and the report, if
    they were reached, and the exception that ended the turn. *)
Record Background := mkBackground {
  bg_delivery : Res Z;
  bg_health : option Turn;
  bg_report : option (Res bool);
  bg_failure : option Exn
}.

Section AdminBot.
Context `{Env} `{EventTimes} `{ReportTexts} `{TimeZones} `{AlertSender}.
Variables (settings : Settings) (admin_ids : list Z) (iid : string) (jitter : JitterFn) (worlds : nat -> HealthWorld).

Definition background_pass (tick_no : nat) (m : HealthMonitor) : M (HealthMonitor * Background) :=
  let* sent := try_catch (let* sent := alert_delivery_pass settings admin_ids None jitter in ret (Ret sent))
                 (fun e => ret (Raise e)) in
  match sent with
  | Raise e => ret (m, mkBackground sent None None (Some e))
  | Ret _ =>
      if Z.of_nat tick_no mod health_every settings =? 0 then
        let* health := run_once settings (worlds tick_no) m in
        match turn_error (snd health) with
        | Some e => ret (fst health, mkBackground sent (Some (snd health)) None (Some e))
        | None =>
            let* queued := try_catch (let* queued := report_pass settings in ret (Ret queued)) (fun e => ret (Raise e)) in
            ret (fst health, mkBackground sent (Some (snd health)) (Some queued)
                               (match queued with Ret _ => None | Raise e => Some e end))
        end
      else ret (m, mkBackground sent None None None)
  end.

Definition background_turn (tick_no : nat) (m : HealthMonitor) : M (HealthMonitor * Background) :=
  let* done := background_pass tick_no m in
  rollback ;;;
  let failure := bg_failure (snd done) in
  loop_heartbeat DELIVERY_WORKER_NAME iid (is_none failure) (option_map exception_name failure) ;;;
  ret done.

(** [background_loop], for the [n] turns from the tick [k] on. *)
Fixpoint background_loop (n k : nat) (m : HealthMonitor) : M (HealthMonitor * list Background) :=
  match n with
  | O => ret (m, [])
  | S n =>
      let* turn := background_turn k m in
      let* rest := background_loop n (S k) (fst turn) in
      ret (fst rest, snd turn :: snd rest)
  end.
End AdminBot.

(** The event of the end, which has no data and is mapped to no alert. *)
Definition record_stopped `{Env} : M unit :=
  new_session ;;;
  insert_event None "admin_bot_stopped" "info" None ;;;
  commit ;;;
  rollback.

(** [main] of the admin bot: its exit code and what the loop did. *)
Definition admin_bot_main `{Env} `{EventTimes} `{ReportTexts} `{TimeZones} `{AlertSender} (settings : Settings)
    (iid : string) (jitter : JitterFn) (worlds : nat -> HealthWorld) (n : nat) : M (Z * list Background) :=
  match validate_admin_bot_settings settings with
  | inr (ConfigurationError _) => ret (2, [])
  | inr (OtherError cls) => raise (Unexpected cls)
  | inl admin_ids =>
      configure_alert_creation settings ;;;
      audit_alone "admin_bot_started" "info" [("administrators", JInt (Z.of_nat (length admin_ids)))] ;;;
      let* done := background_loop settings admin_ids iid jitter worlds n 0 new_monitor in
      record_stopped ;;;
      ret (0, snd done)
  end.

(** ** Facts *)

Section LoopFacts.
Context {ENV : Env} {RELY : Rely}.

Definition steady_pass {A} (pass : M A) : Prop :=
  forall w, sound w -> working w = committed w -> identity_map w = ∅ -> wp pass (fun _ w' => steady w w') w.

(** The heartbeat row of a loop after a turn: unless the instance is another
    worker's, it names the error of the turn, or none, and a completed turn is
    its last cycle. *)
Definition heartbeat_says (wname iid : string) (completed : bool) (error : option string) (d : Db) : Prop :=
  (exists k h, worker_heartbeats d !! k = Some h /\ instance_id h = iid /\ worker_name h <> wname) \/
  (exists k h, worker_heartbeats d !! k = Some h /\ instance_id h = iid /\ worker_name h = wname /\
     heartbeat_error_code h = option_map (str_take 64) error /\
     (completed = true -> last_cycle_at h = Some (last_heartbeat_at h))).

Lemma recorded_says wname iid now ok e d w w' : ok = is_none e ->
  heartbeat_recorded wname iid now ok e d w w' -> heartbeat_says wname iid ok e (committed w').
Proof.
  intros -> R. destruct (hr_result _ _ _ _ _ _ _ _ R) as [(k & h & Hk & Hi & Hn & E)|(k & h & _ & Hn & Hi & E)].
  - left. exists k, h. by rewrite E.
  - right. destruct (beat_fields now (is_none e) e h) as (B1 & B2 & B3 & B4 & B5).
    rewrite E. remember (beat now (is_none e) e h) as h' eqn:Eh. clear Eh.
    exists k, h'. cbn [worker_heartbeats with_heartbeats]. split_and!; [apply lookup_insert_eq|congruence..| |].
    + rewrite B5. by destruct e.
    + intros Hn'. rewrite B4, B3. by rewrite Hn'.
Qed.

Lemma wp_turn_heartbeat wname iid error w0 w : steady w0 w ->
  wp (loop_heartbeat wname iid (is_none error) error) (fun r w' => r = Ret tt /\ steady w0 w' /\ calls w' = calls w /\
    heartbeat_says wname iid (is_none error) error (committed w')) w.
Proof.
  intros S. eapply wp_mono; [apply wp_loop_heartbeat, S|]. intros r w' (-> & now & d & _ & R).
  split_and!; [done|eapply steady_trans; [exact S|apply R]|apply R|by eapply recorded_says].
Qed.

(** How a turn ends. *)
Record turn_ended {A} (wname iid : string) (turn : option A * option string) (w w' : World) : Prop := {
  te_steady : steady w w';
  te_outcome : is_some (fst turn) = is_none (snd turn);
  te_heartbeat : heartbeat_says wname iid (is_none (snd turn)) (snd turn) (committed w')
}.

Lemma wp_loop_turn {A} wname iid (pass : M A) w : steady_pass pass -> sound w ->
  wp (loop_turn wname iid pass) (fun r w' => exists turn, r = Ret turn /\ turn_ended wname iid turn w w') w.
Proof.
  intros Hpass Hs. unfold loop_turn. apply wp_bind, wp_rollback. intros w1 B.
  pose proof (steady_rollback _ _ B Hs) as S1. apply wp_bind, wp_try, wp_bind.
  eapply wp_mono; [apply Hpass; [apply S1|by rewrite (rb_working _ _ B), (rb_committed _ _ B)|apply B]|].
  assert (Hend : forall (turn : option A * option string) w2, steady w1 w2 -> is_some (fst turn) = is_none (snd turn) ->
    wp (rollback ;;; loop_heartbeat wname iid (is_some (fst turn)) (snd turn) ;;; ret turn)
      (fun r w' => exists turn, r = Ret turn /\ turn_ended wname iid turn w w') w2).
  { intros turn w2 S2 Eo. apply wp_bind, wp_rollback. intros w3 B3. rewrite Eo. apply wp_bind.
    eapply wp_mono; [apply (wp_turn_heartbeat _ _ _ w)|].
    - eapply steady_trans; [exact S1|]. eapply steady_trans; [exact S2|]. by eapply steady_rollback; [|apply S2].
    - intros r w4 (-> & S4 & _ & Hh). apply wp_ret. by exists turn. }
  intros [a|e] w2 S2; apply wp_ret; by apply Hend.
Qed.

(** The turns of a loop, one after the other. *)
Inductive loop_ran {A} (wname iid : string) : World -> list (option A * option string) -> World -> Prop :=
| loop_rests w : loop_ran wname iid w [] w
| loop_turns_on w w1 w2 turn turns : turn_ended wname iid turn w w1 -> loop_ran wname iid w1 turns w2 ->
    loop_ran wname iid w (turn :: turns) w2.

Lemma loop_ran_steady {A} wname iid w (turns : list (option A * option string)) w' : sound w ->
  loop_ran wname iid w turns w' -> steady w w'.
Proof.
  intros Hs R. induction R as [w|w w1 w2 turn turns T _ IH]; [by apply steady_refl|].
  eapply steady_trans; [apply T|]. apply IH, (te_steady _ _ _ _ _ T).
Qed.

Lemma wp_loop_turns {A} wname iid (pass : M A) n w : steady_pass pass -> sound w ->
  wp (loop_turns wname iid pass n) (fun r w' => exists turns, r = Ret turns /\ length turns = n /\
    loop_ran wname iid w turns w') w.
Proof.
  intros Hpass. revert w. induction n as [|n IH]; intros w Hs; cbn [loop_turns].
  { apply wp_ret. exists []. split_and!; [done..|constructor]. }
  apply wp_bind. eapply wp_mono; [by apply wp_loop_turn|]. intros r w1 (turn & -> & T).
  apply wp_bind. eapply wp_mono; [apply IH, (te_steady _ _ _ _ _ T)|]. intros r w2 (turns & -> & Hl & R).
  apply wp_ret. exists (turn :: turns). split_and!; [done|by rewrite <- Hl|by econstructor].
Qed.

Lemma notification_steady settings worker_id jitter : steady_pass (run_worker_pass true settings worker_id jitter DEFAULT_BATCH_SIZE).
Proof. intros w Hs _ _. eapply wp_mono; [by apply wp_run_worker_pass|]. intros r w' [[S _] _]. exact S. Qed.

Lemma reconciliation_steady settings worker_id : steady_pass (run_reconciliation_pass settings worker_id None None).
Proof.
  intros w Hs Hf Hm. eapply wp_mono; [by apply wp_pass|]. intros r w' (_ & st & cs & _ & _ & S & _). exact S.
Qed.

(** The two loops of any two workers heartbeat under different instances. *)
Lemma chars_app s t : String.list_ascii_of_string (s ++ t) = String.list_ascii_of_string s ++ String.list_ascii_of_string t.
Proof. induction s as [|c s IH]; [done|]. exact (f_equal (cons c) IH). Qed.

Lemma loop_instances_differ w1 w2 :
  heartbeat_instance_id w1 "notification" <> heartbeat_instance_id w2 "reconciliation".
Proof.
  intros E. apply (f_equal (fun s => rev (String.list_ascii_of_string s))) in E. unfold heartbeat_instance_id in E.
  rewrite !chars_app, !rev_app_distr in E. cbn in E. by injection E.
Qed.
End LoopFacts.

(** ** The turns of the admin bot *)

Section BackgroundFacts.
Context {ENV : Env} {RELY : Rely} {TIMES : EventTimes} {TEXTS : ReportTexts} {ZONES : TimeZones} {SENDER : AlertSender}.
Variables (settings : Settings) (admin_ids : list Z) (iid : string) (jitter : JitterFn) (worlds : nat -> HealthWorld).
Hypothesis failures_positive : 0 < admin_bot_health_failure_threshold settings.
Hypothesis recoveries_positive : 0 < admin_bot_health_recovery_threshold settings.

Definition health_due (k : nat) : Prop := Z.of_nat k mod health_every settings = 0.

Definition turn_health (out : Background) : list HealthResult :=
  match bg_health out with Some t => turn_results t | None => [] end.

(** What the health watch raised, if it ran and raised. *)
Definition health_failure (out : Background) : option Exn :=
  match bg_health out with Some t => turn_error t | None => None end.

Definition raised {A} (r : Res A) : option Exn := match r with Raise e => Some e | Ret _ => None end.

(** One turn, the [k]-th, from the committed database [d] to [d']: the health
    watch runs exactly on the turns it is due whose delivery pass raised
    nothing, the report exactly on those whose health watch raised nothing
    either, and the turn fails with the first exception among them. [days] is
    the day it reported, if it did. *)
Record background_done (k : nat) (seen : list HealthResult) (d : Db) (out : Background) (days : list string) (d' : Db)
    : Prop := {
  bd_health_runs : is_some (bg_health out) = true <-> health_due k /\ raised (bg_delivery out) = None;
  bd_report_runs : is_some (bg_report out) = true <->
    health_due k /\ raised (bg_delivery out) = None /\ health_failure out = None;
  bd_failure : bg_failure out = match raised (bg_delivery out), health_failure out, bg_report out with
                                | Some e, _, _ => Some e
                                | None, Some e, _ => Some e
                                | None, None, Some report => raised report
                                | None, None, None => None
                                end;
  bd_health : forall t, bg_health out = Some t ->
    exists d1 d2, db_legal d d1 /\ pass_done settings (worlds k) seen d1 t d2 /\ db_legal d2 d';
  bd_report : match bg_report out with
              | Some (Ret true) => exists i day d1 d2, days = [day] /\ db_legal d d1 /\
                                     report_queued settings i day d1 d2 /\ db_legal d2 d'
              | _ => days = []
              end
}.

Lemma legal_others n w : sound w -> db_legal (committed w) (others n (committed w)).
Proof. intros Hs. apply RELY, (so_ok w Hs). Qed.

(** The health watch and the report of a turn that reaches them. *)
Lemma wp_watch_and_report k sent seen m w0 w : steady w0 w -> health_due k -> reflects settings seen m ->
  wp (let* health := run_once settings (worlds k) m in
      match turn_error (snd health) with
      | Some e => ret (fst health, mkBackground (Ret sent) (Some (snd health)) None (Some e))
      | None =>
          let* queued := try_catch (let* queued := report_pass settings in ret (Ret queued)) (fun e => ret (Raise e)) in
          ret (fst health, mkBackground (Ret sent) (Some (snd health)) (Some queued)
                             (match queued with Ret _ => None | Raise e => Some e end))
      end) (fun r w' => exists m' out days, r = Ret (m', out) /\ steady w0 w' /\
    reflects settings (seen ++ turn_health out) m' /\
    forall d', db_legal (committed w') d' -> background_done k seen (committed w0) out days d') w.
Proof.
  intros S0 Hdue R. apply wp_bind. eapply wp_mono; [apply wp_run_once; [done|done|apply S0|exact R]|].
  intros r w1 (m1 & t & n & -> & S1 & _ & R1 & P). cbn [fst snd].
  pose proof (steady_trans _ _ _ S0 S1) as S01.
  assert (L0 : db_legal (committed w0) (others n (committed w))).
  { etransitivity; [apply S0|]. apply legal_others, S0. }
  destruct (turn_error t) as [e|] eqn:Et.
  - apply wp_ret. exists m1, (mkBackground (Ret sent) (Some t) None (Some e)), []. split_and!; [done..|].
    intros d' L. split; unfold health_failure; cbn; rewrite ?Et; [by split| |done| |done].
    + split; [done|by intros (_ & _ & [=])].
    + intros t' [= <-]. eauto.
  - apply wp_bind, wp_try, wp_bind. eapply wp_mono; [apply wp_report_pass, S1|]. intros r w2 (S2 & _ & H).
    set (j := ticks w1) in H. assert (L1 : db_legal (committed w0) (others j (committed w1))).
    { etransitivity; [apply S01|]. apply legal_others, S1. }
    assert (Hend : forall queued, attempted_report settings (S j) (others j (committed w1)) queued (committed w2) ->
      wp (ret (m1, mkBackground (Ret sent) (Some t) (Some queued) (match queued with Ret _ => None | Raise e => Some e end)))
        (fun r w' => exists m' out days, r = Ret (m', out) /\ steady w0 w' /\
          reflects settings (seen ++ turn_health out) m' /\
          forall d', db_legal (committed w') d' -> background_done k seen (committed w0) out days d') w2).
    { intros queued Hq. apply wp_ret. pose proof (steady_trans _ _ _ S01 S2) as S02.
      assert (Hh : forall d', db_legal (committed w2) d' -> forall t', Some t = Some t' ->
        exists d1 d2, db_legal (committed w0) d1 /\ pass_done settings (worlds k) seen d1 t' d2 /\ db_legal d2 d').
      { intros d' L t' [= <-]. do 2 eexists. split_and!; [exact L0|exact P|]. etransitivity; [apply S2|exact L]. }
      assert (Hq' : (exists day, queued = Ret true /\ report_queued settings (S j) day (others j (committed w1)) (committed w2)) \/
                    queued <> Ret true).
      { destruct queued as [[]|]; [left; destruct Hq as [day Q]; by exists day|by right..]. }
      destruct Hq' as [(day & -> & Q)|Hne].
      - exists m1, (mkBackground (Ret sent) (Some t) (Some (Ret true)) None), [day]. split_and!; [done..|].
        intros d' L. split; unfold health_failure; cbn; rewrite ?Et; [by split|by split|done|by apply Hh|]. eauto 9.
      - exists m1, (mkBackground (Ret sent) (Some t) (Some queued) (match queued with Ret _ => None | Raise e => Some e end)), [].
        split_and!; [done..|]. intros d' L.
        split; unfold health_failure; cbn; rewrite ?Et; [by split|by split|done|by apply Hh|]. by destruct queued as [[]|]. }
    destruct r as [queued|e]; apply wp_ret; by apply Hend.
Qed.

Lemma wp_background_pass k seen m w : sound w -> reflects settings seen m ->
  wp (background_pass settings admin_ids jitter worlds k m) (fun r w' => exists m' out days, r = Ret (m', out) /\
    steady w w' /\ reflects settings (seen ++ turn_health out) m' /\
    forall d', db_legal (committed w') d' -> background_done k seen (committed w) out days d') w.
Proof.
  intros Hs R. unfold background_pass. apply wp_bind, wp_try, wp_bind.
  eapply wp_mono; [by apply alert_pass_steady|]. intros [sent|e] w1 S1.
  - apply wp_ret. destruct (Z.eqb_spec (Z.of_nat k mod health_every settings) 0) as [Hd|Hd].
    + by apply wp_watch_and_report.
    + apply wp_ret. exists m, (mkBackground (Ret sent) None None None), []. split_and!; [done|done|by rewrite app_nil_r|].
      intros d' _. split; cbn; try done; split; try done; by intros [? _].
  - do 2 apply wp_ret. exists m, (mkBackground (Raise e) None None (Some e)), []. split_and!; [done|done|by rewrite app_nil_r|].
    intros d' _. split; cbn; try done; split; try done; intros H; exfalso; naive_solver.
Qed.

(** The turns of a loop, with the days they reported. *)
Inductive background_ran : nat -> list HealthResult -> World -> list Background -> list string -> World -> Prop :=
| background_rests k seen w : background_ran k seen w [] [] w
| background_turns_on k seen w w1 w2 out outs days later :
    steady w w1 -> background_done k seen (committed w) out days (committed w1) ->
    heartbeat_says DELIVERY_WORKER_NAME iid (is_none (bg_failure out))
      (option_map exception_name (bg_failure out)) (committed w1) ->
    background_ran (S k) (seen ++ turn_health out) w1 outs later w2 ->
    background_ran k seen w (out :: outs) (days ++ later) w2.

Lemma wp_background_turn k seen m w : sound w -> reflects settings seen m ->
  wp (background_turn settings admin_ids iid jitter worlds k m) (fun r w' => exists m' out days, r = Ret (m', out) /\
    steady w w' /\ reflects settings (seen ++ turn_health out) m' /\
    background_done k seen (committed w) out days (committed w') /\
    heartbeat_says DELIVERY_WORKER_NAME iid (is_none (bg_failure out))
      (option_map exception_name (bg_failure out)) (committed w')) w.
Proof.
  intros Hs R. unfold background_turn. apply wp_bind. eapply wp_mono; [by apply wp_background_pass|].
  intros r w1 (m' & out & days & -> & S1 & R' & Hd). cbn [snd]. apply wp_bind, wp_rollback. intros w2 B.
  pose proof (steady_rollback _ _ B (proj1 S1)) as S2. apply wp_bind.
  assert (En : is_none (bg_failure out) = is_none (option_map exception_name (bg_failure out))) by (by destruct (bg_failure out)).
  rewrite En. eapply wp_mono; [apply (wp_turn_heartbeat _ _ _ w2), steady_refl, S2|].
  intros r w3 (-> & S3 & _ & Hh). apply wp_ret. exists m', out, days. split_and!; [done| |done| |by rewrite En].
  - by do 2 (eapply steady_trans; [eassumption|]).
  - apply Hd. etransitivity; [apply S2|apply S3].
Qed.

(** A report is of a day nothing had reported before the turn, and is there
    after it. *)
Lemma background_reports k seen d out days d' : background_done k seen d out days d' ->
  NoDup days /\ forall day, In day days -> ~ reported day d /\ reported day d'.
Proof.
  intros D. pose proof (bd_report _ _ _ _ _ _ D) as H. destruct (bg_report out) as [[[]|e]|]; subst; try by split; [constructor|].
  destruct H as (i & day & d1 & d2 & -> & L1 & Q & L2). split; [apply NoDup_singleton|].
  intros x [<-|[]]. split.
  - intros Hr. by eapply (rq_new _ _ _ _ _ Q), reported_kept.
  - by eapply reported_kept, queued_reported.
Qed.

Lemma wp_background_loop n k seen m w : sound w -> reflects settings seen m ->
  wp (background_loop settings admin_ids iid jitter worlds n k m) (fun r w' => exists m' outs days, r = Ret (m', outs) /\
    length outs = n /\ steady w w' /\ background_ran k seen w outs days w' /\
    reflects settings (seen ++ flat_map turn_health outs) m' /\
    NoDup days /\ forall day, In day days -> ~ reported day (committed w)) w.
Proof.
  revert k seen m w. induction n as [|n IH]; intros k seen m w Hs R; cbn [background_loop].
  { apply wp_ret. exists m, [], []. split_and!; [done..|by apply steady_refl|constructor|by rewrite app_nil_r|constructor|done]. }
  apply wp_bind. eapply wp_mono; [by apply wp_background_turn|].
  intros r w1 (m1 & out & days & -> & S1 & R1 & D & Hh). cbn [fst]. apply wp_bind.
  eapply wp_mono; [apply (IH (S k) (seen ++ turn_health out)); [apply S1|exact R1]|].
  intros r w2 (m2 & outs & later & -> & Hl & S2 & Hran & R2 & Hnd & Hnew). apply wp_ret. cbn [fst snd].
  destruct (background_reports _ _ _ _ _ _ D) as [Hnd1 Hrep].
  exists m2, (out :: outs), (days ++ later). split_and!; [done|by rewrite <- Hl|by eapply steady_trans| | | |].
  - by eapply background_turns_on.
  - cbn. by rewrite <- app_assoc in R2.
  - apply NoDup_app. split_and!; [done| |done]. intros day H1%list_elem_of_In H2%list_elem_of_In.
    apply (Hnew day H2), Hrep, H1.
  - intros day [Hd|Hd]%in_app_iff; [by apply Hrep|]. intros Hr. apply (Hnew day Hd).
    by eapply reported_kept; [apply S1|].
Qed.
End BackgroundFacts.

(** ** Every turn is lawful, whatever the settings *)

Section TurnsSteady.
Context {ENV : Env} {RELY : Rely} {TIMES : EventTimes} {TEXTS : ReportTexts} {ZONES : TimeZones} {SENDER : AlertSender}.

Lemma loop_turn_steady {A} wname iid (pass : M A) w : steady_pass pass -> sound w ->
  wp (loop_turn wname iid pass) (fun _ w' => steady w w') w.
Proof. intros Hp Hs. eapply wp_mono; [by apply wp_loop_turn|]. intros r w' (turn & _ & T). apply T. Qed.

Lemma background_pass_steady settings admin_ids jitter worlds k m w : sound w ->
  wp (background_pass settings admin_ids jitter worlds k m) (fun _ w' => steady w w') w.
Proof.
  intros Hs. unfold background_pass. apply wp_bind, wp_try, wp_bind.
  eapply wp_mono; [by apply alert_pass_steady|]. intros [sent|e] w1 S1; [|by do 2 apply wp_ret].
  apply wp_ret. destruct (_ =? 0); [|by apply wp_ret].
  apply wp_bind. eapply wp_mono; [apply run_once_steady, S1|]. intros [health|e] w2 S2; pose proof (steady_trans _ _ _ S1 S2) as S12; [|done].
  destruct (turn_error (snd health)); [by apply wp_ret|]. apply wp_bind, wp_try, wp_bind.
  eapply wp_mono; [apply report_pass_steady, S12|]. intros [q|e] w3 S3; do 2 apply wp_ret; by eapply steady_trans.
Qed.

Lemma background_turn_steady settings admin_ids iid jitter worlds k m w : sound w ->
  wp (background_turn settings admin_ids iid jitter worlds k m) (fun _ w' => steady w w') w.
Proof.
  intros Hs. unfold background_turn. apply wp_bind. eapply wp_mono; [by apply background_pass_steady|].
  intros [done|e] w1 S1; [|exact S1]. apply wp_bind, wp_rollback. intros w2 B. apply wp_bind.
  assert (S2 : steady w w2) by (eapply steady_trans; [exact S1|]; eapply steady_rollback; [exact B|apply S1]).
  eapply wp_mono; [apply wp_loop_heartbeat, S2|]. intros r w3 (-> & now & d & _ & R). apply wp_ret.
  eapply steady_trans; [exact S2|apply R].
Qed.
End TurnsSteady.

Section MainFacts.
Context {ENV : Env} {RELY : Rely}.

Lemma wp_configure settings (Q : Res unit -> World -> Prop) w : sound w ->
  (forall w', steady w w' -> committed w' = committed w -> calls w' = calls w -> Q (Ret tt) w') ->
  wp (configure_alert_creation settings) Q w.
Proof.
  intros [H1 H2 H3] HQ. apply HQ; [|done..]. split; [by split|reflexivity].
Qed.

(** ** Properties *)

(** The worker refuses to start exactly when the bot's URL or token is
    missing, with exit code 2 and no effect at all. Otherwise its loop never
    stops by itself: every turn, also one whose pass raises anything, ends
    with a heartbeat that names the error of this turn or clears it, in the
    worker's own row; and no instance of a notification loop, of this process
    or any other, is ever the instance of a reconciliation loop, so neither
    can label the other's row. Everything the turns commit is legal. *)
Theorem worker_main_exact settings worker_id jitter n w : sound w ->
  wp (worker_main settings worker_id jitter n) (fun r w' => steady w w' /\
    (forall other, heartbeat_instance_id other "reconciliation" <> heartbeat_instance_id worker_id "notification") /\
    if String.eqb (bot_payment_notify_url settings) "" || String.eqb (bot_notify_token settings) "" then
      r = Ret (2, []) /\ w' = w
    else exists turns w0, r = Ret (0, turns) /\ length turns = n /\ committed w0 = committed w /\
      loop_ran "notification-worker" (heartbeat_instance_id worker_id "notification") w0 turns w') w.
Proof.
  intros Hs. assert (Hid : forall other, heartbeat_instance_id other "reconciliation" <> heartbeat_instance_id worker_id "notification")
    by (intros other E; by apply (loop_instances_differ worker_id other)).
  unfold worker_main, validate_bot_notification_settings.
  destruct (String.eqb (bot_payment_notify_url settings) "");
    [by apply wp_ret; split_and!; [apply steady_refl|done..]|].
  destruct (String.eqb (bot_notify_token settings) "");
    [by apply wp_ret; split_and!; [apply steady_refl|done..]|].
  apply wp_bind, wp_configure; [done|]. intros w1 S1 E1 _. apply wp_bind.
  eapply wp_mono; [apply wp_loop_turns; [apply notification_steady|apply S1]|].
  intros r w2 (turns & -> & Hl & Hran). apply wp_ret. split_and!; [|done|by exists turns, w1].
  eapply steady_trans; [exact S1|]. by eapply loop_ran_steady; [apply S1|].
Qed.

Lemma record_stopped_steady w : sound w -> wp record_stopped (fun r w' => r = Ret tt /\ steady w w') w.
Proof.
  intros Hs. unfold record_stopped. apply wp_bind, wp_new_session; [done|]. intros w1 _ S1. apply wp_bind.
  assert (A : audited [mkPaymentEvent None "admin_bot_stopped" "info" (request_id w1) None] w1
                (snd (insert_event None "admin_bot_stopped" "info" None w1))) by (split; try done; by eexists [_]).
  unfold wp at 1. cbn [fst insert_event]. set (w2 := snd (insert_event None "admin_bot_stopped" "info" None w1)) in *.
  pose proof (steady_audited _ _ _ A (proj1 S1)) as S2.
  apply wp_bind, wp_commit. intros w3 C. pose proof (steady_commit _ _ C (proj1 S2)) as S3.
  apply wp_rollback. intros w4 B. split; [done|]. pose proof (steady_rollback _ _ B (proj1 S3)) as S4.
  exact (steady_trans _ _ _ S1 (steady_trans _ _ _ S2 (steady_trans _ _ _ S3 S4))).
Qed.

Context {TIMES : EventTimes} {TEXTS : ReportTexts} {ZONES : TimeZones} {SENDER : AlertSender}.

End MainFacts.

(** ** Witnesses *)

#[local] Definition worker_settings : Settings :=
  default_settings <| bot_payment_notify_url := "https://shop.example/notify" |> <| bot_notify_token := "t" |>.

#[local] Definition bot_settings : Settings :=
  default_settings <| admin_bot_enabled := true |> <| admin_bot_token := "t" |> <| admin_telegram_ids := "42" |>.

#[local] Definition fixed_zone : TimeZones := {| zone_info := fun _ => Some (fun t =>
  mkLocalTime (str_of_int (t / seconds 86400)) (t / seconds 3600 mod 24) (t / seconds 60 mod 60)) |}.

#[local] Definition no_texts : ReportTexts := {| backup_text := fun _ => "-"; health_summary := "-" |}.

#[local] Definition no_times : EventTimes := fun _ => 0.

Lemma example_sound : sound (world_of (db_of [example_due 1])).
Proof. apply sound_example. vm_compute. reflexivity. Qed.

Lemma worker_main_exact_witness :
  wp (@worker_main calm_env worker_settings "host-1" unit_jitter 2) (fun r w' =>
    steady (world_of (db_of [example_due 1])) w' /\ exists turns, r = Ret (0, turns) /\ length turns = 2%nat)
    (world_of (db_of [example_due 1])).
Proof.
  eapply wp_mono; [apply (@worker_main_exact calm_env calm_rely worker_settings "host-1" unit_jitter 2
    (world_of (db_of [example_due 1])) example_sound)|].
  intros r w' (S & _ & turns & w0 & -> & Hl & _). split; [exact S|]. exists turns. split; [reflexivity|exact Hl].
Defined.

