(* ===== verification/System.v ===== *)
(** The bridge as a whole: what any number of sessions, interleaved at their
    transaction boundaries, can make of the committed database.

    Each handler was proved to commit only legal changes, relying on the other
    sessions to do the same ([Rely]). Here the reliance is discharged: a
    [step] is one handler run from a fresh session, while whatever the others
    commit in between is itself made of steps. *)

From S2P Require Import Prelude PyText Exceptions Config Models ServiceTables Identity Session AuditTrail Ledger.
From S2P Require Import Urls CentralPay Security PayerIdentity Fees Payments Bot Notification Resend.
From S2P Require Import Verification Reconciliation Inspect AgedOut Reviews Attention Stuck Integrity Ops.
From S2P Require Import RateLimit ClientIp Api AlertDelivery AdminAccess Incidents Heartbeat Monitor.
From S2P Require Import ReconStatus Startup HealthWatch DailyReport Loops.

(** ** Operations *)

(** The entry points of the processes, with their arguments: the two HTTP
    handlers, a turn of each of the worker's loops, the operator's command
    line, a message to the admin bot, and a turn of its background loop and
    of the monitor's. *)
Inductive operation :=
  | CreateRequest (settings : Settings) (host : Host) (s : AppState) (request : Request)
      (parsed : ParsedPaymentRequest)
  | CallbackRequest (settings : Settings) (host : Host) (s : AppState) (request : Request)
      (query : list (string * string)) (order : Z) (ct sig : string)
  | NotificationTurn (settings : Settings) (worker_id : string) (jitter : JitterFn)
  | ReconciliationTurn (settings : Settings) (worker_id : string)
  | OperatorCommand (settings : Settings) (revision : option string) (seqs : Sequences) (c : OpsCommand)
  | RecoverAgedOut (settings : Settings) (order_id : string) (confirm : bool)
  | AdminMessage (views : CommandViews) (settings : Settings) (admin_ids : list Z) (fuel : nat) (update : Update)
  | BackgroundTurn (times : EventTimes) (texts : ReportTexts) (zones : TimeZones) (sender : AlertSender)
      (settings : Settings) (admin_ids : list Z) (iid : string) (jitter : JitterFn) (worlds : nat -> HealthWorld)
      (k : nat) (m : HealthMonitor)
  | MonitorTurn (settings : Settings) (worlds : nat -> MonitorEnv) (iid : string) (n : nat) (cycles : Z).

Section Operations.
Context {ENV : Env} {URL : UrlLib}.

Definition run (op : operation) : World -> World :=
  match op with
  | CreateRequest settings host s request parsed => fun w =>
      session (snd (create_custom_payment settings request parsed (mkProcess s w)))
  | CallbackRequest settings host s request query order ct sig => fun w =>
      session (snd (centralpay_callback settings request query order ct sig (mkProcess s w)))
  | NotificationTurn settings worker_id jitter => fun w => snd (notification_turn settings worker_id jitter w)
  | ReconciliationTurn settings worker_id => fun w => snd (reconciliation_turn settings worker_id w)
  | OperatorCommand settings revision seqs c => fun w => snd (ops_main settings revision seqs c w)
  | RecoverAgedOut settings order_id confirm => fun w => snd (cmd_recover_aged_out settings order_id confirm w)
  | AdminMessage views settings admin_ids fuel update =>
      fun w => snd (on_message settings admin_ids fuel update w)
  | BackgroundTurn times texts zones sender settings admin_ids iid jitter worlds k m =>
      fun w => snd (background_turn settings admin_ids iid jitter worlds k m w)
  | MonitorTurn settings worlds iid n cycles => fun w => snd (monitor_turn settings worlds iid n cycles w)
  end.
End Operations.

(** A session nothing was read through yet. *)
Record fresh_session (w : World) : Prop := {
  fs_working : working w = committed w;
  fs_map : identity_map w = ∅
}.

(** One operation, from start to end; the changes of other sessions it can
    see between its transactions are histories themselves. *)
Inductive step : Db -> Db -> Prop :=
  | step_run (E : Env) (U : UrlLib) op w :
      (forall n d, db_ok d -> history d (others n d)) -> fresh_session w ->
      step (committed w) (committed (run op w))
with history : Db -> Db -> Prop :=
  | history_nil d : history d d
  | history_cons d1 d2 d3 : step d1 d2 -> history d2 d3 -> history d1 d3.

Scheme step_mind := Minimality for step Sort Prop
  with history_mind := Minimality for history Sort Prop.
Combined Scheme step_history_mind from step_mind, history_mind.

(** ** Every operation is lawful *)

Section OperationFacts.
Context {ENV : Env} {URL : UrlLib} {RELY : Rely}.

Lemma sound_session w : fresh_session w -> db_ok (committed w) -> sound w.
Proof. intros [Hw Hm] Hok. apply sound_no_map; [done|by rewrite Hw|done]. Qed.

Lemma callback_steady api_key order token guard w : sound w -> identity_map w = ∅ ->
  wp (process_callback api_key order token guard) (fun _ w' => steady w w') w.
Proof.
  intros Hs Hm. apply wp_process_callback; try done.
  - intros w' [S _] _. exact S.
  - intros row w' [S _] _ _ _. exact S.
  - intros row w' [S _] _ _. exact S.
  - intros row row' reply r w' _ [S _ _ _ _ _]. exact S.
Qed.

Lemma creation_steady settings oid amt telegram w : sound w -> committed w = working w ->
  wp (create_payment settings oid amt telegram) (fun _ w' => steady w w') w.
Proof.
  intros Hs Hc. eapply wp_mono; [by apply wp_create_payment|].
  intros r w' [[S _] _|w1 payer row _ _ _ _ (cs & es & row' & _ & [S _ _ _])]; exact S.
Qed.

Lemma idle_steady w w' : idle w w' -> steady w w'.
Proof. intros I. split; [apply I|]. by rewrite (id_committed _ _ I). Qed.

Lemma create_request_steady `{Host} settings request parsed p :
  sound (session p) -> committed (session p) = working (session p) -> identity_map (session p) = ∅ ->
  hwp (create_custom_payment settings request parsed) (fun _ p' => steady (session p) (session p')) p.
Proof.
  intros Hs Hc Hm. eapply hwp_mono; [by apply hwp_create_custom_payment|]. intros r p' O.
  destruct O as [_ _ T _|_ _ I|found w1 w2 _ _ _ _ _ _ I Hrun].
  - by eapply steady_called.
  - by apply idle_steady.
  - eapply steady_trans; [by apply idle_steady|].
    apply (wp_run _ (fun _ w' => steady w2 w') _ _ _ Hrun), creation_steady; [apply I|].
    by rewrite (id_committed _ _ I), (id_working _ _ I).
Qed.

Lemma callback_request_steady `{Host} settings request query order ct sig p :
  sound (session p) -> working (session p) = committed (session p) -> identity_map (session p) = ∅ ->
  hwp (centralpay_callback settings request query order ct sig) (fun _ p' => steady (session p) (session p')) p.
Proof.
  intros Hs Hf Hm. eapply hwp_mono; [by apply hwp_callback|]. intros r p' O.
  destruct (callback_authentic _ _ _ _ _).
  - destruct O as [_ Hrun].
    by apply (wp_run _ (fun _ w' => steady (session p) w') _ _ _ Hrun), callback_steady.
  - by apply O.
Qed.

(** Every operation, run from a fresh session over a well-formed ledger,
    leaves the session sound and commits only legal changes. *)
Lemma run_steady op w : fresh_session w -> db_ok (committed w) -> steady w (run op w).
Proof.
  intros F Hok. pose proof (sound_session w F Hok) as Hs. destruct F as [Hc Hm].
  destruct op; cbn [run].
  - by apply (create_request_steady settings request parsed (mkProcess s w)).
  - by apply (callback_request_steady settings request query order ct sig (mkProcess s w)).
  - change (wp (notification_turn settings worker_id jitter) (fun _ w' => steady w w') w).
    by apply loop_turn_steady; [apply notification_steady|].
  - change (wp (reconciliation_turn settings worker_id) (fun _ w' => steady w w') w).
    by apply loop_turn_steady; [apply reconciliation_steady|].
  - change (wp (ops_main settings revision seqs c) (fun _ w' => steady w w') w).
    by apply ops_steady.
  - change (wp (cmd_recover_aged_out settings order_id confirm) (fun _ w' => steady w w') w).
    by apply recover_steady; [| |apply clean_empty].
  - change (wp (on_message settings admin_ids fuel update) (fun _ w' => steady w w') w).
    by apply on_message_steady.
  - change (wp (background_turn settings admin_ids iid jitter worlds k m) (fun _ w' => steady w w') w).
    by apply background_turn_steady.
  - change (wp (monitor_turn settings worlds iid n cycles) (fun _ w' => steady w w') w).
    eapply wp_mono; [by apply wp_monitor_turn|]. by intros r w' [S _].
Qed.
End OperationFacts.

(** ** All histories *)

Lemma step_history_legal :
  (forall d d', step d d' -> db_ok d -> db_legal d d') /\
  (forall d d', history d d' -> db_ok d -> db_legal d d').
Proof.
  apply step_history_mind.
  - intros E U op w _ HR F Hok.
    assert (RELY : @Rely E) by (intros n x Hx; by apply HR).
    by apply (@run_steady E U RELY).
  - reflexivity.
  - intros d1 d2 d3 _ L1 _ L2 Hok. transitivity d2; [auto|]. by apply L2, (db_legal_ok d1); auto.
Qed.

Lemma history_legal d d' : history d d' -> db_ok d -> db_legal d d'.
Proof. apply step_history_legal. Qed.

Lemma history_one d d' : step d d' -> history d d'.
Proof. intros H. by eapply history_cons; [|apply history_nil]. Qed.

Lemma empty_db_ok : db_ok empty_db.
Proof.
  split.
  - intros i p Hp. change ((∅ : gmap Z Payment) !! i = Some p) in Hp. by rewrite lookup_empty in Hp.
  - intros i p Hp. change ((∅ : gmap Z Payment) !! i = Some p) in Hp. by rewrite lookup_empty in Hp.
  - apply identities_ok_empty.
  - apply unique_orders_empty.
  - apply unique_col_none.
  - apply unique_col_none.
  - by apply service_ok_empty.
Qed.

(** ** Properties *)

(** C1: Every database the bridge can reach from an empty one, by any number
    of sessions interleaved at their transaction boundaries, is well formed:
    there is one payment per bot order and per gateway order; no gateway
    reference is credited to two payments; a payment carries a reference exactly when it is verified,
    and only a verified payment is pending delivery or delivered; a payment
    in [link_created] has a link; the payer is charged amount plus fee; and
    the identity table gives every customer one gateway user id of its own. *)
Theorem reachable_ledger_ok d :
  history empty_db d ->
  db_ok d /\
  (forall i p, payments d !! i = Some p ->
     id p = i /\
     is_some (reference_id p) = is_some (gateway_verified_at p) /\
     (delivery_status (status p) = true -> is_some (gateway_verified_at p) = true) /\
     (status p = LINK_CREATED -> live_link p = true) /\
     payable_amount p = amount p + fee_amount p) /\
  (forall i j p q, payments d !! i = Some p -> payments d !! j = Some q -> i <> j ->
     bot_order_id p <> bot_order_id q /\
     gateway_order_id p <> gateway_order_id q /\
     (reference_id p = reference_id q -> reference_id p = None)).
Proof.
  intros H. assert (Hok : db_ok d).
  { eapply db_legal_ok; [apply (history_legal _ _ H)|]; apply empty_db_ok. }
  split; [done|]. destruct Hok as [Hk Hrow _ Ho Hr Hg]. split.
  - intros i p Hp. pose proof (Hrow i p Hp) as R.
    apply row_ok_spec in R as (R1 & R2 & [_ R3] & (_ & _ & R4) & _). by rewrite (Hk i p Hp).
  - intros i j p q Hp Hq Hne. split_and!.
    + intros E. by apply Hne, (Ho i j p q).
    + intros E. apply Hne, (Hg i j p q (gateway_order_id p)); [done..|by unfold gateway_key; rewrite E].
    + intros E. destruct (reference_id p) as [v|] eqn:Ev; [|done].
      exfalso. by apply Hne, (Hr i j p q v).
Qed.

(** C2: What is settled stays settled. However a well-formed ledger evolves,
    no payment disappears; its order, amount, fee and payable amount never
    change; a verified payment keeps its verification time, reference and
    card; an accepted delivery keeps its status and time; an unverified
    payment under review stays there, unverified; the terms of an issued link
    and the identity of a Telegram payer are frozen; no identity mapping and
    no audit event is ever lost. *)
Theorem history_keeps_settled_facts d d' i p :
  history d d' -> db_ok d -> payments d !! i = Some p ->
  (exists p', payments d' !! i = Some p' /\
     financial_snapshot p' = financial_snapshot p /\
     (is_some (gateway_verified_at p) = true -> verification_fact p' = verification_fact p) /\
     (status p = BOT_NOTIFY_ACCEPTED ->
        status p' = BOT_NOTIFY_ACCEPTED /\ bot_notify_accepted_at p' = bot_notify_accepted_at p) /\
     (status p = MANUAL_REVIEW -> gateway_verified_at p = None ->
        status p' = MANUAL_REVIEW /\ gateway_verified_at p' = None) /\
     (live_link p = true -> link_fact p' = link_fact p) /\
     (telegram_payer p = true -> payer_fact p' = payer_fact p)) /\
  (forall j r, payer_identities d !! j = Some r -> payer_identities d' !! j = Some r) /\
  (exists l, payment_events d' = l ++ payment_events d).
Proof.
  intros H Hok Hp. destruct (history_legal _ _ H Hok) as [R _ T I _ _ _ _].
  destruct (R i p Hp) as (p' & Hp' & [[E1 E2 E3 E4 E5 E6] _]). split; [|by split].
  exists p'. by split_and!.
Qed.

(** C30: Alerts, incidents and heartbeats keep their history. However a
    well-formed database evolves, no alert and no incident disappears; an
    alert keeps what it says, and never changes again once it is delivered,
    failed for good or suppressed; a resolved incident is history; at most
    one incident per check is ever open; and no worker instance has two
    heartbeat rows. *)
Theorem history_keeps_service_facts d d' :
  history d d' -> db_ok d ->
  (forall k a, admin_alerts d !! k = Some a -> exists a', admin_alerts d' !! k = Some a' /\
     alert_fact a' = alert_fact a /\ (alert_final a = true -> a' = a) /\ alert_attempts a <= alert_attempts a') /\
  (forall k i, monitor_incidents d !! k = Some i -> exists i', monitor_incidents d' !! k = Some i' /\
     incident_fact i' = incident_fact i /\ (incident_status i = RESOLVED -> i' = i)) /\
  (forall j k x y check, monitor_incidents d' !! j = Some x -> monitor_incidents d' !! k = Some y ->
     open_key x = Some check -> open_key y = Some check -> j = k) /\
  (forall j k x y, worker_heartbeats d' !! j = Some x -> worker_heartbeats d' !! k = Some y ->
     instance_id x = instance_id y -> j = k).
Proof.
  intros H Hok. pose proof (history_legal _ _ H Hok) as L. destruct (le_service _ _ L) as [A [I _] _].
  pose proof (ok_service _ (db_legal_ok _ _ L Hok)) as [_ [_ U] Hh]. split_and!.
  - intros k a Ha. destruct (tl_rows _ _ _ _ A k a Ha) as (a' & Ha' & []). by exists a'.
  - intros k i Hi. destruct (tl_rows _ _ _ _ I k i Hi) as (i' & Hi' & []). by exists i'.
  - intros j k x y check Hx Hy Ex Ey. exact (U j k x y check Hx Hy Ex Ey).
  - intros j k x y Hx Hy E. apply (Hh j k x y (instance_id x)); cbn; congruence.
Qed.

(** ** A day at the shop

    A fee of 10% is set; order ["order-1"] of 250,000 by the Telegram user 42
    gets its link; the payer pays and returns to the callback; the worker
    notifies the bot. *)
Definition shop_env : Env := {|
  clock := clock; randbelow := randbelow; token_hex := token_hex;
  locked_by_others := locked_by_others; others := fun _ d => d; alert_insert_fails := alert_insert_fails;
  gateway_post := fun _ endpoint _ => GatewayResponse 200 (Some (JObj
    (if String.eqb endpoint "getLink.php"
     then [("status", JStr "success"); ("data", JObj [("redirectUrl", JStr "https://pay.example/x")])]
     else paid_body 275000)));
  bot_post := fun _ _ => BotResponse 200 None
|}.

Definition after (op : operation) (d : Db) : Db := committed (@run shop_env _ op (world_of d)).

Definition priced : Db :=
  after (OperatorCommand default_settings None ∅ (OpFee (FeeSet "10" "opening" "operator" false))) empty_db.
Definition linked : Db := after (CreateRequest default_settings quiet_host fresh_app shop_request
  (shop_body "inbound-api-key-0001" 250000)) priced.
Definition paid : Db :=
  let ct := "00112233445566778899aabbccddeeff" in
  let sig := callback_signature (callback_hmac_secret default_settings) 100000000006 ct in
  after (CallbackRequest default_settings quiet_host fresh_app shop_request
    [("orderId", "100000000006"); ("ct", ct); ("sig", sig)] 100000000006 ct sig) linked.
Definition delivered : Db := after (NotificationTurn default_settings "w" unit_jitter) paid.

Definition stage (d : Db) :=
  (fun p => (status p, (payable_amount p, reference_id p))) <$> payments d !! 1.

Example shop_stages :
  stage linked = Some (LINK_CREATED, (275000, None)) /\
  stage paid = Some (BOT_NOTIFY_PENDING, (275000, Some "R77")) /\
  stage delivered = Some (BOT_NOTIFY_ACCEPTED, (275000, Some "R77")).
Proof. vm_compute. split_and!; reflexivity. Qed.

Lemma step_after op d : step d (after op d).
Proof.
  refine (step_run shop_env no_brackets op (world_of d) (fun _ x _ => history_nil x) _). by split.
Qed.

Lemma shop_opens : history empty_db paid.
Proof.
  apply history_cons with priced; [apply step_after|].
  apply history_cons with linked; [apply step_after|]. apply history_one, step_after.
Qed.

Lemma reachable_ledger_ok_witness :
  stage paid = Some (BOT_NOTIFY_PENDING, (275000, Some "R77")) /\ db_ok paid.
Proof.
  split; [vm_compute; reflexivity|]. exact (proj1 (reachable_ledger_ok paid shop_opens)).
Defined.

Lemma history_keeps_settled_facts_witness :
  (exists p, payments paid !! 1 = Some p /\ is_some (gateway_verified_at p) = true) /\
  forall p, payments paid !! 1 = Some p ->
    exists p', payments delivered !! 1 = Some p' /\ verification_fact p' = verification_fact p.
Proof.
  assert (V : option_map (fun p => is_some (gateway_verified_at p)) (payments paid !! 1) = Some true)
    by (vm_compute; reflexivity).
  destruct (payments paid !! 1) as [q|] eqn:Eq; [injection V as V|discriminate V].
  split; [exists q; split; [reflexivity|exact V]|]. intros p Hp. injection Hp as <-.
  destruct (history_keeps_settled_facts paid delivered 1 q) as [(p' & Hp' & _ & Hv & _) _].
  - exact (history_one _ _ (step_after _ _)).
  - eapply db_legal_ok; [exact (history_legal _ _ shop_opens empty_db_ok)|exact empty_db_ok].
  - exact Eq.
  - exists p'. split; [exact Hp'|exact (Hv V)].
Defined.

(** The monitor finds the disk recovered; the alert that had failed for good
    stays as it was. *)
Definition watched : Db := after (MonitorTurn watching_settings (fun _ => calm_world) "m" 0 0) disk_db.

Lemma history_keeps_service_facts_witness :
  (exists i, monitor_incidents watched !! 1 = Some i /\ incident_status i = RESOLVED) /\
  admin_alerts watched !! 1 = Some failed_disk_alert.
Proof.
  assert (V : option_map incident_status (monitor_incidents watched !! 1) = Some RESOLVED) by (vm_compute; reflexivity).
  destruct (history_keeps_service_facts disk_db watched) as (A & _).
  - exact (history_one _ _ (step_after _ _)).
  - exact (so_ok _ disk_sound).
  - split.
    + destruct (monitor_incidents watched !! 1) as [i|]; [|discriminate V]. exists i. split; [reflexivity|].
      injection V as V. exact V.
    + destruct (A 1 failed_disk_alert eq_refl) as (a' & Ha' & _ & Hf & _). rewrite Ha'. f_equal. apply Hf. reflexivity.
Defined.
